(* ===== verification/_CoqProject ===== *)
-Q . S2P
Prelude.v
Json.v
AgentRun.v
Policy.v
Cluster.v
Strategy.v
Events.v
Intent.v
Store.v
Reservations.v
Queue.v
SchedulingIntent.v
Registry.v
SchedulerSteps.v
Engine.v
RunRepo.v
RunService.v
HttpApi.v
Outbox.v
Rfc3339.v
Delivery.v
JsonDecode.v
OpTypes.v
Builder.v
Lifecycle.v
Operator.v
OperatorInvariant.v
OperatorExamples.v
Handoff.v
Paths.v
Url.v
RunnerTask.v
RunnerExec.v
RunnerArtifacts.v
RunnerRun.v
RunnerExamples.v
Artifacts.v
ArtifactStores.v
ArtifactApi.v
ArtifactExamples.v
GoText.v
Config.v
HandoffConsumer.v
HttpServer.v
Database.v
Projects.v
DeepCopy.v
SchedulerMetrics.v
Flags.v
ClusterCtl.v
Process.v
OperatorMain.v
