(* ===== verification/Prelude.v ===== *)
(** * AgentForge: a verification development

    AgentForge runs coding agents for tenants. Its programs, under src/, are

    - the platform (services/platform-api): an HTTP API over a PostgreSQL store, a
      scheduler that claims queued runs and assigns them to execution clusters, a relay
      that publishes the events of the store's outbox to Kafka, and a consumer that
      hands scheduled runs to Kubernetes;
    - the operator (operator): a Kubernetes controller that turns an AgentRun resource
      into a Job with its workspace, service account and network policy, observes it,
      retries it and reports its outcome;
    - the runner (agent-runner): the process inside the Job, which verifies the signed
      task, checks out a repository, executes commands under a policy, and leaves
      artifacts, a manifest and result evidence behind.

    A run goes through all of them: created through the API, claimed and scheduled by a
    transaction that also writes an event and a desired state, published, projected to
    an AgentRun resource, built into a Job, executed, and judged by the evidence the
    runner wrote. The development follows that path, file by file.

    ** Conventions

    Go's values are modelled as the source has them. Integers are [Z]; where a width
    matters the wrap-around is written out ([wrap32], [wrap64], [add64], [mul64]).
    Instants and durations are [Z] in nanoseconds, instant 0 being Go's zero time;
    UUIDs are 128-bit [Z]; strings are byte strings. A function that returns an error is
    in the monad [res] ([Ok] or [Err], bind written with an arrow); early returns are
    [failIf]. Struct updates are [r <| f := v |>]. Transactions are in the monad of
    Store.v, where a failure leaves the tables as they were; disk operations are in the
    monad of ArtifactStores.v with Hoare triples. Processes that share state are step
    relations, and what holds of them holds in every state reachable by [rtc].

    Code outside src/ is a class or an argument with its documented behaviour as laws:
    UUID text ([UUIDs], [UUIDText], [UUIDForm]), SHA-256 ([SHA256]), Ed25519, URL parsing
    of stored references ([NetURL]), locale order ([Collation]), Kubernetes API calls and
    admission ([World], [Admission]), the Kafka client, the minio client ([S3Client]),
    the operating system's files and processes. The numbered properties over such a
    class have a witness with a concrete instance. Standard library text handling is defined:
    Json.v and JsonDecode.v (encoding/json), Rfc3339.v (time), GoText.v (durations, with
    the binary64 arithmetic of their fractions, integers, booleans, host and port), Url.v
    (net/url), Paths.v (path, path/filepath).

    ** The platform's domain and store

    - AgentRun.v: domain/agent_run.go. The transition graph refines the published state
      diagram; history and outcome invariants over every sequence of transitions.
    - Policy.v: domain/scheduler_policy.go. The eligibility rules decide exactly what the
      limits say.
    - Cluster.v, Strategy.v: domain/cluster.go, reservation.go, scheduler/strategy.go.
      The selected cluster is the optimum of the feasible ones, in exact arithmetic.
    - Events.v: internal/events. Every constructed event passes its own validation.
    - Intent.v: domain/execution_intent.go. What is loaded and resolved is valid.
    - Store.v: the tables and constraints of db/migrations and the transaction monad.
    - Reservations.v, Queue.v, SchedulingIntent.v, Registry.v: the repositories the
      scheduler uses. Capacity and budget are never overcommitted; a claim is exclusive
      while its lease lasts and fair among tenants; scheduling, deferring and rejecting are
      atomic and idempotent; candidates are exactly the clusters a schedule admits.
    - SchedulerSteps.v, Engine.v: any number of schedulers interleaved on one store, and
      the engine's loop. The invariants hold in every interleaving and a claim is decided
      at most once.
    - RunRepo.v, RunService.v, HttpApi.v: runs in the store, the run service with
      idempotent creation, and the HTTP handlers of runs. Tenants are isolated; pages are
      complete.

    ** Events on their way

    - Outbox.v: the relay refines an at-least-once protocol.
    - Delivery.v: Kafka records, the retry ladder and the processed-event transaction.
      What is sent is what is received; failures climb a ladder of four deliveries;
      effects happen once.
    - Handoff.v: the handoff service. A scheduled event ends in exactly the resource its
      stored intent describes, and that resource passes the operator's validation.

    ** The operator

    - OpTypes.v, Builder.v: the resource, names, validation and the objects built from
      it, which are exactly those the restricted profile admits.
    - Lifecycle.v, Operator.v, OperatorInvariant.v, OperatorExamples.v: observation of a
      Job, one reconciliation with every API call failing at will, and the controller
      running with stale reads, cancellation and deletion. Attempts only move forward,
      outcomes are final, cancellation ends by its deadline.

    ** The runner

    - RunnerTask.v, RunnerExec.v, RunnerArtifacts.v, RunnerRun.v, RunnerExamples.v: the
      configuration the operator writes is the one the runner reads; only signed tasks
      run; commands stay in the workspace and the allow list, with secrets redacted; the
      manifest is written last, commits to exactly what was stored, and only a complete
      run leaves the evidence the operator accepts as success.

    ** Artifacts

    - Artifacts.v, ArtifactStores.v, ArtifactApi.v, ArtifactExamples.v: metadata,
      tombstones, the file and S3 stores and the routes. Deletions and reads interleave
      and die at any point; uploads are atomic; keys of the runner and of the platform
      agree.

    ** Configuration, processes and the edges

    - Config.v, Flags.v: internal/config and the flag package. A scheduler configuration
      that loads makes an engine whose claims are never refused; a development identity
      exists only where it is permitted; flag assignments parse to what was written.
    - HandoffConsumer.v: the consumer loops of cmd/agentrun-handoff on shared partitions,
      with crashes, rebalances and lost answers. No event is lost, and an undisturbed
      pass makes progress.
    - HttpServer.v: the middleware chain and the routing table of httpapi/server.go. Every
      request gets one complete answer.
    - Database.v: internal/database. The tenant setting of a transaction is confined to
      it, on connections a pool hands out again.
    - Projects.v: tenants and projects. The catalogue is unique and complete by pages.
    - SchedulerMetrics.v: the counters of the scheduler and the wrappers that feed them.
    - Process.v: the run functions of the API, scheduler and handoff processes as traces
      of effects with deferred calls, and the Kubernetes client selector. The traces refine
      a monitor of acquisition, release, readiness and shutdown.
    - ClusterCtl.v: cmd/clusterctl. The command line of a cluster registers exactly it.
    - OperatorMain.v: operator/cmd/main.go. The manager's options are those of the flags.
    - DeepCopy.v: the generated deep copies of the custom resource, on a heap. A copy is
      equal to the original and shares no cell with it.

    ** Bounds and fuel

    Fuel appears where recursion is on text or on a loop without a structural argument:
    JSON parsing (one more than the number of bytes, [parseValue_fuel]), duration terms
    (the number of bytes, [parseTerms_fuel]), path cleaning and counting characters (the
    number of bytes), a client following pages (one more than the number of rows). The
    lemmas named say that more fuel changes nothing. Loops over the outside world (the
    relay, the engine, controllers, consumers) are step relations and have none. Instants
    are assumed to be before the year 10000 where text of four-digit years is written.

    ** Not modelled

    Log lines, tracing and the text of the metrics endpoints (internal/logging, the
    ServeHTTP methods of the metrics, the operator's and the handoff's counters), because
    nothing in the programs reads them back; build information; the registration of the
    operator's types with its scheme and the migration command, which only call
    libraries; SQL as text: statements are modelled by their effect on the tables, and
    the tables by the constraints the repositories rely on; the text of error messages,
    unless another program reads it; the clients of Kafka, S3, Kubernetes and PostgreSQL,
    whose answers are arguments. Memory is modelled for the deep copies alone: elsewhere
    the sources share no mutable object between components except through the stores
    above.
*)

From Stdlib Require Export ZArith Lia.
From stdpp Require Export base tactics decidable numbers option list gmap sets strings sorting relations pretty.

(** ** Records with functional update

    Go assigns fields of a struct in place.  [r <| f := v |>] is the struct [r]
    with field [f] replaced; [Settable R] gives the eta-expansion from which the
    update of any field is derived. *)

Class Settable (R : Type) := eta_expand : R -> R.

Class Setter {R T : Type} (getter : R -> T) := set : (T -> T) -> R -> R.
Arguments set {R T} getter {_} _ _ /.

Ltac derive_setter getter :=
  lazymatch type of getter with
  | ?R -> _ =>
      let inst := constr:(_ : Settable R) in
      let body := eval hnf in inst in
      let abstracted := eval pattern getter in body in
      lazymatch abstracted with
      | ?f _ =>
          let s := constr:(fun g (r : R) => f (fun r' : R => g (getter r')) r) in
          let s := eval cbv beta in s in
          exact s
      end
  end.

#[export] Hint Extern 0 (Setter ?getter) => derive_setter getter : typeclass_instances.

Declare Scope go_scope.
Delimit Scope go_scope with go.

Notation "r <| f := v |>" := (set f (fun _ => v) r)
  (at level 1, f at next level, left associativity,
   format "r <| f  :=  v |>") : go_scope.
Notation "a == b" := (bool_decide (a = b)) (at level 70, no associativity) : go_scope.
Notation "a != b" := (negb (bool_decide (a = b))) (at level 70, no associativity) : go_scope.
Open Scope go_scope.
Open Scope Z_scope.

(** ** Errors as values

    The sentinel errors of [domain/errors.go], [ports/artifacts.go] and
    [application/artifacts] that callers distinguish with [errors.Is]; an error built by [fmt.Errorf] without a sentinel is [ErrPlain].
    Text wrapped around a sentinel is not kept.  [NoCapacityError] is the
    scheduler's typed deferral (application/scheduler/strategy.go),
    [EligibilityDeniedError] a refusal at final admission with the decision's
    code; [Panic] is a
    Go run-time panic, which no caller in the modelled code recovers. *)

Inductive error :=
| ErrValidation
| ErrNotFound
| ErrConflict
| ErrForbidden
| ErrVersionConflict
| ErrInvalidTransition
| ErrCapacityUnavailable
| ErrBudgetUnavailable
| ErrRunTerminal
| ErrRetryNotAllowed
| ErrUnauthenticated
| ErrUnauthorized
| ErrIdempotencyKeyReused
| ErrArtifactNotFound
| ErrPresigningUnsupported
| ErrDownloadUnavailable
| ErrDeletionUnavailable
| ErrPlain (msg : string)
| NoCapacityError (reason : string)
| EligibilityDeniedError (code : string)
| Panic (msg : string).

#[export] Instance error_eq_dec : EqDecision error.
Proof. solve_decision. Defined.

Inductive res (A : Type) :=
| Ok (a : A)
| Err (e : error).
Arguments Ok {A} a.
Arguments Err {A} e.

#[export] Instance res_eq_dec {A} `{!EqDecision A} : EqDecision (res A).
Proof. solve_decision. Defined.

#[export] Instance res_ret : MRet res := fun A a => Ok a.
#[export] Instance res_bind : MBind res := fun A B f m =>
  match m with Ok a => f a | Err e => Err e end.

(** The early return [if cond { return err }]. *)
Definition failIf (cond : bool) (e : error) : res unit :=
  if cond then Err e else Ok tt.

Definition is_ok {A} (r : res A) : bool :=
  match r with Ok _ => true | Err _ => false end.

(** ** Machine integers *)

(** Two's-complement wrap-around of Go's [int32]. *)
Definition wrap32 (z : Z) : Z := (z + 2 ^ 31) mod 2 ^ 32 - 2 ^ 31.

(** Two's-complement wrap-around of Go's [int64] (and [int] on 64-bit targets). *)
Definition wrap64 (z : Z) : Z := (z + 2 ^ 63) mod 2 ^ 64 - 2 ^ 63.
Definition add64 (a b : Z) : Z := wrap64 (a + b).
Definition sub64 (a b : Z) : Z := wrap64 (a - b).
Definition mul64 (a b : Z) : Z := wrap64 (a * b).
Definition in_int64 (z : Z) : Prop := - 2 ^ 63 <= z < 2 ^ 63.

(** ** Time

    An instant is the number of nanoseconds since the zero [time.Time];
    the location attached by [UTC] is not observable here. *)

Notation Time := Z (only parsing).
Notation Duration := Z (only parsing).
Definition IsZero (t : Time) : bool := t =? 0.
Definition UTC (t : Time) : Time := t.
Definition After (t u : Time) : bool := u <? t.
Definition Before (t u : Time) : bool := t <? u.
Definition Add (t : Time) (d : Duration) : Time := t + d.

Definition Nanosecond : Duration := 1.
Definition Millisecond : Duration := 1000000.
Definition Second : Duration := 1000000000.
Definition Minute : Duration := 60 * Second.
Definition Hour : Duration := 60 * Minute.

(** [t.Sub(u)] saturates at the bounds of [time.Duration]. *)
Definition TimeSub (t u : Time) : Duration :=
  Z.max (- 2 ^ 63) (Z.min (2 ^ 63 - 1) (t - u)).

(** ** UUIDs

    The 16-byte array of [uuid.UUID] as one number; [uuid.Nil] is the zero
    array.  The functions of the uuid package are in the class [UUIDs]. *)

Notation UUID := Z (only parsing).
Definition uuidNil : UUID := 0.
Definition isUUID (u : UUID) : Prop := 0 <= u < 2 ^ 128.

(** What the code uses of github.com/google/uuid: [String] is the canonical
    36-character text (an injective encoding), [Version] the version field.
    The nil UUID has version 0. *)
Class UUIDs := {
  uuidString : UUID -> string;
  uuidVersion : UUID -> Z;
  uuidString_inj : forall u v, isUUID u -> isUUID v -> uuidString u = uuidString v -> u = v;
  uuidString_length : forall u, isUUID u -> String.length (uuidString u) = 36%nat;
  uuidVersion_nil : uuidVersion uuidNil = 0;
}.

(** ** Strings as bytes *)

Definition byte_in (lo hi : N) (c : Ascii.ascii) : bool :=
  (N.leb lo (Ascii.N_of_ascii c) && N.leb (Ascii.N_of_ascii c) hi)%bool.
Definition byte_is (n : N) (c : Ascii.ascii) : bool := N.eqb (Ascii.N_of_ascii c) n.

Definition lowerAlpha (c : Ascii.ascii) : bool := byte_in 97 122 c.
Definition digit (c : Ascii.ascii) : bool := byte_in 48 57 c.
Definition lowerAlnum (c : Ascii.ascii) : bool := lowerAlpha c || digit c.
Definition lowerHex (c : Ascii.ascii) : bool := byte_in 97 102 c || digit c.
Definition hyphen (c : Ascii.ascii) : bool := byte_is 45 c.
Definition dot (c : Ascii.ascii) : bool := byte_is 46 c.
Definition underscore (c : Ascii.ascii) : bool := byte_is 95 c.
Definition slash (c : Ascii.ascii) : bool := byte_is 47 c.
Definition colon (c : Ascii.ascii) : bool := byte_is 58 c.

Definition dotByte : Ascii.ascii := Ascii.ascii_of_nat 46.
Definition hyphenByte : Ascii.ascii := Ascii.ascii_of_nat 45.
Definition slashByte : Ascii.ascii := Ascii.ascii_of_nat 47.
Definition commaByte : Ascii.ascii := Ascii.ascii_of_nat 44.

Definition bytes (s : string) : list Ascii.ascii := String.list_ascii_of_string s.
Definition len (s : string) : Z := Z.of_nat (String.length s).

(** [^[first][rest]{lo,hi}$] over byte classes. *)
Definition matchClass (first rest : Ascii.ascii -> bool) (lo hi : Z) (s : string) : bool :=
  match bytes s with
  | [] => false
  | c :: cs => first c && forallb rest cs && (lo <=? Z.of_nat (length cs)) && (Z.of_nat (length cs) <=? hi)
  end.

(** [unicode.IsSpace] on UTF-8 text: the one-, two- and three-byte encodings of
    the white-space code points. *)
Definition space1 (a : Ascii.ascii) : bool := byte_in 9 13 a || byte_is 32 a.
Definition space2 (a b : Ascii.ascii) : bool :=
  byte_is 194 a && (byte_is 133 b || byte_is 160 b).
Definition space3 (a b c : Ascii.ascii) : bool :=
  (byte_is 225 a && byte_is 154 b && byte_is 128 c)
  || (byte_is 226 a && byte_is 128 b
      && (byte_in 128 138 c || byte_is 168 c || byte_is 169 c || byte_is 175 c))
  || (byte_is 226 a && byte_is 129 b && byte_is 159 c)
  || (byte_is 227 a && byte_is 128 b && byte_is 128 c).

Section Trim.
Context (s2 : Ascii.ascii -> Ascii.ascii -> bool).
Context (s3 : Ascii.ascii -> Ascii.ascii -> Ascii.ascii -> bool).

(** Drop leading white space, code point by code point. *)
Fixpoint trimFront (l : list Ascii.ascii) : list Ascii.ascii :=
  match l with
  | [] => []
  | a :: l1 =>
      if space1 a then trimFront l1 else
      match l1 with
      | [] => l
      | b :: l2 =>
          if s2 a b then trimFront l2 else
          match l2 with
          | [] => l
          | c :: l3 => if s3 a b c then trimFront l3 else l
          end
      end
  end.

Definition startsSpace (l : list Ascii.ascii) : bool :=
  match l with
  | [] => false
  | a :: l1 =>
      space1 a ||
      match l1 with
      | [] => false
      | b :: l2 => s2 a b || match l2 with [] => false | c :: _ => s3 a b c end
      end
  end.

Lemma trimFront_fixed l : startsSpace l = false -> trimFront l = l.
Proof.
  destruct l as [|a [|b [|c l]]]; simpl; auto;
    repeat (case_match; simpl; try done).
Qed.

Lemma trimFront_spec l :
  startsSpace (trimFront l) = false /\ exists p, l = p ++ trimFront l.
Proof.
  induction l as [l IH] using (induction_ltof1 _ (@length Ascii.ascii)).
  unfold ltof in IH.
  destruct l as [|a l1]; [simpl; split; [done|by exists []]|].
  assert (step : forall p l', a :: l1 = p ++ l' -> (length l' < length (a :: l1))%nat ->
    trimFront (a :: l1) = trimFront l' ->
    startsSpace (trimFront (a :: l1)) = false /\ exists p, a :: l1 = p ++ trimFront (a :: l1)).
  { intros p l' Heq Hlen ->. destruct (IH l' Hlen) as [Hs [q Hq]]. split; [done|].
    exists (p ++ q). by rewrite <-app_assoc, <-Hq. }
  destruct (startsSpace (a :: l1)) eqn:Hst.
  - revert Hst; cbn [startsSpace]. destruct (space1 a) eqn:H1.
    { intros _. apply (step [a] l1); simpl; rewrite ?H1; auto with lia. }
    destruct l1 as [|b l2]; [done|]. cbn [orb]. destruct (s2 a b) eqn:H2.
    { intros _. apply (step [a; b] l2); simpl; rewrite ?H1, ?H2; auto with lia. }
    destruct l2 as [|c l3]; [done|]. cbn [orb]. intros H3.
    apply (step [a; b; c] l3); simpl; rewrite ?H1, ?H2, ?H3; auto with lia.
  - rewrite (trimFront_fixed _ Hst). split; [done|by exists []].
Qed.

Lemma startsSpace_prefix l k :
  startsSpace l = true -> startsSpace (l ++ k) = true.
Proof.
  destruct l as [|a [|b [|c l]]]; simpl; try done.
  - destruct (space1 a); simpl; done.
  - destruct (space1 a), (s2 a b); simpl; done.
Qed.
End Trim.

Definition trimLeft := trimFront space2 space3.
Definition trimBack := trimFront (fun b a => space2 a b) (fun c b a => space3 a b c).
Definition trimRight (l : list Ascii.ascii) : list Ascii.ascii := reverse (trimBack (reverse l)).

(** [strings.TrimSpace]. *)
Definition TrimSpace (s : string) : string :=
  String.string_of_list_ascii (trimRight (trimLeft (bytes s))).

Lemma bytes_of_list l : bytes (String.string_of_list_ascii l) = l.
Proof. apply String.list_ascii_of_string_of_list_ascii. Qed.
Lemma of_list_bytes s : String.string_of_list_ascii (bytes s) = s.
Proof. apply String.string_of_list_ascii_of_string. Qed.

Lemma bytes_inj s t : bytes s = bytes t -> s = t.
Proof. intros H. by rewrite <-(of_list_bytes s), H, of_list_bytes. Qed.

Lemma length_bytes s : length (bytes s) = String.length s.
Proof. unfold bytes. induction s; simpl; congruence. Qed.

Lemma trimRight_prefix l : exists q, l = trimRight l ++ q.
Proof.
  unfold trimRight, trimBack.
  destruct (trimFront_spec (fun b a => space2 a b) (fun c b a => space3 a b c) (reverse l))
    as [_ [p Hp]].
  exists (reverse p). rewrite <-reverse_app, <-Hp. by rewrite reverse_involutive.
Qed.

(** Trimming twice is trimming once. *)
Lemma TrimSpace_idemp s : TrimSpace (TrimSpace s) = TrimSpace s.
Proof.
  unfold TrimSpace. rewrite bytes_of_list. f_equal.
  set (l := trimLeft (bytes s)).
  assert (Hl : startsSpace space2 space3 l = false) by apply trimFront_spec.
  destruct (trimRight_prefix l) as [q Hq].
  assert (trimLeft (trimRight l) = trimRight l) as ->.
  { apply trimFront_fixed. destruct (startsSpace _ _ (trimRight l)) eqn:E; [|done].
    apply (startsSpace_prefix _ _ _ q) in E. rewrite <-Hq in E. congruence. }
  unfold trimRight. rewrite reverse_involutive. f_equal. apply trimFront_fixed.
  unfold trimBack. apply trimFront_spec.
Qed.

(** Printable ASCII other than the space is never trimmed. *)
Definition graphic (c : Ascii.ascii) : bool := byte_in 33 126 c.

Lemma graphic_is n c : graphic c = true -> (126 < n)%N -> byte_is n c = false.
Proof.
  unfold graphic, byte_in, byte_is. rewrite andb_true_iff, !N.leb_le. intros [_ Hc] Hn. apply N.eqb_neq. lia.
Qed.

Lemma graphic_space1 c : graphic c = true -> space1 c = false.
Proof. by destruct c as [[] [] [] [] [] [] [] []]. Qed.

Lemma graphic_not_space s2 s3 l :
  (forall a b, graphic a = true -> graphic b = true -> s2 a b = false) ->
  (forall a b c, graphic a = true -> graphic b = true -> graphic c = true -> s3 a b c = false) ->
  forallb graphic l = true -> startsSpace s2 s3 l = false.
Proof.
  intros H2 H3 Hl. destruct l as [|a l]; [done|]. cbn [forallb startsSpace] in *. apply andb_true_iff in Hl as [Ha Hl].
  rewrite graphic_space1 by done. cbn [orb].
  destruct l as [|b l]; [done|]. cbn [forallb] in Hl. apply andb_true_iff in Hl as [Hb Hl]. rewrite H2 by done. cbn [orb].
  destruct l as [|c l]; [done|]. cbn [forallb] in Hl. apply andb_true_iff in Hl as [Hc _]. by apply H3.
Qed.

Lemma TrimSpace_graphic s : forallb graphic (bytes s) = true -> TrimSpace s = s.
Proof.
  intros Hs. unfold TrimSpace, trimLeft, trimRight, trimBack.
  assert (Hrev : forallb graphic (reverse (bytes s)) = true).
  { apply forallb_forall. intros c Hc. apply (proj1 (forallb_forall graphic (bytes s)) Hs).
    apply list_elem_of_In, elem_of_reverse, list_elem_of_In. done. }
  assert (H2 : forall a b, graphic a = true -> graphic b = true -> space2 a b = false)
    by (intros a b Ha _; unfold space2; by rewrite graphic_is).
  assert (H3 : forall a b c, graphic a = true -> graphic b = true -> graphic c = true -> space3 a b c = false)
    by (intros a b c Ha _ _; unfold space3; by rewrite !(graphic_is _ a)).
  rewrite (trimFront_fixed space2 space3 (bytes s)), trimFront_fixed, reverse_involutive by
    (apply graphic_not_space; auto).
  apply of_list_bytes.
Qed.

Lemma bytes_app s t : bytes (s ++ t)%string = bytes s ++ bytes t.
Proof. unfold bytes. induction s as [|c s IH]; simpl; [done|]. by rewrite IH. Qed.

(** ** More of package strings and strconv *)

(** [strings.Split(s, sep)] for a one-byte separator, on bytes. *)
Fixpoint splitOn (sep : Ascii.ascii) (l : list Ascii.ascii) : list (list Ascii.ascii) :=
  match l with
  | [] => [[]]
  | c :: rest =>
      if Ascii.eqb c sep then [] :: splitOn sep rest
      else match splitOn sep rest with
           | [] => [[c]]
           | part :: parts => (c :: part) :: parts
           end
  end.

(** [strings.Join(ls, sep)] on bytes *)
Fixpoint joinWith (sep : list Ascii.ascii) (ls : list (list Ascii.ascii)) : list Ascii.ascii :=
  match ls with
  | [] => []
  | [l] => l
  | l :: ls => l ++ sep ++ joinWith sep ls
  end.

Fixpoint hasPrefixBytes (p l : list Ascii.ascii) : bool :=
  match p, l with
  | [], _ => true
  | a :: p', b :: l' => Ascii.eqb a b && hasPrefixBytes p' l'
  | _ :: _, [] => false
  end.

(** [strings.HasPrefix(s, prefix)] *)
Definition HasPrefix (s prefix : string) : bool := hasPrefixBytes (bytes prefix) (bytes s).

Fixpoint containsBytes (l sub : list Ascii.ascii) : bool :=
  hasPrefixBytes sub l || match l with [] => false | _ :: rest => containsBytes rest sub end.

(** [strings.Contains(s, substr)] *)
Definition Contains (s substr : string) : bool := containsBytes (bytes s) (bytes substr).

Definition digitValue (c : Ascii.ascii) : Z := Z.of_N (Ascii.N_of_ascii c) - 48.

Definition digitsValue (l : list Ascii.ascii) : Z :=
  fold_left (fun acc c => acc * 10 + digitValue c) l 0.

(** [strconv.Atoi]: an optional sign and at least one decimal digit, within int64. *)
Definition Atoi (s : string) : res Z :=
  let parse (neg : bool) (ds : list Ascii.ascii) :=
    let v := if neg then - digitsValue ds else digitsValue ds in
    if (length ds =? 0)%nat || negb (forallb digit ds) || (v <? - 2 ^ 63) || (2 ^ 63 - 1 <? v)
    then Err (ErrPlain "invalid syntax") else Ok v in
  match bytes s with
  | [] => Err (ErrPlain "invalid syntax")
  | c :: rest =>
      if byte_is 45 c then parse true rest
      else if byte_is 43 c then parse false rest
      else parse false (c :: rest)
  end.

(** [strconv.Itoa] *)
Definition Itoa (z : Z) : string := pretty z.

(** ** Byte order of strings *)

Fixpoint bytes_lt (l k : list Ascii.ascii) : bool :=
  match l, k with
  | [], _ :: _ => true
  | a :: l', b :: k' =>
      if N.eqb (Ascii.N_of_ascii a) (Ascii.N_of_ascii b) then bytes_lt l' k'
      else N.ltb (Ascii.N_of_ascii a) (Ascii.N_of_ascii b)
  | _, _ => false
  end.

(** Go's [<] on strings. *)
Definition string_lt (s t : string) : bool := bytes_lt (bytes s) (bytes t).

Lemma N_of_ascii_inj a b : Ascii.N_of_ascii a = Ascii.N_of_ascii b -> a = b.
Proof. intros H. by rewrite <-(Ascii.ascii_N_embedding a), <-(Ascii.ascii_N_embedding b), H. Qed.

Lemma bytes_lt_irrefl l : bytes_lt l l = false.
Proof. induction l; simpl; [done|]. by rewrite N.eqb_refl. Qed.

Lemma bytes_lt_trans l k m : bytes_lt l k = true -> bytes_lt k m = true -> bytes_lt l m = true.
Proof.
  revert k m. induction l as [|a l IH]; intros [|b k] [|c m]; simpl; try done.
  destruct (N.eqb_spec (Ascii.N_of_ascii a) (Ascii.N_of_ascii b)),
    (N.eqb_spec (Ascii.N_of_ascii b) (Ascii.N_of_ascii c)),
    (N.eqb_spec (Ascii.N_of_ascii a) (Ascii.N_of_ascii c)); rewrite ?N.ltb_lt; try lia; eauto.
Qed.

Lemma bytes_lt_total l k : bytes_lt l k = false -> bytes_lt k l = false -> l = k.
Proof.
  revert k. induction l as [|a l IH]; intros [|b k]; simpl; try done.
  rewrite (N.eqb_sym (Ascii.N_of_ascii b)).
  destruct (N.eqb_spec (Ascii.N_of_ascii a) (Ascii.N_of_ascii b)) as [E|]; [|rewrite !N.ltb_ge; lia].
  apply N_of_ascii_inj in E as ->. intros. f_equal. auto.
Qed.

Lemma string_lt_irrefl s : string_lt s s = false.
Proof. apply bytes_lt_irrefl. Qed.
Lemma string_lt_trans s t u : string_lt s t = true -> string_lt t u = true -> string_lt s u = true.
Proof. apply bytes_lt_trans. Qed.
Lemma string_lt_total s t : string_lt s t = false -> string_lt t s = false -> s = t.
Proof.
  intros H1 H2. rewrite <-(of_list_bytes s), <-(of_list_bytes t). f_equal. by apply bytes_lt_total.
Qed.

(** ** Results: inversion lemmas and the tactic that applies them *)

Create HintDb agentforge.

Lemma length_splitOn sep l :
  S (length l) = foldr (fun part n => S (length part) + n)%nat 0%nat (splitOn sep l).
Proof.
  induction l as [|c l IH]; simpl; [done|].
  destruct (Ascii.eqb c sep); simpl in *; [lia|].
  destruct (splitOn sep l); simpl in *; lia.
Qed.

Lemma Ok_inj {A} (a b : A) : Ok a = Ok b -> a = b.
Proof. congruence. Qed.

Lemma bind_ok {A B} (m : res A) (f : A -> res B) b :
  m ≫= f = Ok b <-> exists a, m = Ok a /\ f a = Ok b.
Proof. destruct m; simpl; unfold mbind; simpl; naive_solver. Qed.

Lemma bind_failIf {B} c e (f : unit -> res B) : failIf c e ≫= f = if c then Err e else f tt.
Proof. by destruct c. Qed.

Lemma bind_Ok {A B} (a : A) (f : A -> res B) : Ok a ≫= f = f a.
Proof. done. Qed.

Lemma bind_Err {A B} e (f : A -> res B) : Err e ≫= f = Err e.
Proof. done. Qed.

Lemma failIf_ok c e u : failIf c e = Ok u <-> c = false.
Proof. destruct c, u; simpl; naive_solver. Qed.

Lemma failIf_err c e e' : failIf c e = Err e' <-> c = true /\ e' = e.
Proof. destruct c; simpl; naive_solver. Qed.

(** Turn boolean guards of the source into propositions. *)
Ltac reflect_bools :=
  repeat match goal with
  | H : context [bool_decide] |- _ =>
      progress rewrite ?bool_decide_eq_true, ?bool_decide_eq_false, ?negb_true_iff, ?negb_false_iff in H
  | H : (_ || _)%bool = false |- _ => apply orb_false_iff in H; destruct H
  | H : (_ && _)%bool = true |- _ => apply andb_true_iff in H; destruct H
  | H : (_ || _)%bool = true |- _ => apply orb_true_iff in H
  | H : (_ && _)%bool = false |- _ => apply andb_false_iff in H
  | H : negb _ = true |- _ => apply negb_true_iff in H
  | H : negb _ = false |- _ => apply negb_false_iff in H
  | H : bool_decide _ = true |- _ => apply bool_decide_eq_true in H
  | H : bool_decide _ = false |- _ => apply bool_decide_eq_false in H
  end.

(** The same, one goal per disjunct. *)
Ltac cases_bools :=
  reflect_bools;
  repeat (match goal with H : _ \/ _ |- _ => destruct H end; reflect_bools).

(** Follow the successful path of a monadic definition. *)
Ltac inv_ok :=
  repeat match goal with
  | H : mbind _ _ = Ok _ |- _ =>
      let a := fresh "a" in apply bind_ok in H as (a & ? & H)
  | H : failIf _ _ = Ok _ |- _ => apply failIf_ok in H
  | H : mret _ = Ok _ |- _ => apply Ok_inj in H; subst
  | H : Ok _ = Ok _ |- _ => apply Ok_inj in H; subst
  | H : Err _ = Ok _ |- _ => discriminate H
  | H : unit |- _ => destruct H
  end.

(** ** Machine integers *)

Lemma wrap64_small z : in_int64 z -> wrap64 z = z.
Proof. unfold in_int64, wrap64. intros. rewrite Z.mod_small; lia. Qed.

Lemma wrap64_range z : in_int64 (wrap64 z).
Proof.
  unfold in_int64, wrap64.
  pose proof (Z.mod_pos_bound (z + 2 ^ 63) (2 ^ 64) ltac:(lia)). lia.
Qed.

Lemma add64_small a b : in_int64 (a + b) -> add64 a b = a + b.
Proof. apply wrap64_small. Qed.
Lemma sub64_small a b : in_int64 (a - b) -> sub64 a b = a - b.
Proof. apply wrap64_small. Qed.
Lemma mul64_small a b : in_int64 (a * b) -> mul64 a b = a * b.
Proof. apply wrap64_small. Qed.
Create Rewrite HintDb int64.
#[export] Hint Rewrite add64_small sub64_small mul64_small
  using (unfold in_int64 in *; lia) : int64.

(** ** Loops over slices *)

(** The loop [for _, v := range values { if !valid(v) || seen[v] { return false };
    seen[v] = true }; return true]. *)
Section UniqueLoop.
Context {A : Type} `{Countable A} (valid : A -> bool).

Fixpoint uniqueLoop (seen : gset A) (values : list A) : bool :=
  match values with
  | [] => true
  | v :: rest =>
      if negb (valid v) || bool_decide (v ∈ seen) then false
      else uniqueLoop ({[v]} ∪ seen) rest
  end.

Lemma uniqueLoop_spec seen values :
  uniqueLoop seen values = true <->
  Forall (fun v => valid v = true) values /\ NoDup values /\ Forall (fun v => v ∉ seen) values.
Proof.
  revert seen. induction values as [|v rest IH]; intros seen; simpl.
  - split; auto using NoDup_nil_2.
  - rewrite !Forall_cons, NoDup_cons, !Forall_forall in *.
    destruct (valid v) eqn:Hv; simpl; [|naive_solver].
    case_bool_decide; [naive_solver|].
    rewrite IH, !Forall_forall. set_solver.
Qed.

Lemma uniqueLoop_empty values :
  uniqueLoop ∅ values = true <-> Forall (fun v => valid v = true) values /\ NoDup values.
Proof. rewrite uniqueLoop_spec, !Forall_forall. set_solver. Qed.
End UniqueLoop.

Lemma filter_none {A} (P : A -> Prop) `{forall x, Decision (P x)} (l : list A) : (forall x, x ∈ l -> ~ P x) -> filter P l = [].
Proof.
  induction l as [|x l IH]; intros Hn; [done|]. rewrite filter_cons, decide_False by (apply Hn; by left).
  apply IH. intros y Hy. apply Hn. by right.
Qed.

Lemma filter_every {A} (P : A -> Prop) `{forall x, Decision (P x)} (l : list A) : (forall x, x ∈ l -> P x) -> filter P l = l.
Proof.
  induction l as [|x l IH]; intros Hn; [done|]. rewrite filter_cons, decide_True by (apply Hn; by left).
  f_equal. apply IH. intros y Hy. apply Hn. by right.
Qed.

Lemma Forall_filter {A} (P Q : A -> Prop) `{!forall x, Decision (Q x)} l :
  Forall P l -> Forall P (filter Q l).
Proof. rewrite !Forall_forall. intros Hl x [_ Hx]%list_elem_of_filter. auto. Qed.

(** ** Keyset pages

    Rows ordered by [order by created_at desc, id desc], and those past a cursor,
    [(created_at, id) < ($1, $2)]. *)

Section Keyset.
Context {A : Type} (created : A -> Time) (ident : A -> UUID).

Definition newestFirst (a b : A) : Prop :=
  created b < created a \/ (created b = created a /\ ident b <= ident a).

#[export] Instance newestFirst_dec : RelDecision newestFirst.
Proof. intros a b. unfold newestFirst. apply _. Defined.

Definition pastKey (createdAt : Time) (id : UUID) (a : A) : Prop :=
  created a < createdAt \/ (created a = createdAt /\ ident a < id).

#[export] Instance pastKey_dec createdAt id a : Decision (pastKey createdAt id a).
Proof. unfold pastKey. apply _. Defined.

#[local] Instance newestFirst_trans : Transitive newestFirst.
Proof. intros a b c. unfold newestFirst. lia. Qed.

#[local] Instance newestFirst_total : Total newestFirst.
Proof. intros a b. unfold newestFirst. lia. Qed.

Lemma newestFirst_sorted l : StronglySorted newestFirst (merge_sort newestFirst l).
Proof. apply StronglySorted_merge_sort; apply _. Qed.

(** Rows with distinct identifiers are sorted in one way only. *)
Lemma newestFirst_unique l1 l2 :
  NoDup (ident <$> l2) -> StronglySorted newestFirst l1 -> StronglySorted newestFirst l2 -> l1 ≡ₚ l2 -> l1 = l2.
Proof.
  intros Hnd H1 H2 Hp. apply (StronglySorted_unique_strong newestFirst); try done.
  intros x y Hx Hy Hxy Hyx. rewrite Hp in Hx.
  apply list_elem_of_lookup in Hx as [i Hi]. apply list_elem_of_lookup in Hy as [j Hj].
  assert (ident x = ident y) by (unfold newestFirst in *; lia).
  assert (i = j) as ->; [|congruence].
  eapply (NoDup_lookup (ident <$> l2)); [done|by rewrite list_lookup_fmap, Hi|rewrite list_lookup_fmap, Hj; simpl; congruence].
Qed.

(** What follows a row in a sorted list is what comes after its cursor. *)
Lemma filter_pastKey l1 x l2 :
  NoDup (ident <$> (l1 ++ x :: l2)) -> StronglySorted newestFirst (l1 ++ x :: l2) ->
  filter (pastKey (created x) (ident x)) (l1 ++ x :: l2) = l2.
Proof.
  intros Hnd Hs. rewrite filter_app, filter_cons. rewrite decide_False by (unfold pastKey; lia).
  rewrite filter_none; cycle 1.
  { intros y Hy. assert (newestFirst y x) by (eapply StronglySorted_app_1_elem_of; [done|done|by left]).
    unfold newestFirst, pastKey in *. lia. }
  simpl. apply filter_every. intros y Hy.
  assert (Hxy : newestFirst x y).
  { replace (l1 ++ x :: l2) with ((l1 ++ [x]) ++ l2) in Hs by (by rewrite <-app_assoc).
    eapply StronglySorted_app_1_elem_of; [done|set_solver|done]. }
  assert (ident x <> ident y).
  { rewrite fmap_app, fmap_cons in Hnd. apply NoDup_app in Hnd as (_ & _ & [Hx _]%NoDup_cons).
    intros E. apply Hx. rewrite E. by apply list_elem_of_fmap_2. }
  unfold newestFirst, pastKey in *. lia.
Qed.

(** The page after a row is the rest of the history. *)
Lemma keyset_page l l1 x l2 :
  NoDup (ident <$> l) -> merge_sort newestFirst l = l1 ++ x :: l2 ->
  merge_sort newestFirst (filter (pastKey (created x) (ident x)) l) = l2.
Proof.
  intros Hnd Hh. pose proof (newestFirst_sorted l) as Hs. rewrite Hh in Hs.
  assert (Hp : l ≡ₚ l1 ++ x :: l2) by (by rewrite <-Hh, merge_sort_Permutation).
  rewrite Hp in Hnd. apply newestFirst_unique; [|apply newestFirst_sorted| |].
  - rewrite fmap_app, fmap_cons in Hnd. by apply NoDup_app in Hnd as (_ & _ & [_ ?]%NoDup_cons).
  - apply StronglySorted_app_1_r in Hs. by apply StronglySorted_inv in Hs as [? _].
  - rewrite merge_sort_Permutation. transitivity (filter (pastKey (created x) (ident x)) (l1 ++ x :: l2)); [by rewrite Hp|].
    by rewrite filter_pastKey.
Qed.
End Keyset.

(** ** Sums *)

Definition sumZ {A} (f : A -> Z) (l : list A) : Z := foldr (fun a s => f a + s) 0 l.

Lemma sumZ_app {A} (f : A -> Z) l k : sumZ f (l ++ k) = sumZ f l + sumZ f k.
Proof. induction l; simpl; lia. Qed.

Lemma sumZ_nonneg {A} (f : A -> Z) l : (forall a, a ∈ l -> 0 <= f a) -> 0 <= sumZ f l.
Proof.
  induction l as [|a l IH]; simpl; intros Hf; [lia|].
  pose proof (Hf a ltac:(set_solver)). assert (0 <= sumZ f l) by (apply IH; set_solver). lia.
Qed.

Lemma sumZ_perm {A} (f : A -> Z) l k : l ≡ₚ k -> sumZ f l = sumZ f k.
Proof. induction 1; simpl; lia. Qed.

(** Sum of a column over a table. *)
Section MapSum.
Context {K V : Type} `{Countable K} (f : V -> Z).

Definition mapSum (m : gmap K V) : Z := sumZ (fun kv => f kv.2) (map_to_list m).

Lemma mapSum_empty : mapSum ∅ = 0.
Proof. unfold mapSum. by rewrite map_to_list_empty. Qed.

Lemma mapSum_insert_new (m : gmap K V) k v :
  m !! k = None -> mapSum (<[k := v]> m) = f v + mapSum m.
Proof.
  intros Hk. unfold mapSum. by rewrite (sumZ_perm _ _ _ (map_to_list_insert m k v Hk)).
Qed.

Lemma mapSum_lookup (m : gmap K V) k v :
  m !! k = Some v -> mapSum m = f v + mapSum (delete k m).
Proof.
  intros Hk. rewrite <-(insert_delete_id m k v Hk) at 1.
  apply mapSum_insert_new, lookup_delete_eq.
Qed.

Lemma mapSum_insert (m : gmap K V) k v v' :
  m !! k = Some v -> mapSum (<[k := v']> m) = mapSum m - f v + f v'.
Proof.
  intros Hk. rewrite (mapSum_lookup m k v Hk).
  rewrite <-insert_delete_eq, mapSum_insert_new by apply lookup_delete_eq. lia.
Qed.

Lemma mapSum_nonneg (m : gmap K V) :
  (forall k v, m !! k = Some v -> 0 <= f v) -> 0 <= mapSum m.
Proof.
  intros Hm. apply sumZ_nonneg. intros [k v] Hin%elem_of_map_to_list. eauto.
Qed.

Lemma mapSum_nonpos (m : gmap K V) :
  (forall k v, m !! k = Some v -> f v <= 0) -> mapSum m <= 0.
Proof.
  intros Hm. unfold mapSum.
  assert (Hall : forall kv, kv ∈ map_to_list m -> f kv.2 <= 0).
  { intros [k v] Hin%elem_of_map_to_list. eauto. }
  clear Hm. induction (map_to_list m) as [|kv l IH]; simpl; [lia|].
  pose proof (Hall kv ltac:(by left)). assert (sumZ (fun kv => f kv.2) l <= 0); [|lia].
  apply IH. intros kv' Hkv'. apply Hall. by right.
Qed.
End MapSum.

(** ** A concrete UUID package

    The canonical text and version field of RFC 9562, as an instance of [UUIDs]. *)

(** The [k] low hexadecimal digits of [u], most significant first. *)
Fixpoint nibbles (k : nat) (u : Z) : list Z :=
  match k with
  | O => []
  | S k => nibbles k (u / 16) ++ [u mod 16]
  end.

Definition hexDigit (n : Z) : Ascii.ascii :=
  Ascii.ascii_of_N (Z.to_N (if n <? 10 then 48 + n else 87 + n)).

(** The value of lower-case hexadecimal digits. *)
Definition hexValue (c : Ascii.ascii) : Z := let n := Z.of_N (Ascii.N_of_ascii c) in if n <? 58 then n - 48 else n - 87.

Definition readHex (l : list Ascii.ascii) : Z := foldl (fun u c => 16 * u + hexValue c) 0 l.

Definition hexUUID (u : Z) : string :=
  let h := hexDigit <$> nibbles 32 u in
  String.string_of_list_ascii
    (take 8 h ++ [hyphenByte] ++ take 4 (drop 8 h) ++ [hyphenByte] ++ take 4 (drop 12 h)
     ++ [hyphenByte] ++ take 4 (drop 16 h) ++ [hyphenByte] ++ drop 20 h).

(** ** The length of decimal text *)

Lemma pretty_N_go_length (k : nat) n s :
  (n < 10 ^ N.of_nat k)%N -> (String.length (pretty_N_go n s) <= k + String.length s)%nat.
Proof.
  revert n s. induction k as [|k IH]; intros n s Hn.
  - change (10 ^ N.of_nat 0)%N with 1%N in Hn. assert (n = 0%N) as -> by lia. by rewrite pretty_N_go_0.
  - destruct (decide (n = 0%N)) as [->|Hne]; [rewrite pretty_N_go_0; lia|].
    rewrite pretty_N_go_step by lia. eapply Nat.le_trans; [apply IH|simpl; lia].
    rewrite Nat2N.inj_succ, N.pow_succ_r' in Hn. apply N.Div0.div_lt_upper_bound. lia.
Qed.

Lemma pretty_N_length (k : nat) n : (1 <= k)%nat -> (n < 10 ^ N.of_nat k)%N -> (String.length (pretty n) <= k)%nat.
Proof.
  intros Hk Hn. unfold pretty, pretty_N. destruct (decide (n = 0%N)); [cbn [String.length]; lia|].
  pose proof (pretty_N_go_length k n EmptyString Hn). simpl in *. lia.
Qed.

Lemma pretty_pos_length n : Zpos n <= 2 ^ 63 -> (String.length (pretty (Npos n)) <= 19)%nat.
Proof.
  intros Hn. apply pretty_N_length; [lia|]. assert ((10 ^ N.of_nat 19)%N = 10000000000000000000%N) as -> by (vm_compute; reflexivity). lia.
Qed.

Lemma len_Itoa z : - 2 ^ 63 <= z < 2 ^ 63 -> len (Itoa z) <= 20.
Proof.
  intros Hz. unfold len, Itoa.
  assert (Hneg : forall n, pretty (Z.neg n) = "-" +:+ pretty (Npos n)) by (intros n; reflexivity).
  assert (Hpos : forall n, pretty (Z.pos n) = pretty (Npos n)) by (intros n; reflexivity).
  assert (Hlen : forall t, String.length ("-" +:+ t) = S (String.length t)) by done.
  destruct z as [|n|n]; [done|rewrite Hpos|rewrite Hneg, Hlen]; pose proof (pretty_pos_length n); lia.
Qed.

(** ** The digits of decimal text *)

Lemma pretty_N_char_digit n : (n < 10)%N ->
  digit (pretty_N_char n) = true /\ digitValue (pretty_N_char n) = Z.of_N n /\ ((0 < n)%N -> byte_is 48 (pretty_N_char n) = false).
Proof.
  intros Hn. assert (In n [0; 1; 2; 3; 4; 5; 6; 7; 8; 9]%N) as Hin by (simpl; lia).
  repeat (destruct Hin as [<-|Hin]; [split_and!; [done..|try done; intros; lia]|]). destruct Hin.
Qed.

Lemma digitsValue_snoc l c : digitsValue (l ++ [c]) = digitsValue l * 10 + digitValue c.
Proof. unfold digitsValue. by rewrite fold_left_app. Qed.

Lemma pretty_N_go_digits n s : (0 < n)%N ->
  exists d ds, bytes (pretty_N_go n s) = (d :: ds) ++ bytes s /\ digit d = true /\ byte_is 48 d = false /\
    forallb digit ds = true /\ digitsValue (d :: ds) = Z.of_N n.
Proof.
  revert s. induction (N.lt_wf_0 n) as [n _ IH]. intros s Hn. rewrite pretty_N_go_step by done.
  destruct (pretty_N_char_digit (n mod 10)) as (Hd & Hv & Hnz); [by apply N.mod_lt|].
  assert (Hdm : (n = 10 * (n / 10) + n mod 10)%N) by (apply N.div_mod; done).
  destruct (decide (n / 10 = 0)%N) as [H0|H0].
  - rewrite H0, pretty_N_go_0. exists (pretty_N_char (n mod 10)), [].
    split_and!; [done|done|apply Hnz; lia|done|]. unfold digitsValue. cbn [fold_left]. rewrite Hv. lia.
  - destruct (IH (n / 10)%N) with (s := String (pretty_N_char (n mod 10)) s) as (d & ds & Hb & H1 & H2 & H3 & H4).
    { by apply N.div_lt. } { by apply N.neq_0_lt_0. }
    exists d, (ds ++ [pretty_N_char (n mod 10)]). split_and!; [|done|done| |].
    + rewrite Hb. simpl. by rewrite <-app_assoc.
    + rewrite forallb_app, H3. simpl. by rewrite Hd.
    + rewrite app_comm_cons, digitsValue_snoc, H4, Hv. lia.
Qed.

Lemma pretty_N_digits n : (0 < n)%N ->
  exists d ds, bytes (pretty n) = d :: ds /\ digit d = true /\ byte_is 48 d = false /\
    forallb digit ds = true /\ digitsValue (d :: ds) = Z.of_N n.
Proof.
  intros Hn. unfold pretty, pretty_N. rewrite decide_False by lia.
  destruct (pretty_N_go_digits n EmptyString Hn) as (d & ds & Hb & H). exists d, ds. split; [|done]. by rewrite Hb, app_nil_r.
Qed.

(** Decimal text is "0", or a sign and digits that start with another digit. *)
Lemma Itoa_digits z :
  (z = 0 /\ Itoa z = "0") \/
  exists sign d ds, bytes (Itoa z) = sign ++ d :: ds /\ (sign = [] /\ 0 < z \/ sign = [hyphenByte] /\ z < 0) /\
    digit d = true /\ byte_is 48 d = false /\ forallb digit ds = true /\ digitsValue (d :: ds) = Z.abs z.
Proof.
  assert (Hneg : forall n, Itoa (Z.neg n) = String hyphenByte (pretty (Npos n))) by (intros n; reflexivity).
  assert (Hpos : forall n, Itoa (Z.pos n) = pretty (Npos n)) by (intros n; reflexivity).
  destruct z as [|n|n]; [by left|right..]; destruct (pretty_N_digits (Npos n)) as (d & ds & Hb & H1 & H2 & H3 & H4); try lia.
  - exists [], d, ds. rewrite Hpos, Hb. split_and!; [done|left; split; [done|lia]|done..].
  - exists [hyphenByte], d, ds. rewrite Hneg. cbn [bytes String.list_ascii_of_string]. fold (bytes (pretty (N.pos n))).
    rewrite Hb. split_and!; [done|right; split; [done|lia]|done..].
Qed.

Lemma length_nibbles k u : length (nibbles k u) = k.
Proof. revert u. induction k; intros u; simpl; [done|]. rewrite length_app, IHk. simpl. lia. Qed.

Lemma nibbles_inj (k : nat) u v : 0 <= u < 16 ^ Z.of_nat k -> 0 <= v < 16 ^ Z.of_nat k -> nibbles k u = nibbles k v -> u = v.
Proof.
  revert u v. induction k as [|k IH]; intros u v Hu Hv; [simpl in *; lia|].
  replace (16 ^ Z.of_nat (S k)) with (16 * 16 ^ Z.of_nat k) in * by (rewrite Nat2Z.inj_succ, Z.pow_succ_r; lia).
  simpl. intros [Hq Hr]%app_inj_2; [|done]. injection Hr as Hr.
  apply IH in Hq; [|split; [apply Z.div_pos; lia|apply Z.div_lt_upper_bound; lia]..].
  rewrite (Z.div_mod u 16), (Z.div_mod v 16) by lia. lia.
Qed.

Lemma nibbles_range k u : Forall (fun n => 0 <= n < 16) (nibbles k u).
Proof.
  revert u. induction k as [|k IH]; intros u; simpl; [constructor|].
  apply Forall_app. split; [apply IH|]. constructor; [|constructor]. apply Z.mod_pos_bound. lia.
Qed.

Lemma hexDigit_inj n m : 0 <= n < 16 -> 0 <= m < 16 -> hexDigit n = hexDigit m -> n = m.
Proof.
  intros Hn Hm Heq. apply (f_equal Ascii.N_of_ascii) in Heq. unfold hexDigit in Heq.
  destruct (Z.ltb_spec n 10), (Z.ltb_spec m 10);
    rewrite !Ascii.N_ascii_embedding in Heq by lia; lia.
Qed.

Lemma fmap_hexDigit_inj l k :
  Forall (fun n => 0 <= n < 16) l -> Forall (fun n => 0 <= n < 16) k ->
  hexDigit <$> l = hexDigit <$> k -> l = k.
Proof.
  intros Hl. revert k. induction Hl as [|n l Hn _ IH]; intros [|m k]; inversion 1; simpl; try done.
  intros [= Hd Ht]. f_equal; [by apply hexDigit_inj|auto].
Qed.

Lemma hexUUID_inj u v : isUUID u -> isUUID v -> hexUUID u = hexUUID v -> u = v.
Proof.
  unfold isUUID, hexUUID. intros Hu Hv Heq. apply (f_equal bytes) in Heq.
  rewrite !bytes_of_list in Heq.
  apply (nibbles_inj 32); [lia..|].
  apply fmap_hexDigit_inj; [apply nibbles_range..|].
  pose proof (length_nibbles 32 u) as Lu. pose proof (length_nibbles 32 v) as Lv.
  do 4 (apply app_inj_1 in Heq as [?E Heq];
        [|by rewrite !length_take, ?length_drop, !length_fmap, Lu, Lv];
        apply app_inj_1 in Heq as [_ Heq]; [|done]).
  rewrite <-(take_drop 8 (hexDigit <$> nibbles 32 u)), <-(take_drop 8 (hexDigit <$> nibbles 32 v)), E.
  f_equal.
  rewrite <-(take_drop 4 (drop 8 (_ <$> nibbles 32 u))), <-(take_drop 4 (drop 8 (_ <$> nibbles 32 v))), E0, !drop_drop.
  f_equal.
  rewrite <-(take_drop 4 (drop 12 (_ <$> nibbles 32 u))), <-(take_drop 4 (drop 12 (_ <$> nibbles 32 v))), E1, !drop_drop.
  f_equal.
  rewrite <-(take_drop 4 (drop 16 (_ <$> nibbles 32 u))), <-(take_drop 4 (drop 16 (_ <$> nibbles 32 v))), E2, !drop_drop.
  f_equal. exact Heq.
Qed.

Lemma hexUUID_length u : String.length (hexUUID u) = 36%nat.
Proof.
  rewrite <-length_bytes. unfold hexUUID. rewrite bytes_of_list.
  by rewrite !length_app, !length_take, !length_drop, length_fmap, length_nibbles.
Qed.

Definition rfcUUIDs : UUIDs :=
  {| uuidString := hexUUID; uuidVersion := fun u => (u / 2 ^ 76) mod 16;
     uuidString_inj := hexUUID_inj; uuidString_length := fun u _ => hexUUID_length u;
     uuidVersion_nil := eq_refl |}.

(** A version-7 identifier with serial number [n]. *)
Definition exampleV7 (n : Z) : UUID := 7 * 2 ^ 76 + n.
