(* ===== verification/Json.v ===== *)
(** * Text encodings of the standard library

    The part of [encoding/json] the sources use to build text: string literals
    with Go's escapes (HTML characters, control characters, line separators and
    invalid UTF-8 included), integers, and objects with named members in order. *)

From S2P Require Import Prelude.

Definition quoteByte : Ascii.ascii := Ascii.ascii_of_nat 34.
Definition backslashByte : Ascii.ascii := Ascii.ascii_of_nat 92.

(** ** UTF-8 *)

Definition continuation (c : Ascii.ascii) : bool := byte_in 128 191 c.

(** [utf8.DecodeRune] on a list that starts with a byte of at least 0x80: the
    number of bytes of the encoded rune, or [None] for an invalid sequence. *)
Definition runeLength (l : list Ascii.ascii) : option nat :=
  match l with
  | a :: b :: rest =>
      if byte_in 194 223 a && continuation b then Some 2%nat
      else match rest with
           | c :: rest =>
               if ((byte_is 224 a && byte_in 160 191 b) || (byte_in 225 236 a && continuation b)
                   || (byte_is 237 a && byte_in 128 159 b) || (byte_in 238 239 a && continuation b))
                  && continuation c
               then Some 3%nat
               else match rest with
                    | d :: _ =>
                        if ((byte_is 240 a && byte_in 144 191 b) || (byte_in 241 243 a && continuation b)
                            || (byte_is 244 a && byte_in 128 143 b)) && continuation c && continuation d
                        then Some 4%nat else None
                    | [] => None
                    end
           | [] => None
           end
  | _ => None
  end.

(** ** String literals *)

(** Bytes below 0x80 that are written as they are, with HTML escaping on. *)
Definition htmlSafe (c : Ascii.ascii) : bool :=
  byte_in 32 127 c && negb (byte_is 34 c || byte_is 92 c || byte_is 60 c || byte_is 62 c || byte_is 38 c).

Definition hexByte (c : Ascii.ascii) : list Ascii.ascii :=
  let n := Z.of_N (Ascii.N_of_ascii c) in [hexDigit (n / 16); hexDigit (n mod 16)].

Definition escapedByte (c : Ascii.ascii) : list Ascii.ascii :=
  if byte_is 34 c || byte_is 92 c then [backslashByte; c]
  else if byte_is 8 c then backslashByte :: bytes "b"
  else if byte_is 12 c then backslashByte :: bytes "f"
  else if byte_is 10 c then backslashByte :: bytes "n"
  else if byte_is 13 c then backslashByte :: bytes "r"
  else if byte_is 9 c then backslashByte :: bytes "t"
  else backslashByte :: bytes "u00" ++ hexByte c.

(** U+2028 and U+2029, which JavaScript takes for line ends. *)
Definition lineSeparator (l : list Ascii.ascii) : option (list Ascii.ascii) :=
  match l with
  | a :: b :: c :: _ =>
      if byte_is 226 a && byte_is 128 b && byte_is 168 c then Some (bytes "u2028")
      else if byte_is 226 a && byte_is 128 b && byte_is 169 c then Some (bytes "u2029")
      else None
  | _ => None
  end.

(** [appendString]; every round consumes a byte, so the length is enough fuel. *)
Fixpoint escapeBytes (fuel : nat) (l : list Ascii.ascii) : list Ascii.ascii :=
  match fuel, l with
  | S fuel, c :: rest =>
      if byte_in 0 127 c then
        (if htmlSafe c then [c] else escapedByte c) ++ escapeBytes fuel rest
      else match runeLength l with
           | None => backslashByte :: bytes "ufffd" ++ escapeBytes fuel rest
           | Some n =>
               (match lineSeparator l with Some escape => backslashByte :: escape | None => take n l end)
                 ++ escapeBytes fuel (drop n l)
           end
  | _, _ => []
  end.

Definition jsonString (s : string) : string :=
  String.string_of_list_ascii ([quoteByte] ++ escapeBytes (String.length s) (bytes s) ++ [quoteByte]).

(** ** Objects *)

Definition jsonMember (member : string * string) : string :=
  let '(name, value) := member in (jsonString name ++ ":" ++ value)%string.

(** Members in the order of the struct's fields; the values are encoded already. *)
Definition jsonObject (members : list (string * string)) : string :=
  ("{" ++ String.concat "," (jsonMember <$> members) ++ "}")%string.
