(* ===== verification/AgentRun.v ===== *)
(** * The AgentRun aggregate (internal/domain/agent_run.go)

    The durable lifecycle of a run and of its execution attempts: statuses,
    failure categories, construction with validation, the transition graph and
    the transitions themselves, and the manual-retry exception.  The graph is
    compared with the state diagram of specs/03-domain/02-state-machines.md,
    written here as the relations [run_edge] and [attempt_edge]; the invariants
    are proved over every sequence of transitions. *)

From S2P Require Import Prelude.

Inductive AgentRunStatus :=
| AgentRunQueued
| AgentRunScheduling
| AgentRunCapacityWait
| AgentRunProvisioning
| AgentRunRunning
| AgentRunTesting
| AgentRunBuilding
| AgentRunScanning
| AgentRunReadyToDeploy
| AgentRunDeploying
| AgentRunCancelling
| AgentRunSucceeded
| AgentRunCancelled
| AgentRunProvisioningFailed
| AgentRunExecutionFailed
| AgentRunBuildFailed
| AgentRunPolicyRejected
| AgentRunDeploymentFailed
| AgentRunTimedOut.

#[export] Instance AgentRunStatus_eq_dec : EqDecision AgentRunStatus.
Proof. solve_decision. Defined.

(** The Go type is a string: [FailureUnset] is the empty string and
    [FailureOther] any value outside the taxonomy. *)
Inductive FailureCategory :=
| FailureUnset
| FailureValidation
| FailureAuthentication
| FailureAuthorization
| FailureQuota
| FailureConflict
| FailureTransientDependency
| FailurePermanentDependency
| FailureExecution
| FailurePolicy
| FailureInternal
| FailureOther (s : string).

#[export] Instance FailureCategory_eq_dec : EqDecision FailureCategory.
Proof. solve_decision. Defined.

(** [FailureCategory.IsValid] *)
Definition FailureCategory_IsValid (category : FailureCategory) : bool :=
  match category with
  | FailureValidation | FailureAuthentication | FailureAuthorization | FailureQuota
  | FailureConflict | FailureTransientDependency | FailurePermanentDependency
  | FailureExecution | FailurePolicy | FailureInternal => true
  | _ => false
  end.

Inductive AgentRunAttemptStatus :=
| AttemptPending
| AttemptStarting
| AttemptActive
| AttemptCompleted
| AttemptFailed
| AttemptCancelled
| AttemptTimedOut.

#[export] Instance AgentRunAttemptStatus_eq_dec : EqDecision AgentRunAttemptStatus.
Proof. solve_decision. Defined.

Record AgentRunDesiredState := {
  ds_RunnerImage : string;
  ds_Runtime : string;
  ds_ExecutionProfile : string;
  ds_TaskReference : string;
  ds_TimeoutSeconds : Z;
  ds_MaxAttempts : Z;
  ds_InitialBackoffSeconds : Z;
  ds_MaxBackoffSeconds : Z;
  ds_RetryableFailureCategories : list FailureCategory;
  ds_CPUMillis : Z;
  ds_MemoryMiB : Z;
  ds_CPULimitMillis : Z;
  ds_MemoryLimitMiB : Z;
  ds_WorkspaceSizeGiB : Z;
  ds_StorageClassName : string;
  ds_WorkspaceRetentionPolicy : string;
  ds_NetworkProfile : string;
  ds_AllowedDestinationsRef : string;
  ds_ArtifactDestinationRef : string;
  ds_ConfigurationRefs : list string;
  ds_SecretRefs : list string;
  ds_DeployOnSuccess : bool;
}.

#[export] Instance AgentRunDesiredState_eq_dec : EqDecision AgentRunDesiredState.
Proof. solve_decision. Defined.

Record AgentRun := {
  run_ID : UUID;
  run_TenantID : UUID;
  run_ProjectID : UUID;
  run_PromptReference : string;
  run_Runtime : string;
  run_CPUMillis : Z;
  run_MemoryMiB : Z;
  run_TimeoutSeconds : Z;
  run_MaxAttempts : Z;
  run_AttemptCount : Z;
  run_Status : AgentRunStatus;
  run_FailureCategory : FailureCategory;
  run_IdempotencyKey : string;
  run_RequestHash : string;
  run_Version : Z;
  run_CreatedBy : string;
  run_CancellationReason : string;
  run_CancellationRequestedBy : string;
  run_CancellationRequestedAt : option Time;
  run_CreatedAt : Time;
  run_UpdatedAt : Time;
  run_CompletedAt : option Time;
}.

#[export] Instance AgentRun_settable : Settable AgentRun := fun r =>
  Build_AgentRun (run_ID r) (run_TenantID r) (run_ProjectID r) (run_PromptReference r)
    (run_Runtime r) (run_CPUMillis r) (run_MemoryMiB r) (run_TimeoutSeconds r)
    (run_MaxAttempts r) (run_AttemptCount r) (run_Status r) (run_FailureCategory r)
    (run_IdempotencyKey r) (run_RequestHash r) (run_Version r) (run_CreatedBy r)
    (run_CancellationReason r) (run_CancellationRequestedBy r)
    (run_CancellationRequestedAt r) (run_CreatedAt r) (run_UpdatedAt r) (run_CompletedAt r).

#[export] Instance AgentRun_eq_dec : EqDecision AgentRun.
Proof. solve_decision. Defined.

Record NewAgentRunInput := {
  in_TenantID : UUID;
  in_ProjectID : UUID;
  in_PromptReference : string;
  in_Runtime : string;
  in_CPUMillis : Z;
  in_MemoryMiB : Z;
  in_TimeoutSeconds : Z;
  in_MaxAttempts : Z;
  in_IdempotencyKey : string;
  in_RequestHash : string;
  in_CreatedBy : string;
}.

(** The assignments [input.X = strings.TrimSpace(input.X)] that open [NewAgentRun]. *)
Definition trimmed_input (input : NewAgentRunInput) : NewAgentRunInput :=
  {| in_TenantID := in_TenantID input; in_ProjectID := in_ProjectID input;
     in_PromptReference := TrimSpace (in_PromptReference input);
     in_Runtime := TrimSpace (in_Runtime input);
     in_CPUMillis := in_CPUMillis input; in_MemoryMiB := in_MemoryMiB input;
     in_TimeoutSeconds := in_TimeoutSeconds input; in_MaxAttempts := in_MaxAttempts input;
     in_IdempotencyKey := TrimSpace (in_IdempotencyKey input);
     in_RequestHash := TrimSpace (in_RequestHash input);
     in_CreatedBy := TrimSpace (in_CreatedBy input) |}.

(** [NewAgentRun]; [newV7] is the result of the call of [uuid.NewV7]. *)
Definition NewAgentRun (newV7 : res UUID) (input : NewAgentRunInput) (now : Time) : res AgentRun :=
  let input := trimmed_input input in
  _ ← failIf ((in_TenantID input == uuidNil) || (in_ProjectID input == uuidNil)) ErrValidation;
  _ ← failIf ((len (in_PromptReference input) =? 0) || (2048 <? len (in_PromptReference input))) ErrValidation;
  _ ← failIf ((len (in_Runtime input) =? 0) || (120 <? len (in_Runtime input))) ErrValidation;
  _ ← failIf ((in_CPUMillis input <? 1) || (128000 <? in_CPUMillis input)
              || (in_MemoryMiB input <? 1) || (524288 <? in_MemoryMiB input)) ErrValidation;
  _ ← failIf ((in_TimeoutSeconds input <? 1) || (86400 <? in_TimeoutSeconds input)) ErrValidation;
  _ ← failIf ((in_MaxAttempts input <? 1) || (10 <? in_MaxAttempts input)) ErrValidation;
  _ ← failIf ((len (in_IdempotencyKey input) =? 0) || (255 <? len (in_IdempotencyKey input))
              || (len (in_RequestHash input) =? 0) || (128 <? len (in_RequestHash input))
              || (len (in_CreatedBy input) =? 0) || (255 <? len (in_CreatedBy input))) ErrValidation;
  id ← newV7;
  let now := UTC now in
  Ok {| run_ID := id; run_TenantID := in_TenantID input; run_ProjectID := in_ProjectID input;
        run_PromptReference := in_PromptReference input; run_Runtime := in_Runtime input;
        run_CPUMillis := in_CPUMillis input; run_MemoryMiB := in_MemoryMiB input;
        run_TimeoutSeconds := in_TimeoutSeconds input; run_MaxAttempts := in_MaxAttempts input;
        run_AttemptCount := 1; run_Status := AgentRunQueued; run_FailureCategory := FailureUnset;
        run_IdempotencyKey := in_IdempotencyKey input; run_RequestHash := in_RequestHash input;
        run_Version := 1; run_CreatedBy := in_CreatedBy input;
        run_CancellationReason := EmptyString; run_CancellationRequestedBy := EmptyString;
        run_CancellationRequestedAt := None;
        run_CreatedAt := now; run_UpdatedAt := now; run_CompletedAt := None |}.

(** [AgentRunStatus.IsTerminal] *)
Definition IsTerminal (status : AgentRunStatus) : bool :=
  match status with
  | AgentRunSucceeded | AgentRunCancelled | AgentRunProvisioningFailed
  | AgentRunExecutionFailed | AgentRunBuildFailed | AgentRunPolicyRejected
  | AgentRunDeploymentFailed | AgentRunTimedOut => true
  | _ => false
  end.

(** [AgentRun.CanRetry] *)
Definition CanRetry (run : AgentRun) : bool :=
  if negb (IsTerminal (run_Status run)) || (run_MaxAttempts run <=? run_AttemptCount run)
  then false
  else run_FailureCategory run == FailureTransientDependency.

(** [AgentRun.CanTransition] *)
Definition CanTransition (run : AgentRun) (target : AgentRunStatus) : bool :=
  if run_Status run == target then true else
  if target == AgentRunCancelling then
    negb (IsTerminal (run_Status run)) && (run_Status run != AgentRunCancelling)
  else
  match run_Status run with
  | AgentRunQueued => target == AgentRunScheduling
  | AgentRunScheduling =>
      (target == AgentRunCapacityWait) || (target == AgentRunProvisioning)
      || (target == AgentRunPolicyRejected) || (target == AgentRunTimedOut)
  | AgentRunCapacityWait => (target == AgentRunScheduling) || (target == AgentRunTimedOut)
  | AgentRunProvisioning =>
      (target == AgentRunRunning) || (target == AgentRunProvisioningFailed) || (target == AgentRunTimedOut)
  | AgentRunRunning =>
      (target == AgentRunTesting) || (target == AgentRunExecutionFailed) || (target == AgentRunTimedOut)
  | AgentRunTesting =>
      (target == AgentRunBuilding) || (target == AgentRunExecutionFailed) || (target == AgentRunTimedOut)
  | AgentRunBuilding =>
      (target == AgentRunScanning) || (target == AgentRunBuildFailed) || (target == AgentRunTimedOut)
  | AgentRunScanning =>
      (target == AgentRunReadyToDeploy) || (target == AgentRunPolicyRejected) || (target == AgentRunTimedOut)
  | AgentRunReadyToDeploy => target == AgentRunDeploying
  | AgentRunDeploying =>
      (target == AgentRunSucceeded) || (target == AgentRunDeploymentFailed) || (target == AgentRunTimedOut)
  | AgentRunCancelling => target == AgentRunCancelled
  | AgentRunProvisioningFailed | AgentRunExecutionFailed | AgentRunBuildFailed
  | AgentRunDeploymentFailed | AgentRunTimedOut => (target == AgentRunQueued) && CanRetry run
  | _ => false
  end.

(** [AgentRun.Transition]: no field is assigned before the last error return,
    so an error leaves the aggregate as it was. *)
Definition Transition (run : AgentRun) (target : AgentRunStatus) (failure : FailureCategory)
    (now : Time) : res AgentRun :=
  _ ← failIf (negb (CanTransition run target)) ErrInvalidTransition;
  if target == run_Status run then Ok run else
  _ ← failIf (IsTerminal target && (target != AgentRunSucceeded) && (target != AgentRunCancelled)
              && (failure == FailureUnset)) (ErrPlain "failure category is required");
  _ ← failIf (IsTerminal target && (target != AgentRunSucceeded) && (target != AgentRunCancelled)
              && negb (FailureCategory_IsValid failure)) (ErrPlain "failure category is not valid");
  let run :=
    if (target == AgentRunQueued) && IsTerminal (run_Status run) then
      run <| run_AttemptCount := add64 (run_AttemptCount run) 1 |>
          <| run_FailureCategory := FailureUnset |> <| run_CompletedAt := None |>
    else if IsTerminal target then
      run <| run_CompletedAt := Some (UTC now) |> <| run_FailureCategory := failure |>
    else run in
  Ok (run <| run_Status := target |> <| run_UpdatedAt := UTC now |>).

Record AgentRunAttempt := {
  att_ID : UUID;
  att_TenantID : UUID;
  att_RunID : UUID;
  att_AttemptNumber : Z;
  att_Status : AgentRunAttemptStatus;
  att_FailureCategory : FailureCategory;
  att_Version : Z;
  att_SelectedCluster : string;
  att_ExecutionProfile : string;
  att_CapacityReservationID : UUID;
  att_BudgetReservationID : UUID;
  att_WorkloadReference : string;
  att_CreatedAt : Time;
  att_UpdatedAt : Time;
  att_StartedAt : option Time;
  att_CompletedAt : option Time;
}.

#[export] Instance AgentRunAttempt_settable : Settable AgentRunAttempt := fun a =>
  Build_AgentRunAttempt (att_ID a) (att_TenantID a) (att_RunID a) (att_AttemptNumber a)
    (att_Status a) (att_FailureCategory a) (att_Version a) (att_SelectedCluster a)
    (att_ExecutionProfile a) (att_CapacityReservationID a) (att_BudgetReservationID a)
    (att_WorkloadReference a) (att_CreatedAt a) (att_UpdatedAt a) (att_StartedAt a)
    (att_CompletedAt a).

#[export] Instance AgentRunAttempt_eq_dec : EqDecision AgentRunAttempt.
Proof. solve_decision. Defined.

Definition NewAgentRunAttempt (newV7 : res UUID) (tenantID runID : UUID) (number : Z)
    (now : Time) : res AgentRunAttempt :=
  _ ← failIf ((tenantID == uuidNil) || (runID == uuidNil) || (number <? 1)) ErrValidation;
  id ← newV7;
  let now := UTC now in
  Ok {| att_ID := id; att_TenantID := tenantID; att_RunID := runID; att_AttemptNumber := number;
        att_Status := AttemptPending; att_FailureCategory := FailureUnset; att_Version := 1;
        att_SelectedCluster := EmptyString; att_ExecutionProfile := EmptyString;
        att_CapacityReservationID := uuidNil; att_BudgetReservationID := uuidNil;
        att_WorkloadReference := EmptyString; att_CreatedAt := now; att_UpdatedAt := now;
        att_StartedAt := None; att_CompletedAt := None |}.

(** [AgentRunAttempt.CanTransition] *)
Definition Attempt_CanTransition (attempt : AgentRunAttempt) (target : AgentRunAttemptStatus) : bool :=
  if att_Status attempt == target then true else
  match att_Status attempt with
  | AttemptPending =>
      (target == AttemptStarting) || (target == AttemptCancelled) || (target == AttemptTimedOut)
  | AttemptStarting =>
      (target == AttemptActive) || (target == AttemptFailed) || (target == AttemptCancelled)
      || (target == AttemptTimedOut)
  | AttemptActive =>
      (target == AttemptCompleted) || (target == AttemptFailed) || (target == AttemptCancelled)
      || (target == AttemptTimedOut)
  | _ => false
  end.

(** [AgentRunAttempt.Transition] *)
Definition Attempt_Transition (attempt : AgentRunAttempt) (target : AgentRunAttemptStatus)
    (failure : FailureCategory) (now : Time) : res AgentRunAttempt :=
  _ ← failIf (negb (Attempt_CanTransition attempt target)) ErrInvalidTransition;
  if target == att_Status attempt then Ok attempt else
  let now := UTC now in
  let attempt := if target == AttemptActive then attempt <| att_StartedAt := Some now |> else attempt in
  let fails := (target == AttemptFailed) || (target == AttemptTimedOut) in
  _ ← failIf (fails && (failure == FailureUnset)) (ErrPlain "failure category is required");
  _ ← failIf (fails && negb (FailureCategory_IsValid failure)) (ErrPlain "failure category is not valid");
  let attempt := if fails then attempt <| att_FailureCategory := failure |> else attempt in
  let attempt :=
    if (target == AttemptCompleted) || (target == AttemptFailed) || (target == AttemptCancelled)
       || (target == AttemptTimedOut)
    then attempt <| att_CompletedAt := Some now |> else attempt in
  Ok (attempt <| att_Status := target |> <| att_UpdatedAt := now |>).

(** ** The documented lifecycle

    The edges of the state diagram, without the manual retry. *)
Inductive run_edge : AgentRunStatus -> AgentRunStatus -> Prop :=
| edge_claim : run_edge AgentRunQueued AgentRunScheduling
| edge_capacity_wait : run_edge AgentRunScheduling AgentRunCapacityWait
| edge_reclaim : run_edge AgentRunCapacityWait AgentRunScheduling
| edge_assign : run_edge AgentRunScheduling AgentRunProvisioning
| edge_started : run_edge AgentRunProvisioning AgentRunRunning
| edge_executed : run_edge AgentRunRunning AgentRunTesting
| edge_tested : run_edge AgentRunTesting AgentRunBuilding
| edge_built : run_edge AgentRunBuilding AgentRunScanning
| edge_scanned : run_edge AgentRunScanning AgentRunReadyToDeploy
| edge_deploy : run_edge AgentRunReadyToDeploy AgentRunDeploying
| edge_healthy : run_edge AgentRunDeploying AgentRunSucceeded
| edge_provisioning_failed : run_edge AgentRunProvisioning AgentRunProvisioningFailed
| edge_execution_failed : run_edge AgentRunRunning AgentRunExecutionFailed
| edge_test_failed : run_edge AgentRunTesting AgentRunExecutionFailed
| edge_build_failed : run_edge AgentRunBuilding AgentRunBuildFailed
| edge_admission_rejected : run_edge AgentRunScheduling AgentRunPolicyRejected
| edge_policy_rejected : run_edge AgentRunScanning AgentRunPolicyRejected
| edge_deployment_failed : run_edge AgentRunDeploying AgentRunDeploymentFailed
| edge_timed_out s :
    s ∈ [AgentRunScheduling; AgentRunCapacityWait; AgentRunProvisioning; AgentRunRunning;
         AgentRunTesting; AgentRunBuilding; AgentRunScanning; AgentRunDeploying] ->
    run_edge s AgentRunTimedOut
| edge_cancel s :
    s ∈ [AgentRunQueued; AgentRunScheduling; AgentRunCapacityWait; AgentRunProvisioning;
         AgentRunRunning; AgentRunTesting; AgentRunBuilding; AgentRunScanning;
         AgentRunReadyToDeploy; AgentRunDeploying] ->
    run_edge s AgentRunCancelling
| edge_cancelled : run_edge AgentRunCancelling AgentRunCancelled.

(** The terminal failures a manual retry may leave. *)
Definition retryable_status (s : AgentRunStatus) : bool :=
  match s with
  | AgentRunProvisioningFailed | AgentRunExecutionFailed | AgentRunBuildFailed
  | AgentRunDeploymentFailed | AgentRunTimedOut => true
  | _ => false
  end.

(** Terminal outcomes that carry a failure category. *)
Definition failed_status (s : AgentRunStatus) : bool :=
  IsTerminal s && (s != AgentRunSucceeded) && (s != AgentRunCancelled).

(** One step of the documented lifecycle, with its side effects. *)
Inductive run_step (now : Time) (run : AgentRun) : AgentRun -> Prop :=
| step_repeated : run_step now run run
| step_progress target :
    run_edge (run_Status run) target -> IsTerminal target = false ->
    run_step now run (run <| run_Status := target |> <| run_UpdatedAt := now |>)
| step_failed target failure :
    run_edge (run_Status run) target -> failed_status target = true ->
    FailureCategory_IsValid failure = true ->
    run_step now run (run <| run_CompletedAt := Some now |> <| run_FailureCategory := failure |>
                          <| run_Status := target |> <| run_UpdatedAt := now |>)
| step_finished target failure :
    run_edge (run_Status run) target ->
    target = AgentRunSucceeded \/ target = AgentRunCancelled ->
    run_step now run (run <| run_CompletedAt := Some now |> <| run_FailureCategory := failure |>
                          <| run_Status := target |> <| run_UpdatedAt := now |>)
| step_retry :
    retryable_status (run_Status run) = true ->
    run_FailureCategory run = FailureTransientDependency ->
    run_AttemptCount run < run_MaxAttempts run ->
    run_step now run (run <| run_AttemptCount := add64 (run_AttemptCount run) 1 |>
                          <| run_FailureCategory := FailureUnset |> <| run_CompletedAt := None |>
                          <| run_Status := AgentRunQueued |> <| run_UpdatedAt := now |>).

(** The same for attempts. *)
Inductive attempt_edge : AgentRunAttemptStatus -> AgentRunAttemptStatus -> Prop :=
| att_assigned : attempt_edge AttemptPending AttemptStarting
| att_accepted : attempt_edge AttemptStarting AttemptActive
| att_tests_accepted : attempt_edge AttemptActive AttemptCompleted
| att_cancelled s : s ∈ [AttemptPending; AttemptStarting; AttemptActive] -> attempt_edge s AttemptCancelled
| att_failed s : s ∈ [AttemptStarting; AttemptActive] -> attempt_edge s AttemptFailed
| att_timed_out s : s ∈ [AttemptPending; AttemptStarting; AttemptActive] -> attempt_edge s AttemptTimedOut.

(** A run changed by some call of [Transition]. *)
Definition run_moves (run run' : AgentRun) : Prop :=
  exists target failure now, Transition run target failure now = Ok run'.

(** An attempt whose status is changed by a call of its [Transition]. *)
Definition attempt_moves (a a' : AgentRunAttempt) : Prop :=
  exists target failure now,
    Attempt_Transition a target failure now = Ok a' /\ att_Status a' <> att_Status a.

(** What every stored run satisfies. *)
Record run_inv (run : AgentRun) : Prop := {
  inv_attempts : 1 <= run_AttemptCount run <= run_MaxAttempts run;
  inv_max : run_MaxAttempts run <= 10;
  inv_completed : is_Some (run_CompletedAt run) <-> IsTerminal (run_Status run) = true;
  inv_open_category : IsTerminal (run_Status run) = false -> run_FailureCategory run = FailureUnset;
  inv_failed_category :
    failed_status (run_Status run) = true -> FailureCategory_IsValid (run_FailureCategory run) = true;
}.

(** What [NewAgentRun] requires of the request after trimming. *)
Record valid_run_input (i : NewAgentRunInput) : Prop := {
  vi_tenant : in_TenantID i <> uuidNil;
  vi_project : in_ProjectID i <> uuidNil;
  vi_prompt : 1 <= len (in_PromptReference i) <= 2048;
  vi_runtime : 1 <= len (in_Runtime i) <= 120;
  vi_cpu : 1 <= in_CPUMillis i <= 128000;
  vi_memory : 1 <= in_MemoryMiB i <= 524288;
  vi_timeout : 1 <= in_TimeoutSeconds i <= 86400;
  vi_attempts : 1 <= in_MaxAttempts i <= 10;
  vi_key : 1 <= len (in_IdempotencyKey i) <= 255;
  vi_hash : 1 <= len (in_RequestHash i) <= 128;
  vi_actor : 1 <= len (in_CreatedBy i) <= 255;
}.

(** ** Lemmas *)

#[export] Hint Constructors run_edge attempt_edge : agentforge.

(** Decide a closed membership in one of the status lists above. *)
Ltac status_in := first [done | repeat (first [by left | right]); done | set_solver].

Lemma run_edge_iff s t :
  run_edge s t <->
  s <> t /\ retryable_status s = false /\
  (if t == AgentRunCancelling then negb (IsTerminal s) else
   match s with
   | AgentRunQueued => t == AgentRunScheduling
   | AgentRunScheduling =>
       (t == AgentRunCapacityWait) || (t == AgentRunProvisioning)
       || (t == AgentRunPolicyRejected) || (t == AgentRunTimedOut)
   | AgentRunCapacityWait => (t == AgentRunScheduling) || (t == AgentRunTimedOut)
   | AgentRunProvisioning =>
       (t == AgentRunRunning) || (t == AgentRunProvisioningFailed) || (t == AgentRunTimedOut)
   | AgentRunRunning | AgentRunTesting =>
       (t == (if s == AgentRunRunning then AgentRunTesting else AgentRunBuilding))
       || (t == AgentRunExecutionFailed) || (t == AgentRunTimedOut)
   | AgentRunBuilding =>
       (t == AgentRunScanning) || (t == AgentRunBuildFailed) || (t == AgentRunTimedOut)
   | AgentRunScanning =>
       (t == AgentRunReadyToDeploy) || (t == AgentRunPolicyRejected) || (t == AgentRunTimedOut)
   | AgentRunReadyToDeploy => t == AgentRunDeploying
   | AgentRunDeploying =>
       (t == AgentRunSucceeded) || (t == AgentRunDeploymentFailed) || (t == AgentRunTimedOut)
   | AgentRunCancelling => t == AgentRunCancelled
   | _ => false
   end) = true.
Proof.
  split.
  - destruct 1 as [| | | | | | | | | | | | | | | | | |s Hs|s Hs|]; try (repeat split; done);
      destruct s; try (repeat split; done); exfalso; revert Hs; set_solver.
  - intros (Hne & Hr & Hb).
    destruct s, t; try done; constructor; set_solver.
Qed.

Lemma run_edge_source s t : run_edge s t -> IsTerminal s = false.
Proof. intros (? & ? & Hb)%run_edge_iff. by destruct s; first [done | destruct t]. Qed.

Lemma CanRetry_iff run :
  CanRetry run = true <->
  IsTerminal (run_Status run) = true /\ run_AttemptCount run < run_MaxAttempts run /\
  run_FailureCategory run = FailureTransientDependency.
Proof.
  unfold CanRetry. destruct (IsTerminal _); simpl; [|naive_solver].
  destruct (Z.leb_spec (run_MaxAttempts run) (run_AttemptCount run)).
  - split; [done|intros (?&?&?); lia].
  - rewrite bool_decide_eq_true. naive_solver lia.
Qed.

Lemma CanTransition_iff run target :
  CanTransition run target = true <->
  run_Status run = target \/ run_edge (run_Status run) target \/
  (retryable_status (run_Status run) = true /\ target = AgentRunQueued /\ CanRetry run = true).
Proof.
  rewrite run_edge_iff. unfold CanTransition.
  destruct (run_Status run), target; simpl; rewrite ?andb_true_iff; naive_solver.
Qed.

Lemma failed_status_terminal t : failed_status t = true -> IsTerminal t = true.
Proof. by destruct t. Qed.

Lemma terminal_cases t :
  IsTerminal t = true -> failed_status t = true \/ t = AgentRunSucceeded \/ t = AgentRunCancelled.
Proof. destruct t; naive_solver. Qed.

(** The guard of the two failure-category checks of [Transition]. *)
Lemma Transition_category_guard t failure :
  (exists u, failIf (IsTerminal t && (t != AgentRunSucceeded) && (t != AgentRunCancelled)
      && (failure == FailureUnset)) (ErrPlain "failure category is required") = Ok u) /\
  (exists u, failIf (IsTerminal t && (t != AgentRunSucceeded) && (t != AgentRunCancelled)
      && negb (FailureCategory_IsValid failure)) (ErrPlain "failure category is not valid") = Ok u)
  <-> (failed_status t = true -> FailureCategory_IsValid failure = true).
Proof.
  change (IsTerminal t && (t != AgentRunSucceeded) && (t != AgentRunCancelled)) with (failed_status t).
  destruct (failed_status t); simpl; [|naive_solver].
  destruct failure; simpl; naive_solver.
Qed.

(** The update of [Transition] on an edge that is not a retry. *)
Lemma Transition_edge run target failure now :
  run_edge (run_Status run) target ->
  (failed_status target = true -> FailureCategory_IsValid failure = true) ->
  Transition run target failure now = Ok (
    (if IsTerminal target then run <| run_CompletedAt := Some now |> <| run_FailureCategory := failure |>
     else run) <| run_Status := target |> <| run_UpdatedAt := now |>).
Proof.
  intros Hedge Hcat. pose proof (run_edge_source _ _ Hedge) as Hopen.
  assert (CanTransition run target = true) as Hcan by (apply CanTransition_iff; auto).
  apply run_edge_iff in Hedge as (Hne & _ & _).
  apply Transition_category_guard in Hcat as [[u1 H1] [u2 H2]].
  unfold Transition. rewrite Hcan. simpl.
  rewrite bool_decide_eq_false_2 by congruence. unfold mbind in *; simpl in *. rewrite H1. simpl. rewrite H2.
  simpl. by rewrite Hopen, andb_false_r.
Qed.

Lemma Transition_retry run failure now :
  retryable_status (run_Status run) = true -> CanRetry run = true ->
  Transition run AgentRunQueued failure now = Ok (
    run <| run_AttemptCount := add64 (run_AttemptCount run) 1 |>
        <| run_FailureCategory := FailureUnset |> <| run_CompletedAt := None |>
        <| run_Status := AgentRunQueued |> <| run_UpdatedAt := now |>).
Proof.
  intros Hr Hc. unfold Transition.
  assert (CanTransition run AgentRunQueued = true) as -> by (apply CanTransition_iff; auto).
  unfold mbind; simpl. by destruct (run_Status run).
Qed.

Lemma Transition_sound run target failure now run' :
  Transition run target failure now = Ok run' -> run_step now run run'.
Proof.
  intros H. pose proof H as H'. unfold Transition in H. inv_ok.
  apply negb_false_iff, CanTransition_iff in H0 as [Heq|[Hedge|(Hr & -> & Hc)]].
  - rewrite bool_decide_eq_true_2 in H by done. inv_ok. constructor.
  - pose proof Hedge as Hed. apply run_edge_iff in Hed as (Hne & _ & _).
    rewrite bool_decide_eq_false_2 in H by congruence. inv_ok.
    assert (Hcat : failed_status target = true -> FailureCategory_IsValid failure = true).
    { apply Transition_category_guard. rewrite H0, H1. eauto. }
    rewrite (Transition_edge _ _ _ _ Hedge Hcat) in H'. apply Ok_inj in H' as <-.
    destruct (IsTerminal target) eqn:Hterm; [|by apply step_progress].
    destruct (terminal_cases _ Hterm); [apply step_failed|apply step_finished]; auto.
  - clear H. rewrite (Transition_retry _ _ _ Hr Hc) in H'. inv_ok.
    apply CanRetry_iff in Hc as (?&?&?). by apply step_retry.
Qed.

Lemma Transition_complete run run' now :
  run_step now run run' -> exists target failure, Transition run target failure now = Ok run'.
Proof.
  destruct 1 as [|t Hedge Ht|t f Hedge Ht Hf|t f Hedge Ht|Hr Hf Hlt].
  - exists (run_Status run), FailureUnset. unfold Transition.
    assert (CanTransition run (run_Status run) = true) as -> by (apply CanTransition_iff; auto).
    simpl. unfold mbind; simpl. by rewrite bool_decide_eq_true_2.
  - exists t, FailureUnset. rewrite (Transition_edge _ _ _ _ Hedge); [by rewrite Ht|].
    intros Hft%failed_status_terminal. congruence.
  - exists t, f. rewrite (Transition_edge _ _ _ _ Hedge) by done.
    by rewrite (failed_status_terminal _ Ht).
  - exists t, f. rewrite (Transition_edge _ _ _ _ Hedge); destruct Ht as [-> | ->]; done.
  - exists AgentRunQueued, FailureUnset. apply Transition_retry; [done|]. apply CanRetry_iff.
    split; [by destruct (run_Status run)|done].
Qed.

(** C1: [Transition] implements the documented lifecycle: the runs it can
    produce from a run are exactly those of one step of the state diagram with
    the documented side effects (completion time and failure category on a
    terminal outcome, next attempt and cleared outcome on a manual retry, no
    change on a repeated status). *)
Theorem Transition_refines_lifecycle run run' now :
  (exists target failure, Transition run target failure now = Ok run') <-> run_step now run run'.
Proof. split; [intros (target & failure & H); eauto using Transition_sound|apply Transition_complete]. Qed.

(** ** Invariants over every history *)

Lemma run_step_inv now run run' : run_inv run -> run_step now run run' -> run_inv run'.
Proof.
  intros [Ha Hm Hc Ho Hf] Hstep.
  destruct Hstep as [|t Hedge Ht|t f Hedge Ht Hv|t f Hedge Ht|Hr Htr Hlt]; split; simpl; try done.
  - pose proof (run_edge_source _ _ Hedge) as Hopen. rewrite Ht, Hc, Hopen. done.
  - intros _. apply Ho. by apply run_edge_source in Hedge.
  - intros Hft%failed_status_terminal. congruence.
  - split; [|eauto]. intros _. by apply failed_status_terminal.
  - apply failed_status_terminal in Ht. congruence.
  - split; [|eauto]. by destruct Ht as [-> | ->].
  - by destruct Ht as [-> | ->].
  - by destruct Ht as [-> | ->].
  - rewrite add64_small; [lia|unfold in_int64; lia].
Qed.

Lemma run_moves_step run run' : run_moves run run' -> exists now, run_step now run run'.
Proof. intros (t & f & now & H). exists now. by eapply Transition_sound. Qed.

Lemma run_moves_inv run run' : run_inv run -> rtc run_moves run run' -> run_inv run'.
Proof.
  intros Hinv. induction 1 as [|x y z Hxy _ IH]; [done|].
  apply IH. destruct (run_moves_step _ _ Hxy). by eapply run_step_inv.
Qed.

(** Along a history the request is immutable and attempts are never lost. *)
Lemma run_moves_attempts run run' :
  run_inv run -> rtc run_moves run run' ->
  run_AttemptCount run <= run_AttemptCount run' /\ run_MaxAttempts run' = run_MaxAttempts run /\
  run_ID run' = run_ID run /\ run_TenantID run' = run_TenantID run.
Proof.
  intros Hinv Hrtc. induction Hrtc as [|x y z Hxy _ IH]; [done|].
  destruct (run_moves_step _ _ Hxy) as [now Hstep].
  destruct (IH (run_step_inv _ _ _ Hinv Hstep)) as (IH1 & -> & -> & ->).
  destruct Hinv as [Ha Hm _ _ _].
  destruct Hstep; simpl in *; try done.
  rewrite add64_small in IH1; [lia|unfold in_int64; lia].
Qed.

Lemma run_step_terminal now run run' :
  run_inv run -> IsTerminal (run_Status run) = true -> run_step now run run' ->
  run' = run \/ (run_Status run' = AgentRunQueued /\ run_AttemptCount run' = run_AttemptCount run + 1 /\
                 run_FailureCategory run = FailureTransientDependency /\
                 retryable_status (run_Status run) = true).
Proof.
  intros [Ha Hm _ _ _] Hterm Hstep.
  destruct Hstep as [|t Hedge Ht|t f Hedge Ht Hv|t f Hedge Ht|Hr Htr Hlt]; auto;
    try (apply run_edge_source in Hedge; congruence).
  right. simpl. rewrite add64_small by (unfold in_int64; lia). auto.
Qed.

Lemma NewAgentRun_ok newV7 input now run :
  NewAgentRun newV7 input now = Ok run <->
  exists id, newV7 = Ok id /\ valid_run_input (trimmed_input input) /\
  run = {| run_ID := id; run_TenantID := in_TenantID input; run_ProjectID := in_ProjectID input;
     run_PromptReference := TrimSpace (in_PromptReference input);
     run_Runtime := TrimSpace (in_Runtime input);
     run_CPUMillis := in_CPUMillis input; run_MemoryMiB := in_MemoryMiB input;
     run_TimeoutSeconds := in_TimeoutSeconds input; run_MaxAttempts := in_MaxAttempts input;
     run_AttemptCount := 1; run_Status := AgentRunQueued; run_FailureCategory := FailureUnset;
     run_IdempotencyKey := TrimSpace (in_IdempotencyKey input);
     run_RequestHash := TrimSpace (in_RequestHash input); run_Version := 1;
     run_CreatedBy := TrimSpace (in_CreatedBy input);
     run_CancellationReason := EmptyString; run_CancellationRequestedBy := EmptyString;
     run_CancellationRequestedAt := None;
     run_CreatedAt := now; run_UpdatedAt := now; run_CompletedAt := None |}.
Proof.
  unfold NewAgentRun. split.
  - intros H. inv_ok. reflect_bools. eexists; split; [reflexivity|].
    split; [|reflexivity]. split; simpl in *; try done; unfold len in *; lia.
  - intros (id & -> & [] & ->). simpl in *.
    repeat (match goal with
      | |- context [failIf ?c ?e] =>
          let E := fresh in assert (failIf c e = Ok tt) as E;
          [apply failIf_ok; rewrite ?orb_false_iff, ?bool_decide_eq_false; unfold len in *; split_and?; first [done|lia]
          |rewrite E; clear E; unfold mbind; simpl]
      end). reflexivity.
Qed.

Lemma NewAgentRun_inv newV7 input now run : NewAgentRun newV7 input now = Ok run -> run_inv run.
Proof.
  intros (id & _ & [] & ->)%NewAgentRun_ok. simpl in *. split; simpl; try done; try lia.
Qed.

(** [NewAgentRun] accepts a request exactly when, after trimming, it is
    within the documented bounds and an identifier is available; the run it
    builds is the first queued attempt of that request, and every history of
    transitions from it keeps the attempt count within the accepted maximum, a
    completion time exactly on terminal runs, and a valid failure category
    exactly on failed ones. *)
Theorem NewAgentRun_establishes_invariant newV7 input now :
  (is_ok (NewAgentRun newV7 input now) = true <->
     is_ok newV7 = true /\ valid_run_input (trimmed_input input)) /\
  (forall run run', NewAgentRun newV7 input now = Ok run -> rtc run_moves run run' -> run_inv run').
Proof.
  split.
  - split.
    + destruct (NewAgentRun newV7 input now) as [run|] eqn:E; [|done].
      apply NewAgentRun_ok in E as (id & -> & ? & _). done.
    + intros [Hid Hv]. destruct newV7 as [id|]; [|done].
      erewrite (proj2 (NewAgentRun_ok (Ok id) input now _)); [done|eauto].
  - intros run run' Hnew. apply run_moves_inv. by eapply NewAgentRun_inv.
Qed.

(** a terminal outcome is immutable: any sequence of transitions from a
    terminal run that does not start a new attempt leaves it exactly as it was,
    and a new attempt is only started from one of the retryable failures, for a
    transient dependency, below the attempt limit. *)
Theorem terminal_outcome_stable run run' :
  run_inv run -> IsTerminal (run_Status run) = true -> rtc run_moves run run' ->
  (run_AttemptCount run' = run_AttemptCount run -> run' = run) /\
  (run' <> run -> retryable_status (run_Status run) = true /\
     run_FailureCategory run = FailureTransientDependency /\
     run_AttemptCount run < run_AttemptCount run' <= run_MaxAttempts run).
Proof.
  intros Hinv Hterm Hrtc.
  assert (Hcase : run' = run \/ (retryable_status (run_Status run) = true /\
     run_FailureCategory run = FailureTransientDependency /\
     run_AttemptCount run < run_AttemptCount run' <= run_MaxAttempts run)).
  { revert Hinv Hterm. induction Hrtc as [|x y z Hxy Hyz IH]; intros Hinv Hterm; [auto|].
    destruct (run_moves_step _ _ Hxy) as [now Hstep].
    pose proof (run_step_inv _ _ _ Hinv Hstep) as Hy.
    destruct (run_step_terminal _ _ _ Hinv Hterm Hstep) as [->|(_ & Hc & Hf & Hr)]; [auto|].
    right. split_and!; try done.
    - destruct (run_moves_attempts _ _ Hy Hyz) as [? _]. lia.
    - destruct (run_moves_inv _ _ Hinv (rtc_l _ _ _ _ Hxy Hyz)) as [Ha _ _ _ _].
      destruct (run_moves_attempts _ _ Hinv (rtc_l _ _ _ _ Hxy Hyz)) as (_ & <- & _). lia. }
  destruct Hcase as [->|(?&?&?)]; split; try done; lia.
Qed.

(** *** Attempts *)

Definition attempt_rank (s : AgentRunAttemptStatus) : nat :=
  match s with
  | AttemptPending => 0
  | AttemptStarting => 1
  | AttemptActive => 2
  | _ => 3
  end.

Definition attempt_terminal (s : AgentRunAttemptStatus) : bool :=
  match s with
  | AttemptCompleted | AttemptFailed | AttemptCancelled | AttemptTimedOut => true
  | _ => false
  end.

Lemma attempt_edge_rank s t : attempt_edge s t -> (attempt_rank s < attempt_rank t)%nat.
Proof. destruct 1 as [| | |s Hs|s Hs|s Hs]; simpl; try lia; destruct s; simpl; try lia; set_solver. Qed.

Lemma Attempt_CanTransition_iff a target :
  Attempt_CanTransition a target = true <->
  att_Status a = target \/ attempt_edge (att_Status a) target.
Proof.
  unfold Attempt_CanTransition. split.
  - case_bool_decide as Hs; [by left|].
    destruct (att_Status a), target; simpl; try done; intros _; right; constructor; set_solver.
  - intros [->|Hedge]; [by rewrite bool_decide_eq_true_2|].
    case_bool_decide; [done|].
    destruct Hedge as [| | |s Hs|s Hs|s Hs]; try done; destruct s; try done; set_solver.
Qed.

Lemma Attempt_Transition_ok a target failure now a' :
  Attempt_Transition a target failure now = Ok a' ->
  (target = att_Status a /\ a' = a) \/
  (attempt_edge (att_Status a) target /\ att_Status a' = target /\
   att_CompletedAt a' = (if attempt_terminal target then Some now else att_CompletedAt a) /\
   att_StartedAt a' = (if target == AttemptActive then Some now else att_StartedAt a) /\
   att_FailureCategory a' =
     (if (target == AttemptFailed) || (target == AttemptTimedOut) then failure else att_FailureCategory a) /\
   ((target == AttemptFailed) || (target == AttemptTimedOut) = true -> FailureCategory_IsValid failure = true)).
Proof.
  unfold Attempt_Transition. intros H. inv_ok. apply negb_false_iff in H0.
  case_bool_decide as Heq; inv_ok; [by left|]. right.
  apply Attempt_CanTransition_iff in H0 as [?|Hedge]; [congruence|]. split; [done|].
  destruct target; simpl in *; reflect_bools; naive_solver.
Qed.

Lemma attempt_moves_rank a a' :
  attempt_moves a a' -> (attempt_rank (att_Status a) < attempt_rank (att_Status a'))%nat.
Proof.
  intros (t & f & now & H & Hne).
  apply Attempt_Transition_ok in H as [[_ ->]|(Hedge & Hs & _)]; [done|].
  rewrite Hs. by apply attempt_edge_rank.
Qed.

Lemma attempt_moves_bound n a a' :
  nsteps attempt_moves n a a' ->
  (n + attempt_rank (att_Status a) <= attempt_rank (att_Status a'))%nat.
Proof. induction 1 as [|n x y z Hxy _ IH]; [lia|]. apply attempt_moves_rank in Hxy. lia. Qed.

(** an attempt is a monotonic history entry: at most three status changes
    happen to it, a terminal attempt never changes status again, and an
    accepted status change follows the attempt diagram. *)
Theorem attempt_history_bounded a a' n :
  nsteps attempt_moves n a a' ->
  (n <= 3)%nat /\ (attempt_terminal (att_Status a) = true -> n = 0%nat /\ a' = a) /\
  (n = 1%nat -> attempt_edge (att_Status a) (att_Status a')).
Proof.
  intros Hn. pose proof (attempt_moves_bound _ _ _ Hn) as Hb.
  assert (attempt_rank (att_Status a') <= 3)%nat by (destruct (att_Status a'); simpl; lia).
  split; [lia|split].
  - intros Ht. assert (attempt_rank (att_Status a) = 3%nat) by (by destruct (att_Status a)).
    assert (n = 0%nat) as -> by lia. by inversion Hn.
  - intros ->. apply nsteps_once_inv in Hn as (t & f & now & H1 & Hne).
    apply Attempt_Transition_ok in H1 as [[_ ->]|(Hedge & <- & _)]; done.
Qed.

(** ** Examples *)

Definition example_run : AgentRun :=
  {| run_ID := 11; run_TenantID := 7; run_ProjectID := 8; run_PromptReference := "s3://prompts/1";
     run_Runtime := "python"; run_CPUMillis := 500; run_MemoryMiB := 512; run_TimeoutSeconds := 600;
     run_MaxAttempts := 2; run_AttemptCount := 1; run_Status := AgentRunProvisioningFailed;
     run_FailureCategory := FailureTransientDependency; run_IdempotencyKey := "k1";
     run_RequestHash := "h1"; run_Version := 4; run_CreatedBy := "dev";
     run_CancellationReason := EmptyString; run_CancellationRequestedBy := EmptyString;
     run_CancellationRequestedAt := None; run_CreatedAt := 100; run_UpdatedAt := 200;
     run_CompletedAt := Some 200 |}.

Definition example_attempt : AgentRunAttempt :=
  {| att_ID := 21; att_TenantID := 7; att_RunID := 11; att_AttemptNumber := 1;
     att_Status := AttemptPending; att_FailureCategory := FailureUnset; att_Version := 1;
     att_SelectedCluster := EmptyString; att_ExecutionProfile := EmptyString;
     att_CapacityReservationID := uuidNil; att_BudgetReservationID := uuidNil;
     att_WorkloadReference := EmptyString; att_CreatedAt := 100; att_UpdatedAt := 100;
     att_StartedAt := None; att_CompletedAt := None |}.

Lemma example_run_inv : run_inv example_run.
Proof. split; simpl; try done; lia. Qed.

Definition example_requeued : AgentRun :=
  example_run <| run_AttemptCount := 2 |> <| run_FailureCategory := FailureUnset |>
    <| run_CompletedAt := None |> <| run_Status := AgentRunQueued |> <| run_UpdatedAt := 300 |>.

Lemma example_requeue : run_moves example_run example_requeued.
Proof. by exists AgentRunQueued, FailureUnset, 300. Qed.

Lemma terminal_outcome_stable_witness :
  retryable_status (run_Status example_run) = true /\
  run_AttemptCount example_run < run_AttemptCount example_requeued <= run_MaxAttempts example_run.
Proof.
  destruct (proj2 (terminal_outcome_stable example_run example_requeued example_run_inv eq_refl
    (rtc_once _ _ example_requeue))) as (H1 & _ & H2).
  - discriminate.
  - exact (conj H1 H2).
Defined.

Lemma attempt_history_bounded_witness :
  exists a', attempt_moves example_attempt a' /\ attempt_edge AttemptPending (att_Status a').
Proof.
  exists (example_attempt <| att_Status := AttemptStarting |> <| att_UpdatedAt := 150 |>).
  assert (Hm : attempt_moves example_attempt
    (example_attempt <| att_Status := AttemptStarting |> <| att_UpdatedAt := 150 |>)).
  { exists AttemptStarting, FailureUnset, 150. split; [reflexivity|discriminate]. }
  split; [exact Hm|].
  exact (proj2 (proj2 (attempt_history_bounded _ _ 1 (nsteps_once _ _ Hm))) eq_refl).
Defined.
