(* ===== verification/Policy.v ===== *)
(** * Scheduling eligibility (internal/domain/scheduler_policy.go)

    The ordered admission rules of the scheduler: resource status, allowed
    runtime and profile, concurrency, queue length, CPU and memory quota, daily
    budget.  [EvaluateEligibility] reports the first rule that blocks.  The
    theorems characterise each outcome by the limits themselves. *)

From S2P Require Import Prelude.

Inductive EligibilityOutcome := EligibilityEligible | EligibilityDefer | EligibilityReject.

#[export] Instance EligibilityOutcome_eq_dec : EqDecision EligibilityOutcome.
Proof. solve_decision. Defined.

Inductive EligibilityCode :=
| EligibilityCodeEligible
| EligibilityCodePolicyMissing
| EligibilityCodeTenantSuspended
| EligibilityCodeProjectSuspended
| EligibilityCodeUnsupportedRuntime
| EligibilityCodeUnsupportedProfile
| EligibilityCodeTenantConcurrency
| EligibilityCodeUserConcurrency
| EligibilityCodeQueuedRuns
| EligibilityCodeCPU
| EligibilityCodeMemory
| EligibilityCodeDailyBudget.

#[export] Instance EligibilityCode_eq_dec : EqDecision EligibilityCode.
Proof. solve_decision. Defined.

(** The constants' values. *)
Definition EligibilityCode_string (code : EligibilityCode) : string :=
  match code with
  | EligibilityCodeEligible => "ELIGIBLE"
  | EligibilityCodePolicyMissing => "POLICY_MISSING"
  | EligibilityCodeTenantSuspended => "TENANT_SUSPENDED"
  | EligibilityCodeProjectSuspended => "PROJECT_SUSPENDED"
  | EligibilityCodeUnsupportedRuntime => "UNSUPPORTED_RUNTIME"
  | EligibilityCodeUnsupportedProfile => "UNSUPPORTED_PROFILE"
  | EligibilityCodeTenantConcurrency => "TENANT_CONCURRENCY_LIMIT"
  | EligibilityCodeUserConcurrency => "USER_CONCURRENCY_LIMIT"
  | EligibilityCodeQueuedRuns => "TENANT_QUEUE_LIMIT"
  | EligibilityCodeCPU => "TENANT_CPU_LIMIT"
  | EligibilityCodeMemory => "TENANT_MEMORY_LIMIT"
  | EligibilityCodeDailyBudget => "DAILY_BUDGET_LIMIT"
  end.

Definition SchedulerResourceStatusActive : string := "ACTIVE".
Definition SchedulerResourceStatusSuspended : string := "SUSPENDED".

Record SchedulingRequest := {
  sr_Runtime : string;
  sr_ExecutionProfile : string;
  sr_CreatedBy : string;
  sr_CPUMillis : Z;
  sr_MemoryMiB : Z;
}.

Record SchedulingPolicy := {
  sp_MaxConcurrentRuns : Z;
  sp_MaxUserConcurrentRuns : Z;
  sp_MaxQueuedRuns : Z;
  sp_MaxCPUMillis : Z;
  sp_MaxMemoryMiB : Z;
  sp_DailyBudgetMinorUnits : Z;
  sp_AllowedRuntimes : list string;
  sp_AllowedProfiles : list string;
  sp_DeferralDuration : Duration;
}.

Record SchedulingUsage := {
  su_ActiveTenantRuns : Z;
  su_ActiveUserRuns : Z;
  su_QueuedTenantRuns : Z;
  su_ActiveCPUMillis : Z;
  su_ActiveMemoryMiB : Z;
  su_BudgetUsedMinorUnits : Z;
}.

Record EligibilityInput := {
  ei_TenantStatus : string;
  ei_ProjectStatus : string;
  ei_Request : SchedulingRequest;
  ei_Policy : option SchedulingPolicy;
  ei_Usage : SchedulingUsage;
  ei_Now : Time;
}.

Record EligibilityDecision := {
  ed_Outcome : EligibilityOutcome;
  ed_Code : EligibilityCode;
  ed_Explanation : string;
  ed_NextEligibleAt : option Time;
}.

#[export] Instance EligibilityDecision_eq_dec : EqDecision EligibilityDecision.
Proof. solve_decision. Defined.

(** [^[a-z0-9][a-z0-9._-]{0,119}$] *)
Definition schedulerPolicyValuePattern (s : string) : bool :=
  matchClass lowerAlnum (fun c => lowerAlnum c || dot c || underscore c || hyphen c) 0 119 s.

Definition deferredDecision (code : EligibilityCode) (explanation : string) (now : Time)
    (delay : Duration) : EligibilityDecision :=
  {| ed_Outcome := EligibilityDefer; ed_Code := code; ed_Explanation := explanation;
     ed_NextEligibleAt := Some (Add (UTC now) delay) |}.

Definition rejectedDecision (code : EligibilityCode) (explanation : string) : EligibilityDecision :=
  {| ed_Outcome := EligibilityReject; ed_Code := code; ed_Explanation := explanation;
     ed_NextEligibleAt := None |}.

Definition validPolicyValues (values : list string) : bool :=
  uniqueLoop schedulerPolicyValuePattern ∅ values.

Definition validateSchedulingPolicy (policy : SchedulingPolicy) : res unit :=
  _ ← failIf ((sp_MaxConcurrentRuns policy <? 1) || (sp_MaxUserConcurrentRuns policy <? 1)
      || (sp_MaxConcurrentRuns policy <? sp_MaxUserConcurrentRuns policy)
      || (sp_MaxQueuedRuns policy <? 1) || (sp_MaxCPUMillis policy <? 1)
      || (sp_MaxMemoryMiB policy <? 1) || (sp_DailyBudgetMinorUnits policy <? 0)
      || (length (sp_AllowedRuntimes policy) =? 0)%nat || (length (sp_AllowedProfiles policy) =? 0)%nat
      || (sp_DeferralDuration policy <=? 0))
      (ErrPlain "scheduling policy is invalid");
  failIf (negb (validPolicyValues (sp_AllowedRuntimes policy))
          || negb (validPolicyValues (sp_AllowedProfiles policy)))
    (ErrPlain "scheduling policy runtime and profile values must be normalized and unique").

(** A rule sees the input and the (non-nil) policy; [None] is the nil decision. *)
Definition eligibilityRule := EligibilityInput -> SchedulingPolicy -> option EligibilityDecision.

Definition resourceStatusRule : eligibilityRule := fun input _ =>
  if ei_TenantStatus input != SchedulerResourceStatusActive then
    Some (rejectedDecision EligibilityCodeTenantSuspended "tenant is not active")
  else if ei_ProjectStatus input != SchedulerResourceStatusActive then
    Some (rejectedDecision EligibilityCodeProjectSuspended "project is not active")
  else None.

Definition runtimeProfileRule : eligibilityRule := fun input policy =>
  if negb (bool_decide (sr_Runtime (ei_Request input) ∈ sp_AllowedRuntimes policy)) then
    Some (rejectedDecision EligibilityCodeUnsupportedRuntime "runtime is not allowed by tenant policy")
  else if negb (bool_decide (sr_ExecutionProfile (ei_Request input) ∈ sp_AllowedProfiles policy)) then
    Some (rejectedDecision EligibilityCodeUnsupportedProfile
            "execution profile is not allowed by tenant policy")
  else None.

Definition concurrencyRule : eligibilityRule := fun input policy =>
  if sp_MaxConcurrentRuns policy <=? su_ActiveTenantRuns (ei_Usage input) then
    Some (deferredDecision EligibilityCodeTenantConcurrency "tenant concurrent-run limit is reached"
            (ei_Now input) (sp_DeferralDuration policy))
  else if sp_MaxUserConcurrentRuns policy <=? su_ActiveUserRuns (ei_Usage input) then
    Some (deferredDecision EligibilityCodeUserConcurrency "user concurrent-run limit is reached"
            (ei_Now input) (sp_DeferralDuration policy))
  else None.

Definition queueRule : eligibilityRule := fun input policy =>
  if sp_MaxQueuedRuns policy <? su_QueuedTenantRuns (ei_Usage input) then
    Some (deferredDecision EligibilityCodeQueuedRuns "tenant queued-run limit is exceeded"
            (ei_Now input) (sp_DeferralDuration policy))
  else None.

(** [int64] additions, with their wrap-around. *)
Definition resourceQuotaRule : eligibilityRule := fun input policy =>
  if sp_MaxCPUMillis policy <?
     add64 (su_ActiveCPUMillis (ei_Usage input)) (sr_CPUMillis (ei_Request input)) then
    Some (deferredDecision EligibilityCodeCPU "tenant CPU limit has insufficient headroom"
            (ei_Now input) (sp_DeferralDuration policy))
  else if sp_MaxMemoryMiB policy <?
     add64 (su_ActiveMemoryMiB (ei_Usage input)) (sr_MemoryMiB (ei_Request input)) then
    Some (deferredDecision EligibilityCodeMemory "tenant memory limit has insufficient headroom"
            (ei_Now input) (sp_DeferralDuration policy))
  else None.

Definition budgetRule : eligibilityRule := fun input policy =>
  if sp_DailyBudgetMinorUnits policy <=? su_BudgetUsedMinorUnits (ei_Usage input) then
    Some (deferredDecision EligibilityCodeDailyBudget "tenant daily budget has no available balance"
            (ei_Now input) (sp_DeferralDuration policy))
  else None.

Definition eligibilityRules : list eligibilityRule :=
  [resourceStatusRule; runtimeProfileRule; concurrencyRule; queueRule; resourceQuotaRule; budgetRule].

(** The loop [for _, rule := range eligibilityRules]. *)
Fixpoint firstBlocking (rules : list eligibilityRule) (input : EligibilityInput)
    (policy : SchedulingPolicy) : option EligibilityDecision :=
  match rules with
  | [] => None
  | rule :: rest =>
      match rule input policy with
      | Some decision => Some decision
      | None => firstBlocking rest input policy
      end
  end.

(** The assignments that trim the input of [EvaluateEligibility]. *)
Definition trimmedEligibilityInput (input : EligibilityInput) : EligibilityInput :=
  let request := ei_Request input in
  {| ei_TenantStatus := TrimSpace (ei_TenantStatus input);
     ei_ProjectStatus := TrimSpace (ei_ProjectStatus input);
     ei_Request := {| sr_Runtime := TrimSpace (sr_Runtime request);
                      sr_ExecutionProfile := TrimSpace (sr_ExecutionProfile request);
                      sr_CreatedBy := TrimSpace (sr_CreatedBy request);
                      sr_CPUMillis := sr_CPUMillis request; sr_MemoryMiB := sr_MemoryMiB request |};
     ei_Policy := ei_Policy input; ei_Usage := ei_Usage input; ei_Now := ei_Now input |}.

Definition EvaluateEligibility (input : EligibilityInput) : res EligibilityDecision :=
  let input := trimmedEligibilityInput input in
  _ ← failIf (IsZero (ei_Now input) || (sr_Runtime (ei_Request input) == EmptyString)
      || (sr_ExecutionProfile (ei_Request input) == EmptyString)
      || (sr_CreatedBy (ei_Request input) == EmptyString)
      || (sr_CPUMillis (ei_Request input) <? 1) || (sr_MemoryMiB (ei_Request input) <? 1))
      (ErrPlain "scheduling request metadata is invalid");
  match ei_Policy input with
  | None =>
      Ok (deferredDecision EligibilityCodePolicyMissing "tenant scheduling policy is not configured"
            (ei_Now input) (30 * Second))
  | Some policy =>
      _ ← validateSchedulingPolicy policy;
      _ ← failIf ((su_ActiveTenantRuns (ei_Usage input) <? 0) || (su_ActiveUserRuns (ei_Usage input) <? 0)
          || (su_QueuedTenantRuns (ei_Usage input) <? 0) || (su_ActiveCPUMillis (ei_Usage input) <? 0)
          || (su_ActiveMemoryMiB (ei_Usage input) <? 0) || (su_BudgetUsedMinorUnits (ei_Usage input) <? 0))
          (ErrPlain "scheduling usage cannot be negative");
      match firstBlocking eligibilityRules input policy with
      | Some decision => Ok decision
      | None => Ok {| ed_Outcome := EligibilityEligible; ed_Code := EligibilityCodeEligible;
                      ed_Explanation := "run satisfies scheduling policy"; ed_NextEligibleAt := None |}
      end
  end.

(** ** Specification *)

(** The limits a run must respect to be admitted, over exact integers. *)
Record admissible (input : EligibilityInput) (policy : SchedulingPolicy) : Prop := {
  adm_tenant : TrimSpace (ei_TenantStatus input) = SchedulerResourceStatusActive;
  adm_project : TrimSpace (ei_ProjectStatus input) = SchedulerResourceStatusActive;
  adm_runtime : TrimSpace (sr_Runtime (ei_Request input)) ∈ sp_AllowedRuntimes policy;
  adm_profile : TrimSpace (sr_ExecutionProfile (ei_Request input)) ∈ sp_AllowedProfiles policy;
  adm_runs : su_ActiveTenantRuns (ei_Usage input) < sp_MaxConcurrentRuns policy;
  adm_user_runs : su_ActiveUserRuns (ei_Usage input) < sp_MaxUserConcurrentRuns policy;
  adm_queue : su_QueuedTenantRuns (ei_Usage input) <= sp_MaxQueuedRuns policy;
  adm_cpu : su_ActiveCPUMillis (ei_Usage input) + sr_CPUMillis (ei_Request input) <= sp_MaxCPUMillis policy;
  adm_memory : su_ActiveMemoryMiB (ei_Usage input) + sr_MemoryMiB (ei_Request input) <= sp_MaxMemoryMiB policy;
  adm_budget : su_BudgetUsedMinorUnits (ei_Usage input) < sp_DailyBudgetMinorUnits policy;
}.

(** The permanent half of the limits: status and support. *)
Definition permanently_blocked (input : EligibilityInput) (policy : SchedulingPolicy) : Prop :=
  TrimSpace (ei_TenantStatus input) <> SchedulerResourceStatusActive \/
  TrimSpace (ei_ProjectStatus input) <> SchedulerResourceStatusActive \/
  TrimSpace (sr_Runtime (ei_Request input)) ∉ sp_AllowedRuntimes policy \/
  TrimSpace (sr_ExecutionProfile (ei_Request input)) ∉ sp_AllowedProfiles policy.

(** Totals and requests stay within what the code adds without overflow; stored
    requests are bounded by [NewAgentRun]. *)
Definition sums_fit (input : EligibilityInput) : Prop :=
  in_int64 (su_ActiveCPUMillis (ei_Usage input) + sr_CPUMillis (ei_Request input)) /\
  in_int64 (su_ActiveMemoryMiB (ei_Usage input) + sr_MemoryMiB (ei_Request input)).

(** A policy that [validateSchedulingPolicy] accepts. *)
Record valid_policy (policy : SchedulingPolicy) : Prop := {
  vp_runs : 1 <= sp_MaxUserConcurrentRuns policy <= sp_MaxConcurrentRuns policy;
  vp_queue : 1 <= sp_MaxQueuedRuns policy;
  vp_cpu : 1 <= sp_MaxCPUMillis policy;
  vp_memory : 1 <= sp_MaxMemoryMiB policy;
  vp_budget : 0 <= sp_DailyBudgetMinorUnits policy;
  vp_delay : 0 < sp_DeferralDuration policy;
  vp_runtimes : sp_AllowedRuntimes policy <> [] /\ NoDup (sp_AllowedRuntimes policy) /\
    Forall (fun v => schedulerPolicyValuePattern v = true) (sp_AllowedRuntimes policy);
  vp_profiles : sp_AllowedProfiles policy <> [] /\ NoDup (sp_AllowedProfiles policy) /\
    Forall (fun v => schedulerPolicyValuePattern v = true) (sp_AllowedProfiles policy);
}.

(** ** Lemmas *)

Lemma length_zero_false {A} (l : list A) : (length l =? 0)%nat = false <-> l <> [].
Proof. destruct l; simpl; naive_solver. Qed.

Lemma validateSchedulingPolicy_ok policy :
  validateSchedulingPolicy policy = Ok tt <-> valid_policy policy.
Proof.
  unfold validateSchedulingPolicy, validPolicyValues. split.
  - intros H. inv_ok. reflect_bools. rewrite !length_zero_false in *.
    rewrite !uniqueLoop_empty in *. split; naive_solver lia.
  - intros [Hr Hq Hc Hm Hb Hd (Hr1 & Hr2 & Hr3) (Hp1 & Hp2 & Hp3)].
    apply bind_ok. exists tt. split; apply failIf_ok.
    + rewrite !orb_false_iff, !length_zero_false. split_and!; first [done|lia].
    + rewrite orb_false_iff, !negb_false_iff, !uniqueLoop_empty. done.
Qed.

(** What the first blocking rule says of the input. *)
Lemma firstBlocking_spec input policy :
  sums_fit input ->
  match firstBlocking eligibilityRules (trimmedEligibilityInput input) policy with
  | None => admissible input policy
  | Some d =>
      ~ admissible input policy /\
      (ed_Outcome d = EligibilityReject /\ permanently_blocked input policy /\ ed_NextEligibleAt d = None \/
       ed_Outcome d = EligibilityDefer /\ ~ permanently_blocked input policy /\
       ed_NextEligibleAt d = Some (ei_Now input + sp_DeferralDuration policy))
  end.
Proof.
  intros [Hc Hm]. unfold firstBlocking, eligibilityRules, resourceStatusRule, runtimeProfileRule,
    concurrencyRule, queueRule, resourceQuotaRule, budgetRule, permanently_blocked, Add, UTC.
  cbn [trimmedEligibilityInput ei_TenantStatus ei_ProjectStatus ei_Request ei_Usage ei_Now
       sr_Runtime sr_ExecutionProfile sr_CPUMillis sr_MemoryMiB].
  rewrite !add64_small by done.
  repeat case_bool_decide; simpl;
    try (split; [intros []; done|left; tauto]).
  repeat match goal with
  | |- context [if ?c then _ else _] => destruct c eqn:?
  end; simpl; try (split; [intros []; lia|right; tauto]).
  split; first [done|lia].
Qed.

(** A request the evaluation accepts as well-formed. *)
Record wellformed_request (input : EligibilityInput) : Prop := {
  wr_now : ei_Now input <> 0;
  wr_runtime : TrimSpace (sr_Runtime (ei_Request input)) <> EmptyString;
  wr_profile : TrimSpace (sr_ExecutionProfile (ei_Request input)) <> EmptyString;
  wr_actor : TrimSpace (sr_CreatedBy (ei_Request input)) <> EmptyString;
  wr_cpu : 1 <= sr_CPUMillis (ei_Request input);
  wr_memory : 1 <= sr_MemoryMiB (ei_Request input);
}.

Definition usage_nonneg (u : SchedulingUsage) : Prop :=
  0 <= su_ActiveTenantRuns u /\ 0 <= su_ActiveUserRuns u /\ 0 <= su_QueuedTenantRuns u /\
  0 <= su_ActiveCPUMillis u /\ 0 <= su_ActiveMemoryMiB u /\ 0 <= su_BudgetUsedMinorUnits u.

(** A call returns a decision exactly for a well-formed request and, where the
    tenant has a policy, a valid policy and non-negative usage. *)
Lemma EvaluateEligibility_ok input :
  is_ok (EvaluateEligibility input) = true <->
  wellformed_request input /\
  match ei_Policy input with
  | None => True
  | Some policy => valid_policy policy /\ usage_nonneg (ei_Usage input)
  end.
Proof.
  unfold EvaluateEligibility. cbn [trimmedEligibilityInput ei_Policy].
  rewrite bind_failIf. case_match eqn:Hreq; simpl in Hreq; unfold IsZero in Hreq.
  - split; [done|]. intros [[] _]. exfalso. cases_bools; first [done|lia].
  - assert (wellformed_request input) by (reflect_bools; split; first [done|lia]).
    destruct (ei_Policy input) as [policy|]; [|naive_solver].
    destruct (validateSchedulingPolicy policy) as [[]|] eqn:Hp; rewrite ?bind_Ok, ?bind_Err.
    + apply validateSchedulingPolicy_ok in Hp. rewrite bind_failIf.
      case_match eqn:Hu; simpl in Hu.
      * split; [done|]. intros (_ & _ & Hu'). unfold usage_nonneg in Hu'. exfalso. cases_bools; lia.
      * split; [intros _|by case_match]. split_and!; try done. unfold usage_nonneg. reflect_bools. lia.
    + split; [done|]. intros (_ & Hp' & _). apply validateSchedulingPolicy_ok in Hp'. congruence.
Qed.


Definition example_policy : SchedulingPolicy :=
  {| sp_MaxConcurrentRuns := 4; sp_MaxUserConcurrentRuns := 2; sp_MaxQueuedRuns := 10;
     sp_MaxCPUMillis := 4000; sp_MaxMemoryMiB := 8192; sp_DailyBudgetMinorUnits := 1000;
     sp_AllowedRuntimes := ["python"]; sp_AllowedProfiles := ["standard"];
     sp_DeferralDuration := 30 * Second |}.

Definition example_eligibility : EligibilityInput :=
  {| ei_TenantStatus := " ACTIVE"; ei_ProjectStatus := "ACTIVE";
     ei_Request := {| sr_Runtime := "python"; sr_ExecutionProfile := "standard"; sr_CreatedBy := "dev";
                      sr_CPUMillis := 1000; sr_MemoryMiB := 1024 |};
     ei_Policy := Some example_policy;
     ei_Usage := {| su_ActiveTenantRuns := 1; su_ActiveUserRuns := 1; su_QueuedTenantRuns := 3;
                    su_ActiveCPUMillis := 3500; su_ActiveMemoryMiB := 2048;
                    su_BudgetUsedMinorUnits := 10 |};
     ei_Now := 1000 |}.

Lemma example_policy_valid : valid_policy example_policy.
Proof. by apply validateSchedulingPolicy_ok. Qed.

