(* ===== verification/Cluster.v ===== *)
(** * Execution clusters and reservations (internal/domain/cluster.go, reservation.go)

    The registry records of execution clusters, their capacity snapshots and
    the capacity and budget reservations taken against them, with the
    validation each value passes before it is stored. *)

From S2P Require Import Prelude Policy.

Inductive ClusterStatus := ClusterActive | ClusterUnavailable | ClusterStatusOther (s : string).

#[export] Instance ClusterStatus_eq_dec : EqDecision ClusterStatus.
Proof. solve_decision. Defined.

(** [^[a-z0-9][a-z0-9-]{2,62}$] *)
Definition clusterIDPattern (s : string) : bool :=
  matchClass lowerAlnum (fun c => lowerAlnum c || hyphen c) 2 62 s.

(** [^[a-z0-9][a-z0-9-]{0,62}$] *)
Definition clusterRegionPattern (s : string) : bool :=
  matchClass lowerAlnum (fun c => lowerAlnum c || hyphen c) 0 62 s.

Record ExecutionCluster := {
  ec_ID : string;
  ec_Region : string;
  ec_Status : ClusterStatus;
  ec_SupportedRuntimes : list string;
  ec_SupportedExecutionProfiles : list string;
  ec_Maintenance : bool;
  ec_TenantRestricted : bool;
  ec_SchedulingWeight : Z;
  ec_CPUCostMinorUnits : Z;
  ec_MemoryGiBCostMinorUnits : Z;
  ec_LastHeartbeatAt : Time;
  ec_Version : Z;
  ec_CreatedAt : Time;
  ec_UpdatedAt : Time;
}.

#[export] Instance ExecutionCluster_settable : Settable ExecutionCluster := fun c =>
  Build_ExecutionCluster (ec_ID c) (ec_Region c) (ec_Status c) (ec_SupportedRuntimes c)
    (ec_SupportedExecutionProfiles c) (ec_Maintenance c) (ec_TenantRestricted c)
    (ec_SchedulingWeight c) (ec_CPUCostMinorUnits c) (ec_MemoryGiBCostMinorUnits c)
    (ec_LastHeartbeatAt c) (ec_Version c) (ec_CreatedAt c) (ec_UpdatedAt c).

#[export] Instance ExecutionCluster_eq_dec : EqDecision ExecutionCluster.
Proof. solve_decision. Defined.

Record ClusterCapacity := {
  cc_ClusterID : string;
  cc_ObservedAt : Time;
  cc_AllocatableCPUMillis : Z;
  cc_AllocatableMemoryMiB : Z;
  cc_QueuedWorkloads : Z;
}.

#[export] Instance ClusterCapacity_eq_dec : EqDecision ClusterCapacity.
Proof. solve_decision. Defined.

Record ClusterCandidate := {
  cand_Cluster : ExecutionCluster;
  cand_Capacity : ClusterCapacity;
}.

#[export] Instance ClusterCandidate_eq_dec : EqDecision ClusterCandidate.
Proof. solve_decision. Defined.

Definition validClusterValues (values : list string) (maximum : Z) : bool :=
  if (length values =? 0)%nat || (maximum <? Z.of_nat (length values)) then false
  else uniqueLoop schedulerPolicyValuePattern ∅ values.

(** [ExecutionCluster.Validate] *)
Definition Cluster_Validate (cluster : ExecutionCluster) (now : Time) : res unit :=
  failIf (negb (clusterIDPattern (ec_ID cluster)) || negb (clusterRegionPattern (ec_Region cluster))
    || ((ec_Status cluster != ClusterActive) && (ec_Status cluster != ClusterUnavailable))
    || (ec_SchedulingWeight cluster <? 1) || (1000 <? ec_SchedulingWeight cluster)
    || (ec_CPUCostMinorUnits cluster <? 0) || (ec_MemoryGiBCostMinorUnits cluster <? 0)
    || (ec_Version cluster <? 1) || IsZero (ec_LastHeartbeatAt cluster)
    || After (ec_LastHeartbeatAt cluster) (Add (UTC now) Minute)
    || negb (validClusterValues (ec_SupportedRuntimes cluster) 64)
    || negb (validClusterValues (ec_SupportedExecutionProfiles cluster) 32))
    (ErrPlain "execution cluster metadata is invalid").

Definition NewExecutionCluster (cluster : ExecutionCluster) (now : Time) : res ExecutionCluster :=
  let cluster := cluster <| ec_Version := 1 |> <| ec_CreatedAt := UTC now |> <| ec_UpdatedAt := UTC now |> in
  _ ← Cluster_Validate cluster now;
  Ok cluster.

(** [ClusterCapacity.Validate] *)
Definition Capacity_Validate (capacity : ClusterCapacity) (now : Time) : res unit :=
  failIf ((cc_ClusterID capacity == EmptyString) || IsZero (cc_ObservedAt capacity)
    || After (cc_ObservedAt capacity) (Add (UTC now) Minute)
    || (cc_AllocatableCPUMillis capacity <? 0) || (cc_AllocatableMemoryMiB capacity <? 0)
    || (cc_QueuedWorkloads capacity <? 0))
    (ErrPlain "cluster capacity metadata is invalid").

(** [ExecutionCluster.Supports] *)
Definition Supports (cluster : ExecutionCluster) (runtime profile : string) : bool :=
  bool_decide (runtime ∈ ec_SupportedRuntimes cluster)
  && bool_decide (profile ∈ ec_SupportedExecutionProfiles cluster).

Inductive ReservationState :=
| ReservationReserved | ReservationSettled | ReservationReleased | ReservationExpired.

#[export] Instance ReservationState_eq_dec : EqDecision ReservationState.
Proof. solve_decision. Defined.

Record CapacityReservation := {
  cr_ID : UUID;
  cr_TenantID : UUID;
  cr_RunID : UUID;
  cr_AttemptID : UUID;
  cr_AttemptNumber : Z;
  cr_ClusterID : string;
  cr_CPUMillis : Z;
  cr_MemoryMiB : Z;
  cr_State : ReservationState;
  cr_ExpiresAt : Time;
  cr_CreatedAt : Time;
  cr_SettledAt : option Time;
  cr_ReleasedAt : option Time;
}.

#[export] Instance CapacityReservation_settable : Settable CapacityReservation := fun c =>
  Build_CapacityReservation (cr_ID c) (cr_TenantID c) (cr_RunID c) (cr_AttemptID c)
    (cr_AttemptNumber c) (cr_ClusterID c) (cr_CPUMillis c) (cr_MemoryMiB c) (cr_State c)
    (cr_ExpiresAt c) (cr_CreatedAt c) (cr_SettledAt c) (cr_ReleasedAt c).

#[export] Instance CapacityReservation_eq_dec : EqDecision CapacityReservation.
Proof. solve_decision. Defined.

Record BudgetReservation := {
  br_ID : UUID;
  br_CapacityReservationID : UUID;
  br_TenantID : UUID;
  br_RunID : UUID;
  br_AttemptNumber : Z;
  br_UsageDate : Time;
  br_AmountMinorUnits : Z;
  br_State : ReservationState;
  br_ExpiresAt : Time;
  br_CreatedAt : Time;
  br_SettledAt : option Time;
  br_ReleasedAt : option Time;
}.

#[export] Instance BudgetReservation_settable : Settable BudgetReservation := fun b =>
  Build_BudgetReservation (br_ID b) (br_CapacityReservationID b) (br_TenantID b) (br_RunID b)
    (br_AttemptNumber b) (br_UsageDate b) (br_AmountMinorUnits b) (br_State b) (br_ExpiresAt b)
    (br_CreatedAt b) (br_SettledAt b) (br_ReleasedAt b).

#[export] Instance BudgetReservation_eq_dec : EqDecision BudgetReservation.
Proof. solve_decision. Defined.

Record ReservationBundle := {
  rb_Capacity : CapacityReservation;
  rb_Budget : BudgetReservation;
}.

#[export] Instance ReservationBundle_eq_dec : EqDecision ReservationBundle.
Proof. solve_decision. Defined.

Section Reservations.
Context `{UUIDs}.

(** [CapacityReservation.Validate] *)
Definition Reservation_Validate (reservation : CapacityReservation) (now : Time) : res unit :=
  failIf (negb (uuidVersion (cr_ID reservation) =? 7) || negb (uuidVersion (cr_TenantID reservation) =? 7)
    || negb (uuidVersion (cr_RunID reservation) =? 7) || negb (uuidVersion (cr_AttemptID reservation) =? 7)
    || (cr_AttemptNumber reservation <? 1) || negb (clusterIDPattern (cr_ClusterID reservation))
    || (cr_CPUMillis reservation <? 1) || (128000 <? cr_CPUMillis reservation)
    || (cr_MemoryMiB reservation <? 1) || (524288 <? cr_MemoryMiB reservation)
    || (cr_State reservation != ReservationReserved)
    || negb (After (cr_ExpiresAt reservation) (UTC now)) || IsZero (cr_CreatedAt reservation))
    (ErrPlain "capacity reservation is invalid").
End Reservations.

(** ** Lemmas *)

Lemma validClusterValues_iff values maximum :
  validClusterValues values maximum = true <->
  values <> [] /\ Z.of_nat (length values) <= maximum /\ NoDup values /\
  Forall (fun v => schedulerPolicyValuePattern v = true) values.
Proof.
  unfold validClusterValues. case_match eqn:E; cases_bools.
  - split; [done|]. intros [Hne _]. by destruct values.
  - split; [done|]. lia.
  - rewrite uniqueLoop_empty, length_zero_false in *. naive_solver lia.
Qed.

Lemma matchClass_length first rest lo hi s :
  matchClass first rest lo hi s = true -> lo + 1 <= len s <= hi + 1.
Proof.
  unfold matchClass, len. rewrite <-length_bytes.
  destruct (bytes s); simpl; [done|]. intros Hm. reflect_bools. lia.
Qed.
