(* ===== verification/Strategy.v ===== *)
(** * Cluster selection (internal/application/scheduler/strategy.go)

    The least-loaded and region-affinity strategies: candidates with enough
    capacity are scored with integer arithmetic and sorted by score, projected
    utilisation, queue, cost and cluster ID.  The theorems show that the first
    element is the optimum of the feasible candidates under exact arithmetic,
    that the choice does not depend on the order of the candidates, and when
    the region fallback is taken. *)

From S2P Require Import Prelude Policy Cluster.

Record SelectionRequest := {
  sel_CPUMillis : Z;
  sel_MemoryMiB : Z;
  sel_PreferredRegion : string;
}.

Record SelectionDecision := {
  sd_ClusterID : string;
  sd_Strategy : string;
  sd_Reason : string;
  sd_Score : Z;
  sd_ProjectedUtilizationBPS : Z;
  sd_QueuedWorkloads : Z;
  sd_EffectiveCost : Z;
  sd_UsedRegionFallback : bool;
  sd_DecidedAt : Time;
}.

#[export] Instance SelectionDecision_settable : Settable SelectionDecision := fun d =>
  Build_SelectionDecision (sd_ClusterID d) (sd_Strategy d) (sd_Reason d) (sd_Score d)
    (sd_ProjectedUtilizationBPS d) (sd_QueuedWorkloads d) (sd_EffectiveCost d)
    (sd_UsedRegionFallback d) (sd_DecidedAt d).

Definition StrategyLeastLoaded : string := "least-loaded".
Definition StrategyRegionAffinity : string := "region-affinity".

(** Go integer division and remainder truncate toward zero. *)
Definition ceilingRatio (numerator denominator scale : Z) : Z :=
  let quotient := Z.quot numerator denominator in
  let remainder := Z.rem numerator denominator in
  let result := mul64 quotient scale in
  if negb (remainder =? 0) then
    add64 result (add64 (Z.quot (sub64 (mul64 remainder scale) 1) denominator) 1)
  else result.

Record scoredCandidate := {
  sc_clusterID : string;
  sc_score : Z;
  sc_projected : Z;
  sc_queued : Z;
  sc_cost : Z;
}.

#[export] Instance scoredCandidate_eq_dec : EqDecision scoredCandidate.
Proof. solve_decision. Defined.

(** The comparison function given to [sort.Slice]. *)
Definition scoredLess (a b : scoredCandidate) : bool :=
  if negb (sc_score a =? sc_score b) then sc_score a <? sc_score b else
  if negb (sc_projected a =? sc_projected b) then sc_projected a <? sc_projected b else
  if negb (sc_queued a =? sc_queued b) then sc_queued a <? sc_queued b else
  if negb (sc_cost a =? sc_cost b) then sc_cost a <? sc_cost b else
  string_lt (sc_clusterID a) (sc_clusterID b).

(** [a] may stand before [b] in a sorted slice. *)
Definition scored_le (a b : scoredCandidate) : Prop := scoredLess b a = false.

#[export] Instance scored_le_dec : RelDecision scored_le.
Proof. intros a b. unfold scored_le. apply _. Defined.

(** [sort.Slice(ranked, less)]: a sorted permutation of the slice. *)
Definition sortScored (ranked : list scoredCandidate) : list scoredCandidate :=
  merge_sort scored_le ranked.

(** The guard of the ranking loop: the candidate is skipped. *)
Definition skipsCandidate (request : SelectionRequest) (candidate : ClusterCandidate) : bool :=
  let capacity := cand_Capacity candidate in
  let cluster := cand_Cluster candidate in
  (cc_AllocatableCPUMillis capacity <? sel_CPUMillis request)
  || (cc_AllocatableMemoryMiB capacity <? sel_MemoryMiB request)
  || (ec_Status cluster != ClusterActive) || ec_Maintenance cluster.

(** The body of the ranking loop for a candidate that is not skipped. *)
Definition scoreCandidate (request : SelectionRequest) (candidate : ClusterCandidate)
    : res scoredCandidate :=
  let capacity := cand_Capacity candidate in
  let cluster := cand_Cluster candidate in
  let cpuBPS := ceilingRatio (sel_CPUMillis request) (cc_AllocatableCPUMillis capacity) 10000 in
  let memoryBPS := ceilingRatio (sel_MemoryMiB request) (cc_AllocatableMemoryMiB capacity) 10000 in
  let projected := Z.max cpuBPS memoryBPS in
  let cost := add64 (ec_CPUCostMinorUnits cluster) (ec_MemoryGiBCostMinorUnits cluster) in
  _ ← failIf (ec_SchedulingWeight cluster =? 0) (Panic "integer divide by zero");
  let score := add64 (add64 (Z.quot (mul64 projected 1000) (ec_SchedulingWeight cluster))
                            (mul64 (cc_QueuedWorkloads capacity) 100)) cost in
  Ok {| sc_clusterID := ec_ID cluster; sc_score := score; sc_projected := projected;
        sc_queued := cc_QueuedWorkloads capacity; sc_cost := cost |}.

(** The loop that fills [ranked]. *)
Fixpoint scoreCandidates (request : SelectionRequest) (candidates : list ClusterCandidate)
    : res (list scoredCandidate) :=
  match candidates with
  | [] => Ok []
  | candidate :: rest =>
      if skipsCandidate request candidate then scoreCandidates request rest else
      scored ← scoreCandidate request candidate;
      ranked ← scoreCandidates request rest;
      Ok (scored :: ranked)
  end.

Definition rankCandidates (candidates : list ClusterCandidate) (request : SelectionRequest)
    (now : Time) (strategy : string) (fallback : bool) : res SelectionDecision :=
  _ ← failIf ((sel_CPUMillis request <=? 0) || (sel_MemoryMiB request <=? 0) || IsZero now)
      (ErrPlain "selection request is invalid");
  ranked ← scoreCandidates request candidates;
  match sortScored ranked with
  | [] => Err (NoCapacityError "no eligible cluster has sufficient capacity")
  | selected :: _ =>
      Ok {| sd_ClusterID := sc_clusterID selected; sd_Strategy := strategy;
            sd_Reason := "selected lowest deterministic capacity score";
            sd_Score := sc_score selected; sd_ProjectedUtilizationBPS := sc_projected selected;
            sd_QueuedWorkloads := sc_queued selected; sd_EffectiveCost := sc_cost selected;
            sd_UsedRegionFallback := fallback; sd_DecidedAt := UTC now |}
  end.

(** [leastLoadedStrategy.Select] *)
Definition leastLoaded_Select (candidates : list ClusterCandidate) (request : SelectionRequest)
    (now : Time) : res SelectionDecision :=
  rankCandidates candidates request now StrategyLeastLoaded false.

Definition regionalCandidates (candidates : list ClusterCandidate) (region : string)
    : list ClusterCandidate :=
  filter (fun candidate => ec_Region (cand_Cluster candidate) = region) candidates.

(** The second ranking of [regionAffinityStrategy.Select], over every candidate. *)
Definition globalSelect (candidates : list ClusterCandidate) (request : SelectionRequest)
    (now : Time) : res SelectionDecision :=
  decision ← rankCandidates candidates request now StrategyRegionAffinity
               (sel_PreferredRegion request != EmptyString);
  if sd_UsedRegionFallback decision then
    Ok (decision <| sd_Reason :=
      "preferred region had no sufficient capacity; selected global least-loaded cluster" |>)
  else Ok decision.

(** [regionAffinityStrategy.Select] *)
Definition regionAffinity_Select (candidates : list ClusterCandidate) (request : SelectionRequest)
    (now : Time) : res SelectionDecision :=
  if sel_PreferredRegion request != EmptyString then
    match rankCandidates (regionalCandidates candidates (sel_PreferredRegion request)) request now
            StrategyRegionAffinity false with
    | Ok decision => Ok (decision <| sd_Reason := "selected least-loaded cluster in preferred region" |>)
    | Err (Panic msg) => Err (Panic msg)
    | Err _ => globalSelect candidates request now
    end
  else globalSelect candidates request now.

(** The interface [Strategy]: its two implementations. *)
Class Strategy := {
  Strategy_Name : string;
  Strategy_Select : list ClusterCandidate -> SelectionRequest -> Time -> res SelectionDecision;
}.

Definition leastLoadedStrategy : Strategy :=
  {| Strategy_Name := StrategyLeastLoaded; Strategy_Select := leastLoaded_Select |}.
Definition regionAffinityStrategy : Strategy :=
  {| Strategy_Name := StrategyRegionAffinity; Strategy_Select := regionAffinity_Select |}.

Definition NewStrategy (name : string) : res Strategy :=
  if name == StrategyLeastLoaded then Ok leastLoadedStrategy
  else if name == StrategyRegionAffinity then Ok regionAffinityStrategy
  else Err (ErrPlain "unsupported scheduler strategy").

(** ** Specification over exact integers *)

(** [x] is [n / d] rounded up. *)
Definition is_ceiling (n d x : Z) : Prop := (x - 1) * d < n <= x * d.

Definition feasible (request : SelectionRequest) (c : ClusterCandidate) : Prop :=
  sel_CPUMillis request <= cc_AllocatableCPUMillis (cand_Capacity c) /\
  sel_MemoryMiB request <= cc_AllocatableMemoryMiB (cand_Capacity c) /\
  ec_Status (cand_Cluster c) = ClusterActive /\ ec_Maintenance (cand_Cluster c) = false.

Definition ceil_div (n d : Z) : Z := - ((- n) / d).

(** The key a candidate is ranked by, without machine arithmetic. *)
Definition candidate_key (request : SelectionRequest) (c : ClusterCandidate) : scoredCandidate :=
  let projected := Z.max (ceil_div (sel_CPUMillis request * 10000) (cc_AllocatableCPUMillis (cand_Capacity c)))
                         (ceil_div (sel_MemoryMiB request * 10000) (cc_AllocatableMemoryMiB (cand_Capacity c))) in
  let cost := ec_CPUCostMinorUnits (cand_Cluster c) + ec_MemoryGiBCostMinorUnits (cand_Cluster c) in
  {| sc_clusterID := ec_ID (cand_Cluster c);
     sc_score := projected * 1000 / ec_SchedulingWeight (cand_Cluster c)
                 + cc_QueuedWorkloads (cand_Capacity c) * 100 + cost;
     sc_projected := projected; sc_queued := cc_QueuedWorkloads (cand_Capacity c); sc_cost := cost |}.

(** A request of a stored run: bounded by [NewAgentRun]. *)
Definition bounded_request (request : SelectionRequest) : Prop :=
  1 <= sel_CPUMillis request <= 128000 /\ 1 <= sel_MemoryMiB request <= 524288.

(** A candidate as the registry validates it, with counters below 2^55. *)
Definition bounded_candidate (c : ClusterCandidate) : Prop :=
  1 <= ec_SchedulingWeight (cand_Cluster c) <= 1000 /\
  0 <= ec_CPUCostMinorUnits (cand_Cluster c) < 2 ^ 55 /\
  0 <= ec_MemoryGiBCostMinorUnits (cand_Cluster c) < 2 ^ 55 /\
  0 <= cc_QueuedWorkloads (cand_Capacity c) < 2 ^ 55.

(** ** Lemmas *)

#[export] Instance scored_le_total : Total scored_le.
Proof.
  intros a b. unfold scored_le, scoredLess.
  rewrite (Z.eqb_sym (sc_score a)), (Z.eqb_sym (sc_projected a)),
    (Z.eqb_sym (sc_queued a)), (Z.eqb_sym (sc_cost a)).
  repeat (case_match; [lia|]).
  destruct (string_lt (sc_clusterID a) (sc_clusterID b)) eqn:E; [|by right].
  left. destruct (string_lt (sc_clusterID b) (sc_clusterID a)) eqn:E'; [|done].
  pose proof (string_lt_trans _ _ _ E E') as H'. by rewrite string_lt_irrefl in H'.
Qed.

#[export] Instance scored_le_antisymm : AntiSymm (=) scored_le.
Proof.
  intros [ia sa pa qa ca] [ib sb pb qb cb]. unfold scored_le, scoredLess; simpl.
  rewrite (Z.eqb_sym sb), (Z.eqb_sym pb), (Z.eqb_sym qb), (Z.eqb_sym cb).
  repeat (case_match; [lia|]). intros. f_equal; try lia. by apply string_lt_total.
Qed.

#[export] Instance scored_le_trans : Transitive scored_le.
Proof.
  intros [ia sa pa qa ca] [ib sb pb qb cb] [ic sc pc qc cc]. unfold scored_le, scoredLess; simpl.
  destruct (Z.eqb_spec sb sa), (Z.eqb_spec sc sb), (Z.eqb_spec sc sa); simpl; try lia.
  destruct (Z.eqb_spec pb pa), (Z.eqb_spec pc pb), (Z.eqb_spec pc pa); simpl; try lia.
  destruct (Z.eqb_spec qb qa), (Z.eqb_spec qc qb), (Z.eqb_spec qc qa); simpl; try lia.
  destruct (Z.eqb_spec cb ca), (Z.eqb_spec cc cb), (Z.eqb_spec cc ca); simpl; try lia.
  intros Hba Hcb. destruct (string_lt ic ia) eqn:E; [|done].
  destruct (string_lt ia ib) eqn:E2; [by rewrite (string_lt_trans _ _ _ E E2) in Hcb|].
  pose proof (string_lt_total _ _ E2 Hba) as ->. congruence.
Qed.

(** The head of a sorted slice is the minimum, and only it is. *)
Lemma sortScored_head l x rest :
  sortScored l = x :: rest -> x ∈ l /\ forall y, y ∈ l -> scored_le x y.
Proof.
  unfold sortScored. intros Hs.
  pose proof (merge_sort_Permutation scored_le l) as Hp.
  pose proof (StronglySorted_merge_sort scored_le l) as Hss. rewrite Hs in Hp, Hss.
  split.
  - rewrite <-Hp. set_solver.
  - intros y. rewrite <-Hp, elem_of_cons. intros [->|Hy].
    + by destruct (total scored_le x x).
    + apply StronglySorted_inv in Hss as [_ Hall]. rewrite Forall_forall in Hall. auto.
Qed.

Lemma sortScored_perm l k : l ≡ₚ k -> sortScored l = sortScored k.
Proof.
  intros Hp. apply (StronglySorted_unique scored_le).
  - apply (StronglySorted_merge_sort scored_le).
  - apply (StronglySorted_merge_sort scored_le).
  - unfold sortScored. by rewrite !merge_sort_Permutation.
Qed.

(** *** Arithmetic *)

Lemma ceil_div_is_ceiling n d : 0 < d -> is_ceiling n d (ceil_div n d).
Proof.
  intros Hd. unfold is_ceiling, ceil_div.
  pose proof (Z.div_mod (- n) d ltac:(lia)). pose proof (Z.mod_pos_bound (- n) d Hd). nia.
Qed.

Lemma is_ceiling_unique n d x y : 0 < d -> is_ceiling n d x -> is_ceiling n d y -> x = y.
Proof. unfold is_ceiling. intros. nia. Qed.

(** Within int64 the code's rounding is the exact ceiling of the ratio. *)
Lemma ceilingRatio_exact n d s :
  0 <= n -> 0 < d -> 1 <= s -> n * s < 2 ^ 63 - 1 -> ceilingRatio n d s = ceil_div (n * s) d.
Proof.
  intros Hn Hd Hs Hb.
  apply (is_ceiling_unique (n * s) d); [done| |by apply ceil_div_is_ceiling].
  unfold ceilingRatio, is_ceiling.
  rewrite Z.quot_div_nonneg, Z.rem_mod_nonneg by lia.
  pose proof (Z.div_mod n d ltac:(lia)) as Hdm. pose proof (Z.mod_pos_bound n d Hd) as Hr.
  set (q := n / d) in *. set (r := n mod d) in *.
  assert (0 <= q) by (apply Z.div_pos; lia).
  assert (0 <= q * s <= n * s) by nia. assert (0 <= r * s <= n * s) by nia.
  rewrite (mul64_small q s) by (unfold in_int64; lia).
  destruct (Z.eqb_spec r 0) as [Hr0|Hr0]; cbn [negb].
  - rewrite Hr0 in *. nia.
  - assert (1 <= r * s) by nia.
    rewrite (mul64_small r s), (sub64_small (r * s) 1) by (unfold in_int64; lia).
    rewrite Z.quot_div_nonneg by lia.
    pose proof (Z.div_mod (r * s - 1) d ltac:(lia)) as Hdm2.
    pose proof (Z.mod_pos_bound (r * s - 1) d Hd) as Hr2.
    set (t := (r * s - 1) / d) in *.
    assert (0 <= t) by (apply Z.div_pos; lia).
    assert (t <= r * s - 1) by nia.
    assert (t < s) by nia.
    assert (q * s + t + 1 <= n * s).
    { destruct (Z.eq_dec q 0); nia. }
    rewrite (add64_small t 1), (add64_small (q * s) (t + 1)) by (unfold in_int64; lia).
    nia.
Qed.

Lemma ceil_div_bounds n d k : 0 < d -> 0 < n -> n <= k * d -> 1 <= ceil_div n d <= k.
Proof.
  intros Hd Hn Hk. pose proof (ceil_div_is_ceiling n d Hd) as Hc.
  unfold is_ceiling in Hc. nia.
Qed.

#[export] Instance feasible_dec request c : Decision (feasible request c).
Proof. unfold feasible. apply _. Defined.

Lemma skipsCandidate_feasible request c :
  skipsCandidate request c = bool_decide (~ feasible request c).
Proof.
  destruct (decide (feasible request c)) as [Hf|Hf].
  - rewrite bool_decide_eq_false_2 by tauto. destruct Hf as (? & ? & Hs & Hm).
    unfold skipsCandidate. rewrite Hs, Hm, !orb_false_iff. repeat split; first [done|lia].
  - rewrite bool_decide_eq_true_2 by done. destruct (skipsCandidate request c) eqn:E; [done|].
    exfalso. unfold skipsCandidate in E. reflect_bools. apply Hf. repeat split; first [done|lia].
Qed.

Lemma scoreCandidate_exact request c :
  bounded_request request -> bounded_candidate c -> feasible request c ->
  scoreCandidate request c = Ok (candidate_key request c).
Proof.
  intros [Hcpu Hmem] (Hw & Hc1 & Hc2 & Hq) (Hf1 & Hf2 & _).
  unfold scoreCandidate, candidate_key.
  rewrite !ceilingRatio_exact by lia.
  pose proof (ceil_div_bounds (sel_CPUMillis request * 10000) (cc_AllocatableCPUMillis (cand_Capacity c))
    10000 ltac:(lia) ltac:(lia) ltac:(lia)) as Hb1.
  pose proof (ceil_div_bounds (sel_MemoryMiB request * 10000) (cc_AllocatableMemoryMiB (cand_Capacity c))
    10000 ltac:(lia) ltac:(lia) ltac:(lia)) as Hb2.
  set (p := Z.max (ceil_div _ _) _) in *. assert (1 <= p <= 10000) as Hp by lia.
  rewrite bind_failIf. destruct (Z.eqb_spec (ec_SchedulingWeight (cand_Cluster c)) 0); [lia|].
  rewrite (mul64_small p 1000), (mul64_small _ 100),
    (add64_small (ec_CPUCostMinorUnits _)) by (unfold in_int64; lia).
  rewrite Z.quot_div_nonneg by lia.
  assert (0 <= p * 1000 / ec_SchedulingWeight (cand_Cluster c) <= p * 1000).
  { split; [apply Z.div_pos; lia|]. apply Z.div_le_upper_bound; nia. }
  rewrite !add64_small by (unfold in_int64; rewrite ?add64_small; unfold in_int64; lia).
  done.
Qed.

Lemma scoreCandidates_exact request candidates :
  bounded_request request -> Forall bounded_candidate candidates ->
  scoreCandidates request candidates =
  Ok (candidate_key request <$> filter (feasible request) candidates).
Proof.
  intros Hr. induction 1 as [|c rest Hc _ IH]; simpl; [done|].
  rewrite skipsCandidate_feasible, filter_cons.
  destruct (decide (feasible request c)) as [Hf|Hf].
  - rewrite bool_decide_eq_false_2 by tauto.
    rewrite (scoreCandidate_exact _ _ Hr Hc Hf), bind_Ok, IH. done.
  - by rewrite bool_decide_eq_true_2.
Qed.

(** The decision for the candidate with key [k]. *)
Definition decision_of (k : scoredCandidate) (now : Time) (strategy : string) (fallback : bool) :=
  {| sd_ClusterID := sc_clusterID k; sd_Strategy := strategy;
     sd_Reason := "selected lowest deterministic capacity score";
     sd_Score := sc_score k; sd_ProjectedUtilizationBPS := sc_projected k;
     sd_QueuedWorkloads := sc_queued k; sd_EffectiveCost := sc_cost k;
     sd_UsedRegionFallback := fallback; sd_DecidedAt := now |}.

Lemma rankCandidates_spec candidates request now strategy fallback :
  bounded_request request -> Forall bounded_candidate candidates -> now <> 0 ->
  (exists c, c ∈ candidates /\ feasible request c /\
     (forall c', c' ∈ candidates -> feasible request c' ->
        scored_le (candidate_key request c) (candidate_key request c')) /\
     rankCandidates candidates request now strategy fallback
       = Ok (decision_of (candidate_key request c) now strategy fallback)) \/
  ((forall c, c ∈ candidates -> ~ feasible request c) /\
   rankCandidates candidates request now strategy fallback
     = Err (NoCapacityError "no eligible cluster has sufficient capacity")).
Proof.
  intros Hr Hall Hnow. unfold rankCandidates.
  rewrite bind_failIf, (proj2 (orb_false_iff _ _)).
  2: { destruct Hr. unfold IsZero. split; [apply orb_false_iff|]; lia. }
  rewrite scoreCandidates_exact, bind_Ok by done.
  destruct (sortScored _) as [|k rest] eqn:Hs.
  - right. split; [|done]. intros c Hin Hf.
    assert (candidate_key request c ∈ candidate_key request <$> filter (feasible request) candidates) as Hk.
    { apply list_elem_of_fmap_2. by apply list_elem_of_filter. }
    rewrite <-(merge_sort_Permutation scored_le) in Hk. unfold sortScored in Hs. rewrite Hs in Hk. set_solver.
  - left. apply sortScored_head in Hs as [Hin Hmin].
    apply list_elem_of_fmap in Hin as (c & -> & Hc). apply list_elem_of_filter in Hc as [Hf Hc].
    exists c. split_and!; try done. intros c' Hc' Hf'. apply Hmin.
    apply list_elem_of_fmap_2. by apply list_elem_of_filter.
Qed.

Lemma scoreCandidates_perm request l k :
  bounded_request request -> Forall bounded_candidate l -> l ≡ₚ k ->
  exists rl rk, scoreCandidates request l = Ok rl /\ scoreCandidates request k = Ok rk /\ rl ≡ₚ rk.
Proof.
  intros Hr Hl Hp. assert (Forall bounded_candidate k) by (by rewrite <-Hp).
  do 2 eexists. rewrite !scoreCandidates_exact by done. split_and!; try done. by rewrite Hp.
Qed.

Lemma rankCandidates_perm l k request now strategy fallback :
  bounded_request request -> Forall bounded_candidate l -> l ≡ₚ k ->
  rankCandidates l request now strategy fallback = rankCandidates k request now strategy fallback.
Proof.
  intros Hr Hl Hp. destruct (scoreCandidates_perm _ _ _ Hr Hl Hp) as (rl & rk & E1 & E2 & Hrp).
  unfold rankCandidates. rewrite E1, E2, !bind_Ok, (sortScored_perm _ _ Hrp). done.
Qed.


(** selection is deterministic in the set of candidates: both strategies
    give the same decision whatever order the candidates are listed in. *)
Theorem selection_order_independent l k request now :
  bounded_request request -> Forall bounded_candidate l -> l ≡ₚ k ->
  leastLoaded_Select l request now = leastLoaded_Select k request now /\
  regionAffinity_Select l request now = regionAffinity_Select k request now.
Proof.
  intros Hr Hl Hp. split; [by apply rankCandidates_perm|].
  unfold regionAffinity_Select, globalSelect, regionalCandidates.
  rewrite (rankCandidates_perm l k) by done.
  rewrite (rankCandidates_perm (filter _ l) (filter (fun c => ec_Region (cand_Cluster c) = sel_PreferredRegion request) k)); try done.
  - by apply Forall_filter.
  - by rewrite Hp.
Qed.

(** region affinity always answers: it stays in the preferred region exactly
    when that region has a feasible cluster, otherwise takes a cluster of the
    whole set and reports the fallback, and defers only when none is feasible. *)
Theorem regionAffinity_prefers_region candidates request now :
  bounded_request request -> Forall bounded_candidate candidates -> now <> 0 ->
  sel_PreferredRegion request <> EmptyString ->
  (exists c d, regionAffinity_Select candidates request now = Ok d /\
    c ∈ candidates /\ feasible request c /\ sd_ClusterID d = ec_ID (cand_Cluster c) /\
    (sd_UsedRegionFallback d = false <-> ec_Region (cand_Cluster c) = sel_PreferredRegion request) /\
    (sd_UsedRegionFallback d = true <->
       forall c', c' ∈ candidates -> feasible request c' ->
         ec_Region (cand_Cluster c') <> sel_PreferredRegion request)) \/
  ((forall c, c ∈ candidates -> ~ feasible request c) /\
   regionAffinity_Select candidates request now
     = Err (NoCapacityError "no eligible cluster has sufficient capacity")).
Proof.
  intros Hr Hall Hnow Hpref. unfold regionAffinity_Select, globalSelect.
  rewrite bool_decide_eq_false_2 by done. cbn [negb].
  assert (Hreg : Forall bounded_candidate (regionalCandidates candidates (sel_PreferredRegion request)))
    by by apply Forall_filter.
  destruct (rankCandidates_spec _ request now StrategyRegionAffinity false Hr Hreg Hnow)
    as [(c & Hc & Hf & _ & ->)|[Hnone ->]].
  - left. apply list_elem_of_filter in Hc as [Hcr Hc].
    exists c. eexists. split; [reflexivity|]. simpl. split_and!; try done.
    split; [done|]. intros Hn. by destruct (Hn c).
  - destruct (rankCandidates_spec candidates request now StrategyRegionAffinity true Hr Hall Hnow)
      as [(c & Hc & Hf & _ & ->)|[Hno ->]]; [left|by right].
    exists c. eexists. split; [reflexivity|]. simpl.
    assert (Hn : forall c', c' ∈ candidates -> feasible request c' ->
      ec_Region (cand_Cluster c') <> sel_PreferredRegion request).
    { intros c' Hc' Hf' Heq. apply (Hnone c'); [by apply list_elem_of_filter|done]. }
    split_and!; try done. split; [done|]. intros Heq. by destruct (Hn c).
Qed.

(** ** Examples *)

Definition example_candidate (id region : string) (cpu : Z) : ClusterCandidate :=
  {| cand_Cluster := {| ec_ID := id; ec_Region := region; ec_Status := ClusterActive;
       ec_SupportedRuntimes := ["python"]; ec_SupportedExecutionProfiles := ["standard"];
       ec_Maintenance := false; ec_TenantRestricted := false; ec_SchedulingWeight := 100;
       ec_CPUCostMinorUnits := 3; ec_MemoryGiBCostMinorUnits := 2; ec_LastHeartbeatAt := 90;
       ec_Version := 1; ec_CreatedAt := 10; ec_UpdatedAt := 10 |};
     cand_Capacity := {| cc_ClusterID := id; cc_ObservedAt := 90; cc_AllocatableCPUMillis := cpu;
       cc_AllocatableMemoryMiB := 8192; cc_QueuedWorkloads := 1 |} |}.

Definition example_candidates : list ClusterCandidate :=
  [example_candidate "alpha-1" "eu" 4000; example_candidate "beta-1" "us" 8000;
   example_candidate "beta-2" "us" 100].

Definition example_selection : SelectionRequest :=
  {| sel_CPUMillis := 500; sel_MemoryMiB := 512; sel_PreferredRegion := "us" |}.

Lemma example_request_bounded : bounded_request example_selection.
Proof. unfold bounded_request; simpl; lia. Qed.

Lemma example_candidates_bounded : Forall bounded_candidate example_candidates.
Proof. repeat (apply Forall_cons; split); try apply Forall_nil_2; unfold bounded_candidate; simpl; lia. Qed.


Lemma selection_order_independent_witness :
  leastLoaded_Select (rev example_candidates) example_selection 100 =
  leastLoaded_Select example_candidates example_selection 100.
Proof.
  symmetry. apply (selection_order_independent example_candidates (rev example_candidates)
    example_selection 100 example_request_bounded example_candidates_bounded).
  apply Permutation_rev.
Defined.

Lemma regionAffinity_prefers_region_witness :
  exists c d, regionAffinity_Select example_candidates example_selection 100 = Ok d /\
    ec_Region (cand_Cluster c) = "us" /\ sd_ClusterID d = ec_ID (cand_Cluster c).
Proof.
  destruct (regionAffinity_prefers_region example_candidates example_selection 100
    example_request_bounded example_candidates_bounded ltac:(lia) ltac:(discriminate))
    as [(c & d & Hd & _ & _ & Hid & Hreg & _)|[_ Hd]].
  - exists c, d. split; [exact Hd|]. split; [|exact Hid]. apply (proj1 Hreg).
    vm_compute in Hd. apply Ok_inj in Hd. by rewrite <-Hd.
  - vm_compute in Hd. discriminate.
Defined.
