(* ===== verification/Events.v ===== *)
(** * Integration events (internal/events: event.go, validation.go, dead_letter.go)

    The canonical envelope, the typed payloads, their validation, the routing
    contract (topic and partition key), the headers repeated from the body, and
    the constructors used by the transactions and the dead-letter path.

    A JSON payload is represented by the value it decodes to: one constructor
    per payload struct, [PayloadOther] for an object that decodes strictly into
    none of them (with what a lenient decoding finds as original envelope),
    [PayloadNotObject] for anything else; the byte text of the JSON is not represented. *)

From S2P Require Import Prelude AgentRun.

Definition AgentRunLifecycleTopic : string := "agentforge.agent-run.lifecycle.v1".
Definition AgentRunDLQTopic : string := "agentforge.agent-run.lifecycle.dlq.v1".
Definition AgentRunRequestedType : string := "agent-run.requested.v1".
Definition AgentRunScheduledType : string := "agent-run.scheduled.v1".
Definition AgentRunCapacityWaitType : string := "agent-run.capacity-wait.v1".
Definition AgentRunFailedType : string := "agent-run.failed.v1".
Definition AgentRunCancelRequestedType : string := "agent-run.cancel-requested.v1".
Definition AgentRunRetryRequestedType : string := "agent-run.retry-requested.v1".
Definition DeliveryDeadLetteredType : string := "event-delivery.dead-lettered.v1".
Definition maxHeaderValueLength : Z := 512.
Definition maxHeaderCount : Z := 32.
Definition maxHeaderBytes : Z := 4096.

Record Header := { h_Key : string; h_Value : string }.

#[export] Instance Header_eq_dec : EqDecision Header.
Proof. solve_decision. Defined.

(** [^[a-z0-9-]+\.[a-z0-9-]+\.v[1-9][0-9]*$] *)
Definition eventTypePattern (s : string) : bool :=
  let word (l : list Ascii.ascii) :=
    negb (length l =? 0)%nat && forallb (fun c => lowerAlnum c || hyphen c) l in
  match splitOn dotByte (bytes s) with
  | [a; b; v :: d :: ds] => word a && word b && byte_is 118 v && byte_in 49 57 d && forallb digit ds
  | _ => false
  end.

(** [Envelope] without its payload, which is the parameter [P].  The zone of
    [OccurredAt] is kept because the validation looks at it. *)
Record EnvelopeOf (P : Type) := {
  env_EventID : UUID;
  env_EventType : string;
  env_SchemaVersion : Z;
  env_OccurredAt : Time;
  env_OccurredZoneOffset : Z;
  env_Producer : string;
  env_TenantID : UUID;
  env_ProjectID : option UUID;
  env_RunID : option UUID;
  env_AggregateType : string;
  env_AggregateID : UUID;
  env_AggregateVersion : Z;
  env_RequestID : string;
  env_Traceparent : string;
  env_Tracestate : string;
  env_CorrelationID : string;
  env_CausationID : string;
  env_Payload : P;
}.
Arguments env_EventID {P}. Arguments env_EventType {P}. Arguments env_SchemaVersion {P}.
Arguments env_OccurredAt {P}. Arguments env_OccurredZoneOffset {P}. Arguments env_Producer {P}.
Arguments env_TenantID {P}. Arguments env_ProjectID {P}. Arguments env_RunID {P}.
Arguments env_AggregateType {P}. Arguments env_AggregateID {P}. Arguments env_AggregateVersion {P}.
Arguments env_RequestID {P}. Arguments env_Traceparent {P}. Arguments env_Tracestate {P}.
Arguments env_CorrelationID {P}. Arguments env_CausationID {P}. Arguments env_Payload {P}.

Record AgentRunRequestedPayload := {
  rq_ProjectID : UUID; rq_RunID : UUID; rq_Status : AgentRunStatus; rq_AttemptNumber : Z;
  rq_Runtime : string; rq_CPUMillis : Z; rq_MemoryMiB : Z; rq_TimeoutSeconds : Z;
  rq_MaxAttempts : Z; rq_PromptReference : string;
}.

Record AgentRunScheduledPayload := {
  sc_ProjectID : UUID; sc_RunID : UUID; sc_Status : AgentRunStatus; sc_AttemptID : UUID;
  sc_AttemptNumber : Z; sc_ClusterID : string; sc_ExecutionProfile : string;
  sc_CapacityReservationID : UUID; sc_BudgetReservationID : UUID; sc_CPUMillis : Z; sc_MemoryMiB : Z;
}.

Record AgentRunCapacityWaitPayload := {
  cw_ProjectID : UUID; cw_RunID : UUID; cw_Status : AgentRunStatus; cw_AttemptNumber : Z;
  cw_ReasonCode : string; cw_Reason : string; cw_NextEligibleAt : Time;
}.

Record AgentRunFailedPayload := {
  fl_ProjectID : UUID; fl_RunID : UUID; fl_Status : AgentRunStatus;
  fl_FailureCategory : FailureCategory; fl_AttemptNumber : Z; fl_ReasonCode : string; fl_Reason : string;
}.

Record AgentRunCancelRequestedPayload := {
  cn_ProjectID : UUID; cn_RunID : UUID; cn_Status : AgentRunStatus; cn_AttemptNumber : Z;
  cn_RequestedBy : string; cn_CommandID : string;
}.

Record AgentRunRetryRequestedPayload := {
  rt_ProjectID : UUID; rt_RunID : UUID; rt_Status : AgentRunStatus; rt_AttemptNumber : Z;
  rt_PreviousStatus : AgentRunStatus; rt_PreviousFailure : FailureCategory;
  rt_RequestedBy : string; rt_CommandID : string;
}.

(** [DeadLetterPayload]; [dl_OriginalEnvelope] is absent when the raw message is empty. *)
Record DeadLetterPayloadOf (R : Type) := {
  dl_OriginalEnvelope : option R;
  dl_RawFingerprint : string;
  dl_RawSize : Z;
  dl_OriginalTopic : string;
  dl_OriginalPartition : Z;
  dl_OriginalOffset : Z;
  dl_OriginalKey : string;
  dl_OriginalHeaders : list Header;
  dl_ConsumerIdentity : string;
  dl_FailureCode : string;
  dl_FailureReason : string;
  dl_Attempts : Z;
  dl_FirstFailedAt : Time;
  dl_LastFailedAt : Time;
  dl_ReplayDisposition : string;
}.
Arguments dl_OriginalEnvelope {R}. Arguments dl_RawFingerprint {R}. Arguments dl_RawSize {R}.
Arguments dl_OriginalTopic {R}. Arguments dl_OriginalPartition {R}. Arguments dl_OriginalOffset {R}.
Arguments dl_OriginalKey {R}. Arguments dl_OriginalHeaders {R}. Arguments dl_ConsumerIdentity {R}.
Arguments dl_FailureCode {R}. Arguments dl_FailureReason {R}. Arguments dl_Attempts {R}.
Arguments dl_FirstFailedAt {R}. Arguments dl_LastFailedAt {R}. Arguments dl_ReplayDisposition {R}.

(** The typed payloads; a raw original is the envelope it decodes to, or [None]
    when it does not decode strictly. *)
Inductive Payload :=
| PayloadRequested (p : AgentRunRequestedPayload)
| PayloadScheduled (p : AgentRunScheduledPayload)
| PayloadCapacityWait (p : AgentRunCapacityWaitPayload)
| PayloadFailed (p : AgentRunFailedPayload)
| PayloadCancelRequested (p : AgentRunCancelRequestedPayload)
| PayloadRetryRequested (p : AgentRunRetryRequestedPayload)
| PayloadDeadLetter (p : DeadLetterPayloadOf (option (EnvelopeOf Payload)))
| PayloadOther (lenient : option (option (option (EnvelopeOf Payload))))
| PayloadNotObject.

Definition Envelope := EnvelopeOf Payload.
Definition DeadLetterPayload := DeadLetterPayloadOf (option Envelope).

(** The fields of an envelope that validation of a payload may read. *)
Definition envelopeMeta {P} (e : EnvelopeOf P) : EnvelopeOf unit :=
  {| env_EventID := env_EventID e; env_EventType := env_EventType e;
     env_SchemaVersion := env_SchemaVersion e; env_OccurredAt := env_OccurredAt e;
     env_OccurredZoneOffset := env_OccurredZoneOffset e; env_Producer := env_Producer e;
     env_TenantID := env_TenantID e; env_ProjectID := env_ProjectID e; env_RunID := env_RunID e;
     env_AggregateType := env_AggregateType e; env_AggregateID := env_AggregateID e;
     env_AggregateVersion := env_AggregateVersion e; env_RequestID := env_RequestID e;
     env_Traceparent := env_Traceparent e; env_Tracestate := env_Tracestate e;
     env_CorrelationID := env_CorrelationID e; env_CausationID := env_CausationID e;
     env_Payload := tt |}.

(** [OutboxEvent]; the serialized bytes are those of [oe_Envelope]. *)
Record OutboxEvent := {
  oe_Envelope : Envelope;
  oe_Topic : string;
  oe_PartitionKey : string;
  oe_CreatedAt : Time;
}.

#[export] Instance OutboxEvent_settable : Settable OutboxEvent := fun e =>
  Build_OutboxEvent (oe_Envelope e) (oe_Topic e) (oe_PartitionKey e) (oe_CreatedAt e).

(** The text after the last occurrence of [.v]. *)
Fixpoint afterLastDotV (l : list Ascii.ascii) : option (list Ascii.ascii) :=
  match l with
  | [] => None
  | c :: rest =>
      match afterLastDotV rest with
      | Some found => Some found
      | None =>
          match rest with
          | v :: tail => if dot c && byte_is 118 v then Some tail else None
          | [] => None
          end
      end
  end.

Definition eventMajor (eventType : string) : res Z :=
  match afterLastDotV (bytes eventType) with
  | None => Err (ErrPlain "event type has no major version")
  | Some digits => Atoi (String.string_of_list_ascii digits)
  end.

(** [^[\da-f]{2}-[\da-f]{32}-[\da-f]{16}-[\da-f]{2}$] *)
Definition traceparentPattern (s : string) : bool :=
  match splitOn hyphenByte (bytes s) with
  | [a; b; c; d] =>
      (length a =? 2)%nat && (length b =? 32)%nat && (length c =? 16)%nat && (length d =? 2)%nat
      && forallb lowerHex (a ++ b ++ c ++ d)
  | _ => false
  end.

(** The trace or parent identifier of a matched traceparent is all zeros. *)
Definition traceparentZeros (s : string) : bool :=
  match splitOn hyphenByte (bytes s) with
  | [_; b; c; _] => forallb (byte_is 48) b || forallb (byte_is 48) c
  | _ => false
  end.

(** [^[a-z0-9][a-z0-9-]{2,62}$] and [^[a-z0-9][a-z0-9._-]{0,62}$] *)
Definition clusterIDPatternForEvent (s : string) : bool :=
  matchClass lowerAlnum (fun c => lowerAlnum c || hyphen c) 2 62 s.
Definition policyValuePatternForEvent (s : string) : bool :=
  matchClass lowerAlnum (fun c => lowerAlnum c || dot c || underscore c || hyphen c) 0 62 s.

(** [net/url.Parse]: [None] when it fails, otherwise the scheme of the result. *)
Class NetURL := { urlParseScheme : string -> option string }.

(** [crypto/sha256] and [encoding/hex]: the hexadecimal digest of a byte string. *)
Class SHA256 := {
  sha256Hex : string -> string;
  sha256Hex_length : forall s, len (sha256Hex s) = 64;
  sha256Hex_digits : forall s, forallb lowerHex (bytes (sha256Hex s)) = true;
}.

Section Events.
Context `{UUIDs} `{NetURL} `{SHA256}.

Definition validV7 (id : UUID) : bool := (id != uuidNil) && (uuidVersion id =? 7).
Definition validOptionalV7 (id : option UUID) : bool :=
  match id with None => true | Some id => validV7 id end.

Definition blank (s : string) : bool := TrimSpace s == EmptyString.

Definition validateRunEventMetadata {P} (envelope : EnvelopeOf P) : res (UUID * UUID) :=
  match env_RunID envelope, env_ProjectID envelope with
  | Some runID, Some projectID =>
      _ ← failIf ((env_AggregateType envelope != "AgentRun") || (runID != env_AggregateID envelope))
          (ErrPlain "run event aggregate metadata is invalid");
      Ok (projectID, runID)
  | _, _ => Err (ErrPlain "run event aggregate metadata is invalid")
  end.

Definition validateAgentRunRequested (envelope : EnvelopeOf unit) (payload : Payload) : res unit :=
  '(projectID, runID) ← validateRunEventMetadata envelope;
  match payload with
  | PayloadRequested p =>
      _ ← failIf ((rq_ProjectID p != projectID) || (rq_RunID p != runID)
          || (rq_Status p != AgentRunQueued) || negb (rq_AttemptNumber p =? 1))
          (ErrPlain "run-request payload identity or state is invalid");
      failIf (blank (rq_Runtime p) || (120 <? len (rq_Runtime p))
          || (rq_CPUMillis p <? 1) || (128000 <? rq_CPUMillis p)
          || (rq_MemoryMiB p <? 1) || (524288 <? rq_MemoryMiB p)
          || (rq_TimeoutSeconds p <? 1) || (86400 <? rq_TimeoutSeconds p)
          || (rq_MaxAttempts p <? 1) || (10 <? rq_MaxAttempts p)
          || blank (rq_PromptReference p) || (2048 <? len (rq_PromptReference p))
          || match urlParseScheme (rq_PromptReference p) with
             | None => true
             | Some scheme => scheme == EmptyString
             end
          || negb (Contains (rq_PromptReference p) "://"))
        (ErrPlain "run-request payload constraints are invalid")
  | _ => Err (ErrPlain "decode run-request payload")
  end.

Definition validateAgentRunScheduled (envelope : EnvelopeOf unit) (payload : Payload) : res unit :=
  '(projectID, runID) ← validateRunEventMetadata envelope;
  match payload with
  | PayloadScheduled p =>
      failIf ((sc_ProjectID p != projectID) || (sc_RunID p != runID)
          || (sc_Status p != AgentRunProvisioning) || (sc_AttemptNumber p <? 1)
          || negb (validV7 (sc_AttemptID p)) || negb (validV7 (sc_CapacityReservationID p))
          || negb (validV7 (sc_BudgetReservationID p)) || negb (clusterIDPatternForEvent (sc_ClusterID p))
          || negb (policyValuePatternForEvent (sc_ExecutionProfile p))
          || (sc_CPUMillis p <? 1) || (128000 <? sc_CPUMillis p)
          || (sc_MemoryMiB p <? 1) || (524288 <? sc_MemoryMiB p))
        (ErrPlain "scheduled payload constraints are invalid")
  | _ => Err (ErrPlain "decode scheduled payload")
  end.

Definition validateAgentRunCapacityWait (envelope : EnvelopeOf unit) (payload : Payload) : res unit :=
  '(projectID, runID) ← validateRunEventMetadata envelope;
  match payload with
  | PayloadCapacityWait p =>
      failIf ((cw_ProjectID p != projectID) || (cw_RunID p != runID)
          || (cw_Status p != AgentRunCapacityWait) || (cw_AttemptNumber p <? 1)
          || blank (cw_ReasonCode p) || (80 <? len (cw_ReasonCode p))
          || blank (cw_Reason p) || (500 <? len (cw_Reason p)) || IsZero (cw_NextEligibleAt p)
          || negb (After (cw_NextEligibleAt p) (env_OccurredAt envelope)))
        (ErrPlain "capacity-wait payload constraints are invalid")
  | _ => Err (ErrPlain "decode capacity-wait payload")
  end.

Definition validateAgentRunFailed (envelope : EnvelopeOf unit) (payload : Payload) : res unit :=
  '(projectID, runID) ← validateRunEventMetadata envelope;
  match payload with
  | PayloadFailed p =>
      failIf ((fl_ProjectID p != projectID) || (fl_RunID p != runID)
          || negb (IsTerminal (fl_Status p)) || (fl_Status p == AgentRunSucceeded)
          || (fl_Status p == AgentRunCancelled) || negb (FailureCategory_IsValid (fl_FailureCategory p))
          || (fl_AttemptNumber p <? 1) || blank (fl_ReasonCode p) || (80 <? len (fl_ReasonCode p))
          || blank (fl_Reason p) || (500 <? len (fl_Reason p)))
        (ErrPlain "run-failed payload constraints are invalid")
  | _ => Err (ErrPlain "decode run-failed payload")
  end.

Definition validateAgentRunCancelRequested (envelope : EnvelopeOf unit) (payload : Payload) : res unit :=
  '(projectID, runID) ← validateRunEventMetadata envelope;
  match payload with
  | PayloadCancelRequested p =>
      failIf ((cn_ProjectID p != projectID) || (cn_RunID p != runID)
          || (cn_Status p != AgentRunCancelling) || (cn_AttemptNumber p <? 1)
          || blank (cn_RequestedBy p) || (255 <? len (cn_RequestedBy p))
          || blank (cn_CommandID p) || (255 <? len (cn_CommandID p)))
        (ErrPlain "cancellation payload constraints are invalid")
  | _ => Err (ErrPlain "decode cancellation payload")
  end.

Definition validateAgentRunRetryRequested (envelope : EnvelopeOf unit) (payload : Payload) : res unit :=
  '(projectID, runID) ← validateRunEventMetadata envelope;
  match payload with
  | PayloadRetryRequested p =>
      failIf ((rt_ProjectID p != projectID) || (rt_RunID p != runID)
          || (rt_Status p != AgentRunQueued) || (rt_AttemptNumber p <? 2)
          || negb (IsTerminal (rt_PreviousStatus p)) || (rt_PreviousStatus p == AgentRunSucceeded)
          || (rt_PreviousStatus p == AgentRunCancelled)
          || (rt_PreviousFailure p != FailureTransientDependency)
          || blank (rt_RequestedBy p) || (255 <? len (rt_RequestedBy p))
          || blank (rt_CommandID p) || (255 <? len (rt_CommandID p)))
        (ErrPlain "retry payload constraints are invalid")
  | _ => Err (ErrPlain "decode retry payload")
  end.

(** The part of [ValidateEnvelope] before the switch on the event type. *)
Definition validateEnvelopeHeader (envelope : EnvelopeOf unit) : res unit :=
  _ ← failIf ((env_EventID envelope == uuidNil) || negb (uuidVersion (env_EventID envelope) =? 7)
      || negb (eventTypePattern (env_EventType envelope)))
      (ErrPlain "event ID or type is invalid");
  _ ← failIf (match eventMajor (env_EventType envelope) with
              | Err _ => true
              | Ok major => negb (env_SchemaVersion envelope =? major)
              end)
      (ErrPlain "event schema version does not match event type");
  _ ← failIf (IsZero (env_OccurredAt envelope) || negb (env_OccurredZoneOffset envelope =? 0)
      || blank (env_Producer envelope) || (128 <? len (env_Producer envelope)))
      (ErrPlain "event occurrence and producer are required");
  _ ← failIf (negb (validV7 (env_TenantID envelope)) || negb (validOptionalV7 (env_ProjectID envelope))
      || negb (validOptionalV7 (env_RunID envelope)) || negb (validV7 (env_AggregateID envelope))
      || blank (env_AggregateType envelope) || (env_AggregateVersion envelope <? 1))
      (ErrPlain "event ownership or aggregate metadata is invalid");
  _ ← failIf (blank (env_CorrelationID envelope) || (255 <? len (env_CorrelationID envelope))
      || blank (env_CausationID envelope) || (255 <? len (env_CausationID envelope))
      || (128 <? len (env_RequestID envelope)))
      (ErrPlain "event correlation metadata is invalid");
  _ ← failIf ((env_Traceparent envelope != EmptyString)
      && (negb (traceparentPattern (env_Traceparent envelope)) || traceparentZeros (env_Traceparent envelope)))
      (ErrPlain "event traceparent is invalid");
  failIf (maxHeaderValueLength <? len (env_Tracestate envelope)) (ErrPlain "event tracestate is too long").

(** The checks of [validateDeadLetter] other than the one on the original. *)
Definition validateDeadLetterFields {R} (payload : DeadLetterPayloadOf R) : res unit :=
  let hasEnvelope := match dl_OriginalEnvelope payload with Some _ => true | None => false end in
  let hasFingerprint := HasPrefix (dl_RawFingerprint payload) "sha256:"
    && (len (dl_RawFingerprint payload) =? 71) && (0 <=? dl_RawSize payload) in
  failIf (Bool.eqb hasEnvelope hasFingerprint || blank (dl_OriginalTopic payload)
      || (dl_OriginalPartition payload <? 0) || (dl_OriginalOffset payload <? 0)
      || blank (dl_ConsumerIdentity payload) || (160 <? len (dl_ConsumerIdentity payload))
      || blank (dl_FailureCode payload) || (80 <? len (dl_FailureCode payload))
      || blank (dl_FailureReason payload) || (500 <? len (dl_FailureReason payload))
      || (dl_Attempts payload <? 1) || IsZero (dl_FirstFailedAt payload)
      || Before (dl_LastFailedAt payload) (dl_FirstFailedAt payload)
      || (dl_ReplayDisposition payload != "QUARANTINED"))
    (ErrPlain "dead-letter payload is invalid").

(** [ValidateEnvelope], by recursion on the payload: a dead letter validates the
    original envelope it carries. *)
Fixpoint validatePayload (payload : Payload) (envelope : EnvelopeOf unit) : res unit :=
  _ ← validateEnvelopeHeader envelope;
  match payload with
  | PayloadNotObject => Err (ErrPlain "event payload must be a JSON object")
  | _ =>
    if env_EventType envelope == AgentRunRequestedType then validateAgentRunRequested envelope payload else
    if env_EventType envelope == AgentRunScheduledType then validateAgentRunScheduled envelope payload else
    if env_EventType envelope == AgentRunCapacityWaitType then validateAgentRunCapacityWait envelope payload else
    if env_EventType envelope == AgentRunFailedType then validateAgentRunFailed envelope payload else
    if env_EventType envelope == AgentRunCancelRequestedType then validateAgentRunCancelRequested envelope payload else
    if env_EventType envelope == AgentRunRetryRequestedType then validateAgentRunRetryRequested envelope payload else
    if env_EventType envelope == DeliveryDeadLetteredType then
      _ ← failIf (env_AggregateType envelope != "EventDeliveryFailure")
          (ErrPlain "dead-letter aggregate metadata is invalid");
      match payload with
      | PayloadDeadLetter p =>
          _ ← validateDeadLetterFields p;
          match dl_OriginalEnvelope p with
          | None => Ok tt
          | Some None => Err (ErrPlain "dead-letter original envelope is invalid")
          | Some (Some original) => validatePayload (env_Payload original) (envelopeMeta original)
          end
      | _ => Err (ErrPlain "decode dead-letter payload")
      end
    else Err (ErrPlain "unsupported event type")
  end.

Definition ValidateEnvelope (envelope : Envelope) : res unit :=
  validatePayload (env_Payload envelope) (envelopeMeta envelope).

(** [DecodeEnvelope] of the raw message that decodes to [raw]. *)
Definition DecodeEnvelope (raw : option Envelope) : res Envelope :=
  match raw with
  | None => Err (ErrPlain "decode event envelope")
  | Some envelope => _ ← ValidateEnvelope envelope; Ok envelope
  end.

Definition isLifecycleType (eventType : string) : bool :=
  (eventType == AgentRunRequestedType) || (eventType == AgentRunScheduledType)
  || (eventType == AgentRunCapacityWaitType) || (eventType == AgentRunFailedType)
  || (eventType == AgentRunCancelRequestedType) || (eventType == AgentRunRetryRequestedType).

Definition TopicAccepts (eventType topic : string) : bool :=
  if isLifecycleType eventType then
    (topic == AgentRunLifecycleTopic) || (topic == "agentforge.agent-run.lifecycle.retry.1m.v1")
    || (topic == "agentforge.agent-run.lifecycle.retry.5m.v1")
    || (topic == "agentforge.agent-run.lifecycle.retry.30m.v1")
  else if eventType == DeliveryDeadLetteredType then topic == AgentRunDLQTopic
  else false.

Definition ExpectedPartitionKey (envelope : Envelope) : res string :=
  if isLifecycleType (env_EventType envelope) then Ok (uuidString (env_AggregateID envelope))
  else if env_EventType envelope == DeliveryDeadLetteredType then
    original ← match env_Payload envelope with
               | PayloadDeadLetter payload => Ok (dl_OriginalEnvelope payload)
               | PayloadOther (Some found) => Ok found
               | PayloadOther None | PayloadNotObject => Err (ErrPlain "decode dead-letter payload")
               | _ => Ok None
               end;
    match original with
    | Some raw => original ← DecodeEnvelope raw; Ok (uuidString (env_AggregateID original))
    | None => Ok (uuidString (env_AggregateID envelope))
    end
  else Err (ErrPlain "unsupported event type").

(** [newEvent]; [newV7] is the result of [uuid.NewV7]. *)
Definition newEvent (newV7 : res UUID) (eventType : string) (schemaVersion : Z) (occurredAt : Time)
    (producer : string) (tenantID : UUID) (projectID runID : option UUID) (aggregateType : string)
    (aggregateID : UUID) (aggregateVersion : Z) (correlationID causationID : string)
    (payload : Payload) : res OutboxEvent :=
  _ ← failIf (negb (eventTypePattern eventType) || (schemaVersion <? 1) || (tenantID == uuidNil)
      || (aggregateID == uuidNil) || (aggregateVersion <? 1))
      (ErrPlain "event identity and version are invalid");
  let producer := TrimSpace producer in
  let correlationID := TrimSpace correlationID in
  let causationID := TrimSpace causationID in
  _ ← failIf ((producer == EmptyString) || (aggregateType == EmptyString)
      || (correlationID == EmptyString) || (causationID == EmptyString))
      (ErrPlain "event producer, aggregate, correlation, and causation are required");
  eventID ← newV7;
  let envelope : Envelope :=
    {| env_EventID := eventID; env_EventType := eventType; env_SchemaVersion := schemaVersion;
       env_OccurredAt := UTC occurredAt; env_OccurredZoneOffset := 0; env_Producer := producer;
       env_TenantID := tenantID; env_ProjectID := projectID; env_RunID := runID;
       env_AggregateType := aggregateType; env_AggregateID := aggregateID;
       env_AggregateVersion := aggregateVersion; env_RequestID := EmptyString;
       env_Traceparent := EmptyString; env_Tracestate := EmptyString;
       env_CorrelationID := correlationID; env_CausationID := causationID; env_Payload := payload |} in
  _ ← ValidateEnvelope envelope;
  Ok {| oe_Envelope := envelope; oe_Topic := AgentRunLifecycleTopic;
        oe_PartitionKey := uuidString aggregateID; oe_CreatedAt := UTC occurredAt |}.

Definition NewAgentRunRequested (newV7 : res UUID) (run : AgentRun) (attempt : AgentRunAttempt)
    : res OutboxEvent :=
  newEvent newV7 AgentRunRequestedType 1 (run_CreatedAt run) "platform-api" (run_TenantID run)
    (Some (run_ProjectID run)) (Some (run_ID run)) "AgentRun" (run_ID run) (run_Version run)
    (run_IdempotencyKey run) (run_IdempotencyKey run)
    (PayloadRequested {| rq_ProjectID := run_ProjectID run; rq_RunID := run_ID run;
       rq_Status := run_Status run; rq_AttemptNumber := att_AttemptNumber attempt;
       rq_Runtime := run_Runtime run; rq_CPUMillis := run_CPUMillis run;
       rq_MemoryMiB := run_MemoryMiB run; rq_TimeoutSeconds := run_TimeoutSeconds run;
       rq_MaxAttempts := run_MaxAttempts run; rq_PromptReference := run_PromptReference run |}).

Definition NewAgentRunScheduled (newV7 : res UUID) (run : AgentRun) (attempt : AgentRunAttempt)
    (capacityReservationID budgetReservationID : UUID) (correlationID causationID : string)
    : res OutboxEvent :=
  newEvent newV7 AgentRunScheduledType 1 (run_UpdatedAt run) "scheduler" (run_TenantID run)
    (Some (run_ProjectID run)) (Some (run_ID run)) "AgentRun" (run_ID run) (run_Version run)
    correlationID causationID
    (PayloadScheduled {| sc_ProjectID := run_ProjectID run; sc_RunID := run_ID run;
       sc_Status := run_Status run; sc_AttemptID := att_ID attempt;
       sc_AttemptNumber := att_AttemptNumber attempt; sc_ClusterID := att_SelectedCluster attempt;
       sc_ExecutionProfile := att_ExecutionProfile attempt;
       sc_CapacityReservationID := capacityReservationID; sc_BudgetReservationID := budgetReservationID;
       sc_CPUMillis := run_CPUMillis run; sc_MemoryMiB := run_MemoryMiB run |}).

Definition NewAgentRunCapacityWait (newV7 : res UUID) (run : AgentRun) (reasonCode reason : string)
    (nextEligibleAt : Time) (correlationID causationID : string) : res OutboxEvent :=
  newEvent newV7 AgentRunCapacityWaitType 1 (run_UpdatedAt run) "scheduler" (run_TenantID run)
    (Some (run_ProjectID run)) (Some (run_ID run)) "AgentRun" (run_ID run) (run_Version run)
    correlationID causationID
    (PayloadCapacityWait {| cw_ProjectID := run_ProjectID run; cw_RunID := run_ID run;
       cw_Status := run_Status run; cw_AttemptNumber := run_AttemptCount run;
       cw_ReasonCode := reasonCode; cw_Reason := reason; cw_NextEligibleAt := UTC nextEligibleAt |}).

Definition NewAgentRunSchedulingRejected (newV7 : res UUID) (run : AgentRun)
    (reasonCode reason correlationID causationID : string) : res OutboxEvent :=
  newEvent newV7 AgentRunFailedType 1 (run_UpdatedAt run) "scheduler" (run_TenantID run)
    (Some (run_ProjectID run)) (Some (run_ID run)) "AgentRun" (run_ID run) (run_Version run)
    correlationID causationID
    (PayloadFailed {| fl_ProjectID := run_ProjectID run; fl_RunID := run_ID run;
       fl_Status := run_Status run; fl_FailureCategory := run_FailureCategory run;
       fl_AttemptNumber := run_AttemptCount run; fl_ReasonCode := reasonCode; fl_Reason := reason |}).

Definition NewAgentRunCancelRequested (newV7 : res UUID) (run : AgentRun) (commandID : string)
    : res OutboxEvent :=
  newEvent newV7 AgentRunCancelRequestedType 1 (run_UpdatedAt run) "platform-api" (run_TenantID run)
    (Some (run_ProjectID run)) (Some (run_ID run)) "AgentRun" (run_ID run) (run_Version run)
    commandID commandID
    (PayloadCancelRequested {| cn_ProjectID := run_ProjectID run; cn_RunID := run_ID run;
       cn_Status := run_Status run; cn_AttemptNumber := run_AttemptCount run;
       cn_RequestedBy := run_CancellationRequestedBy run; cn_CommandID := commandID |}).

Definition NewAgentRunRetryRequested (newV7 : res UUID) (run : AgentRun)
    (previousStatus : AgentRunStatus) (previousFailure : FailureCategory) (actor commandID : string)
    : res OutboxEvent :=
  newEvent newV7 AgentRunRetryRequestedType 1 (run_UpdatedAt run) "platform-api" (run_TenantID run)
    (Some (run_ProjectID run)) (Some (run_ID run)) "AgentRun" (run_ID run) (run_Version run)
    commandID commandID
    (PayloadRetryRequested {| rt_ProjectID := run_ProjectID run; rt_RunID := run_ID run;
       rt_Status := run_Status run; rt_AttemptNumber := run_AttemptCount run;
       rt_PreviousStatus := previousStatus; rt_PreviousFailure := previousFailure;
       rt_RequestedBy := actor; rt_CommandID := commandID |}).

(** [DeadLetterSource]: where a failed record came from; [ds_Value] are its bytes
    and [ds_Decoded] what they decode to. *)
Record DeadLetterSource := {
  ds_Envelope : Envelope;
  ds_Topic : string;
  ds_Partition : Z;
  ds_Offset : Z;
  ds_Key : string;
  ds_Headers : list Header;
  ds_Value : string;
  ds_Decoded : option Envelope;
}.

Definition allowedOriginalHeaders : list string :=
  ["event-id"; "event-type"; "schema-version"; "tenant-id"; "correlation-id"; "causation-id";
   "request-id"; "traceparent"; "tracestate"; "delivery-attempt"; "retry-not-before"].

Definition safeOriginalHeaders (headers : list Header) : list Header :=
  filter (fun header => h_Key header ∈ allowedOriginalHeaders) headers.

Definition NewDeadLetter (newFailureID newV7 : res UUID) (original : DeadLetterSource)
    (consumerIdentity code reason : string) (attempts : Z) (firstFailedAt now : Time) : res OutboxEvent :=
  _ ← ValidateEnvelope (ds_Envelope original);
  let payload : DeadLetterPayload :=
    {| dl_OriginalEnvelope := if ds_Value original == EmptyString then None else Some (ds_Decoded original);
       dl_RawFingerprint := EmptyString; dl_RawSize := 0;
       dl_OriginalTopic := ds_Topic original; dl_OriginalPartition := ds_Partition original;
       dl_OriginalOffset := ds_Offset original; dl_OriginalKey := ds_Key original;
       dl_OriginalHeaders := safeOriginalHeaders (ds_Headers original);
       dl_ConsumerIdentity := TrimSpace consumerIdentity; dl_FailureCode := TrimSpace code;
       dl_FailureReason := TrimSpace reason; dl_Attempts := attempts;
       dl_FirstFailedAt := UTC firstFailedAt; dl_LastFailedAt := UTC now;
       dl_ReplayDisposition := "QUARANTINED" |} in
  failureID ← newFailureID;
  event ← newEvent newV7 DeliveryDeadLetteredType 1 now "event-consumer"
    (env_TenantID (ds_Envelope original)) (env_ProjectID (ds_Envelope original))
    (env_RunID (ds_Envelope original)) "EventDeliveryFailure" failureID 1
    (env_CorrelationID (ds_Envelope original)) (uuidString (env_EventID (ds_Envelope original)))
    (PayloadDeadLetter payload);
  Ok (event <| oe_Topic := AgentRunDLQTopic |>
            <| oe_PartitionKey := uuidString (env_AggregateID (ds_Envelope original)) |>).

Definition NewMalformedDeadLetter (newFailureID newV7 : res UUID) (original : DeadLetterSource)
    (quarantineTenantID : UUID) (consumerIdentity code reason : string) (attempts : Z)
    (firstFailedAt now : Time) : res OutboxEvent :=
  let fingerprintText := ("sha256:" +:+ sha256Hex (ds_Value original)) in
  let payload : DeadLetterPayload :=
    {| dl_OriginalEnvelope := None; dl_RawFingerprint := fingerprintText;
       dl_RawSize := len (ds_Value original);
       dl_OriginalTopic := ds_Topic original; dl_OriginalPartition := ds_Partition original;
       dl_OriginalOffset := ds_Offset original; dl_OriginalKey := EmptyString; dl_OriginalHeaders := [];
       dl_ConsumerIdentity := TrimSpace consumerIdentity; dl_FailureCode := TrimSpace code;
       dl_FailureReason := TrimSpace reason; dl_Attempts := attempts;
       dl_FirstFailedAt := UTC firstFailedAt; dl_LastFailedAt := UTC now;
       dl_ReplayDisposition := "QUARANTINED" |} in
  failureID ← newFailureID;
  event ← newEvent newV7 DeliveryDeadLetteredType 1 now "event-consumer" quarantineTenantID None None
    "EventDeliveryFailure" failureID 1 fingerprintText fingerprintText (PayloadDeadLetter payload);
  Ok (event <| oe_Topic := AgentRunDLQTopic |> <| oe_PartitionKey := uuidString failureID |>).

Definition HeadersForEnvelope (envelope : Envelope) : list Header :=
  [ {| h_Key := "event-id"; h_Value := uuidString (env_EventID envelope) |};
    {| h_Key := "event-type"; h_Value := env_EventType envelope |};
    {| h_Key := "schema-version"; h_Value := Itoa (env_SchemaVersion envelope) |};
    {| h_Key := "tenant-id"; h_Value := uuidString (env_TenantID envelope) |};
    {| h_Key := "correlation-id"; h_Value := env_CorrelationID envelope |};
    {| h_Key := "causation-id"; h_Value := env_CausationID envelope |} ] ++
  filter (fun optional => h_Value optional <> EmptyString)
    [ {| h_Key := "request-id"; h_Value := env_RequestID envelope |};
      {| h_Key := "traceparent"; h_Value := env_Traceparent envelope |};
      {| h_Key := "tracestate"; h_Value := env_Tracestate envelope |} ].

(** The [repeated] set of [ValidateHeaders]. *)
Definition repeatedHeaders : list string :=
  ["event-id"; "event-type"; "schema-version"; "tenant-id"; "correlation-id"; "causation-id";
   "request-id"; "traceparent"; "tracestate"].

(** The map [expected]: a missing key reads as the empty string. *)
Definition headerMap (headers : list Header) : gmap string string :=
  foldl (fun m header => <[h_Key header := h_Value header]> m) ∅ headers.

(** The loop over the received headers, with [actual] and [headerBytes]. *)
Fixpoint checkHeaders (expected : gmap string string) (headers : list Header)
    (actual : gmap string string) (headerBytes : Z) : res (gmap string string) :=
  match headers with
  | [] => Ok actual
  | header :: rest =>
      let headerBytes := headerBytes + len (h_Key header) + len (h_Value header) in
      _ ← failIf ((h_Key header == EmptyString) || (64 <? len (h_Key header))
          || (maxHeaderValueLength <? len (h_Value header)) || (maxHeaderBytes <? headerBytes))
          (ErrPlain "kafka header is too long");
      _ ← failIf (bool_decide (is_Some (actual !! h_Key header))) (ErrPlain "kafka header is duplicated");
      let actual := <[h_Key header := h_Value header]> actual in
      _ ← failIf (bool_decide (h_Key header ∈ repeatedHeaders)
          && (default EmptyString (expected !! h_Key header) != h_Value header))
          (ErrPlain "kafka header does not match event body");
      checkHeaders expected rest actual headerBytes
  end.

Definition ValidateHeaders (envelope : Envelope) (headers : list Header) : res unit :=
  _ ← failIf (maxHeaderCount <? Z.of_nat (length headers)) (ErrPlain "kafka record has too many headers");
  let expected := headerMap (HeadersForEnvelope envelope) in
  actual ← checkHeaders expected headers ∅ 0;
  failIf (existsb (fun kv => default EmptyString (actual !! kv.1) != kv.2) (map_to_list expected))
    (ErrPlain "kafka header does not match event body").
End Events.

(** ** The routing contract of constructed events *)

Section Contract.
Context `{UUIDs} `{NetURL} `{SHA256}.

(** A record the contract accepts: a valid envelope, a topic that takes its
    type, and the partition key a consumer expects. *)
Definition event_contract (ev : OutboxEvent) : Prop :=
  ValidateEnvelope (oe_Envelope ev) = Ok tt /\
  TopicAccepts (env_EventType (oe_Envelope ev)) (oe_Topic ev) = true /\
  ExpectedPartitionKey (oe_Envelope ev) = Ok (oe_PartitionKey ev).

(** The events the program constructs.  A dead letter is built from a record
    whose bytes decode to the envelope it carries. *)
Inductive constructed_event (ev : OutboxEvent) : Prop :=
| ce_requested u run attempt :
    NewAgentRunRequested u run attempt = Ok ev -> constructed_event ev
| ce_scheduled u run attempt c b cor cau :
    NewAgentRunScheduled u run attempt c b cor cau = Ok ev -> constructed_event ev
| ce_capacity_wait u run code reason next cor cau :
    NewAgentRunCapacityWait u run code reason next cor cau = Ok ev -> constructed_event ev
| ce_rejected u run code reason cor cau :
    NewAgentRunSchedulingRejected u run code reason cor cau = Ok ev -> constructed_event ev
| ce_cancel u run command :
    NewAgentRunCancelRequested u run command = Ok ev -> constructed_event ev
| ce_retry u run status failure actor command :
    NewAgentRunRetryRequested u run status failure actor command = Ok ev -> constructed_event ev
| ce_dead_letter f u original identity code reason attempts first now :
    ds_Decoded original = Some (ds_Envelope original) ->
    NewDeadLetter f u original identity code reason attempts first now = Ok ev -> constructed_event ev
| ce_malformed f u original tenant identity code reason attempts first now :
    NewMalformedDeadLetter f u original tenant identity code reason attempts first now = Ok ev ->
    constructed_event ev.

Lemma newEvent_ok u ty sv t producer tenant project run aty aid av cor cau payload ev :
  newEvent u ty sv t producer tenant project run aty aid av cor cau payload = Ok ev ->
  ValidateEnvelope (oe_Envelope ev) = Ok tt /\ oe_Topic ev = AgentRunLifecycleTopic /\
  oe_PartitionKey ev = uuidString aid /\ env_EventType (oe_Envelope ev) = ty /\
  env_AggregateID (oe_Envelope ev) = aid /\ env_Payload (oe_Envelope ev) = payload /\
  u = Ok (env_EventID (oe_Envelope ev)) /\ env_TenantID (oe_Envelope ev) = tenant /\
  env_RunID (oe_Envelope ev) = run /\ env_AggregateVersion (oe_Envelope ev) = av /\ oe_CreatedAt ev = t.
Proof. unfold newEvent. intros Hev. inv_ok. done. Qed.

Lemma lifecycle_event_contract u ty sv t producer tenant project run aty aid av cor cau payload ev :
  isLifecycleType ty = true ->
  newEvent u ty sv t producer tenant project run aty aid av cor cau payload = Ok ev ->
  event_contract ev.
Proof.
  intros Hty (Hv & Htopic & Hkey & Het & Hid & _)%newEvent_ok.
  unfold event_contract, TopicAccepts, ExpectedPartitionKey.
  rewrite Het, Hty, Htopic, Hkey, Hid. done.
Qed.

Lemma valid_dead_letter_fields (e : Envelope) p :
  ValidateEnvelope e = Ok tt -> env_EventType e = DeliveryDeadLetteredType ->
  env_Payload e = PayloadDeadLetter p -> validateDeadLetterFields p = Ok tt.
Proof.
  unfold ValidateEnvelope. intros Hv Hty Hp. rewrite Hp in Hv.
  cbn [validatePayload env_EventType envelopeMeta] in Hv. rewrite Hty in Hv.
  apply bind_ok in Hv as ([] & _ & Hv). cbn in Hv. 
  destruct (validateDeadLetterFields p) as [[]|]; [done|].
  unfold failIf in Hv. by destruct (negb _).
Qed.

Lemma dead_letter_contract ev payload key :
  ValidateEnvelope (oe_Envelope ev) = Ok tt ->
  env_EventType (oe_Envelope ev) = DeliveryDeadLetteredType ->
  env_Payload (oe_Envelope ev) = PayloadDeadLetter payload ->
  match dl_OriginalEnvelope payload with
  | None => key = uuidString (env_AggregateID (oe_Envelope ev))
  | Some (Some original) =>
      key = uuidString (env_AggregateID original) /\ ValidateEnvelope original = Ok tt
  | Some None => False
  end ->
  event_contract (ev <| oe_Topic := AgentRunDLQTopic |> <| oe_PartitionKey := key |>).
Proof.
  intros Hv Hty Hp Hk. unfold event_contract, TopicAccepts, ExpectedPartitionKey; simpl.
  rewrite Hty, Hp. split_and!; [done..|].
  simpl. destruct (dl_OriginalEnvelope payload) as [[original|]|]; [|done|by subst].
  destruct Hk as [-> Hov]. unfold DecodeEnvelope. by rewrite Hov.
Qed.

(** Every event the program constructs satisfies the routing contract: its
    envelope is valid, its topic accepts its type and its partition key is the one
    consumers derive from the envelope, dead letters included. *)
Lemma constructed_event_contract ev : constructed_event ev -> event_contract ev.
Proof.
  destruct 1 as [u run att Hev|u run att c b cor cau Hev|u run code reason next cor cau Hev
    |u run code reason cor cau Hev|u run cmd Hev|u run st fl actor cmd Hev
    |f u o i code reason n first now Hdec Hev|f u o tenant i code reason n first now Hev];
    try (by eapply lifecycle_event_contract in Hev).
  - unfold NewDeadLetter in Hev. inv_ok. apply newEvent_ok in H4 as (Hv & _ & _ & Hty & _ & Hp & _).
    eapply dead_letter_contract; try done. simpl. rewrite Hdec.
    case_bool_decide as Hval; [|done].
    apply (valid_dead_letter_fields _ _ Hv Hty) in Hp. unfold validateDeadLetterFields in Hp.
    cbn [dl_OriginalEnvelope dl_RawFingerprint] in Hp. rewrite bool_decide_eq_true_2 in Hp by done.
    inv_ok. done.
  - unfold NewMalformedDeadLetter in Hev. inv_ok.
    apply newEvent_ok in H3 as (Hv & _ & _ & Hty & Hid & Hp & _).
    eapply dead_letter_contract; try done. simpl. by rewrite Hid.
Qed.

End Contract.

(** ** Headers repeat the body *)

Section Headers.
Context `{UUIDs} `{NetURL} `{SHA256}.

Definition eventTypes : list string :=
  [AgentRunRequestedType; AgentRunScheduledType; AgentRunCapacityWaitType; AgentRunFailedType;
   AgentRunCancelRequestedType; AgentRunRetryRequestedType; DeliveryDeadLetteredType].

Lemma valid_envelope_header (e : Envelope) :
  ValidateEnvelope e = Ok tt -> validateEnvelopeHeader (envelopeMeta e) = Ok tt.
Proof.
  unfold ValidateEnvelope. destruct (env_Payload e); cbn [validatePayload];
    intros ([] & Hh & _)%bind_ok; done.
Qed.

Lemma valid_envelope_type (e : Envelope) :
  ValidateEnvelope e = Ok tt -> env_EventType e ∈ eventTypes.
Proof.
  unfold ValidateEnvelope. destruct (env_Payload e); cbn [validatePayload env_EventType envelopeMeta];
    intros ([] & _ & Hv)%bind_ok; revert Hv; try done;
    repeat case_bool_decide; try done; intros _; unfold eventTypes; set_solver.
Qed.

Lemma traceparent_length s : traceparentPattern s = true -> len s = 55.
Proof.
  unfold traceparentPattern, len. rewrite <-length_bytes.
  pose proof (length_splitOn hyphenByte (bytes s)) as Hl.
  destruct (splitOn hyphenByte (bytes s)) as [|a [|b [|c [|d [|]]]]]; try done.
  intros Hp. reflect_bools. simpl in Hl.
  repeat match goal with H : (_ =? _)%nat = true |- _ => apply Nat.eqb_eq in H end. lia.
Qed.

Lemma event_type_facts t : t ∈ eventTypes -> len t <= 31 /\ eventMajor t = Ok 1.
Proof.
  assert (Hall : Forall (fun t => len t <= 31 /\ eventMajor t = Ok 1) eventTypes).
  { repeat (apply Forall_cons; split; [split; [by vm_compute|by vm_compute]|]). apply Forall_nil_2. }
  rewrite Forall_forall in Hall. apply Hall.
Qed.

Lemma valid_envelope_lengths (e : Envelope) :
  ValidateEnvelope e = Ok tt ->
  len (env_EventType e) <= 31 /\ env_SchemaVersion e = 1 /\
  len (env_CorrelationID e) <= 255 /\ len (env_CausationID e) <= 255 /\ len (env_RequestID e) <= 128 /\
  len (env_Traceparent e) <= 55 /\ len (env_Tracestate e) <= 512.
Proof.
  intros Hv. destruct (event_type_facts _ (valid_envelope_type e Hv)) as [Hlen Hmajor].
  apply valid_envelope_header in Hv. unfold validateEnvelopeHeader in Hv.
  rewrite !bind_failIf in Hv.
  cbn [envelopeMeta env_EventType env_SchemaVersion env_CorrelationID env_CausationID env_RequestID
       env_Traceparent env_Tracestate] in Hv.
  rewrite Hmajor in Hv.
  repeat match type of Hv with (if ?b then _ else _) = _ => destruct b eqn:?; [done|] end.
  apply failIf_ok in Hv.
  unfold maxHeaderValueLength in *. reflect_bools.
  split_and!; try done; try lia.
  destruct (decide (env_Traceparent e = EmptyString)) as [->|Hne]; [by vm_compute|].
  rewrite traceparent_length; [lia|]. cases_bools; congruence.
Qed.

(** *** The loop of [ValidateHeaders] on the headers it expects *)

Definition headerSize (h : Header) : Z := len (h_Key h) + len (h_Value h).

Lemma checkHeaders_complete expected hs actual n :
  NoDup (h_Key <$> hs) -> (forall h, h ∈ hs -> actual !! h_Key h = None) ->
  (forall h, h ∈ hs -> h_Key h <> EmptyString /\ len (h_Key h) <= 64 /\ len (h_Value h) <= 512 /\
     (h_Key h ∈ repeatedHeaders -> expected !! h_Key h = Some (h_Value h))) ->
  0 <= n -> n + sumZ headerSize hs <= 4096 ->
  checkHeaders expected hs actual n = Ok (foldl (fun m h => <[h_Key h := h_Value h]> m) actual hs).
Proof.
  revert actual n. induction hs as [|h hs IH]; intros actual n Hnd Hfresh Hok Hn Hsum; [done|].
  cbn [fmap list_fmap] in Hnd. apply NoDup_cons in Hnd as [Hnin Hnd]. simpl in *.
  destruct (Hok h ltac:(set_solver)) as (Hk & Hkl & Hvl & Hexp).
  assert (0 <= sumZ headerSize hs).
  { apply sumZ_nonneg. intros h' _. unfold headerSize, len. lia. }
  unfold headerSize at 1 in Hsum.
  rewrite !bind_failIf, bool_decide_eq_false_2 by done. unfold maxHeaderValueLength, maxHeaderBytes.
  replace (64 <? len (h_Key h)) with false by lia. replace (512 <? len (h_Value h)) with false by lia.
  replace (4096 <? _) with false by lia. cbn [orb].
  rewrite (Hfresh h) by set_solver. rewrite bool_decide_eq_false_2 by (by intros [? ?]).
  replace (_ && _) with false; [apply IH|].
  - done.
  - intros h' Hh'. rewrite lookup_insert_ne; [apply Hfresh; set_solver|].
    intros Heq. apply Hnin. rewrite Heq. by apply list_elem_of_fmap_2.
  - intros h' Hh'. apply Hok. set_solver.
  - unfold len in *. lia.
  - lia.
  - case_bool_decide as Hrep; [|done]. rewrite (Hexp Hrep). cbn [default]. by rewrite bool_decide_eq_true_2.
Qed.

Lemma foldl_header_lookup hs (m : gmap string string) k :
  (forall h, h ∈ hs -> h_Key h <> k) -> foldl (fun m h => <[h_Key h := h_Value h]> m) m hs !! k = m !! k.
Proof.
  revert m. induction hs as [|h hs IH]; intros m Hk; simpl; [done|].
  rewrite IH by set_solver. apply lookup_insert_ne. set_solver.
Qed.

Lemma headerMap_lookup hs h :
  NoDup (h_Key <$> hs) -> h ∈ hs -> headerMap hs !! h_Key h = Some (h_Value h).
Proof.
  unfold headerMap. generalize (∅ : gmap string string).
  induction hs as [|h' hs IH]; intros m Hnd Hin; [set_solver|].
  cbn [fmap list_fmap] in Hnd. apply NoDup_cons in Hnd as [Hnin Hnd]. simpl.
  apply elem_of_cons in Hin as [->|Hin]; [|auto].
  rewrite foldl_header_lookup; [apply lookup_insert_eq|].
  intros h'' Hh'' Heq. apply Hnin. rewrite <-Heq. by apply list_elem_of_fmap_2.
Qed.

Lemma HeadersForEnvelope_keys (e : Envelope) : NoDup (h_Key <$> HeadersForEnvelope e).
Proof.
  unfold HeadersForEnvelope. rewrite !filter_cons, filter_nil.
  repeat case_decide; apply (bool_decide_unpack _); vm_compute; exact I.
Qed.

Lemma HeadersForEnvelope_bounds (e : Envelope) :
  ValidateEnvelope e = Ok tt -> isUUID (env_EventID e) -> isUUID (env_TenantID e) ->
  Forall (fun h => h_Key h <> EmptyString /\ len (h_Key h) <= 64 /\ len (h_Value h) <= 512)
    (HeadersForEnvelope e) /\
  sumZ headerSize (HeadersForEnvelope e) <= 1407 /\ (length (HeadersForEnvelope e) <= 9)%nat.
Proof.
  intros Hv Hid Hten. destruct (valid_envelope_lengths e Hv) as (Hty & Hsv & Hco & Hca & Hrq & Htp & Hts).
  assert (len (uuidString (env_EventID e)) = 36) by (unfold len; by rewrite uuidString_length).
  assert (len (uuidString (env_TenantID e)) = 36) by (unfold len; by rewrite uuidString_length).
  assert (len (Itoa (env_SchemaVersion e)) = 1) by (by rewrite Hsv).
  unfold HeadersForEnvelope. rewrite !filter_cons, filter_nil.
  repeat case_decide; cbn [app];
    (split; [repeat (apply Forall_cons; split); try apply Forall_nil_2; split_and!;
             first [done | cbn [h_Key h_Value]; first [lia | by vm_compute]]
            |split; [unfold headerSize; cbn [sumZ foldr h_Key h_Value];
                     repeat match goal with |- context [len (String ?c ?s)] =>
                       let n := eval vm_compute in (len (String c s)) in
                       change (len (String c s)) with n end; lia
                    |simpl; lia]]).
Qed.

Lemma HeadersForEnvelope_repeated (e : Envelope) h : h ∈ HeadersForEnvelope e -> h_Key h ∈ repeatedHeaders.
Proof.
  unfold HeadersForEnvelope, repeatedHeaders. rewrite elem_of_app, list_elem_of_filter.
  intros [Hin|[_ Hin]]; repeat (apply elem_of_cons in Hin as [->|Hin]; [set_solver|]); by apply not_elem_of_nil in Hin.
Qed.

(** Headers a delivery adds under other names are accepted beside them. *)
Lemma headers_accepted (e : Envelope) (extra : list Header) :
  ValidateEnvelope e = Ok tt -> isUUID (env_EventID e) -> isUUID (env_TenantID e) ->
  NoDup (h_Key <$> extra) -> (length extra <= 23)%nat -> sumZ headerSize extra <= 2689 ->
  (forall h, h ∈ extra -> h_Key h ∉ repeatedHeaders /\ h_Key h <> EmptyString /\ len (h_Key h) <= 64 /\ len (h_Value h) <= 512) ->
  ValidateHeaders e (HeadersForEnvelope e ++ extra) = Ok tt.
Proof.
  intros Hv Hid Hten Hndx Hlx Hsx Hx. destruct (HeadersForEnvelope_bounds e Hv Hid Hten) as (Hall & Hsum & Hlen).
  pose proof (HeadersForEnvelope_keys e) as Hnd. rewrite Forall_forall in Hall.
  unfold ValidateHeaders, maxHeaderCount. rewrite bind_failIf, length_app.
  rewrite (proj2 (Z.ltb_ge 32 _)) by lia.
  rewrite checkHeaders_complete, bind_Ok; [|..|done|].
  - apply failIf_ok. apply not_true_iff_false. rewrite existsb_exists, foldl_app.
    intros ([k v] & Hin%list_elem_of_In & Hne). apply elem_of_map_to_list in Hin.
    unfold headerMap in Hin. cbn [fst snd] in Hne. rewrite foldl_header_lookup, Hin in Hne.
    { by rewrite bool_decide_eq_true_2 in Hne. }
    intros h Hh <-. destruct (Hx h Hh) as [Hnot _]. apply Hnot.
    destruct (decide (h_Key h ∈ h_Key <$> HeadersForEnvelope e)) as [Hk|Hk].
    + apply list_elem_of_fmap in Hk as (h' & -> & Hh'). by eapply HeadersForEnvelope_repeated.
    + rewrite foldl_header_lookup in Hin; [done|]. intros h' Hh' Heq. apply Hk. rewrite <-Heq. by apply list_elem_of_fmap_2.
  - rewrite fmap_app. apply NoDup_app. split_and!; [done| |done]. intros k (h & -> & Hh)%list_elem_of_fmap Hin.
    apply list_elem_of_fmap in Hin as (h' & Heq & Hh'). destruct (Hx h' Hh') as [Hnot _]. apply Hnot. rewrite <-Heq.
    by eapply HeadersForEnvelope_repeated.
  - intros h Hh. apply lookup_empty.
  - intros h [Hh|Hh]%elem_of_app.
    + destruct (Hall h Hh) as (?&?&?). split_and!; try done. intros _. by apply headerMap_lookup.
    + destruct (Hx h Hh) as (?&?&?&?). split_and!; try done.
  - rewrite sumZ_app. lia.
Qed.

End Headers.

(** ** Examples *)

Definition exampleNetURL : NetURL :=
  {| urlParseScheme := fun s => if HasPrefix s "s3://" then Some "s3" else None |}.

Definition exampleSHA256 : SHA256 :=
  {| sha256Hex := fun _ => "0000000000000000000000000000000000000000000000000000000000000000";
     sha256Hex_length := fun _ => eq_refl; sha256Hex_digits := fun _ => eq_refl |}.

Definition example_request_run : AgentRun :=
  example_run <| run_ID := exampleV7 11 |> <| run_TenantID := exampleV7 7 |>
    <| run_ProjectID := exampleV7 8 |> <| run_Status := AgentRunQueued |>
    <| run_FailureCategory := FailureUnset |> <| run_CompletedAt := None |> <| run_Version := 1 |>.

Definition example_event : res OutboxEvent :=
  @NewAgentRunRequested rfcUUIDs exampleNetURL (Ok (exampleV7 99)) example_request_run example_attempt.
