(* ===== verification/Intent.v ===== *)
(** * The execution intent of a run (internal/domain/execution_intent.go,
      internal/config/execution_intent.go)

    The desired state the scheduler freezes when it assigns a cluster: the
    trusted template loaded from the environment, its resolution against one
    run, and the validation the result passes before it is stored and again
    before it is projected to Kubernetes. *)

From S2P Require Import Prelude AgentRun.

(** ** internal/domain/execution_intent.go *)

Definition atByte : Ascii.ascii := Ascii.ascii_of_nat 64.
Definition colonByte : Ascii.ascii := Ascii.ascii_of_nat 58.
Definition plus (c : Ascii.ascii) : bool := byte_is 43 c.

(** [^[a-z0-9][a-z0-9._-]{0,119}$] *)
Definition desiredRuntimePattern (s : string) : bool :=
  matchClass lowerAlnum (fun c => lowerAlnum c || dot c || underscore c || hyphen c) 0 119 s.

(** [^[a-z0-9][a-z0-9._-]{0,62}$] *)
Definition desiredProfilePattern (s : string) : bool :=
  matchClass lowerAlnum (fun c => lowerAlnum c || dot c || underscore c || hyphen c) 0 62 s.

(** [^[a-z0-9][a-z0-9./:_-]*@sha256:[a-f0-9]{64}$]: neither side of the only
    at sign can hold another one. *)
Definition desiredDigestImagePattern (s : string) : bool :=
  match splitOn atByte (bytes s) with
  | [first :: name; digest] =>
      lowerAlnum first
      && forallb (fun c => lowerAlnum c || dot c || slash c || colon c || underscore c || hyphen c) name
      && hasPrefixBytes (bytes "sha256:") digest
      && forallb lowerHex (drop 7 digest) && (length (drop 7 digest) =? 64)%nat
  | _ => false
  end.

(** [[a-z0-9]([-a-z0-9]*[a-z0-9])?] *)
Definition dnsLabel (l : list Ascii.ascii) : bool :=
  match l, last l with
  | first :: _, Some final =>
      lowerAlnum first && lowerAlnum final && forallb (fun c => lowerAlnum c || hyphen c) l
  | _, _ => false
  end.

(** [^label(\.label)*$]: a label holds no dot. *)
Definition desiredLocalReferencePattern (s : string) : bool :=
  forallb dnsLabel (splitOn dotByte (bytes s)).

(** The bytes before and after the first separator ([None]: there is none). *)
Fixpoint cutBytes (sep : Ascii.ascii) (l : list Ascii.ascii) : option (list Ascii.ascii * list Ascii.ascii) :=
  match l with
  | [] => None
  | c :: rest =>
      if Ascii.eqb c sep then Some ([], rest)
      else match cutBytes sep rest with
           | Some (before, after) => Some (c :: before, after)
           | None => None
           end
  end.

(** [^[a-z][a-z0-9+.-]{1,31}://[^[:space:]]+$]: the scheme holds no colon. *)
Definition desiredTaskReferencePattern (s : string) : bool :=
  match cutBytes colonByte (bytes s) with
  | Some (first :: scheme, after) =>
      lowerAlpha first
      && forallb (fun c => lowerAlnum c || plus c || dot c || hyphen c) scheme
      && (1 <=? length scheme)%nat && (length scheme <=? 31)%nat
      && hasPrefixBytes (bytes "//") after
      && forallb (fun c => negb (space1 c)) (drop 2 after) && (1 <=? length (drop 2 after))%nat
  | _ => false
  end.

Definition validDesiredReference (reference : string) : bool :=
  (len reference <=? 253) && desiredLocalReferencePattern reference.

Definition validDesiredReferences (references : list string) : bool :=
  if 32 <? Z.of_nat (length references) then false
  else uniqueLoop validDesiredReference ∅ references.

(** The loop over the retryable categories. *)
Fixpoint checkRetryCategories (seen categories : list FailureCategory) : res unit :=
  match categories with
  | [] => Ok tt
  | category :: rest =>
      _ ← failIf ((category != FailureTransientDependency) && (category != FailureInternal))
          (ErrPlain "AgentRun desired retry category is invalid");
      _ ← failIf (bool_decide (category ∈ seen)) (ErrPlain "AgentRun desired retry category is duplicated");
      checkRetryCategories (category :: seen) rest
  end.

(** The one condition that guards the scalar fields. *)
Definition desiredScalarsInvalid (desired : AgentRunDesiredState) (attempt : Z) : bool :=
  (512 <? len (ds_RunnerImage desired))
  || negb (desiredDigestImagePattern (ds_RunnerImage desired))
  || negb (desiredRuntimePattern (ds_Runtime desired))
  || negb (desiredProfilePattern (ds_ExecutionProfile desired))
  || (2048 <? len (ds_TaskReference desired)) || negb (desiredTaskReferencePattern (ds_TaskReference desired))
  || (attempt <? 1) || (10 <? attempt) || (ds_MaxAttempts desired <? attempt) || (10 <? ds_MaxAttempts desired)
  || (ds_TimeoutSeconds desired <? 1) || (86400 <? ds_TimeoutSeconds desired)
  || (ds_InitialBackoffSeconds desired <? 1) || (3600 <? ds_InitialBackoffSeconds desired)
  || (ds_MaxBackoffSeconds desired <? ds_InitialBackoffSeconds desired) || (21600 <? ds_MaxBackoffSeconds desired)
  || (ds_CPUMillis desired <? 1) || (128000 <? ds_CPUMillis desired)
  || (ds_MemoryMiB desired <? 1) || (524288 <? ds_MemoryMiB desired)
  || (ds_CPULimitMillis desired <? ds_CPUMillis desired) || (128000 <? ds_CPULimitMillis desired)
  || (ds_MemoryLimitMiB desired <? ds_MemoryMiB desired) || (524288 <? ds_MemoryLimitMiB desired)
  || (ds_WorkspaceSizeGiB desired <? 1) || (2048 <? ds_WorkspaceSizeGiB desired)
  || ((ds_StorageClassName desired != EmptyString) && negb (validDesiredReference (ds_StorageClassName desired)))
  || ((ds_WorkspaceRetentionPolicy desired != "Delete") && (ds_WorkspaceRetentionPolicy desired != "Retain"))
  || ((ds_NetworkProfile desired != "Isolated") && (ds_NetworkProfile desired != "RestrictedEgress"))
  || negb (validDesiredReference (ds_ArtifactDestinationRef desired))
  || ((ds_NetworkProfile desired == "Isolated") && (ds_AllowedDestinationsRef desired != EmptyString))
  || ((ds_NetworkProfile desired == "RestrictedEgress")
      && negb (validDesiredReference (ds_AllowedDestinationsRef desired))).

Definition Desired_Validate (desired : AgentRunDesiredState) (attempt : Z) : res unit :=
  _ ← failIf (desiredScalarsInvalid desired attempt) (ErrPlain "AgentRun desired state is invalid");
  _ ← checkRetryCategories [] (ds_RetryableFailureCategories desired);
  failIf (negb (validDesiredReferences (ds_ConfigurationRefs desired))
          || negb (validDesiredReferences (ds_SecretRefs desired)))
    (ErrPlain "AgentRun desired references are invalid").

(** ** internal/config/execution_intent.go *)

(** [immutableImagePattern], [objectReferencePattern] and [executionRuntimePattern]
    are the expressions of the domain package, written a second time. *)
Definition immutableImagePattern := desiredDigestImagePattern.
Definition objectReferencePattern := desiredLocalReferencePattern.
Definition executionRuntimePattern := desiredRuntimePattern.

Record ExecutionIntentConfig := {
  ei_RunnerImages : gmap string string;
  ei_WorkspaceSizeGiB : Z;
  ei_StorageClassName : string;
  ei_ArtifactDestinationRef : string;
  ei_ConfigurationRefs : list string;
  ei_SecretRefs : list string;
}.

Definition validObjectReference (reference : string) : bool :=
  (len reference <=? 253) && objectReferencePattern reference.

(** *** [sort.Strings] *)

Definition string_le (s t : string) : Prop := string_lt t s = false.

#[export] Instance string_le_dec : RelDecision string_le.
Proof. intros s t. unfold string_le. apply _. Defined.

Definition sortStrings (l : list string) : list string := merge_sort string_le l.

(** The loop of [referenceList]: the trimmed parts, or the first error. *)
Fixpoint checkReferences (seen parts : list string) : res (list string) :=
  match parts with
  | [] => Ok []
  | part :: rest =>
      let part := TrimSpace part in
      _ ← failIf (negb (validObjectReference part)) (ErrPlain "invalid DNS subdomain name");
      _ ← failIf (bool_decide (part ∈ seen)) (ErrPlain "duplicate reference");
      checked ← checkReferences (part :: seen) rest;
      Ok (part :: checked)
  end.

Section Load.
(** [lookup] reads the environment; [unmarshalImages] is the result of decoding
    the value of the runner images as a JSON object of strings. *)
Context (lookup : string -> option string) (unmarshalImages : string -> option (gmap string string)).

Definition referenceList (name : string) : res (list string) :=
  match lookup name with
  | None => Ok []
  | Some value =>
      if TrimSpace value == EmptyString then Ok []
      else
        let parts := String.string_of_list_ascii <$> splitOn commaByte (bytes value) in
        _ ← failIf (32 <? Z.of_nat (length parts)) (ErrPlain "must contain at most 32 references");
        checked ← checkReferences [] parts;
        Ok (sortStrings checked)
  end.

Definition validRunnerImages (images : gmap string string) : bool :=
  forallb (fun '(runtime, image) =>
    negb (negb (executionRuntimePattern runtime) || (512 <? len image) || negb (immutableImagePattern image)))
    (map_to_list images).

Definition loadExecutionIntent : res ExecutionIntentConfig :=
  images ← match lookup "AGENTFORGE_SCHEDULER_RUNNER_IMAGES" with
           | None => Err (ErrPlain "AGENTFORGE_SCHEDULER_RUNNER_IMAGES is required")
           | Some rawImages =>
               _ ← failIf (TrimSpace rawImages == EmptyString)
                   (ErrPlain "AGENTFORGE_SCHEDULER_RUNNER_IMAGES is required");
               match unmarshalImages rawImages with
               | None => Err (ErrPlain "AGENTFORGE_SCHEDULER_RUNNER_IMAGES must be a non-empty JSON object")
               | Some images =>
                   _ ← failIf (images == ∅)
                       (ErrPlain "AGENTFORGE_SCHEDULER_RUNNER_IMAGES must be a non-empty JSON object");
                   Ok images
               end
           end;
  _ ← failIf (negb (validRunnerImages images))
      (ErrPlain "AGENTFORGE_SCHEDULER_RUNNER_IMAGES contains invalid runtime or digest");
  size ← match lookup "AGENTFORGE_SCHEDULER_WORKSPACE_SIZE_GIB" with
         | None => Err (ErrPlain "AGENTFORGE_SCHEDULER_WORKSPACE_SIZE_GIB is required")
         | Some workspace =>
             match Atoi (TrimSpace workspace) with
             | Err _ => Err (ErrPlain "AGENTFORGE_SCHEDULER_WORKSPACE_SIZE_GIB must be between 1 and 2048")
             | Ok size => Ok size
             end
         end;
  _ ← failIf ((size <? 1) || (2048 <? size))
      (ErrPlain "AGENTFORGE_SCHEDULER_WORKSPACE_SIZE_GIB must be between 1 and 2048");
  let storage := default EmptyString (TrimSpace <$> lookup "AGENTFORGE_SCHEDULER_STORAGE_CLASS") in
  _ ← failIf ((storage != EmptyString) && negb (validObjectReference storage))
      (ErrPlain "AGENTFORGE_SCHEDULER_STORAGE_CLASS must be a DNS subdomain name");
  let artifact := TrimSpace (default EmptyString (lookup "AGENTFORGE_SCHEDULER_ARTIFACT_DESTINATION_REF")) in
  _ ← failIf (bool_decide (lookup "AGENTFORGE_SCHEDULER_ARTIFACT_DESTINATION_REF" = None)
              || negb (validObjectReference artifact))
      (ErrPlain "AGENTFORGE_SCHEDULER_ARTIFACT_DESTINATION_REF must be a DNS subdomain name");
  configurationRefs ← referenceList "AGENTFORGE_SCHEDULER_CONFIGURATION_REFS";
  secretRefs ← referenceList "AGENTFORGE_SCHEDULER_SECRET_REFS";
  Ok {| ei_RunnerImages := images; ei_WorkspaceSizeGiB := size; ei_StorageClassName := storage;
        ei_ArtifactDestinationRef := artifact; ei_ConfigurationRefs := configurationRefs;
        ei_SecretRefs := secretRefs |}.
End Load.

Definition DesiredState (configuration : ExecutionIntentConfig) (run : AgentRun) (profile : string)
    : res AgentRunDesiredState :=
  match ei_RunnerImages configuration !! run_Runtime run with
  | None => Err (ErrPlain "no trusted runner image is configured for runtime")
  | Some image =>
      Ok {| ds_RunnerImage := image; ds_Runtime := run_Runtime run; ds_ExecutionProfile := profile;
            ds_TaskReference := run_PromptReference run; ds_TimeoutSeconds := run_TimeoutSeconds run;
            ds_MaxAttempts := run_MaxAttempts run; ds_InitialBackoffSeconds := 5; ds_MaxBackoffSeconds := 300;
            ds_RetryableFailureCategories := [FailureTransientDependency; FailureInternal];
            ds_CPUMillis := run_CPUMillis run; ds_MemoryMiB := run_MemoryMiB run;
            ds_CPULimitMillis := run_CPUMillis run; ds_MemoryLimitMiB := run_MemoryMiB run;
            ds_WorkspaceSizeGiB := ei_WorkspaceSizeGiB configuration;
            ds_StorageClassName := ei_StorageClassName configuration;
            ds_WorkspaceRetentionPolicy := "Delete"; ds_NetworkProfile := "Isolated";
            ds_AllowedDestinationsRef := EmptyString;
            ds_ArtifactDestinationRef := ei_ArtifactDestinationRef configuration;
            ds_ConfigurationRefs := ei_ConfigurationRefs configuration;
            ds_SecretRefs := ei_SecretRefs configuration; ds_DeployOnSuccess := false |}
  end.

(** ** Loaded templates only produce valid intents *)

Lemma checkReferences_ok seen parts l :
  checkReferences seen parts = Ok l ->
  length l = length parts /\ NoDup l /\ Forall (fun r => validDesiredReference r = true /\ r ∉ seen) l.
Proof.
  revert seen l. induction parts as [|part parts IH]; intros seen l; cbn [checkReferences].
  - intros <-%Ok_inj. auto using NoDup_nil_2.
  - rewrite !bind_failIf. destruct (validObjectReference _) eqn:Hv; [|done].
    case_bool_decide as Hs; [done|]. cbn [negb].
    intros (l' & (Hlen & Hnd & Hall)%IH & <-%Ok_inj)%bind_ok.
    rewrite Forall_forall in Hall. simpl. split_and!; [by rewrite Hlen| |].
    + apply NoDup_cons. split; [|done]. intros Hin. destruct (Hall _ Hin) as [_ Hn]. set_solver.
    + apply Forall_cons. split; [done|]. apply Forall_forall. intros r Hr. destruct (Hall _ Hr). set_solver.
Qed.

Lemma referenceList_valid lookup name l :
  referenceList lookup name = Ok l -> validDesiredReferences l = true.
Proof.
  unfold referenceList. destruct (lookup name) as [value|]; [|by intros <-%Ok_inj].
  case_bool_decide; [by intros <-%Ok_inj|].
  rewrite bind_failIf. case_match eqn:Hlen; [done|].
  intros (checked & (Hl & Hnd & Hall)%checkReferences_ok & <-%Ok_inj)%bind_ok.
  unfold sortStrings, validDesiredReferences. pose proof (merge_sort_Permutation string_le checked) as Hp.
  rewrite (Permutation_length Hp), Hl, Hlen. apply uniqueLoop_empty. rewrite Hp. split; [|done].
  eapply Forall_impl; [exact Hall|]. naive_solver.
Qed.

(** What the loader guarantees about the template. *)
Record template_ok (cfg : ExecutionIntentConfig) : Prop := {
  tpl_images : forall runtime image, ei_RunnerImages cfg !! runtime = Some image ->
    desiredRuntimePattern runtime = true /\ len image <= 512 /\ desiredDigestImagePattern image = true;
  tpl_size : 1 <= ei_WorkspaceSizeGiB cfg <= 2048;
  tpl_storage : ei_StorageClassName cfg = EmptyString \/ validDesiredReference (ei_StorageClassName cfg) = true;
  tpl_artifact : validDesiredReference (ei_ArtifactDestinationRef cfg) = true;
  tpl_config : validDesiredReferences (ei_ConfigurationRefs cfg) = true;
  tpl_secrets : validDesiredReferences (ei_SecretRefs cfg) = true;
}.

Lemma validRunnerImages_spec images runtime image :
  validRunnerImages images = true -> images !! runtime = Some image ->
  desiredRuntimePattern runtime = true /\ len image <= 512 /\ desiredDigestImagePattern image = true.
Proof.
  unfold validRunnerImages. rewrite forallb_forall. intros Hall Hl%elem_of_map_to_list%list_elem_of_In.
  specialize (Hall _ Hl). simpl in Hall. reflect_bools. split_and!; try done. lia.
Qed.

Lemma loadExecutionIntent_ok lookup unmarshal cfg :
  loadExecutionIntent lookup unmarshal = Ok cfg -> template_ok cfg.
Proof.
  unfold loadExecutionIntent.
  intros (images & _ & (u1 & Himg%failIf_ok & (size & _ & (u2 & Hsize%failIf_ok & (u3 & Hst%failIf_ok &
    (u4 & Har%failIf_ok & (cr & Hcr%referenceList_valid & (sr & Hsr%referenceList_valid & <-%Ok_inj)%bind_ok)
    %bind_ok)%bind_ok)%bind_ok)%bind_ok)%bind_ok)%bind_ok)%bind_ok.
  reflect_bools. split; simpl; try done.
  - intros runtime image. by apply validRunnerImages_spec.
  - lia.
Qed.

(** The request of a run: what no transition changes. *)
Definition run_request (run : AgentRun) :=
  (run_Runtime run, run_PromptReference run, run_CPUMillis run, run_MemoryMiB run, run_TimeoutSeconds run,
   run_MaxAttempts run).

Lemma run_moves_request run run' : rtc run_moves run run' -> run_request run' = run_request run.
Proof.
  induction 1 as [|x y z Hxy _ IH]; [done|]. rewrite IH.
  destruct (run_moves_step _ _ Hxy) as [now Hstep]. by destruct Hstep.
Qed.

Record request_bounds (run : AgentRun) : Prop := {
  rb_prompt : len (run_PromptReference run) <= 2048;
  rb_cpu : 1 <= run_CPUMillis run <= 128000;
  rb_memory : 1 <= run_MemoryMiB run <= 524288;
  rb_timeout : 1 <= run_TimeoutSeconds run <= 86400;
  rb_attempts : 1 <= run_AttemptCount run <= run_MaxAttempts run;
  rb_max : run_MaxAttempts run <= 10;
}.

Lemma accepted_run_bounds newV7 input now run0 run :
  NewAgentRun newV7 input now = Ok run0 -> rtc run_moves run0 run -> request_bounds run.
Proof.
  intros Hnew Hrtc. pose proof (run_moves_inv _ _ (NewAgentRun_inv _ _ _ _ Hnew) Hrtc) as [].
  apply run_moves_request in Hrtc. unfold run_request in Hrtc.
  apply NewAgentRun_ok in Hnew as (id & _ & [] & ->). simpl in *.
  assert (run_PromptReference run = TrimSpace (in_PromptReference input)) as Hpr by congruence.
  assert (run_CPUMillis run = in_CPUMillis input) by congruence.
  assert (run_MemoryMiB run = in_MemoryMiB input) by congruence.
  assert (run_TimeoutSeconds run = in_TimeoutSeconds input) by congruence.
  split; [rewrite Hpr|..]; lia.
Qed.

(** a loaded template is always fit for use: for a run accepted by
    [NewAgentRun], at any point of its life, whose runtime has a trusted image,
    the resolved intent exists and passes the validation applied before storage
    and before projection exactly when the execution profile and the task
    reference are well formed; no other field can make it fail. *)
Theorem loaded_intent_valid lookup unmarshal cfg newV7 input now run0 run profile :
  loadExecutionIntent lookup unmarshal = Ok cfg ->
  NewAgentRun newV7 input now = Ok run0 -> rtc run_moves run0 run ->
  is_Some (ei_RunnerImages cfg !! run_Runtime run) ->
  exists desired, DesiredState cfg run profile = Ok desired /\
    ds_TaskReference desired = run_PromptReference run /\ ds_Runtime desired = run_Runtime run /\
    is_ok (Desired_Validate desired (run_AttemptCount run)) =
      desiredProfilePattern profile && desiredTaskReferencePattern (run_PromptReference run).
Proof.
  intros [] %loadExecutionIntent_ok Hnew Hrtc [image Himg].
  destruct (accepted_run_bounds _ _ _ _ _ Hnew Hrtc). destruct (tpl_images0 _ _ Himg) as (Hrt & Hl & Hdig).
  unfold DesiredState. rewrite Himg. eexists. split_and!; [reflexivity..|].
  unfold Desired_Validate. rewrite bind_failIf. cbn [ds_RetryableFailureCategories ds_ConfigurationRefs ds_SecretRefs].
  match goal with |- context [checkRetryCategories [] ?l] =>
    replace (checkRetryCategories [] l) with (Ok tt) by reflexivity end.
  rewrite tpl_config0, tpl_secrets0. cbn [negb orb].
  match goal with |- context [if ?b then _ else _] =>
    assert (Hb : b = negb (desiredProfilePattern profile && desiredTaskReferencePattern (run_PromptReference run)))
  end.
  { unfold desiredScalarsInvalid. cbn -[len desiredProfilePattern desiredRuntimePattern desiredDigestImagePattern
      desiredTaskReferencePattern validDesiredReference bool_decide].
    rewrite Hrt, Hdig, tpl_artifact0.
    replace ((ei_StorageClassName cfg != EmptyString) && negb (validDesiredReference (ei_StorageClassName cfg)))
      with false by (destruct tpl_storage0 as [->| ->]; [by rewrite bool_decide_eq_true_2|by rewrite andb_false_r]).
    repeat match goal with |- context [?a <? ?b] => replace (a <? b) with false by lia end.
    rewrite !bool_decide_eq_true_2 by done.
    repeat match goal with |- context [bool_decide (String ?a ?b = ?s)] =>
      rewrite (bool_decide_eq_false_2 (String a b = s)) by done end.
    by destruct (desiredProfilePattern profile), (desiredTaskReferencePattern _). }
  rewrite Hb. by destruct (desiredProfilePattern profile && _).
Qed.

(** ** Examples *)

Definition example_digest : string :=
  "registry.local/agent:1@sha256:0123456789abcdef0123456789abcdef0123456789abcdef0123456789abcdef".

Definition example_env (name : string) : option string :=
  if name == "AGENTFORGE_SCHEDULER_RUNNER_IMAGES" then Some "{...}"
  else if name == "AGENTFORGE_SCHEDULER_WORKSPACE_SIZE_GIB" then Some " 10 "
  else if name == "AGENTFORGE_SCHEDULER_ARTIFACT_DESTINATION_REF" then Some "artifacts.default"
  else if name == "AGENTFORGE_SCHEDULER_SECRET_REFS" then Some "model-key, git-token"
  else None.

Definition example_unmarshal (raw : string) : option (gmap string string) :=
  Some {["codex" := example_digest]}.

Definition example_input : NewAgentRunInput :=
  {| in_TenantID := 7; in_ProjectID := 8; in_PromptReference := "s3://prompts/one"; in_Runtime := "codex";
     in_CPUMillis := 500; in_MemoryMiB := 1024; in_TimeoutSeconds := 600; in_MaxAttempts := 3;
     in_IdempotencyKey := "key-1"; in_RequestHash := "hash"; in_CreatedBy := "user" |}.

Lemma loaded_intent_valid_witness :
  exists cfg run desired,
    loadExecutionIntent example_env example_unmarshal = Ok cfg /\
    NewAgentRun (Ok 11) example_input 100 = Ok run /\
    DesiredState cfg run "standard" = Ok desired /\
    is_ok (Desired_Validate desired (run_AttemptCount run)) = true.
Proof.
  destruct (loadExecutionIntent example_env example_unmarshal) as [cfg|] eqn:Ec; [|vm_compute in Ec; discriminate].
  destruct (NewAgentRun (Ok 11) example_input 100) as [run|] eqn:Er; [|vm_compute in Er; discriminate].
  destruct (loaded_intent_valid _ _ _ _ _ _ _ run "standard" Ec Er (rtc_refl _ _)) as (d & Hd & _ & _ & Hv).
  - vm_compute in Ec, Er. apply Ok_inj in Ec. apply Ok_inj in Er. subst. vm_compute. eexists. reflexivity.
  - exists cfg, run, d. split_and!; try reflexivity; [exact Hd|]. rewrite Hv.
    vm_compute in Er. apply Ok_inj in Er. subst. vm_compute. reflexivity.
Defined.
