(* ===== verification/Store.v ===== *)
(** * The PostgreSQL store (db/migrations, internal/adapters/postgres)

    The tables the platform keeps its durable state in, the constraints the
    migrations put on them, and transactions: a transaction threads the tables
    through its statements and leaves them untouched when it fails, so every
    repository operation is one atomic step on the store. The row locks the
    statements take ([for update]) are what makes that the right granularity:
    two transactions that touch the same run, policy or cluster run one after
    the other. *)

From S2P Require Import Prelude AgentRun Policy Cluster Events.


(** ** Column values *)

(** A [timestamptz] keeps microseconds; the driver drops the rest. *)
Definition pgTime (t : Time) : Time := t / 1000 * 1000.

(** [t.UTC().Truncate(24 * time.Hour)], the [date] of an instant. *)
Definition usageDateOf (t : Time) : Time := t - t mod (24 * Hour).

(** What the driver stores of the instants of a row. *)
Definition pgRun (run : AgentRun) : AgentRun :=
  run <| run_CreatedAt := pgTime (run_CreatedAt run) |> <| run_UpdatedAt := pgTime (run_UpdatedAt run) |>
      <| run_CancellationRequestedAt := pgTime <$> run_CancellationRequestedAt run |>
      <| run_CompletedAt := pgTime <$> run_CompletedAt run |>.

Definition pgAttempt (attempt : AgentRunAttempt) : AgentRunAttempt :=
  attempt <| att_CreatedAt := pgTime (att_CreatedAt attempt) |> <| att_UpdatedAt := pgTime (att_UpdatedAt attempt) |>
          <| att_StartedAt := pgTime <$> att_StartedAt attempt |>
          <| att_CompletedAt := pgTime <$> att_CompletedAt attempt |>.

Definition pgCapacity (c : CapacityReservation) : CapacityReservation :=
  c <| cr_ExpiresAt := pgTime (cr_ExpiresAt c) |> <| cr_CreatedAt := pgTime (cr_CreatedAt c) |>.

Definition pgBudget (b : BudgetReservation) : BudgetReservation :=
  b <| br_ExpiresAt := pgTime (br_ExpiresAt b) |> <| br_CreatedAt := pgTime (br_CreatedAt b) |>.

(** The result of an arithmetic update of a [bigint] column. *)
Definition bigint (z : Z) : res Z :=
  _ ← failIf ((z <? - 2 ^ 63) || (2 ^ 63 - 1 <? z)) (ErrPlain "bigint out of range");
  Ok z.

(** ** Rows *)

(** The stored answer to a create, cancel or retry command. *)
Record idempotencyResponse := {
  ir_ID : UUID;
  ir_ProjectID : UUID;
  ir_Runtime : string;
  ir_CPUMillis : Z;
  ir_MemoryMiB : Z;
  ir_TimeoutSeconds : Z;
  ir_MaxAttempts : Z;
  ir_AttemptCount : Z;
  ir_Status : AgentRunStatus;
  ir_CreatedAt : Time;
  ir_UpdatedAt : Time;
}.

#[export] Instance idempotencyResponse_eq_dec : EqDecision idempotencyResponse.
Proof. solve_decision. Defined.

Inductive CommandType := CommandCancel | CommandRetry.

#[export] Instance CommandType_eq_dec : EqDecision CommandType.
Proof. solve_decision. Defined.

Record CommandReceipt := {
  cmd_Type : CommandType;
  cmd_ID : string;
  cmd_Response : idempotencyResponse;
}.

#[export] Instance CommandReceipt_eq_dec : EqDecision CommandReceipt.
Proof. solve_decision. Defined.

(** A row of [agent_runs]: the aggregate and the scheduler's columns. *)
Record RunRow := {
  rr_Run : AgentRun;
  rr_Priority : Z;
  rr_ExecutionProfile : string;
  rr_PreferredRegion : option string;
  rr_NextEligibleAt : option Time;
  rr_LeaseOwner : option string;
  rr_LeaseExpiresAt : option Time;
  rr_DecisionCode : option string;
  rr_DecisionReason : option string;
  rr_Strategy : option string;
  rr_SelectionScore : option Z;
  rr_IdempotencyResponse : option idempotencyResponse;
  rr_LastCommand : option CommandReceipt;
}.

#[export] Instance RunRow_settable : Settable RunRow := fun r =>
  Build_RunRow (rr_Run r) (rr_Priority r) (rr_ExecutionProfile r) (rr_PreferredRegion r)
    (rr_NextEligibleAt r) (rr_LeaseOwner r) (rr_LeaseExpiresAt r) (rr_DecisionCode r)
    (rr_DecisionReason r) (rr_Strategy r) (rr_SelectionScore r) (rr_IdempotencyResponse r)
    (rr_LastCommand r).

#[export] Instance RunRow_eq_dec : EqDecision RunRow.
Proof. solve_decision. Defined.

Record PolicyRow := {
  pr_MaxConcurrentRuns : Z;
  pr_MaxUserConcurrentRuns : Z;
  pr_MaxQueuedRuns : Z;
  pr_MaxCPUMillis : Z;
  pr_MaxMemoryMiB : Z;
  pr_DailyBudgetMinorUnits : Z;
  pr_AllowedRuntimes : list string;
  pr_AllowedProfiles : list string;
  pr_DeferralSeconds : Z;
}.

Record BudgetUsageRow := {
  bu_Spent : Z;
  bu_Reserved : Z;
  bu_UpdatedAt : Time;
}.

Inductive Disposition := DispositionPending | DispositionPublished | DispositionTerminal.

#[export] Instance Disposition_eq_dec : EqDecision Disposition.
Proof. solve_decision. Defined.

Record OutboxRow := {
  ob_Event : OutboxEvent;
  ob_Disposition : Disposition;
  ob_NextAttemptAt : Time;
  ob_PublicationAttempts : Z;
  ob_ClaimedBy : option string;
  ob_ClaimExpiresAt : option Time;
  ob_PublishedAt : option Time;
  ob_BrokerPosition : option (Z * Z);
  ob_LastFailure : option (string * string * Time);
}.

#[export] Instance OutboxRow_settable : Settable OutboxRow := fun r =>
  Build_OutboxRow (ob_Event r) (ob_Disposition r) (ob_NextAttemptAt r) (ob_PublicationAttempts r)
    (ob_ClaimedBy r) (ob_ClaimExpiresAt r) (ob_PublishedAt r) (ob_BrokerPosition r) (ob_LastFailure r).

Record HandoffRow := {
  ho_EventID : UUID;
  ho_TenantID : UUID;
  ho_RunID : UUID;
  ho_AttemptID : UUID;
  ho_AttemptNumber : Z;
  ho_ClusterID : string;
  ho_DesiredState : AgentRunDesiredState;
  ho_CreatedAt : Time;
}.

Record EligibilityRow := {
  el_TenantID : UUID;
  el_RunID : UUID;
  el_AttemptNumber : Z;
  el_RunVersion : Z;
  el_Decision : EligibilityDecision;
  el_Usage : SchedulingUsage;
  el_EvaluatedAt : Time;
}.

(** The tables. *)
Record DB := {
  db_tenants : gmap UUID string;
  db_projects : gmap UUID (UUID * string);
  db_runs : gmap UUID RunRow;
  db_attempts : gmap UUID AgentRunAttempt;
  db_policies : gmap UUID PolicyRow;
  db_usage : gmap (UUID * Time) BudgetUsageRow;
  db_clusters : gmap string ExecutionCluster;
  db_snapshots : gmap (string * Time) ClusterCapacity;
  db_allowlist : gset (string * UUID);
  db_capacity : gmap UUID CapacityReservation;
  db_budget : gmap UUID BudgetReservation;
  db_outbox : gmap UUID OutboxRow;
  db_handoff : gmap UUID HandoffRow;
  db_eligibility : gmap UUID EligibilityRow;
}.

#[export] Instance DB_settable : Settable DB := fun d =>
  Build_DB (db_tenants d) (db_projects d) (db_runs d) (db_attempts d) (db_policies d) (db_usage d)
    (db_clusters d) (db_snapshots d) (db_allowlist d) (db_capacity d) (db_budget d) (db_outbox d)
    (db_handoff d) (db_eligibility d).

Definition emptyDB : DB := {|
  db_tenants := ∅; db_projects := ∅; db_runs := ∅; db_attempts := ∅; db_policies := ∅; db_usage := ∅;
  db_clusters := ∅; db_snapshots := ∅; db_allowlist := ∅; db_capacity := ∅; db_budget := ∅;
  db_outbox := ∅; db_handoff := ∅; db_eligibility := ∅ |}.

(** ** Transactions *)

Definition Tx (A : Type) : Type := DB -> res (A * DB).

#[export] Instance Tx_ret : MRet Tx := fun A a db => Ok (a, db).
#[export] Instance Tx_bind : MBind Tx := fun A B f m db =>
  match m db with Ok (a, db') => f a db' | Err e => Err e end.

(** A computation that does not touch the tables. *)
Definition lift {A} (r : res A) : Tx A := fun db =>
  match r with Ok a => Ok (a, db) | Err e => Err e end.

(** Return an error when the condition holds. *)
Definition abortIf (cond : bool) (e : error) : Tx unit := lift (failIf cond e).

Definition query {A} (f : DB -> A) : Tx A := fun db => Ok (f db, db).

(** [QueryRowContext(...).Scan(...)], translated: no row is [ErrNotFound]. *)
Definition queryRow {A} (f : DB -> option A) : Tx A := fun db =>
  match f db with Some a => Ok (a, db) | None => Err ErrNotFound end.

Definition modify (f : DB -> DB) : Tx unit := fun db => Ok (tt, f db).

(** Begin, run, and commit; any error rolls back. *)
Definition transact {A} (tx : Tx A) (db : DB) : res A * DB :=
  match tx db with Ok (a, db') => (Ok a, db') | Err e => (Err e, db) end.

(** ** Constraints *)

Section Constraints.
Context `{UUIDs}.

(** [check (substr(id::text, 15, 1) = '7')] *)
Definition checkV7 (id : UUID) : Tx unit :=
  abortIf (negb (uuidVersion id =? 7)) (ErrPlain "check constraint violated").

Definition runStatusFails (status : AgentRunStatus) : bool :=
  bool_decide (status ∈ [AgentRunProvisioningFailed; AgentRunExecutionFailed; AgentRunBuildFailed;
    AgentRunPolicyRejected; AgentRunDeploymentFailed; AgentRunTimedOut]).

(** The check constraints of [agent_runs] that relate columns to each other or
    to ranges (the text length checks repeat the domain validation). *)
Definition runRowValid (row : RunRow) : bool :=
  let run := rr_Run row in
  (1 <=? run_CPUMillis run) && (run_CPUMillis run <=? 128000)
  && (1 <=? run_MemoryMiB run) && (run_MemoryMiB run <=? 524288)
  && (1 <=? run_TimeoutSeconds run) && (run_TimeoutSeconds run <=? 86400)
  && (1 <=? run_MaxAttempts run) && (run_MaxAttempts run <=? 10)
  && (1 <=? run_AttemptCount run) && (run_AttemptCount run <=? run_MaxAttempts run)
  && ((run_FailureCategory run == FailureUnset) || FailureCategory_IsValid (run_FailureCategory run))
  && Bool.eqb (runStatusFails (run_Status run)) (run_FailureCategory run != FailureUnset)
  && (1 <=? run_Version run)
  && Bool.eqb ((run_Status run == AgentRunCancelling) || (run_Status run == AgentRunCancelled))
       (bool_decide (is_Some (run_CancellationRequestedAt run)))
  && Bool.eqb (bool_decide (is_Some (rr_LeaseOwner row))) (bool_decide (is_Some (rr_LeaseExpiresAt row)))
  && Bool.eqb (run_Status run == AgentRunScheduling) (bool_decide (is_Some (rr_LeaseOwner row)))
  && (match rr_SelectionScore row with Some score => 0 <=? score | None => true end).

(** [insert into agent_runs]: checks, then unique indexes, then foreign keys. *)
Definition insertRunRow (row : RunRow) : Tx unit :=
  let run := rr_Run row in
  _ ← checkV7 (run_ID run);
  _ ← abortIf (negb (runRowValid row)) (ErrPlain "check constraint violated");
  db ← query id;
  _ ← abortIf (bool_decide (is_Some (db_runs db !! run_ID run))) ErrConflict;
  _ ← abortIf (bool_decide (map_Exists (fun _ row' => run_TenantID (rr_Run row') = run_TenantID run /\
                 run_IdempotencyKey (rr_Run row') = run_IdempotencyKey run) (db_runs db))) ErrConflict;
  _ ← abortIf (bool_decide (db_tenants db !! run_TenantID run = None)) ErrNotFound;
  _ ← abortIf (bool_decide (fst <$> db_projects db !! run_ProjectID run <> Some (run_TenantID run))) ErrNotFound;
  modify (fun db => db <| db_runs := <[run_ID run := row <| rr_Run := pgRun run |>]> (db_runs db) |>).

(** [update agent_runs ... where tenant_id=$ and id=$ and version=$]: the number of
    rows affected; [change] computes the new columns of the matching row, whose
    version the statement also increments. *)
Definition updateRunRow (tenantID runID : UUID) (expectedVersion : Z) (change : RunRow -> RunRow) : Tx Z :=
  db ← query id;
  match db_runs db !! runID with
  | None => mret 0
  | Some row =>
      if (run_TenantID (rr_Run row) != tenantID) || negb (run_Version (rr_Run row) =? expectedVersion)
      then mret 0
      else
        version ← lift (bigint (run_Version (rr_Run row) + 1));
        let row' := (change row) <| rr_Run := (rr_Run (change row)) <| run_Version := version |> |> in
        _ ← abortIf (negb (runRowValid row')) (ErrPlain "check constraint violated");
        _ ← modify (fun db => db <| db_runs := <[runID := row']> (db_runs db) |>);
        mret 1
  end.

(** [agent_run_attempts_scheduling_assignment], with the empty string and the nil
    identifier standing for null as in the domain struct. *)
Definition attemptRowValid (attempt : AgentRunAttempt) : bool :=
  let cluster := att_SelectedCluster attempt == EmptyString in
  let profile := att_ExecutionProfile attempt == EmptyString in
  let capacity := att_CapacityReservationID attempt == uuidNil in
  let budget := att_BudgetReservationID attempt == uuidNil in
  (1 <=? att_AttemptNumber attempt) && (1 <=? att_Version attempt)
  && ((att_FailureCategory attempt == FailureUnset) || FailureCategory_IsValid (att_FailureCategory attempt))
  && ((cluster && profile && capacity && budget)
      || (negb cluster && negb profile && negb capacity && negb budget)).

Definition insertAttemptRow (attempt : AgentRunAttempt) : Tx unit :=
  _ ← checkV7 (att_ID attempt);
  _ ← abortIf (negb (attemptRowValid attempt)) (ErrPlain "check constraint violated");
  db ← query id;
  _ ← abortIf (bool_decide (is_Some (db_attempts db !! att_ID attempt))) ErrConflict;
  _ ← abortIf (bool_decide (map_Exists (fun _ a => att_RunID a = att_RunID attempt /\
                 att_AttemptNumber a = att_AttemptNumber attempt) (db_attempts db))) ErrConflict;
  _ ← abortIf (bool_decide ((run_TenantID ∘ rr_Run) <$> db_runs db !! att_RunID attempt <> Some (att_TenantID attempt)))
      ErrNotFound;
  modify (fun db => db <| db_attempts := <[att_ID attempt := pgAttempt attempt]> (db_attempts db) |>).

(** [update agent_run_attempts ... where tenant_id=$ and id=$ and version=$]. *)
Definition updateAttemptRow (tenantID attemptID : UUID) (expectedVersion : Z)
    (change : AgentRunAttempt -> AgentRunAttempt) : Tx Z :=
  db ← query id;
  match db_attempts db !! attemptID with
  | None => mret 0
  | Some attempt =>
      if (att_TenantID attempt != tenantID) || negb (att_Version attempt =? expectedVersion)
      then mret 0
      else
        version ← lift (bigint (att_Version attempt + 1));
        let attempt' := (change attempt) <| att_Version := version |> in
        _ ← abortIf (negb (attemptRowValid attempt')) (ErrPlain "check constraint violated");
        _ ← modify (fun db => db <| db_attempts := <[attemptID := attempt']> (db_attempts db) |>);
        mret 1
  end.

Definition reservationTimesValid (state : ReservationState) (settled released : option Time) : bool :=
  match state with
  | ReservationReserved => bool_decide (settled = None) && bool_decide (released = None)
  | ReservationSettled => bool_decide (is_Some settled) && bool_decide (released = None)
  | ReservationReleased | ReservationExpired => bool_decide (settled = None) && bool_decide (is_Some released)
  end.

Definition insertCapacityRow (c : CapacityReservation) : Tx unit :=
  _ ← checkV7 (cr_ID c);
  _ ← abortIf ((cr_AttemptNumber c <? 1) || (cr_CPUMillis c <? 1) || (cr_MemoryMiB c <? 1)
        || negb (reservationTimesValid (cr_State c) (cr_SettledAt c) (cr_ReleasedAt c)))
      (ErrPlain "check constraint violated");
  db ← query id;
  _ ← abortIf (bool_decide (is_Some (db_capacity db !! cr_ID c))) ErrConflict;
  _ ← abortIf ((cr_State c == ReservationReserved)
        && bool_decide (map_Exists (fun _ c' => cr_RunID c' = cr_RunID c /\
             cr_AttemptNumber c' = cr_AttemptNumber c /\ cr_State c' = ReservationReserved) (db_capacity db)))
      ErrConflict;
  _ ← abortIf (bool_decide (db_tenants db !! cr_TenantID c = None)
        || bool_decide (db_attempts db !! cr_AttemptID c = None)
        || bool_decide (db_clusters db !! cr_ClusterID c = None)
        || bool_decide ((run_TenantID ∘ rr_Run) <$> db_runs db !! cr_RunID c <> Some (cr_TenantID c)))
      ErrNotFound;
  modify (fun db => db <| db_capacity := <[cr_ID c := pgCapacity c]> (db_capacity db) |>).

Definition insertBudgetRow (b : BudgetReservation) : Tx unit :=
  _ ← checkV7 (br_ID b);
  _ ← abortIf ((br_AttemptNumber b <? 1) || (br_AmountMinorUnits b <? 0)
        || negb (reservationTimesValid (br_State b) (br_SettledAt b) (br_ReleasedAt b)))
      (ErrPlain "check constraint violated");
  db ← query id;
  _ ← abortIf (bool_decide (is_Some (db_budget db !! br_ID b))
        || bool_decide (map_Exists (fun _ b' => br_CapacityReservationID b' = br_CapacityReservationID b) (db_budget db)))
      ErrConflict;
  _ ← abortIf ((br_State b == ReservationReserved)
        && bool_decide (map_Exists (fun _ b' => br_RunID b' = br_RunID b /\
             br_AttemptNumber b' = br_AttemptNumber b /\ br_State b' = ReservationReserved) (db_budget db)))
      ErrConflict;
  _ ← abortIf (bool_decide (db_tenants db !! br_TenantID b = None)
        || bool_decide (db_capacity db !! br_CapacityReservationID b = None)
        || bool_decide ((run_TenantID ∘ rr_Run) <$> db_runs db !! br_RunID b <> Some (br_TenantID b)))
      ErrNotFound;
  modify (fun db => db <| db_budget := <[br_ID b := pgBudget b]> (db_budget db) |>).

(** [insert into tenant_daily_budget_usage ... on conflict do nothing] *)
Definition ensureUsageRow (tenantID : UUID) (usageDate now : Time) : Tx unit :=
  db ← query id;
  match db_usage db !! (tenantID, usageDate) with
  | Some _ => mret tt
  | None =>
      _ ← abortIf (bool_decide (db_tenants db !! tenantID = None)) ErrNotFound;
      modify (fun db => db <| db_usage :=
        <[(tenantID, usageDate) := {| bu_Spent := 0; bu_Reserved := 0; bu_UpdatedAt := pgTime now |}]> (db_usage db) |>)
  end.

(** [update tenant_daily_budget_usage set reserved = reserved + $, spent = spent + $]:
    no row is updated when there is none for the date. *)
Definition updateUsageRow (tenantID : UUID) (usageDate : Time) (reserved spent : Z) (now : Time) : Tx unit :=
  db ← query id;
  match db_usage db !! (tenantID, usageDate) with
  | None => mret tt
  | Some usage =>
      reserved' ← lift (bigint (bu_Reserved usage + reserved));
      spent' ← lift (bigint (bu_Spent usage + spent));
      _ ← abortIf ((reserved' <? 0) || (spent' <? 0)) (ErrPlain "check constraint violated");
      modify (fun db => db <| db_usage :=
        <[(tenantID, usageDate) := {| bu_Spent := spent'; bu_Reserved := reserved'; bu_UpdatedAt := pgTime now |}]>
          (db_usage db) |>)
  end.

(** [insertOutboxEvent]: a pending row, due at once. *)
Definition insertOutboxEvent (event : OutboxEvent) : Tx unit :=
  let eventID := env_EventID (oe_Envelope event) in
  _ ← checkV7 eventID;
  _ ← abortIf ((env_SchemaVersion (oe_Envelope event) <? 1) || (env_AggregateVersion (oe_Envelope event) <? 1))
      (ErrPlain "check constraint violated");
  db ← query id;
  _ ← abortIf (bool_decide (is_Some (db_outbox db !! eventID))) ErrConflict;
  _ ← abortIf (bool_decide (db_tenants db !! env_TenantID (oe_Envelope event) = None)) ErrNotFound;
  modify (fun db => db <| db_outbox := <[eventID :=
    {| ob_Event := event <| oe_CreatedAt := pgTime (oe_CreatedAt event) |>; ob_Disposition := DispositionPending;
       ob_NextAttemptAt := pgTime (oe_CreatedAt event); ob_PublicationAttempts := 0; ob_ClaimedBy := None;
       ob_ClaimExpiresAt := None; ob_PublishedAt := None; ob_BrokerPosition := None; ob_LastFailure := None |}]>
    (db_outbox db) |>).
End Constraints.

(** ** Reasoning about transactions *)

Lemma tx_bind_ok {A B} (m : Tx A) (f : A -> Tx B) db b db' :
  (m ≫= f) db = Ok (b, db') <-> exists a db1, m db = Ok (a, db1) /\ f a db1 = Ok (b, db').
Proof. unfold mbind, Tx_bind. destruct (m db) as [[a db1]|e]; naive_solver. Qed.

Lemma tx_step {A B} (m : Tx A) (f : A -> Tx B) db a db1 : m db = Ok (a, db1) -> (m ≫= f) db = f a db1.
Proof. unfold mbind, Tx_bind. by intros ->. Qed.

Lemma tx_fail {A B} (m : Tx A) (f : A -> Tx B) db e : m db = Err e -> (m ≫= f) db = Err e.
Proof. unfold mbind, Tx_bind. by intros ->. Qed.

Lemma tx_ret_ok {A} (a : A) db b db' : (mret a : Tx A) db = Ok (b, db') <-> b = a /\ db' = db.
Proof. unfold mret, Tx_ret. naive_solver. Qed.

Lemma lift_tx_ok {A} (r : res A) db a db' : lift r db = Ok (a, db') <-> r = Ok a /\ db' = db.
Proof. unfold lift. destruct r; naive_solver. Qed.

Lemma abortIf_ok c e db u db' : abortIf c e db = Ok (u, db') <-> c = false /\ db' = db.
Proof. unfold abortIf, lift. destruct c, u; naive_solver. Qed.

Lemma query_ok {A} (f : DB -> A) db a db' : query f db = Ok (a, db') <-> a = f db /\ db' = db.
Proof. unfold query. naive_solver. Qed.

Lemma queryRow_ok {A} (f : DB -> option A) db a db' :
  queryRow f db = Ok (a, db') <-> f db = Some a /\ db' = db.
Proof. unfold queryRow. destruct (f db); naive_solver. Qed.

Lemma modify_ok f db u db' : modify f db = Ok (u, db') <-> db' = f db.
Proof. unfold modify. destruct u; naive_solver. Qed.

Lemma bigint_ok z a : bigint z = Ok a <-> a = z /\ in_int64 z.
Proof.
  unfold bigint, in_int64. rewrite bind_failIf. case_match; split; intros; destruct_and?; cases_bools;
    try discriminate; try (apply Ok_inj in H0); subst; try split; try done; try lia.
Qed.

Lemma lift_bigint z db : in_int64 z -> lift (bigint z) db = Ok (z, db).
Proof. intros Hz. unfold lift. by rewrite (proj2 (bigint_ok z z)). Qed.

Lemma abortIf_false c e db : c = false -> abortIf c e db = Ok (tt, db).
Proof. by intros ->. Qed.

Lemma abortIf_true c e db : c = true -> abortIf c e db = Err e.
Proof. by intros ->. Qed.

Lemma transact_ok {A} (tx : Tx A) db a db' : transact tx db = (Ok a, db') <-> tx db = Ok (a, db').
Proof. unfold transact. destruct (tx db) as [[? ?]|]; naive_solver. Qed.

(** A failed operation changes nothing. *)
Lemma transact_err {A} (tx : Tx A) db e db' : transact tx db = (Err e, db') -> db' = db.
Proof. unfold transact. destruct (tx db) as [[? ?]|]; naive_solver. Qed.

(** A successful operation is its transaction; a failed one is the identity. *)
Lemma transact_cases {A} (tx : Tx A) db r db' :
  transact tx db = (r, db') -> (exists a, r = Ok a /\ tx db = Ok (a, db')) \/ (is_ok r = false /\ db' = db).
Proof. unfold transact. destruct (tx db) as [[a ?]|]; naive_solver. Qed.

(** Follow the successful path of a transaction. *)
Ltac tx_inv :=
  repeat match goal with
  | H : mbind _ _ _ = Ok (_, _) |- _ => apply tx_bind_ok in H as (? & ? & ? & H)
  | H : abortIf _ _ _ = Ok (_, _) |- _ => apply abortIf_ok in H as [? ->]
  | H : query _ _ = Ok (_, _) |- _ => apply query_ok in H as [-> ->]
  | H : queryRow _ _ = Ok (_, _) |- _ => apply queryRow_ok in H as [? ->]
  | H : lift _ _ = Ok (_, _) |- _ => apply lift_tx_ok in H as [? ->]
  | H : modify _ _ = Ok (_, _) |- _ => apply modify_ok in H as ->
  | H : mret _ _ = Ok (_, _) |- _ =>
      let E := fresh in apply tx_ret_ok in H as [E ->];
      try match type of E with ?x = _ => is_var x; subst x end
  | H : checkV7 _ _ = Ok (_, _) |- _ => apply abortIf_ok in H as [? ->]
  end.

Lemma pgTime_bounds t : pgTime t <= t < pgTime t + 1000.
Proof. unfold pgTime. pose proof (Z.div_mod t 1000 ltac:(lia)). pose proof (Z.mod_pos_bound t 1000 ltac:(lia)). lia. Qed.

Lemma pgTime_mono t u : t <= u -> pgTime t <= pgTime u.
Proof. unfold pgTime. intros. apply Z.mul_le_mono_nonneg_r; [lia|]. apply Z.div_le_mono; lia. Qed.

Lemma pgTime_idemp t : pgTime (pgTime t) = pgTime t.
Proof. unfold pgTime. by rewrite Z.div_mul by lia. Qed.

(** A microsecond duration survives the rounding of both ends. *)
Lemma pgTime_add t d : d mod 1000 = 0 -> pgTime (t + d) = pgTime t + d.
Proof.
  intros Hd. unfold pgTime. pose proof (Z.div_mod d 1000 ltac:(lia)).
  replace (t + d) with (t + d / 1000 * 1000) by lia. rewrite Z.div_add by lia. lia.
Qed.

(** ** An example store: one tenant, one queued run, one cluster *)

Definition exampleTenant : UUID := exampleV7 7.
Definition exampleNow : Time := 700000 * 24 * Hour + 3 * Hour.

Definition example_run_row : RunRow :=
  {| rr_Run := example_request_run <| run_CreatedAt := exampleNow - Minute |>; rr_Priority := 0;
     rr_ExecutionProfile := "standard"; rr_PreferredRegion := None; rr_NextEligibleAt := None; rr_LeaseOwner := None;
     rr_LeaseExpiresAt := None; rr_DecisionCode := None; rr_DecisionReason := None; rr_Strategy := None;
     rr_SelectionScore := None; rr_IdempotencyResponse := None; rr_LastCommand := None |}.

Definition example_attempt_row : AgentRunAttempt :=
  example_attempt <| att_ID := exampleV7 21 |> <| att_TenantID := exampleTenant |> <| att_RunID := exampleV7 11 |>.

Definition example_policy_row : PolicyRow :=
  {| pr_MaxConcurrentRuns := 10; pr_MaxUserConcurrentRuns := 5; pr_MaxQueuedRuns := 100; pr_MaxCPUMillis := 64000;
     pr_MaxMemoryMiB := 65536; pr_DailyBudgetMinorUnits := 10000; pr_AllowedRuntimes := ["codex"];
     pr_AllowedProfiles := ["standard"]; pr_DeferralSeconds := 30 |}.

Definition example_cluster : ExecutionCluster :=
  {| ec_ID := "cluster-a"; ec_Region := "eu-1"; ec_Status := ClusterActive; ec_SupportedRuntimes := ["codex"];
     ec_SupportedExecutionProfiles := ["standard"]; ec_Maintenance := false; ec_TenantRestricted := false;
     ec_SchedulingWeight := 100; ec_CPUCostMinorUnits := 1; ec_MemoryGiBCostMinorUnits := 1;
     ec_LastHeartbeatAt := exampleNow; ec_Version := 1; ec_CreatedAt := exampleNow; ec_UpdatedAt := exampleNow |}.

Definition example_db : DB :=
  {| db_tenants := {[exampleTenant := "ACTIVE"]}; db_projects := {[exampleV7 8 := (exampleTenant, "ACTIVE")]};
     db_runs := {[exampleV7 11 := example_run_row]}; db_attempts := {[exampleV7 21 := example_attempt_row]};
     db_policies := {[exampleTenant := example_policy_row]}; db_usage := ∅;
     db_clusters := {["cluster-a" := example_cluster]};
     db_snapshots := {[("cluster-a", exampleNow) := {| cc_ClusterID := "cluster-a"; cc_ObservedAt := exampleNow;
       cc_AllocatableCPUMillis := 4000; cc_AllocatableMemoryMiB := 8192; cc_QueuedWorkloads := 0 |}]};
     db_allowlist := ∅; db_capacity := ∅; db_budget := ∅; db_outbox := ∅; db_handoff := ∅; db_eligibility := ∅ |}.

(** ** Updating one row *)

Definition runs_keyed (db : DB) : Prop := forall id row, db_runs db !! id = Some row -> run_ID (rr_Run row) = id.

(** The row an update of a run writes. *)
Definition bumped (change : RunRow -> RunRow) (row : RunRow) : RunRow :=
  (change row) <| rr_Run := (rr_Run (change row)) <| run_Version := run_Version (rr_Run row) + 1 |> |>.

Lemma updateRunRow_hit tenantID runID version change db n db' row :
  db_runs db !! runID = Some row -> run_TenantID (rr_Run row) = tenantID -> run_Version (rr_Run row) = version ->
  updateRunRow tenantID runID version change db = Ok (n, db') ->
  n = 1 /\ runRowValid (bumped change row) = true /\ in_int64 (version + 1) /\
  db' = db <| db_runs := <[runID := bumped change row]> (db_runs db) |>.
Proof.
  intros Hr Ht Hv Hu. unfold updateRunRow in Hu. apply tx_bind_ok in Hu as (? & ? & [-> ->]%query_ok & Hu).
  unfold id in Hu. rewrite Hr, bool_decide_eq_true_2, Hv, Z.eqb_refl in Hu by done. cbn [negb orb] in Hu.
  apply tx_bind_ok in Hu as (v & ? & [[-> Hin]%bigint_ok ->]%lift_tx_ok & Hu).
  apply tx_bind_ok in Hu as ([] & ? & [Hval ->]%abortIf_ok & Hu). tx_inv.
  apply negb_false_iff in Hval. unfold bumped. rewrite Hv. split_and!; try done.
Qed.

Lemma updateRunRow_some tenantID runID version change db n db' :
  updateRunRow tenantID runID version change db = Ok (n, db') -> n <> 0 ->
  exists row, db_runs db !! runID = Some row /\ run_TenantID (rr_Run row) = tenantID /\
    run_Version (rr_Run row) = version /\ n = 1 /\ runRowValid (bumped change row) = true /\
    in_int64 (version + 1) /\ db' = db <| db_runs := <[runID := bumped change row]> (db_runs db) |>.
Proof.
  intros Hu Hn. destruct (db_runs db !! runID) as [row|] eqn:Hr.
  - destruct (decide (run_TenantID (rr_Run row) = tenantID /\ run_Version (rr_Run row) = version)) as [[Ht Hv]|Hne].
    + exists row. split; [done|]. destruct (updateRunRow_hit _ _ _ _ _ _ _ _ Hr Ht Hv Hu) as (? & ? & ? & ?). naive_solver.
    + exfalso. apply Hn. unfold updateRunRow in Hu. apply tx_bind_ok in Hu as (? & ? & [-> ->]%query_ok & Hu).
      unfold id in Hu. rewrite Hr in Hu. replace (_ || _) with true in Hu; [by tx_inv|].
      symmetry. rewrite orb_true_iff, negb_true_iff, bool_decide_eq_false, negb_true_iff, Z.eqb_neq.
      destruct (decide (run_TenantID (rr_Run row) = tenantID)); naive_solver.
  - exfalso. apply Hn. unfold updateRunRow in Hu. apply tx_bind_ok in Hu as (? & ? & [-> ->]%query_ok & Hu).
    unfold id in Hu. rewrite Hr in Hu. by tx_inv.
Qed.

Lemma runs_keyed_insert db db' id row :
  runs_keyed db -> run_ID (rr_Run row) = id -> db_runs db' = <[id := row]> (db_runs db) -> runs_keyed db'.
Proof. intros Hk Hid Hdb i r. rewrite Hdb. intros [[<- <-]|[_ ?]]%lookup_insert_Some; eauto. Qed.

(** The row an update of an attempt writes. *)
Definition bumpedAttempt (change : AgentRunAttempt -> AgentRunAttempt) (a : AgentRunAttempt) : AgentRunAttempt :=
  (change a) <| att_Version := att_Version a + 1 |>.

Lemma updateAttemptRow_hit tenantID attemptID version change db n db' a :
  db_attempts db !! attemptID = Some a -> att_TenantID a = tenantID -> att_Version a = version ->
  updateAttemptRow tenantID attemptID version change db = Ok (n, db') ->
  n = 1 /\ attemptRowValid (bumpedAttempt change a) = true /\ in_int64 (version + 1) /\
  db' = db <| db_attempts := <[attemptID := bumpedAttempt change a]> (db_attempts db) |>.
Proof.
  intros Hr Ht Hv Hu. unfold updateAttemptRow in Hu. apply tx_bind_ok in Hu as (? & ? & [-> ->]%query_ok & Hu).
  unfold id in Hu. rewrite Hr, bool_decide_eq_true_2, Hv, Z.eqb_refl in Hu by done. cbn [negb orb] in Hu.
  apply tx_bind_ok in Hu as (v & ? & [[-> Hin]%bigint_ok ->]%lift_tx_ok & Hu).
  apply tx_bind_ok in Hu as ([] & ? & [Hval ->]%abortIf_ok & Hu). tx_inv.
  apply negb_false_iff in Hval. unfold bumpedAttempt. rewrite Hv. split_and!; try done.
Qed.

(** A published event waits in the outbox. *)
Definition pendingRow (event : OutboxEvent) : OutboxRow :=
  {| ob_Event := event <| oe_CreatedAt := pgTime (oe_CreatedAt event) |>; ob_Disposition := DispositionPending;
     ob_NextAttemptAt := pgTime (oe_CreatedAt event); ob_PublicationAttempts := 0; ob_ClaimedBy := None;
     ob_ClaimExpiresAt := None; ob_PublishedAt := None; ob_BrokerPosition := None; ob_LastFailure := None |}.

Lemma insertOutboxEvent_spec `{UUIDs} event db u db' :
  insertOutboxEvent event db = Ok (u, db') ->
  db_outbox db !! env_EventID (oe_Envelope event) = None /\
  db' = db <| db_outbox := <[env_EventID (oe_Envelope event) := pendingRow event]> (db_outbox db) |>.
Proof.
  intros Hi. unfold insertOutboxEvent in Hi. tx_inv. simpl in *.
  match goal with Hn : bool_decide (is_Some _) = false |- _ => apply bool_decide_eq_false in Hn; rewrite <-eq_None_not_Some in Hn end.
  done.
Qed.

(** ** Keys, and event versions

    Primary keys are the identities of the rows, an attempt number is used once
    per run, and no event carries a version its run has not reached. *)
Record store_keyed (db : DB) : Prop := {
  sk_runs : runs_keyed db;
  sk_attempts : forall id a, db_attempts db !! id = Some a -> att_ID a = id;
  sk_numbers : forall id a id' a', db_attempts db !! id = Some a -> db_attempts db !! id' = Some a' ->
    att_RunID a = att_RunID a' -> att_AttemptNumber a = att_AttemptNumber a' -> id = id';
  sk_clusters : forall id c, db_clusters db !! id = Some c -> ec_ID c = id;
  sk_outbox : forall id o, db_outbox db !! id = Some o -> env_EventID (oe_Envelope (ob_Event o)) = id;
  sk_versions : forall id o runID row, db_outbox db !! id = Some o ->
    env_RunID (oe_Envelope (ob_Event o)) = Some runID -> db_runs db !! runID = Some row ->
    env_AggregateVersion (oe_Envelope (ob_Event o)) <= run_Version (rr_Run row);
}.

(** The first match is the only one. *)
Lemma head_filter_unique {A} (P : A -> Prop) `{forall x, Decision (P x)} l x :
  x ∈ l -> P x -> (forall y, y ∈ l -> P y -> y = x) -> head (filter P l) = Some x.
Proof.
  intros Hin Hx Huniq. destruct (filter P l) as [|y l'] eqn:Hf.
  - exfalso. apply (not_elem_of_nil x). rewrite <-Hf. by apply list_elem_of_filter.
  - assert (Hy : y ∈ filter P l) by (rewrite Hf; by left). apply list_elem_of_filter in Hy as [Hy1 Hy2].
    simpl. f_equal. by apply Huniq.
Qed.
