(* ===== verification/Reservations.v ===== *)
(** * Capacity and budget reservations (internal/adapters/postgres/reservations.go)

    Reserving cluster capacity and tenant budget for an attempt in one
    transaction, and the one-way transitions out of a reservation. The daily
    usage row of a tenant is an aggregate of the reservations; the invariant
    below says it is always the right one. *)

From S2P Require Import Prelude AgentRun Policy Cluster Events Store.

Record ReservationRequest := {
  rq_res_TenantID : UUID;
  rq_res_RunID : UUID;
  rq_res_AttemptID : UUID;
  rq_res_AttemptNumber : Z;
  rq_res_ClusterID : string;
  rq_res_CPUMillis : Z;
  rq_res_MemoryMiB : Z;
  rq_res_BudgetMinorUnits : Z;
  rq_res_Now : Time;
  rq_res_TTL : Duration;
}.

Section Reservations.
Context `{UUIDs}.

Definition validateReservationRequest (request : ReservationRequest) : res unit :=
  failIf ((rq_res_TenantID request == uuidNil) || (rq_res_RunID request == uuidNil)
    || (rq_res_AttemptID request == uuidNil) || (rq_res_AttemptNumber request <? 1)
    || (rq_res_ClusterID request == EmptyString)
    || (rq_res_CPUMillis request <? 1) || (128000 <? rq_res_CPUMillis request)
    || (rq_res_MemoryMiB request <? 1) || (524288 <? rq_res_MemoryMiB request)
    || (rq_res_BudgetMinorUnits request <? 0) || IsZero (rq_res_Now request)
    || (rq_res_TTL request <=? 0) || (24 * Hour <? rq_res_TTL request))
    (ErrPlain "reservation request is invalid").

(** [newReservationBundle]; the two identifiers are the results of [uuid.NewV7]. *)
Definition newReservationBundle (newCapacityID newBudgetID : res UUID) (request : ReservationRequest)
    (usageDate : Time) : res ReservationBundle :=
  capacityID ← newCapacityID;
  budgetID ← newBudgetID;
  let expires := Add (UTC (rq_res_Now request)) (rq_res_TTL request) in
  let capacity :=
    {| cr_ID := capacityID; cr_TenantID := rq_res_TenantID request; cr_RunID := rq_res_RunID request;
       cr_AttemptID := rq_res_AttemptID request; cr_AttemptNumber := rq_res_AttemptNumber request;
       cr_ClusterID := rq_res_ClusterID request; cr_CPUMillis := rq_res_CPUMillis request;
       cr_MemoryMiB := rq_res_MemoryMiB request; cr_State := ReservationReserved; cr_ExpiresAt := expires;
       cr_CreatedAt := UTC (rq_res_Now request); cr_SettledAt := None; cr_ReleasedAt := None |} in
  _ ← Reservation_Validate capacity (rq_res_Now request);
  Ok {| rb_Capacity := capacity;
        rb_Budget :=
          {| br_ID := budgetID; br_CapacityReservationID := capacityID;
             br_TenantID := rq_res_TenantID request; br_RunID := rq_res_RunID request;
             br_AttemptNumber := rq_res_AttemptNumber request; br_UsageDate := usageDate;
             br_AmountMinorUnits := rq_res_BudgetMinorUnits request; br_State := ReservationReserved;
             br_ExpiresAt := expires; br_CreatedAt := UTC (rq_res_Now request);
             br_SettledAt := None; br_ReleasedAt := None |} |}.

(** [capacity_reservations join budget_reservations]. *)
Definition joinedReservations (db : DB) : list ReservationBundle :=
  omap (fun '(_, b) => (fun c => {| rb_Capacity := c; rb_Budget := b |}) <$> db_capacity db !! br_CapacityReservationID b)
    (map_to_list (db_budget db)).

Definition forAttempt (tenantID runID : UUID) (attemptNumber : Z) (bundle : ReservationBundle) : Prop :=
  cr_TenantID (rb_Capacity bundle) = tenantID /\ cr_RunID (rb_Capacity bundle) = runID /\
  cr_AttemptNumber (rb_Capacity bundle) = attemptNumber.

#[export] Instance forAttempt_dec t r n b : Decision (forAttempt t r n b).
Proof. unfold forAttempt. apply _. Defined.

(** [findActiveReservation]: the scanned columns, with the budget's owner taken
    from the capacity row. *)
Definition findActiveReservation (request : ReservationRequest) : Tx (option ReservationBundle) :=
  found ← query (fun db => head (filter (fun bundle =>
    forAttempt (rq_res_TenantID request) (rq_res_RunID request) (rq_res_AttemptNumber request) bundle /\
    cr_State (rb_Capacity bundle) = ReservationReserved) (joinedReservations db)));
  mret ((fun bundle =>
    {| rb_Capacity := (rb_Capacity bundle) <| cr_SettledAt := None |> <| cr_ReleasedAt := None |>;
       rb_Budget :=
         let b := rb_Budget bundle in let c := rb_Capacity bundle in
         {| br_ID := br_ID b; br_CapacityReservationID := br_CapacityReservationID b;
            br_TenantID := cr_TenantID c; br_RunID := cr_RunID c; br_AttemptNumber := cr_AttemptNumber c;
            br_UsageDate := br_UsageDate b; br_AmountMinorUnits := br_AmountMinorUnits b;
            br_State := br_State b; br_ExpiresAt := br_ExpiresAt b; br_CreatedAt := br_CreatedAt b;
            br_SettledAt := None; br_ReleasedAt := None |} |}) <$> found).

(** The newest snapshot of a cluster: [order by observed_at desc limit 1]. *)
Definition newer (a b : ClusterCapacity) : ClusterCapacity :=
  if cc_ObservedAt a <? cc_ObservedAt b then b else a.

Definition latestSnapshot (db : DB) (clusterID : string) : option ClusterCapacity :=
  match omap (fun '((id, _), snapshot) => if decide (id = clusterID) then Some snapshot else None)
          (map_to_list (db_snapshots db)) with
  | [] => None
  | first :: rest => Some (foldl newer first rest)
  end.

(** [sum(...) where cluster_id=$1 and state='RESERVED' and expires_at>$2] *)
Definition holdsCapacity (clusterID : string) (now : Time) (c : CapacityReservation) : bool :=
  (cr_ClusterID c == clusterID) && (cr_State c == ReservationReserved) && (pgTime now <? cr_ExpiresAt c).

Definition reservedCPU (db : DB) (clusterID : string) (now : Time) : Z :=
  mapSum (fun c => if holdsCapacity clusterID now c then cr_CPUMillis c else 0) (db_capacity db).

Definition reservedMemory (db : DB) (clusterID : string) (now : Time) : Z :=
  mapSum (fun c => if holdsCapacity clusterID now c then cr_MemoryMiB c else 0) (db_capacity db).

(** Scanning an aggregate into an int64 fails when it does not fit. *)
Definition scanInt64 (z : Z) : res Z :=
  _ ← failIf ((z <? - 2 ^ 63) || (2 ^ 63 - 1 <? z)) (ErrPlain "value out of range");
  Ok z.

(** The check [available - reserved < wanted] on both resources. *)
Definition capacityCheck (clusterID : string) (availableCPU availableMemory cpu memory : Z) (now : Time) : Tx unit :=
  db ← query id;
  usedCPU ← lift (scanInt64 (reservedCPU db clusterID now));
  usedMemory ← lift (scanInt64 (reservedMemory db clusterID now));
  abortIf ((sub64 availableCPU usedCPU <? cpu) || (sub64 availableMemory usedMemory <? memory))
    ErrCapacityUnavailable.

(** Create and lock the usage row of the day and check the balance. *)
Definition budgetCheck (tenantID : UUID) (limit amount : Z) (usageDate now : Time) : Tx unit :=
  _ ← ensureUsageRow tenantID usageDate now;
  usage ← queryRow (fun db => db_usage db !! (tenantID, usageDate));
  abortIf (sub64 (sub64 limit (bu_Spent usage)) (bu_Reserved usage) <? amount) ErrBudgetUnavailable.

Definition insertReservationBundle (bundle : ReservationBundle) : Tx unit :=
  _ ← insertCapacityRow (rb_Capacity bundle);
  insertBudgetRow (rb_Budget bundle).

(** What [Reserve] does when there is no active reservation. *)
Definition reserveNew (newCapacityID newBudgetID : res UUID) (request : ReservationRequest) (budgetLimit : Z)
    : Tx ReservationBundle :=
  snapshot ← queryRow (fun db => latestSnapshot db (rq_res_ClusterID request));
  _ ← capacityCheck (rq_res_ClusterID request) (cc_AllocatableCPUMillis snapshot)
        (cc_AllocatableMemoryMiB snapshot) (rq_res_CPUMillis request) (rq_res_MemoryMiB request) (rq_res_Now request);
  let usageDate := usageDateOf (rq_res_Now request) in
  _ ← budgetCheck (rq_res_TenantID request) budgetLimit (rq_res_BudgetMinorUnits request) usageDate (rq_res_Now request);
  bundle ← lift (newReservationBundle newCapacityID newBudgetID request usageDate);
  _ ← insertReservationBundle bundle;
  _ ← updateUsageRow (rq_res_TenantID request) usageDate (rq_res_BudgetMinorUnits request) 0 (rq_res_Now request);
  mret bundle.

Definition reserveTx (newCapacityID newBudgetID : res UUID) (request : ReservationRequest) : Tx ReservationBundle :=
  policy ← queryRow (fun db => db_policies db !! rq_res_TenantID request);
  _ ← queryRow (fun db => db_clusters db !! rq_res_ClusterID request);
  existing ← findActiveReservation request;
  match existing with
  | Some existing =>
      _ ← abortIf ((cr_ClusterID (rb_Capacity existing) != rq_res_ClusterID request)
            || negb (cr_CPUMillis (rb_Capacity existing) =? rq_res_CPUMillis request)
            || negb (cr_MemoryMiB (rb_Capacity existing) =? rq_res_MemoryMiB request)
            || negb (br_AmountMinorUnits (rb_Budget existing) =? rq_res_BudgetMinorUnits request)
            || (cr_AttemptID (rb_Capacity existing) != rq_res_AttemptID request)) ErrConflict;
      mret existing
  | None => reserveNew newCapacityID newBudgetID request (pr_DailyBudgetMinorUnits policy)
  end.

Definition Reserve (newCapacityID newBudgetID : res UUID) (request : ReservationRequest) (db : DB)
    : res ReservationBundle * DB :=
  match validateReservationRequest request with
  | Err e => (Err e, db)
  | Ok _ => transact (reserveTx newCapacityID newBudgetID request) db
  end.

(** *** Transitions *)

(** [order by capacity.created_at desc limit 1] over the reservations of an attempt. *)
Definition newerBundle (a b : ReservationBundle) : ReservationBundle :=
  if cr_CreatedAt (rb_Capacity a) <? cr_CreatedAt (rb_Capacity b) then b else a.

Definition latestReservation (db : DB) (tenantID runID : UUID) (attemptNumber : Z) : option ReservationBundle :=
  match filter (forAttempt tenantID runID attemptNumber) (joinedReservations db) with
  | [] => None
  | first :: rest => Some (foldl newerBundle first rest)
  end.

(** The columns a transition sets: the state and the timestamp it calls for. *)
Definition closeCapacity (target : ReservationState) (now : Time) (c : CapacityReservation) : CapacityReservation :=
  if target == ReservationSettled
  then c <| cr_State := target |> <| cr_SettledAt := Some (pgTime now) |>
  else c <| cr_State := target |> <| cr_ReleasedAt := Some (pgTime now) |>.

Definition closeBudget (target : ReservationState) (now : Time) (b : BudgetReservation) : BudgetReservation :=
  if target == ReservationSettled
  then b <| br_State := target |> <| br_SettledAt := Some (pgTime now) |>
  else b <| br_State := target |> <| br_ReleasedAt := Some (pgTime now) |>.

(** [update capacity_reservations ... where id=$1 and state='RESERVED'] *)
Definition updateCapacityRow (capacityID : UUID) (target : ReservationState) (now : Time) : Tx unit :=
  db ← query id;
  match db_capacity db !! capacityID with
  | Some c =>
      if cr_State c == ReservationReserved
      then _ ← abortIf (negb (reservationTimesValid target (cr_SettledAt (closeCapacity target now c))
                                (cr_ReleasedAt (closeCapacity target now c)))) (ErrPlain "check constraint violated");
           modify (fun db => db <| db_capacity := <[capacityID := closeCapacity target now c]> (db_capacity db) |>)
      else mret tt
  | None => mret tt
  end.

Definition updateBudgetRow (budgetID : UUID) (target : ReservationState) (now : Time) : Tx unit :=
  db ← query id;
  match db_budget db !! budgetID with
  | Some b =>
      if br_State b == ReservationReserved
      then _ ← abortIf (negb (reservationTimesValid target (br_SettledAt (closeBudget target now b))
                                (br_ReleasedAt (closeBudget target now b)))) (ErrPlain "check constraint violated");
           modify (fun db => db <| db_budget := <[budgetID := closeBudget target now b]> (db_budget db) |>)
      else mret tt
  | None => mret tt
  end.

Definition transitionTx (tenantID runID : UUID) (attemptNumber : Z) (now : Time) (target : ReservationState) : Tx bool :=
  bundle ← queryRow (fun db => latestReservation db tenantID runID attemptNumber);
  let state := cr_State (rb_Capacity bundle) in
  if state == target then mret false else
  _ ← abortIf (state != ReservationReserved) ErrConflict;
  if (target == ReservationExpired) && After (cr_ExpiresAt (rb_Capacity bundle)) (UTC now) then mret false else
  _ ← updateCapacityRow (cr_ID (rb_Capacity bundle)) target now;
  _ ← updateBudgetRow (br_ID (rb_Budget bundle)) target now;
  let amount := br_AmountMinorUnits (rb_Budget bundle) in
  _ ← updateUsageRow tenantID (br_UsageDate (rb_Budget bundle)) (- amount)
        (if target == ReservationSettled then amount else 0) now;
  mret true.

Definition transition (tenantID runID : UUID) (attemptNumber : Z) (now : Time) (target : ReservationState) (db : DB)
    : res bool * DB :=
  if (tenantID == uuidNil) || (runID == uuidNil) || (attemptNumber <? 1) || IsZero now
  then (Err (ErrPlain "reservation transition identity is invalid"), db)
  else transact (transitionTx tenantID runID attemptNumber now target) db.

(** [_, err := transition(...); return err] *)
Definition discard {A} (r : res A * DB) : res unit * DB :=
  (match r.1 with Ok _ => Ok tt | Err e => Err e end, r.2).

Definition Release (tenantID runID : UUID) (attemptNumber : Z) (now : Time) (db : DB) : res unit * DB :=
  discard (transition tenantID runID attemptNumber now ReservationReleased db).

Definition Settle (tenantID runID : UUID) (attemptNumber : Z) (now : Time) (db : DB) : res unit * DB :=
  discard (transition tenantID runID attemptNumber now ReservationSettled db).

(** *** Reclaiming *)

Definition expiry_le (a b : CapacityReservation) : Prop :=
  cr_ExpiresAt a < cr_ExpiresAt b \/ (cr_ExpiresAt a = cr_ExpiresAt b /\ cr_ID a <= cr_ID b).

#[export] Instance expiry_le_dec : RelDecision expiry_le.
Proof. intros a b. unfold expiry_le. apply _. Defined.

(** [where state='RESERVED' and expires_at<=$1 order by expires_at,id limit $2] *)
Definition expiredReservations (db : DB) (now : Time) (limit : Z) : list CapacityReservation :=
  take (Z.to_nat limit) (merge_sort expiry_le (filter
    (fun c => cr_State c = ReservationReserved /\ cr_ExpiresAt c <= pgTime now) ((map_to_list (db_capacity db)).*2))).

(** The loop: one transaction per item, stopping at the first error. *)
Fixpoint reclaimLoop (items : list CapacityReservation) (now : Time) (reclaimed : Z) (db : DB) : Z * option error * DB :=
  match items with
  | [] => (reclaimed, None, db)
  | item :: rest =>
      match transition (cr_TenantID item) (cr_RunID item) (cr_AttemptNumber item) now ReservationExpired db with
      | (Err e, db') => (reclaimed, Some e, db')
      | (Ok changed, db') => reclaimLoop rest now (if changed then reclaimed + 1 else reclaimed) db'
      end
  end.

Definition ReclaimExpired (now : Time) (limit : Z) (db : DB) : Z * option error * DB :=
  if IsZero now || (limit <? 1) || (1000 <? limit)
  then (0, Some (ErrPlain "expired reservation reclaim request is invalid"), db)
  else reclaimLoop (expiredReservations db now limit) now 0 db.
End Reservations.

(** ** The books balance *)

Definition countsFor (tenantID : UUID) (usageDate : Time) (state : ReservationState) (b : BudgetReservation) : Z :=
  if bool_decide (br_TenantID b = tenantID /\ br_UsageDate b = usageDate /\ br_State b = state)
  then br_AmountMinorUnits b else 0.

(** The amount a tenant holds, or has spent, on a day according to the reservations. *)
Definition totalIn (db : DB) (tenantID : UUID) (usageDate : Time) (state : ReservationState) : Z :=
  mapSum (countsFor tenantID usageDate state) (db_budget db).

(** A budget reservation and the capacity reservation it belongs to. *)
Definition paired (b : BudgetReservation) (c : CapacityReservation) : Prop :=
  cr_State c = br_State b /\ cr_TenantID c = br_TenantID b /\ cr_RunID c = br_RunID b /\
  cr_AttemptNumber c = br_AttemptNumber b.

Record reservation_inv (db : DB) : Prop := {
  ri_capacity_id : forall id c, db_capacity db !! id = Some c -> cr_ID c = id;
  ri_budget_id : forall id b, db_budget db !! id = Some b -> br_ID b = id;
  ri_pair : forall id b, db_budget db !! id = Some b ->
    exists c, db_capacity db !! br_CapacityReservationID b = Some c /\ paired b c;
  ri_owner : forall id1 b1 id2 b2, db_budget db !! id1 = Some b1 -> db_budget db !! id2 = Some b2 ->
    br_CapacityReservationID b1 = br_CapacityReservationID b2 -> id1 = id2;
  ri_active : forall id1 c1 id2 c2, db_capacity db !! id1 = Some c1 -> db_capacity db !! id2 = Some c2 ->
    cr_State c1 = ReservationReserved -> cr_State c2 = ReservationReserved ->
    cr_RunID c1 = cr_RunID c2 -> cr_AttemptNumber c1 = cr_AttemptNumber c2 -> id1 = id2;
  ri_backed : forall id c, db_capacity db !! id = Some c ->
    exists bid b, db_budget db !! bid = Some b /\ br_CapacityReservationID b = id;
  ri_capacity_open : forall id c, db_capacity db !! id = Some c -> 1 <= cr_CPUMillis c /\ 1 <= cr_MemoryMiB c /\
    (cr_State c = ReservationReserved -> cr_SettledAt c = None /\ cr_ReleasedAt c = None);
  ri_budget_open : forall id b, db_budget db !! id = Some b ->
    br_State b = ReservationReserved -> br_SettledAt b = None /\ br_ReleasedAt b = None;
  ri_amount : forall id b, db_budget db !! id = Some b -> 0 <= br_AmountMinorUnits b;
  ri_row : forall id b, db_budget db !! id = Some b -> is_Some (db_usage db !! (br_TenantID b, br_UsageDate b));
  ri_totals : forall t d u, db_usage db !! (t, d) = Some u ->
    bu_Reserved u = totalIn db t d ReservationReserved /\ bu_Spent u = totalIn db t d ReservationSettled;
  ri_bound : forall t d u, db_usage db !! (t, d) = Some u -> bu_Spent u + bu_Reserved u < 2 ^ 63;
}.

(** The tables the reservation repository never writes. *)
Definition other_tables_kept (db db' : DB) : Prop :=
  db_tenants db' = db_tenants db /\ db_projects db' = db_projects db /\ db_runs db' = db_runs db /\
  db_attempts db' = db_attempts db /\ db_policies db' = db_policies db /\ db_clusters db' = db_clusters db /\
  db_snapshots db' = db_snapshots db /\ db_allowlist db' = db_allowlist db /\ db_outbox db' = db_outbox db /\
  db_handoff db' = db_handoff db /\ db_eligibility db' = db_eligibility db.

Lemma joined_spec db bundle :
  bundle ∈ joinedReservations db <->
  db_capacity db !! br_CapacityReservationID (rb_Budget bundle) = Some (rb_Capacity bundle) /\
  exists id, db_budget db !! id = Some (rb_Budget bundle).
Proof.
  unfold joinedReservations. rewrite list_elem_of_omap. split.
  - intros ([id b] & Hin%elem_of_map_to_list & Hb). simpl in Hb.
    apply fmap_Some in Hb as (c & Hc & ->). eauto.
  - intros (Hc & id & Hb). exists (id, rb_Budget bundle). rewrite elem_of_map_to_list. split; [done|].
    rewrite Hc. by destruct bundle.
Qed.

Lemma foldl_newer_elem first rest : foldl newerBundle first rest ∈ first :: rest.
Proof.
  revert first. induction rest as [|b rest IH]; intros first; simpl; [by left|].
  destruct (proj1 (elem_of_cons _ _ _) (IH (newerBundle first b))) as [Heq|Hin]; [|by do 2 right].
  rewrite Heq. unfold newerBundle. case_match; [by right; left|by left].
Qed.

Lemma latest_spec db t r n bundle :
  latestReservation db t r n = Some bundle -> bundle ∈ joinedReservations db /\ forAttempt t r n bundle.
Proof.
  unfold latestReservation. destruct (filter _ _) as [|first rest] eqn:Hf; [done|]. intros [= <-].
  pose proof (foldl_newer_elem first rest) as Hin. rewrite <-Hf in Hin.
  apply list_elem_of_filter in Hin as [? ?]. done.
Qed.

(** The bundle a transition works on, in a consistent store. *)
Lemma latest_rows db t r n bundle :
  reservation_inv db -> latestReservation db t r n = Some bundle ->
  db_capacity db !! cr_ID (rb_Capacity bundle) = Some (rb_Capacity bundle) /\
  db_budget db !! br_ID (rb_Budget bundle) = Some (rb_Budget bundle) /\
  br_CapacityReservationID (rb_Budget bundle) = cr_ID (rb_Capacity bundle) /\
  paired (rb_Budget bundle) (rb_Capacity bundle) /\ br_TenantID (rb_Budget bundle) = t.
Proof.
  intros Hinv [[Hc (id & Hb)]%joined_spec (Ht & _ & _)]%latest_spec.
  pose proof (ri_capacity_id _ Hinv _ _ Hc) as Hcid. pose proof (ri_budget_id _ Hinv _ _ Hb) as Hbid.
  destruct (ri_pair _ Hinv _ _ Hb) as (c & Hc' & Hp). rewrite Hc in Hc'. injection Hc' as <-.
  subst id. rewrite <-Hcid in Hc. split_and!; try done. destruct Hp as (_ & Hp & _). congruence.
Qed.

(** What closing a reservation keeps and sets. *)
Lemma closeCapacity_spec target now c :
  cr_State (closeCapacity target now c) = target /\ cr_ID (closeCapacity target now c) = cr_ID c /\
  cr_TenantID (closeCapacity target now c) = cr_TenantID c /\ cr_RunID (closeCapacity target now c) = cr_RunID c /\
  cr_AttemptNumber (closeCapacity target now c) = cr_AttemptNumber c /\
  cr_CPUMillis (closeCapacity target now c) = cr_CPUMillis c /\
  cr_MemoryMiB (closeCapacity target now c) = cr_MemoryMiB c /\
  cr_CreatedAt (closeCapacity target now c) = cr_CreatedAt c /\
  cr_ExpiresAt (closeCapacity target now c) = cr_ExpiresAt c.
Proof. unfold closeCapacity. by case_match. Qed.

Lemma closeBudget_spec target now b :
  br_State (closeBudget target now b) = target /\ br_ID (closeBudget target now b) = br_ID b /\
  br_TenantID (closeBudget target now b) = br_TenantID b /\ br_RunID (closeBudget target now b) = br_RunID b /\
  br_AttemptNumber (closeBudget target now b) = br_AttemptNumber b /\
  br_UsageDate (closeBudget target now b) = br_UsageDate b /\
  br_AmountMinorUnits (closeBudget target now b) = br_AmountMinorUnits b /\
  br_CapacityReservationID (closeBudget target now b) = br_CapacityReservationID b.
Proof. unfold closeBudget. by case_match. Qed.

(** The effect of closing the reservation [c], [b] on the tables. *)
Record closes (target : ReservationState) (now : Time) (c : CapacityReservation) (b : BudgetReservation)
    (db db' : DB) : Prop := {
  cl_capacity : db_capacity db' = <[cr_ID c := closeCapacity target now c]> (db_capacity db);
  cl_budget : db_budget db' = <[br_ID b := closeBudget target now b]> (db_budget db);
  cl_usage : exists u, db_usage db !! (br_TenantID b, br_UsageDate b) = Some u /\
    db_usage db' = <[(br_TenantID b, br_UsageDate b) :=
      {| bu_Spent := bu_Spent u + (if target == ReservationSettled then br_AmountMinorUnits b else 0);
         bu_Reserved := bu_Reserved u - br_AmountMinorUnits b; bu_UpdatedAt := pgTime now |}]> (db_usage db);
  cl_kept : other_tables_kept db db';
}.

Section Spec.
Context `{UUIDs}.

Lemma updateCapacityRow_reserved id target now c db u db' :
  db_capacity db !! id = Some c -> cr_State c = ReservationReserved ->
  updateCapacityRow id target now db = Ok (u, db') ->
  db' = db <| db_capacity := <[id := closeCapacity target now c]> (db_capacity db) |>.
Proof.
  intros Hc Hs Hu. unfold updateCapacityRow in Hu. tx_inv. simpl in Hu.
  rewrite Hc, bool_decide_eq_true_2 in Hu by done. by tx_inv.
Qed.

Lemma updateBudgetRow_reserved id target now b db u db' :
  db_budget db !! id = Some b -> br_State b = ReservationReserved ->
  updateBudgetRow id target now db = Ok (u, db') ->
  db' = db <| db_budget := <[id := closeBudget target now b]> (db_budget db) |>.
Proof.
  intros Hb Hs Hu. unfold updateBudgetRow in Hu. tx_inv. simpl in Hu.
  rewrite Hb, bool_decide_eq_true_2 in Hu by done. by tx_inv.
Qed.

Lemma updateUsageRow_some t d r s now usage db u db' :
  db_usage db !! (t, d) = Some usage -> updateUsageRow t d r s now db = Ok (u, db') ->
  db' = db <| db_usage := <[(t, d) := {| bu_Spent := bu_Spent usage + s; bu_Reserved := bu_Reserved usage + r;
                                         bu_UpdatedAt := pgTime now |}]> (db_usage db) |> /\
  0 <= bu_Reserved usage + r /\ 0 <= bu_Spent usage + s.
Proof.
  intros Hu Hup. unfold updateUsageRow in Hup. tx_inv. simpl in Hup. rewrite Hu in Hup. tx_inv.
  repeat match goal with H : bigint _ = Ok _ |- _ => apply bigint_ok in H as [-> _] end.
  cases_bools. split_and!; [done|lia|lia].
Qed.

Lemma transitionTx_spec t r n now target db changed db' :
  reservation_inv db -> transitionTx t r n now target db = Ok (changed, db') ->
  exists bundle, latestReservation db t r n = Some bundle /\
    ((changed = false /\ db' = db /\
        (cr_State (rb_Capacity bundle) = target \/
         (target = ReservationExpired /\ cr_State (rb_Capacity bundle) = ReservationReserved /\
          now < cr_ExpiresAt (rb_Capacity bundle)))) \/
     (changed = true /\ cr_State (rb_Capacity bundle) = ReservationReserved /\ target <> ReservationReserved /\
        (target = ReservationExpired -> cr_ExpiresAt (rb_Capacity bundle) <= now) /\
        closes target now (rb_Capacity bundle) (rb_Budget bundle) db db')).
Proof.
  intros Hinv Htx. unfold transitionTx in Htx.
  apply tx_bind_ok in Htx as (bundle & db1 & [Hl ->]%queryRow_ok & Htx).
  exists bundle. split; [done|]. simpl in Htx.
  destruct (latest_rows _ _ _ _ _ Hinv Hl) as (Hc & Hb & Hcap & (Hst & _ & _) & Hten).
  case_bool_decide as Htarget; [tx_inv; by left; auto|].
  apply tx_bind_ok in Htx as (u & db1 & [Hres ->]%abortIf_ok & Htx). reflect_bools.
  destruct (_ && After _ _) eqn:Hexp.
  { tx_inv. reflect_bools. unfold After, UTC in *. left. split_and!; try done. right. split_and!; try done. lia. }
  apply tx_bind_ok in Htx as ([] & db1 & Hu1 & Htx). apply tx_bind_ok in Htx as ([] & db2 & Hu2 & Htx).
  apply (updateCapacityRow_reserved _ _ _ _ _ _ _ Hc Hres) in Hu1. subst db1.
  apply (updateBudgetRow_reserved _ _ _ (rb_Budget bundle)) in Hu2; [|done|congruence]. subst db2.
  destruct (ri_row _ Hinv _ _ Hb) as [usage Husage]. rewrite Hten in Husage.
  apply tx_bind_ok in Htx as ([] & db1 & Hu3 & Htx). tx_inv.
  apply (updateUsageRow_some _ _ _ _ _ usage) in Hu3 as (-> & _); [|done].
  right. split_and!; try done; try congruence.
  - intros ->. rewrite bool_decide_eq_true_2 in Hexp by done. unfold After, UTC in Hexp. simpl in Hexp. lia.
  - split; try done. exists usage. rewrite Hten. split; [done|]. simpl. done.
Qed.
End Spec.

(** Moving one budget reservation from [RESERVED] to [target] moves its amount. *)
Lemma totalIn_close db db' b target now t d :
  db_budget db !! br_ID b = Some b -> br_State b = ReservationReserved -> target <> ReservationReserved ->
  db_budget db' = <[br_ID b := closeBudget target now b]> (db_budget db) ->
  totalIn db' t d ReservationReserved = totalIn db t d ReservationReserved
    - (if decide (t = br_TenantID b /\ d = br_UsageDate b) then br_AmountMinorUnits b else 0) /\
  totalIn db' t d ReservationSettled = totalIn db t d ReservationSettled
    + (if decide (t = br_TenantID b /\ d = br_UsageDate b) then
         if target == ReservationSettled then br_AmountMinorUnits b else 0 else 0).
Proof.
  intros Hb Hs Ht Hdb. unfold totalIn. rewrite Hdb, !(mapSum_insert _ _ _ b) by done.
  destruct (closeBudget_spec target now b) as (Hst & _ & Hten & _ & _ & Hdate & Ham & _).
  unfold countsFor. rewrite Hst, Hten, Hdate, Ham, Hs.
  repeat case_bool_decide; repeat case_decide; naive_solver lia.
Qed.

Lemma closes_inv target now c b db db' :
  reservation_inv db -> db_capacity db !! cr_ID c = Some c -> db_budget db !! br_ID b = Some b ->
  br_CapacityReservationID b = cr_ID c -> paired b c -> cr_State c = ReservationReserved ->
  target <> ReservationReserved -> closes target now c b db db' -> reservation_inv db'.
Proof.
  intros [Hcid Hbid Hpair Hown Hact Hback Hcop Hbop Ham Hrow Htot Hbnd] Hc Hb Hcb Hp Hs Ht
    [Hc' Hb' (u & Hu & Hu') _].
  destruct (closeCapacity_spec target now c) as (C1 & C2 & C3 & C4 & C5 & C6 & C7 & _).
  destruct (closeBudget_spec target now b) as (B1 & B2 & B3 & B4 & B5 & B6 & B7 & B8).
  assert (Hbs : br_State b = ReservationReserved) by (destruct Hp; congruence).
  split; rewrite ?Hc', ?Hb', ?Hu'.
  - intros id c0 [[<- <-]|[_ ?]]%lookup_insert_Some; eauto.
  - intros id b0 [[<- <-]|[_ ?]]%lookup_insert_Some; eauto.
  - intros id b0 [[<- <-]|[Hne Hb0]]%lookup_insert_Some.
    + rewrite B8, Hcb, lookup_insert_eq. eexists; split; [done|].
      destruct Hp as (? & ? & ? & ?). split_and!; congruence.
    + rewrite lookup_insert_ne; [by apply Hpair in Hb0|]. intros Heq. apply Hne. apply (Hown _ b _ b0); congruence.
  - intros id1 b1 id2 b2 [[<- <-]|[? H1]]%lookup_insert_Some [[<- <-]|[? H2]]%lookup_insert_Some; rewrite ?B8; eauto.
  - intros id1 c1 id2 c2 [[<- <-]|[? H1]]%lookup_insert_Some [[<- <-]|[? H2]]%lookup_insert_Some; try congruence; eauto.
  - intros id c0 Hc0. assert (Hback' : exists bid b0, db_budget db !! bid = Some b0 /\ br_CapacityReservationID b0 = id).
    { apply lookup_insert_Some in Hc0 as [[<- <-]|[_ ?]]; eauto. }
    destruct Hback' as (bid & b0 & Hb0 & Hid). destruct (decide (bid = br_ID b)) as [->|].
    + exists (br_ID b), (closeBudget target now b). rewrite lookup_insert_eq, B8. split; [done|]. congruence.
    + exists bid, b0. by rewrite lookup_insert_ne.
  - intros id c0 [[<- <-]|[_ ?]]%lookup_insert_Some; [|eauto]. rewrite C1, C6, C7.
    destruct (Hcop _ _ Hc) as (? & ? & _). split_and!; done.
  - intros id b0 [[<- <-]|[_ ?]]%lookup_insert_Some; [by rewrite B1|eauto].
  - intros id b0 [[<- <-]|[_ ?]]%lookup_insert_Some; [rewrite B7|]; eauto.
  - intros id b0 Hb0. rewrite lookup_insert_is_Some.
    destruct (decide ((br_TenantID b, br_UsageDate b) = (br_TenantID b0, br_UsageDate b0))); [by left|right].
    split; [done|]. apply lookup_insert_Some in Hb0 as [[<- <-]|[_ ?]]; [|eauto].
    rewrite B3, B6. eauto.
  - intros t d u0 Hu0. destruct (totalIn_close db db' b target now t d Hb Hbs Ht Hb') as [-> ->].
    apply lookup_insert_Some in Hu0 as [[[= <- <-] <-]|[Hne Hu0]]; simpl.
    + rewrite !decide_True by done. destruct (Htot _ _ _ Hu) as [-> ->]. split; [lia|done].
    + rewrite !decide_False by (intros [-> ->]; done). destruct (Htot _ _ _ Hu0) as [-> ->]. lia.
  - intros t d u0 [[_ <-]|[_ Hu0]]%lookup_insert_Some; [|eauto]. simpl.
    pose proof (Hbnd _ _ _ Hu). pose proof (Ham _ _ Hb). case_match; lia.
Qed.

Definition usageOrZero (db : DB) (tenantID : UUID) (usageDate : Time) : BudgetUsageRow :=
  default {| bu_Spent := 0; bu_Reserved := 0; bu_UpdatedAt := 0 |} (db_usage db !! (tenantID, usageDate)).

(** The effect of opening a reservation on the tables. *)
Record opens (bundle : ReservationBundle) (now : Time) (db db' : DB) : Prop := {
  op_capacity_new : db_capacity db !! cr_ID (rb_Capacity bundle) = None;
  op_budget_new : db_budget db !! br_ID (rb_Budget bundle) = None;
  op_owner_new : forall id b, db_budget db !! id = Some b ->
    br_CapacityReservationID b <> br_CapacityReservationID (rb_Budget bundle);
  op_active_new : forall id c, db_capacity db !! id = Some c -> cr_State c = ReservationReserved ->
    cr_RunID c = cr_RunID (rb_Capacity bundle) ->
    cr_AttemptNumber c = cr_AttemptNumber (rb_Capacity bundle) -> False;
  op_capacity : db_capacity db' = <[cr_ID (rb_Capacity bundle) := pgCapacity (rb_Capacity bundle)]> (db_capacity db);
  op_budget : db_budget db' = <[br_ID (rb_Budget bundle) := pgBudget (rb_Budget bundle)]> (db_budget db);
  op_usage :
    let t := br_TenantID (rb_Budget bundle) in let d := br_UsageDate (rb_Budget bundle) in
    db_usage db' = <[(t, d) :=
      {| bu_Spent := bu_Spent (usageOrZero db t d);
         bu_Reserved := bu_Reserved (usageOrZero db t d) + br_AmountMinorUnits (rb_Budget bundle);
         bu_UpdatedAt := pgTime now |}]> (db_usage db);
  op_kept : other_tables_kept db db';
}.

(** A well-formed new bundle. *)
Definition fresh_bundle (bundle : ReservationBundle) : Prop :=
  paired (rb_Budget bundle) (rb_Capacity bundle) /\ cr_State (rb_Capacity bundle) = ReservationReserved /\
  br_CapacityReservationID (rb_Budget bundle) = cr_ID (rb_Capacity bundle) /\
  0 <= br_AmountMinorUnits (rb_Budget bundle) /\
  1 <= cr_CPUMillis (rb_Capacity bundle) /\ 1 <= cr_MemoryMiB (rb_Capacity bundle) /\
  cr_SettledAt (rb_Capacity bundle) = None /\ cr_ReleasedAt (rb_Capacity bundle) = None /\
  br_SettledAt (rb_Budget bundle) = None /\ br_ReleasedAt (rb_Budget bundle) = None.

Section OpenSpec.
Context `{UUIDs}.

Lemma budgetCheck_spec t limit amount d now db u db' :
  budgetCheck t limit amount d now db = Ok (u, db') ->
  exists usage, db' = db <| db_usage := <[(t, d) := usage]> (db_usage db) |> /\
    bu_Spent usage = bu_Spent (usageOrZero db t d) /\ bu_Reserved usage = bu_Reserved (usageOrZero db t d) /\
    amount <= sub64 (sub64 limit (bu_Spent usage)) (bu_Reserved usage).
Proof.
  unfold budgetCheck, ensureUsageRow, usageOrZero. intros Hb. apply tx_bind_ok in Hb as ([] & db1 & He & Hb).
  apply tx_bind_ok in Hb as (usage & db2 & [Hu ->]%queryRow_ok & [Hlt ->]%abortIf_ok).
  exists usage. rewrite Z.ltb_ge in Hlt.
  tx_inv. simpl in He. destruct (db_usage db !! (t, d)) as [usage0|] eqn:E; tx_inv.
  - rewrite E in Hu. injection Hu as ->. split_and!; try done.
    rewrite insert_id by done. by destruct db.
  - simpl in Hu. rewrite lookup_insert_eq in Hu. injection Hu as <-. simpl in *. split_and!; done.
Qed.

Lemma map_Exists_false {A} (m : gmap UUID A) (P : UUID -> A -> Prop) `{!forall i a, Decision (P i a)} :
  bool_decide (map_Exists P m) = false -> forall i a, m !! i = Some a -> ~ P i a.
Proof. intros Hf%bool_decide_eq_false i a Hi Hp. apply Hf. by exists i, a. Qed.

Lemma insertCapacityRow_spec c db u db' :
  cr_State c = ReservationReserved -> insertCapacityRow c db = Ok (u, db') ->
  db' = db <| db_capacity := <[cr_ID c := pgCapacity c]> (db_capacity db) |> /\
  db_capacity db !! cr_ID c = None /\
  (forall id c', db_capacity db !! id = Some c' -> cr_State c' = ReservationReserved ->
     cr_RunID c' = cr_RunID c -> cr_AttemptNumber c' = cr_AttemptNumber c -> False).
Proof.
  intros Hs Hi. unfold insertCapacityRow in Hi. tx_inv. simpl in *.
  rewrite (bool_decide_eq_true_2 _ Hs) in *. cbn [andb] in *.
  match goal with Ha : bool_decide (map_Exists _ _) = false |- _ => pose proof (map_Exists_false _ _ Ha) as Hact end.
  match goal with Ha : bool_decide (is_Some _) = false |- _ => apply bool_decide_eq_false in Ha; rename Ha into Hnone end.
  rewrite <-eq_None_not_Some in Hnone. split_and!; try done. intros id c' Hc' ???. by apply (Hact id c' Hc').
Qed.

Lemma insertBudgetRow_spec b db u db' :
  insertBudgetRow b db = Ok (u, db') ->
  db' = db <| db_budget := <[br_ID b := pgBudget b]> (db_budget db) |> /\ db_budget db !! br_ID b = None /\
  (forall id b', db_budget db !! id = Some b' -> br_CapacityReservationID b' <> br_CapacityReservationID b).
Proof.
  intros Hi. unfold insertBudgetRow in Hi. tx_inv. simpl in *.
  match goal with Ha : (bool_decide (is_Some _) || bool_decide (map_Exists _ _)) = false |- _ =>
    apply orb_false_iff in Ha as [Hnone%bool_decide_eq_false Hown] end.
  rewrite <-eq_None_not_Some in Hnone. pose proof (map_Exists_false _ _ Hown) as Hown'. split_and!; done.
Qed.

Lemma opens_spec bundle limit now db db1 db2 db3 u1 u2 u3 :
  let t := br_TenantID (rb_Budget bundle) in let d := br_UsageDate (rb_Budget bundle) in
  let amount := br_AmountMinorUnits (rb_Budget bundle) in
  cr_State (rb_Capacity bundle) = ReservationReserved ->
  budgetCheck t limit amount d now db = Ok (u1, db1) ->
  insertReservationBundle bundle db1 = Ok (u2, db2) ->
  updateUsageRow t d amount 0 now db2 = Ok (u3, db3) ->
  opens bundle now db db3 /\
  amount <= sub64 (sub64 limit (bu_Spent (usageOrZero db t d))) (bu_Reserved (usageOrZero db t d)).
Proof.
  intros t d amount Hs (usage & -> & Husp & Hures & Ham)%budgetCheck_spec Hins Hup.
  unfold insertReservationBundle in Hins. apply tx_bind_ok in Hins as ([] & db1' & Hc & Hb).
  apply insertCapacityRow_spec in Hc as (-> & Hcnone & Hact); [|done].
  apply insertBudgetRow_spec in Hb as (-> & Hbnone & Hown). simpl in *.
  apply (updateUsageRow_some _ _ _ _ _ usage) in Hup as (-> & _); [|simpl; apply lookup_insert_eq].
  rewrite <-Husp, <-Hures. split; [|done]. split; simpl; try done.
  rewrite insert_insert_eq. subst t d amount. by rewrite Husp, Hures, Z.add_0_r.
Qed.
End OpenSpec.

Lemma opens_inv bundle now db db' :
  reservation_inv db -> fresh_bundle bundle -> opens bundle now db db' ->
  (let usage := usageOrZero db (br_TenantID (rb_Budget bundle)) (br_UsageDate (rb_Budget bundle)) in
   bu_Spent usage + bu_Reserved usage + br_AmountMinorUnits (rb_Budget bundle) < 2 ^ 63) ->
  reservation_inv db'.
Proof.
  intros [Hcid Hbid Hpair Hown Hact Hback Hcop Hbop Ham Hrow Htot Hbnd]
    (Hp & Hs & Hcb & Hnn & Hcpu & Hmem & Hst & Hrt & Hbst & Hbrt) [Hcn Hbn Hon Han Hc' Hb' Hu' _] Hfit.
  destruct Hp as (Hp1 & Hp2 & Hp3 & Hp4). simpl in Hu'.
  split; rewrite ?Hc', ?Hb', ?Hu'.
  - intros id c [[<- <-]|[_ ?]]%lookup_insert_Some; eauto.
  - intros id b [[<- <-]|[_ ?]]%lookup_insert_Some; eauto.
  - intros id b [[<- <-]|[_ Hb]]%lookup_insert_Some.
    + simpl. rewrite Hcb, lookup_insert_eq. eexists; split; [done|]. by split_and!.
    + destruct (Hpair _ _ Hb) as (c & Hc & Hpc). exists c. split; [|done].
      rewrite lookup_insert_ne; [done|]. intros Heq. congruence.
  - intros id1 b1 id2 b2 [[<- <-]|[? H1]]%lookup_insert_Some [[<- <-]|[? H2]]%lookup_insert_Some; simpl; eauto;
      intros Heq; exfalso; [by eapply Hon|by eapply Hon].
  - intros id1 c1 id2 c2 [[<- <-]|[? H1]]%lookup_insert_Some [[<- <-]|[? H2]]%lookup_insert_Some; simpl; eauto;
      intros; exfalso; [by eapply Han|by eapply Han].
  - intros id c [[<- <-]|[Hne Hc]]%lookup_insert_Some.
    + exists (br_ID (rb_Budget bundle)), (pgBudget (rb_Budget bundle)). by rewrite lookup_insert_eq.
    + destruct (Hback _ _ Hc) as (bid & b & Hb & Hid). exists bid, b. rewrite lookup_insert_ne; [done|]. congruence.
  - intros id c [[<- <-]|[_ ?]]%lookup_insert_Some; [by split_and!|eauto].
  - intros id b [[<- <-]|[_ ?]]%lookup_insert_Some; [done|eauto].
  - intros id b [[<- <-]|[_ ?]]%lookup_insert_Some; simpl; eauto.
  - intros id b [[<- <-]|[_ Hb]]%lookup_insert_Some; simpl; [by rewrite lookup_insert_eq|].
    apply lookup_insert_is_Some'. right. eauto.
  - intros t d u Hu.
    assert (Htr : forall s, totalIn db' t d s = totalIn db t d s + countsFor t d s (pgBudget (rb_Budget bundle))).
    { intros s. unfold totalIn. rewrite Hb', mapSum_insert_new by done. lia. }
    rewrite !Htr. unfold countsFor. simpl. rewrite <-Hp1, Hs.
    assert (Hz : forall s, db_usage db !! (t, d) = None -> totalIn db t d s = 0).
    { intros s Hnone. unfold totalIn. apply Z.le_antisymm.
      - apply mapSum_nonpos. intros k b Hb. unfold countsFor. case_bool_decide as Hk; [|done].
        destruct Hk as (<- & <- & _). destruct (Hrow _ _ Hb). congruence.
      - apply mapSum_nonneg. intros k b Hb. unfold countsFor. case_bool_decide; [eauto|done]. }
    unfold usageOrZero in Hu. apply lookup_insert_Some in Hu as [[[= <- <-] <-]|[Hne Hu]]; simpl.
    + rewrite bool_decide_eq_true_2 by done. rewrite bool_decide_eq_false_2 by (by intros (_ & _ & ?)).
      destruct (db_usage db !! _) as [u|] eqn:E; simpl; [destruct (Htot _ _ _ E) as [-> ->]|rewrite !Hz by done]; lia.
    + rewrite !bool_decide_eq_false_2 by (intros (<- & <- & _); done). destruct (Htot _ _ _ Hu). lia.
  - intros t d u [[[= <- <-] <-]|[_ Hu]]%lookup_insert_Some; [|eauto]. simpl in *. lia.
Qed.

(** ** Transitions always go through *)

Section Totality.
Context `{UUIDs}.

Lemma closeTimes_valid target now :
  target <> ReservationReserved ->
  (forall c, cr_SettledAt c = None -> cr_ReleasedAt c = None ->
     reservationTimesValid target (cr_SettledAt (closeCapacity target now c))
       (cr_ReleasedAt (closeCapacity target now c)) = true) /\
  (forall b, br_SettledAt b = None -> br_ReleasedAt b = None ->
     reservationTimesValid target (br_SettledAt (closeBudget target now b))
       (br_ReleasedAt (closeBudget target now b)) = true).
Proof.
  intros Ht. split; intros [] Hs Hr; simpl in Hs, Hr; subst; destruct target; first [done|reflexivity].
Qed.

Lemma reserved_covers db b :
  reservation_inv db -> db_budget db !! br_ID b = Some b -> br_State b = ReservationReserved ->
  exists u, db_usage db !! (br_TenantID b, br_UsageDate b) = Some u /\ 0 <= br_AmountMinorUnits b <= bu_Reserved u /\
    0 <= bu_Spent u /\ bu_Spent u + bu_Reserved u < 2 ^ 63.
Proof.
  intros Hinv Hb Hs. destruct (ri_row _ Hinv _ _ Hb) as [u Hu]. exists u. split; [done|].
  destruct (ri_totals _ Hinv _ _ _ Hu) as [Hr Hsp]. pose proof (ri_bound _ Hinv _ _ _ Hu).
  pose proof (ri_amount _ Hinv _ _ Hb).
  assert (Hnn : forall (m : gmap UUID BudgetReservation) s, (forall k v, m !! k = Some v -> db_budget db !! k = Some v) ->
    0 <= mapSum (countsFor (br_TenantID b) (br_UsageDate b) s) m).
  { intros m s Hsub. apply mapSum_nonneg. intros k v Hv%Hsub. unfold countsFor. case_bool_decide; [|done].
    by eapply ri_amount. }
  assert (br_AmountMinorUnits b <= bu_Reserved u).
  { rewrite Hr. unfold totalIn. rewrite (mapSum_lookup _ _ _ _ Hb).
    unfold countsFor at 1. rewrite bool_decide_eq_true_2 by done.
    assert (0 <= mapSum (countsFor (br_TenantID b) (br_UsageDate b) ReservationReserved)
      (delete (br_ID b) (db_budget db))); [|lia].
    apply Hnn. intros k v [_ ?]%lookup_delete_Some. done. }
  split_and!; try lia. rewrite Hsp. unfold totalIn. by apply Hnn.
Qed.

Lemma transitionTx_closes t r n now target db bundle :
  reservation_inv db -> latestReservation db t r n = Some bundle ->
  cr_State (rb_Capacity bundle) = ReservationReserved -> target <> ReservationReserved ->
  (target = ReservationExpired -> cr_ExpiresAt (rb_Capacity bundle) <= now) ->
  exists db', transitionTx t r n now target db = Ok (true, db').
Proof.
  intros Hinv Hl Hs Ht Hexp. destruct (latest_rows _ _ _ _ _ Hinv Hl) as (Hc & Hb & Hcap & (Hst & _) & Hten).
  assert (Hbs : br_State (rb_Budget bundle) = ReservationReserved) by congruence.
  destruct (ri_capacity_open _ Hinv _ _ Hc) as (_ & _ & Hco). destruct (Hco Hs) as [Hcs Hcr].
  destruct (ri_budget_open _ Hinv _ _ Hb Hbs) as [Hbs' Hbr].
  destruct (closeTimes_valid target now Ht) as [Hvc Hvb].
  destruct (reserved_covers _ _ Hinv Hb Hbs) as (u & Hu & Ha & Hsp & Hbd). rewrite Hten in Hu.
  unfold transitionTx.
  erewrite tx_step by (unfold queryRow; by rewrite Hl). rewrite bool_decide_eq_false_2 by congruence.
  erewrite tx_step by (unfold abortIf; by rewrite Hs, bool_decide_eq_true_2).
  replace ((target == ReservationExpired) && After _ _) with false; cycle 1.
  { case_bool_decide; [|done]. unfold After, UTC. simpl. specialize (Hexp ltac:(done)). lia. }
  erewrite tx_step; cycle 1.
  { unfold updateCapacityRow. erewrite tx_step by done. simpl. rewrite Hc, (bool_decide_eq_true_2 _ Hs).
    erewrite tx_step by (unfold abortIf; by rewrite Hvc). reflexivity. }
  erewrite tx_step; cycle 1.
  { unfold updateBudgetRow. erewrite tx_step by done. simpl. rewrite Hb, (bool_decide_eq_true_2 _ Hbs).
    erewrite tx_step by (unfold abortIf; by rewrite Hvb). reflexivity. }
  erewrite tx_step; [eexists; reflexivity|].
  unfold updateUsageRow. erewrite tx_step by done. simpl. rewrite Hu.
  set (amount := br_AmountMinorUnits (rb_Budget bundle)) in *.
  set (spent := if target == ReservationSettled then amount else 0).
  assert (0 <= spent <= amount) by (unfold spent; case_match; lia).
  erewrite tx_step by (apply lift_bigint; unfold in_int64; lia).
  erewrite tx_step by (apply lift_bigint; unfold in_int64; lia).
  erewrite tx_step by (apply abortIf_false; lia). reflexivity.
Qed.
End Totality.

(** ** Reserving *)

(** The ranges the column types and checks of the other tables guarantee. *)
Record store_limits (db : DB) : Prop := {
  sl_policy : forall t p, db_policies db !! t = Some p -> 0 <= pr_DailyBudgetMinorUnits p < 2 ^ 63;
  sl_snapshot : forall k s, db_snapshots db !! k = Some s ->
    0 <= cc_AllocatableCPUMillis s < 2 ^ 63 /\ 0 <= cc_AllocatableMemoryMiB s < 2 ^ 63;
}.

Lemma foldl_newer_snapshot first rest : foldl newer first rest ∈ first :: rest.
Proof.
  revert first. induction rest as [|s rest IH]; intros first; simpl; [by left|].
  destruct (proj1 (elem_of_cons _ _ _) (IH (newer first s))) as [Heq|Hin]; [|by do 2 right].
  rewrite Heq. unfold newer. case_match; [by right; left|by left].
Qed.

Lemma latestSnapshot_stored db clusterID s :
  latestSnapshot db clusterID = Some s -> exists k, db_snapshots db !! k = Some s.
Proof.
  unfold latestSnapshot. destruct (omap _ _) as [|first rest] eqn:E; [done|]. intros [= <-].
  pose proof (foldl_newer_snapshot first rest) as Hin. rewrite <-E in Hin.
  apply list_elem_of_omap in Hin as ([[id o] s] & Hin%elem_of_map_to_list & Hs).
  case_decide; [|done]. injection Hs as <-. eauto.
Qed.

Lemma usage_ranges db t d :
  reservation_inv db -> 0 <= bu_Spent (usageOrZero db t d) /\ 0 <= bu_Reserved (usageOrZero db t d) /\
  bu_Spent (usageOrZero db t d) + bu_Reserved (usageOrZero db t d) < 2 ^ 63.
Proof.
  intros Hinv. unfold usageOrZero. destruct (db_usage db !! (t, d)) as [u|] eqn:E; simpl; [|lia].
  pose proof (ri_bound _ Hinv _ _ _ E). destruct (ri_totals _ Hinv _ _ _ E) as [-> ->]. split_and!.
  1, 2: apply mapSum_nonneg; intros k b Hb; unfold countsFor; case_bool_decide; [by eapply ri_amount|done].
  destruct (ri_totals _ Hinv _ _ _ E). lia.
Qed.

Section ReserveSpec.
Context `{UUIDs}.

Lemma valid_request_amount request : validateReservationRequest request = Ok tt -> 0 <= rq_res_BudgetMinorUnits request.
Proof. intros Hv%failIf_ok. reflect_bools. lia. Qed.

Lemma newReservationBundle_ok idc idb request d bundle :
  0 <= rq_res_BudgetMinorUnits request -> newReservationBundle idc idb request d = Ok bundle ->
  fresh_bundle bundle /\ br_TenantID (rb_Budget bundle) = rq_res_TenantID request /\
  br_UsageDate (rb_Budget bundle) = d /\ br_AmountMinorUnits (rb_Budget bundle) = rq_res_BudgetMinorUnits request /\
  cr_ClusterID (rb_Capacity bundle) = rq_res_ClusterID request /\
  cr_CPUMillis (rb_Capacity bundle) = rq_res_CPUMillis request /\
  cr_MemoryMiB (rb_Capacity bundle) = rq_res_MemoryMiB request /\
  cr_RunID (rb_Capacity bundle) = rq_res_RunID request /\
  cr_AttemptNumber (rb_Capacity bundle) = rq_res_AttemptNumber request /\
  cr_ExpiresAt (rb_Capacity bundle) = rq_res_Now request + rq_res_TTL request.
Proof.
  intros Hv Hn. unfold newReservationBundle in Hn. inv_ok.
  match goal with Hval : Reservation_Validate _ _ = Ok _ |- _ => apply failIf_ok in Hval end. reflect_bools. simpl in *.
  unfold fresh_bundle, paired. simpl. split_and!; try done; lia.
Qed.

Lemma scanInt64_ok z a : scanInt64 z = Ok a -> a = z /\ in_int64 z.
Proof.
  unfold scanInt64, in_int64. rewrite bind_failIf. case_match eqn:E; [done|]. intros <-%Ok_inj.
  cases_bools. split; [done|lia].
Qed.

Lemma reserved_nonneg db clusterID now :
  reservation_inv db -> 0 <= reservedCPU db clusterID now /\ 0 <= reservedMemory db clusterID now.
Proof.
  intros Hinv. split; apply mapSum_nonneg; intros k c Hc; case_match; try done;
    destruct (ri_capacity_open _ Hinv _ _ Hc) as (? & ? & _); lia.
Qed.

Lemma capacityCheck_ok clusterID acpu amem cpu mem now db u db' :
  reservation_inv db -> 0 <= acpu < 2 ^ 63 -> 0 <= amem < 2 ^ 63 ->
  capacityCheck clusterID acpu amem cpu mem now db = Ok (u, db') ->
  db' = db /\ reservedCPU db clusterID now + cpu <= acpu /\ reservedMemory db clusterID now + mem <= amem.
Proof.
  intros Hinv Hc Hm Hck. destruct (reserved_nonneg db clusterID now Hinv).
  unfold capacityCheck in Hck. tx_inv.
  repeat match goal with Hs : scanInt64 _ = Ok _ |- _ => apply scanInt64_ok in Hs as [-> ?] end.
  unfold id, in_int64 in *. reflect_bools.
  match goal with Ha : (sub64 acpu _ <? _) = false, Hb : (sub64 amem _ <? _) = false |- _ =>
    rewrite sub64_small in Ha, Hb by (unfold in_int64; lia) end.
  split_and!; [done|lia|lia].
Qed.

(** A new reservation is within the capacity last reported and within the budget. *)
Lemma reserveNew_spec idc idb request limit db bundle db' :
  reservation_inv db -> store_limits db -> 0 <= limit < 2 ^ 63 ->
  validateReservationRequest request = Ok tt ->
  reserveNew idc idb request limit db = Ok (bundle, db') ->
  let d := usageDateOf (rq_res_Now request) in
  opens bundle (rq_res_Now request) db db' /\ fresh_bundle bundle /\
  newReservationBundle idc idb request d = Ok bundle /\
  bu_Spent (usageOrZero db (rq_res_TenantID request) d) + bu_Reserved (usageOrZero db (rq_res_TenantID request) d)
    + rq_res_BudgetMinorUnits request <= limit /\
  exists snapshot, latestSnapshot db (rq_res_ClusterID request) = Some snapshot /\
    reservedCPU db (rq_res_ClusterID request) (rq_res_Now request) + rq_res_CPUMillis request
      <= cc_AllocatableCPUMillis snapshot /\
    reservedMemory db (rq_res_ClusterID request) (rq_res_Now request) + rq_res_MemoryMiB request
      <= cc_AllocatableMemoryMiB snapshot.
Proof.
  intros Hinv Hlim Hl Hv Hr d. unfold reserveNew in Hr.
  apply tx_bind_ok in Hr as (snapshot & ? & [Hs ->]%queryRow_ok & Hr).
  destruct (latestSnapshot_stored _ _ _ Hs) as [k Hk]. destruct (sl_snapshot _ Hlim _ _ Hk) as [Hsc Hsm].
  apply tx_bind_ok in Hr as ([] & ? & (-> & Hcpu & Hmem)%capacityCheck_ok & Hr); try done.
  apply tx_bind_ok in Hr as ([] & db1 & Hb & Hr). apply tx_bind_ok in Hr as (bundle' & ? & [Hn ->]%lift_tx_ok & Hr).
  apply tx_bind_ok in Hr as ([] & db2 & Hins & Hr). apply tx_bind_ok in Hr as ([] & db3 & Hup & Hr). tx_inv.
  pose proof (newReservationBundle_ok _ _ _ _ _ (valid_request_amount _ Hv) Hn) as (Hf & Ht & Hd & Ha & _).
  destruct (opens_spec bundle' limit (rq_res_Now request) db db1 db2 db3 tt tt tt) as [Ho Hbal];
    [apply Hf|by rewrite Ht, Hd, Ha|done|by rewrite Ht, Hd, Ha|].
  rewrite Ht, Hd, Ha in Hbal. pose proof (usage_ranges db (rq_res_TenantID request) d Hinv). fold d in Hbal.
  rewrite !sub64_small in Hbal by (rewrite ?sub64_small; unfold in_int64; lia).
  split_and!; try done; [lia|]. exists snapshot. split_and!; done.
Qed.
End ReserveSpec.

(** ** Properties *)

Section Properties.
Context `{UUIDs}.

Lemma reserveTx_cases idc idb request db bundle db' :
  reserveTx idc idb request db = Ok (bundle, db') ->
  exists policy, db_policies db !! rq_res_TenantID request = Some policy /\
  ((db' = db /\ exists stored, stored ∈ joinedReservations db /\
      forAttempt (rq_res_TenantID request) (rq_res_RunID request) (rq_res_AttemptNumber request) stored /\
      cr_State (rb_Capacity stored) = ReservationReserved /\ cr_ID (rb_Capacity bundle) = cr_ID (rb_Capacity stored) /\
      br_ID (rb_Budget bundle) = br_ID (rb_Budget stored) /\
      cr_ClusterID (rb_Capacity stored) = rq_res_ClusterID request /\
      cr_CPUMillis (rb_Capacity stored) = rq_res_CPUMillis request /\
      cr_MemoryMiB (rb_Capacity stored) = rq_res_MemoryMiB request /\
      br_AmountMinorUnits (rb_Budget stored) = rq_res_BudgetMinorUnits request) \/
   reserveNew idc idb request (pr_DailyBudgetMinorUnits policy) db = Ok (bundle, db')).
Proof.
  unfold reserveTx, findActiveReservation. intros Hr.
  apply tx_bind_ok in Hr as (policy & ? & [Hp ->]%queryRow_ok & Hr). exists policy. split; [done|].
  apply tx_bind_ok in Hr as (cluster & ? & [_ ->]%queryRow_ok & Hr).
  apply tx_bind_ok in Hr as (existing & ? & He & Hr). tx_inv.
  destruct (head _) as [stored|] eqn:Hh; simpl in Hr; [left|by right].
  tx_inv. reflect_bools. simpl in *.
  apply head_Some_elem_of, list_elem_of_filter in Hh as [[Hfa Hst] Hj].
  split; [done|]. exists stored. rewrite !Z.eqb_eq in *. split_and!; done.
Qed.

Lemma opens_reservedCPU bundle now db db' clusterID :
  opens bundle now db db' -> 0 <= cr_CPUMillis (rb_Capacity bundle) -> 0 <= cr_MemoryMiB (rb_Capacity bundle) ->
  reservedCPU db' clusterID now <= reservedCPU db clusterID now + cr_CPUMillis (rb_Capacity bundle) /\
  reservedMemory db' clusterID now <= reservedMemory db clusterID now + cr_MemoryMiB (rb_Capacity bundle).
Proof.
  intros [Hn _ _ _ Hc _ _ _] ? ?. unfold reservedCPU, reservedMemory.
  rewrite Hc, !mapSum_insert_new by done. simpl. case_match; lia.
Qed.


(** *** Every history keeps the books *)

Lemma Reserve_inv idc idb request db :
  reservation_inv db -> store_limits db ->
  reservation_inv (Reserve idc idb request db).2 /\ store_limits (Reserve idc idb request db).2.
Proof.
  intros Hinv Hlim. destruct (Reserve idc idb request db) as [r db'] eqn:Hres. unfold Reserve in Hres. simpl.
  destruct (validateReservationRequest request) as [[]|] eqn:Hv; [|by injection Hres as <- <-].
  apply transact_cases in Hres as [(bundle & -> & Hres)|[_ ->]]; [|done].
  apply reserveTx_cases in Hres as (policy & Hp & [(-> & _)|Hnew]); [done|].
  pose proof (sl_policy _ Hlim _ _ Hp).
  pose proof (reserveNew_spec _ _ _ _ _ _ _ Hinv Hlim (sl_policy _ Hlim _ _ Hp) Hv Hnew)
    as (Ho & Hf & Hn & Hbal & _).
  destruct (newReservationBundle_ok _ _ _ _ _ (valid_request_amount _ Hv) Hn) as (_ & Ht & Hd & Ha & _). split.
  - eapply opens_inv; try done. simpl. rewrite Ht, Hd, Ha. lia.
  - destruct (op_kept _ _ _ _ Ho) as (_ & _ & _ & _ & Hpol & _ & Hsn & _), Hlim. split; by rewrite ?Hpol, ?Hsn.
Qed.

Lemma transition_inv t r n now target db :
  reservation_inv db -> store_limits db ->
  reservation_inv (transition t r n now target db).2 /\ store_limits (transition t r n now target db).2.
Proof.
  intros Hinv Hlim. unfold transition. case_match; [done|].
  destruct (transact _ db) as [res db'] eqn:Htx. simpl.
  apply transact_cases in Htx as [(changed & -> & Htx)|[_ ->]]; [|done].
  apply transitionTx_spec in Htx as (bundle & Hl & [(_ & -> & _)|(_ & Hs & Ht & _ & Hcl)]); [done| |done].
  destruct (latest_rows _ _ _ _ _ Hinv Hl) as (Hc & Hb & Hcap & Hp & _). split; [by eapply closes_inv|].
  destruct (cl_kept _ _ _ _ _ _ Hcl) as (_ & _ & _ & _ & Hpol & _ & Hsn & _), Hlim. split; by rewrite ?Hpol, ?Hsn.
Qed.

Lemma reclaimLoop_inv items now acc db :
  reservation_inv db -> store_limits db ->
  reservation_inv (reclaimLoop items now acc db).2 /\ store_limits (reclaimLoop items now acc db).2.
Proof.
  revert acc db. induction items as [|item items IH]; intros acc db Hinv Hlim; simpl; [done|].
  pose proof (transition_inv (cr_TenantID item) (cr_RunID item) (cr_AttemptNumber item) now ReservationExpired
    db Hinv Hlim) as [Hinv' Hlim'].
  destruct (transition _ _ _ _ _ db) as [[changed|e] db']; simpl in *; auto.
Qed.

(** The operations of the repository, interleaved with transactions of other
    components that leave the reservation tables alone. *)
Inductive reservation_step (db : DB) : DB -> Prop :=
| step_Reserve idc idb request : reservation_step db (Reserve idc idb request db).2
| step_Release t r n now : reservation_step db (Release t r n now db).2
| step_Settle t r n now : reservation_step db (Settle t r n now db).2
| step_ReclaimExpired now limit : reservation_step db (ReclaimExpired now limit db).2
| step_other db' :
    db_capacity db' = db_capacity db -> db_budget db' = db_budget db -> db_usage db' = db_usage db ->
    store_limits db' -> reservation_step db db'.

Lemma reservation_step_inv db db' :
  reservation_inv db /\ store_limits db -> reservation_step db db' -> reservation_inv db' /\ store_limits db'.
Proof.
  intros [Hinv Hlim] Hstep. destruct Hstep as [idc idb req|t r n now|t r n now|now limit|db' Hc Hb Hu Hl].
  - by apply Reserve_inv.
  - unfold Release, discard. by apply transition_inv.
  - unfold Settle, discard. by apply transition_inv.
  - unfold ReclaimExpired. case_match; [done|]. by apply reclaimLoop_inv.
  - split; [|done]. destruct Hinv. split; unfold totalIn in *; rewrite ?Hc, ?Hb, ?Hu; eauto.
Qed.

(** the books balance. Starting with no reservations, after any history of
    reserving, releasing, settling and reclaiming, interleaved with any other
    transactions, the daily usage row of a tenant holds exactly the sum of its
    open budget reservations as reserved and the sum of the settled ones as
    spent, both fit the column, every capacity reservation has exactly one
    budget reservation in the same state, and an attempt never has two open
    reservations. *)
Theorem reservations_balance db0 db :
  db_capacity db0 = ∅ -> db_budget db0 = ∅ -> db_usage db0 = ∅ -> store_limits db0 ->
  rtc reservation_step db0 db ->
  (forall t d u, db_usage db !! (t, d) = Some u ->
     bu_Reserved u = totalIn db t d ReservationReserved /\ bu_Spent u = totalIn db t d ReservationSettled /\
     0 <= bu_Reserved u /\ 0 <= bu_Spent u /\ bu_Reserved u + bu_Spent u < 2 ^ 63) /\
  (forall id c, db_capacity db !! id = Some c -> exists bid b, db_budget db !! bid = Some b /\
     br_CapacityReservationID b = id /\ br_State b = cr_State c /\
     forall bid' b', db_budget db !! bid' = Some b' -> br_CapacityReservationID b' = id -> bid' = bid) /\
  (forall id1 c1 id2 c2, db_capacity db !! id1 = Some c1 -> db_capacity db !! id2 = Some c2 ->
     cr_State c1 = ReservationReserved -> cr_State c2 = ReservationReserved ->
     cr_RunID c1 = cr_RunID c2 -> cr_AttemptNumber c1 = cr_AttemptNumber c2 -> id1 = id2).
Proof.
  intros Hc Hb Hu Hlim Hrtc. assert (Hinv : reservation_inv db /\ store_limits db).
  { assert (Hinit : reservation_inv db0).
    { split; rewrite ?Hc, ?Hb, ?Hu; intros *; rewrite lookup_empty; done. }
    assert (H0 : reservation_inv db0 /\ store_limits db0) by done. clear Hc Hb Hu Hinit Hlim.
    induction Hrtc as [|x y z Hxy _ IH]; [done|]. apply IH. by eapply reservation_step_inv. }
  destruct Hinv as [Hinv _]. split_and!.
  - intros t d u Hlu. destruct (ri_totals _ Hinv _ _ _ Hlu). pose proof (usage_ranges db t d Hinv) as Hr.
    unfold usageOrZero in Hr. rewrite Hlu in Hr. simpl in Hr. split_and!; try done; lia.
  - intros id c Hcap. destruct (ri_backed _ Hinv _ _ Hcap) as (bid & b & Hbud & Hid).
    exists bid, b. destruct (ri_pair _ Hinv _ _ Hbud) as (c' & Hc' & Hp & _). rewrite Hid, Hcap in Hc'.
    injection Hc' as <-. split_and!; try done. intros bid' b' Hb' Hid'. eapply ri_owner; try done. congruence.
  - apply (ri_active _ Hinv).
Qed.
End Properties.

(** ** Each reservation has one outcome *)

Definition createdAt (bundle : ReservationBundle) : Time := cr_CreatedAt (rb_Capacity bundle).

Lemma foldl_newer_max first rest x :
  x ∈ first :: rest -> createdAt x <= createdAt (foldl newerBundle first rest).
Proof.
  revert first x. induction rest as [|b rest IH]; intros first x Hx; simpl.
  - apply list_elem_of_singleton in Hx as ->. lia.
  - assert (Hn : createdAt first <= createdAt (newerBundle first b) /\ createdAt b <= createdAt (newerBundle first b)).
    { unfold createdAt, newerBundle. case_match; lia. }
    pose proof (IH (newerBundle first b) (newerBundle first b) ltac:(by left)).
    apply elem_of_cons in Hx as [->|Hx]; [lia|]. apply elem_of_cons in Hx as [->|Hx]; [lia|].
    apply IH. by right.
Qed.

Lemma latest_newest db t r n bundle x :
  latestReservation db t r n = Some bundle -> x ∈ joinedReservations db -> forAttempt t r n x ->
  createdAt x <= createdAt bundle.
Proof.
  unfold latestReservation. destruct (filter _ _) as [|first rest] eqn:Hf; [done|]. intros [= <-] Hx Ha.
  apply foldl_newer_max. rewrite <-Hf. by apply list_elem_of_filter.
Qed.

(** The strictly newest reservation of an attempt is the one a transition works on. *)
Lemma latest_intro db t r n bundle :
  bundle ∈ joinedReservations db -> forAttempt t r n bundle ->
  (forall x, x ∈ joinedReservations db -> forAttempt t r n x -> x <> bundle -> createdAt x < createdAt bundle) ->
  latestReservation db t r n = Some bundle.
Proof.
  intros Hb Ha Hnew. destruct (latestReservation db t r n) as [l|] eqn:Hl.
  - destruct (latest_spec _ _ _ _ _ Hl) as [Hlj Hla]. pose proof (latest_newest _ _ _ _ _ _ Hl Hb Ha).
    destruct (decide (l = bundle)) as [->|Hne]; [done|]. specialize (Hnew l Hlj Hla Hne). lia.
  - unfold latestReservation in Hl. destruct (filter _ _) as [|] eqn:Hf; [|done].
    assert (Hin : bundle ∈ filter (forAttempt t r n) (joinedReservations db)) by (by apply list_elem_of_filter).
    rewrite Hf in Hin. by apply not_elem_of_nil in Hin.
Qed.

Definition closeBundle (target : ReservationState) (now : Time) (x : ReservationBundle) : ReservationBundle :=
  {| rb_Capacity := closeCapacity target now (rb_Capacity x); rb_Budget := closeBudget target now (rb_Budget x) |}.

(** Closing one reservation replaces its row in the join and keeps the others. *)
Lemma closes_joined target now bundle db db' x :
  reservation_inv db -> bundle ∈ joinedReservations db ->
  closes target now (rb_Capacity bundle) (rb_Budget bundle) db db' ->
  x ∈ joinedReservations db' <->
  x = closeBundle target now bundle \/ (x ∈ joinedReservations db /\ br_ID (rb_Budget x) <> br_ID (rb_Budget bundle)).
Proof.
  intros Hinv [Hc [id Hb]]%joined_spec [Hc' Hb' _ _].
  pose proof (ri_capacity_id _ Hinv _ _ Hc) as Hcid. pose proof (ri_budget_id _ Hinv _ _ Hb) as Hbid. subst id.
  destruct (closeBudget_spec target now (rb_Budget bundle)) as (_ & _ & _ & _ & _ & _ & _ & B8).
  rewrite !joined_spec, Hc', Hb', Hcid. split.
  - intros [Hxc [id [[<- Hx]|[Hne Hx]]%lookup_insert_Some]].
    + left. rewrite <-Hx, B8, lookup_insert_eq in Hxc. destruct x. simpl in *. by simplify_eq.
    + right. pose proof (ri_budget_id _ Hinv _ _ Hx) as Hid. subst id.
      rewrite lookup_insert_ne in Hxc; [eauto|]. intros Heq. apply Hne. by eapply ri_owner.
  - intros [->|[[Hxc [id Hx]] Hne]]; simpl.
    + rewrite B8, lookup_insert_eq. split; [done|]. exists (br_ID (rb_Budget bundle)). apply lookup_insert_eq.
    + pose proof (ri_budget_id _ Hinv _ _ Hx) as Hid. subst id.
      rewrite lookup_insert_ne; [|intros Heq; apply Hne; by eapply ri_owner].
      split; [done|]. exists (br_ID (rb_Budget x)). by rewrite lookup_insert_ne.
Qed.

(** No two reservations of one attempt were created at the same instant. *)
Definition distinct_creation (db : DB) : Prop :=
  forall t r n x y, x ∈ joinedReservations db -> y ∈ joinedReservations db -> forAttempt t r n x ->
    forAttempt t r n y -> createdAt x = createdAt y -> x = y.

Section Once.
Context `{UUIDs}.

Lemma closes_latest t r n now target db db' bundle :
  reservation_inv db -> distinct_creation db -> latestReservation db t r n = Some bundle ->
  closes target now (rb_Capacity bundle) (rb_Budget bundle) db db' ->
  latestReservation db' t r n = Some (closeBundle target now bundle).
Proof.
  intros Hinv Hdist Hl Hcl. destruct (latest_spec _ _ _ _ _ Hl) as [Hj Ha].
  destruct (closeCapacity_spec target now (rb_Capacity bundle)) as (C1 & C2 & C3 & C4 & C5 & _ & _ & C8 & _).
  apply latest_intro.
  - by apply (closes_joined target now bundle db db'); [..|left].
  - unfold forAttempt in *. simpl. by rewrite C3, C4, C5.
  - intros x [->|[Hx Hne]]%(closes_joined target now bundle db db') Hxa Hxb; try done.
    pose proof (latest_newest _ _ _ _ _ _ Hl Hx Hxa). unfold createdAt in *. simpl. rewrite C8.
    destruct (decide (cr_CreatedAt (rb_Capacity x) = cr_CreatedAt (rb_Capacity bundle))) as [He|]; [|lia].
    exfalso. apply Hne. by rewrite (Hdist t r n x bundle).
Qed.

(** an open reservation always closes, exactly once. Settling or releasing
    the open reservation of an attempt cannot fail; it takes the amount out of
    the tenant's reserved total of the day and adds it to the spent total
    exactly when it settles. Afterwards the same command changes nothing and
    succeeds, and every other outcome is refused, so an amount is never
    returned or charged twice. *)
Theorem reservation_closes_once t r n now target now' target' db bundle :
  reservation_inv db -> distinct_creation db ->
  t <> uuidNil -> r <> uuidNil -> 1 <= n -> IsZero now = false -> IsZero now' = false ->
  latestReservation db t r n = Some bundle -> cr_State (rb_Capacity bundle) = ReservationReserved ->
  target = ReservationSettled \/ target = ReservationReleased ->
  exists db' u u', transition t r n now target db = (Ok true, db') /\
    let d := br_UsageDate (rb_Budget bundle) in let amount := br_AmountMinorUnits (rb_Budget bundle) in
    db_usage db !! (t, d) = Some u /\ db_usage db' !! (t, d) = Some u' /\
    bu_Reserved u' = bu_Reserved u - amount /\
    bu_Spent u' = bu_Spent u + (if target == ReservationSettled then amount else 0) /\
    transition t r n now' target' db' =
      (if target' == target then (Ok false, db') else (Err ErrConflict, db')).
Proof.
  intros Hinv Hdist Ht Hr Hn Hz Hz' Hl Hs Htgt.
  assert (Htne : target <> ReservationReserved /\ target <> ReservationExpired) by (by destruct Htgt as [->| ->]).
  assert (Hguard : forall m, IsZero m = false -> (t == uuidNil) || (r == uuidNil) || (n <? 1) || IsZero m = false).
  { intros m ->. rewrite !bool_decide_eq_false_2 by done. simpl. lia. }
  destruct (transitionTx_closes t r n now target db bundle) as [db' Htx]; try done; [naive_solver..|].
  pose proof (transitionTx_spec _ _ _ _ _ _ _ _ Hinv Htx) as (bundle' & Hl' & [[? _]|(_ & _ & _ & _ & Hcl)]); try done.
  rewrite Hl in Hl'. injection Hl' as <-.
  destruct (latest_rows _ _ _ _ _ Hinv Hl) as (_ & _ & _ & _ & Hten).
  destruct (cl_usage _ _ _ _ _ _ Hcl) as (u & Hu & Hu'). rewrite Hten in Hu, Hu'.
  exists db', u. eexists. unfold transition at 1. rewrite Hguard by done. unfold transact. rewrite Htx, Hu'. simpl.
  split_and!; try done; try (by rewrite lookup_insert_eq); [done..|].
  unfold transition. rewrite Hguard by done. pose proof (closes_latest _ _ _ _ _ _ _ _ Hinv Hdist Hl Hcl) as Hl2.
  assert (Hst : cr_State (rb_Capacity (closeBundle target now bundle)) = target) by apply closeCapacity_spec.
  destruct (decide (target' = target)) as [->|Heq].
  - rewrite (bool_decide_eq_true_2 (target = target)) by done. unfold transact, transitionTx.
    erewrite tx_step by (unfold queryRow; by rewrite Hl2). by rewrite Hst, bool_decide_eq_true_2.
  - rewrite (bool_decide_eq_false_2 (target' = target)) by done. unfold transact, transitionTx.
    erewrite tx_step by (unfold queryRow; by rewrite Hl2). rewrite Hst, bool_decide_eq_false_2 by congruence.
    erewrite tx_fail; [done|]. apply abortIf_true. by rewrite bool_decide_eq_false_2 by (by destruct Htne).
Qed.
End Once.

(** ** Reclaiming what expired *)

(** The open reservation of an attempt is its newest. *)
Definition newest_open (db : DB) : Prop :=
  forall t r n x y, x ∈ joinedReservations db -> y ∈ joinedReservations db -> forAttempt t r n x ->
    forAttempt t r n y -> cr_State (rb_Capacity x) = ReservationReserved -> y <> x -> createdAt y < createdAt x.

(** The identifiers a transition accepts. *)
Definition identified (db : DB) : Prop :=
  forall id c, db_capacity db !! id = Some c ->
    cr_TenantID c <> uuidNil /\ cr_RunID c <> uuidNil /\ 1 <= cr_AttemptNumber c.

Section Reclaim.
Context `{UUIDs}.

Lemma closes_keeps target now bundle db db' :
  reservation_inv db -> newest_open db -> identified db -> bundle ∈ joinedReservations db ->
  target <> ReservationReserved -> closes target now (rb_Capacity bundle) (rb_Budget bundle) db db' ->
  newest_open db' /\ identified db'.
Proof.
  intros Hinv Hnew Hid Hj Ht Hcl.
  destruct (closeCapacity_spec target now (rb_Capacity bundle)) as (C1 & _ & C3 & C4 & C5 & _ & _ & C8 & _). split.
  - intros t r n x y Hx Hy Hxa Hya Hs Hne.
    apply (closes_joined _ _ _ _ _ _ Hinv Hj Hcl) in Hx as [->|[Hx Hxb]]; [exfalso; simpl in Hs; congruence|].
    apply (closes_joined _ _ _ _ _ _ Hinv Hj Hcl) in Hy as [->|[Hy _]]; [|by eapply Hnew].
    unfold createdAt in *. simpl. rewrite C8. apply (Hnew t r n x bundle); try done; [|congruence].
    unfold forAttempt in *. simpl in Hya. by rewrite C3, C4, C5 in Hya.
  - intros id c. rewrite (cl_capacity _ _ _ _ _ _ Hcl). intros [[<- <-]|[_ Hc]]%lookup_insert_Some; [|eauto].
    rewrite C3, C4, C5. apply joined_spec in Hj as [Hc _]. eauto.
Qed.

(** One item of the loop: its own reservation expires. *)
Lemma reclaim_item now db item :
  reservation_inv db -> newest_open db -> identified db -> IsZero now = false ->
  db_capacity db !! cr_ID item = Some item -> cr_State item = ReservationReserved -> cr_ExpiresAt item <= pgTime now ->
  exists bundle db', rb_Capacity bundle = item /\ bundle ∈ joinedReservations db /\
    transition (cr_TenantID item) (cr_RunID item) (cr_AttemptNumber item) now ReservationExpired db = (Ok true, db') /\
    closes ReservationExpired now item (rb_Budget bundle) db db'.
Proof.
  intros Hinv Hnew Hid Hz Hc Hs Hexp. destruct (ri_backed _ Hinv _ _ Hc) as (bid & b & Hb & Hbc).
  set (bundle := {| rb_Capacity := item; rb_Budget := b |}).
  assert (Hj : bundle ∈ joinedReservations db) by (apply joined_spec; simpl; rewrite Hbc; eauto).
  assert (Hl : latestReservation db (cr_TenantID item) (cr_RunID item) (cr_AttemptNumber item) = Some bundle).
  { apply latest_intro; [done|done|]. intros x Hx Hxa Hne. by eapply Hnew. }
  destruct (transitionTx_closes _ _ _ now ReservationExpired db bundle Hinv Hl) as [db' Htx]; try done.
  { intros _. pose proof (pgTime_bounds now). simpl. lia. }
  exists bundle, db'. split; [done|]. split; [done|]. destruct (Hid _ _ Hc) as (? & ? & ?). split.
  - unfold transition. rewrite Hz, !bool_decide_eq_false_2 by done. replace (_ || _) with false by lia.
    unfold transact. by rewrite Htx.
  - apply transitionTx_spec in Htx as (bundle' & Hl' & [[? _]|(_ & _ & _ & _ & Hcl)]); try done.
    rewrite Hl in Hl'. by injection Hl' as <-.
Qed.

Lemma reclaimLoop_spec items now acc db :
  reservation_inv db -> newest_open db -> identified db -> IsZero now = false -> NoDup (cr_ID <$> items) ->
  Forall (fun c => db_capacity db !! cr_ID c = Some c /\ cr_State c = ReservationReserved /\
                   cr_ExpiresAt c <= pgTime now) items ->
  exists db', reclaimLoop items now acc db = (acc + Z.of_nat (length items), None, db') /\
    forall id, db_capacity db' !! id =
      (if decide (id ∈ cr_ID <$> items) then closeCapacity ReservationExpired now <$> db_capacity db !! id
       else db_capacity db !! id).
Proof.
  revert acc db. induction items as [|item items IH]; intros acc db Hinv Hnew Hid Hz Hnd Hall.
  { exists db. simpl. rewrite Z.add_0_r. done. }
  rewrite fmap_cons in Hnd. apply NoDup_cons in Hnd as [Hnin Hnd]. apply Forall_cons in Hall as [(Hc & Hs & He) Hall].
  destruct (reclaim_item now db item) as (bundle & db1 & Hbi & Hj & Htr & Hcl); try done. subst item.
  destruct (closes_keeps ReservationExpired now bundle db db1) as [Hnew1 Hid1]; try done.
  assert (Hinv1 : reservation_inv db1).
  { pose proof Hj as [Hjc [bid Hb]]%joined_spec. pose proof (ri_budget_id _ Hinv _ _ Hb) as Hbid.
    rewrite <-Hbid in Hb. destruct (ri_pair _ Hinv _ _ Hb) as (c' & Hc' & Hp). rewrite Hjc in Hc'. injection Hc' as <-.
    pose proof (ri_capacity_id _ Hinv _ _ Hjc). by eapply (closes_inv ReservationExpired now (rb_Capacity bundle)). }
  destruct (IH (acc + 1) db1) as (db' & Hloop & Hrows); try done.
  { rewrite Forall_forall in *. intros c Hcin. destruct (Hall c Hcin) as (Hl & ? & ?). split_and!; try done.
    rewrite (cl_capacity _ _ _ _ _ _ Hcl), lookup_insert_ne; [done|].
    intros Heq. apply Hnin. rewrite Heq. by apply list_elem_of_fmap_2. }
  exists db'. split; [cbn [reclaimLoop]; rewrite Htr, Hloop; f_equal; f_equal; simpl length; lia|].
  intros id. rewrite Hrows, (cl_capacity _ _ _ _ _ _ Hcl), fmap_cons.
  destruct (decide (id = cr_ID (rb_Capacity bundle))) as [->|Hne].
  - rewrite lookup_insert_eq, Hc. case_decide; [done|]. case_decide as Hd; [done|]. destruct Hd. by left.
  - rewrite lookup_insert_ne by done. repeat case_decide; set_solver.
Qed.

Lemma expiredReservations_spec db now limit :
  reservation_inv db ->
  NoDup (cr_ID <$> expiredReservations db now limit) /\
  Forall (fun c => db_capacity db !! cr_ID c = Some c /\ cr_State c = ReservationReserved /\
                   cr_ExpiresAt c <= pgTime now) (expiredReservations db now limit).
Proof.
  intros Hinv. unfold expiredReservations.
  set (due := filter _ _). pose proof (merge_sort_Permutation expiry_le due) as Hp.
  assert (Hids : cr_ID <$> (map_to_list (db_capacity db)).*2 = (map_to_list (db_capacity db)).*1).
  { rewrite <-list_fmap_compose. apply list_fmap_ext. intros i [k c] Hi. simpl.
    apply list_elem_of_lookup_2, elem_of_map_to_list in Hi. by apply (ri_capacity_id _ Hinv). }
  assert (Hnd : NoDup (cr_ID <$> due)).
  { eapply sublist_NoDup; [|apply fmap_sublist, sublist_filter]. rewrite Hids. apply NoDup_fst_map_to_list. }
  split.
  - eapply sublist_NoDup; [|apply fmap_sublist, sublist_take]. by rewrite Hp.
  - apply Forall_take. rewrite Hp. apply Forall_forall. intros c [Hd Hc]%list_elem_of_filter.
    apply list_elem_of_fmap in Hc as ([id c'] & -> & Hin%elem_of_map_to_list). simpl in *.
    rewrite (ri_capacity_id _ Hinv _ _ Hin). naive_solver.
Qed.

(** reclaiming works through the whole batch. Where the open reservation of
    each attempt is its newest, [ReclaimExpired] meets no error, closes exactly
    the oldest expired open reservations up to the limit, counts them, and
    leaves every other reservation as it was. *)
Theorem ReclaimExpired_complete now limit db :
  reservation_inv db -> newest_open db -> identified db -> IsZero now = false -> 1 <= limit <= 1000 ->
  let items := expiredReservations db now limit in
  exists db', ReclaimExpired now limit db = (Z.of_nat (length items), None, db') /\
    Z.of_nat (length items) = limit `min` Z.of_nat (length (filter (fun c => cr_State c = ReservationReserved /\
      cr_ExpiresAt c <= pgTime now) (map_to_list (db_capacity db)).*2)) /\
    forall id, db_capacity db' !! id =
      (if decide (id ∈ cr_ID <$> items) then closeCapacity ReservationExpired now <$> db_capacity db !! id
       else db_capacity db !! id).
Proof.
  intros Hinv Hnew Hid Hz Hlim items.
  destruct (expiredReservations_spec db now limit Hinv) as [Hnd Hall].
  destruct (reclaimLoop_spec items now 0 db) as (db' & Hloop & Hrows); try done.
  exists db'. split_and!; [|subst items; unfold expiredReservations|done].
  - unfold ReclaimExpired. rewrite Hz. replace (_ || _ || _) with false by lia. exact Hloop.
  - rewrite length_take, (Permutation_length (merge_sort_Permutation expiry_le _)). lia.
Qed.
End Reclaim.

(** ** Examples *)

Definition example_reservation : ReservationRequest :=
  {| rq_res_TenantID := exampleTenant; rq_res_RunID := exampleV7 11; rq_res_AttemptID := exampleV7 21;
     rq_res_AttemptNumber := 1; rq_res_ClusterID := "cluster-a"; rq_res_CPUMillis := 500; rq_res_MemoryMiB := 1024;
     rq_res_BudgetMinorUnits := 120; rq_res_Now := exampleNow; rq_res_TTL := 5 * Minute |}.

Definition example_reserve : res ReservationBundle * DB :=
  @Reserve rfcUUIDs (Ok (exampleV7 31)) (Ok (exampleV7 32)) example_reservation example_db.

Lemma example_limits : store_limits example_db.
Proof.
  split.
  - intros t p. unfold example_db; cbn [db_policies]. intros [_ <-]%lookup_singleton_Some. done.
  - intros k s. unfold example_db; cbn [db_snapshots]. intros [_ <-]%lookup_singleton_Some. done.
Qed.

Lemma example_inv : reservation_inv example_db.
Proof. split; unfold example_db; cbn; intros *; rewrite lookup_empty; done. Qed.

Lemma example_reserved :
  is_ok example_reserve.1 = true /\ reservation_inv example_reserve.2 /\ store_limits example_reserve.2.
Proof.
  split; [vm_compute; reflexivity|]. unfold example_reserve.
  exact (@Reserve_inv rfcUUIDs _ _ _ _ example_inv example_limits).
Qed.

Lemma example_joined :
  exists b, joinedReservations example_reserve.2 = [b] /\ cr_State (rb_Capacity b) = ReservationReserved /\
    latestReservation example_reserve.2 exampleTenant (exampleV7 11) 1 = Some b.
Proof. eexists. vm_compute. split_and!; reflexivity. Qed.

Lemma single_reservation db b :
  joinedReservations db = [b] -> distinct_creation db /\ newest_open db.
Proof.
  intros Hj. split; intros t r n x y; rewrite Hj, !list_elem_of_singleton; naive_solver.
Qed.


Lemma reservations_balance_witness :
  exists u, db_usage example_reserve.2 !! (exampleTenant, usageDateOf exampleNow) = Some u /\
    bu_Reserved u = totalIn example_reserve.2 exampleTenant (usageDateOf exampleNow) ReservationReserved.
Proof.
  assert (Hs : is_Some (db_usage example_reserve.2 !! (exampleTenant, usageDateOf exampleNow))) by (vm_compute; eexists; reflexivity).
  destruct Hs as [u Hu]. exists u. split; [exact Hu|].
  exact (proj1 (proj1 (@reservations_balance rfcUUIDs example_db example_reserve.2 eq_refl eq_refl eq_refl example_limits
    (rtc_once _ _ (@step_Reserve rfcUUIDs _ _ _ _))) _ _ _ Hu)).
Defined.

Lemma reservation_closes_once_witness :
  exists db' u u', transition exampleTenant (exampleV7 11) 1 (exampleNow + Minute) ReservationSettled example_reserve.2
      = (Ok true, db') /\
    db_usage example_reserve.2 !! (exampleTenant, usageDateOf exampleNow) = Some u /\
    db_usage db' !! (exampleTenant, usageDateOf exampleNow) = Some u' /\ bu_Spent u' = bu_Spent u + 120 /\
    transition exampleTenant (exampleV7 11) 1 (exampleNow + Hour) ReservationReleased db' = (Err ErrConflict, db').
Proof.
  destruct example_joined as (b & Hj & Hs & Hl). destruct example_reserved as (_ & Hinv & _).
  destruct (single_reservation _ _ Hj) as [Hd _].
  assert (Ht : exampleTenant <> uuidNil) by (vm_compute; congruence).
  assert (Hr : exampleV7 11 <> uuidNil) by (vm_compute; congruence).
  destruct (reservation_closes_once exampleTenant (exampleV7 11) 1 (exampleNow + Minute) ReservationSettled
    (exampleNow + Hour) ReservationReleased example_reserve.2 b Hinv Hd Ht Hr (Z.le_refl 1) eq_refl eq_refl Hl Hs
    (or_introl eq_refl)) as (db' & u & u' & H1 & H2 & H3 & _ & H4 & H5).
  assert (Hb : br_UsageDate (rb_Budget b) = usageDateOf exampleNow /\ br_AmountMinorUnits (rb_Budget b) = 120).
  { vm_compute in Hj. injection Hj as <-. split; vm_compute; reflexivity. }
  destruct Hb as [Hb1 Hb2]. rewrite Hb1 in H2, H3. rewrite Hb2 in H4.
  exists db', u, u'. exact (conj H1 (conj H2 (conj H3 (conj H4 H5)))).
Defined.

Lemma ReclaimExpired_complete_witness :
  exists db', ReclaimExpired (exampleNow + Hour) 10 example_reserve.2 = (1, None, db').
Proof.
  destruct example_joined as (b & Hj & Hs & Hl). destruct example_reserved as (_ & Hinv & _).
  destruct (single_reservation _ _ Hj) as [_ Hn].
  assert (Hid : identified example_reserve.2).
  { intros id c Hc. assert (Hin : c ∈ (map_to_list (db_capacity example_reserve.2)).*2).
    { apply list_elem_of_fmap. exists (id, c). split; [reflexivity|]. apply elem_of_map_to_list. exact Hc. }
    vm_compute in Hin. apply list_elem_of_singleton in Hin as ->. split_and!; vm_compute; congruence. }
  destruct (ReclaimExpired_complete (exampleNow + Hour) 10 example_reserve.2 Hinv Hn Hid eq_refl
    ltac:(split; vm_compute; congruence)) as (db' & Hr & _).
  exists db'. rewrite Hr. replace (length _) with 1%nat by (vm_compute; reflexivity). reflexivity.
Defined.
