(* ===== verification/Queue.v ===== *)
(** * The scheduler queue (internal/adapters/postgres/scheduler_queue.go,
      internal/application/scheduler/claimer.go)

    Claiming runs for scheduling under a lease: which rows are claimable, the
    fair order over tenants, the claim transaction, and lease renewal. *)

From S2P Require Import Prelude AgentRun Policy Cluster Events Store.

Record SchedulerClaimRequest := {
  scr_Owner : string;
  scr_Now : Time;
  scr_LeaseDuration : Duration;
  scr_BatchSize : Z;
  scr_AgingInterval : Duration;
  scr_MaximumAgingBoost : Z;
}.

Record ClaimedRun := {
  cl_ID : UUID;
  cl_TenantID : UUID;
  cl_ProjectID : UUID;
  cl_Runtime : string;
  cl_PromptReference : string;
  cl_MaxAttempts : Z;
  cl_ExecutionProfile : string;
  cl_PreferredRegion : string;
  cl_CreatedBy : string;
  cl_CPUMillis : Z;
  cl_MemoryMiB : Z;
  cl_TimeoutSeconds : Z;
  cl_AttemptNumber : Z;
  cl_AttemptID : UUID;
  cl_AttemptVersion : Z;
  cl_Priority : Z;
  cl_EffectivePriority : Z;
  cl_Version : Z;
  cl_CreatedAt : Time;
  cl_SchedulerLeaseOwner : string;
  cl_SchedulerLeaseExpiry : Time;
}.

#[export] Instance ClaimedRun_settable : Settable ClaimedRun := fun r =>
  Build_ClaimedRun (cl_ID r) (cl_TenantID r) (cl_ProjectID r) (cl_Runtime r) (cl_PromptReference r)
    (cl_MaxAttempts r) (cl_ExecutionProfile r) (cl_PreferredRegion r) (cl_CreatedBy r) (cl_CPUMillis r)
    (cl_MemoryMiB r) (cl_TimeoutSeconds r) (cl_AttemptNumber r) (cl_AttemptID r) (cl_AttemptVersion r)
    (cl_Priority r) (cl_EffectivePriority r) (cl_Version r) (cl_CreatedAt r) (cl_SchedulerLeaseOwner r)
    (cl_SchedulerLeaseExpiry r).

(** ** Ranking *)

(** The attempt the run is on: [attempt_number = run.attempt_count]. *)
Definition currentAttempt (db : DB) (run : AgentRun) : option AgentRunAttempt :=
  head (filter (fun a => att_TenantID a = run_TenantID run /\ att_RunID a = run_ID run /\
    att_AttemptNumber a = run_AttemptCount run) (map_to_list (db_attempts db)).*2).

Definition hasPendingAttempt (db : DB) (run : AgentRun) : bool :=
  existsb (fun a => (att_TenantID a =? run_TenantID run) && (att_RunID a =? run_ID run)
      && (att_AttemptNumber a =? run_AttemptCount run) && (att_Status a == AttemptPending))
    (map_to_list (db_attempts db)).*2.

(** The [where] clause of [base]; comparisons with null columns do not hold. *)
Definition claimable (db : DB) (now : Time) (row : RunRow) : bool :=
  let run := rr_Run row in
  ((run_Status run == AgentRunQueued)
   || ((run_Status run == AgentRunCapacityWait)
       && match rr_NextEligibleAt row with Some next => next <=? pgTime now | None => false end)
   || ((run_Status run == AgentRunScheduling)
       && match rr_LeaseExpiresAt row with Some expiry => expiry <=? pgTime now | None => false end))
  && hasPendingAttempt db run.

(** [run.priority + least(boost, floor(greatest(0, age) / interval)::integer)]; the
    quotient must fit an [integer]. *)
Definition effectivePriority (now : Time) (interval : Duration) (boost : Z) (row : RunRow) : res Z :=
  let aged := Z.max 0 (pgTime now - run_CreatedAt (rr_Run row)) / interval in
  _ ← failIf (2 ^ 31 - 1 <? aged) (ErrPlain "integer out of range");
  Ok (rr_Priority row + Z.min boost aged).

Record BaseRow := {
  bs_Row : RunRow;
  bs_Effective : Z;
}.

#[export] Instance BaseRow_eq_dec : EqDecision BaseRow.
Proof. solve_decision. Defined.

Fixpoint baseRows (db : DB) (request : SchedulerClaimRequest) (rows : list RunRow) : res (list BaseRow) :=
  match rows with
  | [] => Ok []
  | row :: rest =>
      if claimable db (scr_Now request) row then
        effective ← effectivePriority (scr_Now request) (scr_AgingInterval request) (scr_MaximumAgingBoost request) row;
        base ← baseRows db request rest;
        Ok ({| bs_Row := row; bs_Effective := effective |} :: base)
      else baseRows db request rest
  end.

(** Lexicographic order of sort keys. *)
Fixpoint lexLe (k l : list Z) : bool :=
  match k, l with
  | [], _ => true
  | _ :: _, [] => false
  | a :: k', b :: l' => (a <? b) || ((a =? b) && lexLe k' l')
  end.

(** [partition by tenant_id order by effective_priority desc, created_at asc, id asc] *)
Definition tenantKey (b : BaseRow) : list Z :=
  [- bs_Effective b; run_CreatedAt (rr_Run (bs_Row b)); run_ID (rr_Run (bs_Row b))].

(** [row_number()] within the tenant. *)
Definition tenantRank (base : list BaseRow) (b : BaseRow) : Z :=
  Z.of_nat (length (filter (fun b' =>
    run_TenantID (rr_Run (bs_Row b')) = run_TenantID (rr_Run (bs_Row b)) /\ lexLe (tenantKey b') (tenantKey b) = true)
    base)).

(** [order by tenant_rank, effective_priority desc, created_at, tenant_id, id] *)
Definition claimKey (base : list BaseRow) (b : BaseRow) : list Z :=
  [tenantRank base b; - bs_Effective b; run_CreatedAt (rr_Run (bs_Row b)); run_TenantID (rr_Run (bs_Row b));
   run_ID (rr_Run (bs_Row b))].

Definition claim_le (base : list BaseRow) (a b : BaseRow) : Prop :=
  lexLe (claimKey base a) (claimKey base b) = true.

#[export] Instance claim_le_dec base : RelDecision (claim_le base).
Proof. intros a b. unfold claim_le. apply _. Defined.

(** The rows of [locked]: in order, without the rows other transactions hold
    ([skip locked]), up to the batch size. *)
Definition lockedRows (base : list BaseRow) (heldElsewhere : UUID -> bool) (limit : Z) : list BaseRow :=
  take (Z.to_nat limit) (filter (fun b => heldElsewhere (run_ID (rr_Run (bs_Row b))) = false)
    (merge_sort (claim_le base) base)).

(** ** Claiming *)

(** The columns [updated] sets. *)
Definition leaseRow (owner : string) (now expiry : Time) (row : RunRow) : RunRow :=
  {| rr_Run := (rr_Run row) <| run_Status := AgentRunScheduling |> <| run_UpdatedAt := pgTime now |>;
     rr_Priority := rr_Priority row; rr_ExecutionProfile := rr_ExecutionProfile row;
     rr_PreferredRegion := rr_PreferredRegion row; rr_NextEligibleAt := rr_NextEligibleAt row;
     rr_LeaseOwner := Some owner; rr_LeaseExpiresAt := Some (pgTime expiry); rr_DecisionCode := rr_DecisionCode row;
     rr_DecisionReason := rr_DecisionReason row; rr_Strategy := rr_Strategy row;
     rr_SelectionScore := rr_SelectionScore row; rr_IdempotencyResponse := rr_IdempotencyResponse row;
     rr_LastCommand := rr_LastCommand row |}.

(** One row of the update and of the final select. *)
Definition claimRow (owner : string) (now expiry : Time) (b : BaseRow) : Tx ClaimedRun :=
  let row := bs_Row b in
  let run := rr_Run row in
  _ ← updateRunRow (run_TenantID run) (run_ID run) (run_Version run) (leaseRow owner now expiry);
  attempt ← queryRow (fun db => currentAttempt db run);
  mret {| cl_ID := run_ID run; cl_TenantID := run_TenantID run; cl_ProjectID := run_ProjectID run;
          cl_Runtime := run_Runtime run; cl_PromptReference := run_PromptReference run;
          cl_MaxAttempts := run_MaxAttempts run; cl_ExecutionProfile := rr_ExecutionProfile row;
          cl_PreferredRegion := default EmptyString (rr_PreferredRegion row); cl_CreatedBy := run_CreatedBy run;
          cl_CPUMillis := run_CPUMillis run; cl_MemoryMiB := run_MemoryMiB run;
          cl_TimeoutSeconds := run_TimeoutSeconds run; cl_AttemptNumber := run_AttemptCount run;
          cl_AttemptID := att_ID attempt; cl_AttemptVersion := att_Version attempt; cl_Priority := rr_Priority row;
          cl_EffectivePriority := bs_Effective b; cl_Version := run_Version run + 1;
          cl_CreatedAt := run_CreatedAt run; cl_SchedulerLeaseOwner := owner;
          cl_SchedulerLeaseExpiry := pgTime expiry |}.

Fixpoint claimRows (owner : string) (now expiry : Time) (rows : list BaseRow) : Tx (list ClaimedRun) :=
  match rows with
  | [] => mret []
  | b :: rest =>
      claimed ← claimRow owner now expiry b;
      others ← claimRows owner now expiry rest;
      mret (claimed :: others)
  end.

Definition claimTx (heldElsewhere : UUID -> bool) (request : SchedulerClaimRequest) : Tx (list ClaimedRun) :=
  db ← query id;
  base ← lift (baseRows db request (map_to_list (db_runs db)).*2);
  claimRows (scr_Owner request) (scr_Now request) (Add (scr_Now request) (scr_LeaseDuration request))
    (lockedRows base heldElsewhere (scr_BatchSize request)).

(** [Claim]; [heldElsewhere] are the rows locked by concurrent transactions. *)
Definition Claim (heldElsewhere : UUID -> bool) (request : SchedulerClaimRequest) (db : DB)
    : res (list ClaimedRun) * DB :=
  let request := {| scr_Owner := TrimSpace (scr_Owner request); scr_Now := scr_Now request;
                    scr_LeaseDuration := scr_LeaseDuration request; scr_BatchSize := scr_BatchSize request;
                    scr_AgingInterval := scr_AgingInterval request;
                    scr_MaximumAgingBoost := scr_MaximumAgingBoost request |} in
  if (scr_Owner request == EmptyString) || (160 <? len (scr_Owner request)) || IsZero (scr_Now request)
     || (scr_LeaseDuration request <=? 0) || (scr_BatchSize request <? 1) || (1000 <? scr_BatchSize request)
     || (scr_AgingInterval request <=? 0) || (scr_MaximumAgingBoost request <? 0) || (1000 <? scr_MaximumAgingBoost request)
  then (Err (ErrPlain "scheduler claim requires bounded owner, clock, lease, batch, and aging policy"), db)
  else transact (claimTx heldElsewhere request) db.

(** ** Renewal *)

Section Renewal.
Context `{UUIDs}.

Definition renewable (row : RunRow) (tenantID : UUID) (owner : string) (expectedVersion : Z) (now : Time) : bool :=
  (run_TenantID (rr_Run row) == tenantID) && (run_Status (rr_Run row) == AgentRunScheduling)
  && (rr_LeaseOwner row == Some owner)
  && match rr_LeaseExpiresAt row with Some expiry => pgTime now <? expiry | None => false end
  && (run_Version (rr_Run row) =? expectedVersion).

Definition renewTx (tenantID runID : UUID) (owner : string) (expectedVersion : Z) (now : Time) (lease : Duration) : Tx Z :=
  row ← query (fun db => db_runs db !! runID);
  match row with
  | None => lift (Err ErrNotFound)
  | Some row =>
      if renewable row tenantID owner expectedVersion now then
        _ ← updateRunRow tenantID runID expectedVersion (fun row =>
              row <| rr_Run := (rr_Run row) <| run_UpdatedAt := pgTime now |> |>
                  <| rr_LeaseExpiresAt := Some (pgTime (Add (UTC now) lease)) |>);
        mret (expectedVersion + 1)
      else if run_TenantID (rr_Run row) == tenantID then lift (Err ErrVersionConflict) else lift (Err ErrNotFound)
  end.

Definition Renew (tenantID runID : UUID) (owner : string) (expectedVersion : Z) (now : Time) (lease : Duration)
    (db : DB) : res Z * DB :=
  let owner := TrimSpace owner in
  if negb (uuidVersion tenantID =? 7) || negb (uuidVersion runID =? 7) || (owner == EmptyString)
     || (160 <? len owner) || (expectedVersion <? 1) || IsZero now || (lease <=? 0)
  then (Err (ErrPlain "scheduler lease renewal metadata is invalid"), db)
  else transact (renewTx tenantID runID owner expectedVersion now lease) db.
End Renewal.

(** ** The claim order *)

Section Lex.
Lemma lexLe_refl k : lexLe k k = true.
Proof. induction k as [|a k IH]; simpl; [done|]. rewrite Z.eqb_refl, IH. by rewrite orb_true_r. Qed.

Lemma lexLe_total k l : length k = length l -> lexLe k l = true \/ lexLe l k = true.
Proof.
  revert l. induction k as [|a k IH]; intros [|b l] Hl; simpl in *; try (by left); try lia.
  destruct (Z.lt_trichotomy a b) as [?|[->|?]].
  - left. by replace (a <? b) with true by lia.
  - rewrite Z.ltb_irrefl, Z.eqb_refl. apply IH. lia.
  - right. by replace (b <? a) with true by lia.
Qed.

Lemma lexLe_trans k l m : lexLe k l = true -> lexLe l m = true -> lexLe k m = true.
Proof.
  revert l m. induction k as [|a k IH]; intros [|b l] [|c m]; simpl; intros Hkl Hlm; try done.
  rewrite !orb_true_iff, !andb_true_iff, !Z.ltb_lt, !Z.eqb_eq in *.
  destruct Hkl as [?|[-> ?]], Hlm as [?|[-> ?]]; [left; lia|by left|by left|right; eauto].
Qed.

Lemma lexLe_head a k b l : lexLe (a :: k) (b :: l) = true -> a <= b.
Proof. simpl. rewrite orb_true_iff, andb_true_iff, Z.ltb_lt, Z.eqb_eq. lia. Qed.

(** A non-empty list has an element that is least for a key. *)
Lemma lex_least {A} (key : A -> list Z) n l :
  l <> [] -> (forall x, x ∈ l -> length (key x) = n) ->
  exists x, x ∈ l /\ forall y, y ∈ l -> lexLe (key x) (key y) = true.
Proof.
  induction l as [|a l IH]; intros Hne Hlen; [done|]. destruct l as [|b l].
  { exists a. split; [by left|]. intros y Hy%list_elem_of_singleton. subst. apply lexLe_refl. }
  destruct IH as (x & Hx & Hmin); [done|set_solver|].
  destruct (lexLe_total (key a) (key x)) as [Hax|Hxa]; [rewrite !Hlen; set_solver|..].
  - exists a. split; [by left|]. intros y [->|Hy]%elem_of_cons; [apply lexLe_refl|]. eapply lexLe_trans; eauto.
  - exists x. split; [by right|]. intros y [->|Hy]%elem_of_cons; auto.
Qed.

(** Likewise a greatest one. *)
Lemma lex_greatest {A} (key : A -> list Z) n l :
  l <> [] -> (forall x, x ∈ l -> length (key x) = n) ->
  exists x, x ∈ l /\ forall y, y ∈ l -> lexLe (key y) (key x) = true.
Proof.
  induction l as [|a l IH]; intros Hne Hlen; [done|]. destruct l as [|b l].
  { exists a. split; [by left|]. intros y Hy%list_elem_of_singleton. subst. apply lexLe_refl. }
  destruct IH as (x & Hx & Hmax); [done|set_solver|].
  destruct (lexLe_total (key a) (key x)) as [Hax|Hxa]; [rewrite !Hlen; set_solver|..].
  - exists x. split; [by right|]. intros y [->|Hy]%elem_of_cons; auto.
  - exists a. split; [by left|]. intros y [->|Hy]%elem_of_cons; [apply lexLe_refl|]. eapply lexLe_trans; eauto.
Qed.
End Lex.

#[export] Instance claim_le_total base : Total (claim_le base).
Proof. intros a b. unfold claim_le. by apply lexLe_total. Qed.

#[export] Instance claim_le_transitive base : Transitive (claim_le base).
Proof. intros a b c. unfold claim_le. apply lexLe_trans. Qed.

Definition bs_ID (b : BaseRow) : UUID := run_ID (rr_Run (bs_Row b)).
Definition bs_Tenant (b : BaseRow) : UUID := run_TenantID (rr_Run (bs_Row b)).

(** ** What the claim transaction does *)

Lemma baseRows_spec db request rows base :
  baseRows db request rows = Ok base ->
  bs_Row <$> base = filter (fun row => claimable db (scr_Now request) row = true) rows.
Proof.
  revert base. induction rows as [|row rows IH]; intros base; cbn [baseRows].
  - by intros <-%Ok_inj.
  - rewrite filter_cons. destruct (claimable db (scr_Now request) row) eqn:Hc.
    + intros (eff & _ & (base' & Hb & <-%Ok_inj)%bind_ok)%bind_ok.
      rewrite decide_True by done. rewrite fmap_cons. simpl. by rewrite (IH _ Hb).
    + intros Hb. rewrite decide_False by done. auto.
Qed.

Lemma base_rows_stored db request base b :
  baseRows db request (map_to_list (db_runs db)).*2 = Ok base -> b ∈ base ->
  claimable db (scr_Now request) (bs_Row b) = true /\ exists id, db_runs db !! id = Some (bs_Row b).
Proof.
  intros Hb%baseRows_spec Hin. assert (Hr : bs_Row b ∈ bs_Row <$> base) by (by apply list_elem_of_fmap_2).
  rewrite Hb in Hr. apply list_elem_of_filter in Hr as [Hc Hr]. split; [done|].
  apply list_elem_of_fmap in Hr as ([id row] & -> & Hr%elem_of_map_to_list). eauto.
Qed.

Lemma base_NoDup db request base :
  runs_keyed db -> baseRows db request (map_to_list (db_runs db)).*2 = Ok base -> NoDup (bs_ID <$> base).
Proof.
  intros Hk Hb%baseRows_spec.
  assert (Hids : bs_ID <$> base = (fun row => run_ID (rr_Run row)) <$> (bs_Row <$> base)).
  { rewrite <-list_fmap_compose. done. }
  rewrite Hids, Hb. eapply sublist_NoDup; [|apply fmap_sublist, sublist_filter].
  rewrite <-list_fmap_compose.
  rewrite (list_fmap_ext _ fst); [apply NoDup_fst_map_to_list|].
  intros i [id row] Hi%list_elem_of_lookup_2%elem_of_map_to_list. simpl. by apply Hk.
Qed.

Lemma lockedRows_spec base held limit b :
  b ∈ lockedRows base held limit -> b ∈ base /\ held (bs_ID b) = false.
Proof.
  unfold lockedRows. intros Hin%elem_of_take. destruct Hin as (i & Hin%list_elem_of_lookup_2 & _).
  apply list_elem_of_filter in Hin as [? Hin]. rewrite merge_sort_Permutation in Hin. done.
Qed.

Lemma lockedRows_NoDup base held limit : NoDup (bs_ID <$> base) -> NoDup (bs_ID <$> lockedRows base held limit).
Proof.
  intros Hnd. unfold lockedRows. eapply sublist_NoDup; [|apply fmap_sublist, sublist_take].
  eapply sublist_NoDup; [|apply fmap_sublist, sublist_filter]. by rewrite merge_sort_Permutation.
Qed.

(** The row of a claimed run. *)
Definition leased (owner : string) (now expiry : Time) (row : RunRow) : RunRow := bumped (leaseRow owner now expiry) row.

(** What the caller is told about a claimed run. *)
Definition claim_of (owner : string) (expiry : Time) (b : BaseRow) (c : ClaimedRun) : Prop :=
  cl_ID c = bs_ID b /\ cl_TenantID c = bs_Tenant b /\ cl_Version c = run_Version (rr_Run (bs_Row b)) + 1 /\
  cl_SchedulerLeaseOwner c = owner /\ cl_SchedulerLeaseExpiry c = pgTime expiry /\
  cl_AttemptNumber c = run_AttemptCount (rr_Run (bs_Row b)).

Lemma claimRows_spec owner now expiry rows db claimed db' :
  NoDup (bs_ID <$> rows) -> (forall b, b ∈ rows -> db_runs db !! bs_ID b = Some (bs_Row b)) ->
  claimRows owner now expiry rows db = Ok (claimed, db') ->
  Forall2 (claim_of owner expiry) rows claimed /\
  (forall b, b ∈ rows -> db_runs db' !! bs_ID b = Some (leased owner now expiry (bs_Row b))) /\
  (forall id, id ∉ bs_ID <$> rows -> db_runs db' !! id = db_runs db !! id).
Proof.
  revert db claimed. induction rows as [|b rows IH]; intros db claimed Hnd Hst; cbn [claimRows].
  { intros Hr. tx_inv. split_and!; try done. intros b Hb. by apply not_elem_of_nil in Hb. }
  rewrite fmap_cons in Hnd. apply NoDup_cons in Hnd as [Hnin Hnd]. intros Hr.
  apply tx_bind_ok in Hr as (c & db1 & Hc & Hr). apply tx_bind_ok in Hr as (cs & db2 & Hcs & Hr). tx_inv.
  unfold claimRow in Hc. apply tx_bind_ok in Hc as (n & db1' & Hu & Hc).
  apply (updateRunRow_hit _ _ _ _ _ _ _ (bs_Row b)) in Hu as (-> & _ & _ & ->); [|apply Hst; by left|done|done].
  apply tx_bind_ok in Hc as (att & ? & [_ ->]%queryRow_ok & Hc). tx_inv.
  fold (bs_ID b) in *. fold (leased owner now expiry (bs_Row b)) in *.
  apply IH in Hcs as (Hf & Hin & Hout); [|done|]; cycle 1.
  { intros b' Hb'. simpl. rewrite lookup_insert_ne; [apply Hst; by right|]. intros Heq. apply Hnin.
    rewrite Heq. by apply list_elem_of_fmap_2. }
  simpl in Hout. split_and!.
  - constructor; [by split_and!|done].
  - intros b' [->|Hb']%elem_of_cons; [|auto]. rewrite Hout by done. apply lookup_insert_eq.
  - intros id. rewrite fmap_cons, not_elem_of_cons. intros [Hne Hid]. rewrite Hout by done.
    by rewrite lookup_insert_ne.
Qed.

(** A successful claim, taken apart. *)
Lemma Claim_ok held request db claimed db' :
  runs_keyed db -> Claim held request db = (Ok claimed, db') ->
  let owner := TrimSpace (scr_Owner request) in
  let expiry := scr_Now request + scr_LeaseDuration request in
  1 <= scr_BatchSize request /\ 0 < scr_LeaseDuration request /\
  exists base, baseRows db request (map_to_list (db_runs db)).*2 = Ok base /\ NoDup (bs_ID <$> base) /\
    let rows := lockedRows base held (scr_BatchSize request) in
    Forall2 (claim_of owner expiry) rows claimed /\
    (forall b, b ∈ rows -> db_runs db !! bs_ID b = Some (bs_Row b) /\
       db_runs db' !! bs_ID b = Some (leased owner (scr_Now request) expiry (bs_Row b))) /\
    (forall id, id ∉ bs_ID <$> rows -> db_runs db' !! id = db_runs db !! id).
Proof.
  intros Hk Hcl. unfold Claim in Hcl. simpl in Hcl. case_match eqn:Hg; [done|]. apply transact_ok in Hcl.
  reflect_bools. unfold claimTx in Hcl. apply tx_bind_ok in Hcl as (? & ? & [-> ->]%query_ok & Hcl).
  apply tx_bind_ok in Hcl as (base & ? & [Hb ->]%lift_tx_ok & Hcl). simpl in Hcl.
  assert (Hb' : baseRows db request (map_to_list (db_runs db)).*2 = Ok base).
  { rewrite <-Hb. clear. unfold id. induction (map_to_list (db_runs db)).*2 as [|row rows IH]; cbn [baseRows]; [done|].
    by rewrite IH. }
  split; [lia|]. split; [lia|]. exists base. split; [done|].
  pose proof (base_NoDup db request base Hk Hb') as Hnd. split; [done|].
  assert (Hst : forall b, b ∈ lockedRows base held (scr_BatchSize request) -> db_runs db !! bs_ID b = Some (bs_Row b)).
  { intros b [Hin _]%lockedRows_spec. destruct (base_rows_stored _ _ _ _ Hb' Hin) as (_ & id & Hid).
    unfold bs_ID. by rewrite (Hk _ _ Hid). }
  apply claimRows_spec in Hcl as (Hq1 & Hq2 & Hq3); [|by apply lockedRows_NoDup|done].
  simpl. split_and!; try done. intros b Hbin. split; auto.
Qed.

Lemma Forall2_ids owner expiry rows claimed :
  Forall2 (claim_of owner expiry) rows claimed -> cl_ID <$> claimed = bs_ID <$> rows.
Proof. induction 1 as [|b c rows claimed Hc _ IH]; [done|]. rewrite !fmap_cons, IH. by destruct Hc as [-> _]. Qed.

Lemma Forall2_in owner expiry rows claimed c :
  Forall2 (claim_of owner expiry) rows claimed -> c ∈ claimed -> exists b, b ∈ rows /\ claim_of owner expiry b c.
Proof.
  intros Hf [i Hi]%list_elem_of_lookup. destruct (Forall2_lookup_r _ _ _ _ _ Hf Hi) as (b & Hb & Hc).
  exists b. split; [|done]. by eapply list_elem_of_lookup_2.
Qed.

Lemma claimable_cases db now row :
  claimable db now row = true ->
  hasPendingAttempt db (rr_Run row) = true /\
  (run_edge (run_Status (rr_Run row)) AgentRunScheduling \/
   (run_Status (rr_Run row) = AgentRunScheduling /\
    exists expiry, rr_LeaseExpiresAt row = Some expiry /\ expiry <= pgTime now)).
Proof.
  unfold claimable. intros [Hst Hp]%andb_true_iff. split; [done|].
  apply orb_true_iff in Hst as [[Hst|[Hst _]%andb_true_iff]%orb_true_iff|[Hst He]%andb_true_iff];
    apply bool_decide_eq_true in Hst; rewrite Hst.
  - left. constructor.
  - left. constructor.
  - right. split; [done|]. destruct (rr_LeaseExpiresAt row) as [expiry|]; [|done].
    exists expiry. split; [done|]. lia.
Qed.


(** ** Fairness over tenants *)

Lemma lexLe_antisym k l : lexLe k l = true -> lexLe l k = true -> k = l.
Proof.
  revert l. induction k as [|a k IH]; intros [|b l]; simpl; intros Hkl Hlk; try done.
  rewrite !orb_true_iff, !andb_true_iff, !Z.ltb_lt, !Z.eqb_eq in *.
  destruct Hkl as [?|[-> ?]], Hlk as [?|[? ?]]; try lia. f_equal. auto.
Qed.

Lemma NoDup_id_inj base b b' :
  NoDup (bs_ID <$> base) -> b ∈ base -> b' ∈ base -> bs_ID b = bs_ID b' -> b = b'.
Proof.
  intros Hnd [i Hi]%list_elem_of_lookup [j Hj]%list_elem_of_lookup Hid.
  assert (i = j) as ->.
  { eapply (NoDup_lookup _ _ _ (bs_ID b) Hnd); rewrite list_lookup_fmap; [by rewrite Hi|by rewrite Hj, Hid]. }
  congruence.
Qed.

Lemma lockedRows_none base limit :
  lockedRows base (fun _ => false) limit = take (Z.to_nat limit) (merge_sort (claim_le base) base).
Proof. unfold lockedRows. f_equal. induction (merge_sort _ _) as [|b l IH]; [done|]. rewrite filter_cons. by rewrite IH. Qed.

(** Everything claimed comes before everything left over. *)
Lemma lockedRows_prefix base limit x y :
  let rows := lockedRows base (fun _ => false) limit in
  x ∈ rows -> y ∈ base -> y ∉ rows -> claim_le base x y.
Proof.
  rewrite lockedRows_none. set (sorted := merge_sort _ _). set (n := Z.to_nat limit). intros rows Hx Hy Hny.
  assert (Hs : StronglySorted (claim_le base) (take n sorted ++ drop n sorted)).
  { rewrite take_drop. apply StronglySorted_merge_sort; apply _. }
  apply (StronglySorted_app_1_elem_of _ _ _ x y Hs); [done|].
  assert (Hy' : y ∈ take n sorted ++ drop n sorted).
  { rewrite take_drop. unfold sorted. by rewrite merge_sort_Permutation. }
  apply elem_of_app in Hy' as [?|?]; [done|done].
Qed.

Definition claimed_of (tenant : UUID) (claimed : list ClaimedRun) : nat :=
  length (filter (fun c => cl_TenantID c = tenant) claimed).

Lemma claimed_of_rows owner expiry rows claimed tenant :
  Forall2 (claim_of owner expiry) rows claimed ->
  claimed_of tenant claimed = length (filter (fun b => bs_Tenant b = tenant) rows).
Proof.
  unfold claimed_of. induction 1 as [|b c rows claimed Hc _ IH]; [done|].
  rewrite !filter_cons. destruct Hc as (_ & -> & _). case_decide; simpl; by rewrite IH.
Qed.

(** The number of claims of a tenant bounds the rank of its last claim from below. *)
Lemma rank_of_claimed base rows tenant :
  NoDup (bs_ID <$> base) -> NoDup rows -> (forall b, b ∈ rows -> b ∈ base) ->
  filter (fun b => bs_Tenant b = tenant) rows <> [] ->
  exists x, x ∈ rows /\ bs_Tenant x = tenant /\
    Z.of_nat (length (filter (fun b => bs_Tenant b = tenant) rows)) <= tenantRank base x.
Proof.
  intros Hnd Hndr Hsub Hne.
  destruct (lex_greatest tenantKey 3 _ Hne) as (x & Hx & Hmax); [done|].
  exists x. apply list_elem_of_filter in Hx as [Hxt Hx]. split_and!; try done.
  unfold tenantRank. apply Nat2Z.inj_le, submseteq_length, NoDup_submseteq; [by apply NoDup_filter|].
  intros b Hb. pose proof (Hmax b Hb). apply list_elem_of_filter in Hb as [Hbt Hb].
  apply list_elem_of_filter. split; [|auto]. split; [unfold bs_Tenant in *; congruence|done].
Qed.

(** And the rank of its first unclaimed run from above. *)
Lemma rank_of_unclaimed base rows tenant y0 :
  NoDup (bs_ID <$> base) -> y0 ∈ base -> y0 ∉ rows -> bs_Tenant y0 = tenant ->
  exists y, y ∈ base /\ y ∉ rows /\
    tenantRank base y <= Z.of_nat (length (filter (fun b => bs_Tenant b = tenant) rows)) + 1.
Proof.
  intros Hnd Hy0 Hn0 Ht0.
  set (left := filter (fun b => bs_Tenant b = tenant /\ b ∉ rows) base).
  assert (Hne : left <> []).
  { intros Hl. assert (Hin : y0 ∈ left) by (by apply list_elem_of_filter). rewrite Hl in Hin. by apply not_elem_of_nil in Hin. }
  destruct (lex_least tenantKey 3 _ Hne) as (y & Hy & Hmin); [done|].
  exists y. pose proof Hy as [[Hyt Hyn] Hyb]%list_elem_of_filter. split_and!; try done.
  unfold tenantRank. set (below := filter _ base).
  assert (Hlen : (length below <= length (y :: filter (fun b => bs_Tenant b = tenant) rows))%nat).
  { apply submseteq_length, NoDup_submseteq; [apply NoDup_filter; by eapply NoDup_fmap_1|].
    intros b [[Hbt Hle] Hb]%list_elem_of_filter. destruct (decide (b ∈ rows)) as [Hr|Hr].
    - right. apply list_elem_of_filter. split; [unfold bs_Tenant in *; congruence|done].
    - apply elem_of_cons. left. eapply NoDup_id_inj; try done. assert (Hbl : b ∈ left).
      { apply list_elem_of_filter. unfold bs_Tenant in *. split_and!; congruence. }
      pose proof (lexLe_antisym _ _ Hle (Hmin b Hbl)) as Heq. unfold tenantKey in Heq. by simplify_eq. }
  simpl in Hlen. lia.
Qed.

(** claims are shared out fairly. When nothing is locked elsewhere, a tenant
    that is left with a claimable run has got at least as many runs in the batch
    as any other tenant, less one: no tenant can crowd out another however high
    its priorities are or however many runs it queues. *)
Theorem Claim_fair request db claimed db' tenant other row :
  runs_keyed db -> Claim (fun _ => false) request db = (Ok claimed, db') ->
  db_runs db !! run_ID (rr_Run row) = Some row -> run_TenantID (rr_Run row) = tenant ->
  claimable db (scr_Now request) row = true -> run_ID (rr_Run row) ∉ cl_ID <$> claimed ->
  (claimed_of other claimed <= claimed_of tenant claimed + 1)%nat.
Proof.
  intros Hk Hcl Hrow Hten Hcb Hun.
  destruct (Claim_ok _ _ _ _ _ Hk Hcl) as (_ & _ & base & Hbase & Hnd & Hf & Hrows & _). simpl in *.
  set (rows := lockedRows base (fun _ => false) (scr_BatchSize request)) in *.
  rewrite !(claimed_of_rows _ _ _ _ _ Hf).
  assert (Hy0 : exists y0, y0 ∈ base /\ bs_Row y0 = row).
  { assert (Hin : row ∈ bs_Row <$> base).
    { rewrite (baseRows_spec _ _ _ _ Hbase). apply list_elem_of_filter. split; [done|].
      apply list_elem_of_fmap. exists (run_ID (rr_Run row), row). split; [done|]. by apply elem_of_map_to_list. }
    apply list_elem_of_fmap in Hin as (y0 & -> & Hin). eauto. }
  destruct Hy0 as (y0 & Hy0 & <-).
  assert (Hny0 : y0 ∉ rows).
  { intros Hin. apply Hun. rewrite (Forall2_ids _ _ _ _ Hf). by apply (list_elem_of_fmap_2 bs_ID). }
  destruct (rank_of_unclaimed base rows tenant y0) as (y & Hy & Hny & Hry); try done.
  destruct (filter (fun b => bs_Tenant b = other) rows) as [|z zs] eqn:Hz; [simpl; lia|].
  destruct (rank_of_claimed base rows other) as (x & Hx & _ & Hrx); try done.
  - eapply NoDup_fmap_1. by apply lockedRows_NoDup.
  - intros b [Hb _]%lockedRows_spec. done.
  - by rewrite Hz.
  - rewrite Hz in Hrx. pose proof (lockedRows_prefix base (scr_BatchSize request) x y Hx Hy Hny) as Hle.
    apply lexLe_head in Hle. lia.
Qed.

(** ** Renewal *)

Definition renewed (now : Time) (lease : Duration) (row : RunRow) : RunRow :=
  bumped (fun row => row <| rr_Run := (rr_Run row) <| run_UpdatedAt := pgTime now |> |>
                         <| rr_LeaseExpiresAt := Some (pgTime (Add (UTC now) lease)) |>) row.

Lemma renewed_valid now lease row :
  runRowValid row = true -> run_Status (rr_Run row) = AgentRunScheduling -> runRowValid (renewed now lease row) = true.
Proof.
  unfold runRowValid. intros Hv Hs. simpl. rewrite Hs in *. simpl in Hv.
  rewrite (bool_decide_eq_true_2 (AgentRunScheduling = AgentRunScheduling)) in * by done.
  reflect_bools. rewrite !andb_true_iff. rewrite ?Z.leb_le in *.
  repeat match goal with |- _ /\ _ => split end; try done; try lia.
  by rewrite orb_true_iff, bool_decide_eq_true.
Qed.

Section RenewSpec.
Context `{UUIDs}.

(** only the holder of a live lease can extend it, and the holder always
    can. With well-formed arguments, renewal succeeds exactly when the stored
    run is [SCHEDULING] for that tenant, under a lease of that owner that has
    not run out, at the expected version; it then returns the next version and
    sets only the lease end, the update time and the version. Otherwise it
    reports a version conflict, or not found when the tenant has no such run,
    and changes nothing. *)
Theorem Renew_only_holder tenantID runID owner version now lease db :
  uuidVersion tenantID = 7 -> uuidVersion runID = 7 -> TrimSpace owner <> EmptyString -> len (TrimSpace owner) <= 160 ->
  1 <= version < 2 ^ 63 - 1 -> IsZero now = false -> 0 < lease ->
  (forall row, db_runs db !! runID = Some row -> runRowValid row = true) ->
  Renew tenantID runID owner version now lease db =
    match db_runs db !! runID with
    | None => (Err ErrNotFound, db)
    | Some row =>
        if renewable row tenantID (TrimSpace owner) version now
        then (Ok (version + 1), db <| db_runs := <[runID := renewed now lease row]> (db_runs db) |>)
        else (Err (if run_TenantID (rr_Run row) == tenantID then ErrVersionConflict else ErrNotFound), db)
    end.
Proof.
  intros Ht Hr Ho Hol Hv Hz Hl Hval. unfold Renew. rewrite Ht, Hr, Hz, bool_decide_eq_false_2 by done.
  replace (_ || _ || _ || _ || _ || _ || _) with false by (simpl; lia).
  unfold transact, renewTx. erewrite tx_step by reflexivity.
  destruct (db_runs db !! runID) as [row|] eqn:Hrow; [|done].
  destruct (renewable row tenantID (TrimSpace owner) version now) eqn:Hren; [|by case_bool_decide].
  unfold renewable in Hren. apply andb_true_iff in Hren as [[[[Hten Hst]%andb_true_iff _]%andb_true_iff _]%andb_true_iff Hver].
  apply bool_decide_eq_true in Hten, Hst. apply Z.eqb_eq in Hver.
  erewrite tx_step; [reflexivity|]. unfold updateRunRow. erewrite tx_step by reflexivity. unfold id.
  rewrite Hrow, bool_decide_eq_true_2, Hver, Z.eqb_refl by done. cbn [negb orb].
  erewrite tx_step by (apply lift_bigint; unfold in_int64; lia).
  erewrite tx_step; [unfold renewed, bumped; rewrite Hver; reflexivity|].
  apply abortIf_false. apply negb_false_iff.
  pose proof (renewed_valid now lease row (Hval _ eq_refl) Hst) as Hv'. unfold renewed, bumped in Hv'.
  by rewrite Hver in Hv'.
Qed.
End RenewSpec.

(** ** Examples *)

Definition queuedRow (id tenant : UUID) : RunRow :=
  example_run_row <| rr_Run := (rr_Run example_run_row) <| run_ID := id |> <| run_TenantID := tenant |> |>.

Definition pendingAttempt (id tenant run : UUID) : AgentRunAttempt :=
  example_attempt <| att_ID := id |> <| att_TenantID := tenant |> <| att_RunID := run |>.

(** Two queued runs of one tenant and one of another. *)
Definition example_queue : DB :=
  emptyDB
    <| db_runs := list_to_map [(exampleV7 11, queuedRow (exampleV7 11) 7); (exampleV7 12, queuedRow (exampleV7 12) 7);
                               (exampleV7 13, queuedRow (exampleV7 13) 9)] |>
    <| db_attempts := list_to_map [(21, pendingAttempt 21 7 (exampleV7 11)); (22, pendingAttempt 22 7 (exampleV7 12));
                                   (23, pendingAttempt 23 9 (exampleV7 13))] |>.

Definition example_claim : SchedulerClaimRequest :=
  {| scr_Owner := " scheduler-1 "; scr_Now := exampleNow; scr_LeaseDuration := 30 * Second; scr_BatchSize := 2;
     scr_AgingInterval := Minute; scr_MaximumAgingBoost := 10 |}.

Lemma example_queue_keyed : runs_keyed example_queue.
Proof.
  intros id row Hr.
  assert (Hin : (id, row) ∈ map_to_list (db_runs example_queue)) by (by apply elem_of_map_to_list).
  vm_compute in Hin. repeat (apply elem_of_cons in Hin as [[= -> ->]|Hin]; [reflexivity|]).
  by apply not_elem_of_nil in Hin.
Qed.

Lemma example_claims :
  exists claimed db', Claim (fun _ => false) example_claim example_queue = (Ok claimed, db') /\
    cl_ID <$> claimed = [exampleV7 11; exampleV7 13].
Proof.
  destruct (Claim (fun _ => false) example_claim example_queue) as [r db'] eqn:E.
  vm_compute in E. injection E as <- <-. eexists _, _. split; reflexivity.
Qed.


Lemma Claim_fair_witness :
  exists claimed db', Claim (fun _ => false) example_claim example_queue = (Ok claimed, db') /\
    (claimed_of 9 claimed <= claimed_of 7 claimed + 1)%nat.
Proof.
  destruct example_claims as (claimed & db' & Hc & Hids). exists claimed, db'. split; [exact Hc|].
  apply (Claim_fair example_claim example_queue claimed db' 7 9 (queuedRow (exampleV7 12) 7) example_queue_keyed Hc).
  - vm_compute. reflexivity.
  - reflexivity.
  - vm_compute. reflexivity.
  - rewrite Hids. intros Hin. repeat (apply elem_of_cons in Hin as [Hin|Hin]; [vm_compute in Hin; discriminate|]).
    by apply not_elem_of_nil in Hin.
Defined.

Definition example_leased : RunRow :=
  (queuedRow (exampleV7 11) exampleTenant)
    <| rr_Run := (rr_Run (queuedRow (exampleV7 11) exampleTenant)) <| run_Status := AgentRunScheduling |> |>
    <| rr_LeaseOwner := Some "scheduler-1" |> <| rr_LeaseExpiresAt := Some (exampleNow + Minute) |>.

Lemma Renew_only_holder_witness :
  let db := emptyDB <| db_runs := {[exampleV7 11 := example_leased]} |> in
  (@Renew rfcUUIDs exampleTenant (exampleV7 11) "scheduler-1" 1 exampleNow Minute db).1 = Ok 2.
Proof.
  intros db. rewrite (@Renew_only_holder rfcUUIDs).
  - vm_compute. reflexivity.
  - vm_compute. reflexivity.
  - vm_compute. reflexivity.
  - vm_compute. discriminate.
  - vm_compute. discriminate.
  - vm_compute. split; [discriminate|reflexivity].
  - reflexivity.
  - reflexivity.
  - intros row Hr. subst db. cbn in Hr. apply lookup_singleton_Some in Hr as [_ <-]. vm_compute. reflexivity.
Defined.
