(* ===== verification/SchedulingIntent.v ===== *)
(** * Scheduling decisions (internal/adapters/postgres/scheduling_intent.go,
      scheduler_eligibility.go)

    The transactions that end a claim: assigning a cluster with its reservation,
    event and hand-off intent, deferring to a capacity wait, and rejecting by
    policy; each answers a repetition of the same request from what it stored. *)

From S2P Require Import Prelude AgentRun Policy Cluster Events Intent Store Reservations Queue.

Record SchedulingIntentRequest := {
  si_Claim : ClaimedRun;
  si_LeaseOwner : string;
  si_AttemptID : UUID;
  si_AttemptVersion : Z;
  si_ClusterID : string;
  si_ClusterFreshness : Duration;
  si_Strategy : string;
  si_SelectionScore : Z;
  si_BudgetMinorUnits : Z;
  si_ReservationTTL : Duration;
  si_CorrelationID : string;
  si_CausationID : string;
  si_Now : Time;
  si_DesiredState : AgentRunDesiredState;
}.

Record CapacityWaitRequest := {
  cwr_Claim : ClaimedRun;
  cwr_LeaseOwner : string;
  cwr_ReasonCode : string;
  cwr_Reason : string;
  cwr_NextEligibleAt : Time;
  cwr_CorrelationID : string;
  cwr_CausationID : string;
  cwr_Now : Time;
}.

Record SchedulingRejectRequest := {
  srj_Claim : ClaimedRun;
  srj_LeaseOwner : string;
  srj_ReasonCode : string;
  srj_Reason : string;
  srj_CorrelationID : string;
  srj_CausationID : string;
  srj_Now : Time;
}.

Record SchedulingIntentResult := {
  sir_RunVersion : Z;
  sir_AttemptVersion : Z;
  sir_CapacityReservationID : UUID;
  sir_BudgetReservationID : UUID;
  sir_EventID : UUID;
  sir_Replayed : bool;
}.

#[export] Instance SchedulingIntentResult_settable : Settable SchedulingIntentResult := fun r =>
  Build_SchedulingIntentResult (sir_RunVersion r) (sir_AttemptVersion r) (sir_CapacityReservationID r)
    (sir_BudgetReservationID r) (sir_EventID r) (sir_Replayed r).

Section Intents.
Context `{UUIDs} `{NetURL}.

(** ** Reading the policy, the usage and the ownership *)

Definition policyOf (row : PolicyRow) : SchedulingPolicy :=
  {| sp_MaxConcurrentRuns := pr_MaxConcurrentRuns row; sp_MaxUserConcurrentRuns := pr_MaxUserConcurrentRuns row;
     sp_MaxQueuedRuns := pr_MaxQueuedRuns row; sp_MaxCPUMillis := pr_MaxCPUMillis row;
     sp_MaxMemoryMiB := pr_MaxMemoryMiB row; sp_DailyBudgetMinorUnits := pr_DailyBudgetMinorUnits row;
     sp_AllowedRuntimes := pr_AllowedRuntimes row; sp_AllowedProfiles := pr_AllowedProfiles row;
     sp_DeferralDuration := mul64 (pr_DeferralSeconds row) Second |}.

Definition readSchedulingPolicy (tenantID : UUID) : Tx (option SchedulingPolicy) :=
  query (fun db => policyOf <$> db_policies db !! tenantID).

(** The statuses the aggregates count as active. *)
Definition activeStatus (status : AgentRunStatus) : bool :=
  bool_decide (status ∈ [AgentRunProvisioning; AgentRunRunning; AgentRunTesting; AgentRunBuilding; AgentRunScanning;
    AgentRunReadyToDeploy; AgentRunDeploying; AgentRunCancelling]).

Definition queuedStatus (status : AgentRunStatus) : bool :=
  bool_decide (status ∈ [AgentRunQueued; AgentRunScheduling; AgentRunCapacityWait]).

Definition tenantRuns (db : DB) (tenantID : UUID) : list AgentRun :=
  filter (fun run => run_TenantID run = tenantID) (rr_Run <$> (map_to_list (db_runs db)).*2).

Definition countRuns (p : AgentRun -> bool) (runs : list AgentRun) : Z :=
  sumZ (fun run => if p run then 1 else 0) runs.

Definition readSchedulingUsage (tenantID : UUID) (createdBy : string) (now : Time) : Tx SchedulingUsage :=
  db ← query id;
  let runs := tenantRuns db tenantID in
  let active run := activeStatus (run_Status run) in
  cpu ← lift (scanInt64 (sumZ (fun run => if active run then run_CPUMillis run else 0) runs));
  memory ← lift (scanInt64 (sumZ (fun run => if active run then run_MemoryMiB run else 0) runs));
  used ← match db_usage db !! (tenantID, usageDateOf now) with
         | None => mret 0
         | Some usage => lift (bigint (bu_Spent usage + bu_Reserved usage))
         end;
  mret {| su_ActiveTenantRuns := countRuns active runs;
          su_ActiveUserRuns := countRuns (fun run => (run_CreatedBy run == createdBy) && active run) runs;
          su_QueuedTenantRuns := countRuns (fun run => queuedStatus (run_Status run)) runs;
          su_ActiveCPUMillis := cpu; su_ActiveMemoryMiB := memory; su_BudgetUsedMinorUnits := used |}.

(** [tenants join projects on project.tenant_id = tenant.id] *)
Definition ownershipStatus (db : DB) (tenantID projectID : UUID) : option (string * string) :=
  match db_tenants db !! tenantID, db_projects db !! projectID with
  | Some tenantStatus, Some (owner, projectStatus) =>
      if owner =? tenantID then Some (tenantStatus, projectStatus) else None
  | _, _ => None
  end.

(** ** SchedulerEligibilityRepository *)

Definition insertEligibilityRow (decisionID : UUID) (row : EligibilityRow) : Tx unit :=
  _ ← checkV7 decisionID;
  db ← query id;
  _ ← abortIf (bool_decide (is_Some (db_eligibility db !! decisionID))) (ErrPlain "persist eligibility decision");
  _ ← abortIf (bool_decide ((run_TenantID ∘ rr_Run) <$> db_runs db !! el_RunID row <> Some (el_TenantID row)))
      (ErrPlain "persist eligibility decision");
  modify (fun db => db <| db_eligibility := <[decisionID := row]> (db_eligibility db) |>).

Definition evaluateTx (newDecisionID : res UUID) (run : ClaimedRun) (now : Time) : Tx EligibilityDecision :=
  statuses ← queryRow (fun db => ownershipStatus db (cl_TenantID run) (cl_ProjectID run));
  policy ← readSchedulingPolicy (cl_TenantID run);
  usage ← readSchedulingUsage (cl_TenantID run) (cl_CreatedBy run) now;
  decision ← lift (EvaluateEligibility
    {| ei_TenantStatus := statuses.1; ei_ProjectStatus := statuses.2;
       ei_Request := {| sr_Runtime := cl_Runtime run; sr_ExecutionProfile := cl_ExecutionProfile run;
         sr_CreatedBy := cl_CreatedBy run; sr_CPUMillis := cl_CPUMillis run; sr_MemoryMiB := cl_MemoryMiB run |};
       ei_Policy := policy; ei_Usage := usage; ei_Now := UTC now |});
  decisionID ← lift newDecisionID;
  _ ← insertEligibilityRow decisionID
    {| el_TenantID := cl_TenantID run; el_RunID := cl_ID run; el_AttemptNumber := cl_AttemptNumber run;
       el_RunVersion := cl_Version run; el_Decision := decision; el_Usage := usage; el_EvaluatedAt := pgTime (UTC now) |};
  mret decision.

Definition Evaluate (newDecisionID : res UUID) (run : ClaimedRun) (now : Time) (db : DB) : res EligibilityDecision * DB :=
  if negb (uuidVersion (cl_ID run) =? 7) || negb (uuidVersion (cl_TenantID run) =? 7)
     || negb (uuidVersion (cl_ProjectID run) =? 7) || (cl_AttemptNumber run <? 1) || (cl_Version run <? 1) || IsZero now
  then (Err (ErrPlain "claimed run identity and evaluation time are required"), db)
  else transact (evaluateTx newDecisionID run now) db.

(** ** Locking rows *)

Record LockedRun := {
  lr_Run : AgentRun;
  lr_Owner : string;
  lr_Expiry : option Time;
  lr_Profile : string;
}.

(** [lockSchedulingRun]: the scanned columns; the others are the zero values of
    the struct. *)
Definition scannedRun (run : AgentRun) : AgentRun :=
  {| run_ID := run_ID run; run_TenantID := run_TenantID run; run_ProjectID := run_ProjectID run;
     run_PromptReference := run_PromptReference run; run_Runtime := run_Runtime run;
     run_CPUMillis := run_CPUMillis run; run_MemoryMiB := run_MemoryMiB run;
     run_TimeoutSeconds := run_TimeoutSeconds run; run_MaxAttempts := run_MaxAttempts run;
     run_AttemptCount := run_AttemptCount run; run_Status := run_Status run;
     run_FailureCategory := FailureUnset; run_IdempotencyKey := EmptyString; run_RequestHash := EmptyString;
     run_Version := run_Version run; run_CreatedBy := run_CreatedBy run; run_CancellationReason := EmptyString;
     run_CancellationRequestedBy := EmptyString; run_CancellationRequestedAt := None; run_CreatedAt := 0;
     run_UpdatedAt := run_UpdatedAt run; run_CompletedAt := None |}.

(** A run row of a tenant. *)
Definition tenantRow (db : DB) (tenantID runID : UUID) : option RunRow :=
  match db_runs db !! runID with
  | Some row => if run_TenantID (rr_Run row) =? tenantID then Some row else None
  | None => None
  end.

Definition lockSchedulingRun (tenantID runID : UUID) : Tx LockedRun :=
  row ← queryRow (fun db => tenantRow db tenantID runID);
  mret {| lr_Run := scannedRun (rr_Run row); lr_Owner := default EmptyString (rr_LeaseOwner row);
          lr_Expiry := rr_LeaseExpiresAt row; lr_Profile := rr_ExecutionProfile row |}.

(** [lockPendingAttempt]: the scanned columns of the run's current attempt. *)
Definition lockPendingAttempt (run : AgentRun) (attemptID : UUID) (expectedVersion : Z) : Tx AgentRunAttempt :=
  stored ← queryRow (fun db => match db_attempts db !! attemptID with
    | Some a => if (att_TenantID a =? run_TenantID run) && (att_RunID a =? run_ID run)
                   && (att_AttemptNumber a =? run_AttemptCount run) then Some a else None
    | None => None
    end);
  let attempt :=
    {| att_ID := att_ID stored; att_TenantID := att_TenantID stored; att_RunID := att_RunID stored;
       att_AttemptNumber := att_AttemptNumber stored; att_Status := att_Status stored;
       att_FailureCategory := FailureUnset; att_Version := att_Version stored; att_SelectedCluster := EmptyString;
       att_ExecutionProfile := EmptyString; att_CapacityReservationID := uuidNil; att_BudgetReservationID := uuidNil;
       att_WorkloadReference := EmptyString; att_CreatedAt := 0; att_UpdatedAt := 0; att_StartedAt := None;
       att_CompletedAt := None |} in
  _ ← abortIf ((att_Status attempt != AttemptPending) || negb (att_Version attempt =? expectedVersion)) ErrVersionConflict;
  mret attempt.

(** The placement filters of the registry, for one cluster and its newest snapshot. *)
Definition placeable (db : DB) (cluster : ExecutionCluster) (capacity : ClusterCapacity) (tenantID : UUID)
    (runtime profile : string) (now : Time) (freshness : Duration) : bool :=
  let oldest := pgTime (Add (UTC now) (- freshness)) in
  (ec_Status cluster == ClusterActive) && negb (ec_Maintenance cluster) && (oldest <=? ec_LastHeartbeatAt cluster)
  && bool_decide (runtime ∈ ec_SupportedRuntimes cluster)
  && bool_decide (profile ∈ ec_SupportedExecutionProfiles cluster)
  && (negb (ec_TenantRestricted cluster) || bool_decide ((ec_ID cluster, tenantID) ∈ db_allowlist db))
  && (oldest <=? cc_ObservedAt capacity).

Definition lockEligibleCluster (tenantID : UUID) (clusterID runtime profile : string) (now : Time)
    (freshness : Duration) : Tx (ExecutionCluster * ClusterCapacity) :=
  db ← query id;
  match db_clusters db !! clusterID, latestSnapshot db clusterID with
  | Some cluster, Some capacity =>
      _ ← abortIf (negb (placeable db cluster capacity tenantID runtime profile now freshness)) ErrCapacityUnavailable;
      _ ← abortIf (negb (is_ok (Cluster_Validate cluster now))) ErrCapacityUnavailable;
      _ ← abortIf (negb (is_ok (Capacity_Validate capacity now))) ErrCapacityUnavailable;
      mret (cluster, capacity)
  | _, _ => lift (Err ErrCapacityUnavailable)
  end.

(** [select event_id from outbox_events where tenant_id, run_id, event_type, aggregate_version] *)
Definition eventOf (db : DB) (tenantID runID : UUID) (eventType : string) (version : Z) : option UUID :=
  env_EventID <$> head (filter (fun e => env_TenantID e = tenantID /\ env_RunID e = Some runID /\
    env_EventType e = eventType /\ env_AggregateVersion e = version)
    ((fun kv => oe_Envelope (ob_Event kv.2)) <$> map_to_list (db_outbox db))).

(** The guard every decision applies to the locked run. *)
Definition leaseLost (locked : LockedRun) (leaseOwner : string) (now : Time) (version : Z) : bool :=
  (run_Status (lr_Run locked) != AgentRunScheduling) || (lr_Owner locked != leaseOwner)
  || match lr_Expiry locked with None => true | Some expiry => negb (After expiry (UTC now)) end
  || negb (run_Version (lr_Run locked) =? version).

(** ** Schedule *)

Definition validateSchedulingIntent (request : SchedulingIntentRequest) : res unit :=
  let claim := si_Claim request in
  let desired := si_DesiredState request in
  _ ← failIf ((cl_TenantID claim == uuidNil) || (cl_ID claim == uuidNil) || (si_AttemptID request == uuidNil)
        || (cl_Version claim <? 1) || (si_AttemptVersion request <? 1) || blank (si_LeaseOwner request)
        || (si_ClusterID request == EmptyString) || (si_ClusterFreshness request <=? 0)
        || (si_Strategy request == EmptyString) || (si_SelectionScore request <? 0)
        || (si_BudgetMinorUnits request <? 0) || (si_ReservationTTL request <=? 0)
        || (24 * Hour <? si_ReservationTTL request) || IsZero (si_Now request)
        || blank (si_CorrelationID request) || blank (si_CausationID request))
      (ErrPlain "scheduling intent request is invalid");
  _ ← failIf ((ds_Runtime desired != cl_Runtime claim) || (ds_ExecutionProfile desired != cl_ExecutionProfile claim)
        || (ds_TaskReference desired != cl_PromptReference claim)
        || negb (ds_TimeoutSeconds desired =? cl_TimeoutSeconds claim)
        || negb (ds_MaxAttempts desired =? cl_MaxAttempts claim) || negb (ds_CPUMillis desired =? cl_CPUMillis claim)
        || negb (ds_MemoryMiB desired =? cl_MemoryMiB claim))
      (ErrPlain "scheduling desired state does not match claimed run");
  Desired_Validate desired (cl_AttemptNumber claim).

Definition insertHandoffIntent (eventID : UUID) (run : AgentRun) (attempt : AgentRunAttempt)
    (desired : AgentRunDesiredState) : Tx unit :=
  _ ← checkV7 eventID;
  _ ← checkV7 (att_ID attempt);
  _ ← abortIf ((att_AttemptNumber attempt <? 1) || (10 <? att_AttemptNumber attempt)
        || negb (clusterIDPattern (att_SelectedCluster attempt))) (ErrPlain "check constraint violated");
  db ← query id;
  _ ← abortIf (bool_decide (is_Some (db_handoff db !! eventID))
        || bool_decide (map_Exists (fun _ h => ho_TenantID h = run_TenantID run /\ ho_RunID h = run_ID run /\
             ho_AttemptNumber h = att_AttemptNumber attempt) (db_handoff db))) ErrConflict;
  _ ← abortIf (bool_decide (db_tenants db !! run_TenantID run = None)) ErrNotFound;
  modify (fun db => db <| db_handoff := <[eventID :=
    {| ho_EventID := eventID; ho_TenantID := run_TenantID run; ho_RunID := run_ID run; ho_AttemptID := att_ID attempt;
       ho_AttemptNumber := att_AttemptNumber attempt; ho_ClusterID := att_SelectedCluster attempt;
       ho_DesiredState := desired; ho_CreatedAt := pgTime (run_UpdatedAt run) |}]> (db_handoff db) |>).

(** [desiredStateMatches]: both values are serialized the same way. *)
Definition desiredStateMatches (stored desired : AgentRunDesiredState) : bool := stored == desired.

Definition replaySchedulingIntent (run : AgentRun) (request : SchedulingIntentRequest) : Tx SchedulingIntentResult :=
  joined ← queryRow (fun db =>
    attempt ← currentAttempt db run;
    capacity ← db_capacity db !! att_CapacityReservationID attempt;
    budget ← db_budget db !! att_BudgetReservationID attempt;
    Some (attempt, capacity, budget));
  let '(attempt, capacity, budget) := joined in
  chosen ← queryRow (fun db =>
    row ← tenantRow db (run_TenantID run) (run_ID run);
    strategy ← rr_Strategy row;
    score ← rr_SelectionScore row;
    Some (strategy, score));
  let '(strategy, score) := chosen in
  _ ← abortIf ((att_SelectedCluster attempt != si_ClusterID request)
        || (att_ExecutionProfile attempt != cl_ExecutionProfile (si_Claim request))
        || negb (cr_CPUMillis capacity =? run_CPUMillis run) || negb (cr_MemoryMiB capacity =? run_MemoryMiB run)
        || negb (br_AmountMinorUnits budget =? si_BudgetMinorUnits request)
        || negb (TimeSub (cr_ExpiresAt capacity) (cr_CreatedAt capacity) =? si_ReservationTTL request)
        || (strategy != si_Strategy request) || negb (score =? si_SelectionScore request)) ErrConflict;
  eventID ← queryRow (fun db => eventOf db (run_TenantID run) (run_ID run) AgentRunScheduledType (run_Version run));
  handoff ← queryRow (fun db => match db_handoff db !! eventID with
    | Some h => if (ho_TenantID h =? run_TenantID run) && (ho_RunID h =? run_ID run)
                   && (ho_AttemptNumber h =? run_AttemptCount run) then Some h else None
    | None => None
    end);
  _ ← abortIf (negb (desiredStateMatches (ho_DesiredState handoff) (si_DesiredState request))) ErrConflict;
  mret {| sir_RunVersion := run_Version run; sir_AttemptVersion := att_Version attempt;
          sir_CapacityReservationID := att_CapacityReservationID attempt;
          sir_BudgetReservationID := att_BudgetReservationID attempt; sir_EventID := eventID; sir_Replayed := true |}.

(** The final admission: policy, ownership and usage are read again. *)
Definition finalAdmission (run : AgentRun) (profile : string) (now : Time) : Tx (option SchedulingPolicy) :=
  policy ← readSchedulingPolicy (run_TenantID run);
  statuses ← queryRow (fun db => ownershipStatus db (run_TenantID run) (run_ProjectID run));
  usage ← readSchedulingUsage (run_TenantID run) (run_CreatedBy run) now;
  decision ← lift (EvaluateEligibility
    {| ei_TenantStatus := statuses.1; ei_ProjectStatus := statuses.2;
       ei_Request := {| sr_Runtime := run_Runtime run; sr_ExecutionProfile := profile; sr_CreatedBy := run_CreatedBy run;
         sr_CPUMillis := run_CPUMillis run; sr_MemoryMiB := run_MemoryMiB run |};
       ei_Policy := policy; ei_Usage := usage; ei_Now := UTC now |});
  _ ← abortIf (ed_Outcome decision != EligibilityEligible)
      (EligibilityDeniedError (EligibilityCode_string (ed_Code decision)));
  mret policy.

Definition reservationRequestOf (run : AgentRun) (attempt : AgentRunAttempt) (clusterID : string)
    (request : SchedulingIntentRequest) : ReservationRequest :=
  {| rq_res_TenantID := run_TenantID run; rq_res_RunID := run_ID run; rq_res_AttemptID := att_ID attempt;
     rq_res_AttemptNumber := att_AttemptNumber attempt; rq_res_ClusterID := clusterID;
     rq_res_CPUMillis := run_CPUMillis run; rq_res_MemoryMiB := run_MemoryMiB run;
     rq_res_BudgetMinorUnits := si_BudgetMinorUnits request; rq_res_Now := si_Now request;
     rq_res_TTL := si_ReservationTTL request |}.

(** The reservation part of [Schedule]. *)
Definition reserveForRun (newCapacityID newBudgetID : res UUID) (run : AgentRun) (attempt : AgentRunAttempt)
    (policy : option SchedulingPolicy) (cluster : ExecutionCluster) (capacity : ClusterCapacity)
    (request : SchedulingIntentRequest) : Tx ReservationBundle :=
  let now := si_Now request in
  _ ← capacityCheck (ec_ID cluster) (cc_AllocatableCPUMillis capacity) (cc_AllocatableMemoryMiB capacity)
        (run_CPUMillis run) (run_MemoryMiB run) now;
  let usageDate := usageDateOf now in
  _ ← match policy with
      | None =>
          _ ← ensureUsageRow (run_TenantID run) usageDate now;
          lift (Err ErrBudgetUnavailable)
      | Some policy =>
          budgetCheck (run_TenantID run) (sp_DailyBudgetMinorUnits policy) (si_BudgetMinorUnits request) usageDate now
      end;
  bundle ← lift (newReservationBundle newCapacityID newBudgetID
                   (reservationRequestOf run attempt (ec_ID cluster) request) usageDate);
  _ ← insertReservationBundle bundle;
  _ ← updateUsageRow (run_TenantID run) usageDate (si_BudgetMinorUnits request) 0 now;
  mret bundle.

(** The columns [Schedule] sets on the attempt and on the run. *)
Definition assignedAttempt (clusterID profile : string) (bundle : ReservationBundle) (now : Time)
    (a : AgentRunAttempt) : AgentRunAttempt :=
  {| att_ID := att_ID a; att_TenantID := att_TenantID a; att_RunID := att_RunID a;
     att_AttemptNumber := att_AttemptNumber a; att_Status := AttemptStarting;
     att_FailureCategory := att_FailureCategory a; att_Version := att_Version a; att_SelectedCluster := clusterID;
     att_ExecutionProfile := profile; att_CapacityReservationID := cr_ID (rb_Capacity bundle);
     att_BudgetReservationID := br_ID (rb_Budget bundle); att_WorkloadReference := att_WorkloadReference a;
     att_CreatedAt := att_CreatedAt a; att_UpdatedAt := now; att_StartedAt := att_StartedAt a;
     att_CompletedAt := att_CompletedAt a |}.

Definition assignedRow (strategy : string) (score : Z) (now : Time) (row : RunRow) : RunRow :=
  {| rr_Run := (rr_Run row) <| run_Status := AgentRunProvisioning |> <| run_UpdatedAt := pgTime now |>;
     rr_Priority := rr_Priority row; rr_ExecutionProfile := rr_ExecutionProfile row;
     rr_PreferredRegion := rr_PreferredRegion row; rr_NextEligibleAt := None; rr_LeaseOwner := None;
     rr_LeaseExpiresAt := None; rr_DecisionCode := Some "SCHEDULED";
     rr_DecisionReason := Some "cluster selected and resources reserved"; rr_Strategy := Some strategy;
     rr_SelectionScore := Some score; rr_IdempotencyResponse := rr_IdempotencyResponse row;
     rr_LastCommand := rr_LastCommand row |}.

Definition scheduleNew (newCapacityID newBudgetID newEventID : res UUID) (locked : LockedRun)
    (request : SchedulingIntentRequest) : Tx SchedulingIntentResult :=
  let run := lr_Run locked in
  let now := UTC (si_Now request) in
  _ ← abortIf (leaseLost locked (si_LeaseOwner request) now (cl_Version (si_Claim request))
        || (lr_Profile locked != cl_ExecutionProfile (si_Claim request))) ErrVersionConflict;
  let desired := si_DesiredState request in
  _ ← abortIf ((ds_Runtime desired != run_Runtime run) || (ds_TaskReference desired != run_PromptReference run)
        || negb (ds_TimeoutSeconds desired =? run_TimeoutSeconds run)
        || negb (ds_MaxAttempts desired =? run_MaxAttempts run)) ErrConflict;
  attempt ← lockPendingAttempt run (si_AttemptID request) (si_AttemptVersion request);
  policy ← finalAdmission run (lr_Profile locked) now;
  placed ← lockEligibleCluster (run_TenantID run) (si_ClusterID request) (run_Runtime run) (lr_Profile locked) now
             (si_ClusterFreshness request);
  bundle ← reserveForRun newCapacityID newBudgetID run attempt policy placed.1 placed.2 request;
  let attempt := (assignedAttempt (ec_ID placed.1) (lr_Profile locked) bundle now attempt)
                   <| att_Version := add64 (att_Version attempt) 1 |> in
  _ ← updateAttemptRow (att_TenantID attempt) (att_ID attempt) (si_AttemptVersion request)
        (assignedAttempt (ec_ID placed.1) (lr_Profile locked) bundle (pgTime now));
  let run := run <| run_Status := AgentRunProvisioning |> <| run_Version := add64 (run_Version run) 1 |>
                 <| run_UpdatedAt := now |> in
  count ← updateRunRow (run_TenantID run) (run_ID run) (cl_Version (si_Claim request))
            (assignedRow (si_Strategy request) (si_SelectionScore request) now);
  _ ← abortIf (negb (count =? 1)) ErrVersionConflict;
  event ← lift (NewAgentRunScheduled newEventID run attempt (cr_ID (rb_Capacity bundle)) (br_ID (rb_Budget bundle))
                  (si_CorrelationID request) (si_CausationID request));
  _ ← insertOutboxEvent event;
  _ ← insertHandoffIntent (env_EventID (oe_Envelope event)) run attempt desired;
  mret {| sir_RunVersion := run_Version run; sir_AttemptVersion := att_Version attempt;
          sir_CapacityReservationID := cr_ID (rb_Capacity bundle);
          sir_BudgetReservationID := br_ID (rb_Budget bundle);
          sir_EventID := env_EventID (oe_Envelope event); sir_Replayed := false |}.

Definition scheduleTx (newCapacityID newBudgetID newEventID : res UUID) (request : SchedulingIntentRequest)
    : Tx SchedulingIntentResult :=
  locked ← lockSchedulingRun (cl_TenantID (si_Claim request)) (cl_ID (si_Claim request));
  if run_Status (lr_Run locked) == AgentRunProvisioning
  then replaySchedulingIntent (lr_Run locked) request
  else scheduleNew newCapacityID newBudgetID newEventID locked request.

Definition Schedule (newCapacityID newBudgetID newEventID : res UUID) (request : SchedulingIntentRequest) (db : DB)
    : res SchedulingIntentResult * DB :=
  match validateSchedulingIntent request with
  | Err e => (Err e, db)
  | Ok _ => transact (scheduleTx newCapacityID newBudgetID newEventID request) db
  end.

(** ** DeferCapacity *)

Definition waitingRow (request : CapacityWaitRequest) (row : RunRow) : RunRow :=
  {| rr_Run := (rr_Run row) <| run_Status := AgentRunCapacityWait |> <| run_UpdatedAt := pgTime (cwr_Now request) |>;
     rr_Priority := rr_Priority row; rr_ExecutionProfile := rr_ExecutionProfile row;
     rr_PreferredRegion := rr_PreferredRegion row; rr_NextEligibleAt := Some (pgTime (cwr_NextEligibleAt request));
     rr_LeaseOwner := None; rr_LeaseExpiresAt := None; rr_DecisionCode := Some (cwr_ReasonCode request);
     rr_DecisionReason := Some (cwr_Reason request); rr_Strategy := rr_Strategy row;
     rr_SelectionScore := rr_SelectionScore row; rr_IdempotencyResponse := rr_IdempotencyResponse row;
     rr_LastCommand := rr_LastCommand row |}.

(** The answer to a repetition; [next] is the stored instant, the request's is
    compared at full precision. *)
Definition replayWait (run : AgentRun) (request : CapacityWaitRequest) : Tx SchedulingIntentResult :=
  stored ← queryRow (fun db =>
    row ← tenantRow db (run_TenantID run) (run_ID run);
    code ← rr_DecisionCode row;
    reason ← rr_DecisionReason row;
    next ← rr_NextEligibleAt row;
    Some (code, reason, next));
  let '(code, reason, next) := stored in
  if (run_Version run =? add64 (cl_Version (cwr_Claim request)) 1) && (code == cwr_ReasonCode request)
     && (reason == cwr_Reason request) && (next =? cwr_NextEligibleAt request)
  then
    eventID ← queryRow (fun db => eventOf db (run_TenantID run) (run_ID run) AgentRunCapacityWaitType (run_Version run));
    mret {| sir_RunVersion := run_Version run; sir_AttemptVersion := 0; sir_CapacityReservationID := uuidNil;
            sir_BudgetReservationID := uuidNil; sir_EventID := eventID; sir_Replayed := true |}
  else lift (Err ErrVersionConflict).

Definition deferTx (newEventID : res UUID) (request : CapacityWaitRequest) : Tx SchedulingIntentResult :=
  locked ← lockSchedulingRun (cl_TenantID (cwr_Claim request)) (cl_ID (cwr_Claim request));
  let run := lr_Run locked in
  if run_Status run == AgentRunCapacityWait then replayWait run request else
  _ ← abortIf (leaseLost locked (cwr_LeaseOwner request) (cwr_Now request) (cl_Version (cwr_Claim request)))
      ErrVersionConflict;
  let run := run <| run_Status := AgentRunCapacityWait |> <| run_Version := add64 (run_Version run) 1 |>
                 <| run_UpdatedAt := UTC (cwr_Now request) |> in
  count ← updateRunRow (run_TenantID run) (run_ID run) (cl_Version (cwr_Claim request)) (waitingRow request);
  _ ← abortIf (negb (count =? 1)) ErrVersionConflict;
  event ← lift (NewAgentRunCapacityWait newEventID run (cwr_ReasonCode request) (cwr_Reason request)
                  (cwr_NextEligibleAt request) (cwr_CorrelationID request) (cwr_CausationID request));
  _ ← insertOutboxEvent event;
  mret {| sir_RunVersion := run_Version run; sir_AttemptVersion := 0; sir_CapacityReservationID := uuidNil;
          sir_BudgetReservationID := uuidNil; sir_EventID := env_EventID (oe_Envelope event); sir_Replayed := false |}.

Definition DeferCapacity (newEventID : res UUID) (request : CapacityWaitRequest) (db : DB)
    : res SchedulingIntentResult * DB :=
  if (cl_TenantID (cwr_Claim request) == uuidNil) || (cl_ID (cwr_Claim request) == uuidNil)
     || blank (cwr_LeaseOwner request) || (cl_Version (cwr_Claim request) <? 1) || IsZero (cwr_Now request)
     || negb (After (cwr_NextEligibleAt request) (cwr_Now request)) || blank (cwr_ReasonCode request)
     || (80 <? len (cwr_ReasonCode request)) || blank (cwr_Reason request) || (500 <? len (cwr_Reason request))
     || blank (cwr_CorrelationID request) || blank (cwr_CausationID request)
  then (Err (ErrPlain "capacity-wait request is invalid"), db)
  else transact (deferTx newEventID request) db.

(** ** Reject *)

Definition rejectedRow (request : SchedulingRejectRequest) (row : RunRow) : RunRow :=
  {| rr_Run := (rr_Run row) <| run_Status := AgentRunPolicyRejected |> <| run_FailureCategory := FailurePolicy |>
       <| run_CompletedAt := Some (pgTime (srj_Now request)) |> <| run_UpdatedAt := pgTime (srj_Now request) |>;
     rr_Priority := rr_Priority row; rr_ExecutionProfile := rr_ExecutionProfile row;
     rr_PreferredRegion := rr_PreferredRegion row; rr_NextEligibleAt := None; rr_LeaseOwner := None;
     rr_LeaseExpiresAt := None; rr_DecisionCode := Some (srj_ReasonCode request);
     rr_DecisionReason := Some (srj_Reason request); rr_Strategy := rr_Strategy row;
     rr_SelectionScore := rr_SelectionScore row; rr_IdempotencyResponse := rr_IdempotencyResponse row;
     rr_LastCommand := rr_LastCommand row |}.

Definition replayReject (run : AgentRun) (request : SchedulingRejectRequest) : Tx SchedulingIntentResult :=
  stored ← queryRow (fun db =>
    row ← tenantRow db (run_TenantID run) (run_ID run);
    code ← rr_DecisionCode row;
    reason ← rr_DecisionReason row;
    Some (code, reason));
  let '(code, reason) := stored in
  _ ← abortIf (negb (run_Version run =? add64 (cl_Version (srj_Claim request)) 1) || (code != srj_ReasonCode request)
        || (reason != srj_Reason request)) ErrConflict;
  eventID ← queryRow (fun db => eventOf db (run_TenantID run) (run_ID run) AgentRunFailedType (run_Version run));
  attempt ← queryRow (fun db =>
    attempt ← currentAttempt db run;
    if att_Status attempt == AttemptCancelled then Some attempt else None);
  mret {| sir_RunVersion := run_Version run; sir_AttemptVersion := att_Version attempt;
          sir_CapacityReservationID := uuidNil; sir_BudgetReservationID := uuidNil; sir_EventID := eventID;
          sir_Replayed := true |}.

Definition cancelledAttempt (now : Time) (a : AgentRunAttempt) : AgentRunAttempt :=
  a <| att_Status := AttemptCancelled |> <| att_UpdatedAt := pgTime now |> <| att_CompletedAt := Some (pgTime now) |>.

Definition rejectTx (newEventID : res UUID) (request : SchedulingRejectRequest) : Tx SchedulingIntentResult :=
  let claim := srj_Claim request in
  locked ← lockSchedulingRun (cl_TenantID claim) (cl_ID claim);
  let run := lr_Run locked in
  if run_Status run == AgentRunPolicyRejected then replayReject run request else
  _ ← abortIf (leaseLost locked (srj_LeaseOwner request) (srj_Now request) (cl_Version claim)) ErrVersionConflict;
  attempt ← lockPendingAttempt run (cl_AttemptID claim) (cl_AttemptVersion claim);
  count ← updateAttemptRow (att_TenantID attempt) (att_ID attempt) (att_Version attempt)
            (cancelledAttempt (srj_Now request));
  _ ← abortIf (negb (count =? 1)) ErrVersionConflict;
  let now := UTC (srj_Now request) in
  let run := run <| run_Status := AgentRunPolicyRejected |> <| run_FailureCategory := FailurePolicy |>
                 <| run_Version := add64 (run_Version run) 1 |> <| run_UpdatedAt := now |>
                 <| run_CompletedAt := Some now |> in
  count ← updateRunRow (run_TenantID run) (run_ID run) (cl_Version claim) (rejectedRow request);
  _ ← abortIf (negb (count =? 1)) ErrVersionConflict;
  event ← lift (NewAgentRunSchedulingRejected newEventID run (srj_ReasonCode request) (srj_Reason request)
                  (srj_CorrelationID request) (srj_CausationID request));
  _ ← insertOutboxEvent event;
  mret {| sir_RunVersion := run_Version run; sir_AttemptVersion := add64 (att_Version attempt) 1;
          sir_CapacityReservationID := uuidNil; sir_BudgetReservationID := uuidNil;
          sir_EventID := env_EventID (oe_Envelope event); sir_Replayed := false |}.

Definition Reject (newEventID : res UUID) (request : SchedulingRejectRequest) (db : DB)
    : res SchedulingIntentResult * DB :=
  let claim := srj_Claim request in
  if (cl_TenantID claim == uuidNil) || (cl_ID claim == uuidNil) || (cl_Version claim <? 1)
     || blank (srj_LeaseOwner request) || IsZero (srj_Now request) || blank (srj_ReasonCode request)
     || (80 <? len (srj_ReasonCode request)) || blank (srj_Reason request) || (500 <? len (srj_Reason request))
     || blank (srj_CorrelationID request) || blank (srj_CausationID request)
  then (Err (ErrPlain "scheduling rejection request is invalid"), db)
  else transact (rejectTx newEventID request) db.
End Intents.

(** ** What the reads establish *)

Section Reads.
Context `{UUIDs} `{NetURL}.

Lemma lockSchedulingRun_spec tenantID runID db locked db' :
  lockSchedulingRun tenantID runID db = Ok (locked, db') ->
  db' = db /\ exists row, db_runs db !! runID = Some row /\ run_TenantID (rr_Run row) = tenantID /\
    locked = {| lr_Run := scannedRun (rr_Run row); lr_Owner := default EmptyString (rr_LeaseOwner row);
                lr_Expiry := rr_LeaseExpiresAt row; lr_Profile := rr_ExecutionProfile row |}.
Proof.
  unfold lockSchedulingRun, tenantRow. intros Hl. tx_inv. split; [done|].
  destruct (db_runs db !! runID) as [row|]; [|done]. destruct (_ =? tenantID) eqn:Ht; [|done].
  exists row. apply Z.eqb_eq in Ht. split_and!; try done. congruence.
Qed.

Lemma leaseLost_false locked owner now version :
  leaseLost locked owner now version = false ->
  run_Status (lr_Run locked) = AgentRunScheduling /\ lr_Owner locked = owner /\ run_Version (lr_Run locked) = version /\
  exists expiry, lr_Expiry locked = Some expiry /\ now < expiry.
Proof.
  unfold leaseLost. rewrite !orb_false_iff, !negb_false_iff, !bool_decide_eq_true, Z.eqb_eq.
  intros [[[Hs Ho] He] Hv]. split_and!; try done. destruct (lr_Expiry locked) as [expiry|]; [|done].
  exists expiry. split; [done|]. unfold After, UTC in He. apply negb_false_iff in He. lia.
Qed.

Lemma lockPendingAttempt_spec run attemptID version db attempt db' :
  lockPendingAttempt run attemptID version db = Ok (attempt, db') ->
  db' = db /\ exists a, db_attempts db !! attemptID = Some a /\ att_TenantID a = run_TenantID run /\
    att_RunID a = run_ID run /\ att_AttemptNumber a = run_AttemptCount run /\ att_Status a = AttemptPending /\
    att_Version a = version /\ att_ID attempt = att_ID a /\ att_TenantID attempt = att_TenantID a /\
    att_RunID attempt = att_RunID a /\ att_AttemptNumber attempt = att_AttemptNumber a /\
    att_Version attempt = version.
Proof.
  unfold lockPendingAttempt. intros Hl.
  apply tx_bind_ok in Hl as (a & ? & [Ha ->]%queryRow_ok & Hl). tx_inv. split; [done|].
  destruct (db_attempts db !! attemptID) as [a'|]; [|done]. destruct (_ && _ && _) eqn:Hm; [|done].
  injection Ha as ->. reflect_bools. rewrite !Z.eqb_eq in *. simpl in *. exists a. split_and!; done.
Qed.

Lemma readSchedulingUsage_kept tenantID createdBy now db usage db' :
  readSchedulingUsage tenantID createdBy now db = Ok (usage, db') -> db' = db.
Proof.
  unfold readSchedulingUsage. intros Hr. apply tx_bind_ok in Hr as (? & ? & [-> ->]%query_ok & Hr).
  apply tx_bind_ok in Hr as (? & ? & [_ ->]%lift_tx_ok & Hr). apply tx_bind_ok in Hr as (? & ? & [_ ->]%lift_tx_ok & Hr).
  apply tx_bind_ok in Hr as (used & db1 & Hu & Hr). tx_inv. destruct (db_usage (id db) !! _); tx_inv; done.
Qed.

Lemma finalAdmission_spec run profile now db policy db' :
  finalAdmission run profile now db = Ok (policy, db') ->
  db' = db /\ policy = policyOf <$> db_policies db !! run_TenantID run /\
  exists statuses usage decision,
    ownershipStatus db (run_TenantID run) (run_ProjectID run) = Some statuses /\
    readSchedulingUsage (run_TenantID run) (run_CreatedBy run) now db = Ok (usage, db) /\
    EvaluateEligibility
      {| ei_TenantStatus := statuses.1; ei_ProjectStatus := statuses.2;
         ei_Request := {| sr_Runtime := run_Runtime run; sr_ExecutionProfile := profile; sr_CreatedBy := run_CreatedBy run;
           sr_CPUMillis := run_CPUMillis run; sr_MemoryMiB := run_MemoryMiB run |};
         ei_Policy := policy; ei_Usage := usage; ei_Now := now |} = Ok decision /\
    ed_Outcome decision = EligibilityEligible.
Proof.
  unfold finalAdmission. intros Hf.
  apply tx_bind_ok in Hf as (p & db1 & Hp & Hf). unfold readSchedulingPolicy in Hp. apply query_ok in Hp as [-> ->].
  apply tx_bind_ok in Hf as (statuses & ? & [Hs ->]%queryRow_ok & Hf).
  apply tx_bind_ok in Hf as (usage & db1 & Hu & Hf). pose proof (readSchedulingUsage_kept _ _ _ _ _ _ Hu) as ->.
  apply tx_bind_ok in Hf as (decision & ? & [Hd ->]%lift_tx_ok & Hf). tx_inv. reflect_bools.
  split; [done|]. split; [done|]. exists statuses, usage, decision. done.
Qed.

Lemma lockEligibleCluster_spec tenantID clusterID runtime profile now freshness db placed db' :
  lockEligibleCluster tenantID clusterID runtime profile now freshness db = Ok (placed, db') ->
  db' = db /\ db_clusters db !! clusterID = Some placed.1 /\ latestSnapshot db clusterID = Some placed.2 /\
  placeable db placed.1 placed.2 tenantID runtime profile now freshness = true.
Proof.
  unfold lockEligibleCluster. intros Hl. apply tx_bind_ok in Hl as (? & ? & [-> ->]%query_ok & Hl). unfold id in Hl.
  destruct (db_clusters db !! clusterID) as [cluster|] eqn:Hc; [|done].
  destruct (latestSnapshot db clusterID) as [capacity|] eqn:Hs; [|done]. tx_inv. reflect_bools. simpl. done.
Qed.

Lemma insertHandoffIntent_spec eventID run attempt desired db u db' :
  insertHandoffIntent eventID run attempt desired db = Ok (u, db') ->
  db_handoff db !! eventID = None /\
  (forall id h, db_handoff db !! id = Some h -> ho_TenantID h = run_TenantID run -> ho_RunID h = run_ID run ->
     ho_AttemptNumber h = att_AttemptNumber attempt -> False) /\
  db' = db <| db_handoff := <[eventID :=
    {| ho_EventID := eventID; ho_TenantID := run_TenantID run; ho_RunID := run_ID run; ho_AttemptID := att_ID attempt;
       ho_AttemptNumber := att_AttemptNumber attempt; ho_ClusterID := att_SelectedCluster attempt;
       ho_DesiredState := desired; ho_CreatedAt := pgTime (run_UpdatedAt run) |}]> (db_handoff db) |>.
Proof.
  intros Hi. unfold insertHandoffIntent in Hi. tx_inv. simpl in *.
  match goal with Hn : (bool_decide (is_Some _) || bool_decide (map_Exists _ _)) = false |- _ =>
    apply orb_false_iff in Hn as [Hnone%bool_decide_eq_false Hex] end.
  rewrite <-eq_None_not_Some in Hnone. pose proof (map_Exists_false _ _ Hex) as Hex'. split_and!; try done.
  intros id h Hh ? ? ?. by apply (Hex' id h Hh).
Qed.
End Reads.

(** ** What the decisions do *)

Lemma reservation_inv_ext db db' :
  db_capacity db' = db_capacity db -> db_budget db' = db_budget db -> db_usage db' = db_usage db ->
  reservation_inv db -> reservation_inv db'.
Proof. intros Hc Hb Hu []. split; unfold totalIn in *; rewrite ?Hc, ?Hb, ?Hu; eauto. Qed.

(** The tables a scheduling decision never writes. *)
Definition registry_kept (db db' : DB) : Prop :=
  db_tenants db' = db_tenants db /\ db_projects db' = db_projects db /\ db_policies db' = db_policies db /\
  db_clusters db' = db_clusters db /\ db_snapshots db' = db_snapshots db /\ db_allowlist db' = db_allowlist db /\
  db_eligibility db' = db_eligibility db.

(** One event is appended to the outbox. *)
Definition publishes (event : OutboxEvent) (db db' : DB) : Prop :=
  db_outbox db !! env_EventID (oe_Envelope event) = None /\
  db_outbox db' = <[env_EventID (oe_Envelope event) := pendingRow event]> (db_outbox db).

(** The claim is still good: the run is leased to the caller at the claimed version. *)
Definition holds_lease (db : DB) (claim : ClaimedRun) (owner : string) (now : Time) (row : RunRow) : Prop :=
  db_runs db !! cl_ID claim = Some row /\ run_TenantID (rr_Run row) = cl_TenantID claim /\
  run_Status (rr_Run row) = AgentRunScheduling /\ default EmptyString (rr_LeaseOwner row) = owner /\
  run_Version (rr_Run row) = cl_Version claim /\
  exists expiry, rr_LeaseExpiresAt row = Some expiry /\ now < expiry.

Section Decisions.
Context `{UUIDs} `{NetURL}.

Lemma reserveForRun_spec idc idb run attempt policy cluster capacity request db bundle db' :
  let now := si_Now request in
  reservation_inv db -> (forall p, policy = Some p -> 0 <= sp_DailyBudgetMinorUnits p < 2 ^ 63) ->
  0 <= cc_AllocatableCPUMillis capacity < 2 ^ 63 -> 0 <= cc_AllocatableMemoryMiB capacity < 2 ^ 63 ->
  0 <= si_BudgetMinorUnits request ->
  reserveForRun idc idb run attempt policy cluster capacity request db = Ok (bundle, db') ->
  opens bundle now db db' /\ reservation_inv db' /\ fresh_bundle bundle /\
  newReservationBundle idc idb (reservationRequestOf run attempt (ec_ID cluster) request) (usageDateOf now) = Ok bundle /\
  reservedCPU db (ec_ID cluster) now + run_CPUMillis run <= cc_AllocatableCPUMillis capacity /\
  reservedMemory db (ec_ID cluster) now + run_MemoryMiB run <= cc_AllocatableMemoryMiB capacity /\
  exists p, policy = Some p /\
    bu_Spent (usageOrZero db (run_TenantID run) (usageDateOf now))
      + bu_Reserved (usageOrZero db (run_TenantID run) (usageDateOf now)) + si_BudgetMinorUnits request
      <= sp_DailyBudgetMinorUnits p.
Proof.
  intros now Hinv Hpol Hc Hm Ha Hr. unfold reserveForRun in Hr.
  apply tx_bind_ok in Hr as ([] & ? & (-> & Hcpu & Hmem)%capacityCheck_ok & Hr); try done.
  destruct policy as [p|]; cycle 1.
  { apply tx_bind_ok in Hr as (? & ? & Hr & _). apply tx_bind_ok in Hr as (? & ? & _ & Hr). done. }
  apply tx_bind_ok in Hr as ([] & db1 & Hb & Hr). apply tx_bind_ok in Hr as (bundle' & ? & [Hn ->]%lift_tx_ok & Hr).
  apply tx_bind_ok in Hr as ([] & db2 & Hins & Hr). apply tx_bind_ok in Hr as ([] & db3 & Hup & Hr). tx_inv.
  pose proof (newReservationBundle_ok _ _ (reservationRequestOf run attempt (ec_ID cluster) request) _ _ Ha Hn)
    as (Hf & Ht & Hd & Ham & _). simpl in Ht, Ham.
  destruct (opens_spec bundle' (sp_DailyBudgetMinorUnits p) now db db1 db2 db3 tt tt tt) as [Ho Hbal];
    [apply Hf|by rewrite Ht, Hd, Ham|done|by rewrite Ht, Hd, Ham|].
  rewrite Ht, Hd, Ham in Hbal. pose proof (usage_ranges db (run_TenantID run) (usageDateOf now) Hinv).
  pose proof (Hpol p eq_refl). fold now in Hbal.
  rewrite !sub64_small in Hbal by (rewrite ?sub64_small; unfold in_int64; lia).
  split_and!; try done; [|exists p; split; [done|lia]].
  eapply opens_inv; try done. simpl. rewrite Ht, Hd, Ham. fold now. lia.
Qed.

(** The outcome of a scheduling transaction that assigned a cluster. *)
Definition assigns (idc idb : res UUID) (request : SchedulingIntentRequest) (result : SchedulingIntentResult)
    (db db' : DB) : Prop :=
  let claim := si_Claim request in let now := si_Now request in
  exists row a cluster bundle event,
    holds_lease db claim (si_LeaseOwner request) now row /\
    rr_ExecutionProfile row = cl_ExecutionProfile claim /\
    db_attempts db !! si_AttemptID request = Some a /\ att_RunID a = run_ID (rr_Run row) /\
    att_TenantID a = run_TenantID (rr_Run row) /\
    att_AttemptNumber a = run_AttemptCount (rr_Run row) /\ att_Status a = AttemptPending /\
    att_Version a = si_AttemptVersion request /\
    db_clusters db !! si_ClusterID request = Some cluster /\
    (exists capacity policy,
       latestSnapshot db (si_ClusterID request) = Some capacity /\
       placeable db cluster capacity (cl_TenantID claim) (run_Runtime (rr_Run row)) (rr_ExecutionProfile row) now
         (si_ClusterFreshness request) = true /\
       db_policies db !! cl_TenantID claim = Some policy /\
       reservedCPU db (ec_ID cluster) now + run_CPUMillis (rr_Run row) <= cc_AllocatableCPUMillis capacity /\
       reservedMemory db (ec_ID cluster) now + run_MemoryMiB (rr_Run row) <= cc_AllocatableMemoryMiB capacity /\
       bu_Spent (usageOrZero db (cl_TenantID claim) (usageDateOf now))
         + bu_Reserved (usageOrZero db (cl_TenantID claim) (usageDateOf now)) + si_BudgetMinorUnits request
         <= pr_DailyBudgetMinorUnits policy) /\
    newReservationBundle idc idb
      (reservationRequestOf (scannedRun (rr_Run row)) a (ec_ID cluster) request) (usageDateOf now) = Ok bundle /\
    (exists dbr, opens bundle now db dbr /\ db_capacity db' = db_capacity dbr /\ db_budget db' = db_budget dbr /\
       db_usage db' = db_usage dbr) /\
    db_runs db' = <[cl_ID claim := bumped (assignedRow (si_Strategy request) (si_SelectionScore request) now) row]>
      (db_runs db) /\
    db_attempts db' = <[si_AttemptID request :=
      bumpedAttempt (assignedAttempt (ec_ID cluster) (rr_ExecutionProfile row) bundle (pgTime now)) a]> (db_attempts db) /\
    publishes event db db' /\ event_contract event /\
    env_EventType (oe_Envelope event) = AgentRunScheduledType /\
    env_RunID (oe_Envelope event) = Some (run_ID (rr_Run row)) /\
    env_TenantID (oe_Envelope event) = cl_TenantID claim /\
    env_AggregateVersion (oe_Envelope event) = cl_Version claim + 1 /\
    db_handoff db !! env_EventID (oe_Envelope event) = None /\
    db_handoff db' = <[env_EventID (oe_Envelope event) :=
      {| ho_EventID := env_EventID (oe_Envelope event); ho_TenantID := cl_TenantID claim;
         ho_RunID := run_ID (rr_Run row); ho_AttemptID := att_ID a; ho_AttemptNumber := att_AttemptNumber a;
         ho_ClusterID := ec_ID cluster; ho_DesiredState := si_DesiredState request; ho_CreatedAt := pgTime now |}]>
      (db_handoff db) /\
    registry_kept db db' /\
    result = {| sir_RunVersion := cl_Version claim + 1; sir_AttemptVersion := si_AttemptVersion request + 1;
                sir_CapacityReservationID := cr_ID (rb_Capacity bundle);
                sir_BudgetReservationID := br_ID (rb_Budget bundle);
                sir_EventID := env_EventID (oe_Envelope event); sir_Replayed := false |}.

Lemma valid_intent_amount request :
  validateSchedulingIntent request = Ok tt -> 0 <= si_BudgetMinorUnits request.
Proof.
  unfold validateSchedulingIntent. intros Hv. apply bind_ok in Hv as ([] & Hg%failIf_ok & _). reflect_bools. lia.
Qed.

(** The identity a reservation takes from the attempt. *)
Lemma reservationRequestOf_attempt run a a' clusterID request :
  att_ID a = att_ID a' -> att_AttemptNumber a = att_AttemptNumber a' ->
  reservationRequestOf run a clusterID request = reservationRequestOf run a' clusterID request.
Proof. unfold reservationRequestOf. by intros -> ->. Qed.

Lemma add64_next v : in_int64 (v + 1) -> add64 v 1 = v + 1.
Proof. intros. by apply add64_small. Qed.

Lemma scheduleNew_spec idc idb ide row request db result db' :
  reservation_inv db -> store_limits db -> validateSchedulingIntent request = Ok tt ->
  db_runs db !! cl_ID (si_Claim request) = Some row -> run_TenantID (rr_Run row) = cl_TenantID (si_Claim request) ->
  run_ID (rr_Run row) = cl_ID (si_Claim request) ->
  (forall id a, db_attempts db !! id = Some a -> att_ID a = id) ->
  scheduleNew idc idb ide
    {| lr_Run := scannedRun (rr_Run row); lr_Owner := default EmptyString (rr_LeaseOwner row);
       lr_Expiry := rr_LeaseExpiresAt row; lr_Profile := rr_ExecutionProfile row |} request db = Ok (result, db') ->
  assigns idc idb request result db db' /\ reservation_inv db' /\ store_limits db'.
Proof.
  intros Hinv Hlim Hval Hrow Hten Hid Hakey Hs. unfold scheduleNew in Hs. cbn [lr_Run lr_Owner lr_Expiry lr_Profile] in Hs.
  apply tx_bind_ok in Hs as ([] & ? & [Hg ->]%abortIf_ok & Hs). apply orb_false_iff in Hg as [Hlease Hprof].
  apply negb_false_iff, bool_decide_eq_true in Hprof.
  apply leaseLost_false in Hlease as (Hst & Hown & Hver & expiry & Hexp & Hlt). simpl in Hst, Hown, Hver, Hexp.
  apply tx_bind_ok in Hs as ([] & ? & [_ ->]%abortIf_ok & Hs).
  apply tx_bind_ok in Hs as (attempt & ? & (-> & a & Ha & Hat & Har & Han & Has & Hav & E1 & E2 & E3 & E4 & E5)
    %lockPendingAttempt_spec & Hs). simpl in Hat, Har, Han.
  apply tx_bind_ok in Hs as (policy & ? & (-> & Hpol & _)%finalAdmission_spec & Hs). simpl in Hpol.
  apply tx_bind_ok in Hs as (placed & ? & (-> & Hcl & Hsn & Hpl)%lockEligibleCluster_spec & Hs).
  destruct (latestSnapshot_stored _ _ _ Hsn) as [k Hk]. destruct (sl_snapshot _ Hlim _ _ Hk) as [Hsc Hsm].
  assert (Hplim : forall p, policy = Some p -> 0 <= sp_DailyBudgetMinorUnits p < 2 ^ 63).
  { intros p ->. destruct (db_policies db !! _) as [pr|] eqn:Hpr; [|done]. injection Hpol as ->.
    by apply (sl_policy _ Hlim _ _ Hpr). }
  apply tx_bind_ok in Hs as (bundle & dbr & Hres & Hs).
  apply reserveForRun_spec in Hres as (Ho & Hinvr & Hf & Hn & Hcpu & Hmem & p & Hp & Hbal); try done;
    [|by apply valid_intent_amount].
  pose proof (op_kept _ _ _ _ Ho) as (K1 & K2 & K3 & K4 & K5 & K6 & K7 & K8 & K9 & K10 & K11).
  apply tx_bind_ok in Hs as (n1 & db1 & Hua & Hs). simpl in Hua. rewrite E1, E2, (Hakey _ _ Ha) in Hua.
  apply (updateAttemptRow_hit _ _ _ _ _ _ _ a) in Hua as (-> & _ & Hai & ->); [|by rewrite K4|done|done].
  apply tx_bind_ok in Hs as (n2 & db2 & Hur & Hs). simpl in Hur.
  rewrite Hid in Hur. apply (updateRunRow_hit _ _ _ _ _ _ _ row) in Hur as (-> & _ & Hvi & ->); [|simpl; by rewrite K3|done|done].
  apply tx_bind_ok in Hs as ([] & ? & [_ ->]%abortIf_ok & Hs).
  apply tx_bind_ok in Hs as (event & ? & [Hev ->]%lift_tx_ok & Hs). simpl in Hev.
  apply tx_bind_ok in Hs as ([] & db3 & (Hon & ->)%insertOutboxEvent_spec & Hs). simpl in Hon.
  apply tx_bind_ok in Hs as ([] & db4 & (Hhn & _ & ->)%insertHandoffIntent_spec & Hs). simpl in Hhn. tx_inv.
  pose proof Hev as (_ & _ & _ & Hty & _ & _ & _ & Het & Her & Hea & _)%newEvent_ok. simpl in Het, Her, Hea.
  apply lifecycle_event_contract in Hev; [|done].
  rewrite E5, Hver, !add64_next in * by done. split; [|split].
  - exists row, a, placed.1, bundle, event. simpl in Hcpu, Hmem, Hbal, Hpl. rewrite Hten, Hpol in *.
    destruct (db_policies db !! _) as [pr|] eqn:Hpr; [|done]. simpl in Hp. injection Hp as <-.
    split_and!; try done; unfold UTC in *.
    + split_and!; try done. by exists expiry.
    + exists placed.2, pr. by split_and!.
    + rewrite <-Hn. f_equal. by apply reservationRequestOf_attempt.
    + by exists dbr.
    + simpl. by rewrite K3.
    + simpl. by rewrite K4.
    + split; simpl; [by rewrite <-K9|by rewrite K9].
    + by rewrite <-K10.
    + simpl. by rewrite K10, E1, E4, Hten.
    + simpl. by rewrite Hver, !add64_next by done.
  - by eapply (reservation_inv_ext dbr).
  - destruct Hlim. split; simpl; rewrite ?K5, ?K7; done.
Qed.

(** The repetition paths only read. *)
Lemma replaySchedulingIntent_kept run request db result db' :
  replaySchedulingIntent run request db = Ok (result, db') -> db' = db /\ sir_Replayed result = true.
Proof.
  unfold replaySchedulingIntent. intros Hr. apply tx_bind_ok in Hr as ([[a c] b] & ? & [_ ->]%queryRow_ok & Hr).
  apply tx_bind_ok in Hr as ([s sc] & ? & [_ ->]%queryRow_ok & Hr). tx_inv. done.
Qed.

Lemma replayWait_kept run request db result db' :
  replayWait run request db = Ok (result, db') -> db' = db /\ sir_Replayed result = true.
Proof.
  unfold replayWait. intros Hr. apply tx_bind_ok in Hr as ([[c r] n] & ? & [_ ->]%queryRow_ok & Hr).
  case_match; [|done]. tx_inv. done.
Qed.

Lemma replayReject_kept run request db result db' :
  replayReject run request db = Ok (result, db') -> db' = db /\ sir_Replayed result = true.
Proof.
  unfold replayReject. intros Hr. apply tx_bind_ok in Hr as ([c r] & ? & [_ ->]%queryRow_ok & Hr).
  tx_inv. done.
Qed.

(** The event a decision appends, for the run at its next version. *)
Definition announces (eventType : string) (claim : ClaimedRun) (event : OutboxEvent) : Prop :=
  event_contract event /\ env_EventType (oe_Envelope event) = eventType /\
  env_RunID (oe_Envelope event) = Some (cl_ID claim) /\ env_TenantID (oe_Envelope event) = cl_TenantID claim /\
  env_AggregateVersion (oe_Envelope event) = cl_Version claim + 1.

Lemma deferTx_spec ide request db result db' :
  let claim := cwr_Claim request in
  runs_keyed db -> deferTx ide request db = Ok (result, db') ->
  (sir_Replayed result = true /\ db' = db) \/
  (sir_Replayed result = false /\ exists row event,
     holds_lease db claim (cwr_LeaseOwner request) (cwr_Now request) row /\
     announces AgentRunCapacityWaitType claim event /\ db_outbox db !! env_EventID (oe_Envelope event) = None /\
     in_int64 (cl_Version claim + 1) /\
     result = {| sir_RunVersion := cl_Version claim + 1; sir_AttemptVersion := 0; sir_CapacityReservationID := uuidNil;
       sir_BudgetReservationID := uuidNil; sir_EventID := env_EventID (oe_Envelope event); sir_Replayed := false |} /\
     db' = db <| db_runs := <[cl_ID claim := bumped (waitingRow request) row]> (db_runs db) |>
              <| db_outbox := <[env_EventID (oe_Envelope event) := pendingRow event]> (db_outbox db) |>).
Proof.
  intros claim Hkey Hd. unfold deferTx in Hd.
  apply tx_bind_ok in Hd as (locked & ? & (-> & row & Hrow & Hten & ->)%lockSchedulingRun_spec & Hd).
  cbn [lr_Run] in Hd. case_bool_decide as Hst. { apply replayWait_kept in Hd as [-> ?]. by left. }
  right. pose proof (Hkey _ _ Hrow) as Hid. fold claim in Hrow, Hten, Hd, Hid.
  apply tx_bind_ok in Hd as ([] & ? & [Hl ->]%abortIf_ok & Hd).
  apply leaseLost_false in Hl as (Hs & Hown & Hver & expiry & Hexp & Hlt). simpl in Hs, Hown, Hver, Hexp.
  apply tx_bind_ok in Hd as (n & db1 & Hu & Hd). simpl in Hu. rewrite Hid in Hu.
  apply (updateRunRow_hit _ _ _ _ _ _ _ row) in Hu as (-> & _ & Hvi & ->); try done.
  apply tx_bind_ok in Hd as ([] & ? & [_ ->]%abortIf_ok & Hd).
  apply tx_bind_ok in Hd as (event & ? & [Hev ->]%lift_tx_ok & Hd). simpl in Hev.
  apply tx_bind_ok in Hd as ([] & db3 & (Hon & ->)%insertOutboxEvent_spec & Hd). simpl in Hon. tx_inv.
  pose proof Hev as (_ & _ & _ & Hty & _ & _ & _ & Het & Her & Hea & _)%newEvent_ok. simpl in Het, Her, Hea.
  apply lifecycle_event_contract in Hev; [|done].
  rewrite Hver, add64_next in Hea by done. split; [done|]. exists row, event. simpl.
  rewrite Hver, add64_next by done. unfold announces, holds_lease. rewrite <-Hid, <-Hten.
  split_and!; try done; rewrite ?Hid; try done. by exists expiry.
Qed.

Lemma rejectTx_spec ide request db result db' :
  let claim := srj_Claim request in
  runs_keyed db -> (forall id a, db_attempts db !! id = Some a -> att_ID a = id) ->
  rejectTx ide request db = Ok (result, db') ->
  (sir_Replayed result = true /\ db' = db) \/
  (sir_Replayed result = false /\ exists row a event,
     holds_lease db claim (srj_LeaseOwner request) (srj_Now request) row /\
     db_attempts db !! cl_AttemptID claim = Some a /\ att_TenantID a = cl_TenantID claim /\ att_RunID a = cl_ID claim /\
     att_AttemptNumber a = run_AttemptCount (rr_Run row) /\ att_Status a = AttemptPending /\
     att_Version a = cl_AttemptVersion claim /\
     announces AgentRunFailedType claim event /\ db_outbox db !! env_EventID (oe_Envelope event) = None /\
     in_int64 (cl_Version claim + 1) /\
     result = {| sir_RunVersion := cl_Version claim + 1; sir_AttemptVersion := cl_AttemptVersion claim + 1;
       sir_CapacityReservationID := uuidNil; sir_BudgetReservationID := uuidNil;
       sir_EventID := env_EventID (oe_Envelope event); sir_Replayed := false |} /\
     db' = db <| db_runs := <[cl_ID claim := bumped (rejectedRow request) row]> (db_runs db) |>
              <| db_attempts := <[cl_AttemptID claim := bumpedAttempt (cancelledAttempt (srj_Now request)) a]>
                   (db_attempts db) |>
              <| db_outbox := <[env_EventID (oe_Envelope event) := pendingRow event]> (db_outbox db) |>).
Proof.
  intros claim Hkey Hakey Hd. unfold rejectTx in Hd. fold claim in Hd.
  apply tx_bind_ok in Hd as (locked & ? & (-> & row & Hrow & Hten & ->)%lockSchedulingRun_spec & Hd).
  cbn [lr_Run] in Hd. case_bool_decide as Hst. { apply replayReject_kept in Hd as [-> ?]. by left. }
  right. pose proof (Hkey _ _ Hrow) as Hid.
  apply tx_bind_ok in Hd as ([] & ? & [Hl ->]%abortIf_ok & Hd).
  apply leaseLost_false in Hl as (Hs & Hown & Hver & expiry & Hexp & Hlt). simpl in Hs, Hown, Hver, Hexp.
  apply tx_bind_ok in Hd as (attempt & ? & (-> & a & Ha & Hat & Har & Han & Has & Hav & E1 & E2 & E3 & E4 & E5)
    %lockPendingAttempt_spec & Hd). simpl in Hat, Har, Han.
  apply tx_bind_ok in Hd as (n1 & db1 & Hua & Hd). rewrite E1, E2, (Hakey _ _ Ha), E5 in Hua.
  apply (updateAttemptRow_hit _ _ _ _ _ _ _ a) in Hua as (-> & _ & Hai & ->); try done.
  apply tx_bind_ok in Hd as ([] & ? & [_ ->]%abortIf_ok & Hd).
  apply tx_bind_ok in Hd as (n & db1 & Hu & Hd). simpl in Hu. rewrite Hid in Hu.
  apply (updateRunRow_hit _ _ _ _ _ _ _ row) in Hu as (-> & _ & Hvi & ->); try done.
  apply tx_bind_ok in Hd as ([] & ? & [_ ->]%abortIf_ok & Hd).
  apply tx_bind_ok in Hd as (event & ? & [Hev ->]%lift_tx_ok & Hd). simpl in Hev.
  apply tx_bind_ok in Hd as ([] & db3 & (Hon & ->)%insertOutboxEvent_spec & Hd). simpl in Hon. tx_inv.
  pose proof Hev as (_ & _ & _ & Hty & _ & _ & _ & Het & Her & Hea & _)%newEvent_ok. simpl in Het, Her, Hea.
  apply lifecycle_event_contract in Hev; [|done].
  rewrite Hver, add64_next in Hea by done. split; [done|]. exists row, a, event. simpl.
  rewrite Hver, E5, !add64_next by done. unfold announces, holds_lease. rewrite <-Hid, <-Hten.
  split_and!; try done; rewrite ?Hid; try done. by exists expiry.
Qed.
End Decisions.

(** ** Repetitions *)

Section Repetitions.
Context `{UUIDs} `{NetURL}.

Lemma currentAttempt_unique db run id a :
  (forall id a id' a', db_attempts db !! id = Some a -> db_attempts db !! id' = Some a' ->
     att_RunID a = att_RunID a' -> att_AttemptNumber a = att_AttemptNumber a' -> id = id') ->
  db_attempts db !! id = Some a -> att_TenantID a = run_TenantID run -> att_RunID a = run_ID run ->
  att_AttemptNumber a = run_AttemptCount run -> currentAttempt db run = Some a.
Proof.
  intros Hk Ha Ht Hr Hn. unfold currentAttempt. apply head_filter_unique; [|done|].
  - apply list_elem_of_fmap. exists (id, a). split; [done|]. by apply elem_of_map_to_list.
  - intros y [[id' ?] [-> Hy%elem_of_map_to_list]]%list_elem_of_fmap (Hyt & Hyr & Hyn). simpl in *.
    assert (id' = id) as -> by (eapply Hk; try done; congruence). congruence.
Qed.

(** The event just appended is the only one of its run at that version. *)
Lemma eventOf_new db event tenantID runID eventType version :
  (forall id o, db_outbox db !! id = Some o -> env_RunID (oe_Envelope (ob_Event o)) = Some runID ->
     env_AggregateVersion (oe_Envelope (ob_Event o)) < version) ->
  env_TenantID (oe_Envelope event) = tenantID -> env_RunID (oe_Envelope event) = Some runID ->
  env_EventType (oe_Envelope event) = eventType -> env_AggregateVersion (oe_Envelope event) = version ->
  forall db', db_outbox db' = <[env_EventID (oe_Envelope event) := pendingRow event]> (db_outbox db) ->
  eventOf db' tenantID runID eventType version = Some (env_EventID (oe_Envelope event)).
Proof.
  intros Hold Ht Hr Hty Hv db' Hdb'. unfold eventOf.
  rewrite (head_filter_unique _ _ (oe_Envelope event)); [done| |done|].
  - apply list_elem_of_fmap. exists (env_EventID (oe_Envelope event), pendingRow event). split; [done|].
    apply elem_of_map_to_list. rewrite Hdb'. apply lookup_insert_eq.
  - intros y [[id o] [-> Ho%elem_of_map_to_list]]%list_elem_of_fmap (_ & Hyr & _ & Hyv). simpl in *.
    rewrite Hdb' in Ho. apply lookup_insert_Some in Ho as [[_ <-]|[_ Ho]]; [done|].
    pose proof (Hold _ _ Ho Hyr). lia.
Qed.

Lemma older_events db runID row :
  store_keyed db -> db_runs db !! runID = Some row ->
  forall id o, db_outbox db !! id = Some o -> env_RunID (oe_Envelope (ob_Event o)) = Some runID ->
    env_AggregateVersion (oe_Envelope (ob_Event o)) < run_Version (rr_Run row) + 1.
Proof. intros Hk Hrow id o Ho Hr. pose proof (sk_versions _ Hk _ _ _ _ Ho Hr Hrow). lia. Qed.

Lemma attempts_update db id a a' :
  store_keyed db -> db_attempts db !! id = Some a -> att_RunID a' = att_RunID a ->
  att_AttemptNumber a' = att_AttemptNumber a ->
  forall db', db_attempts db' = <[id := a']> (db_attempts db) ->
  forall i x i' x', db_attempts db' !! i = Some x -> db_attempts db' !! i' = Some x' ->
    att_RunID x = att_RunID x' -> att_AttemptNumber x = att_AttemptNumber x' -> i = i'.
Proof.
  intros Hk Ha Hr Hn db' -> i x i' x' Hi Hi' Er En.
  apply lookup_insert_Some in Hi as [[<- <-]|[? Hi]]; apply lookup_insert_Some in Hi' as [[<- <-]|[? Hi']]; [done| | |].
  - eapply (sk_numbers _ Hk _ a _ x'); congruence.
  - symmetry. eapply (sk_numbers _ Hk _ a _ x); congruence.
  - by eapply (sk_numbers _ Hk _ x _ x').
Qed.

Lemma newReservationBundle_created idc idb request d bundle :
  newReservationBundle idc idb request d = Ok bundle -> cr_CreatedAt (rb_Capacity bundle) = rq_res_Now request.
Proof. unfold newReservationBundle. intros Hn. inv_ok. done. Qed.

(** A microsecond duration is read back from the stored reservation. *)
Lemma stored_ttl t d : 0 < d <= 24 * Hour -> d mod 1000 = 0 -> TimeSub (pgTime (t + d)) (pgTime t) = d.
Proof. intros Hd Hm. rewrite pgTime_add by done. unfold TimeSub, Hour, Minute, Second in *. lia. Qed.

Lemma valid_intent_ttl request :
  validateSchedulingIntent request = Ok tt -> 0 < si_ReservationTTL request <= 24 * Hour.
Proof.
  unfold validateSchedulingIntent. intros Hv. apply bind_ok in Hv as ([] & Hg%failIf_ok & _). reflect_bools. lia.
Qed.

Lemma tenantRow_hit db tenantID runID row :
  db_runs db !! runID = Some row -> run_TenantID (rr_Run row) = tenantID -> tenantRow db tenantID runID = Some row.
Proof. intros Hr Ht. unfold tenantRow. by rewrite Hr, Ht, Z.eqb_refl. Qed.

Lemma queryRow_step {A B} (f : DB -> option A) (k : A -> Tx B) db a :
  f db = Some a -> (queryRow f ≫= k) db = k a db.
Proof. intros Hf. apply tx_step. by apply queryRow_ok. Qed.

Lemma abortIf_step {B} c e (k : unit -> Tx B) db : c = false -> (abortIf c e ≫= k) db = k tt db.
Proof. intros. by apply tx_step, abortIf_false. Qed.

Lemma assigns_replayed idc idb request result db db' :
  store_keyed db -> validateSchedulingIntent request = Ok tt -> si_ReservationTTL request mod 1000 = 0 ->
  assigns idc idb request result db db' ->
  forall idc' idb' ide', scheduleTx idc' idb' ide' request db' = Ok (result <| sir_Replayed := true |>, db').
Proof.
  intros Hk Hval Httl (row & a & cluster & bundle & event & (Hrow & Hten & _ & _ & Hver & _) & Hprof & Ha & Har & Hat &
    Han & _ & Hav & Hcl & _ & Hn & (dbr & Ho & Ec & Eb & _) & Er & Ea & [_ Eo] & _ & Ety & Eru & Ete & Eav & _ & Eh & _ & ->).
  intros idc' idb' ide'. unfold scheduleTx, lockSchedulingRun.
  pose proof (sk_runs _ Hk _ _ Hrow) as Hid. pose proof (newReservationBundle_created _ _ _ _ _ Hn) as Hcr.
  apply newReservationBundle_ok in Hn as (_ & _ & _ & Ham & _ & Hcpu & Hmem & _ & _ & Hex); [|by apply valid_intent_amount].
  set (row' := bumped _ row) in Er. set (a' := bumpedAttempt _ a) in Ea.
  assert (Hrow' : db_runs db' !! cl_ID (si_Claim request) = Some row') by (rewrite Er; apply lookup_insert_eq).
  assert (Hten' : tenantRow db' (cl_TenantID (si_Claim request)) (cl_ID (si_Claim request)) = Some row')
    by (exact (tenantRow_hit _ _ _ _ Hrow' Hten)).
  assert (Ha' : db_attempts db' !! si_AttemptID request = Some a') by (rewrite Ea; apply lookup_insert_eq).
  erewrite tx_step; [|erewrite queryRow_step by exact Hten'; reflexivity]. cbn [lr_Run].
  rewrite bool_decide_eq_true_2 by done. unfold replaySchedulingIntent.
  assert (Hcur : currentAttempt db' (scannedRun (rr_Run row')) = Some a').
  { eapply currentAttempt_unique; [exact (attempts_update _ _ _ a' Hk Ha eq_refl eq_refl _ Ea)|exact Ha'|simpl; congruence..]. }
  erewrite queryRow_step; cycle 1.
  { rewrite Hcur. simpl. rewrite Ec, Eb, (op_capacity _ _ _ _ Ho), (op_budget _ _ _ _ Ho), !lookup_insert_eq. reflexivity. }
  simpl. rewrite Hid, Hten. erewrite queryRow_step by (rewrite Hten'; reflexivity). simpl.
  rewrite (sk_clusters _ Hk _ _ Hcl), Hprof, Hcpu, Hmem, Ham, Hex, Hcr. simpl.
  rewrite abortIf_step by (rewrite stored_ttl by (by try apply valid_intent_ttl);
    rewrite !bool_decide_eq_true_2, !Z.eqb_refl by done; done).
  erewrite queryRow_step; [|eapply eventOf_new; try done; [by eapply older_events|congruence|congruence]].
  erewrite queryRow_step; cycle 1.
  { rewrite Eh, lookup_insert_eq. simpl. rewrite Hid, Han, !Z.eqb_refl. reflexivity. }
  rewrite abortIf_step by (unfold desiredStateMatches; simpl; by rewrite bool_decide_eq_true_2).
  subst a'. simpl. rewrite Hver, Hav. reflexivity.
Qed.
End Repetitions.

(** ** The decisions *)

(** A stored run takes one step of the documented lifecycle and its next version. *)
Definition stored_step (now : Time) (row row' : RunRow) : Prop :=
  exists run', run_step now (rr_Run row) run' /\
    pgRun (rr_Run row') = pgRun (run' <| run_Version := run_Version (rr_Run row) + 1 |>).

Section Theorems.
Context `{UUIDs} `{NetURL}.

Lemma assignedRow_step strategy score now row :
  run_Status (rr_Run row) = AgentRunScheduling -> stored_step now row (bumped (assignedRow strategy score now) row).
Proof.
  intros Hs. eexists. split.
  - apply (step_progress _ _ AgentRunProvisioning); [|done]. rewrite Hs. constructor.
  - unfold pgRun. simpl. by rewrite pgTime_idemp.
Qed.

Lemma waitingRow_step request row :
  run_Status (rr_Run row) = AgentRunScheduling ->
  stored_step (cwr_Now request) row (bumped (waitingRow request) row).
Proof.
  intros Hs. eexists. split.
  - apply (step_progress _ _ AgentRunCapacityWait); [|done]. rewrite Hs. constructor.
  - unfold pgRun. simpl. by rewrite pgTime_idemp.
Qed.

Lemma rejectedRow_step request row :
  run_Status (rr_Run row) = AgentRunScheduling ->
  stored_step (srj_Now request) row (bumped (rejectedRow request) row).
Proof.
  intros Hs. eexists. split.
  - apply (step_failed _ _ AgentRunPolicyRejected FailurePolicy); [|done..]. rewrite Hs. constructor.
  - unfold pgRun. simpl. by rewrite !pgTime_idemp.
Qed.

(** A repeated deferral is answered from the store exactly when its instant is a
    whole number of microseconds. *)
Lemma waitingRow_replayed ide request db result db' :
  store_keyed db -> deferTx ide request db = Ok (result, db') -> sir_Replayed result = false ->
  forall ide', deferTx ide' request db' =
    if cwr_NextEligibleAt request mod 1000 =? 0 then Ok (result <| sir_Replayed := true |>, db')
    else Err ErrVersionConflict.
Proof.
  intros Hk Hd Hf ide'.
  apply deferTx_spec in Hd as [[? _]|(_ & row & event & (Hrow & Hten & _ & _ & Hver & _) & (_ & Ety & Eru & Ete & Eav) & _ &
    Hvi & -> & ->)]; [congruence| |apply Hk].
  pose proof (sk_runs _ Hk _ _ Hrow) as Hid. set (claim := cwr_Claim request) in *.
  set (row' := bumped _ row). set (db1 := _ <| db_outbox := _ |>).
  assert (Hten' : tenantRow db1 (cl_TenantID claim) (cl_ID claim) = Some row')
    by (apply tenantRow_hit; [apply lookup_insert_eq|exact Hten]).
  unfold deferTx, lockSchedulingRun. fold claim.
  erewrite tx_step; [|erewrite queryRow_step by exact Hten'; reflexivity]. cbn [lr_Run].
  rewrite bool_decide_eq_true_2 by done. unfold replayWait. simpl. rewrite Hid, Hten.
  erewrite queryRow_step by (rewrite Hten'; reflexivity). simpl. fold claim.
  rewrite Hver, add64_next, Z.eqb_refl, !bool_decide_eq_true_2 by done. simpl.
  replace (_ =? _) with (cwr_NextEligibleAt request mod 1000 =? 0).
  - case_match; [|done]. erewrite queryRow_step; [|by eapply (eventOf_new db event); try done;
      [rewrite <-Hver; by eapply older_events|congruence..]]. reflexivity.
  - apply Bool.eq_iff_eq_true. rewrite !Z.eqb_eq. unfold pgTime.
    pose proof (Z.div_mod (cwr_NextEligibleAt request) 1000 ltac:(lia)). lia.
Qed.

Lemma rejectedRow_replayed ide request db result db' :
  store_keyed db -> rejectTx ide request db = Ok (result, db') -> sir_Replayed result = false ->
  forall ide', rejectTx ide' request db' = Ok (result <| sir_Replayed := true |>, db').
Proof.
  intros Hk Hd Hf ide'.
  apply rejectTx_spec in Hd as [[? _]|(_ & row & a & event & (Hrow & Hten & _ & _ & Hver & _) & Ha & Hat & Har & Han & _ & Hav &
    (_ & Ety & Eru & Ete & Eav) & _ & Hvi & -> & ->)]; [congruence| |apply Hk..].
  pose proof (sk_runs _ Hk _ _ Hrow) as Hid. set (claim := srj_Claim request) in *.
  set (row' := bumped _ row). set (db1 := _ <| db_outbox := _ |>). set (a' := bumpedAttempt _ a) in *.
  assert (Hten' : tenantRow db1 (cl_TenantID claim) (cl_ID claim) = Some row')
    by (apply tenantRow_hit; [apply lookup_insert_eq|exact Hten]).
  unfold rejectTx, lockSchedulingRun. fold claim.
  erewrite tx_step; [|erewrite queryRow_step by exact Hten'; reflexivity]. cbn [lr_Run].
  rewrite bool_decide_eq_true_2 by done. unfold replayReject. simpl. rewrite Hid, Hten.
  erewrite queryRow_step by (rewrite Hten'; reflexivity). simpl. fold claim.
  rewrite abortIf_step by (by rewrite Hver, add64_next, Z.eqb_refl, !bool_decide_eq_true_2).
  rewrite Hver.
  erewrite queryRow_step; [|by eapply (eventOf_new db event); try done;
      [rewrite <-Hver; by eapply older_events|congruence..]].
  erewrite (queryRow_step _ _ _ a'); [subst a'; simpl; by rewrite Hav|].
  erewrite (currentAttempt_unique _ _ (cl_AttemptID claim) a'); [by simpl| | | | |].
  - exact (attempts_update _ _ _ a' Hk Ha eq_refl eq_refl db1 eq_refl).
  - apply lookup_insert_eq.
  - simpl. congruence.
  - simpl. congruence.
  - simpl. congruence.
Qed.

(** C6: [Schedule] is all or nothing. On success it either answers a repetition
    and changes nothing, or: the run was leased to the caller at the claimed
    version and takes the lifecycle step to [PROVISIONING]; the attempt was the
    run's pending current attempt; the cluster is placeable and, with the
    reservations already held, has the requested CPU and memory, and the tenant
    has the budget; one capacity and one budget reservation, one
    contract-conforming [AgentRunScheduled] event and one hand-off intent are
    stored; and the reservation invariant is preserved. On an error nothing
    changes. *)
Theorem Schedule_atomic idc idb ide request db r db' :
  store_keyed db -> reservation_inv db -> store_limits db ->
  Schedule idc idb ide request db = (r, db') ->
  match r with
  | Err _ => db' = db
  | Ok result =>
      reservation_inv db' /\
      if sir_Replayed result then db' = db
      else assigns idc idb request result db db' /\
           exists row row', db_runs db !! cl_ID (si_Claim request) = Some row /\
             db_runs db' !! cl_ID (si_Claim request) = Some row' /\ stored_step (si_Now request) row row' /\
             run_Status (rr_Run row') = AgentRunProvisioning /\ rr_LeaseOwner row' = None
  end.
Proof.
  intros Hk Hinv Hlim Hs. unfold Schedule in Hs. destruct (validateSchedulingIntent request) as [[]|e] eqn:Hval; [|naive_solver].
  destruct r as [result|e]; [|by apply transact_err in Hs]. apply transact_ok in Hs. unfold scheduleTx in Hs.
  apply tx_bind_ok in Hs as (locked & ? & (-> & row & Hrow & Hten & ->)%lockSchedulingRun_spec & Hs).
  case_bool_decide. { apply replaySchedulingIntent_kept in Hs as [-> ->]. done. }
  apply scheduleNew_spec in Hs as (Ha & Hinv' & _); try done; [|by apply Hk..]. split; [done|].
  pose proof Ha as (row1 & a & cluster & bundle & event & (Hr1 & _ & Hst & _) & _ & _ & _ & _ & _ & _ & _ & _ & _ & _ & _ &
    Er & _ & _ & _ & _ & _ & _ & _ & _ & _ & _ & Eres).
  rewrite Eres. simpl. split; [by rewrite <-Eres|]. exists row1, (bumped (assignedRow (si_Strategy request) (si_SelectionScore request) (si_Now request)) row1).
  rewrite Er, lookup_insert_eq. split_and!; try done. by apply assignedRow_step.
Qed.

(** C7: Repeating a successful scheduling request, whatever identifiers are
    drawn the second time, answers with the same reservation identifiers, event
    and versions, marked as replayed, and changes nothing, when the reservation
    TTL is a whole number of microseconds. *)
Theorem Schedule_idempotent idc idb ide request db result db' :
  store_keyed db -> reservation_inv db -> store_limits db -> si_ReservationTTL request mod 1000 = 0 ->
  Schedule idc idb ide request db = (Ok result, db') ->
  forall idc' idb' ide', Schedule idc' idb' ide' request db' = (Ok (result <| sir_Replayed := true |>), db').
Proof.
  intros Hk Hinv Hlim Httl Hs idc' idb' ide'. unfold Schedule in *.
  destruct (validateSchedulingIntent request) as [[]|e] eqn:Hval; [|done]. apply transact_ok in Hs. apply transact_ok.
  unfold scheduleTx in Hs.
  pose proof Hs as Hs0. apply tx_bind_ok in Hs as (locked & ? & (-> & row & Hrow & Hten & ->)%lockSchedulingRun_spec & Hs).
  cbn [lr_Run] in Hs. case_bool_decide as Hp.
  - pose proof Hs as [-> Hrep]%replaySchedulingIntent_kept.
    unfold scheduleTx, lockSchedulingRun. erewrite tx_step; [|by erewrite queryRow_step by (by apply tenantRow_hit)].
    cbn [lr_Run]. rewrite bool_decide_eq_true_2 by done. rewrite Hs. destruct result. simpl in Hrep. by rewrite Hrep.
  - apply scheduleNew_spec in Hs as (Ha & _); try done; [|by apply Hk..]. by eapply assigns_replayed.
Qed.

(** [DeferCapacity] is all or nothing. On success it either answers a
    repetition and changes nothing, or the run was leased to the caller at the
    claimed version, takes the lifecycle step to [CAPACITY_WAIT] without the
    lease, is not eligible before the requested instant, and one
    contract-conforming [AgentRunCapacityWait] event is stored; nothing else
    changes. On an error nothing changes. A repetition is answered from the
    store exactly when the requested instant is a whole number of microseconds,
    and is a version conflict otherwise. *)
Theorem DeferCapacity_atomic ide request db r db' :
  let claim := cwr_Claim request in
  store_keyed db -> DeferCapacity ide request db = (r, db') ->
  match r with
  | Err _ => db' = db
  | Ok result =>
      if sir_Replayed result then db' = db else
      (exists row row' event,
        holds_lease db claim (cwr_LeaseOwner request) (cwr_Now request) row /\
        stored_step (cwr_Now request) row row' /\ run_Status (rr_Run row') = AgentRunCapacityWait /\
        rr_LeaseOwner row' = None /\ rr_NextEligibleAt row' = Some (pgTime (cwr_NextEligibleAt request)) /\
        announces AgentRunCapacityWaitType claim event /\ db_outbox db !! env_EventID (oe_Envelope event) = None /\
        db' = db <| db_runs := <[cl_ID claim := row']> (db_runs db) |>
                 <| db_outbox := <[env_EventID (oe_Envelope event) := pendingRow event]> (db_outbox db) |>) /\
      forall ide', DeferCapacity ide' request db' =
        (if cwr_NextEligibleAt request mod 1000 =? 0 then Ok (result <| sir_Replayed := true |>)
         else Err ErrVersionConflict, db')
  end.
Proof.
  intros claim Hk Hs. unfold DeferCapacity in *. destruct (_ || _); [naive_solver|].
  destruct r as [result|e]; [|by apply transact_err in Hs]. apply transact_ok in Hs.
  destruct (sir_Replayed result) eqn:Hrep.
  { by apply deferTx_spec in Hs as [[_ ?]|[? _]]; [|congruence|apply Hk]. }
  pose proof (waitingRow_replayed _ _ _ _ _ Hk Hs Hrep) as Hagain.
  apply deferTx_spec in Hs as [[? _]|(_ & row & event & Hh & Hev & Hon & _ & _ & Hdb)]; [congruence| |apply Hk].
  split.
  - exists row, (bumped (waitingRow request) row), event. split_and!; try done. apply waitingRow_step, Hh.
  - intros ide'. unfold transact. rewrite Hagain. by case_match.
Qed.

(** [Reject] is all or nothing. On success it either answers a repetition
    and changes nothing, or the run was leased to the caller at the claimed
    version and takes the lifecycle step to [POLICY_REJECTED], its pending
    attempt is cancelled, and one contract-conforming [AgentRunFailed] event is
    stored; nothing else changes. On an error nothing changes. A repetition gets
    the same answer, marked as replayed. *)
Theorem Reject_atomic ide request db r db' :
  let claim := srj_Claim request in
  store_keyed db -> Reject ide request db = (r, db') ->
  match r with
  | Err _ => db' = db
  | Ok result =>
      if sir_Replayed result then db' = db else
      (exists row row' a event,
        holds_lease db claim (srj_LeaseOwner request) (srj_Now request) row /\
        stored_step (srj_Now request) row row' /\ run_Status (rr_Run row') = AgentRunPolicyRejected /\
        rr_LeaseOwner row' = None /\ db_attempts db !! cl_AttemptID claim = Some a /\ att_RunID a = cl_ID claim /\
        att_Status a = AttemptPending /\
        announces AgentRunFailedType claim event /\ db_outbox db !! env_EventID (oe_Envelope event) = None /\
        db' = db <| db_runs := <[cl_ID claim := row']> (db_runs db) |>
                 <| db_attempts := <[cl_AttemptID claim := bumpedAttempt (cancelledAttempt (srj_Now request)) a]>
                      (db_attempts db) |>
                 <| db_outbox := <[env_EventID (oe_Envelope event) := pendingRow event]> (db_outbox db) |>) /\
      forall ide', Reject ide' request db' = (Ok (result <| sir_Replayed := true |>), db')
  end.
Proof.
  intros claim Hk Hs. unfold Reject in *. destruct (_ || _); [naive_solver|].
  destruct r as [result|e]; [|by apply transact_err in Hs]. apply transact_ok in Hs.
  destruct (sir_Replayed result) eqn:Hrep.
  { by apply rejectTx_spec in Hs as [[_ ?]|[? _]]; [|congruence|apply Hk..]. }
  pose proof (rejectedRow_replayed _ _ _ _ _ Hk Hs Hrep) as Hagain.
  apply rejectTx_spec in Hs as [[? _]|(_ & row & a & event & Hh & Ha & _ & Har & _ & Has & _ & Hev & Hon & _ & _ & Hdb)];
    [congruence| |apply Hk..].
  split.
  - exists row, (bumped (rejectedRow request) row), a, event. split_and!; try done. apply rejectedRow_step, Hh.
  - intros ide'. unfold transact. by rewrite Hagain.
Qed.
End Theorems.

(** ** Examples *)

(** The example store with the run claimed, and a policy and a cluster for its runtime. *)
Definition example_claimed_db : DB :=
  example_db <| db_runs := {[exampleV7 11 := example_leased]} |>
    <| db_policies := {[exampleTenant :=
      {| pr_MaxConcurrentRuns := 10; pr_MaxUserConcurrentRuns := 5; pr_MaxQueuedRuns := 100; pr_MaxCPUMillis := 64000;
         pr_MaxMemoryMiB := 65536; pr_DailyBudgetMinorUnits := 10000; pr_AllowedRuntimes := ["python"];
         pr_AllowedProfiles := ["standard"]; pr_DeferralSeconds := 30 |}]} |>
    <| db_clusters := {["cluster-a" :=
      {| ec_ID := "cluster-a"; ec_Region := "eu-1"; ec_Status := ClusterActive; ec_SupportedRuntimes := ["python"];
         ec_SupportedExecutionProfiles := ["standard"]; ec_Maintenance := false; ec_TenantRestricted := false;
         ec_SchedulingWeight := 100; ec_CPUCostMinorUnits := 1; ec_MemoryGiBCostMinorUnits := 1;
         ec_LastHeartbeatAt := exampleNow; ec_Version := 1; ec_CreatedAt := exampleNow; ec_UpdatedAt := exampleNow |}]} |>.

Definition example_claimed : ClaimedRun :=
  {| cl_ID := exampleV7 11; cl_TenantID := exampleTenant; cl_ProjectID := exampleV7 8; cl_Runtime := "python";
     cl_PromptReference := "s3://prompts/1"; cl_MaxAttempts := 2; cl_ExecutionProfile := "standard";
     cl_PreferredRegion := EmptyString; cl_CreatedBy := "dev"; cl_CPUMillis := 500; cl_MemoryMiB := 512;
     cl_TimeoutSeconds := 600; cl_AttemptNumber := 1; cl_AttemptID := exampleV7 21; cl_AttemptVersion := 1;
     cl_Priority := 0; cl_EffectivePriority := 0; cl_Version := 1; cl_CreatedAt := exampleNow - Minute;
     cl_SchedulerLeaseOwner := "scheduler-1"; cl_SchedulerLeaseExpiry := exampleNow + Minute |}.

Definition example_desired : AgentRunDesiredState :=
  {| ds_RunnerImage := example_digest; ds_Runtime := "python"; ds_ExecutionProfile := "standard";
     ds_TaskReference := "s3://prompts/1"; ds_TimeoutSeconds := 600; ds_MaxAttempts := 2; ds_InitialBackoffSeconds := 10;
     ds_MaxBackoffSeconds := 60; ds_RetryableFailureCategories := [FailureInternal]; ds_CPUMillis := 500;
     ds_MemoryMiB := 512; ds_CPULimitMillis := 500; ds_MemoryLimitMiB := 512; ds_WorkspaceSizeGiB := 10;
     ds_StorageClassName := EmptyString; ds_WorkspaceRetentionPolicy := "Delete"; ds_NetworkProfile := "Isolated";
     ds_AllowedDestinationsRef := EmptyString; ds_ArtifactDestinationRef := "artifacts"; ds_ConfigurationRefs := [];
     ds_SecretRefs := []; ds_DeployOnSuccess := false |}.

Definition example_scheduling : SchedulingIntentRequest :=
  {| si_Claim := example_claimed; si_LeaseOwner := "scheduler-1"; si_AttemptID := exampleV7 21; si_AttemptVersion := 1;
     si_ClusterID := "cluster-a"; si_ClusterFreshness := 5 * Minute; si_Strategy := "weighted"; si_SelectionScore := 10;
     si_BudgetMinorUnits := 120; si_ReservationTTL := 15 * Minute; si_CorrelationID := "corr-1"; si_CausationID := "cause-1";
     si_Now := exampleNow; si_DesiredState := example_desired |}.

Definition example_deferral : CapacityWaitRequest :=
  {| cwr_Claim := example_claimed; cwr_LeaseOwner := "scheduler-1"; cwr_ReasonCode := "NO_CAPACITY";
     cwr_Reason := "no cluster"; cwr_NextEligibleAt := exampleNow + 30 * Second + 1; cwr_CorrelationID := "corr-1";
     cwr_CausationID := "cause-1"; cwr_Now := exampleNow |}.

Definition example_rejection : SchedulingRejectRequest :=
  {| srj_Claim := example_claimed; srj_LeaseOwner := "scheduler-1"; srj_ReasonCode := "TENANT_SUSPENDED";
     srj_Reason := "tenant is not active"; srj_CorrelationID := "corr-1"; srj_CausationID := "cause-1";
     srj_Now := exampleNow |}.

Lemma example_claimed_keyed : store_keyed example_claimed_db.
Proof.
  split; unfold runs_keyed, example_claimed_db, example_db; simpl.
  - intros id row [<- <-]%lookup_singleton_Some. reflexivity.
  - intros id a [<- <-]%lookup_singleton_Some. reflexivity.
  - intros id a id' a' [<- <-]%lookup_singleton_Some [<- <-]%lookup_singleton_Some. done.
  - intros id c [<- <-]%lookup_singleton_Some. reflexivity.
  - intros id o. by rewrite lookup_empty.
  - intros id o runID row. by rewrite lookup_empty.
Qed.

Lemma example_claimed_limits : store_limits example_claimed_db.
Proof.
  split; unfold example_claimed_db, example_db; simpl.
  - intros t p [<- <-]%lookup_singleton_Some. done.
  - intros k s [<- <-]%lookup_singleton_Some. done.
Qed.

Lemma example_claimed_inv : reservation_inv example_claimed_db.
Proof. by apply (reservation_inv_ext example_db), example_inv. Qed.

Definition example_schedule : res SchedulingIntentResult * DB :=
  @Schedule rfcUUIDs exampleNetURL (Ok (exampleV7 31)) (Ok (exampleV7 32)) (Ok (exampleV7 33)) example_scheduling
    example_claimed_db.

Lemma example_scheduled : exists result db', example_schedule = (Ok result, db') /\ sir_Replayed result = false.
Proof.
  destruct example_schedule as [r db'] eqn:E. assert (Hr : r = example_schedule.1) by (by rewrite E).
  vm_compute in Hr. subst r. eexists _, _. split; [reflexivity|reflexivity].
Qed.

Lemma Schedule_atomic_witness :
  exists result db', example_schedule = (Ok result, db') /\
    @assigns rfcUUIDs exampleNetURL (Ok (exampleV7 31)) (Ok (exampleV7 32)) example_scheduling result example_claimed_db db'.
Proof.
  destruct example_scheduled as (result & db' & E & Hr). exists result, db'. split; [exact E|].
  unfold example_schedule in E.
  destruct (@Schedule_atomic rfcUUIDs exampleNetURL _ _ _ _ _ _ _ example_claimed_keyed example_claimed_inv
    example_claimed_limits E) as [_ Hc].
  rewrite Hr in Hc. exact (proj1 Hc).
Defined.

Lemma Schedule_idempotent_witness :
  exists result db', example_schedule = (Ok result, db') /\
    @Schedule rfcUUIDs exampleNetURL (Ok (exampleV7 41)) (Ok (exampleV7 42)) (Ok (exampleV7 43)) example_scheduling db'
      = (Ok (result <| sir_Replayed := true |>), db').
Proof.
  destruct example_scheduled as (result & db' & E & Hr). exists result, db'. split; [exact E|].
  unfold example_schedule in E.
  exact (@Schedule_idempotent rfcUUIDs exampleNetURL _ _ _ example_scheduling _ _ _ example_claimed_keyed example_claimed_inv
    example_claimed_limits eq_refl E _ _ _).
Defined.

(** The instant of the example deferral is not a whole number of microseconds. *)
Lemma DeferCapacity_atomic_witness :
  let defer n := @DeferCapacity rfcUUIDs exampleNetURL (Ok (exampleV7 n)) example_deferral in
  exists result db', defer 33 example_claimed_db = (Ok result, db') /\ sir_Replayed result = false /\
    defer 34 db' = (Err ErrVersionConflict, db').
Proof.
  intros defer. destruct (defer 33 example_claimed_db) as [r db'] eqn:E. subst defer.
  pose proof (f_equal fst E) as Hr. vm_compute in Hr. subst r. eexists _, _. split; [reflexivity|]. split; [reflexivity|].
  exact (proj2 (@DeferCapacity_atomic rfcUUIDs exampleNetURL _ _ _ _ _ example_claimed_keyed E) (Ok (exampleV7 34))).
Defined.

Lemma Reject_atomic_witness :
  let reject n := @Reject rfcUUIDs exampleNetURL (Ok (exampleV7 n)) example_rejection in
  exists result db', reject 33 example_claimed_db = (Ok result, db') /\ sir_Replayed result = false /\
    reject 34 db' = (Ok (result <| sir_Replayed := true |>), db').
Proof.
  intros reject. destruct (reject 33 example_claimed_db) as [r db'] eqn:E. subst reject.
  pose proof (f_equal fst E) as Hr. vm_compute in Hr. subst r. eexists _, _. split; [reflexivity|]. split; [reflexivity|].
  exact (proj2 (@Reject_atomic rfcUUIDs exampleNetURL _ _ _ _ _ example_claimed_keyed E) (Ok (exampleV7 34))).
Defined.
