(* ===== verification/Registry.v ===== *)
(** * The cluster registry (internal/adapters/postgres/clusters.go)

    Registration and optimistic update of execution clusters with their capacity
    snapshots and tenant allow list, and the candidate query of the scheduler.
    The theorems show that every reachable registry is well formed, and that the
    candidates a scheduler is offered are exactly the clusters the scheduling
    transaction admits. *)

From S2P Require Import Prelude AgentRun Policy Cluster Strategy Events Store Reservations Queue SchedulingIntent.

(** The order of text values in the database's locale. *)
Class Collation := {
  collate : string -> string -> Prop;
  collate_dec :: RelDecision collate;
}.

(** The [C] locale compares bytes. *)
Definition byteCollation : Collation :=
  {| collate := fun s t => string_lt t s = false; collate_dec := fun s t => decide (string_lt t s = false) |}.

(** ** Writes *)

(** The loop over the tenants is the check for nil and repeated identifiers. *)
Definition validateClusterWrite (cluster : ExecutionCluster) (capacity : ClusterCapacity) (allowedTenants : list UUID)
    (now : Time) : res unit :=
  _ ← Cluster_Validate cluster now;
  _ ← failIf (negb (is_ok (Capacity_Validate capacity now)) || (cc_ClusterID capacity != ec_ID cluster))
      (ErrPlain "cluster capacity does not match cluster metadata");
  _ ← failIf (negb (uniqueLoop (fun tenantID => tenantID != uuidNil) ∅ allowedTenants))
      (ErrPlain "cluster tenant allowlist is invalid");
  failIf (ec_TenantRestricted cluster && (length allowedTenants =? 0)%nat)
    (ErrPlain "restricted cluster requires an allowlist").

(** Times are stored at microsecond precision. *)
Definition pgCluster (cluster : ExecutionCluster) : ExecutionCluster :=
  {| ec_ID := ec_ID cluster; ec_Region := ec_Region cluster; ec_Status := ec_Status cluster;
     ec_SupportedRuntimes := ec_SupportedRuntimes cluster;
     ec_SupportedExecutionProfiles := ec_SupportedExecutionProfiles cluster; ec_Maintenance := ec_Maintenance cluster;
     ec_TenantRestricted := ec_TenantRestricted cluster; ec_SchedulingWeight := ec_SchedulingWeight cluster;
     ec_CPUCostMinorUnits := ec_CPUCostMinorUnits cluster; ec_MemoryGiBCostMinorUnits := ec_MemoryGiBCostMinorUnits cluster;
     ec_LastHeartbeatAt := pgTime (ec_LastHeartbeatAt cluster); ec_Version := ec_Version cluster;
     ec_CreatedAt := pgTime (ec_CreatedAt cluster); ec_UpdatedAt := pgTime (ec_UpdatedAt cluster) |}.

(** The columns of type [integer]. *)
Definition integerColumns (values : list Z) : Tx unit :=
  abortIf (negb (forallb (fun z => bool_decide (- 2 ^ 31 <= z < 2 ^ 31)) values)) (ErrPlain "integer out of range").

Fixpoint insertAllowlist (clusterID : string) (tenants : list UUID) : Tx unit :=
  match tenants with
  | [] => mret tt
  | tenantID :: rest =>
      db ← query id;
      _ ← abortIf (bool_decide ((clusterID, tenantID) ∈ db_allowlist db)) ErrConflict;
      _ ← abortIf (bool_decide (db_tenants db !! tenantID = None)) ErrNotFound;
      _ ← modify (fun db => db <| db_allowlist := {[(clusterID, tenantID)]} ∪ db_allowlist db |>);
      insertAllowlist clusterID rest
  end.

Definition pgCapacity (capacity : ClusterCapacity) : ClusterCapacity :=
  {| cc_ClusterID := cc_ClusterID capacity; cc_ObservedAt := pgTime (cc_ObservedAt capacity);
     cc_AllocatableCPUMillis := cc_AllocatableCPUMillis capacity;
     cc_AllocatableMemoryMiB := cc_AllocatableMemoryMiB capacity; cc_QueuedWorkloads := cc_QueuedWorkloads capacity |}.

Definition insertSnapshot (capacity : ClusterCapacity) : Tx unit :=
  let key := (cc_ClusterID capacity, pgTime (cc_ObservedAt capacity)) in
  _ ← integerColumns [cc_QueuedWorkloads capacity];
  db ← query id;
  _ ← abortIf (bool_decide (is_Some (db_snapshots db !! key))) ErrConflict;
  _ ← abortIf (bool_decide (db_clusters db !! cc_ClusterID capacity = None)) ErrNotFound;
  modify (fun db => db <| db_snapshots := <[key := pgCapacity capacity]> (db_snapshots db) |>).

Definition deleteAllowlist (clusterID : string) : Tx unit :=
  modify (fun db => db <| db_allowlist := filter (fun entry => entry.1 <> clusterID) (db_allowlist db) |>).

Definition writeCapacityAndAllowlist (capacity : ClusterCapacity) (allowedTenants : list UUID) : Tx unit :=
  _ ← insertSnapshot capacity;
  _ ← deleteAllowlist (cc_ClusterID capacity);
  insertAllowlist (cc_ClusterID capacity) allowedTenants.

Definition registerTx (cluster : ExecutionCluster) (capacity : ClusterCapacity) (allowedTenants : list UUID) : Tx unit :=
  _ ← integerColumns [ec_SchedulingWeight cluster; ec_CPUCostMinorUnits cluster; ec_MemoryGiBCostMinorUnits cluster];
  db ← query id;
  _ ← abortIf (bool_decide (is_Some (db_clusters db !! ec_ID cluster))) ErrConflict;
  _ ← modify (fun db => db <| db_clusters := <[ec_ID cluster := pgCluster cluster]> (db_clusters db) |>);
  writeCapacityAndAllowlist capacity allowedTenants.

Definition Register (cluster : ExecutionCluster) (capacity : ClusterCapacity) (allowedTenants : list UUID) (db : DB)
    : res unit * DB :=
  match validateClusterWrite cluster capacity allowedTenants (ec_UpdatedAt cluster) with
  | Err e => (Err e, db)
  | Ok _ => transact (registerTx cluster capacity allowedTenants) db
  end.

Definition updateTx (cluster : ExecutionCluster) (expectedVersion : Z) (capacity : ClusterCapacity)
    (allowedTenants : list UUID) : Tx ExecutionCluster :=
  _ ← integerColumns [ec_SchedulingWeight cluster; ec_CPUCostMinorUnits cluster; ec_MemoryGiBCostMinorUnits cluster];
  db ← query id;
  match db_clusters db !! ec_ID cluster with
  | None => lift (Err ErrNotFound)
  | Some stored =>
      _ ← abortIf (negb (ec_Version stored =? expectedVersion)) ErrVersionConflict;
      _ ← modify (fun db => db <| db_clusters :=
            <[ec_ID cluster := (pgCluster cluster) <| ec_CreatedAt := ec_CreatedAt stored |>]> (db_clusters db) |>);
      _ ← writeCapacityAndAllowlist capacity allowedTenants;
      mret cluster
  end.

Definition Update (cluster : ExecutionCluster) (expectedVersion : Z) (capacity : ClusterCapacity)
    (allowedTenants : list UUID) (db : DB) : res ExecutionCluster * DB :=
  if (expectedVersion <? 1) || negb (ec_Version cluster =? add64 expectedVersion 1) then (Err ErrVersionConflict, db) else
  match validateClusterWrite cluster capacity allowedTenants (ec_UpdatedAt cluster) with
  | Err e => (Err e, db)
  | Ok _ => transact (updateTx cluster expectedVersion capacity allowedTenants) db
  end.

(** ** Reads *)

(** [clusters cluster join lateral (... limit 1) capacity on true] *)
Definition clusterSelect (db : DB) : list (ExecutionCluster * ClusterCapacity) :=
  omap (fun '(id, cluster) => (fun capacity => (cluster, capacity)) <$> latestSnapshot db id)
    (map_to_list (db_clusters db)).

Definition Get (id : string) (db : DB) : res (ExecutionCluster * ClusterCapacity) :=
  match head (filter (fun row => ec_ID row.1 = id) (clusterSelect db)) with
  | Some row => Ok row
  | None => Err ErrNotFound
  end.

Section Candidates.
Context `{Collation}.

Definition candidate_le (a b : ClusterCandidate) : Prop := collate (ec_ID (cand_Cluster a)) (ec_ID (cand_Cluster b)).

#[local] Instance candidate_le_dec : RelDecision candidate_le.
Proof. intros a b. unfold candidate_le. apply collate_dec. Defined.

Definition ListCandidates (tenantID : UUID) (runtime profile : string) (now : Time) (freshness : Duration) (db : DB)
    : res (list ClusterCandidate) :=
  _ ← failIf ((tenantID == uuidNil) || (runtime == EmptyString) || (profile == EmptyString) || IsZero now
        || (freshness <=? 0)) (ErrPlain "candidate query is invalid");
  Ok (merge_sort candidate_le
        ((fun row => {| cand_Cluster := row.1; cand_Capacity := row.2 |}) <$>
           filter (fun row => placeable db row.1 row.2 tenantID runtime profile now freshness = true) (clusterSelect db))).
End Candidates.

(** ** Well-formed registries *)

(** What the registry guarantees of a stored cluster. *)
Record cluster_ok (c : ExecutionCluster) : Prop := {
  co_id : clusterIDPattern (ec_ID c) = true;
  co_region : clusterRegionPattern (ec_Region c) = true;
  co_status : ec_Status c = ClusterActive \/ ec_Status c = ClusterUnavailable;
  co_weight : 1 <= ec_SchedulingWeight c <= 1000;
  co_cpu : 0 <= ec_CPUCostMinorUnits c < 2 ^ 31;
  co_memory : 0 <= ec_MemoryGiBCostMinorUnits c < 2 ^ 31;
  co_version : 1 <= ec_Version c;
  co_runtimes : validClusterValues (ec_SupportedRuntimes c) 64 = true;
  co_profiles : validClusterValues (ec_SupportedExecutionProfiles c) 32 = true;
}.

Record snapshot_ok (s : ClusterCapacity) : Prop := {
  so_cpu : 0 <= cc_AllocatableCPUMillis s < 2 ^ 63;
  so_memory : 0 <= cc_AllocatableMemoryMiB s < 2 ^ 63;
  so_queued : 0 <= cc_QueuedWorkloads s < 2 ^ 31;
}.

Record registry_inv (db : DB) : Prop := {
  rg_clusters : forall id c, db_clusters db !! id = Some c -> ec_ID c = id /\ cluster_ok c;
  rg_snapshots : forall id t s, db_snapshots db !! (id, t) = Some s ->
    cc_ClusterID s = id /\ cc_ObservedAt s = t /\ snapshot_ok s /\ is_Some (db_clusters db !! id);
  rg_observed : forall id c, db_clusters db !! id = Some c -> exists t s, db_snapshots db !! (id, t) = Some s;
  rg_allowed : forall id t, (id, t) ∈ db_allowlist db -> is_Some (db_clusters db !! id) /\ is_Some (db_tenants db !! t);
  rg_restricted : forall id c, db_clusters db !! id = Some c -> ec_TenantRestricted c = true ->
    exists t, (id, t) ∈ db_allowlist db;
}.

(** The fields of a capacity report are [int64]. *)
Definition report_typed (capacity : ClusterCapacity) : Prop :=
  in_int64 (cc_AllocatableCPUMillis capacity) /\ in_int64 (cc_AllocatableMemoryMiB capacity).

(** One write to the registry, successful or not. *)
Inductive registry_step (db : DB) : DB -> Prop :=
| step_register cluster capacity tenants r db' :
    report_typed capacity -> Register cluster capacity tenants db = (r, db') -> registry_step db db'
| step_update cluster version capacity tenants r db' :
    report_typed capacity -> Update cluster version capacity tenants db = (r, db') -> registry_step db db'.

Lemma Cluster_Validate_iff cluster now :
  Cluster_Validate cluster now = Ok tt <->
  clusterIDPattern (ec_ID cluster) = true /\ clusterRegionPattern (ec_Region cluster) = true /\
  (ec_Status cluster = ClusterActive \/ ec_Status cluster = ClusterUnavailable) /\
  1 <= ec_SchedulingWeight cluster <= 1000 /\ 0 <= ec_CPUCostMinorUnits cluster /\
  0 <= ec_MemoryGiBCostMinorUnits cluster /\ 1 <= ec_Version cluster /\ ec_LastHeartbeatAt cluster <> 0 /\
  ec_LastHeartbeatAt cluster <= now + Minute /\
  validClusterValues (ec_SupportedRuntimes cluster) 64 = true /\
  validClusterValues (ec_SupportedExecutionProfiles cluster) 32 = true.
Proof.
  unfold Cluster_Validate. rewrite failIf_ok, !orb_false_iff, andb_false_iff, !negb_false_iff, !bool_decide_eq_true.
  unfold IsZero, After, Add, UTC. split.
  - intros. destruct_and!. split_and!; try done; lia.
  - intros. destruct_and!. split_and!; try done; lia.
Qed.

Lemma Capacity_Validate_iff capacity now :
  Capacity_Validate capacity now = Ok tt <->
  cc_ClusterID capacity <> EmptyString /\ cc_ObservedAt capacity <> 0 /\ cc_ObservedAt capacity <= now + Minute /\
  0 <= cc_AllocatableCPUMillis capacity /\ 0 <= cc_AllocatableMemoryMiB capacity /\ 0 <= cc_QueuedWorkloads capacity.
Proof.
  unfold Capacity_Validate. rewrite failIf_ok, !orb_false_iff, bool_decide_eq_false.
  unfold IsZero, After, Add, UTC. split; intros; destruct_and!; split_and!; try done; lia.
Qed.

Lemma is_ok_unit (r : res unit) : is_ok r = true <-> r = Ok tt.
Proof. destruct r as [[]|]; done. Qed.

Lemma validateClusterWrite_ok cluster capacity tenants now :
  validateClusterWrite cluster capacity tenants now = Ok tt ->
  Cluster_Validate cluster now = Ok tt /\ Capacity_Validate capacity now = Ok tt /\
  cc_ClusterID capacity = ec_ID cluster /\ NoDup tenants /\
  (ec_TenantRestricted cluster = true -> exists t, t ∈ tenants).
Proof.
  unfold validateClusterWrite. intros Hv. apply bind_ok in Hv as ([] & Hc & Hv).
  apply bind_ok in Hv as ([] & Hm%failIf_ok & Hv). apply bind_ok in Hv as ([] & Hu%failIf_ok & Hv%failIf_ok).
  apply orb_false_iff in Hm as [Hm%negb_false_iff%is_ok_unit Hid%negb_false_iff%bool_decide_eq_true].
  apply negb_false_iff, uniqueLoop_spec in Hu as (_ & Hnd & _). split_and!; try done.
  intros Hr. rewrite Hr in Hv. destruct tenants as [|t tenants]; [done|]. exists t. by left.
Qed.

(** ** The effect of a write *)

Lemma insertAllowlist_spec clusterID tenants db u db' :
  insertAllowlist clusterID tenants db = Ok (u, db') ->
  exists allowed, db' = db <| db_allowlist := allowed |> /\
    (forall e, e ∈ allowed <-> e ∈ db_allowlist db \/ (e.1 = clusterID /\ e.2 ∈ tenants)) /\
    forall t, t ∈ tenants -> is_Some (db_tenants db !! t).
Proof.
  revert db. induction tenants as [|t tenants IH]; intros db; cbn [insertAllowlist].
  { intros Hr. tx_inv. exists (db_allowlist db). split; [by destruct db|]. split; [|set_solver]. set_solver. }
  intros Hr. apply tx_bind_ok in Hr as (? & ? & [-> ->]%query_ok & Hr). unfold id in Hr.
  apply tx_bind_ok in Hr as ([] & ? & [_ ->]%abortIf_ok & Hr).
  apply tx_bind_ok in Hr as ([] & ? & [Ht%bool_decide_eq_false ->]%abortIf_ok & Hr).
  apply tx_bind_ok in Hr as ([] & ? & ->%modify_ok & Hr). apply IH in Hr as (allowed & -> & Hin & Hts).
  simpl in Hin, Hts. exists allowed. split; [done|]. split.
  - intros [c t']. rewrite Hin. set_solver.
  - intros t' [->|Ht']%elem_of_cons; [|auto]. by apply not_eq_None_Some.
Qed.

Lemma writeCapacityAndAllowlist_spec capacity tenants db u db' :
  writeCapacityAndAllowlist capacity tenants db = Ok (u, db') ->
  let cid := cc_ClusterID capacity in
  cc_QueuedWorkloads capacity < 2 ^ 31 /\ db_snapshots db !! (cid, pgTime (cc_ObservedAt capacity)) = None /\
  exists allowed,
    db' = db <| db_snapshots := <[(cid, pgTime (cc_ObservedAt capacity)) := pgCapacity capacity]> (db_snapshots db) |>
             <| db_allowlist := allowed |> /\
    (forall e, e ∈ allowed <-> (e.1 <> cid /\ e ∈ db_allowlist db) \/ (e.1 = cid /\ e.2 ∈ tenants)) /\
    forall t, t ∈ tenants -> is_Some (db_tenants db !! t).
Proof.
  intros Hw cid. unfold writeCapacityAndAllowlist in Hw. apply tx_bind_ok in Hw as ([] & db1 & Hs & Hw).
  apply tx_bind_ok in Hw as ([] & db2 & Hd & Hw). unfold deleteAllowlist in Hd. apply modify_ok in Hd as ->.
  unfold insertSnapshot, integerColumns in Hs. apply tx_bind_ok in Hs as ([] & ? & [Hq ->]%abortIf_ok & Hs).
  apply tx_bind_ok in Hs as (? & ? & [-> ->]%query_ok & Hs). unfold id in Hs.
  apply tx_bind_ok in Hs as ([] & ? & [Hk%bool_decide_eq_false ->]%abortIf_ok & Hs). rewrite <-eq_None_not_Some in Hk.
  apply tx_bind_ok in Hs as ([] & ? & [_ ->]%abortIf_ok & ->%modify_ok).
  apply insertAllowlist_spec in Hw as (allowed & -> & Hin & Ht). simpl in Hin, Ht.
  apply negb_false_iff in Hq. cbn [forallb] in Hq. rewrite andb_true_r, bool_decide_eq_true in Hq.
  split; [lia|]. split; [done|]. exists allowed. split; [done|]. split; [|done].
  intros e. rewrite Hin, elem_of_filter. done.
Qed.

(** A write that committed: the cluster row, one more snapshot, and the allow
    list of the cluster replaced; nothing else changes. *)
Definition writes (cluster : ExecutionCluster) (capacity : ClusterCapacity) (tenants : list UUID) (db db' : DB) : Prop :=
  let key := (ec_ID cluster, pgTime (cc_ObservedAt capacity)) in
  db_snapshots db !! key = None /\
  exists allowed,
    db' = db <| db_clusters := <[ec_ID cluster := cluster]> (db_clusters db) |>
             <| db_snapshots := <[key := pgCapacity capacity]> (db_snapshots db) |>
             <| db_allowlist := allowed |> /\
    (forall e, e ∈ allowed <-> (e.1 <> ec_ID cluster /\ e ∈ db_allowlist db) \/ (e.1 = ec_ID cluster /\ e.2 ∈ tenants)) /\
    forall t, t ∈ tenants -> is_Some (db_tenants db !! t).

Lemma written_ok cluster capacity tenants db :
  integerColumns [ec_SchedulingWeight cluster; ec_CPUCostMinorUnits cluster; ec_MemoryGiBCostMinorUnits cluster] db
    = Ok (tt, db) ->
  validateClusterWrite cluster capacity tenants (ec_UpdatedAt cluster) = Ok tt -> cluster_ok (pgCluster cluster).
Proof.
  intros [Hi _]%abortIf_ok (Hc & _)%validateClusterWrite_ok. apply Cluster_Validate_iff in Hc.
  apply negb_false_iff in Hi. cbn [forallb] in Hi. rewrite !andb_true_iff, !bool_decide_eq_true in Hi.
  destruct_and!. split; simpl; try done; lia.
Qed.

Lemma Register_spec cluster capacity tenants db u db' :
  Register cluster capacity tenants db = (Ok u, db') ->
  validateClusterWrite cluster capacity tenants (ec_UpdatedAt cluster) = Ok tt /\
  db_clusters db !! ec_ID cluster = None /\ cluster_ok (pgCluster cluster) /\ cc_QueuedWorkloads capacity < 2 ^ 31 /\
  writes (pgCluster cluster) capacity tenants db db'.
Proof.
  unfold Register. destruct (validateClusterWrite _ _ _ _) as [[]|e] eqn:Hv; [|done]. intros Hr%transact_ok.
  unfold registerTx in Hr. apply tx_bind_ok in Hr as ([] & ? & Hi & Hr).
  pose proof (proj2 (proj1 (abortIf_ok _ _ _ _ _) Hi)) as ->. pose proof (written_ok _ _ _ _ Hi Hv) as Hok.
  apply tx_bind_ok in Hr as (? & ? & [-> ->]%query_ok & Hr). unfold id in Hr.
  apply tx_bind_ok in Hr as ([] & ? & [Hn%bool_decide_eq_false ->]%abortIf_ok & Hr). rewrite <-eq_None_not_Some in Hn.
  apply tx_bind_ok in Hr as ([] & ? & ->%modify_ok & Hr).
  apply writeCapacityAndAllowlist_spec in Hr as (Hq & Hs & allowed & -> & Hin & Ht).
  pose proof (validateClusterWrite_ok _ _ _ _ Hv) as (_ & _ & Hid & _). simpl in *. rewrite Hid in *.
  split_and!; try done. split; [done|]. exists allowed. done.
Qed.

Lemma Update_spec cluster version capacity tenants db result db' :
  Update cluster version capacity tenants db = (Ok result, db') ->
  validateClusterWrite cluster capacity tenants (ec_UpdatedAt cluster) = Ok tt /\ result = cluster /\
  cluster_ok (pgCluster cluster) /\ cc_QueuedWorkloads capacity < 2 ^ 31 /\ ec_Version cluster = add64 version 1 /\
  exists stored, db_clusters db !! ec_ID cluster = Some stored /\ ec_Version stored = version /\
    writes ((pgCluster cluster) <| ec_CreatedAt := ec_CreatedAt stored |>) capacity tenants db db'.
Proof.
  unfold Update. destruct (_ || _) eqn:Hg; [done|]. apply orb_false_iff in Hg as [_ Hver%negb_false_iff%Z.eqb_eq].
  destruct (validateClusterWrite _ _ _ _) as [[]|e] eqn:Hv; [|done]. intros Hr%transact_ok.
  unfold updateTx in Hr. apply tx_bind_ok in Hr as ([] & ? & Hi & Hr).
  pose proof (proj2 (proj1 (abortIf_ok _ _ _ _ _) Hi)) as ->. pose proof (written_ok _ _ _ _ Hi Hv) as Hok.
  apply tx_bind_ok in Hr as (? & ? & [-> ->]%query_ok & Hr). unfold id in Hr.
  destruct (db_clusters db !! ec_ID cluster) as [stored|] eqn:Hst; [|by tx_inv].
  apply tx_bind_ok in Hr as ([] & ? & [Hsv%negb_false_iff%Z.eqb_eq ->]%abortIf_ok & Hr).
  apply tx_bind_ok in Hr as ([] & ? & ->%modify_ok & Hr). apply tx_bind_ok in Hr as ([] & db2 & Hr & Hret).
  apply tx_ret_ok in Hret as [-> ->]. apply writeCapacityAndAllowlist_spec in Hr as (Hq & Hs & allowed & -> & Hin & Ht).
  pose proof (validateClusterWrite_ok _ _ _ _ Hv) as (_ & _ & Hid & _). simpl in *. rewrite Hid in *.
  split_and!; try done. exists stored. split_and!; try done. split; [done|]. exists allowed. done.
Qed.

Lemma writes_inv cluster capacity tenants db db' :
  registry_inv db -> cluster_ok cluster -> snapshot_ok capacity -> cc_ClusterID capacity = ec_ID cluster ->
  (ec_TenantRestricted cluster = true -> exists t, t ∈ tenants) ->
  writes cluster capacity tenants db db' -> registry_inv db'.
Proof.
  intros Hinv Hok Hsok Hid Hres (_ & allowed & -> & Hin & Ht).
  assert (Hkept : forall id, is_Some (db_clusters db !! id) ->
    is_Some (<[ec_ID cluster := cluster]> (db_clusters db) !! id)).
  { intros id Hs. rewrite lookup_insert_is_Some. destruct (decide (ec_ID cluster = id)); auto. }
  split; simpl.
  - intros id c [[<- <-]|[_ Hc]]%lookup_insert_Some; [done|]. by apply (rg_clusters _ Hinv).
  - intros id t s [[Hk <-]|[_ Hs]]%lookup_insert_Some.
    + injection Hk as <- <-. simpl. split_and!; try done; [by destruct Hsok|]. rewrite lookup_insert_eq. done.
    + destruct (rg_snapshots _ Hinv _ _ _ Hs) as (? & ? & ? & ?). auto.
  - intros id c [[<- _]|[Hne Hc]]%lookup_insert_Some.
    + do 2 eexists. apply lookup_insert_eq.
    + destruct (rg_observed _ Hinv _ _ Hc) as (t & s & Hs). exists t, s.
      rewrite lookup_insert_ne; [done|]. intros [= ? _]. done.
  - intros id t [[_ [? ?]%(rg_allowed _ Hinv)]|[Heq Hin']]%Hin; [auto|]. simpl in Heq, Hin'. subst id.
    split; [|auto]. rewrite lookup_insert_eq. done.
  - intros id c [[<- <-]|[Hne Hc]]%lookup_insert_Some Hr.
    + destruct (Hres Hr) as [t Ht']. exists t. apply Hin. by right.
    + destruct (rg_restricted _ Hinv _ _ Hc Hr) as [t Ht']. exists t. apply Hin. left. auto.
Qed.

Lemma validated_snapshot cluster capacity tenants now :
  validateClusterWrite cluster capacity tenants now = Ok tt -> report_typed capacity ->
  cc_QueuedWorkloads capacity < 2 ^ 31 -> snapshot_ok capacity.
Proof.
  intros (_ & (_ & _ & _ & ? & ? & ?)%Capacity_Validate_iff & _)%validateClusterWrite_ok [? ?] ?.
  unfold in_int64 in *. split; lia.
Qed.

Lemma registry_step_inv db db' : registry_inv db -> registry_step db db' -> registry_inv db'.
Proof.
  intros Hinv [cluster capacity tenants [u|e] db1 Hty Hr|cluster version capacity tenants [result|e] db1 Hty Hr].
  - apply Register_spec in Hr as (Hv & _ & Hok & Hq & Hw). pose proof (validated_snapshot _ _ _ _ Hv Hty Hq).
    apply validateClusterWrite_ok in Hv as (_ & _ & Hid & _ & Hres). by eapply writes_inv.
  - unfold Register in Hr. destruct (validateClusterWrite _ _ _ _); [|naive_solver]. by apply transact_err in Hr as ->.
  - apply Update_spec in Hr as (Hv & _ & Hok & Hq & _ & stored & _ & _ & Hw).
    pose proof (validated_snapshot _ _ _ _ Hv Hty Hq).
    apply validateClusterWrite_ok in Hv as (_ & _ & Hid & _ & Hres). refine (writes_inv _ _ _ _ _ Hinv _ _ _ _ Hw); try done. by destruct Hok.
  - unfold Update in Hr. destruct (_ || _); [naive_solver|]. destruct (validateClusterWrite _ _ _ _); [|naive_solver].
    by apply transact_err in Hr as ->.
Qed.

(** ** What the queries return *)

Lemma foldl_newer_le first rest s :
  s ∈ first :: rest -> cc_ObservedAt s <= cc_ObservedAt (foldl newer first rest).
Proof.
  revert first s. induction rest as [|b rest IH]; intros first s Hs; simpl.
  { apply list_elem_of_singleton in Hs as ->. lia. }
  assert (Hn : cc_ObservedAt first <= cc_ObservedAt (newer first b) /\ cc_ObservedAt b <= cc_ObservedAt (newer first b)).
  { unfold newer. case_match; lia. }
  pose proof (IH (newer first b) (newer first b) ltac:(by left)).
  apply elem_of_cons in Hs as [->|[->|Hs]%elem_of_cons]; [lia..|]. apply IH. by right.
Qed.

Lemma snapshots_of db clusterID s :
  s ∈ omap (fun '((id, _), snapshot) => if decide (id = clusterID) then Some snapshot else None)
        (map_to_list (db_snapshots db)) <-> exists t, db_snapshots db !! (clusterID, t) = Some s.
Proof.
  rewrite list_elem_of_omap. split.
  - intros ([[id t] s'] & Hin%elem_of_map_to_list & Hs). case_decide; [|done]. injection Hs as <-. subst id. eauto.
  - intros [t Ht]. exists ((clusterID, t), s). rewrite elem_of_map_to_list. split; [done|]. by rewrite decide_True.
Qed.

Lemma latestSnapshot_spec db clusterID s :
  latestSnapshot db clusterID = Some s ->
  (exists t, db_snapshots db !! (clusterID, t) = Some s) /\
  forall t s', db_snapshots db !! (clusterID, t) = Some s' -> cc_ObservedAt s' <= cc_ObservedAt s.
Proof.
  pose proof (snapshots_of db clusterID) as Hof. unfold latestSnapshot.
  destruct (omap _ _) as [|first rest] eqn:E; [done|]. intros Hs%(inj Some). subst s. split.
  - apply Hof, foldl_newer_snapshot.
  - intros t s' Hs'. apply foldl_newer_le, Hof. eauto.
Qed.

Lemma latestSnapshot_some db clusterID t s :
  db_snapshots db !! (clusterID, t) = Some s -> is_Some (latestSnapshot db clusterID).
Proof.
  pose proof (snapshots_of db clusterID s) as Hof. unfold latestSnapshot.
  destruct (omap _ _) as [|first rest] eqn:E; [|done]. intros Hs.
  assert (Hin : s ∈ @nil ClusterCapacity) by (apply Hof; eauto). by apply not_elem_of_nil in Hin.
Qed.

Lemma clusterSelect_spec db c s :
  registry_inv db ->
  (c, s) ∈ clusterSelect db <-> db_clusters db !! ec_ID c = Some c /\ latestSnapshot db (ec_ID c) = Some s.
Proof.
  intros Hinv. unfold clusterSelect. rewrite list_elem_of_omap. split.
  - intros ([id c'] & Hin%elem_of_map_to_list & Hs). destruct (latestSnapshot db id) as [s'|] eqn:El; [|done].
    simpl in Hs. injection Hs as -> ->. destruct (rg_clusters _ Hinv _ _ Hin) as [<- _]. done.
  - intros [Hc Hs]. exists (ec_ID c, c). rewrite elem_of_map_to_list, Hs. done.
Qed.

Lemma Get_stored db id c :
  registry_inv db -> db_clusters db !! id = Some c ->
  exists s, latestSnapshot db id = Some s /\ Get id db = Ok (c, s).
Proof.
  intros Hinv Hc. destruct (rg_clusters _ Hinv _ _ Hc) as [Hid _].
  destruct (rg_observed _ Hinv _ _ Hc) as (t & s0 & Hs0). destruct (latestSnapshot_some _ _ _ _ Hs0) as [s Hs].
  exists s. split; [done|]. unfold Get. erewrite (head_filter_unique _ _ (c, s)); [done|..].
  - apply clusterSelect_spec; [done|]. by rewrite Hid.
  - done.
  - intros [c' s'] [Hc' Hs']%clusterSelect_spec He; [|done]. simpl in He. rewrite He in *. congruence.
Qed.

Lemma clusterSelect_NoDup db : registry_inv db -> NoDup ((fun row => ec_ID row.1) <$> clusterSelect db).
Proof.
  intros Hinv. unfold clusterSelect.
  assert (Hall : forall id c, (id, c) ∈ map_to_list (db_clusters db) -> ec_ID c = id).
  { intros id c Hin%elem_of_map_to_list. by apply (rg_clusters _ Hinv). }
  pose proof (NoDup_fst_map_to_list (db_clusters db)) as Hnd. revert Hnd Hall.
  induction (map_to_list (db_clusters db)) as [|[id c] rest IH]; intros Hnd Hall; [constructor|].
  rewrite fmap_cons in Hnd. apply NoDup_cons in Hnd as [Hnin Hnd].
  specialize (IH Hnd ltac:(intros; apply Hall; by right)). cbn [omap list_omap].
  destruct (latestSnapshot db id) as [s|]; cbn [fmap option_fmap option_map]; [|done].
  cbn [fmap list_fmap fst]. apply NoDup_cons. split; [|done].
  rewrite (Hall id c) by (by left). intros ([c' s'] & Heq & Hin)%list_elem_of_fmap. apply Hnin.
  apply list_elem_of_omap in Hin as ([id' c''] & Hin & Hs).
  destruct (latestSnapshot db id'); [|done]. injection Hs as -> ->. simpl in Heq. subst id.
  rewrite (Hall id' c') by (by right). by apply (list_elem_of_fmap_2 fst) in Hin.
Qed.

Section CandidateSpec.
Context `{Collation}.

Lemma ListCandidates_spec tenantID runtime profile now freshness db candidates :
  ListCandidates tenantID runtime profile now freshness db = Ok candidates ->
  now <> 0 /\ 0 < freshness /\
  candidates ≡ₚ (fun row => {| cand_Cluster := row.1; cand_Capacity := row.2 |}) <$>
    filter (fun row => placeable db row.1 row.2 tenantID runtime profile now freshness = true) (clusterSelect db).
Proof.
  unfold ListCandidates. intros ([] & Hg%failIf_ok & <-%Ok_inj)%bind_ok. reflect_bools. unfold IsZero in *.
  split; [lia|]. split; [lia|]. apply merge_sort_Permutation.
Qed.

Lemma ListCandidates_elem tenantID runtime profile now freshness db candidates c :
  registry_inv db -> ListCandidates tenantID runtime profile now freshness db = Ok candidates ->
  c ∈ candidates <->
  db_clusters db !! ec_ID (cand_Cluster c) = Some (cand_Cluster c) /\
  latestSnapshot db (ec_ID (cand_Cluster c)) = Some (cand_Capacity c) /\
  placeable db (cand_Cluster c) (cand_Capacity c) tenantID runtime profile now freshness = true.
Proof.
  intros Hinv (_ & _ & ->)%ListCandidates_spec. rewrite list_elem_of_fmap. split.
  - intros ([cl s] & -> & [Hp Hin]%list_elem_of_filter). apply clusterSelect_spec in Hin; naive_solver.
  - intros (Hc & Hs & Hp). exists (cand_Cluster c, cand_Capacity c). split; [by destruct c|].
    apply list_elem_of_filter. split; [done|]. by apply clusterSelect_spec.
Qed.

Lemma candidates_bounded tenantID runtime profile now freshness db candidates :
  registry_inv db -> ListCandidates tenantID runtime profile now freshness db = Ok candidates ->
  Forall bounded_candidate candidates /\ NoDup ((fun c => ec_ID (cand_Cluster c)) <$> candidates).
Proof.
  intros Hinv Hl. split.
  - apply Forall_forall. intros c Hc. apply (ListCandidates_elem _ _ _ _ _ _ _ c Hinv Hl) in Hc as (Hc & Hs & _).
    destruct (rg_clusters _ Hinv _ _ Hc) as [_ []]. apply latestSnapshot_spec in Hs as [[t Hs] _].
    destruct (rg_snapshots _ Hinv _ _ _ Hs) as (_ & _ & [] & _). unfold bounded_candidate. lia.
  - apply ListCandidates_spec in Hl as (_ & _ & ->). rewrite <-list_fmap_compose.
    pose proof (clusterSelect_NoDup db Hinv) as Hnd. revert Hnd.
    induction (clusterSelect db) as [|row rows IH]; [constructor|]. rewrite fmap_cons, filter_cons.
    intros [Hnin Hnd]%NoDup_cons. case_decide; [|auto]. rewrite fmap_cons. apply NoDup_cons. split; [|auto].
    intros (r & He & [_ Hr]%list_elem_of_filter)%list_elem_of_fmap. apply Hnin. simpl in He. rewrite He.
    by apply (list_elem_of_fmap_2 (fun row => ec_ID row.1)).
Qed.

(** No heartbeat or observation is more than the tolerated minute ahead of [now]. *)
Definition clocks_agree (now : Time) (db : DB) : Prop :=
  (forall id c, db_clusters db !! id = Some c -> ec_LastHeartbeatAt c <= now + Minute) /\
  (forall k s, db_snapshots db !! k = Some s -> cc_ObservedAt s <= now + Minute).

Lemma placeable_fresh db cluster capacity tenantID runtime profile now freshness :
  placeable db cluster capacity tenantID runtime profile now freshness = true -> freshness + 1000 <= now ->
  0 < ec_LastHeartbeatAt cluster /\ 0 < cc_ObservedAt capacity.
Proof.
  unfold placeable, Add, UTC. intros Hp Hf. pose proof (pgTime_bounds (now + - freshness)). reflect_bools. lia.
Qed.

Lemma candidate_admitted tenantID runtime profile now freshness db cluster capacity :
  registry_inv db -> clocks_agree now db -> freshness + 1000 <= now ->
  db_clusters db !! ec_ID cluster = Some cluster -> latestSnapshot db (ec_ID cluster) = Some capacity ->
  placeable db cluster capacity tenantID runtime profile now freshness = true ->
  lockEligibleCluster tenantID (ec_ID cluster) runtime profile now freshness db = Ok ((cluster, capacity), db).
Proof.
  intros Hinv [Hhb Hob] Hf Hc Hs Hp. unfold lockEligibleCluster. erewrite tx_step by reflexivity. unfold id.
  rewrite Hc, Hs. destruct (placeable_fresh _ _ _ _ _ _ _ _ Hp Hf).
  destruct (rg_clusters _ Hinv _ _ Hc) as [_ []]. apply latestSnapshot_spec in Hs as [[t Hs] _].
  destruct (rg_snapshots _ Hinv _ _ _ Hs) as (Hid & _ & [] & _). specialize (Hhb _ _ Hc). specialize (Hob _ _ Hs).
  erewrite tx_step by (apply abortIf_false; by rewrite Hp).
  erewrite tx_step; [|apply abortIf_false, negb_false_iff, is_ok_unit, Cluster_Validate_iff; split_and!; try done; lia].
  erewrite tx_step; [done|]. apply abortIf_false, negb_false_iff, is_ok_unit, Capacity_Validate_iff.
  split_and!; try done; try lia. intros He. rewrite Hid in He. by rewrite He in *.
Qed.
End CandidateSpec.

Lemma registry_inv_reached db0 db :
  db_clusters db0 = ∅ -> db_snapshots db0 = ∅ -> db_allowlist db0 = ∅ -> rtc registry_step db0 db -> registry_inv db.
Proof.
  intros Hc Hs Ha. assert (H0 : registry_inv db0) by (split; rewrite ?Hc, ?Hs, ?Ha; set_solver).
  clear Hc Hs Ha. induction 1 as [|db1 db2 db3 Hstep _ IH]; [done|]. apply IH. by eapply registry_step_inv.
Qed.

(** ** Theorems *)

(** every registry reached from an empty one by any sequence of
    registrations and updates, successful or not, is well formed: each cluster
    is stored under its own, valid identity with weights and prices in range, it
    has a capacity snapshot, snapshots and allow-list entries belong to stored
    clusters and tenants, and a tenant-restricted cluster allows at least one
    tenant.  Looking a stored cluster up always answers, with its newest snapshot. *)
Theorem registry_sound db0 db :
  db_clusters db0 = ∅ -> db_snapshots db0 = ∅ -> db_allowlist db0 = ∅ -> rtc registry_step db0 db ->
  registry_inv db /\
  forall id c, db_clusters db !! id = Some c ->
    exists s, Get id db = Ok (c, s) /\ cc_ClusterID s = id /\
      forall t s', db_snapshots db !! (id, t) = Some s' -> t <= cc_ObservedAt s.
Proof.
  intros Hc Hs Ha Hsteps. assert (Hinv : registry_inv db) by (by eapply registry_inv_reached). split; [done|]. intros id c Hst. destruct (Get_stored _ _ _ Hinv Hst) as (s & Hl & Hg). exists s. split; [done|].
  apply latestSnapshot_spec in Hl as [[t Ht] Hmax]. destruct (rg_snapshots _ Hinv _ _ _ Ht) as [Hid _]. split; [done|].
  intros t' s' Hs'. pose proof (Hmax _ _ Hs'). destruct (rg_snapshots _ Hinv _ _ _ Hs') as (_ & <- & _). done.
Qed.

(** registry updates are optimistic. An update succeeds only on a stored
    cluster at the expected version, writes the next version, keeps the creation
    time, allows exactly the given tenants and changes no other cluster; after
    it, no update based on the same version succeeds or changes anything. A
    failed update changes nothing. *)
Theorem Update_optimistic cluster version capacity tenants db r db' :
  in_int64 version -> Update cluster version capacity tenants db = (r, db') ->
  match r with
  | Err _ => db' = db
  | Ok stored =>
      exists before after, db_clusters db !! ec_ID cluster = Some before /\ ec_Version before = version /\
        db_clusters db' = <[ec_ID cluster := after]> (db_clusters db) /\
        after = (pgCluster stored) <| ec_CreatedAt := ec_CreatedAt before |> /\ ec_Version after = version + 1 /\
        (forall t, (ec_ID cluster, t) ∈ db_allowlist db' <-> t ∈ tenants) /\
        (forall e, e.1 <> ec_ID cluster -> e ∈ db_allowlist db' <-> e ∈ db_allowlist db) /\
        forall cluster' capacity' tenants', ec_ID cluster' = ec_ID cluster ->
          exists e, Update cluster' version capacity' tenants' db' = (Err e, db')
  end.
Proof.
  intros Hty Hu. destruct r as [stored|e]; cycle 1.
  { unfold Update in Hu. destruct (_ || _); [naive_solver|]. destruct (validateClusterWrite _ _ _ _); [|naive_solver].
    by apply transact_err in Hu as ->. }
  apply Update_spec in Hu as (_ & -> & Hok & _ & Hver & before & Hb & Hv & _ & allowed & -> & Hin & _).
  assert (Hnext : ec_Version cluster = version + 1).
  { pose proof (co_version _ Hok) as Hpos. simpl in Hpos. rewrite Hver in Hpos |- *.
    destruct (decide (version + 1 < 2 ^ 63)); [apply add64_small; unfold in_int64 in *; lia|].
    assert (version = 2 ^ 63 - 1) as -> by (unfold in_int64 in *; lia). by vm_compute in Hpos. }
  exists before, ((pgCluster cluster) <| ec_CreatedAt := ec_CreatedAt before |>). split_and!; try done.
  - intros t. rewrite Hin. simpl. naive_solver.
  - intros [c t] Hne. rewrite Hin. simpl in *. naive_solver.
  - intros cluster' capacity' tenants' Hid. destruct (Update cluster' version capacity' tenants' _) as [[c|e] db2] eqn:E.
    + apply Update_spec in E as (_ & _ & _ & _ & _ & st & Hst & Hsv & _). simpl in Hst.
      rewrite Hid, lookup_insert_eq in Hst. apply (inj Some) in Hst. subst st. simpl in Hsv. lia.
    + exists e. f_equal. unfold Update in E. destruct (_ || _); [naive_solver|].
      destruct (validateClusterWrite _ _ _ _); [|naive_solver]. by apply transact_err in E as ->.
Qed.


(** ** Examples *)

(** A check evaluated over every row of a table. *)
Lemma forallb_stored `{Countable K} {A} (f : A -> bool) (m : gmap K A) k a :
  forallb (fun kv => f kv.2) (map_to_list m) = true -> m !! k = Some a -> f a = true.
Proof.
  rewrite forallb_forall. intros Hall Hk%elem_of_map_to_list. apply (Hall (k, a)). by apply list_elem_of_In.
Qed.

Definition example_registration : ExecutionCluster :=
  example_cluster <| ec_TenantRestricted := true |>.

Definition example_report (observed : Time) : ClusterCapacity :=
  {| cc_ClusterID := "cluster-a"; cc_ObservedAt := observed; cc_AllocatableCPUMillis := 4000;
     cc_AllocatableMemoryMiB := 8192; cc_QueuedWorkloads := 0 |}.

Definition example_unregistered : DB := emptyDB <| db_tenants := {[exampleTenant := "ACTIVE"]} |>.

Definition example_registered : DB :=
  (Register example_registration (example_report exampleNow) [exampleTenant] example_unregistered).2.

Definition example_refresh : ExecutionCluster :=
  example_registration <| ec_Version := 2 |> <| ec_LastHeartbeatAt := exampleNow + Minute |>
    <| ec_UpdatedAt := exampleNow + Minute |>.

Lemma example_registers : rtc registry_step example_unregistered example_registered.
Proof.
  eapply rtc_l, rtc_refl.
  refine (step_register _ example_registration (example_report exampleNow) [exampleTenant] (Ok tt) _ _ _).
  - done.
  - unfold example_registered. destruct (Register _ _ _ _) as [r db'] eqn:E. pose proof (f_equal fst E) as Hr.
    vm_compute in Hr. by subst r.
Qed.

Lemma example_lookup : db_clusters example_registered !! "cluster-a" = Some example_registration.
Proof. vm_compute. reflexivity. Qed.

Lemma registry_sound_witness :
  exists s, Get "cluster-a" example_registered = Ok (example_registration, s) /\ cc_ClusterID s = "cluster-a".
Proof.
  destruct (registry_sound example_unregistered example_registered eq_refl eq_refl eq_refl example_registers) as [_ Hg].
  destruct (Hg _ _ example_lookup) as (s & Hs & Hid & _). exists s. exact (conj Hs Hid).
Defined.

Lemma Update_optimistic_witness :
  exists db', Update example_refresh 1 (example_report (exampleNow + Minute)) [] example_registered
                = (Err (ErrPlain "restricted cluster requires an allowlist"), example_registered) /\
    Update example_refresh 1 (example_report (exampleNow + Minute)) [exampleTenant] example_registered
      = (Ok example_refresh, db') /\
    exists e, Update example_refresh 1 (example_report (exampleNow + 2 * Minute)) [exampleTenant] db' = (Err e, db').
Proof.
  destruct (Update example_refresh 1 (example_report (exampleNow + Minute)) [exampleTenant] example_registered)
    as [r db'] eqn:E. pose proof (f_equal fst E) as Hr. vm_compute in Hr. subst r.
  exists db'. split; [reflexivity|]. split; [reflexivity|].
  assert (Hone : in_int64 1) by (unfold in_int64; lia).
  destruct (Update_optimistic _ _ _ _ _ _ _ Hone E)
    as (before & after & _ & _ & _ & _ & _ & _ & _ & Hagain).
  apply Hagain. reflexivity.
Defined.

