(* ===== verification/SchedulerSteps.v ===== *)
(** * Schedulers sharing a store

    The transactions schedulers run against the shared store, as steps of one
    transition system: claims, renewals, eligibility decisions, the three
    scheduling decisions, reservation bookkeeping and registry writes, from any
    number of processes in any order.  The theorems show what every interleaving
    keeps, and that a claim is decided at most once. *)

From S2P Require Import Prelude AgentRun Policy Cluster Strategy Events Intent Store Reservations Queue SchedulingIntent Registry.

(** ** What every transaction keeps *)

Record scheduler_inv (db : DB) : Prop := {
  sv_keyed : store_keyed db;
  sv_reservations : reservation_inv db;
  sv_limits : store_limits db;
  sv_registry : registry_inv db;
}.

(** Rows stay, and a row that changes has a later version. *)
Definition versioned (db db' : DB) : Prop :=
  forall id row, db_runs db !! id = Some row ->
    exists row', db_runs db' !! id = Some row' /\ (row' = row \/ run_Version (rr_Run row) < run_Version (rr_Run row')).

#[export] Instance versioned_refl : Reflexive versioned.
Proof. intros db id row Hrow. eauto. Qed.

#[export] Instance versioned_trans : Transitive versioned.
Proof.
  intros db1 db2 db3 H12 H23 id row Hrow. destruct (H12 _ _ Hrow) as (row2 & Hrow2 & H2).
  destruct (H23 _ _ Hrow2) as (row3 & Hrow3 & H3). exists row3. split; [done|].
  destruct H2 as [->|H2]; [done|]. destruct H3 as [->|H3]; [by right|right; lia].
Qed.

Lemma versioned_same db db' : db_runs db' = db_runs db -> versioned db db'.
Proof. intros Heq id row Hrow. exists row. rewrite Heq. auto. Qed.

Lemma versioned_bumped change db db' id row :
  db_runs db !! id = Some row -> db_runs db' = <[id := bumped change row]> (db_runs db) -> versioned db db'.
Proof.
  intros Hrow Heq i r Hr. rewrite Heq. destruct (decide (id = i)) as [<-|Hne].
  - rewrite lookup_insert_eq. eexists. split; [done|]. right. rewrite Hrow in Hr. injection Hr as ->. simpl. lia.
  - rewrite lookup_insert_ne by done. eauto.
Qed.

(** Transactions that write runs only. *)
Lemma scheduler_inv_runs db m :
  scheduler_inv db ->
  (forall id row', m !! id = Some row' -> exists row, db_runs db !! id = Some row /\
     run_ID (rr_Run row') = run_ID (rr_Run row) /\ run_Version (rr_Run row) <= run_Version (rr_Run row')) ->
  scheduler_inv (db <| db_runs := m |>).
Proof.
  intros [[] Hres [] []] Hm. split; [|by apply (reservation_inv_ext db)|by split|by split].
  split; simpl; try done.
  - intros id row' Hrow. destruct (Hm _ _ Hrow) as (row & Hr & -> & _). by apply sk_runs.
  - intros id o runID row' Ho Hrun Hrow. destruct (Hm _ _ Hrow) as (row & Hr & _ & Hv).
    pose proof (sk_versions _ _ _ _ Ho Hrun Hr). lia.
Qed.

(** A row update leaves identities alone. *)
Definition keeps_identity (change : RunRow -> RunRow) : Prop :=
  forall row, run_ID (rr_Run (change row)) = run_ID (rr_Run row).

Lemma scheduler_inv_bumped change db id row :
  scheduler_inv db -> keeps_identity change -> db_runs db !! id = Some row ->
  scheduler_inv (db <| db_runs := <[id := bumped change row]> (db_runs db) |>).
Proof.
  intros Hinv Hch Hrow. apply scheduler_inv_runs; [done|]. intros i row'.
  intros [[<- <-]|[_ Hr]]%lookup_insert_Some; [|by exists row']. exists row. split; [done|]. split; [|simpl; lia].
  by simpl; rewrite Hch.
Qed.

(** ** Claims, renewals and eligibility decisions *)

Lemma claimRows_runs owner now expiry rows db claimed db' :
  NoDup (bs_ID <$> rows) -> (forall b, b ∈ rows -> db_runs db !! bs_ID b = Some (bs_Row b)) ->
  claimRows owner now expiry rows db = Ok (claimed, db') -> exists m, db' = db <| db_runs := m |>.
Proof.
  revert db claimed. induction rows as [|b rows IH]; intros db claimed Hnd Hst; cbn [claimRows].
  { intros Hr. tx_inv. exists (db_runs db). by destruct db. }
  rewrite fmap_cons in Hnd. apply NoDup_cons in Hnd as [Hnin Hnd]. intros Hr.
  apply tx_bind_ok in Hr as (c & db1 & Hc & Hr). apply tx_bind_ok in Hr as (cs & db2 & Hcs & Hr). tx_inv.
  unfold claimRow in Hc. apply tx_bind_ok in Hc as (n & db1' & Hu & Hc).
  apply (updateRunRow_hit _ _ _ _ _ _ _ (bs_Row b)) in Hu as (-> & _ & _ & ->); [|apply Hst; by left|done|done].
  apply tx_bind_ok in Hc as (att & ? & [_ ->]%queryRow_ok & Hc). tx_inv.
  apply IH in Hcs as [m ->]; [by exists m|done|].
  intros b' Hb'. simpl. rewrite lookup_insert_ne; [apply Hst; by right|]. intros Heq. apply Hnin.
  change (run_ID (rr_Run (bs_Row b))) with (bs_ID b) in Heq. rewrite Heq. by apply list_elem_of_fmap_2.
Qed.

Lemma Claim_runs held request db claimed db' :
  runs_keyed db -> Claim held request db = (Ok claimed, db') -> exists m, db' = db <| db_runs := m |>.
Proof.
  intros Hk Hcl. unfold Claim in Hcl. simpl in Hcl. case_match eqn:Hg; [done|]. apply transact_ok in Hcl.
  unfold claimTx in Hcl. apply tx_bind_ok in Hcl as (? & ? & [-> ->]%query_ok & Hcl).
  apply tx_bind_ok in Hcl as (base & ? & [Hb ->]%lift_tx_ok & Hcl). unfold id in Hb.
  eapply claimRows_runs; [| |exact Hcl].
  - apply lockedRows_NoDup. by eapply base_NoDup.
  - intros b [Hin _]%lockedRows_spec. destruct (base_rows_stored _ _ _ _ Hb Hin) as (_ & i & Hi).
    unfold bs_ID. by rewrite (Hk _ _ Hi).
Qed.

Lemma Claim_kept held request db r db' :
  scheduler_inv db -> Claim held request db = (r, db') -> scheduler_inv db' /\ versioned db db'.
Proof.
  intros Hinv Hcl. pose proof (sk_runs _ (sv_keyed _ Hinv)) as Hk. destruct r as [claimed|e]; cycle 1.
  { unfold Claim in Hcl. simpl in Hcl. case_match; [naive_solver|]. by apply transact_err in Hcl as ->. }
  destruct (Claim_runs _ _ _ _ _ Hk Hcl) as [m ->].
  apply Claim_ok in Hcl as (_ & _ & base & _ & _ & _ & Hin & Hout); [|done]. simpl in Hin, Hout.
  set (rows := lockedRows base held (scr_BatchSize request)) in *.
  assert (Hrow : forall id row, db_runs db !! id = Some row -> exists row', m !! id = Some row' /\
    (row' = row \/ exists now expiry owner, row' = leased owner now expiry row)).
  { intros id row Hr. destruct (decide (id ∈ bs_ID <$> rows)) as [(b & -> & Hb)%list_elem_of_fmap|Hn].
    - destruct (Hin b Hb) as [Hst Hl]. rewrite Hst in Hr. injection Hr as <-. eexists. split; [done|]. right. eauto.
    - exists row. rewrite Hout; auto. }
  split.
  - apply scheduler_inv_runs; [done|]. intros id row' Hr'.
    assert (Hs : is_Some (db_runs db !! id)).
    { destruct (decide (id ∈ bs_ID <$> rows)) as [(b & -> & Hb)%list_elem_of_fmap|Hn]; [by destruct (Hin b Hb) as [-> _]|].
      rewrite <-Hout by done. eauto. }
    destruct Hs as [row Hr]. exists row. split; [done|]. destruct (Hrow _ _ Hr) as (row2 & H2 & Hc).
    rewrite Hr' in H2. injection H2 as <-. destruct Hc as [->|(? & ? & ? & ->)]; [done|]. simpl. split; [done|lia].
  - intros id row Hr. destruct (Hrow _ _ Hr) as (row' & Hr' & Hc). exists row'. split; [done|].
    destruct Hc as [->|(? & ? & ? & ->)]; [by left|right]. simpl. lia.
Qed.

Section Steps.
Context `{UUIDs} `{NetURL}.

Lemma Renew_cases tenantID runID owner version now lease db r db' :
  Renew tenantID runID owner version now lease db = (r, db') ->
  (is_ok r = false /\ db' = db) \/
  (r = Ok (version + 1) /\ 0 < lease /\ 1 <= version /\ now <> 0 /\ TrimSpace owner <> EmptyString /\
   exists row, db_runs db !! runID = Some row /\ renewable row tenantID (TrimSpace owner) version now = true /\
     in_int64 (version + 1) /\
     db' = db <| db_runs := <[runID := renewed now lease row]> (db_runs db) |>).
Proof.
  unfold Renew. destruct (_ || _) eqn:Hg; [intros [= <- <-]; by left|]. intros Ht.
  apply transact_cases in Ht as [(v & -> & Ht)|[? ->]]; [right|by left]. reflect_bools. unfold IsZero in *.
  unfold renewTx in Ht. apply tx_bind_ok in Ht as (row & ? & [-> ->]%query_ok & Ht).
  destruct (db_runs db !! runID) as [row|] eqn:Hrow; [|by tx_inv].
  destruct (renewable row tenantID (TrimSpace owner) version now) eqn:Hren; [|by case_match; tx_inv].
  apply tx_bind_ok in Ht as (n & db1 & Hu & Ht). tx_inv.
  pose proof Hren as Hr. unfold renewable in Hr. reflect_bools.
  eapply (updateRunRow_hit _ _ _ _ _ _ _ row) in Hu as (_ & _ & Hv & ->); [|done..|lia].
  split_and!; try done; try lia. by exists row.
Qed.

Lemma Renew_kept tenantID runID owner version now lease db r db' :
  scheduler_inv db -> Renew tenantID runID owner version now lease db = (r, db') ->
  scheduler_inv db' /\ versioned db db'.
Proof.
  intros Hinv [[_ ->]|(_ & _ & _ & _ & _ & row & Hrow & _ & _ & ->)]%Renew_cases; [done|]. split.
  - by apply scheduler_inv_bumped.
  - by eapply versioned_bumped.
Qed.

Lemma Evaluate_cases ide run now db r db' :
  Evaluate ide run now db = (r, db') -> exists m, db' = db <| db_eligibility := m |> /\
    (is_ok r = false -> db' = db).
Proof.
  unfold Evaluate. assert (Hid : db = db <| db_eligibility := db_eligibility db |>) by (by destruct db).
  destruct (_ || _); [intros [= <- <-]; eauto|]. intros Ht.
  apply transact_cases in Ht as [(d & -> & Ht)|[? ->]]; [|eauto]. unfold evaluateTx in Ht.
  apply tx_bind_ok in Ht as (? & ? & [_ ->]%queryRow_ok & Ht).
  apply tx_bind_ok in Ht as (p & db1 & Hp & Ht). unfold readSchedulingPolicy in Hp. apply query_ok in Hp as [-> ->].
  apply tx_bind_ok in Ht as (usage & db1 & Hu & Ht). pose proof (readSchedulingUsage_kept _ _ _ _ _ _ Hu) as ->.
  apply tx_bind_ok in Ht as (d' & ? & [_ ->]%lift_tx_ok & Ht).
  apply tx_bind_ok in Ht as (i & ? & [_ ->]%lift_tx_ok & Ht).
  apply tx_bind_ok in Ht as (u & db1 & Hi & Ht). unfold insertEligibilityRow in Hi. tx_inv. by eexists.
Qed.

Lemma Evaluate_kept ide run now db r db' :
  scheduler_inv db -> Evaluate ide run now db = (r, db') -> scheduler_inv db' /\ versioned db db'.
Proof.
  intros [[] Hres [] []] (m & -> & _)%Evaluate_cases. split; [|by apply versioned_same].
  split; [by split|by apply (reservation_inv_ext db)|by split|by split].
Qed.

(** ** The three decisions *)

(** The claim was current, and is not any more. *)
Definition decides (claim : ClaimedRun) (db db' : DB) : Prop :=
  exists row row', db_runs db !! cl_ID claim = Some row /\ run_Version (rr_Run row) = cl_Version claim /\
    run_Status (rr_Run row) = AgentRunScheduling /\ db_runs db' !! cl_ID claim = Some row' /\
    run_Version (rr_Run row') = cl_Version claim + 1 /\ rr_LeaseOwner row' = None.

Lemma store_keyed_decision change event id row db db' :
  store_keyed db -> keeps_identity change -> db_runs db !! id = Some row ->
  db_runs db' = <[id := bumped change row]> (db_runs db) ->
  (db_attempts db' = db_attempts db \/ exists aid a a', db_attempts db !! aid = Some a /\ att_ID a' = att_ID a /\
     att_RunID a' = att_RunID a /\ att_AttemptNumber a' = att_AttemptNumber a /\
     db_attempts db' = <[aid := a']> (db_attempts db)) ->
  db_clusters db' = db_clusters db -> env_RunID (oe_Envelope event) = Some id ->
  env_AggregateVersion (oe_Envelope event) = run_Version (rr_Run row) + 1 ->
  db_outbox db' = <[env_EventID (oe_Envelope event) := pendingRow event]> (db_outbox db) ->
  store_keyed db'.
Proof.
  intros Hk Hch Hrow Hr Ha Hc Hrun Hver Ho. split.
  - eapply runs_keyed_insert; [apply Hk| |done]. simpl. rewrite Hch. by apply (sk_runs _ Hk).
  - destruct Ha as [->|(aid & a & a' & Hst & Hid & _ & _ & ->)]; [apply Hk|].
    intros i x [[<- <-]|[_ Hx]]%lookup_insert_Some; [rewrite Hid; by apply (sk_attempts _ Hk)|by apply (sk_attempts _ Hk)].
  - destruct Ha as [->|(aid & a & a' & Hst & _ & Hri & Hn & Hat)]; [apply Hk|].
    by apply (attempts_update _ _ _ _ Hk Hst Hri Hn).
  - rewrite Hc. apply Hk.
  - rewrite Ho. intros i o [[<- <-]|[_ Hx]]%lookup_insert_Some; [done|by apply (sk_outbox _ Hk)].
  - rewrite Ho, Hr. intros i o runID row' Hx Hrid Hrow'.
    assert (Hnew : forall rid, env_RunID (oe_Envelope event) = Some rid -> rid = id) by congruence.
    apply lookup_insert_Some in Hrow' as [[<- <-]|[Hne Hrow']].
    + apply lookup_insert_Some in Hx as [[<- <-]|[_ Hx]]; simpl; [lia|].
      pose proof (sk_versions _ Hk _ _ _ _ Hx Hrid Hrow). lia.
    + apply lookup_insert_Some in Hx as [[<- <-]|[_ Hx]]; [by apply Hnew in Hrid as ->|].
      by apply (sk_versions _ Hk _ _ _ _ Hx Hrid Hrow').
Qed.

Lemma registry_inv_kept db db' : registry_kept db db' -> registry_inv db -> registry_inv db'.
Proof.
  intros (Ht & _ & _ & Hc & Hs & Ha & _) []. split; rewrite ?Ht, ?Hc, ?Hs, ?Ha; done.
Qed.

Lemma store_limits_kept db db' : registry_kept db db' -> store_limits db -> store_limits db'.
Proof. intros (_ & _ & Hp & _ & Hs & _) []. split; rewrite ?Hp, ?Hs; done. Qed.

Lemma unchanged_kept claim db : scheduler_inv db -> scheduler_inv db /\ versioned db db /\ (db = db \/ decides claim db db).
Proof. intros. split_and!; [done|done|by left]. Qed.

Lemma Schedule_kept idc idb ide request db r db' :
  scheduler_inv db -> Schedule idc idb ide request db = (r, db') ->
  scheduler_inv db' /\ versioned db db' /\ (db' = db \/ decides (si_Claim request) db db').
Proof.
  intros Hinv Hs. unfold Schedule in Hs.
  destruct (validateSchedulingIntent request) as [[]|e] eqn:Hval; [|injection Hs as <- <-; by apply unchanged_kept].
  apply transact_cases in Hs as [(result & -> & Hs)|[_ ->]]; [|by apply unchanged_kept]. unfold scheduleTx in Hs.
  apply tx_bind_ok in Hs as (locked & ? & (-> & row & Hrow & Hten & ->)%lockSchedulingRun_spec & Hs).
  case_bool_decide. { apply replaySchedulingIntent_kept in Hs as [-> _]. by apply unchanged_kept. }
  destruct Hinv as [Hk Hres Hlim Hreg].
  apply scheduleNew_spec in Hs as (Ha & Hinv' & Hlim'); try done; [|by apply Hk..].
  destruct Ha as (row1 & a & cluster & bundle & event & (Hr1 & _ & Hst & _ & Hver & _) & _ & Hat & _ & _ & _ & _ & _ & _ &
    _ & _ & _ & Er & Ea & [_ Eo] & _ & _ & Hrun & _ & Hev & _ & _ & Hkept & _).
  split_and!.
  - split; [|done|done|by eapply registry_inv_kept]. eapply (store_keyed_decision (assignedRow (si_Strategy request) (si_SelectionScore request) (si_Now request)) event _ row1); try done.
    + right. exists (si_AttemptID request), a,
        (bumpedAttempt (assignedAttempt (ec_ID cluster) (rr_ExecutionProfile row1) bundle (pgTime (si_Now request))) a).
      by split_and!.
    + by destruct Hkept as (_ & _ & _ & -> & _).
    + rewrite Hrun. f_equal. by apply (sk_runs _ Hk).
    + by rewrite Hev, Hver.
  - by eapply versioned_bumped.
  - right. exists row1. eexists. rewrite Er, lookup_insert_eq. split_and!; try done. simpl. by rewrite Hver.
Qed.

Lemma DeferCapacity_kept ide request db r db' :
  scheduler_inv db -> DeferCapacity ide request db = (r, db') ->
  scheduler_inv db' /\ versioned db db' /\ (db' = db \/ decides (cwr_Claim request) db db').
Proof.
  intros Hinv Hs. unfold DeferCapacity in Hs. destruct (_ || _); [injection Hs as <- <-; by apply unchanged_kept|].
  apply transact_cases in Hs as [(result & -> & Hs)|[_ ->]]; [|by apply unchanged_kept].
  apply deferTx_spec in Hs as [[_ ->]|(_ & row & event & (Hr & _ & Hst & _ & Hver & _) & (_ & _ & Hrun & _ & Hev) & _ & _ & _ & ->)];
    [by apply unchanged_kept| |apply Hinv].
  destruct Hinv as [Hk Hres Hlim Hreg]. split_and!.
  - split; [|by apply (reservation_inv_ext db)|by destruct Hlim; split|by destruct Hreg; split].
    eapply (store_keyed_decision (waitingRow request) event _ row); try done; [by left|]. by rewrite Hev, Hver.
  - by eapply versioned_bumped.
  - right. exists row. eexists. simpl. rewrite lookup_insert_eq. split_and!; try done. simpl. by rewrite Hver.
Qed.

Lemma Reject_kept ide request db r db' :
  scheduler_inv db -> Reject ide request db = (r, db') ->
  scheduler_inv db' /\ versioned db db' /\ (db' = db \/ decides (srj_Claim request) db db').
Proof.
  intros Hinv Hs. unfold Reject in Hs. destruct (_ || _); [injection Hs as <- <-; by apply unchanged_kept|].
  apply transact_cases in Hs as [(result & -> & Hs)|[_ ->]]; [|by apply unchanged_kept].
  apply rejectTx_spec in Hs as [[_ ->]|(_ & row & a & event & (Hr & _ & Hst & _ & Hver & _) & Ha & _ & _ & _ & _ & _ &
    (_ & _ & Hrun & _ & Hev) & _ & _ & _ & ->)]; [by apply unchanged_kept| |apply Hinv..].
  destruct Hinv as [Hk Hres Hlim Hreg]. split_and!.
  - split; [|by apply (reservation_inv_ext db)|by destruct Hlim; split|by destruct Hreg; split].
    eapply (store_keyed_decision (rejectedRow request) event _ row); try done; [|by rewrite Hev, Hver].
    right. exists (cl_AttemptID (srj_Claim request)), a, (bumpedAttempt (cancelledAttempt (srj_Now request)) a).
    by split_and!.
  - by eapply versioned_bumped.
  - right. exists row. eexists. simpl. rewrite lookup_insert_eq. split_and!; try done. simpl. by rewrite Hver.
Qed.

(** ** Reservations and the registry *)

Lemma other_tables_refl db : other_tables_kept db db.
Proof. by repeat split. Qed.

Lemma other_tables_trans db1 db2 db3 : other_tables_kept db1 db2 -> other_tables_kept db2 db3 -> other_tables_kept db1 db3.
Proof. unfold other_tables_kept. intros. destruct_and!. split_and!; congruence. Qed.

Lemma transition_tables t r n now target db :
  reservation_inv db -> other_tables_kept db (transition t r n now target db).2.
Proof.
  intros Hinv. unfold transition. case_match; [apply other_tables_refl|].
  destruct (transact _ db) as [res db'] eqn:Htx. simpl.
  apply transact_cases in Htx as [(changed & -> & Htx)|[_ ->]]; [|apply other_tables_refl].
  apply transitionTx_spec in Htx as (bundle & Hl & [(_ & -> & _)|(_ & _ & _ & _ & Hcl)]); [apply other_tables_refl| |done].
  exact (cl_kept _ _ _ _ _ _ Hcl).
Qed.

Lemma reclaimLoop_tables items now acc db :
  reservation_inv db -> store_limits db -> other_tables_kept db (reclaimLoop items now acc db).2.
Proof.
  revert acc db. induction items as [|item items IH]; intros acc db Hinv Hlim; simpl; [apply other_tables_refl|].
  pose proof (transition_tables (cr_TenantID item) (cr_RunID item) (cr_AttemptNumber item) now ReservationExpired
    db Hinv) as Hkept.
  pose proof (transition_inv (cr_TenantID item) (cr_RunID item) (cr_AttemptNumber item) now ReservationExpired
    db Hinv Hlim) as [Hinv' Hlim'].
  destruct (transition _ _ _ _ _ db) as [[changed|e] db']; simpl in *; [|done].
  eapply other_tables_trans; [done|]. by apply IH.
Qed.

Lemma scheduler_inv_reservations db db' :
  scheduler_inv db -> other_tables_kept db db' -> reservation_inv db' /\ store_limits db' ->
  scheduler_inv db' /\ versioned db db'.
Proof.
  intros [[] _ _ []] (Ht & _ & Hr & Ha & _ & Hc & Hs & Hal & Ho & _) [Hres Hlim].
  split; [|by apply versioned_same].
  split; [|done|done|split; rewrite ?Ht, ?Hc, ?Hs, ?Hal; done].
  unfold runs_keyed in *. split; unfold runs_keyed; rewrite ?Hr, ?Ha, ?Hc, ?Ho; done.
Qed.

Lemma writes_kept cluster capacity tenants db db' :
  scheduler_inv db -> registry_inv db' -> writes cluster capacity tenants db db' -> scheduler_inv db' /\ versioned db db'.
Proof.
  intros [[] Hres [] _] Hreg (_ & allowed & -> & _). split; [|by apply versioned_same].
  split; [|by apply (reservation_inv_ext db)| |done].
  - split; simpl; try done. intros id c Hc. by apply (rg_clusters _ Hreg).
  - split; simpl; [done|]. intros [id t] s Hs. destruct (rg_snapshots _ Hreg _ _ _ Hs) as (_ & _ & [] & _). done.
Qed.

Lemma registry_step_kept db db' : scheduler_inv db -> registry_step db db' -> scheduler_inv db' /\ versioned db db'.
Proof.
  intros Hinv Hstep. pose proof (registry_step_inv _ _ (sv_registry _ Hinv) Hstep) as Hreg.
  destruct Hstep as [cluster capacity tenants [u|e] db' _ Hr|cluster version capacity tenants [c|e] db' _ Hr].
  - apply Register_spec in Hr as (_ & _ & _ & _ & Hw). by eapply writes_kept.
  - unfold Register in Hr. destruct (validateClusterWrite _ _ _ _); [apply transact_err in Hr|injection Hr as _ Hr];
      by subst db'.
  - apply Update_spec in Hr as (_ & _ & _ & _ & _ & stored & _ & _ & Hw). by eapply writes_kept.
  - unfold Update in Hr. destruct (_ || _); [injection Hr as _ Hr; by subst db'|].
    destruct (validateClusterWrite _ _ _ _); [apply transact_err in Hr|injection Hr as _ Hr]; by subst db'.
Qed.

(** ** The shared store *)

(** One committed or failed transaction of some process.  The last rule stands
    for the other writers of the tables, which keep the same invariant and
    increment the version of a run they change. *)
Inductive scheduler_step (db : DB) : DB -> Prop :=
| step_claim held request r db' : Claim held request db = (r, db') -> scheduler_step db db'
| step_renew tenantID runID owner version now lease r db' :
    Renew tenantID runID owner version now lease db = (r, db') -> scheduler_step db db'
| step_evaluate ide run now r db' : Evaluate ide run now db = (r, db') -> scheduler_step db db'
| step_schedule idc idb ide request r db' : Schedule idc idb ide request db = (r, db') -> scheduler_step db db'
| step_defer ide request r db' : DeferCapacity ide request db = (r, db') -> scheduler_step db db'
| step_reject ide request r db' : Reject ide request db = (r, db') -> scheduler_step db db'
| step_release t r n now : scheduler_step db (Release t r n now db).2
| step_settle t r n now : scheduler_step db (Settle t r n now db).2
| step_reclaim now limit : scheduler_step db (ReclaimExpired now limit db).2
| step_registry db' : registry_step db db' -> scheduler_step db db'
| step_environment db' : scheduler_inv db' -> versioned db db' -> scheduler_step db db'.

Lemma scheduler_step_kept db db' : scheduler_inv db -> scheduler_step db db' -> scheduler_inv db' /\ versioned db db'.
Proof.
  intros Hinv Hstep.
  destruct Hstep as [held request r db' Hs|tenantID runID owner version now lease r db' Hs|ide run now r db' Hs
    |idc idb ide request r db' Hs|ide request r db' Hs|ide request r db' Hs|t r n now|t r n now|now limit|db' Hs|db' Hi Hv].
  - by eapply Claim_kept.
  - by eapply Renew_kept.
  - by eapply Evaluate_kept.
  - apply Schedule_kept in Hs as (? & ? & _); done.
  - apply DeferCapacity_kept in Hs as (? & ? & _); done.
  - apply Reject_kept in Hs as (? & ? & _); done.
  - unfold Release, discard. apply scheduler_inv_reservations; [done|by apply transition_tables, Hinv|by apply transition_inv; apply Hinv].
  - unfold Settle, discard. apply scheduler_inv_reservations; [done|by apply transition_tables, Hinv|by apply transition_inv; apply Hinv].
  - unfold ReclaimExpired. case_match; [done|].
    apply scheduler_inv_reservations; [done|by apply reclaimLoop_tables; apply Hinv|by apply reclaimLoop_inv; apply Hinv].
  - by apply registry_step_kept.
  - done.
Qed.

Lemma scheduler_steps_kept db db' : scheduler_inv db -> rtc scheduler_step db db' -> scheduler_inv db' /\ versioned db db'.
Proof.
  intros Hinv Hsteps. induction Hsteps as [|db1 db2 db3 Hstep _ IH]; [done|].
  destruct (scheduler_step_kept _ _ Hinv Hstep) as [Hinv2 Hv]. destruct (IH Hinv2) as [? Hv'].
  split; [done|]. by etrans.
Qed.

(** A claim that is behind the stored run decides nothing. *)
Lemma decides_current claim db db' row :
  decides claim db db' -> db_runs db !! cl_ID claim = Some row -> run_Version (rr_Run row) = cl_Version claim.
Proof. intros (row0 & row' & Hr & Hv & _) Hrow. rewrite Hrow in Hr. injection Hr as ->. done. Qed.

(** A scheduling decision of some process about a claim. *)
Inductive decision (claim : ClaimedRun) (db : DB) : DB -> Prop :=
| decision_schedule idc idb ide request r db' :
    si_Claim request = claim -> Schedule idc idb ide request db = (r, db') -> decision claim db db'
| decision_defer ide request r db' :
    cwr_Claim request = claim -> DeferCapacity ide request db = (r, db') -> decision claim db db'
| decision_reject ide request r db' :
    srj_Claim request = claim -> Reject ide request db = (r, db') -> decision claim db db'.

Lemma decision_kept claim db db' :
  scheduler_inv db -> decision claim db db' ->
  scheduler_inv db' /\ versioned db db' /\ (db' = db \/ decides claim db db').
Proof.
  intros Hinv [idc idb ide request r db1 <- Hd|ide request r db1 <- Hd|ide request r db1 <- Hd].
  - by eapply Schedule_kept.
  - by eapply DeferCapacity_kept.
  - by eapply Reject_kept.
Qed.

(** ** Theorems *)

(** C9: whatever the schedulers do, in any order, the shared store stays sound.
    From a store that is sound, after any interleaving of claims, renewals,
    eligibility decisions, scheduling decisions, reservation closings and
    registry writes: keys, event versions, reservations and the registry are
    consistent, no run disappears, and a run that differs from before has a
    later version; in particular the daily usage of a tenant is the sum of its
    reservations, and no attempt holds two open reservations. *)
Theorem scheduler_interleaving db0 db :
  scheduler_inv db0 -> rtc scheduler_step db0 db ->
  scheduler_inv db /\ versioned db0 db /\
  (forall t d u, db_usage db !! (t, d) = Some u ->
     bu_Reserved u = totalIn db t d ReservationReserved /\ bu_Spent u = totalIn db t d ReservationSettled) /\
  (forall id1 c1 id2 c2, db_capacity db !! id1 = Some c1 -> db_capacity db !! id2 = Some c2 ->
     cr_State c1 = ReservationReserved -> cr_State c2 = ReservationReserved ->
     cr_RunID c1 = cr_RunID c2 -> cr_AttemptNumber c1 = cr_AttemptNumber c2 -> id1 = id2).
Proof.
  intros Hstart Hsteps. destruct (scheduler_steps_kept _ _ Hstart Hsteps) as [Hinv Hv].
  split; [done|]. split; [done|]. split; [apply (ri_totals _ (sv_reservations _ Hinv))|].
  apply (ri_active _ (sv_reservations _ Hinv)).
Qed.

(** a claim is decided at most once. When a decision on a claim (scheduling,
    waiting for capacity or rejecting) has changed the store, then after any
    further interleaving no decision on a claim of that run at the same or an
    earlier version changes anything, and no renewal at such a version succeeds. *)
Theorem claim_decided_once claim db1 db2 db3 :
  scheduler_inv db1 -> decision claim db1 db2 -> db2 <> db1 -> rtc scheduler_step db2 db3 ->
  (forall claim' db4, cl_ID claim' = cl_ID claim -> cl_Version claim' <= cl_Version claim ->
     decision claim' db3 db4 -> db4 = db3) /\
  (forall tenantID owner version now lease, version <= cl_Version claim ->
     exists e, Renew tenantID (cl_ID claim) owner version now lease db3 = (Err e, db3)).
Proof.
  intros H1 Hd Hne Hsteps. destruct (decision_kept _ _ _ H1 Hd) as (H2 & _ & [->|Hdec]); [done|].
  destruct (scheduler_steps_kept _ _ H2 Hsteps) as [H3 Hv].
  destruct Hdec as (row & row2 & _ & _ & _ & Hrow2 & Hver2 & _). destruct (Hv _ _ Hrow2) as (row3 & Hrow3 & Hlater).
  assert (cl_Version claim < run_Version (rr_Run row3)) as Hlt by (destruct Hlater as [->|]; lia). split.
  - intros claim' db4 Hid Hle Hd'. destruct (decision_kept _ _ _ H3 Hd') as (_ & _ & [->|Hdec']); [done|].
    rewrite <-Hid in Hrow3. pose proof (decides_current _ _ _ _ Hdec' Hrow3). lia.
  - intros tenantID owner version now lease Hle.
    destruct (Renew tenantID (cl_ID claim) owner version now lease db3) as [r db4] eqn:Hr.
    apply Renew_cases in Hr as [[Hr ->]|(_ & _ & _ & _ & _ & stored & Hrow & Hren & _)].
    + destruct r as [v|e]; [done|]. by exists e.
    + rewrite Hrow3 in Hrow. injection Hrow as <-. unfold renewable in Hren. reflect_bools. lia.
Qed.
End Steps.

(** ** Examples *)

Lemma example_claimed_registry : registry_inv example_claimed_db.
Proof.
  split; unfold example_claimed_db, example_db; simpl.
  - intros id c [<- <-]%lookup_singleton_Some. split; [done|]. split; try done. by left.
  - intros id t s [[= <- <-] <-]%lookup_singleton_Some. split_and!; try done.
  - intros id c [<- _]%lookup_singleton_Some. eexists exampleNow, _. apply lookup_singleton_eq.
  - set_solver.
  - by intros id c [<- <-]%lookup_singleton_Some.
Qed.

Lemma example_claimed_sound : scheduler_inv example_claimed_db.
Proof.
  split; [apply example_claimed_keyed|apply example_claimed_inv|apply example_claimed_limits|apply example_claimed_registry].
Qed.

Lemma scheduler_interleaving_witness :
  exists result db', example_schedule = (Ok result, db') /\ scheduler_inv db' /\ versioned example_claimed_db db'.
Proof.
  destruct example_scheduled as (result & db' & E & _). exists result, db'. split; [exact E|].
  destruct (@scheduler_interleaving rfcUUIDs exampleNetURL example_claimed_db db' example_claimed_sound) as (Hs & Hv & _).
  - eapply rtc_once. exact (step_schedule _ _ _ _ _ _ _ E).
  - exact (conj Hs Hv).
Defined.

Lemma claim_decided_once_witness :
  exists result db', example_schedule = (Ok result, db') /\
    exists e, @Renew rfcUUIDs exampleTenant (exampleV7 11) "scheduler-1" 1 exampleNow Minute db' = (Err e, db').
Proof.
  destruct example_scheduled as (result & db' & E & _). exists result, db'. split; [exact E|].
  refine (proj2 (@claim_decided_once rfcUUIDs exampleNetURL example_claimed example_claimed_db db' db' example_claimed_sound
    _ _ (rtc_refl _ _)) exampleTenant "scheduler-1" 1 exampleNow Minute _).
  - exact (decision_schedule example_claimed _ _ _ _ example_scheduling _ _ eq_refl E).
  - intros Heq. apply (f_equal (fun p => db_outbox p.2)) in E. cbn [snd] in E. rewrite Heq in E.
    apply (f_equal (fun m => bool_decide (m = ∅))) in E. vm_compute in E. discriminate E.
  - vm_compute. discriminate.
Defined.
