(* ===== verification/Engine.v ===== *)
(** * The scheduling engine (internal/application/scheduler/engine.go,
      claimer.go, eligibility.go)

    The loop that claims work under backpressure, and the handling of one claimed
    run: eligibility, lease renewal, candidate listing, cluster selection and one
    of the three decisions.  Between the calls of a handler other processes change
    the shared store; the handler is therefore a function of what they do.  The
    theorems say what a handled run ends with, what the scheduling request
    contains, and that the job queue never overflows. *)

From S2P Require Import Prelude AgentRun Policy Cluster Strategy Events Intent Store Reservations Queue SchedulingIntent Registry SchedulerSteps.

Record EngineConfig := {
  eg_Owner : string;
  eg_PollInterval : Duration;
  eg_LeaseDuration : Duration;
  eg_BatchSize : Z;
  eg_WorkerCount : Z;
  eg_WorkQueueSize : Z;
  eg_AgingInterval : Duration;
  eg_MaximumAgingBoost : Z;
  eg_ClusterFreshness : Duration;
  eg_ReservationTTL : Duration;
  eg_DeferralDuration : Duration;
  eg_ExecutionIntent : ExecutionIntentConfig;
}.

(** The repositories of an engine are the operations on the shared store; what
    distinguishes engines is the configuration and the selection strategy. *)
Record Engine := {
  en_configuration : EngineConfig;
  en_selector : Strategy;
}.

Definition NewEngine (configuration : EngineConfig) (selector : Strategy) : res Engine :=
  _ ← failIf ((eg_Owner configuration == EmptyString) || (eg_PollInterval configuration <=? 0)
        || (eg_LeaseDuration configuration <=? eg_PollInterval configuration) || (eg_BatchSize configuration <? 1)
        || (eg_WorkerCount configuration <? 1) || (eg_WorkQueueSize configuration <? eg_WorkerCount configuration)
        || (eg_AgingInterval configuration <=? 0) || (eg_ClusterFreshness configuration <=? 0)
        || (eg_ReservationTTL configuration <=? 0) || (eg_DeferralDuration configuration <=? 0))
      (ErrPlain "scheduler engine configuration and dependencies are required");
  Ok {| en_configuration := configuration; en_selector := selector |}.

(** ** Polling *)

(** [hash/fnv], 32-bit FNV-1a. *)
Definition fnv32a (s : string) : Z :=
  foldl (fun hash c => (Z.lxor hash (Z.of_N (Ascii.N_of_ascii c)) * 16777619) mod 2 ^ 32) 2166136261 (bytes s).

Definition pollDelay (engine : Engine) (failures : Z) : Duration :=
  let delay := mul64 (eg_PollInterval (en_configuration engine)) (Z.shiftl 1 failures) in
  let delay := if 30 * Second <? delay then 30 * Second else delay in
  let jitter := fnv32a (eg_Owner (en_configuration engine)) mod 21 - 10 in
  add64 delay (Z.quot (mul64 delay jitter) 100).

(** ** Handling one claimed run *)

Definition estimateBudget (run : ClaimedRun) (cluster : ExecutionCluster) : Z :=
  add64 (mul64 (Z.quot (add64 (cl_CPUMillis run) 999) 1000) (ec_CPUCostMinorUnits cluster))
        (mul64 (Z.quot (add64 (cl_MemoryMiB run) 1023) 1024) (ec_MemoryGiBCostMinorUnits cluster)).

(** The label [Processed] counts. *)
Definition observeResult {A} (success : string) (outcome : res A) : string :=
  match outcome with Err _ => "error" | Ok _ => success end.

(** The run literal the template is resolved against; its status is the empty
    string, for which [AgentRunQueued] stands: the template does not read it. *)
Definition intentRun (run : ClaimedRun) : AgentRun :=
  {| run_ID := uuidNil; run_TenantID := uuidNil; run_ProjectID := uuidNil;
     run_PromptReference := cl_PromptReference run; run_Runtime := cl_Runtime run; run_CPUMillis := cl_CPUMillis run;
     run_MemoryMiB := cl_MemoryMiB run; run_TimeoutSeconds := cl_TimeoutSeconds run;
     run_MaxAttempts := cl_MaxAttempts run; run_AttemptCount := 0; run_Status := AgentRunQueued;
     run_FailureCategory := FailureUnset; run_IdempotencyKey := EmptyString; run_RequestHash := EmptyString;
     run_Version := 0; run_CreatedBy := EmptyString; run_CancellationReason := EmptyString;
     run_CancellationRequestedBy := EmptyString; run_CancellationRequestedAt := None; run_CreatedAt := 0;
     run_UpdatedAt := 0; run_CompletedAt := None |}.

Definition zeroCluster : ExecutionCluster :=
  {| ec_ID := EmptyString; ec_Region := EmptyString; ec_Status := ClusterStatusOther EmptyString;
     ec_SupportedRuntimes := []; ec_SupportedExecutionProfiles := []; ec_Maintenance := false;
     ec_TenantRestricted := false; ec_SchedulingWeight := 0; ec_CPUCostMinorUnits := 0; ec_MemoryGiBCostMinorUnits := 0;
     ec_LastHeartbeatAt := 0; ec_Version := 0; ec_CreatedAt := 0; ec_UpdatedAt := 0 |}.

(** The search loop: the first candidate with the selected identity, or the zero value. *)
Definition chosenCluster (candidates : list ClusterCandidate) (clusterID : string) : ExecutionCluster :=
  default zeroCluster (cand_Cluster <$> head (filter (fun c => ec_ID (cand_Cluster c) = clusterID) candidates)).

(** What the surroundings contribute while a run is handled: the clock, the
    identifiers drawn, and the transactions of other processes after each call. *)
Record Surroundings := {
  wd_Evaluated : Time;
  wd_Renewed : Time;
  wd_DecisionID : res UUID;
  wd_CapacityID : res UUID;
  wd_BudgetID : res UUID;
  wd_EventID : res UUID;
  wd_Others : nat -> DB -> DB;
}.

Section Process.
Context `{UUIDs} `{NetURL} `{Collation}.

Definition rejectRequest (owner : string) (run : ClaimedRun) (decision : EligibilityDecision)
    (correlation causation : string) (now : Time) : SchedulingRejectRequest :=
  {| srj_Claim := run; srj_LeaseOwner := owner; srj_ReasonCode := EligibilityCode_string (ed_Code decision);
     srj_Reason := ed_Explanation decision; srj_CorrelationID := correlation; srj_CausationID := causation;
     srj_Now := now |}.

Definition waitRequest (owner : string) (run : ClaimedRun) (code reason : string) (next : Time)
    (correlation causation : string) (now : Time) : CapacityWaitRequest :=
  {| cwr_Claim := run; cwr_LeaseOwner := owner; cwr_ReasonCode := code; cwr_Reason := reason;
     cwr_NextEligibleAt := next; cwr_CorrelationID := correlation; cwr_CausationID := causation; cwr_Now := now |}.

Definition nextEligible (configuration : EngineConfig) (decision : EligibilityDecision) (now : Time) : Time :=
  let next := default (Add now (eg_DeferralDuration configuration)) (ed_NextEligibleAt decision) in
  if negb (After next now) then Add now (eg_DeferralDuration configuration) else next.

Definition scheduleRequest (configuration : EngineConfig) (run : ClaimedRun) (selection : SelectionDecision) (budget : Z)
    (desired : AgentRunDesiredState) (correlation causation : string) (now : Time) : SchedulingIntentRequest :=
  {| si_Claim := run; si_LeaseOwner := eg_Owner configuration; si_AttemptID := cl_AttemptID run;
     si_AttemptVersion := cl_AttemptVersion run; si_ClusterID := sd_ClusterID selection;
     si_ClusterFreshness := eg_ClusterFreshness configuration; si_Strategy := sd_Strategy selection;
     si_SelectionScore := sd_Score selection; si_BudgetMinorUnits := budget;
     si_ReservationTTL := eg_ReservationTTL configuration; si_CorrelationID := correlation;
     si_CausationID := causation; si_Now := now; si_DesiredState := desired |}.

(** The part of [process] after the eligibility outcome: list, select, schedule. *)
Definition place (engine : Engine) (world : Surroundings) (run : ClaimedRun) (correlation causation : string)
    (now : Time) (db : DB) : string * DB :=
  let configuration := en_configuration engine in
  match ListCandidates (cl_TenantID run) (cl_Runtime run) (cl_ExecutionProfile run) now
          (eg_ClusterFreshness configuration) db with
  | Err e => (observeResult "registry_error" (@Err unit e), db)
  | Ok candidates =>
      let db := wd_Others world 2 db in
      match @Strategy_Select (en_selector engine) candidates
              {| sel_CPUMillis := cl_CPUMillis run; sel_MemoryMiB := cl_MemoryMiB run;
                 sel_PreferredRegion := cl_PreferredRegion run |} now with
      | Err (NoCapacityError reason) =>
          let '(waited, db) := DeferCapacity (wd_EventID world)
            (waitRequest (eg_Owner configuration) run "NO_CAPACITY" reason
               (Add now (eg_DeferralDuration configuration)) correlation causation now) db in
          (observeResult "capacity_wait" waited, db)
      | Err e => (observeResult "selection_error" (@Err unit e), db)
      | Ok selection =>
          let budget := estimateBudget run (chosenCluster candidates (sd_ClusterID selection)) in
          match DesiredState (eg_ExecutionIntent configuration) (intentRun run) (cl_ExecutionProfile run) with
          | Err e => (observeResult "intent_configuration_error" (@Err unit e), db)
          | Ok desired =>
              let '(scheduled, db) := Schedule (wd_CapacityID world) (wd_BudgetID world) (wd_EventID world)
                (scheduleRequest configuration run selection budget desired correlation causation now) db in
              (observeResult "scheduled" scheduled, db)
          end
      end
  end.

(** [process], with [EligibilityService.Evaluate] and [Claimer.Renew], which add
    metrics and logging to the repository calls. *)
Definition process (engine : Engine) (world : Surroundings) (run : ClaimedRun) (db : DB) : string * DB :=
  let configuration := en_configuration engine in
  let '(evaluated, db) := Evaluate (wd_DecisionID world) run (wd_Evaluated world) db in
  match evaluated with
  | Err _ => ("eligibility_error", db)
  | Ok decision =>
      let db := wd_Others world 0 db in
      let renewedAt := wd_Renewed world in
      let '(renewedVersion, db) := Renew (cl_TenantID run) (cl_ID run) (eg_Owner configuration) (cl_Version run)
        renewedAt (eg_LeaseDuration configuration) db in
      match renewedVersion with
      | Err e => (observeResult "lease_lost" (@Err unit e), db)
      | Ok version =>
          let db := wd_Others world 1 db in
          let run := run <| cl_Version := version |>
                         <| cl_SchedulerLeaseExpiry := Add renewedAt (eg_LeaseDuration configuration) |> in
          let now := renewedAt in
          let correlation := uuidString (cl_ID run) in
          let causation := ("scheduler-claim:" ++ cl_SchedulerLeaseOwner run)%string in
          match ed_Outcome decision with
          | EligibilityReject =>
              let '(rejected, db) := Reject (wd_EventID world)
                (rejectRequest (eg_Owner configuration) run decision correlation causation now) db in
              (observeResult "rejected" rejected, db)
          | EligibilityDefer =>
              let '(deferred, db) := DeferCapacity (wd_EventID world)
                (waitRequest (eg_Owner configuration) run (EligibilityCode_string (ed_Code decision))
                   (ed_Explanation decision) (nextEligible configuration decision now) correlation causation now) db in
              (observeResult "deferred" deferred, db)
          | EligibilityEligible => place engine world run correlation causation now db
          end
      end
  end.
End Process.

(** ** Selection and price *)

Definition selectionOf (run : ClaimedRun) : SelectionRequest :=
  {| sel_CPUMillis := cl_CPUMillis run; sel_MemoryMiB := cl_MemoryMiB run; sel_PreferredRegion := cl_PreferredRegion run |}.

(** Whole CPUs and whole gibibytes at the cluster's prices, over exact integers. *)
Definition price (run : ClaimedRun) (cluster : ExecutionCluster) : Z :=
  ceil_div (cl_CPUMillis run) 1000 * ec_CPUCostMinorUnits cluster
  + ceil_div (cl_MemoryMiB run) 1024 * ec_MemoryGiBCostMinorUnits cluster.

Lemma quot_ceil_div n d : 0 < d -> 0 <= n -> Z.quot (n + (d - 1)) d = ceil_div n d.
Proof.
  intros Hd Hn. rewrite Z.quot_div_nonneg by lia. apply (is_ceiling_unique n d); [done| |by apply ceil_div_is_ceiling].
  unfold is_ceiling. pose proof (Z.div_mod (n + (d - 1)) d ltac:(lia)). pose proof (Z.mod_pos_bound (n + (d - 1)) d Hd). nia.
Qed.

Lemma estimateBudget_exact run cluster :
  bounded_request (selectionOf run) -> cluster_ok cluster -> estimateBudget run cluster = price run cluster /\ 0 <= price run cluster.
Proof.
  intros [Hc Hm] []. simpl in Hc, Hm. unfold estimateBudget, price.
  rewrite (add64_small (cl_CPUMillis run)), (add64_small (cl_MemoryMiB run)) by (unfold in_int64; lia).
  change 999 with (1000 - 1). change 1023 with (1024 - 1). rewrite !quot_ceil_div by lia.
  pose proof (ceil_div_bounds (cl_CPUMillis run) 1000 128 ltac:(lia) ltac:(lia) ltac:(lia)) as H1.
  pose proof (ceil_div_bounds (cl_MemoryMiB run) 1024 512 ltac:(lia) ltac:(lia) ltac:(lia)) as H2.
  assert (0 <= ceil_div (cl_CPUMillis run) 1000 * ec_CPUCostMinorUnits cluster <= 128 * 2 ^ 31) by nia.
  assert (0 <= ceil_div (cl_MemoryMiB run) 1024 * ec_MemoryGiBCostMinorUnits cluster <= 512 * 2 ^ 31) by nia.
  rewrite !mul64_small by (unfold in_int64; lia). rewrite add64_small by (unfold in_int64; lia). split; [done|lia].
Qed.

(** Either strategy selects a feasible candidate, or reports that there is none. *)
Lemma Select_spec name strategy candidates request now :
  NewStrategy name = Ok strategy -> bounded_request request -> Forall bounded_candidate candidates -> now <> 0 ->
  (exists c d, @Strategy_Select strategy candidates request now = Ok d /\ c ∈ candidates /\ feasible request c /\
     sd_ClusterID d = ec_ID (cand_Cluster c) /\ sd_Strategy d = name /\ sd_Score d = sc_score (candidate_key request c)) \/
  ((forall c, c ∈ candidates -> ~ feasible request c) /\
   @Strategy_Select strategy candidates request now
     = Err (NoCapacityError "no eligible cluster has sufficient capacity")).
Proof.
  intros Hn Hr Hall Hnow.
  assert (Hrank : forall strategyName fallback,
    (exists c d, rankCandidates candidates request now strategyName fallback = Ok d /\ c ∈ candidates /\ feasible request c /\
       sd_ClusterID d = ec_ID (cand_Cluster c) /\ sd_Strategy d = strategyName /\
       sd_Score d = sc_score (candidate_key request c)) \/
    ((forall c, c ∈ candidates -> ~ feasible request c) /\
     rankCandidates candidates request now strategyName fallback
       = Err (NoCapacityError "no eligible cluster has sufficient capacity"))).
  { intros sn fb. destruct (rankCandidates_spec candidates request now sn fb Hr Hall Hnow)
      as [(c & Hc & Hf & _ & E)|[Hno E]]; [left|by right]. exists c. eexists. by split_and!. }
  assert (Hglobal : (exists c d, globalSelect candidates request now = Ok d /\ c ∈ candidates /\ feasible request c /\
       sd_ClusterID d = ec_ID (cand_Cluster c) /\ sd_Strategy d = StrategyRegionAffinity /\
       sd_Score d = sc_score (candidate_key request c)) \/
    ((forall c, c ∈ candidates -> ~ feasible request c) /\ globalSelect candidates request now
       = Err (NoCapacityError "no eligible cluster has sufficient capacity"))).
  { unfold globalSelect. destruct (Hrank StrategyRegionAffinity (sel_PreferredRegion request != EmptyString))
      as [(c & d & -> & Hc & Hf & Hid & Hs & Hsc)|[Hno ->]]; [left|by right]. rewrite bind_Ok.
    exists c. destruct (sd_UsedRegionFallback d); eexists; by split_and!. }
  unfold NewStrategy in Hn. case_bool_decide as Hname; [injection Hn as <-; subst name; apply Hrank|].
  case_bool_decide as Hname'; [|done]. injection Hn as <-. subst name. simpl. unfold regionAffinity_Select.
  case_bool_decide; [done|]. cbn [negb].
  assert (Hreg : Forall bounded_candidate (regionalCandidates candidates (sel_PreferredRegion request)))
    by by apply Forall_filter.
  destruct (rankCandidates_spec _ request now StrategyRegionAffinity false Hr Hreg Hnow)
    as [(c & Hc & Hf & _ & ->)|[Hnone ->]]; [left|done].
  apply list_elem_of_filter in Hc as [_ Hc]. exists c. eexists. split; [reflexivity|]. by split_and!.
Qed.

(** The search finds the selected candidate: identities are unique. *)
Lemma chosenCluster_spec candidates c :
  NoDup ((fun c => ec_ID (cand_Cluster c)) <$> candidates) -> c ∈ candidates ->
  chosenCluster candidates (ec_ID (cand_Cluster c)) = cand_Cluster c.
Proof.
  intros Hnd Hc. unfold chosenCluster. erewrite head_filter_unique; [done|done|done|].
  intros c' Hc' He. apply list_elem_of_lookup in Hc as [i Hi], Hc' as [j Hj].
  assert (i = j) as ->.
  { eapply NoDup_lookup; [exact Hnd| |]; rewrite list_lookup_fmap.
    - by rewrite Hi.
    - rewrite Hj. simpl. by rewrite He. }
  congruence.
Qed.

(** ** What handling a run ends with *)

Section Outcome.
Context `{UUIDs} `{NetURL} `{Collation}.
Context (engine : Engine) (world : Surroundings) (run : ClaimedRun).

Notation configuration := (en_configuration engine).
Notation now := (wd_Renewed world).

(** The claim after the renewal. *)
Definition renewedClaim : ClaimedRun :=
  run <| cl_Version := cl_Version run + 1 |>
      <| cl_SchedulerLeaseExpiry := Add now (eg_LeaseDuration configuration) |>.

Definition correlationOf : string := uuidString (cl_ID run).
Definition causationOf : string := ("scheduler-claim:" ++ cl_SchedulerLeaseOwner run)%string.

(** [outcome decision before db' label]: the last call of the handler took the
    store from [before] to [db'] and was counted under [label]. *)
Inductive outcome (decision : EligibilityDecision) (before db' : DB) : string -> Prop :=
| outcome_rejected r :
    ed_Outcome decision = EligibilityReject ->
    Reject (wd_EventID world)
      (rejectRequest (eg_Owner configuration) renewedClaim decision correlationOf causationOf now) before = (Ok r, db') ->
    outcome decision before db' "rejected"
| outcome_deferred r :
    ed_Outcome decision = EligibilityDefer ->
    DeferCapacity (wd_EventID world)
      (waitRequest (eg_Owner configuration) renewedClaim (EligibilityCode_string (ed_Code decision))
         (ed_Explanation decision) (nextEligible configuration decision now) correlationOf causationOf now) before
      = (Ok r, db') ->
    outcome decision before db' "deferred"
| outcome_capacity_wait listed candidates r :
    ed_Outcome decision = EligibilityEligible -> scheduler_inv listed ->
    ListCandidates (cl_TenantID run) (cl_Runtime run) (cl_ExecutionProfile run) now (eg_ClusterFreshness configuration)
      listed = Ok candidates ->
    (forall c, c ∈ candidates -> ~ feasible (selectionOf run) c) ->
    DeferCapacity (wd_EventID world)
      (waitRequest (eg_Owner configuration) renewedClaim "NO_CAPACITY" "no eligible cluster has sufficient capacity"
         (Add now (eg_DeferralDuration configuration)) correlationOf causationOf now) before = (Ok r, db') ->
    outcome decision before db' "capacity_wait"
| outcome_scheduled listed candidates c selection desired r :
    ed_Outcome decision = EligibilityEligible -> scheduler_inv listed ->
    ListCandidates (cl_TenantID run) (cl_Runtime run) (cl_ExecutionProfile run) now (eg_ClusterFreshness configuration)
      listed = Ok candidates ->
    c ∈ candidates -> feasible (selectionOf run) c ->
    sd_ClusterID selection = ec_ID (cand_Cluster c) -> sd_Strategy selection = @Strategy_Name (en_selector engine) ->
    sd_Score selection = sc_score (candidate_key (selectionOf run) c) ->
    DesiredState (eg_ExecutionIntent configuration) (intentRun run) (cl_ExecutionProfile run) = Ok desired ->
    Schedule (wd_CapacityID world) (wd_BudgetID world) (wd_EventID world)
      (scheduleRequest configuration renewedClaim selection (price run (cand_Cluster c)) desired correlationOf causationOf now)
      before = (Ok r, db') ->
    outcome decision before db' "scheduled".

Lemma observed {A} (label : string) (r : res A) :
  (exists a, r = Ok a /\ observeResult label r = label) \/ ((exists e, r = Err e) /\ observeResult label r = "error").
Proof. destruct r; [left; eauto|right; split; [eauto|done]]. Qed.

Lemma Select_name name : NewStrategy name = Ok (en_selector engine) -> @Strategy_Name (en_selector engine) = name.
Proof.
  unfold NewStrategy. repeat case_bool_decide; intros Hn; [..|done]; apply Ok_inj in Hn; rewrite <-Hn; by subst.
Qed.

Lemma Schedule_err idc idb ide request db e db' : Schedule idc idb ide request db = (Err e, db') -> db' = db.
Proof. unfold Schedule. destruct (validateSchedulingIntent _); [apply transact_err|naive_solver]. Qed.

Lemma DeferCapacity_err ide request db e db' : DeferCapacity ide request db = (Err e, db') -> db' = db.
Proof. unfold DeferCapacity. destruct (_ || _); [naive_solver|apply transact_err]. Qed.

Lemma Reject_err ide request db e db' : Reject ide request db = (Err e, db') -> db' = db.
Proof. unfold Reject. destruct (_ || _); [naive_solver|apply transact_err]. Qed.

(** The other processes only run transactions of the shared store. *)
Hypothesis others : forall n db, rtc scheduler_step db (wd_Others world n db).
Hypothesis bounded : bounded_request (selectionOf run).

Lemma place_outcome name decision db label db' :
  NewStrategy name = Ok (en_selector engine) -> scheduler_inv db -> now <> 0 ->
  ed_Outcome decision = EligibilityEligible ->
  place engine world renewedClaim correlationOf causationOf now db = (label, db') ->
  exists before, (before = db \/ before = wd_Others world 2 db) /\
    ((label = "error" /\ db' = before) \/ outcome decision before db' label).
Proof.
  intros Hname Hinv Hnow Hout. unfold place.
  change (cl_TenantID renewedClaim) with (cl_TenantID run). change (cl_Runtime renewedClaim) with (cl_Runtime run).
  change (cl_ExecutionProfile renewedClaim) with (cl_ExecutionProfile run).
  change (intentRun renewedClaim) with (intentRun run).
  change {| sel_CPUMillis := _; sel_MemoryMiB := _; sel_PreferredRegion := _ |} with (selectionOf run).
  destruct (ListCandidates _ _ _ _ _ db) as [candidates|e] eqn:Hl; cycle 1.
  { intros [= <- <-]. exists db. split; [by left|]. by left. }
  set (db2 := wd_Others world 2 db) in *.
  destruct (candidates_bounded _ _ _ _ _ _ _ (sv_registry _ Hinv) Hl) as [Hb Hnd].
  destruct (Select_spec name _ candidates (selectionOf run) now Hname bounded Hb Hnow)
    as [(c & d & -> & Hc & Hf & Hid & Hst & Hsc)|[Hno ->]].
  - destruct (DesiredState _ _ _) as [desired|e] eqn:Hd; cycle 1.
    { intros [= <- <-]. exists db2. split; [by right|]. by left. }
    rewrite Hid, (chosenCluster_spec _ _ Hnd Hc).
    pose proof (proj1 (ListCandidates_elem _ _ _ _ _ _ _ c (sv_registry _ Hinv) Hl) Hc) as (Hcl & _).
    destruct (rg_clusters _ (sv_registry _ Hinv) _ _ Hcl) as [_ Hok].
    change (estimateBudget renewedClaim (cand_Cluster c)) with (estimateBudget run (cand_Cluster c)).
    destruct (estimateBudget_exact _ _ bounded Hok) as [-> _].
    destruct (Schedule _ _ _ _ db2) as [r db3] eqn:Hs. intros [= <- <-]. exists db2. split; [by right|].
    destruct (observed "scheduled" r) as [(a & -> & ->)|[[e ->] ->]].
    + right. rewrite <-(Select_name _ Hname) in Hst. by eapply outcome_scheduled.
    + left. by apply Schedule_err in Hs as ->.
  - destruct (DeferCapacity _ _ db2) as [r db3] eqn:Hs. intros [= <- <-]. exists db2. split; [by right|].
    destruct (observed "capacity_wait" r) as [(a & -> & ->)|[[e ->] ->]].
    + right. by eapply outcome_capacity_wait.
    + left. by apply DeferCapacity_err in Hs as ->.
Qed.

Lemma outcome_decides decision before db' label :
  scheduler_inv before -> outcome decision before db' label ->
  scheduler_inv db' /\ versioned before db' /\ (db' = before \/ decides renewedClaim before db').
Proof.
  intros Hinv [r _ Hs|r _ Hs|listed candidates r _ _ _ _ Hs|listed candidates c selection desired r _ _ _ _ _ _ _ _ _ Hs].
  - by apply Reject_kept in Hs.
  - by apply DeferCapacity_kept in Hs.
  - by apply DeferCapacity_kept in Hs.
  - by apply Schedule_kept in Hs.
Qed.

(** No decision was taken: the store holds what the evaluation, possibly the
    renewal, and the other processes wrote. *)
Definition undecided (db db' : DB) : Prop :=
  exists decision evaluated, Evaluate (wd_DecisionID world) run (wd_Evaluated world) db = (Ok decision, evaluated) /\
    (db' = wd_Others world 0 evaluated \/
     exists version renewed, Renew (cl_TenantID run) (cl_ID run) (eg_Owner configuration) (cl_Version run) now
         (eg_LeaseDuration configuration) (wd_Others world 0 evaluated) = (Ok version, renewed) /\
       (db' = wd_Others world 1 renewed \/ db' = wd_Others world 2 (wd_Others world 1 renewed))).

(** A decision on the renewed claim was the last thing the handler did. *)
Definition decided (label : string) (db db' : DB) : Prop :=
  exists decision evaluated renewed before,
    Evaluate (wd_DecisionID world) run (wd_Evaluated world) db = (Ok decision, evaluated) /\
    Renew (cl_TenantID run) (cl_ID run) (eg_Owner configuration) (cl_Version run) now (eg_LeaseDuration configuration)
      (wd_Others world 0 evaluated) = (Ok (cl_Version run + 1), renewed) /\
    rtc scheduler_step renewed before /\ outcome decision before db' label /\
    (db' = before \/ decides renewedClaim before db').

Lemma others_kept n db : scheduler_inv db -> scheduler_inv (wd_Others world n db) /\ versioned db (wd_Others world n db).
Proof. intros Hinv. by apply scheduler_steps_kept. Qed.

Lemma undecided_kept db db' : scheduler_inv db -> undecided db db' -> scheduler_inv db' /\ versioned db db'.
Proof.
  intros Hinv (decision & evaluated & He & Hcases). destruct (Evaluate_kept _ _ _ _ _ _ Hinv He) as [I1 V1].
  destruct (others_kept 0 _ I1) as [I2 V2]. assert (V02 : versioned db (wd_Others world 0 evaluated)) by (by etrans).
  destruct Hcases as [->|(version & renewed & Hr & Hcases)]; [done|].
  destruct (Renew_kept _ _ _ _ _ _ _ _ _ I2 Hr) as [I3 V3]. destruct (others_kept 1 _ I3) as [I4 V4].
  assert (V04 : versioned db (wd_Others world 1 renewed)) by (etrans; [exact V02|]; by etrans).
  destruct Hcases as [->| ->]; [done|]. destruct (others_kept 2 _ I4) as [I5 V5]. split; [done|]. by etrans.
Qed.

Lemma decided_kept label db db' : scheduler_inv db -> decided label db db' -> scheduler_inv db' /\ versioned db db'.
Proof.
  intros Hinv (decision & evaluated & renewed & before & He & Hr & Hsteps & Hout & _).
  destruct (Evaluate_kept _ _ _ _ _ _ Hinv He) as [I1 V1]. destruct (others_kept 0 _ I1) as [I2 V2].
  destruct (Renew_kept _ _ _ _ _ _ _ _ _ I2 Hr) as [I3 V3]. destruct (scheduler_steps_kept _ _ I3 Hsteps) as [I4 V4].
  destruct (outcome_decides _ _ _ _ I4 Hout) as (I5 & V5 & _). split; [done|].
  etrans; [exact V1|]. etrans; [exact V2|]. etrans; [exact V3|]. by etrans.
Qed.

(** The last call after a renewal, seen from the renewed store. *)
Lemma last_call decision evaluated db renewed label before db' :
  scheduler_inv db ->
  Evaluate (wd_DecisionID world) run (wd_Evaluated world) db = (Ok decision, evaluated) ->
  Renew (cl_TenantID run) (cl_ID run) (eg_Owner configuration) (cl_Version run) now (eg_LeaseDuration configuration)
    (wd_Others world 0 evaluated) = (Ok (cl_Version run + 1), renewed) ->
  (before = wd_Others world 1 renewed \/ before = wd_Others world 2 (wd_Others world 1 renewed)) ->
  (label = "error" /\ db' = before) \/ outcome decision before db' label ->
  (label = "error" /\ undecided db db') \/ decided label db db'.
Proof.
  intros Hinv He Hr Hb [[-> ->]|Hout].
  - left. split; [done|]. exists decision, evaluated. split; [done|]. right. by exists (cl_Version run + 1), renewed.
  - right. exists decision, evaluated, renewed, before.
    assert (Hsteps : rtc scheduler_step renewed before).
    { destruct Hb as [->| ->]; [apply others|]. etrans; apply others. }
    split_and!; try done. destruct (Evaluate_kept _ _ _ _ _ _ Hinv He) as [I1 _]. destruct (others_kept 0 _ I1) as [I2 _].
    destruct (Renew_kept _ _ _ _ _ _ _ _ _ I2 Hr) as [I3 _]. destruct (scheduler_steps_kept _ _ I3 Hsteps) as [I4 _].
    by apply (outcome_decides _ _ _ _ I4 Hout).
Qed.

(** handling a claimed run ends in exactly one way, whatever other
    schedulers do meanwhile. Either eligibility could not be decided and nothing
    changed; or the result is counted as an error and no decision was taken; or
    the lease was renewed first and the last call is the one decision the
    eligibility outcome calls for, made on the renewed claim and, unless it was
    answered as a repetition, only if no other process touched the run since the
    renewal: a rejection, a deferral, a capacity wait when no listed cluster is
    feasible, or a scheduling request for a feasible listed cluster, at the exact
    price of that cluster and with the resolved execution intent. The store stays
    sound throughout. *)
Theorem process_outcome name db label db' :
  NewStrategy name = Ok (en_selector engine) -> scheduler_inv db -> process engine world run db = (label, db') ->
  ((label = "eligibility_error" /\ db' = db) \/ (label = "error" /\ undecided db db') \/ decided label db db') /\
  scheduler_inv db' /\ versioned db db'.
Proof.
  intros Hname Hinv Hp.
  assert (Hc : (label = "eligibility_error" /\ db' = db) \/ (label = "error" /\ undecided db db') \/ decided label db db').
  { unfold process in Hp. destruct (Evaluate _ _ _ db) as [[decision|e] evaluated] eqn:He; cycle 1.
    { injection Hp as <- <-. apply Evaluate_cases in He as (m & _ & Hun). left. split; [done|by apply Hun]. }
    right. destruct (Renew _ _ _ _ _ _ (wd_Others world 0 evaluated)) as [[version|e] renewed] eqn:Hr; cycle 1.
    { injection Hp as <- <-. left. split; [done|]. exists decision, evaluated. split; [done|]. left.
      by apply Renew_cases in Hr as [[_ ->]|[? _]]. }
    pose proof Hr as [[? _]|(Hv & _ & _ & Hnow & _)]%Renew_cases; [done|]. apply Ok_inj in Hv as ->.
    fold renewedClaim in Hp. change (uuidString (cl_ID renewedClaim)) with correlationOf in Hp.
    change (String.append "scheduler-claim:" (cl_SchedulerLeaseOwner renewedClaim)) with causationOf in Hp.
    destruct (Evaluate_kept _ _ _ _ _ _ Hinv He) as [I1 _]. destruct (others_kept 0 _ I1) as [I2 _].
    destruct (Renew_kept _ _ _ _ _ _ _ _ _ I2 Hr) as [I3 _]. destruct (others_kept 1 _ I3) as [I4 _].
    set (db1 := wd_Others world 1 renewed) in *.
    destruct (ed_Outcome decision) eqn:Ho.
    - apply (place_outcome name decision) in Hp as (before & Hb & Hcases); [|done..].
      by eapply last_call.
    - destruct (DeferCapacity _ _ db1) as [r db3] eqn:Hs. injection Hp as <- <-.
      eapply (last_call _ _ _ _ _ db1); try done; [by left|].
      destruct (observed "deferred" r) as [(a & -> & ->)|[[e ->] ->]]; [right; by eapply outcome_deferred|].
      left. by apply DeferCapacity_err in Hs as ->.
    - destruct (Reject _ _ db1) as [r db3] eqn:Hs. injection Hp as <- <-.
      eapply (last_call _ _ _ _ _ db1); try done; [by left|].
      destruct (observed "rejected" r) as [(a & -> & ->)|[[e ->] ->]]; [right; by eapply outcome_rejected|].
      left. by apply Reject_err in Hs as ->. }
  split; [done|]. destruct Hc as [[_ ->]|[[_ Hu]|Hd]]; [done|by apply undecided_kept|by eapply decided_kept].
Qed.
End Outcome.

(** ** The polling interval *)

(** For any number of failures the engine counts and an interval whose largest
    multiple fits a duration, the delay is positive, at least nine tenths of the
    doubled interval (or of the thirty-second cap, when that is smaller), and at
    most eleven tenths of it, hence never above thirty-three seconds. *)
Lemma pollDelay_bounds engine failures :
  let interval := eg_PollInterval (en_configuration engine) in
  0 < interval -> interval * 32 < 2 ^ 63 -> 0 <= failures <= 5 ->
  let capped := Z.min (30 * Second) (interval * 2 ^ failures) in
  0 < pollDelay engine failures /\ 9 * capped <= 10 * pollDelay engine failures <= 11 * capped /\
  pollDelay engine failures <= 33 * Second.
Proof.
  intros interval Hpos Hfit Hf capped. unfold pollDelay. fold interval. rewrite Z.shiftl_mul_pow2, Z.mul_1_l by lia.
  assert (Hp : 1 <= 2 ^ failures <= 32).
  { split; [pose proof (Z.pow_pos_nonneg 2 failures); lia|]. change 32 with (2 ^ 5). apply Z.pow_le_mono_r; lia. }
  rewrite (mul64_small interval) by (unfold in_int64; nia).
  set (jitter := fnv32a _ mod 21 - 10).
  assert (Hj : -10 <= jitter <= 10).
  { unfold jitter. pose proof (Z.mod_pos_bound (fnv32a (eg_Owner (en_configuration engine))) 21 ltac:(lia)). lia. }
  clearbody jitter.
  assert (Hc : (if 30 * Second <? interval * 2 ^ failures then 30 * Second else interval * 2 ^ failures) = capped).
  { unfold capped. case_match; lia. }
  rewrite Hc. assert (0 < interval * 2 ^ failures) by nia.
  assert (0 < capped <= 30000000000) as Hcap by (subst capped; change (30 * Second) with 30000000000; lia). clear Hc. clearbody capped.
  rewrite mul64_small by (unfold in_int64; nia).
  assert (Hq : -10 * capped <= 100 * Z.quot (capped * jitter) 100 <= 10 * capped).
  { pose proof (Z.quot_rem (capped * jitter) 100 ltac:(lia)) as Hqr.
    assert (-10 * capped <= capped * jitter <= 10 * capped) by (clear - Hcap Hj; nia).
    destruct (Z.le_gt_cases 0 (capped * jitter)).
    - pose proof (Z.rem_bound_pos (capped * jitter) 100 ltac:(lia) ltac:(lia)).
      pose proof (Z.quot_pos (capped * jitter) 100 ltac:(lia) ltac:(lia)). lia.
    - pose proof (Z.rem_bound_pos_neg (capped * jitter) 100 ltac:(lia) ltac:(lia)). lia. }
  rewrite add64_small by (unfold in_int64; lia). change (33 * Second) with 33000000000. lia.
Qed.

(** ** The loop and its workers *)

Definition scanRequest (configuration : EngineConfig) (now : Time) (available : Z) : SchedulerClaimRequest :=
  {| scr_Owner := eg_Owner configuration; scr_Now := now; scr_LeaseDuration := eg_LeaseDuration configuration;
     scr_BatchSize := Z.min (eg_BatchSize configuration) available; scr_AgingInterval := eg_AgingInterval configuration;
     scr_MaximumAgingBoost := eg_MaximumAgingBoost configuration |}.

(** The part of [scan] before the sends; [queued] is the length of the channel. *)
Definition scanClaim (engine : Engine) (held : UUID -> bool) (now : Time) (queued : Z) (db : DB)
    : res (list ClaimedRun) * DB :=
  let available := eg_WorkQueueSize (en_configuration engine) - queued in
  if available <=? 0 then (Ok [], db)
  else Claim held (scanRequest (en_configuration engine) now available) db.

(** Where [Run] is: about to scan, sending claimed runs, waiting for the timer or
    a wake-up, or returned. *)
Inductive LoopPhase :=
| Scanning
| Sending (pending : list ClaimedRun)
| Waiting
| Returned.

Record EngineState := {
  es_jobs : list ClaimedRun;
  es_busy : list ClaimedRun;
  es_idle : Z;
  es_failures : Z;
  es_wake : bool;
  es_cancelled : bool;
  es_phase : LoopPhase;
  es_db : DB;
}.

#[export] Instance EngineState_settable : Settable EngineState := fun s =>
  Build_EngineState (es_jobs s) (es_busy s) (es_idle s) (es_failures s) (es_wake s) (es_cancelled s) (es_phase s) (es_db s).

(** [Run] up to its loop: the channel is empty and every worker waits for a job. *)
Definition engineStarted (engine : Engine) (db : DB) : EngineState :=
  {| es_jobs := []; es_busy := []; es_idle := eg_WorkerCount (en_configuration engine); es_failures := 0;
     es_wake := false; es_cancelled := false; es_phase := Scanning; es_db := db |}.

Definition pendingOf (phase : LoopPhase) : list ClaimedRun := match phase with Sending pending => pending | _ => [] end.

Section Loop.
Context `{UUIDs} `{NetURL} `{Collation}.
Context (engine : Engine).

(** One step of the loop, of a worker, of a caller of [Wake] or of the context,
    or of another process. A [select] with several ready cases takes any. *)
Inductive engine_step (s : EngineState) : EngineState -> Prop :=
| loop_scan held now claimed db' :
    es_phase s = Scanning ->
    scanClaim engine held now (Z.of_nat (length (es_jobs s))) (es_db s) = (Ok claimed, db') ->
    engine_step s (s <| es_phase := Sending claimed |> <| es_db := db' |>)
| loop_scan_failed held now e db' :
    es_phase s = Scanning ->
    scanClaim engine held now (Z.of_nat (length (es_jobs s))) (es_db s) = (Err e, db') ->
    engine_step s (s <| es_phase := Waiting |> <| es_db := db' |>
                     <| es_failures := if es_cancelled s then 0 else Z.min (es_failures s + 1) 5 |>)
| loop_send run pending :
    es_phase s = Sending (run :: pending) ->
    Z.of_nat (length (es_jobs s)) < eg_WorkQueueSize (en_configuration engine) ->
    engine_step s (s <| es_jobs := es_jobs s ++ [run] |> <| es_phase := Sending pending |>)
| loop_send_cancelled pending :
    es_phase s = Sending pending -> pending <> [] -> es_cancelled s = true ->
    engine_step s (s <| es_phase := Waiting |> <| es_failures := 0 |>)
| loop_scanned :
    es_phase s = Sending [] -> engine_step s (s <| es_phase := Waiting |> <| es_failures := 0 |>)
| loop_timer : es_phase s = Waiting -> engine_step s (s <| es_phase := Scanning |>)
| loop_woken :
    es_phase s = Waiting -> es_wake s = true -> engine_step s (s <| es_phase := Scanning |> <| es_wake := false |>)
| loop_returns :
    es_phase s = Waiting -> es_cancelled s = true -> engine_step s (s <| es_phase := Returned |>)
| worker_takes run jobs :
    es_jobs s = run :: jobs -> 0 < es_idle s ->
    engine_step s (s <| es_jobs := jobs |> <| es_busy := run :: es_busy s |> <| es_idle := es_idle s - 1 |>)
| worker_finishes before run after world label db' :
    es_busy s = before ++ run :: after -> (forall n db, rtc scheduler_step db (wd_Others world n db)) ->
    process engine world run (es_db s) = (label, db') ->
    engine_step s (s <| es_busy := before ++ after |> <| es_idle := es_idle s + 1 |> <| es_db := db' |>)
| worker_stops :
    es_cancelled s = true -> 0 < es_idle s -> engine_step s (s <| es_idle := es_idle s - 1 |>)
| caller_wakes : engine_step s (s <| es_wake := true |>)
| context_cancelled : engine_step s (s <| es_cancelled := true |>)
| other_process db' : scheduler_step (es_db s) db' -> engine_step s (s <| es_db := db' |>).

Record engine_inv (s : EngineState) : Prop := {
  ei_queue : Z.of_nat (length (es_jobs s)) + Z.of_nat (length (pendingOf (es_phase s)))
    <= eg_WorkQueueSize (en_configuration engine);
  ei_workers : 0 <= es_idle s /\
    Z.of_nat (length (es_busy s)) + es_idle s <= eg_WorkerCount (en_configuration engine);
  ei_counter : 0 <= es_failures s <= 5;
  ei_store : scheduler_inv (es_db s);
}.

Lemma Claim_batch held request db claimed db' :
  runs_keyed db -> Claim held request db = (Ok claimed, db') ->
  Z.of_nat (length claimed) <= scr_BatchSize request.
Proof.
  intros Hk Hc. apply Claim_ok in Hc as (Hb & _ & base & _ & _ & Hf & _); [|done].
  apply Forall2_length in Hf. rewrite <-Hf. unfold lockedRows. rewrite length_take. lia.
Qed.

Lemma scanClaim_spec held now queued db r db' :
  scheduler_inv db -> queued <= eg_WorkQueueSize (en_configuration engine) ->
  scanClaim engine held now queued db = (r, db') ->
  scheduler_inv db' /\ versioned db db' /\
  forall claimed, r = Ok claimed -> queued + Z.of_nat (length claimed) <= eg_WorkQueueSize (en_configuration engine).
Proof.
  intros Hinv Hq. unfold scanClaim. case_match.
  { intros [= <- <-]. split_and!; [done|done|]. intros claimed <-%Ok_inj. simpl. lia. }
  intros Hc. pose proof (Claim_kept _ _ _ _ _ Hinv Hc) as [? ?]. split_and!; [done|done|].
  intros claimed ->. apply Claim_batch in Hc; [|apply Hinv]. simpl in Hc. lia.
Qed.

Lemma place_kept world run correlation causation now db label db' :
  (forall n db, rtc scheduler_step db (wd_Others world n db)) -> scheduler_inv db ->
  place engine world run correlation causation now db = (label, db') -> scheduler_inv db' /\ versioned db db'.
Proof.
  intros Hothers Hinv. unfold place. destruct (ListCandidates _ _ _ _ _ db) as [candidates|e]; [|by intros [= <- <-]].
  destruct (scheduler_steps_kept _ _ Hinv (Hothers 2%nat db)) as [Hinv2 Hv2].
  set (db2 := wd_Others world 2 db) in *. clearbody db2.
  assert (Hsame : forall s : string, (s, db2) = (label, db') -> scheduler_inv db' /\ versioned db db')
    by (by intros s [= <- <-]).
  destruct (Strategy_Select _ _ _) as [selection|e].
  - destruct (DesiredState _ _ _) as [desired|e]; [|apply Hsame].
    destruct (Schedule _ _ _ _ db2) as [r db3] eqn:Hs. apply Schedule_kept in Hs as (? & ? & _); [|done].
    intros [= <- <-]. split; [done|]. by etrans.
  - destruct e; try apply Hsame. destruct (DeferCapacity _ _ db2) as [r db3] eqn:Hs.
    apply DeferCapacity_kept in Hs as (? & ? & _); [|done]. intros [= <- <-]. split; [done|]. by etrans.
Qed.

Lemma process_kept world run db label db' :
  (forall n db, rtc scheduler_step db (wd_Others world n db)) -> scheduler_inv db ->
  process engine world run db = (label, db') -> scheduler_inv db' /\ versioned db db'.
Proof.
  intros Hothers Hinv. unfold process. destruct (Evaluate _ _ _ db) as [[decision|e] db1] eqn:He;
    apply Evaluate_kept in He as [Hinv1 Hv1]; [|done|by intros [= <- <-]|done].
  destruct (scheduler_steps_kept _ _ Hinv1 (Hothers 0%nat db1)) as [Hinv2 Hv2].
  destruct (Renew _ _ _ _ _ _ (wd_Others world 0 db1)) as [[version|e] db3] eqn:Hr;
    apply Renew_kept in Hr as [Hinv3 Hv3]; try done; cycle 1.
  { intros [= <- <-]. split; [done|]. etrans; [exact Hv1|]. by etrans. }
  destruct (scheduler_steps_kept _ _ Hinv3 (Hothers 1%nat db3)) as [Hinv4 Hv4].
  assert (Hv : versioned db (wd_Others world 1 db3)).
  { etrans; [exact Hv1|]. etrans; [exact Hv2|]. by etrans. }
  set (db4 := wd_Others world 1 db3) in *. clearbody db4. destruct (ed_Outcome decision).
  - intros Hp. apply place_kept in Hp as [? ?]; [|done|done]. split; [done|]. by etrans.
  - destruct (DeferCapacity _ _ db4) as [r db5] eqn:Hs. apply DeferCapacity_kept in Hs as (? & ? & _); [|done].
    intros [= <- <-]. split; [done|]. by etrans.
  - destruct (Reject _ _ db4) as [r db5] eqn:Hs. apply Reject_kept in Hs as (? & ? & _); [|done].
    intros [= <- <-]. split; [done|]. by etrans.
Qed.

Lemma engineStarted_inv db :
  0 <= eg_WorkQueueSize (en_configuration engine) -> 0 <= eg_WorkerCount (en_configuration engine) ->
  scheduler_inv db -> engine_inv (engineStarted engine db).
Proof. intros. split; simpl; try done; lia. Qed.

Lemma engine_step_inv s s' : engine_inv s -> engine_step s s' -> engine_inv s'.
Proof.
  intros [Hq Hw Hc Hs] Hstep.
  destruct Hstep as [held now claimed db' Hp Hsc|held now e db' Hp Hsc|run pending Hp Hl|pending Hp _ _|Hp|Hp|Hp _|Hp _
    |run jobs Hj Hi|before run after world label db' Hb Hothers Hpr|_ Hi| | |db' Hstep];
    try rewrite Hp in Hq; cbn [pendingOf length] in Hq.
  - apply scanClaim_spec in Hsc as (? & _ & Hn); [|done|lia]. specialize (Hn _ eq_refl). split; simpl; try done; lia.
  - apply scanClaim_spec in Hsc as (? & _ & _); [|done|lia]. split; simpl; try done; try lia. case_match; lia.
  - split; simpl; try done. rewrite length_app. simpl. lia.
  - split; simpl; try done; lia.
  - split; simpl; try done; lia.
  - split; simpl; try done; lia.
  - split; simpl; try done; lia.
  - split; simpl; try done; lia.
  - rewrite Hj in Hq. split; simpl in *; try done; lia.
  - apply process_kept in Hpr as [? _]; [|done|done]. rewrite Hb, length_app in Hw. split; simpl in *; try done.
    rewrite length_app. lia.
  - split; simpl; try done; lia.
  - by split.
  - by split.
  - split; simpl; try done. by apply (scheduler_step_kept _ _ Hs Hstep).
Qed.

(** the engine is bounded and never blocks on its own queue. In every state
    an engine with a valid configuration reaches, whatever its workers, its
    callers and other processes do: the runs waiting in the channel or about to
    be sent never exceed the queue size, at most the configured number of workers
    is busy, so that at most queue size plus worker count runs are held; a claimed
    run that is about to be sent can always be sent; the failure counter stays
    between zero and five, so the delay before the next scan is positive and at
    most thirty-three seconds; and the store is sound. *)
Theorem engine_bounded configuration selector db s :
  NewEngine configuration selector = Ok engine -> eg_PollInterval configuration * 32 < 2 ^ 63 -> scheduler_inv db ->
  rtc engine_step (engineStarted engine db) s ->
  Z.of_nat (length (es_jobs s) + length (pendingOf (es_phase s)) + length (es_busy s))
    <= eg_WorkQueueSize configuration + eg_WorkerCount configuration /\
  Z.of_nat (length (es_jobs s)) <= eg_WorkQueueSize configuration /\
  Z.of_nat (length (es_busy s)) <= eg_WorkerCount configuration /\
  (forall run pending, es_phase s = Sending (run :: pending) ->
     engine_step s (s <| es_jobs := es_jobs s ++ [run] |> <| es_phase := Sending pending |>)) /\
  0 < pollDelay engine (es_failures s) <= 33 * Second /\ scheduler_inv (es_db s).
Proof.
  intros Hnew Hfit Hdb Hsteps. unfold NewEngine in Hnew. apply bind_ok in Hnew as ([] & Hg%failIf_ok & Hnew%Ok_inj).
  assert (Hcfg : en_configuration engine = configuration) by (by rewrite <-Hnew). reflect_bools.
  assert (Hinv : engine_inv s).
  { assert (Hstart : engine_inv (engineStarted engine db)) by (apply engineStarted_inv; rewrite ?Hcfg; [lia..|done]).
    clear - Hsteps Hstart. induction Hsteps as [|s1 s2 s3 Hstep _ IH]; [done|]. apply IH. by eapply engine_step_inv. }
  destruct Hinv as [Hq Hw Hc Hs]. rewrite Hcfg in *. split_and!; try done; try lia.
  - intros run pending Hp. apply loop_send; [done|]. rewrite Hp in Hq. simpl in Hq. rewrite Hcfg. lia.
  - apply pollDelay_bounds; rewrite ?Hcfg; lia.
  - apply pollDelay_bounds; rewrite ?Hcfg; lia.
Qed.
End Loop.

(** ** Examples *)

Definition example_engine_config : EngineConfig :=
  {| eg_Owner := "scheduler-1"; eg_PollInterval := 2 * Second; eg_LeaseDuration := 30 * Second; eg_BatchSize := 10;
     eg_WorkerCount := 4; eg_WorkQueueSize := 16; eg_AgingInterval := Minute; eg_MaximumAgingBoost := 20;
     eg_ClusterFreshness := 30 * Second; eg_ReservationTTL := 5 * Minute; eg_DeferralDuration := 30 * Second;
     eg_ExecutionIntent := {| ei_RunnerImages := {["python" := example_digest]}; ei_WorkspaceSizeGiB := 10;
       ei_StorageClassName := EmptyString; ei_ArtifactDestinationRef := "artifacts"; ei_ConfigurationRefs := [];
       ei_SecretRefs := [] |} |}.

Definition example_engine : Engine := {| en_configuration := example_engine_config; en_selector := leastLoadedStrategy |}.

(** Nothing else happens while the run is handled. *)
Definition example_surroundings : Surroundings :=
  {| wd_Evaluated := exampleNow; wd_Renewed := exampleNow; wd_DecisionID := Ok (exampleV7 51);
     wd_CapacityID := Ok (exampleV7 31); wd_BudgetID := Ok (exampleV7 32); wd_EventID := Ok (exampleV7 33);
     wd_Others := fun _ db => db |}.

Definition example_process : string * DB :=
  @process rfcUUIDs exampleNetURL byteCollation example_engine example_surroundings example_claimed example_claimed_db.

Lemma example_processed : example_process.1 = "scheduled".
Proof. vm_compute. reflexivity. Qed.

Lemma process_outcome_witness :
  @decided rfcUUIDs exampleNetURL byteCollation example_engine example_surroundings example_claimed "scheduled"
    example_claimed_db example_process.2.
Proof.
  destruct example_process as [label db'] eqn:E. pose proof example_processed as Hl. rewrite E in Hl. cbn [fst] in Hl.
  subst label. unfold example_process in E.
  destruct (@process_outcome rfcUUIDs exampleNetURL byteCollation example_engine example_surroundings example_claimed)
    with (name := "least-loaded") (db := example_claimed_db) (label := "scheduled") (db' := db')
    as [[[Hbad _]|[[Hbad _]|Hd]] _].
  - intros n db. apply rtc_refl.
  - unfold bounded_request. cbn. lia.
  - reflexivity.
  - exact example_claimed_sound.
  - exact E.
  - discriminate Hbad.
  - discriminate Hbad.
  - exact Hd.
Defined.

(** A minute after its lease ran out the run is claimed again. *)
Definition example_scan : res (list ClaimedRun) * DB :=
  scanClaim example_engine (fun _ => false) (exampleNow + 2 * Minute) 0 example_claimed_db.

Lemma example_scanned : exists run db', example_scan = (Ok [run], db').
Proof.
  destruct example_scan as [r db'] eqn:E. pose proof (f_equal fst E) as Hr. cbn [fst] in Hr.
  vm_compute in Hr. subst r. eexists _, _. reflexivity.
Qed.

Lemma engine_bounded_witness :
  exists run db', example_scan = (Ok [run], db') /\ scheduler_inv db' /\
    let s := (engineStarted example_engine example_claimed_db) <| es_phase := Sending [run] |> <| es_db := db' |> in
    @engine_step rfcUUIDs exampleNetURL byteCollation example_engine s
      (s <| es_jobs := es_jobs s ++ [run] |> <| es_phase := Sending [] |>).
Proof.
  destruct example_scanned as (run & db' & E). exists run, db'. split; [exact E|].
  set (s := (engineStarted example_engine example_claimed_db) <| es_phase := Sending [run] |> <| es_db := db' |>).
  assert (Hs : rtc (@engine_step rfcUUIDs exampleNetURL byteCollation example_engine)
    (engineStarted example_engine example_claimed_db) s).
  { eapply rtc_once. exact (@loop_scan rfcUUIDs exampleNetURL byteCollation example_engine (engineStarted example_engine example_claimed_db)
      (fun _ => false) (exampleNow + 2 * Minute) [run] db' eq_refl E). }
  destruct (@engine_bounded rfcUUIDs exampleNetURL byteCollation example_engine example_engine_config leastLoadedStrategy
    example_claimed_db s eq_refl ltac:(done) example_claimed_sound Hs) as (_ & _ & _ & Hsend & _ & Hi).
  exact (conj Hi (Hsend run [] eq_refl)).
Defined.
