(* ===== verification/RunRepo.v ===== *)
(** * Runs and attempts in the store (internal/adapters/postgres/agent_runs.go,
      internal/application/runs/service.go)

    Creating, reading, listing, saving, cancelling and retrying runs, and the
    create command with its idempotency key. *)

From S2P Require Import Prelude AgentRun Policy Cluster Events Intent Store Reservations Queue SchedulingIntent.

Record AgentRunPage := {
  pg_ProjectID : option UUID;
  pg_AfterCreatedAt : option Time;
  pg_AfterID : option UUID;
  pg_Limit : Z;
}.

Record CancelRunRequest := {
  cx_TenantID : UUID;
  cx_RunID : UUID;
  cx_CommandID : string;
  cx_Reason : string;
  cx_Actor : string;
  cx_Now : Time;
}.

Record RetryRunRequest := {
  rx_TenantID : UUID;
  rx_RunID : UUID;
  rx_CommandID : string;
  rx_Actor : string;
  rx_Now : Time;
}.

Record RunCommandResult := {
  cm_Run : AgentRun;
  cm_Replayed : bool;
}.

(** ** Stored responses *)

(** [time.Time.MarshalJSON] refuses years outside 0 to 9999. *)
Definition jsonTimeFails (t : Time) : bool := (t <? - 366 * 24 * Hour) || (3652059 * 24 * Hour <=? t).

Definition marshalIdempotencyResponse (run : AgentRun) : res idempotencyResponse :=
  _ ← failIf (jsonTimeFails (run_CreatedAt run) || jsonTimeFails (run_UpdatedAt run))
      (ErrPlain "marshal idempotency response");
  Ok {| ir_ID := run_ID run; ir_ProjectID := run_ProjectID run; ir_Runtime := run_Runtime run;
        ir_CPUMillis := run_CPUMillis run; ir_MemoryMiB := run_MemoryMiB run;
        ir_TimeoutSeconds := run_TimeoutSeconds run; ir_MaxAttempts := run_MaxAttempts run;
        ir_AttemptCount := run_AttemptCount run; ir_Status := run_Status run;
        ir_CreatedAt := UTC (run_CreatedAt run); ir_UpdatedAt := UTC (run_UpdatedAt run) |}.

(** The fields a stored response overwrites. *)
Definition restored (run : AgentRun) (response : idempotencyResponse) : AgentRun :=
  {| run_ID := run_ID run; run_TenantID := run_TenantID run; run_ProjectID := run_ProjectID run;
     run_PromptReference := run_PromptReference run; run_Runtime := ir_Runtime response;
     run_CPUMillis := ir_CPUMillis response; run_MemoryMiB := ir_MemoryMiB response;
     run_TimeoutSeconds := ir_TimeoutSeconds response; run_MaxAttempts := ir_MaxAttempts response;
     run_AttemptCount := ir_AttemptCount response; run_Status := ir_Status response;
     run_FailureCategory := run_FailureCategory run; run_IdempotencyKey := run_IdempotencyKey run;
     run_RequestHash := run_RequestHash run; run_Version := run_Version run; run_CreatedBy := run_CreatedBy run;
     run_CancellationReason := run_CancellationReason run;
     run_CancellationRequestedBy := run_CancellationRequestedBy run;
     run_CancellationRequestedAt := run_CancellationRequestedAt run; run_CreatedAt := UTC (ir_CreatedAt response);
     run_UpdatedAt := UTC (ir_UpdatedAt response); run_CompletedAt := run_CompletedAt run |}.

(** [None] is the empty payload of rows older than the column. *)
Definition applyIdempotencyResponse (run : AgentRun) (payload : option idempotencyResponse) : res AgentRun :=
  match payload with
  | None => Ok run
  | Some response =>
      _ ← failIf ((ir_ID response != run_ID run) || (ir_ProjectID response != run_ProjectID run)
            || (ir_Status response != AgentRunQueued) || negb (ir_AttemptCount response =? 1)
            || IsZero (ir_CreatedAt response) || IsZero (ir_UpdatedAt response))
          (ErrPlain "stored idempotency response is invalid");
      Ok (restored run response)
  end.

Definition applyCommandResponse (run : AgentRun) (response : idempotencyResponse) : res AgentRun :=
  _ ← failIf ((ir_ID response != run_ID run) || (ir_ProjectID response != run_ProjectID run)
        || (ir_AttemptCount response <? 1) || IsZero (ir_CreatedAt response) || IsZero (ir_UpdatedAt response))
      (ErrPlain "stored command response is invalid");
  Ok (restored run response).

Section Repository.
Context `{UUIDs} `{NetURL}.

(** ** Create and read *)

Definition validateInitialAttempt (run : AgentRun) (attempt : AgentRunAttempt) : res unit :=
  failIf ((run_Status run != AgentRunQueued) || negb (run_AttemptCount run =? 1)
      || (att_TenantID attempt != run_TenantID run) || (att_RunID attempt != run_ID run)
      || negb (att_AttemptNumber attempt =? 1) || (att_Status attempt != AttemptPending))
    (ErrPlain "initial run and attempt state is invalid").

(** The columns [Create] leaves to their defaults. *)
Definition createdRow (run : AgentRun) (response : idempotencyResponse) : RunRow :=
  {| rr_Run := run; rr_Priority := 0; rr_ExecutionProfile := "standard"; rr_PreferredRegion := None;
     rr_NextEligibleAt := None; rr_LeaseOwner := None; rr_LeaseExpiresAt := None; rr_DecisionCode := None;
     rr_DecisionReason := None; rr_Strategy := None; rr_SelectionScore := None;
     rr_IdempotencyResponse := Some response; rr_LastCommand := None |}.

(** [insertAttempt] does not write the columns a scheduling decision sets. *)
Definition insertAttempt (attempt : AgentRunAttempt) : Tx unit :=
  insertAttemptRow (attempt <| att_ExecutionProfile := EmptyString |> <| att_CapacityReservationID := uuidNil |>
    <| att_BudgetReservationID := uuidNil |>).

Definition createTx (run : AgentRun) (attempt : AgentRunAttempt) (event : OutboxEvent)
    (response : idempotencyResponse) : Tx unit :=
  _ ← insertRunRow (createdRow run response);
  _ ← insertAttempt attempt;
  insertOutboxEvent event.

Definition Create (newEventID : res UUID) (run : AgentRun) (attempt : AgentRunAttempt) (db : DB) : res unit * DB :=
  match
    _ ← validateInitialAttempt run attempt;
    event ← NewAgentRunRequested newEventID run attempt;
    response ← marshalIdempotencyResponse run;
    Ok (event, response)
  with
  | Err e => (Err e, db)
  | Ok (event, response) => transact (createTx run attempt event response) db
  end.

Definition Get (tenantID runID : UUID) (db : DB) : res AgentRun :=
  match tenantRow db tenantID runID with Some row => Ok (rr_Run row) | None => Err ErrNotFound end.

(** [where tenant_id = $1 and idempotency_key = $2] *)
Definition keyedRow (db : DB) (tenantID : UUID) (key : string) : option RunRow :=
  head (filter (fun row => run_TenantID (rr_Run row) = tenantID /\ run_IdempotencyKey (rr_Run row) = key)
    (map_to_list (db_runs db)).*2).

Definition GetByIdempotencyKey (tenantID : UUID) (key : string) (db : DB) : res AgentRun :=
  match keyedRow db tenantID key with
  | Some row => applyIdempotencyResponse (rr_Run row) (rr_IdempotencyResponse row)
  | None => Err ErrNotFound
  end.

(** [order by created_at desc, id desc] *)
Definition newest_first : relation AgentRun := newestFirst run_CreatedAt run_ID.

#[export] Instance newest_first_dec : RelDecision newest_first := newestFirst_dec run_CreatedAt run_ID.

(** [(created_at, id) < (cursor)] *)
Definition afterCursor : Time -> UUID -> AgentRun -> Prop := pastKey run_CreatedAt run_ID.

#[export] Instance afterCursor_dec createdAt id run : Decision (afterCursor createdAt id run) :=
  pastKey_dec run_CreatedAt run_ID createdAt id run.

Definition onPage (tenantID : UUID) (page : AgentRunPage) (run : AgentRun) : Prop :=
  run_TenantID run = tenantID /\
  match pg_ProjectID page with None => True | Some project => run_ProjectID run = project end /\
  match pg_AfterCreatedAt page, pg_AfterID page with
  | Some createdAt, Some id => afterCursor (pgTime createdAt) id run
  | _, _ => True
  end.

#[export] Instance onPage_dec tenantID page run : Decision (onPage tenantID page run).
Proof. unfold onPage. destruct (pg_ProjectID page), (pg_AfterCreatedAt page), (pg_AfterID page); apply _. Defined.

Definition pageRuns (tenantID : UUID) (page : AgentRunPage) (db : DB) : list AgentRun :=
  filter (onPage tenantID page) (rr_Run <$> (map_to_list (db_runs db)).*2).

Definition List (tenantID : UUID) (page : AgentRunPage) (db : DB) : res (list AgentRun) :=
  _ ← failIf (bool_decide (is_Some (pg_AfterCreatedAt page)) != bool_decide (is_Some (pg_AfterID page)))
      (ErrPlain "run page cursor must include creation time and ID");
  let limit := if (pg_Limit page <=? 0) || (100 <? pg_Limit page) then 50 else pg_Limit page in
  Ok (take (Z.to_nat limit) (merge_sort newest_first (pageRuns tenantID page db))).

Definition GetAttempt (tenantID runID : UUID) (number : Z) (db : DB) : res AgentRunAttempt :=
  match head (filter (fun a => att_TenantID a = tenantID /\ att_RunID a = runID /\ att_AttemptNumber a = number)
    (map_to_list (db_attempts db)).*2) with
  | Some attempt => Ok attempt
  | None => Err ErrNotFound
  end.

Definition by_number (a b : AgentRunAttempt) : Prop := att_AttemptNumber a <= att_AttemptNumber b.

#[export] Instance by_number_dec : RelDecision by_number.
Proof. intros a b. unfold by_number. apply _. Defined.

Definition ListAttempts (tenantID runID : UUID) (db : DB) : list AgentRunAttempt :=
  merge_sort by_number (filter (fun a => att_TenantID a = tenantID /\ att_RunID a = runID)
    (map_to_list (db_attempts db)).*2).

(** ** Save *)

(** The columns [updateRun] writes. *)
Definition savedRow (run : AgentRun) (row : RunRow) : RunRow :=
  let stored := rr_Run row in
  row <| rr_Run :=
    {| run_ID := run_ID stored; run_TenantID := run_TenantID stored; run_ProjectID := run_ProjectID stored;
       run_PromptReference := run_PromptReference stored; run_Runtime := run_Runtime stored;
       run_CPUMillis := run_CPUMillis stored; run_MemoryMiB := run_MemoryMiB stored;
       run_TimeoutSeconds := run_TimeoutSeconds stored; run_MaxAttempts := run_MaxAttempts stored;
       run_AttemptCount := run_AttemptCount run; run_Status := run_Status run;
       run_FailureCategory := run_FailureCategory run; run_IdempotencyKey := run_IdempotencyKey stored;
       run_RequestHash := run_RequestHash stored; run_Version := run_Version stored;
       run_CreatedBy := run_CreatedBy stored; run_CancellationReason := run_CancellationReason run;
       run_CancellationRequestedBy := run_CancellationRequestedBy run;
       run_CancellationRequestedAt := pgTime <$> run_CancellationRequestedAt run;
       run_CreatedAt := run_CreatedAt stored; run_UpdatedAt := pgTime (run_UpdatedAt run);
       run_CompletedAt := pgTime <$> run_CompletedAt run |} |>.

(** [None] when the statement returns no row. *)
Definition updateRun (run : AgentRun) (expectedVersion : Z) (requireAttemptIncrease : bool) : Tx (option AgentRun) :=
  before ← query (fun db => db_runs db !! run_ID run);
  if requireAttemptIncrease
     && negb (match before with
              | Some row => run_AttemptCount (rr_Run row) + 1 =? run_AttemptCount run
              | None => false
              end)
  then mret None
  else
    count ← updateRunRow (run_TenantID run) (run_ID run) expectedVersion (savedRow run);
    if count =? 1 then query (fun db => rr_Run <$> db_runs db !! run_ID run) else mret None.

(** [saveError] for the error of a statement that returned no row. *)
Definition saveError {A} (tenantID runID : UUID) : Tx A :=
  db ← query id;
  lift (Err (match tenantRow db tenantID runID with Some _ => ErrVersionConflict | None => ErrNotFound end)).

Definition saveTx (run : AgentRun) (expectedVersion : Z) (requireAttemptIncrease : bool) : Tx AgentRun :=
  updated ← updateRun run expectedVersion requireAttemptIncrease;
  match updated with
  | None => saveError (run_TenantID run) (run_ID run)
  | Some updated => mret updated
  end.

Definition Save (run : AgentRun) (expectedVersion : Z) (db : DB) : res AgentRun * DB :=
  transact (saveTx run expectedVersion false) db.

Definition CreateNextAttempt (run : AgentRun) (attempt : AgentRunAttempt) (expectedVersion : Z) (db : DB)
    : res AgentRun * DB :=
  if (att_TenantID attempt != run_TenantID run) || (att_RunID attempt != run_ID run)
     || (att_Status attempt != AttemptPending) || negb (att_AttemptNumber attempt =? run_AttemptCount run)
  then (Err (ErrPlain "next attempt does not match run state"), db)
  else transact (
    updated ← saveTx run expectedVersion true;
    _ ← insertAttempt attempt;
    mret updated) db.

(** The columns [SaveAttempt] writes. *)
Definition savedAttempt (attempt stored : AgentRunAttempt) : AgentRunAttempt :=
  stored <| att_Status := att_Status attempt |> <| att_FailureCategory := att_FailureCategory attempt |>
    <| att_SelectedCluster := att_SelectedCluster attempt |> <| att_ExecutionProfile := att_ExecutionProfile attempt |>
    <| att_CapacityReservationID := att_CapacityReservationID attempt |>
    <| att_BudgetReservationID := att_BudgetReservationID attempt |>
    <| att_WorkloadReference := att_WorkloadReference attempt |> <| att_UpdatedAt := pgTime (att_UpdatedAt attempt) |>
    <| att_StartedAt := pgTime <$> att_StartedAt attempt |> <| att_CompletedAt := pgTime <$> att_CompletedAt attempt |>.

Definition SaveAttempt (attempt : AgentRunAttempt) (expectedVersion : Z) (db : DB) : res AgentRunAttempt * DB :=
  transact (
    count ← updateAttemptRow (att_TenantID attempt) (att_ID attempt) expectedVersion (savedAttempt attempt);
    if count =? 1 then queryRow (fun db => db_attempts db !! att_ID attempt)
    else saveError (att_TenantID attempt) (att_RunID attempt)) db.

(** ** Cancel and Retry *)

Definition validateCancelRequest (request : CancelRunRequest) : res unit :=
  failIf ((cx_TenantID request == uuidNil) || (cx_RunID request == uuidNil) || blank (cx_CommandID request)
      || (255 <? len (cx_CommandID request)) || blank (cx_Actor request) || (255 <? len (cx_Actor request))
      || blank (cx_Reason request) || (500 <? len (cx_Reason request)) || IsZero (cx_Now request)) ErrValidation.

Definition validateRetryRequest (request : RetryRunRequest) : res unit :=
  failIf ((rx_TenantID request == uuidNil) || (rx_RunID request == uuidNil) || blank (rx_CommandID request)
      || (255 <? len (rx_CommandID request)) || blank (rx_Actor request) || (255 <? len (rx_Actor request))
      || IsZero (rx_Now request)) ErrValidation.

(** The run and its last command, locked. *)
Definition lockedCommandRun (tenantID runID : UUID) : Tx (AgentRun * option CommandReceipt) :=
  row ← queryRow (fun db => tenantRow db tenantID runID);
  mret (rr_Run row, rr_LastCommand row).

(** The stored response of this very command. *)
Definition repeats (type : CommandType) (commandID : string) (receipt : option CommandReceipt)
    : option idempotencyResponse :=
  match receipt with
  | Some receipt => if (cmd_Type receipt == type) && (cmd_ID receipt == commandID) then Some (cmd_Response receipt) else None
  | None => None
  end.

Definition cancellingRow (run : AgentRun) (receipt : CommandReceipt) (row : RunRow) : RunRow :=
  let stored := rr_Run row in
  {| rr_Run :=
       {| run_ID := run_ID stored; run_TenantID := run_TenantID stored; run_ProjectID := run_ProjectID stored;
          run_PromptReference := run_PromptReference stored; run_Runtime := run_Runtime stored;
          run_CPUMillis := run_CPUMillis stored; run_MemoryMiB := run_MemoryMiB stored;
          run_TimeoutSeconds := run_TimeoutSeconds stored; run_MaxAttempts := run_MaxAttempts stored;
          run_AttemptCount := run_AttemptCount stored; run_Status := run_Status run;
          run_FailureCategory := run_FailureCategory stored; run_IdempotencyKey := run_IdempotencyKey stored;
          run_RequestHash := run_RequestHash stored; run_Version := run_Version stored;
          run_CreatedBy := run_CreatedBy stored; run_CancellationReason := run_CancellationReason run;
          run_CancellationRequestedBy := run_CancellationRequestedBy run;
          run_CancellationRequestedAt := pgTime <$> run_CancellationRequestedAt run;
          run_CreatedAt := run_CreatedAt stored; run_UpdatedAt := pgTime (run_UpdatedAt run);
          run_CompletedAt := run_CompletedAt stored |};
     rr_Priority := rr_Priority row; rr_ExecutionProfile := rr_ExecutionProfile row;
     rr_PreferredRegion := rr_PreferredRegion row; rr_NextEligibleAt := None; rr_LeaseOwner := None;
     rr_LeaseExpiresAt := None; rr_DecisionCode := rr_DecisionCode row;
     rr_DecisionReason := rr_DecisionReason row; rr_Strategy := rr_Strategy row;
     rr_SelectionScore := rr_SelectionScore row; rr_IdempotencyResponse := rr_IdempotencyResponse row;
     rr_LastCommand := Some receipt |}.

Definition cancelTx (newEventID : res UUID) (request : CancelRunRequest) : Tx RunCommandResult :=
  locked ← lockedCommandRun (cx_TenantID request) (cx_RunID request);
  let '(run, receipt) := locked in
  match repeats CommandCancel (cx_CommandID request) receipt with
  | Some response =>
      run ← lift (applyCommandResponse run response);
      mret {| cm_Run := run; cm_Replayed := true |}
  | None =>
      if (run_Status run == AgentRunCancelling) || (run_Status run == AgentRunCancelled)
      then mret {| cm_Run := run; cm_Replayed := true |}
      else
        _ ← abortIf (IsTerminal (run_Status run)) ErrRunTerminal;
        let expectedVersion := run_Version run in
        let run := run <| run_CancellationReason := cx_Reason request |>
                       <| run_CancellationRequestedBy := cx_Actor request |>
                       <| run_CancellationRequestedAt := Some (UTC (cx_Now request)) |> in
        run ← lift (Transition run AgentRunCancelling FailureUnset (cx_Now request));
        let run := run <| run_Version := add64 (run_Version run) 1 |> in
        response ← lift (marshalIdempotencyResponse run);
        count ← updateRunRow (run_TenantID run) (run_ID run) expectedVersion (cancellingRow run
          {| cmd_Type := CommandCancel; cmd_ID := cx_CommandID request; cmd_Response := response |});
        _ ← abortIf (negb (count =? 1)) ErrVersionConflict;
        event ← lift (NewAgentRunCancelRequested newEventID run (cx_CommandID request));
        _ ← insertOutboxEvent event;
        mret {| cm_Run := run; cm_Replayed := false |}
  end.

Definition Cancel (newEventID : res UUID) (request : CancelRunRequest) (db : DB) : res RunCommandResult * DB :=
  match validateCancelRequest request with
  | Err e => (Err e, db)
  | Ok _ => transact (cancelTx newEventID request) db
  end.

Definition requeuedRow (run : AgentRun) (receipt : CommandReceipt) (row : RunRow) : RunRow :=
  let stored := rr_Run row in
  {| rr_Run :=
       {| run_ID := run_ID stored; run_TenantID := run_TenantID stored; run_ProjectID := run_ProjectID stored;
          run_PromptReference := run_PromptReference stored; run_Runtime := run_Runtime stored;
          run_CPUMillis := run_CPUMillis stored; run_MemoryMiB := run_MemoryMiB stored;
          run_TimeoutSeconds := run_TimeoutSeconds stored; run_MaxAttempts := run_MaxAttempts stored;
          run_AttemptCount := run_AttemptCount run; run_Status := AgentRunQueued;
          run_FailureCategory := FailureUnset; run_IdempotencyKey := run_IdempotencyKey stored;
          run_RequestHash := run_RequestHash stored; run_Version := run_Version stored;
          run_CreatedBy := run_CreatedBy stored; run_CancellationReason := run_CancellationReason stored;
          run_CancellationRequestedBy := run_CancellationRequestedBy stored;
          run_CancellationRequestedAt := run_CancellationRequestedAt stored; run_CreatedAt := run_CreatedAt stored;
          run_UpdatedAt := pgTime (run_UpdatedAt run); run_CompletedAt := None |};
     rr_Priority := rr_Priority row; rr_ExecutionProfile := rr_ExecutionProfile row;
     rr_PreferredRegion := rr_PreferredRegion row; rr_NextEligibleAt := None; rr_LeaseOwner := None;
     rr_LeaseExpiresAt := None; rr_DecisionCode := rr_DecisionCode row;
     rr_DecisionReason := rr_DecisionReason row; rr_Strategy := rr_Strategy row;
     rr_SelectionScore := rr_SelectionScore row; rr_IdempotencyResponse := rr_IdempotencyResponse row;
     rr_LastCommand := Some receipt |}.

Definition retryTx (newAttemptID newEventID : res UUID) (request : RetryRunRequest) : Tx RunCommandResult :=
  locked ← lockedCommandRun (rx_TenantID request) (rx_RunID request);
  let '(run, receipt) := locked in
  match repeats CommandRetry (rx_CommandID request) receipt with
  | Some response =>
      run ← lift (applyCommandResponse run response);
      mret {| cm_Run := run; cm_Replayed := true |}
  | None =>
      _ ← abortIf (negb (CanRetry run)) ErrRetryNotAllowed;
      let previousStatus := run_Status run in
      let previousFailure := run_FailureCategory run in
      let expectedVersion := run_Version run in
      run ← lift (Transition run AgentRunQueued FailureUnset (rx_Now request));
      let run := run <| run_Version := add64 (run_Version run) 1 |> in
      attempt ← lift (NewAgentRunAttempt newAttemptID (run_TenantID run) (run_ID run) (run_AttemptCount run) (rx_Now request));
      response ← lift (marshalIdempotencyResponse run);
      count ← updateRunRow (run_TenantID run) (run_ID run) expectedVersion (requeuedRow run
        {| cmd_Type := CommandRetry; cmd_ID := rx_CommandID request; cmd_Response := response |});
      _ ← abortIf (negb (count =? 1)) ErrVersionConflict;
      _ ← insertAttempt attempt;
      event ← lift (NewAgentRunRetryRequested newEventID run previousStatus previousFailure (rx_Actor request)
                      (rx_CommandID request));
      _ ← insertOutboxEvent event;
      mret {| cm_Run := run; cm_Replayed := false |}
  end.

Definition Retry (newAttemptID newEventID : res UUID) (request : RetryRunRequest) (db : DB)
    : res RunCommandResult * DB :=
  match validateRetryRequest request with
  | Err e => (Err e, db)
  | Ok _ => transact (retryTx newAttemptID newEventID request) db
  end.
End Repository.

(** ** What the commands do *)

Section Commands.
Context `{UUIDs} `{NetURL}.

Lemma lockedCommandRun_spec tenantID runID db locked db' :
  lockedCommandRun tenantID runID db = Ok (locked, db') ->
  db' = db /\ exists row, db_runs db !! runID = Some row /\ run_TenantID (rr_Run row) = tenantID /\
    locked = (rr_Run row, rr_LastCommand row).
Proof.
  unfold lockedCommandRun, tenantRow. intros Hl. tx_inv. split; [done|].
  destruct (db_runs db !! runID) as [row|]; [|done]. destruct (_ =? tenantID) eqn:Ht; [|done].
  exists row. apply Z.eqb_eq in Ht. split_and!; try done. congruence.
Qed.

Lemma marshal_ok run response :
  marshalIdempotencyResponse run = Ok response ->
  ir_ID response = run_ID run /\ ir_ProjectID response = run_ProjectID run /\
  ir_AttemptCount response = run_AttemptCount run /\ ir_CreatedAt response = run_CreatedAt run /\
  ir_UpdatedAt response = run_UpdatedAt run /\ ir_Status response = run_Status run /\
  forall other, restored other response =
    {| run_ID := run_ID other; run_TenantID := run_TenantID other; run_ProjectID := run_ProjectID other;
       run_PromptReference := run_PromptReference other; run_Runtime := run_Runtime run;
       run_CPUMillis := run_CPUMillis run; run_MemoryMiB := run_MemoryMiB run;
       run_TimeoutSeconds := run_TimeoutSeconds run; run_MaxAttempts := run_MaxAttempts run;
       run_AttemptCount := run_AttemptCount run; run_Status := run_Status run;
       run_FailureCategory := run_FailureCategory other; run_IdempotencyKey := run_IdempotencyKey other;
       run_RequestHash := run_RequestHash other; run_Version := run_Version other;
       run_CreatedBy := run_CreatedBy other; run_CancellationReason := run_CancellationReason other;
       run_CancellationRequestedBy := run_CancellationRequestedBy other;
       run_CancellationRequestedAt := run_CancellationRequestedAt other; run_CreatedAt := run_CreatedAt run;
       run_UpdatedAt := run_UpdatedAt run; run_CompletedAt := run_CompletedAt other |}.
Proof.
  unfold marshalIdempotencyResponse. intros Hm. apply bind_ok in Hm as ([] & _ & Hm). apply Ok_inj in Hm as <-.
  by split_and!.
Qed.

(** The run a cancellation writes and answers with. *)
Definition cancelledRun (request : CancelRunRequest) (run : AgentRun) : AgentRun :=
  {| run_ID := run_ID run; run_TenantID := run_TenantID run; run_ProjectID := run_ProjectID run;
     run_PromptReference := run_PromptReference run; run_Runtime := run_Runtime run;
     run_CPUMillis := run_CPUMillis run; run_MemoryMiB := run_MemoryMiB run;
     run_TimeoutSeconds := run_TimeoutSeconds run; run_MaxAttempts := run_MaxAttempts run;
     run_AttemptCount := run_AttemptCount run; run_Status := AgentRunCancelling;
     run_FailureCategory := run_FailureCategory run; run_IdempotencyKey := run_IdempotencyKey run;
     run_RequestHash := run_RequestHash run; run_Version := run_Version run + 1; run_CreatedBy := run_CreatedBy run;
     run_CancellationReason := cx_Reason request; run_CancellationRequestedBy := cx_Actor request;
     run_CancellationRequestedAt := Some (cx_Now request); run_CreatedAt := run_CreatedAt run;
     run_UpdatedAt := cx_Now request; run_CompletedAt := run_CompletedAt run |}.

Lemma cancelTx_spec ide request db result db' :
  runs_keyed db -> cancelTx ide request db = Ok (result, db') ->
  exists row, db_runs db !! cx_RunID request = Some row /\ run_TenantID (rr_Run row) = cx_TenantID request /\
  ((cm_Replayed result = true /\ db' = db /\
      ((exists response, repeats CommandCancel (cx_CommandID request) (rr_LastCommand row) = Some response /\
          applyCommandResponse (rr_Run row) response = Ok (cm_Run result)) \/
       (cm_Run result = rr_Run row /\ run_Status (rr_Run row) ∈ [AgentRunCancelling; AgentRunCancelled]))) \/
   (cm_Replayed result = false /\ cm_Run result = cancelledRun request (rr_Run row) /\
    run_edge (run_Status (rr_Run row)) AgentRunCancelling /\
    exists response event,
      let row' := bumped (cancellingRow (cancelledRun request (rr_Run row))
        {| cmd_Type := CommandCancel; cmd_ID := cx_CommandID request; cmd_Response := response |}) row in
      marshalIdempotencyResponse (cancelledRun request (rr_Run row)) = Ok response /\ runRowValid row' = true /\
      event_contract event /\ env_EventType (oe_Envelope event) = AgentRunCancelRequestedType /\
      env_TenantID (oe_Envelope event) = cx_TenantID request /\ env_RunID (oe_Envelope event) = Some (cx_RunID request) /\
      env_AggregateVersion (oe_Envelope event) = run_Version (rr_Run row) + 1 /\
      db_outbox db !! env_EventID (oe_Envelope event) = None /\
      db' = db <| db_runs := <[cx_RunID request := row']> (db_runs db) |>
               <| db_outbox := <[env_EventID (oe_Envelope event) := pendingRow event]> (db_outbox db) |>)).
Proof.
  intros Hkey Hc. unfold cancelTx in Hc.
  apply tx_bind_ok in Hc as (locked & ? & (-> & row & Hrow & Hten & ->)%lockedCommandRun_spec & Hc).
  pose proof (Hkey _ _ Hrow) as Hid. exists row. split; [done|]. split; [done|].
  destruct (repeats _ _ _) as [response|] eqn:Hrep.
  { apply tx_bind_ok in Hc as (run & ? & [Ha ->]%lift_tx_ok & Hc). tx_inv. left. simpl. split_and!; try done. left. by eexists. }
  destruct (_ || _) eqn:Hcan.
  { tx_inv. left. simpl. split_and!; try done. right. split; [done|].
    apply orb_true_iff in Hcan as [->%bool_decide_eq_true| ->%bool_decide_eq_true]; set_solver. }
  right. apply tx_bind_ok in Hc as ([] & ? & [Hterm ->]%abortIf_ok & Hc).
  apply orb_false_iff in Hcan as [Hn1%bool_decide_eq_false Hn2%bool_decide_eq_false].
  assert (Hedge : run_edge (run_Status (rr_Run row)) AgentRunCancelling).
  { constructor. destruct (run_Status (rr_Run row)); try done; set_solver. }
  apply tx_bind_ok in Hc as (run & ? & [Htr ->]%lift_tx_ok & Hc). rewrite Transition_edge in Htr by done.
  apply Ok_inj in Htr as <-. simpl in Hc.
  apply tx_bind_ok in Hc as (response & ? & [Hm ->]%lift_tx_ok & Hc).
  apply tx_bind_ok in Hc as (n & db1 & Hu & Hc). rewrite Hid in Hu.
  apply (updateRunRow_hit _ _ _ _ _ _ _ row) in Hu as (-> & Hval & Hvi & ->); try done.
  apply tx_bind_ok in Hc as ([] & ? & [_ ->]%abortIf_ok & Hc).
  apply tx_bind_ok in Hc as (event & ? & [Hev ->]%lift_tx_ok & Hc).
  apply tx_bind_ok in Hc as ([] & db3 & (Hon & ->)%insertOutboxEvent_spec & Hc). simpl in Hon. tx_inv.
  pose proof Hev as (_ & _ & _ & Hty & _ & _ & _ & Het & Her & Hea & _)%newEvent_ok. simpl in Het, Her, Hea.
  apply lifecycle_event_contract in Hev; [|done]. rewrite add64_next in * by done.
  split; [done|]. split; [done|]. split; [done|]. exists response, event. unfold cancelledRun.
  rewrite <-Hid at 1. rewrite <-Hten. by split_and!.
Qed.

(** The run a manual retry writes and answers with, and its next attempt. *)
Definition retriedRun (request : RetryRunRequest) (run : AgentRun) : AgentRun :=
  {| run_ID := run_ID run; run_TenantID := run_TenantID run; run_ProjectID := run_ProjectID run;
     run_PromptReference := run_PromptReference run; run_Runtime := run_Runtime run;
     run_CPUMillis := run_CPUMillis run; run_MemoryMiB := run_MemoryMiB run;
     run_TimeoutSeconds := run_TimeoutSeconds run; run_MaxAttempts := run_MaxAttempts run;
     run_AttemptCount := run_AttemptCount run + 1; run_Status := AgentRunQueued;
     run_FailureCategory := FailureUnset; run_IdempotencyKey := run_IdempotencyKey run;
     run_RequestHash := run_RequestHash run; run_Version := run_Version run + 1; run_CreatedBy := run_CreatedBy run;
     run_CancellationReason := run_CancellationReason run;
     run_CancellationRequestedBy := run_CancellationRequestedBy run;
     run_CancellationRequestedAt := run_CancellationRequestedAt run; run_CreatedAt := run_CreatedAt run;
     run_UpdatedAt := rx_Now request; run_CompletedAt := None |}.

Definition nextAttempt (id : UUID) (now : Time) (run : AgentRun) : AgentRunAttempt :=
  {| att_ID := id; att_TenantID := run_TenantID run; att_RunID := run_ID run;
     att_AttemptNumber := run_AttemptCount run + 1; att_Status := AttemptPending; att_FailureCategory := FailureUnset;
     att_Version := 1; att_SelectedCluster := EmptyString; att_ExecutionProfile := EmptyString;
     att_CapacityReservationID := uuidNil; att_BudgetReservationID := uuidNil; att_WorkloadReference := EmptyString;
     att_CreatedAt := pgTime now; att_UpdatedAt := pgTime now; att_StartedAt := None; att_CompletedAt := None |}.

Lemma insertAttempt_spec attempt db u db' :
  insertAttempt attempt db = Ok (u, db') ->
  db_attempts db !! att_ID attempt = None /\
  (forall id a, db_attempts db !! id = Some a -> att_RunID a = att_RunID attempt ->
     att_AttemptNumber a = att_AttemptNumber attempt -> False) /\
  db' = db <| db_attempts := <[att_ID attempt := pgAttempt (attempt <| att_ExecutionProfile := EmptyString |>
    <| att_CapacityReservationID := uuidNil |> <| att_BudgetReservationID := uuidNil |>)]> (db_attempts db) |>.
Proof.
  intros Hi. unfold insertAttempt, insertAttemptRow in Hi. cbn [att_ID att_RunID att_AttemptNumber att_TenantID] in Hi.
  apply tx_bind_ok in Hi as (? & ? & [_ ->]%abortIf_ok & Hi). apply tx_bind_ok in Hi as (? & ? & [_ ->]%abortIf_ok & Hi).
  apply tx_bind_ok in Hi as (? & ? & [-> ->]%query_ok & Hi). apply tx_bind_ok in Hi as (? & ? & [Hnone ->]%abortIf_ok & Hi).
  apply tx_bind_ok in Hi as (? & ? & [Hex ->]%abortIf_ok & Hi). apply tx_bind_ok in Hi as (? & ? & [_ ->]%abortIf_ok & Hi).
  apply modify_ok in Hi as ->. apply bool_decide_eq_false in Hnone. rewrite <-eq_None_not_Some in Hnone.
  pose proof (map_Exists_false _ _ Hex) as Hex'. split_and!; try done. intros id a Ha Hr Hn. by apply (Hex' id a Ha).
Qed.

(** A run in the range of its columns. *)
Lemma runRowValid_attempts row : runRowValid row = true -> 1 <= run_AttemptCount (rr_Run row) <= 10.
Proof. unfold runRowValid. rewrite !andb_true_iff, !Z.leb_le. intros. destruct_and?. lia. Qed.

Lemma CanRetry_requeue run failure now run' :
  CanRetry run = true -> Transition run AgentRunQueued failure now = Ok run' -> run_AttemptCount run < 10 ->
  1 <= run_AttemptCount run -> retryable_status (run_Status run) = true /\ run_AttemptCount run < run_MaxAttempts run /\
  run' = run <| run_AttemptCount := run_AttemptCount run + 1 |> <| run_FailureCategory := FailureUnset |>
             <| run_CompletedAt := None |> <| run_Status := AgentRunQueued |> <| run_UpdatedAt := now |>.
Proof.
  intros Hc Ht Hlt Hge. pose proof Hc as (Hterm & Hmax & _)%CanRetry_iff.
  assert (Hs : retryable_status (run_Status run) = true).
  { unfold Transition in Ht. apply bind_ok in Ht as ([] & Hg%failIf_ok & _). apply negb_false_iff, CanTransition_iff in Hg
      as [Heq|[Hedge|(? & _)]]; [rewrite Heq in Hterm; done| |done]. apply run_edge_source in Hedge. congruence. }
  rewrite (Transition_retry _ _ _ Hs Hc) in Ht. apply Ok_inj in Ht as <-.
  rewrite add64_next by (unfold in_int64; lia). done.
Qed.

Lemma retryTx_spec ida ide request db result db' :
  runs_keyed db -> (forall id row, db_runs db !! id = Some row -> runRowValid row = true) ->
  retryTx ida ide request db = Ok (result, db') ->
  exists row, db_runs db !! rx_RunID request = Some row /\ run_TenantID (rr_Run row) = rx_TenantID request /\
  ((cm_Replayed result = true /\ db' = db /\
      exists response, repeats CommandRetry (rx_CommandID request) (rr_LastCommand row) = Some response /\
        applyCommandResponse (rr_Run row) response = Ok (cm_Run result)) \/
   (cm_Replayed result = false /\ cm_Run result = retriedRun request (rr_Run row) /\ CanRetry (rr_Run row) = true /\
    retryable_status (run_Status (rr_Run row)) = true /\
    exists id response event,
      let row' := bumped (requeuedRow (retriedRun request (rr_Run row))
        {| cmd_Type := CommandRetry; cmd_ID := rx_CommandID request; cmd_Response := response |}) row in
      marshalIdempotencyResponse (retriedRun request (rr_Run row)) = Ok response /\ runRowValid row' = true /\
      db_attempts db !! id = None /\
      (forall id' a, db_attempts db !! id' = Some a -> att_RunID a = rx_RunID request ->
         att_AttemptNumber a = run_AttemptCount (rr_Run row) + 1 -> False) /\
      event_contract event /\ env_EventType (oe_Envelope event) = AgentRunRetryRequestedType /\
      env_TenantID (oe_Envelope event) = rx_TenantID request /\ env_RunID (oe_Envelope event) = Some (rx_RunID request) /\
      env_AggregateVersion (oe_Envelope event) = run_Version (rr_Run row) + 1 /\
      db_outbox db !! env_EventID (oe_Envelope event) = None /\
      db' = db <| db_runs := <[rx_RunID request := row']> (db_runs db) |>
               <| db_attempts := <[id := nextAttempt id (rx_Now request) (rr_Run row)]> (db_attempts db) |>
               <| db_outbox := <[env_EventID (oe_Envelope event) := pendingRow event]> (db_outbox db) |>)).
Proof.
  intros Hkey Hvalid Hc. unfold retryTx in Hc.
  apply tx_bind_ok in Hc as (locked & ? & (-> & row & Hrow & Hten & ->)%lockedCommandRun_spec & Hc).
  pose proof (Hkey _ _ Hrow) as Hid. pose proof (runRowValid_attempts _ (Hvalid _ _ Hrow)) as Hatt.
  exists row. split; [done|]. split; [done|].
  destruct (repeats _ _ _) as [response|] eqn:Hrep.
  { apply tx_bind_ok in Hc as (run & ? & [Ha ->]%lift_tx_ok & Hc). tx_inv. left. simpl. split_and!; try done. by eexists. }
  right. apply tx_bind_ok in Hc as ([] & ? & [Hcan%negb_false_iff ->]%abortIf_ok & Hc).
  pose proof Hcan as (_ & Hmax & _)%CanRetry_iff.
  assert (Hlt : run_AttemptCount (rr_Run row) < 10).
  { pose proof (Hvalid _ _ Hrow) as Hv. unfold runRowValid in Hv. rewrite !andb_true_iff, !Z.leb_le in Hv. destruct_and?. lia. }
  apply tx_bind_ok in Hc as (run & ? & [Htr ->]%lift_tx_ok & Hc).
  apply CanRetry_requeue in Htr as (Hst & _ & ->); try done; try lia. simpl in Hc.
  apply tx_bind_ok in Hc as (attempt & ? & [Hatn ->]%lift_tx_ok & Hc).
  apply tx_bind_ok in Hc as (response & ? & [Hm ->]%lift_tx_ok & Hc).
  apply tx_bind_ok in Hc as (n & db1 & Hu & Hc). rewrite Hid in Hu.
  apply (updateRunRow_hit _ _ _ _ _ _ _ row) in Hu as (-> & Hval & Hvi & ->); try done.
  apply tx_bind_ok in Hc as ([] & ? & [_ ->]%abortIf_ok & Hc).
  apply tx_bind_ok in Hc as ([] & db2 & (Han & Haf & ->)%insertAttempt_spec & Hc). simpl in Han, Haf.
  apply tx_bind_ok in Hc as (event & ? & [Hev ->]%lift_tx_ok & Hc).
  apply tx_bind_ok in Hc as ([] & db3 & (Hon & ->)%insertOutboxEvent_spec & Hc). simpl in Hon. tx_inv.
  pose proof Hev as (_ & _ & _ & Hty & _ & _ & _ & Het & Her & Hea & _)%newEvent_ok. simpl in Het, Her, Hea.
  apply lifecycle_event_contract in Hev; [|done]. rewrite add64_next in * by done.
  unfold NewAgentRunAttempt in Hatn. apply bind_ok in Hatn as ([] & _ & Hatn). apply bind_ok in Hatn as (id & _ & Hatn).
  apply Ok_inj in Hatn as <-. simpl in *. rewrite Hid in Haf, Her.
  split; [done|]. split; [done|]. split; [done|]. split; [done|]. exists id, response, event. rewrite <-Hten.
  split_and!; done.
Qed.

(** Rows satisfy their check constraints and have a creation time. *)
Record rows_valid (db : DB) : Prop := {
  rv_valid : forall id row, db_runs db !! id = Some row -> runRowValid row = true;
  rv_created : forall id row, db_runs db !! id = Some row -> run_CreatedAt (rr_Run row) <> 0;
}.

Lemma applyCommandResponse_ok run response :
  ir_ID response = run_ID run -> ir_ProjectID response = run_ProjectID run -> 1 <= ir_AttemptCount response ->
  ir_CreatedAt response <> 0 -> ir_UpdatedAt response <> 0 ->
  applyCommandResponse run response = Ok (restored run response).
Proof.
  intros Hi Hp Ha Hc Hu. unfold applyCommandResponse. rewrite bind_failIf, !bool_decide_eq_true_2 by done.
  unfold IsZero. by rewrite (proj2 (Z.ltb_ge _ _) Ha), (proj2 (Z.eqb_neq _ _) Hc), (proj2 (Z.eqb_neq _ _) Hu).
Qed.

Lemma valid_cancel_now request : validateCancelRequest request = Ok tt -> cx_Now request <> 0.
Proof. unfold validateCancelRequest, IsZero. intros Hv%failIf_ok. reflect_bools. lia. Qed.

Lemma valid_retry_now request : validateRetryRequest request = Ok tt -> rx_Now request <> 0.
Proof. unfold validateRetryRequest, IsZero. intros Hv%failIf_ok. reflect_bools. lia. Qed.

Lemma repeats_hit type id receipt response :
  receipt = Some {| cmd_Type := type; cmd_ID := id; cmd_Response := response |} ->
  repeats type id receipt = Some response.
Proof. intros ->. unfold repeats. simpl. by rewrite !bool_decide_eq_true_2. Qed.

(** [Cancel] is all or nothing. A new command moves a run that has not
    ended to [CANCELLING] with the reason, the actor and the time, at its next
    version, takes any scheduler lease away, and stores its receipt and one
    contract-conforming cancellation event; nothing else changes. Repeating the
    command, even with another reason, actor or time, gets the same answer with
    the request time at microsecond precision, and changes nothing. On an error
    nothing changes. *)
Theorem Cancel_atomic ide request db r db' :
  runs_keyed db -> rows_valid db -> Cancel ide request db = (r, db') ->
  match r with
  | Err _ => db' = db
  | Ok result =>
      if cm_Replayed result then db' = db else
      (exists row row' event,
        db_runs db !! cx_RunID request = Some row /\ run_TenantID (rr_Run row) = cx_TenantID request /\
        run_edge (run_Status (rr_Run row)) AgentRunCancelling /\ cm_Run result = cancelledRun request (rr_Run row) /\
        pgRun (rr_Run row') = pgRun (cm_Run result) /\ rr_LeaseOwner row' = None /\ rr_NextEligibleAt row' = None /\
        event_contract event /\ env_EventType (oe_Envelope event) = AgentRunCancelRequestedType /\
        env_RunID (oe_Envelope event) = Some (cx_RunID request) /\
        env_AggregateVersion (oe_Envelope event) = run_Version (rr_Run row) + 1 /\
        db_outbox db !! env_EventID (oe_Envelope event) = None /\
        db' = db <| db_runs := <[cx_RunID request := row']> (db_runs db) |>
                 <| db_outbox := <[env_EventID (oe_Envelope event) := pendingRow event]> (db_outbox db) |>) /\
      forall ide' request', validateCancelRequest request' = Ok tt -> cx_TenantID request' = cx_TenantID request ->
        cx_RunID request' = cx_RunID request -> cx_CommandID request' = cx_CommandID request ->
        Cancel ide' request' db' =
          (Ok {| cm_Run := (cm_Run result) <| run_CancellationRequestedAt := Some (pgTime (cx_Now request)) |>;
                 cm_Replayed := true |}, db')
  end.
Proof.
  intros Hkey Hval Hs. unfold Cancel in Hs. destruct (validateCancelRequest request) as [[]|e] eqn:Hv; [|naive_solver].
  destruct r as [result|e]; [|by apply transact_err in Hs]. apply transact_ok in Hs.
  apply cancelTx_spec in Hs as (row & Hrow & Hten & [(-> & -> & _)|(-> & Hres & Hedge & response & event & Hm & Hvr & Hc & Hty & _ & Her & Hev & Hon & ->)]);
    [done| |done].
  split.
  - exists row, (bumped (cancellingRow (cancelledRun request (rr_Run row))
      {| cmd_Type := CommandCancel; cmd_ID := cx_CommandID request; cmd_Response := response |}) row), event.
    split_and!; try done.
    rewrite Hres. unfold pgRun. simpl. by rewrite !pgTime_idemp.
  - intros ide' request' Hv' Ht Hr Hcmd. unfold Cancel. rewrite Hv'. apply transact_ok. unfold cancelTx, lockedCommandRun.
    rewrite Ht, Hr, Hcmd.
    erewrite tx_step; [|erewrite queryRow_step by (apply tenantRow_hit; [apply lookup_insert_eq|exact Hten]); reflexivity].
    cbv beta iota. rewrite (repeats_hit _ _ _ response) by reflexivity.
    pose proof (marshal_ok _ _ Hm) as (M1 & M2 & M3 & M4 & M5 & M6 & M7).
    erewrite tx_step; [|erewrite applyCommandResponse_ok; [reflexivity|done|done|..]].
    + rewrite M7, Hres. reflexivity.
    + rewrite M3. exact (proj1 (runRowValid_attempts _ Hvr)).
    + rewrite M4. exact (rv_created _ Hval _ _ Hrow).
    + rewrite M5. by apply (valid_cancel_now request).
Qed.

(** [Retry] is all or nothing. A new command needs a failed run with a
    transient category and an attempt left, and one of the failures the lifecycle
    lets a retry leave; it takes the lifecycle step back to [QUEUED] with the
    next attempt number, adds exactly that pending attempt, and stores its
    receipt and one contract-conforming retry event; nothing else changes.
    Repeating the command gets exactly the same run and changes nothing. On an
    error nothing changes. *)
Theorem Retry_atomic ida ide request db r db' :
  runs_keyed db -> rows_valid db -> Retry ida ide request db = (r, db') ->
  match r with
  | Err _ => db' = db
  | Ok result =>
      if cm_Replayed result then db' = db else
      (exists row row' id event,
        db_runs db !! rx_RunID request = Some row /\ run_TenantID (rr_Run row) = rx_TenantID request /\
        run_AttemptCount (rr_Run row) < run_MaxAttempts (rr_Run row) /\
        stored_step (rx_Now request) row row' /\ cm_Run result = retriedRun request (rr_Run row) /\
        db_attempts db !! id = None /\
        event_contract event /\ env_EventType (oe_Envelope event) = AgentRunRetryRequestedType /\
        env_RunID (oe_Envelope event) = Some (rx_RunID request) /\
        env_AggregateVersion (oe_Envelope event) = run_Version (rr_Run row) + 1 /\
        db_outbox db !! env_EventID (oe_Envelope event) = None /\
        db' = db <| db_runs := <[rx_RunID request := row']> (db_runs db) |>
                 <| db_attempts := <[id := nextAttempt id (rx_Now request) (rr_Run row)]> (db_attempts db) |>
                 <| db_outbox := <[env_EventID (oe_Envelope event) := pendingRow event]> (db_outbox db) |>) /\
      forall ida' ide' request', validateRetryRequest request' = Ok tt -> rx_TenantID request' = rx_TenantID request ->
        rx_RunID request' = rx_RunID request -> rx_CommandID request' = rx_CommandID request ->
        Retry ida' ide' request' db' = (Ok {| cm_Run := cm_Run result; cm_Replayed := true |}, db')
  end.
Proof.
  intros Hkey Hval Hs. unfold Retry in Hs. destruct (validateRetryRequest request) as [[]|e] eqn:Hv; [|naive_solver].
  destruct r as [result|e]; [|by apply transact_err in Hs]. apply transact_ok in Hs.
  apply retryTx_spec in Hs as (row & Hrow & Hten & [(-> & -> & _)|(-> & Hres & Hcan & Hst & id & response & event & Hm & Hvr & Han & _ & Hc & Hty & _ & Her & Hev & Hon & ->)]);
    [done| |done|apply Hval].
  pose proof Hcan as (_ & Hmax & Hcat)%CanRetry_iff. pose proof (runRowValid_attempts _ (rv_valid _ Hval _ _ Hrow)).
  split.
  - eexists row, _, id, event. split_and!; try done. eexists. split; [by apply step_retry|].
    unfold pgRun. simpl. rewrite pgTime_idemp, add64_next by (unfold in_int64; lia). done.
  - intros ida' ide' request' Hv' Ht Hr Hcmd. unfold Retry. rewrite Hv'. apply transact_ok. unfold retryTx, lockedCommandRun.
    rewrite Ht, Hr, Hcmd.
    erewrite tx_step; [|erewrite queryRow_step by (apply tenantRow_hit; [apply lookup_insert_eq|exact Hten]); reflexivity].
    cbv beta iota. rewrite (repeats_hit _ _ _ response) by reflexivity.
    pose proof (marshal_ok _ _ Hm) as (M1 & M2 & M3 & M4 & M5 & M6 & M7).
    erewrite tx_step; [|erewrite applyCommandResponse_ok; [reflexivity|done|done|..]].
    + rewrite M7, Hres. reflexivity.
    + rewrite M3. exact (proj1 (runRowValid_attempts _ Hvr)).
    + rewrite M4. exact (rv_created _ Hval _ _ Hrow).
    + rewrite M5. by apply (valid_retry_now request).
Qed.
End Commands.

(** ** Reading page after page *)

Section Pages.
Context `{UUIDs} `{NetURL}.

Definition firstPage (project : option UUID) : AgentRunPage :=
  {| pg_ProjectID := project; pg_AfterCreatedAt := None; pg_AfterID := None; pg_Limit := 0 |}.

(** The runs of a tenant, and of one of its projects, newest first. *)
Definition runHistory (tenantID : UUID) (project : option UUID) (db : DB) : list AgentRun :=
  merge_sort newest_first (pageRuns tenantID (firstPage project) db).

Definition stored_precision (db : DB) : Prop :=
  forall id row, db_runs db !! id = Some row -> pgTime (run_CreatedAt (rr_Run row)) = run_CreatedAt (rr_Run row).

Lemma runHistory_elem tenantID project db run :
  run ∈ runHistory tenantID project db <->
  onPage tenantID (firstPage project) run /\ exists id row, db_runs db !! id = Some row /\ rr_Run row = run.
Proof.
  unfold runHistory, pageRuns. rewrite merge_sort_Permutation, list_elem_of_filter. f_equiv.
  rewrite list_elem_of_fmap. split.
  - intros (row & -> & ([id r] & -> & Hin%elem_of_map_to_list)%list_elem_of_fmap). by exists id, r.
  - intros (id & row & Hr & <-). exists row. split; [done|]. apply list_elem_of_fmap. exists (id, row). split; [done|].
    by apply elem_of_map_to_list.
Qed.

Lemma runHistory_sorted tenantID project db : StronglySorted newest_first (runHistory tenantID project db).
Proof. apply newestFirst_sorted. Qed.

Lemma pageRuns_NoDup tenantID page db : runs_keyed db -> NoDup (run_ID <$> pageRuns tenantID page db).
Proof.
  intros Hk. unfold pageRuns.
  eapply sublist_NoDup; [|apply fmap_sublist, sublist_filter]. rewrite <-list_fmap_compose, <-list_fmap_compose.
  replace (_ <$> map_to_list (db_runs db)) with (fst <$> map_to_list (db_runs db)); [apply NoDup_fst_map_to_list|].
  apply list_fmap_ext. intros i [id row] Hi. simpl. symmetry. apply Hk, elem_of_map_to_list, list_elem_of_lookup. by exists i.
Qed.

Lemma runHistory_NoDup tenantID project db : runs_keyed db -> NoDup (run_ID <$> runHistory tenantID project db).
Proof. intros Hk. unfold runHistory. rewrite merge_sort_Permutation. by apply pageRuns_NoDup. Qed.

(** A page after a cursor is the next part of the history. *)
Lemma List_after tenantID project limit db l1 x l2 :
  runs_keyed db -> stored_precision db -> 1 <= limit <= 100 ->
  runHistory tenantID project db = l1 ++ x :: l2 ->
  List tenantID {| pg_ProjectID := project; pg_AfterCreatedAt := Some (run_CreatedAt x);
                   pg_AfterID := Some (run_ID x); pg_Limit := limit |} db = Ok (take (Z.to_nat limit) l2).
Proof.
  intros Hk Hp Hl Hh. unfold List. rewrite bind_failIf. simpl.
  replace (_ || _) with false by lia. do 2 f_equal.
  assert (Hx : x ∈ runHistory tenantID project db) by (rewrite Hh; set_solver).
  apply runHistory_elem in Hx as (_ & id & row & Hr & <-).
  unfold runHistory in Hh. erewrite <-(keyset_page run_CreatedAt run_ID _ _ _ _ _ Hh). f_equal. unfold pageRuns.
  rewrite list_filter_filter. apply list_filter_iff. intros run. unfold onPage. simpl. rewrite (Hp _ _ Hr). unfold afterCursor. naive_solver.
  Unshelve. by apply pageRuns_NoDup.
Qed.

Lemma List_first tenantID project limit db :
  1 <= limit <= 100 ->
  List tenantID {| pg_ProjectID := project; pg_AfterCreatedAt := None; pg_AfterID := None; pg_Limit := limit |} db
    = Ok (take (Z.to_nat limit) (runHistory tenantID project db)).
Proof. intros Hl. unfold List. rewrite bind_failIf. simpl. by replace (_ || _) with false by lia. Qed.

Lemma last_of_nonempty {A} (l : list A) : l <> [] -> exists l' x, l = l' ++ [x].
Proof. induction l as [|x l _] using rev_ind; [done|eauto]. Qed.

End Pages.

(** ** Saving *)

Section Saving.
Context `{UUIDs} `{NetURL}.

Lemma updateRunRow_miss tenantID runID version change db :
  tenantRow db tenantID runID = None \/
    (exists row, db_runs db !! runID = Some row /\ run_Version (rr_Run row) <> version) ->
  updateRunRow tenantID runID version change db = Ok (0, db).
Proof.
  unfold tenantRow, updateRunRow. intros Hm. erewrite tx_step by reflexivity. unfold id.
  destruct (db_runs db !! runID) as [row|]; [|done].
  replace (_ || _) with true; [done|]. symmetry. apply orb_true_iff. rewrite !negb_true_iff, Z.eqb_neq, bool_decide_eq_false.
  destruct Hm as [Hm|(row' & [= <-] & Hv)]; [|by right]. left. intros E. by rewrite E, Z.eqb_refl in Hm.
Qed.

Lemma tenantRow_some db tenantID runID row :
  tenantRow db tenantID runID = Some row <-> db_runs db !! runID = Some row /\ run_TenantID (rr_Run row) = tenantID.
Proof.
  unfold tenantRow. destruct (db_runs db !! runID) as [row'|]; [|naive_solver].
  destruct (Z.eqb_spec (run_TenantID (rr_Run row')) tenantID); naive_solver.
Qed.

Lemma updateRunRow_write tenantID runID change db row :
  tenantRow db tenantID runID = Some row -> in_int64 (run_Version (rr_Run row) + 1) ->
  updateRunRow tenantID runID (run_Version (rr_Run row)) change db =
    if runRowValid (bumped change row)
    then Ok (1, db <| db_runs := <[runID := bumped change row]> (db_runs db) |>)
    else Err (ErrPlain "check constraint violated").
Proof.
  intros [Hr Ht]%tenantRow_some Hv. unfold updateRunRow. erewrite tx_step by reflexivity. unfold id.
  rewrite Hr, bool_decide_eq_true_2, Z.eqb_refl by done. cbn [negb orb]. erewrite tx_step by (by apply lift_bigint).
  destruct (runRowValid (bumped change row)) eqn:E.
  - erewrite tx_step; [reflexivity|]. apply abortIf_false. by apply negb_false_iff.
  - erewrite tx_fail; [reflexivity|]. apply abortIf_true. by apply negb_true_iff.
Qed.

Lemma updateRun_any run version db :
  updateRun run version false db =
    match updateRunRow (run_TenantID run) (run_ID run) version (savedRow run) db with
    | Ok (count, db') => Ok (if count =? 1 then rr_Run <$> db_runs db' !! run_ID run else None, db')
    | Err e => Err e
    end.
Proof.
  unfold updateRun, mbind, Tx_bind. simpl. destruct (updateRunRow _ _ _ _ _) as [[count db']|e]; [|done].
  by destruct (count =? 1).
Qed.

Lemma saveTx_eval run version db :
  in_int64 (version + 1) ->
  saveTx run version false db =
    match tenantRow db (run_TenantID run) (run_ID run) with
    | None => Err ErrNotFound
    | Some row =>
        if run_Version (rr_Run row) =? version then
          if runRowValid (bumped (savedRow run) row)
          then Ok (rr_Run (bumped (savedRow run) row),
                   db <| db_runs := <[run_ID run := bumped (savedRow run) row]> (db_runs db) |>)
          else Err (ErrPlain "check constraint violated")
        else Err ErrVersionConflict
    end.
Proof.
  intros Hv. unfold saveTx, mbind, Tx_bind. rewrite updateRun_any.
  destruct (tenantRow db (run_TenantID run) (run_ID run)) as [row|] eqn:Ht.
  - pose proof Ht as [Hr Hten]%tenantRow_some. destruct (Z.eqb_spec (run_Version (rr_Run row)) version) as [<-|Hne].
    + rewrite updateRunRow_write by done. destruct (runRowValid _); [|done]. simpl. by rewrite lookup_insert_eq.
    + rewrite updateRunRow_miss by (right; by exists row). unfold saveError, mbind, Tx_bind. simpl. by rewrite Ht.
  - rewrite updateRunRow_miss by (by left). unfold saveError, mbind, Tx_bind. simpl. by rewrite Ht.
Qed.

(** [Save] is an optimistic write: it reports not found without a row of the
    tenant and a version conflict at any other version; at the expected version it
    writes the saved columns and the next version when the row then satisfies its
    constraints, and fails otherwise; every failure changes nothing. In
    particular it can never take a run out of [SCHEDULING], because it leaves the
    scheduler's lease in place. *)
Theorem Save_optimistic run version db :
  in_int64 (version + 1) -> (forall id row, db_runs db !! id = Some row -> runRowValid row = true) ->
  Save run version db =
    match tenantRow db (run_TenantID run) (run_ID run) with
    | None => (Err ErrNotFound, db)
    | Some row =>
        if run_Version (rr_Run row) =? version then
          let row' := bumped (savedRow run) row in
          if runRowValid row' then (Ok (rr_Run row'), db <| db_runs := <[run_ID run := row']> (db_runs db) |>)
          else (Err (ErrPlain "check constraint violated"), db)
        else (Err ErrVersionConflict, db)
    end /\
  (forall row, tenantRow db (run_TenantID run) (run_ID run) = Some row ->
     run_Status (rr_Run row) = AgentRunScheduling -> run_Status run <> AgentRunScheduling ->
     is_ok (Save run version db).1 = false /\ (Save run version db).2 = db).
Proof.
  intros Hv Hvalid. unfold Save, transact. rewrite saveTx_eval by done. split.
  - destruct (tenantRow _ _ _) as [row|]; [|done]. destruct (_ =? version); [|done]. cbv zeta. by destruct (runRowValid _).
  - intros row Ht Hs Hn. rewrite Ht. destruct (_ =? version); [|done].
    replace (runRowValid (bumped (savedRow run) row)) with false; [done|]. symmetry. apply not_true_iff_false. intros E.
    apply tenantRow_some in Ht as [Hr _]. pose proof (Hvalid _ _ Hr) as Hok.
    unfold runRowValid in E, Hok. rewrite !andb_true_iff, !Bool.eqb_true_iff in E, Hok. simpl in E. destruct_and?.
    rewrite Hs in *. rewrite bool_decide_eq_false_2 in * by done. rewrite bool_decide_eq_true_2 in * by done. congruence.
Qed.
End Saving.

(** ** Examples *)

Definition example_cancel (now : Time) : CancelRunRequest :=
  {| cx_TenantID := exampleTenant; cx_RunID := exampleV7 11; cx_CommandID := "cmd-1"; cx_Reason := "changed plans";
     cx_Actor := "dev"; cx_Now := now |}.

Definition example_retry (now : Time) : RetryRunRequest :=
  {| rx_TenantID := exampleTenant; rx_RunID := exampleV7 11; rx_CommandID := "cmd-2"; rx_Actor := "dev"; rx_Now := now |}.

(** The claimed run, and a failed one. *)
Definition example_failed_db : DB :=
  example_claimed_db <| db_runs := {[exampleV7 11 := example_run_row <| rr_Run :=
    (rr_Run example_run_row) <| run_Status := AgentRunProvisioningFailed |>
      <| run_FailureCategory := FailureTransientDependency |> <| run_CompletedAt := Some exampleNow |> |>]} |>.

Lemma example_claimed_rows : runs_keyed example_claimed_db /\ rows_valid example_claimed_db.
Proof.
  split; [apply example_claimed_keyed|]. split; intros id row; unfold example_claimed_db; simpl;
    intros [_ <-]%lookup_singleton_Some; vm_compute; congruence.
Qed.

Lemma example_failed_rows : runs_keyed example_failed_db /\ rows_valid example_failed_db.
Proof.
  split; [|split]; intros id row; unfold example_failed_db; simpl;
    intros [<- <-]%lookup_singleton_Some; vm_compute; congruence.
Qed.

Lemma Cancel_atomic_witness :
  let cancel n := @Cancel rfcUUIDs exampleNetURL (Ok (exampleV7 n)) in
  exists result db', cancel 51 (example_cancel exampleNow) example_claimed_db = (Ok result, db') /\
    cancel 52 (example_cancel (exampleNow + Hour)) db' =
      (Ok {| cm_Run := (cm_Run result) <| run_CancellationRequestedAt := Some (pgTime exampleNow) |>;
             cm_Replayed := true |}, db').
Proof.
  intros cancel. destruct (cancel 51 (example_cancel exampleNow) example_claimed_db) as [r db'] eqn:E. subst cancel.
  pose proof (f_equal fst E) as Hr. vm_compute in Hr. subst r. eexists _, _. split; [reflexivity|].
  exact (proj2 (@Cancel_atomic rfcUUIDs exampleNetURL _ _ _ _ _ (proj1 example_claimed_rows) (proj2 example_claimed_rows) E)
    (Ok (exampleV7 52)) (example_cancel (exampleNow + Hour)) eq_refl eq_refl eq_refl eq_refl).
Defined.

Lemma Retry_atomic_witness :
  let retry n := @Retry rfcUUIDs exampleNetURL (Ok (exampleV7 n)) (Ok (exampleV7 (n + 1))) in
  exists result db', retry 51 (example_retry exampleNow) example_failed_db = (Ok result, db') /\
    retry 53 (example_retry (exampleNow + Hour)) db' = (Ok {| cm_Run := cm_Run result; cm_Replayed := true |}, db').
Proof.
  intros retry. destruct (retry 51 (example_retry exampleNow) example_failed_db) as [r db'] eqn:E. subst retry.
  pose proof (f_equal fst E) as Hr. vm_compute in Hr. subst r. eexists _, _. split; [reflexivity|].
  exact (proj2 (@Retry_atomic rfcUUIDs exampleNetURL _ _ _ _ _ _ (proj1 example_failed_rows) (proj2 example_failed_rows) E)
    (Ok (exampleV7 53)) (Ok (exampleV7 54)) (example_retry (exampleNow + Hour)) eq_refl eq_refl eq_refl eq_refl).
Defined.

Lemma Save_optimistic_witness :
  let run := (rr_Run example_leased) <| run_Status := AgentRunProvisioning |> in
  (Save run 1 example_claimed_db).2 = example_claimed_db /\ is_ok (Save run 1 example_claimed_db).1 = false.
Proof.
  intros run.
  assert (Hv : in_int64 (1 + 1)) by (split; vm_compute; [discriminate|reflexivity]).
  destruct (proj2 (Save_optimistic run 1 example_claimed_db Hv (rv_valid _ (proj2 example_claimed_rows)))
    example_leased eq_refl eq_refl) as [H1 H2]; [vm_compute; discriminate|]. exact (conj H2 H1).
Defined.
