(* ===== verification/RunService.v ===== *)
(** * The run service (internal/application/runs/service.go) and the caller's
      identity (internal/identity)

    Every command and query is made for an authenticated caller, inside that
    caller's tenant. *)

From S2P Require Import Prelude Json AgentRun Policy Cluster Events Intent Store Reservations Queue SchedulingIntent RunRepo.

(** ** identity.go, development.go *)

Definition RoleDeveloper : string := "developer".
Definition RoleProjectAdministrator : string := "project-administrator".

Record Identity := {
  id_TenantID : UUID;
  id_Subject : string;
  id_Role : string;
}.

Definition CanManageRuns (identity : Identity) : bool :=
  (id_Role identity == RoleDeveloper) || (id_Role identity == RoleProjectAdministrator).

Definition CanManageArtifacts (identity : Identity) : bool := id_Role identity == RoleProjectAdministrator.

Definition Identity_Validate (identity : Identity) : res unit :=
  failIf ((id_TenantID identity == uuidNil) || blank (id_Subject identity) || negb (CanManageRuns identity))
    ErrUnauthenticated.

Record DevelopmentCredential := {
  dc_Token : string;
  dc_Identity : Identity;
}.

(** The constructor trims the tokens in place while it checks them. *)
Fixpoint checkCredentials (credentials : list DevelopmentCredential) : res (list DevelopmentCredential) :=
  match credentials with
  | [] => Ok []
  | credential :: rest =>
      let token := TrimSpace (dc_Token credential) in
      _ ← failIf (token == EmptyString) (ErrPlain "development identity token is required");
      _ ← Identity_Validate (dc_Identity credential);
      rest ← checkCredentials rest;
      Ok ({| dc_Token := token; dc_Identity := dc_Identity credential |} :: rest)
  end.

Definition NewDevelopmentResolver (credentials : list DevelopmentCredential) : res (list DevelopmentCredential) :=
  _ ← failIf (Z.of_nat (length credentials) =? 0) (ErrPlain "at least one development identity is required");
  checkCredentials credentials.

(** [ConstantTimeCompare] is 1 exactly on equal byte strings. *)
Fixpoint resolveToken (credentials : list DevelopmentCredential) (credential : string) : res Identity :=
  match credentials with
  | [] => Err ErrUnauthenticated
  | configured :: rest =>
      if dc_Token configured == credential then Ok (dc_Identity configured) else resolveToken rest credential
  end.

Definition Resolve (credentials : list DevelopmentCredential) (credential : string) : res Identity :=
  resolveToken credentials (TrimSpace credential).

(** ** service.go *)

Record CreateInput := {
  ci_PromptReference : string;
  ci_Runtime : string;
  ci_CPUMillis : Z;
  ci_MemoryMiB : Z;
  ci_TimeoutSeconds : Z;
  ci_MaxAttempts : Z;
  ci_IdempotencyKey : string;
}.

Section Service.
Context `{UUIDs} `{NetURL} `{SHA256}.

Definition hashRequest (projectID : UUID) (input : CreateInput) : string :=
  let payload := jsonObject
    [("projectId", jsonString (uuidString projectID)); ("promptRef", jsonString (ci_PromptReference input));
     ("runtime", jsonString (ci_Runtime input)); ("cpuMillis", Itoa (ci_CPUMillis input));
     ("memoryMiB", Itoa (ci_MemoryMiB input)); ("timeoutSeconds", Itoa (ci_TimeoutSeconds input));
     ("maxAttempts", Itoa (ci_MaxAttempts input))] in
  ("sha256:" ++ sha256Hex payload)%string.

(** [ProjectRepository.Get], for its error only. *)
Definition projectExists (tenantID projectID : UUID) (db : DB) : res unit :=
  failIf (bool_decide (fst <$> db_projects db !! projectID <> Some tenantID)) ErrNotFound.

Definition newRunInput (caller : Identity) (projectID : UUID) (input : CreateInput) : NewAgentRunInput :=
  {| in_TenantID := id_TenantID caller; in_ProjectID := projectID; in_PromptReference := ci_PromptReference input;
     in_Runtime := ci_Runtime input; in_CPUMillis := ci_CPUMillis input; in_MemoryMiB := ci_MemoryMiB input;
     in_TimeoutSeconds := ci_TimeoutSeconds input; in_MaxAttempts := ci_MaxAttempts input;
     in_IdempotencyKey := ci_IdempotencyKey input; in_RequestHash := hashRequest projectID input;
     in_CreatedBy := id_Subject caller |}.

(** Identifiers drawn and clock readings, in the order of the calls. *)
Record CreateFresh := {
  cf_RunID : res UUID;
  cf_AttemptID : res UUID;
  cf_EventID : res UUID;
  cf_RunNow : Time;
  cf_AttemptNow : Time;
}.

(** What precedes the store's transaction. *)
Definition prepareRun (fresh : CreateFresh) (caller : Identity) (projectID : UUID) (input : CreateInput) (db : DB)
    : res (AgentRun * AgentRunAttempt) :=
  _ ← failIf (negb (CanManageRuns caller)) ErrUnauthorized;
  _ ← projectExists (id_TenantID caller) projectID db;
  run ← NewAgentRun (cf_RunID fresh) (newRunInput caller projectID input) (cf_RunNow fresh);
  attempt ← NewAgentRunAttempt (cf_AttemptID fresh) (id_TenantID caller) (run_ID run) 1 (cf_AttemptNow fresh);
  Ok (run, attempt).

(** The answer to a request whose key is in use. *)
Definition replayCreate (caller : Identity) (projectID : UUID) (input : CreateInput) (db : DB) : res (AgentRun * bool) :=
  existing ← GetByIdempotencyKey (id_TenantID caller) (ci_IdempotencyKey input) db;
  _ ← failIf (run_RequestHash existing != hashRequest projectID input) ErrIdempotencyKeyReused;
  Ok (existing, true).

Definition CreateRun (fresh : CreateFresh) (caller : Identity) (projectID : UUID) (input : CreateInput) (db : DB)
    : res (AgentRun * bool) * DB :=
  match prepareRun fresh caller projectID input db with
  | Err e => (Err e, db)
  | Ok (run, attempt) =>
      match Create (cf_EventID fresh) run attempt db with
      | (Ok _, db') => (Ok (run, false), db')
      | (Err ErrConflict, db') => (replayCreate caller projectID input db', db')
      | (Err e, db') => (Err e, db')
      end
  end.

Definition GetRun (caller : Identity) (runID : UUID) (db : DB) : res AgentRun :=
  _ ← failIf (negb (CanManageRuns caller)) ErrUnauthorized;
  Get (id_TenantID caller) runID db.

Definition ListRuns (caller : Identity) (projectID : UUID) (page : AgentRunPage) (db : DB) : res (list AgentRun) :=
  _ ← failIf (negb (CanManageRuns caller)) ErrUnauthorized;
  _ ← projectExists (id_TenantID caller) projectID db;
  List (id_TenantID caller)
    {| pg_ProjectID := Some projectID; pg_AfterCreatedAt := pg_AfterCreatedAt page; pg_AfterID := pg_AfterID page;
       pg_Limit := pg_Limit page |} db.

Definition CancelRun (newEventID : res UUID) (now : Time) (caller : Identity) (runID : UUID) (commandID reason : string)
    (db : DB) : res RunCommandResult * DB :=
  if negb (CanManageRuns caller) then (Err ErrUnauthorized, db)
  else Cancel newEventID {| cx_TenantID := id_TenantID caller; cx_RunID := runID; cx_CommandID := commandID;
                            cx_Reason := reason; cx_Actor := id_Subject caller; cx_Now := now |} db.

Definition RetryRun (newAttemptID newEventID : res UUID) (now : Time) (caller : Identity) (runID : UUID)
    (commandID : string) (db : DB) : res RunCommandResult * DB :=
  if negb (CanManageRuns caller) then (Err ErrUnauthorized, db)
  else Retry newAttemptID newEventID {| rx_TenantID := id_TenantID caller; rx_RunID := runID; rx_CommandID := commandID;
                                        rx_Actor := id_Subject caller; rx_Now := now |} db.
End Service.

(** ** The create command *)

Section CreateSpec.
Context `{UUIDs} `{NetURL} `{SHA256}.

Lemma insertRunRow_spec row db u db' :
  insertRunRow row db = Ok (u, db') ->
  uuidVersion (run_ID (rr_Run row)) = 7 /\ runRowValid row = true /\ db_runs db !! run_ID (rr_Run row) = None /\
  (forall id row', db_runs db !! id = Some row' -> run_TenantID (rr_Run row') = run_TenantID (rr_Run row) ->
     run_IdempotencyKey (rr_Run row') = run_IdempotencyKey (rr_Run row) -> False) /\
  db' = db <| db_runs := <[run_ID (rr_Run row) := row <| rr_Run := pgRun (rr_Run row) |>]> (db_runs db) |>.
Proof.
  intros Hi. unfold insertRunRow in Hi.
  apply tx_bind_ok in Hi as (? & ? & [H7 ->]%abortIf_ok & Hi). apply tx_bind_ok in Hi as (? & ? & [Hv ->]%abortIf_ok & Hi).
  apply tx_bind_ok in Hi as (? & ? & [-> ->]%query_ok & Hi). apply tx_bind_ok in Hi as (? & ? & [Hn ->]%abortIf_ok & Hi).
  apply tx_bind_ok in Hi as (? & ? & [Hex ->]%abortIf_ok & Hi). apply tx_bind_ok in Hi as (? & ? & [_ ->]%abortIf_ok & Hi).
  apply tx_bind_ok in Hi as (? & ? & [_ ->]%abortIf_ok & Hi). apply modify_ok in Hi as ->.
  apply bool_decide_eq_false in Hn. rewrite <-eq_None_not_Some in Hn. apply negb_false_iff in H7, Hv.
  apply Z.eqb_eq in H7. pose proof (map_Exists_false _ _ Hex) as Hex'. split_and!; try done.
  intros id row' Hr Ht Hk. by apply (Hex' id row' Hr).
Qed.

(** The pure part of [Create]. *)
Definition createEffects (newEventID : res UUID) (run : AgentRun) (attempt : AgentRunAttempt) (event : OutboxEvent)
    (response : idempotencyResponse) : Prop :=
  validateInitialAttempt run attempt = Ok tt /\ NewAgentRunRequested newEventID run attempt = Ok event /\
  marshalIdempotencyResponse run = Ok response.

Lemma Create_eval newEventID run attempt event response db :
  createEffects newEventID run attempt event response ->
  Create newEventID run attempt db = transact (createTx run attempt event response) db.
Proof. intros (Hv & He & Hm). unfold Create. by rewrite Hv, bind_Ok, He, bind_Ok, Hm, bind_Ok. Qed.

Lemma Create_ok newEventID run attempt db u db' :
  Create newEventID run attempt db = (Ok u, db') ->
  exists event response, createEffects newEventID run attempt event response /\
    uuidVersion (run_ID run) = 7 /\ runRowValid (createdRow run response) = true /\ db_runs db !! run_ID run = None /\
    (forall id row', db_runs db !! id = Some row' -> run_TenantID (rr_Run row') = run_TenantID run ->
       run_IdempotencyKey (rr_Run row') = run_IdempotencyKey run -> False) /\
    db_attempts db !! att_ID attempt = None /\
    (forall id a, db_attempts db !! id = Some a -> att_RunID a = att_RunID attempt ->
       att_AttemptNumber a = att_AttemptNumber attempt -> False) /\
    db_outbox db !! env_EventID (oe_Envelope event) = None /\
    db' = db <| db_runs := <[run_ID run := (createdRow run response) <| rr_Run := pgRun run |>]> (db_runs db) |>
             <| db_attempts := <[att_ID attempt := pgAttempt (attempt <| att_ExecutionProfile := EmptyString |>
                  <| att_CapacityReservationID := uuidNil |> <| att_BudgetReservationID := uuidNil |>)]> (db_attempts db) |>
             <| db_outbox := <[env_EventID (oe_Envelope event) := pendingRow event]> (db_outbox db) |>.
Proof.
  unfold Create. destruct (validateInitialAttempt run attempt) as [[]|] eqn:Hv; [rewrite bind_Ok|done].
  destruct (NewAgentRunRequested _ _ _) as [event|] eqn:He; [rewrite bind_Ok|done].
  destruct (marshalIdempotencyResponse run) as [response|] eqn:Hm; [rewrite bind_Ok|done].
  intros Hc%transact_ok. exists event, response. unfold createTx in Hc.
  apply tx_bind_ok in Hc as (? & ? & (H7 & Hvr & Hn & Hk & ->)%insertRunRow_spec & Hc). simpl in H7, Hn, Hk.
  apply tx_bind_ok in Hc as (? & ? & (Han & Haf & ->)%insertAttempt_spec & Hc). simpl in Han, Haf.
  apply insertOutboxEvent_spec in Hc as (Hon & ->). simpl in Hon. by split_and!.
Qed.

Lemma Create_key_taken newEventID run attempt event response db rid row :
  createEffects newEventID run attempt event response -> uuidVersion (run_ID run) = 7 ->
  runRowValid (createdRow run response) = true ->
  db_runs db !! rid = Some row -> run_TenantID (rr_Run row) = run_TenantID run ->
  run_IdempotencyKey (rr_Run row) = run_IdempotencyKey run ->
  Create newEventID run attempt db = (Err ErrConflict, db).
Proof.
  intros He H7 Hv Hr Ht Hk. erewrite Create_eval by done. unfold transact, createTx.
  erewrite tx_fail; [done|]. unfold insertRunRow, checkV7. cbn [rr_Run createdRow].
  rewrite abortIf_step by (by rewrite H7). rewrite abortIf_step by (by rewrite Hv).
  erewrite tx_step by reflexivity. unfold id.
  destruct (db_runs db !! run_ID run) eqn:Hid.
  - erewrite tx_fail; [done|]. apply abortIf_true. by apply bool_decide_eq_true_2.
  - rewrite abortIf_step by (apply bool_decide_eq_false_2; by intros [??]).
    erewrite tx_fail; [done|]. apply abortIf_true, bool_decide_eq_true_2. by exists rid, row.
Qed.

Lemma new_run_row_valid newV7 input now run response :
  NewAgentRun newV7 input now = Ok run -> runRowValid (createdRow run response) = true.
Proof.
  intros (id & _ & [] & ->)%NewAgentRun_ok. simpl in *. unfold runRowValid, createdRow. simpl.
  repeat match goal with |- context [?a <=? ?b] => rewrite (proj2 (Z.leb_le a b)) by lia end. done.
Qed.

Lemma hashRequest_trimmed projectID input : TrimSpace (hashRequest projectID input) = hashRequest projectID input.
Proof.
  apply TrimSpace_graphic. unfold hashRequest. rewrite bytes_app, forallb_app.
  match goal with |- context [sha256Hex ?p] => pose proof (sha256Hex_digits p) as Hd end.
  apply andb_true_iff. split; [done|]. rewrite forallb_forall in *. intros c Hc. specialize (Hd c Hc). clear Hc.
  by destruct c as [[] [] [] [] [] [] [] []].
Qed.

Lemma prepareRun_ok fresh caller projectID input db run attempt :
  prepareRun fresh caller projectID input db = Ok (run, attempt) ->
  NewAgentRun (cf_RunID fresh) (newRunInput caller projectID input) (cf_RunNow fresh) = Ok run /\
  run_TenantID run = id_TenantID caller /\ run_ProjectID run = projectID /\
  run_IdempotencyKey run = TrimSpace (ci_IdempotencyKey input) /\ run_RequestHash run = hashRequest projectID input /\
  run_CreatedAt run = cf_RunNow fresh /\ run_UpdatedAt run = cf_RunNow fresh /\ run_Status run = AgentRunQueued /\
  run_AttemptCount run = 1.
Proof.
  unfold prepareRun. intros Hp. apply bind_ok in Hp as ([] & _ & Hp). apply bind_ok in Hp as ([] & _ & Hp).
  apply bind_ok in Hp as (run' & Hn & Hp). apply bind_ok in Hp as (a & _ & Hp). apply Ok_inj in Hp as [= -> ->].
  split; [done|]. apply NewAgentRun_ok in Hn as (id & _ & _ & ->). simpl. by rewrite hashRequest_trimmed.
Qed.

(** One run per tenant and key. *)
Definition keys_unique (db : DB) : Prop :=
  forall id row id' row', db_runs db !! id = Some row -> db_runs db !! id' = Some row' ->
    run_TenantID (rr_Run row) = run_TenantID (rr_Run row') ->
    run_IdempotencyKey (rr_Run row) = run_IdempotencyKey (rr_Run row') -> id = id'.

Lemma keyedRow_hit db id row :
  keys_unique db -> db_runs db !! id = Some row ->
  keyedRow db (run_TenantID (rr_Run row)) (run_IdempotencyKey (rr_Run row)) = Some row.
Proof.
  intros Hu Hr. unfold keyedRow. apply head_filter_unique; [|done|].
  - apply list_elem_of_fmap. exists (id, row). split; [done|]. by apply elem_of_map_to_list.
  - intros row' [[id' ?] [-> Hr'%elem_of_map_to_list]]%list_elem_of_fmap [Ht Hk]. simpl in *.
    assert (id = id') as -> by (by eapply Hu). congruence.
Qed.

(** A request that passes every check before the store is asked. *)
Definition acceptable (fresh : CreateFresh) (caller : Identity) (projectID : UUID) (input : CreateInput) (db : DB) : Prop :=
  exists run attempt event response,
    prepareRun fresh caller projectID input db = Ok (run, attempt) /\
    createEffects (cf_EventID fresh) run attempt event response /\ uuidVersion (run_ID run) = 7.

(** The columns no later operation changes. *)
Definition same_request (run : AgentRun) (row : RunRow) : Prop :=
  run_ID (rr_Run row) = run_ID run /\ run_TenantID (rr_Run row) = run_TenantID run /\
  run_ProjectID (rr_Run row) = run_ProjectID run /\ run_IdempotencyKey (rr_Run row) = run_IdempotencyKey run /\
  run_RequestHash (rr_Run row) = run_RequestHash run.

Lemma replayCreate_eval caller projectID input db row response run :
  keys_unique db -> db_runs db !! run_ID run = Some row -> same_request run row ->
  rr_IdempotencyResponse row = Some response -> marshalIdempotencyResponse run = Ok response ->
  run_Status run = AgentRunQueued -> run_AttemptCount run = 1 -> run_CreatedAt run <> 0 -> run_UpdatedAt run <> 0 ->
  id_TenantID caller = run_TenantID run -> ci_IdempotencyKey input = run_IdempotencyKey run ->
  replayCreate caller projectID input db =
    if run_RequestHash run == hashRequest projectID input then Ok (restored (rr_Run row) response, true)
    else Err ErrIdempotencyKeyReused.
Proof.
  intros Hu Hr (I1 & I2 & I3 & I4 & I5) Hresp Hm Hs Ha Hc Hup Ht Hk. unfold replayCreate, GetByIdempotencyKey.
  rewrite Ht, Hk, <-I2, <-I4, (keyedRow_hit _ _ _ Hu Hr), Hresp. apply marshal_ok in Hm as (M1 & M2 & M3 & M4 & M5 & M6 & _).
  unfold applyIdempotencyResponse.
  rewrite bind_failIf, M1, M2, M3, M4, M5, M6, I1, I3, Hs, Ha. rewrite !(bool_decide_eq_true_2 (_ = _)) by done.
  unfold IsZero. rewrite (proj2 (Z.eqb_neq _ _) Hc), (proj2 (Z.eqb_neq _ _) Hup). cbn [negb orb Z.eqb Pos.eqb].
  rewrite bind_Ok, bind_failIf. cbn [restored run_RequestHash]. rewrite I5.
  destruct (decide (run_RequestHash run = hashRequest projectID input)) as [E|E];
    [by rewrite !(bool_decide_eq_true_2 _ E)|by rewrite !(bool_decide_eq_false_2 _ E)].
Qed.

(** No stored key has surrounding white space. *)
Definition keys_trimmed (db : DB) : Prop :=
  forall id row, db_runs db !! id = Some row ->
    TrimSpace (run_IdempotencyKey (rr_Run row)) = run_IdempotencyKey (rr_Run row).

Lemma keyedRow_untrimmed db tenantID key : keys_trimmed db -> key <> TrimSpace key -> keyedRow db tenantID key = None.
Proof.
  intros Ht Hk. unfold keyedRow. rewrite filter_none; [done|].
  intros row [[id ?] [-> Hr%elem_of_map_to_list]]%list_elem_of_fmap [_ E]. apply Hk. simpl in *. rewrite <-E.
  symmetry. by eapply Ht.
Qed.

End CreateSpec.

(** ** Examples *)

Definition example_caller : Identity :=
  {| id_TenantID := exampleTenant; id_Subject := "dev"; id_Role := RoleDeveloper |}.

Definition example_create_input (key : string) : CreateInput :=
  {| ci_PromptReference := "s3://prompts/1"; ci_Runtime := "python"; ci_CPUMillis := 500; ci_MemoryMiB := 512;
     ci_TimeoutSeconds := 600; ci_MaxAttempts := 2; ci_IdempotencyKey := key |}.

Definition example_fresh (n : Z) : CreateFresh :=
  {| cf_RunID := Ok (exampleV7 n); cf_AttemptID := Ok (exampleV7 (n + 1)); cf_EventID := Ok (exampleV7 (n + 2));
     cf_RunNow := exampleNow; cf_AttemptNow := exampleNow |}.

Definition example_create (n : Z) (key : string) (db : DB) : res (AgentRun * bool) * DB :=
  @CreateRun rfcUUIDs exampleNetURL exampleSHA256 (example_fresh n) example_caller (exampleV7 8)
    (example_create_input key) db.

Definition example_created : res (AgentRun * bool) * DB := example_create 61 "key-1" (example_db <| db_runs := ∅ |>).

Lemma example_created_runs id row :
  db_runs example_created.2 !! id = Some row ->
  id = exampleV7 61 /\ run_IdempotencyKey (rr_Run row) = "key-1" /\ run_TenantID (rr_Run row) = exampleTenant.
Proof.
  intros Hr. assert (Hin : (id, row) ∈ map_to_list (db_runs example_created.2)) by (by apply elem_of_map_to_list).
  vm_compute in Hin. apply list_elem_of_singleton in Hin as [= -> ->].
  split; [reflexivity|split; reflexivity].
Qed.

Lemma example_acceptable n key :
  n = 71 /\ key = "key-1" \/ n = 81 /\ key = " key-1" ->
  @acceptable rfcUUIDs exampleNetURL exampleSHA256 (example_fresh n) example_caller (exampleV7 8)
    (example_create_input key) example_created.2.
Proof.
  intros [[-> ->]|[-> ->]]; (eexists _, _, _, _; split; [vm_compute; reflexivity|]);
    (split; [split; [|split]; vm_compute; reflexivity|vm_compute; reflexivity]).
Qed.

