(* ===== verification/HttpApi.v ===== *)
(** * The HTTP boundary of runs (internal/httpapi: errors.go, identity.go, runs.go,
      health.go, middleware.go)

    The handlers of the run routes as functions of the request, the store and
    the identifiers and clock readings they draw. An instant in a response
    stands for its RFC 3339 text, and a pagination token for the JSON value it
    encodes; the request body is given as the result of decoding it. *)

From S2P Require Import Prelude Json AgentRun Policy Cluster Events Intent Store Reservations Queue SchedulingIntent.
From S2P Require Import RunRepo RunService.

(** [uuid.Parse] inverts [String]. *)
Class UUIDText `{UUIDs} := {
  uuidParse : string -> option UUID;
  uuidParse_string : forall u, isUUID u -> uuidParse (uuidString u) = Some u;
}.

(** ** Requests and responses *)

Inductive Decoded (A : Type) :=
| DecodedBody (body : A)
| DecodeTooLarge
| DecodeInvalid.
Arguments DecodedBody {A}.
Arguments DecodeTooLarge {A}.
Arguments DecodeInvalid {A}.

Record createRunRequest := {
  crr_PromptReference : string;
  crr_Runtime : string;
  crr_CPUMillis : Z;
  crr_MemoryMiB : Z;
  crr_TimeoutSeconds : Z;
  crr_MaxAttempts : Z;
}.

Record runCursor := {
  cu_CreatedAt : Time;
  cu_ID : string;
}.

(** The parts of a request the handlers read; [rq_Cursor] is [None] without a
    cursor parameter, and [Some None] for one that does not decode. *)
Record Request (A : Type) := {
  rq_Authorization : string;
  rq_Path : string;
  rq_IdempotencyKey : string;
  rq_Limit : string;
  rq_Cursor : option (option runCursor);
  rq_Body : Decoded A;
}.
Arguments rq_Authorization {A}.
Arguments rq_Path {A}.
Arguments rq_IdempotencyKey {A}.
Arguments rq_Limit {A}.
Arguments rq_Cursor {A}.
Arguments rq_Body {A}.

Record runResponse := {
  vw_ID : string;
  vw_ProjectID : string;
  vw_Runtime : string;
  vw_CPUMillis : Z;
  vw_MemoryMiB : Z;
  vw_TimeoutSeconds : Z;
  vw_MaxAttempts : Z;
  vw_AttemptCount : Z;
  vw_Status : AgentRunStatus;
  vw_FailureCategory : option FailureCategory;
  vw_CancellationReason : option string;
  vw_CancellationRequestedBy : option string;
  vw_CancellationRequestedAt : option Time;
  vw_CompletedAt : option Time;
  vw_CreatedAt : Time;
  vw_UpdatedAt : Time;
}.

Inductive Payload :=
| ErrorBody (code message : string) (retryable : bool)
| RunBody (run : runResponse)
| RunsBody (runs : list runResponse) (next : option runCursor)
| HealthBody.

Record Response := {
  rp_Status : Z;
  rp_Replay : bool;
  rp_Location : option string;
  rp_Body : Payload;
}.

Definition writeError (status : Z) (code message : string) (retryable : bool) : Response :=
  {| rp_Status := status; rp_Replay := false; rp_Location := None; rp_Body := ErrorBody code message retryable |}.

(** ** identity.go *)

Definition bearerPrefix : string := "Bearer ".

Definition bearerCredential (value : string) : option string :=
  if HasPrefix value bearerPrefix then
    let credential := TrimSpace (String.string_of_list_ascii (drop (String.length bearerPrefix) (bytes value))) in
    if credential == EmptyString then None else Some credential
  else None.

(** [resolver] is the configured identity resolver, if any. *)
Definition authenticate (resolver : option (string -> res Identity)) (authorization : string) : res Identity :=
  match resolver with
  | None => Err ErrUnauthenticated
  | Some resolve =>
      match bearerCredential authorization with
      | None => Err ErrUnauthenticated
      | Some credential =>
          match resolve credential with
          | Ok caller => Ok caller
          | Err _ => Err ErrUnauthenticated
          end
      end
  end.

Definition authenticationRequired : Response :=
  writeError 401 "AUTHENTICATION_REQUIRED" "Authentication is required." false.

(** ** runs.go *)

Definition writeRunError (err : error) : Response :=
  match err with
  | ErrNotFound => writeError 404 "NOT_FOUND" "The requested resource was not found." false
  | ErrIdempotencyKeyReused =>
      writeError 409 "IDEMPOTENCY_KEY_REUSED" "The idempotency key was used with a different request." false
  | ErrRunTerminal => writeError 409 "RUN_TERMINAL" "The run has reached a terminal state." false
  | ErrRetryNotAllowed => writeError 409 "RETRY_NOT_ALLOWED" "The run is not eligible for retry." false
  | ErrValidation => writeError 422 "VALIDATION" "Request fields are invalid." false
  | ErrConflict | ErrVersionConflict => writeError 409 "CONFLICT" "The request conflicts with current state." false
  | ErrForbidden => writeError 403 "AUTHORIZATION" "The caller is not authorized for this resource." false
  | _ => writeError 500 "INTERNAL" "An internal error occurred." false
  end.

Definition writeRequestDecodeError {A} (decoded : Decoded A) : Response :=
  match decoded with
  | DecodeTooLarge => writeError 413 "REQUEST_TOO_LARGE" "Request body exceeds the allowed size." false
  | _ => writeError 422 "VALIDATION" "Request body is invalid." false
  end.

Definition optionalString (value : string) : option string := if value == EmptyString then None else Some value.

Section Handlers.
Context `{UUIDs} `{!UUIDText} `{NetURL} `{SHA256}.

Definition responseForRun (run : AgentRun) : runResponse :=
  {| vw_ID := uuidString (run_ID run); vw_ProjectID := uuidString (run_ProjectID run); vw_Runtime := run_Runtime run;
     vw_CPUMillis := run_CPUMillis run; vw_MemoryMiB := run_MemoryMiB run; vw_TimeoutSeconds := run_TimeoutSeconds run;
     vw_MaxAttempts := run_MaxAttempts run; vw_AttemptCount := run_AttemptCount run; vw_Status := run_Status run;
     vw_FailureCategory := if run_FailureCategory run == FailureUnset then None else Some (run_FailureCategory run);
     vw_CancellationReason := optionalString (run_CancellationReason run);
     vw_CancellationRequestedBy := optionalString (run_CancellationRequestedBy run);
     vw_CancellationRequestedAt := UTC <$> run_CancellationRequestedAt run;
     vw_CompletedAt := UTC <$> run_CompletedAt run; vw_CreatedAt := UTC (run_CreatedAt run);
     vw_UpdatedAt := UTC (run_UpdatedAt run) |}.

(** [pathUUID] *)
Definition pathUUID (value : string) : option UUID :=
  match uuidParse value with
  | Some id => if id == uuidNil then None else Some id
  | None => None
  end.

Definition pathInvalid : Response := writeError 422 "VALIDATION" "Path identifier must be a UUID." false.

Definition createRun (resolver : option (string -> res Identity)) (fresh : CreateFresh)
    (request : Request createRunRequest) (db : DB) : Response * DB :=
  match authenticate resolver (rq_Authorization request) with
  | Err _ => (authenticationRequired, db)
  | Ok caller =>
      match pathUUID (rq_Path request) with
      | None => (pathInvalid, db)
      | Some projectID =>
          match rq_Body request with
          | DecodedBody body =>
              let input :=
                {| ci_PromptReference := crr_PromptReference body; ci_Runtime := crr_Runtime body;
                   ci_CPUMillis := crr_CPUMillis body; ci_MemoryMiB := crr_MemoryMiB body;
                   ci_TimeoutSeconds := crr_TimeoutSeconds body; ci_MaxAttempts := crr_MaxAttempts body;
                   ci_IdempotencyKey := rq_IdempotencyKey request |} in
              match CreateRun fresh caller projectID input db with
              | (Err e, db') => (writeRunError e, db')
              | (Ok (run, replayed), db') =>
                  ({| rp_Status := 202; rp_Replay := replayed;
                      rp_Location := Some ("/v1/runs/" ++ uuidString (run_ID run))%string;
                      rp_Body := RunBody (responseForRun run) |}, db')
              end
          | decoded => (writeRequestDecodeError decoded, db)
          end
      end
  end.

Definition getRun (resolver : option (string -> res Identity)) (request : Request unit) (db : DB) : Response :=
  match authenticate resolver (rq_Authorization request) with
  | Err _ => authenticationRequired
  | Ok caller =>
      match pathUUID (rq_Path request) with
      | None => pathInvalid
      | Some runID =>
          match GetRun caller runID db with
          | Err e => writeRunError e
          | Ok run => {| rp_Status := 200; rp_Replay := false; rp_Location := None; rp_Body := RunBody (responseForRun run) |}
          end
      end
  end.

Definition writeCommandResponse (result : RunCommandResult) : Response :=
  {| rp_Status := 202; rp_Replay := cm_Replayed result; rp_Location := None;
     rp_Body := RunBody (responseForRun (cm_Run result)) |}.

(** The body of a cancellation is its reason. *)
Definition cancelRun (resolver : option (string -> res Identity)) (newEventID : res UUID) (now : Time)
    (request : Request string) (db : DB) : Response * DB :=
  match authenticate resolver (rq_Authorization request) with
  | Err _ => (authenticationRequired, db)
  | Ok caller =>
      match pathUUID (rq_Path request) with
      | None => (pathInvalid, db)
      | Some runID =>
          match rq_Body request with
          | DecodedBody reason =>
              match CancelRun newEventID now caller runID (rq_IdempotencyKey request) reason db with
              | (Err e, db') => (writeRunError e, db')
              | (Ok result, db') => (writeCommandResponse result, db')
              end
          | decoded => (writeRequestDecodeError decoded, db)
          end
      end
  end.

Definition retryRun (resolver : option (string -> res Identity)) (newAttemptID newEventID : res UUID) (now : Time)
    (request : Request unit) (db : DB) : Response * DB :=
  match authenticate resolver (rq_Authorization request) with
  | Err _ => (authenticationRequired, db)
  | Ok caller =>
      match pathUUID (rq_Path request) with
      | None => (pathInvalid, db)
      | Some runID =>
          match rq_Body request with
          | DecodedBody _ =>
              match RetryRun newAttemptID newEventID now caller runID (rq_IdempotencyKey request) db with
              | (Err e, db') => (writeRunError e, db')
              | (Ok result, db') => (writeCommandResponse result, db')
              end
          | decoded => (writeRequestDecodeError decoded, db)
          end
      end
  end.

(** ** Listing *)

Definition encodeCursor (run : AgentRun) : res runCursor :=
  _ ← failIf (jsonTimeFails (run_CreatedAt run)) (ErrPlain "encode cursor");
  Ok {| cu_CreatedAt := UTC (run_CreatedAt run); cu_ID := uuidString (run_ID run) |}.

Definition parseRunPage (limit : string) (cursor : option (option runCursor)) : res AgentRunPage :=
  limit ← (if limit == EmptyString then Ok 50 else
             match Atoi limit with
             | Ok parsed => if (parsed <? 1) || (100 <? parsed) then Err (ErrPlain "invalid limit") else Ok parsed
             | Err e => Err (ErrPlain "invalid limit")
             end);
  match cursor with
  | None => Ok {| pg_ProjectID := None; pg_AfterCreatedAt := None; pg_AfterID := None; pg_Limit := limit |}
  | Some None => Err (ErrPlain "invalid cursor")
  | Some (Some cursor) =>
      match uuidParse (cu_ID cursor) with
      | None => Err (ErrPlain "invalid cursor")
      | Some id =>
          if (id == uuidNil) || IsZero (cu_CreatedAt cursor) then Err (ErrPlain "invalid cursor")
          else Ok {| pg_ProjectID := None; pg_AfterCreatedAt := Some (UTC (cu_CreatedAt cursor)); pg_AfterID := Some id;
                     pg_Limit := limit |}
      end
  end.

Definition listRuns (resolver : option (string -> res Identity)) (request : Request unit) (db : DB) : Response :=
  match authenticate resolver (rq_Authorization request) with
  | Err _ => authenticationRequired
  | Ok caller =>
      match pathUUID (rq_Path request) with
      | None => pathInvalid
      | Some projectID =>
          match parseRunPage (rq_Limit request) (rq_Cursor request) with
          | Err _ => writeError 422 "VALIDATION" "Pagination parameters are invalid." false
          | Ok page =>
              match ListRuns caller projectID page db with
              | Err e => writeRunError e
              | Ok items =>
                  let body next :=
                    {| rp_Status := 200; rp_Replay := false; rp_Location := None;
                       rp_Body := RunsBody (responseForRun <$> items) next |} in
                  if (Z.of_nat (length items) =? pg_Limit page) && (0 <? Z.of_nat (length items)) then
                    match last items with
                    | None => body None
                    | Some item =>
                        match encodeCursor item with
                        | Err _ => writeError 500 "INTERNAL" "An internal error occurred." false
                        | Ok cursor => body (Some cursor)
                        end
                    end
                  else body None
              end
          end
      end
  end.
End Handlers.

(** ** middleware.go, health.go *)

Definition maxRequestIDLen : Z := 128.

Definition upperAlpha (c : Ascii.ascii) : bool := byte_in 65 90 c.

Definition validRequestID (value : string) : bool :=
  negb ((value == EmptyString) || (maxRequestIDLen <? len value))
  && forallb (fun c => lowerAlpha c || upperAlpha c || digit c || hyphen c || underscore c || dot c) (bytes value).

(** [hex.DecodeString] succeeds on an even number of hexadecimal digits. *)
Definition hexDecodes (l : list Ascii.ascii) : bool :=
  (Z.of_nat (length l) mod 2 =? 0) && forallb (fun c => lowerHex c || byte_in 65 70 c) l.

Definition zeros (l : list Ascii.ascii) : bool := forallb (byte_is 48) l.

Definition validTraceparent (value : string) : bool :=
  match splitOn hyphenByte (bytes value) with
  | [version; trace; parent; flags] =>
      (length version =? 2)%nat && (length trace =? 32)%nat && (length parent =? 16)%nat && (length flags =? 2)%nat
      && hexDecodes version && hexDecodes trace && hexDecodes parent && hexDecodes flags
      && negb (version == bytes "ff") && negb (zeros trace) && negb (zeros parent)
  | _ => false
  end.

(** The request identifier and the trace identifier put into the context. *)
Definition requestContext (generated : res string) (requestID trace : string) : string * option string :=
  let requestID :=
    if validRequestID requestID then requestID else
    match generated with
    | Ok generated => if validRequestID generated then generated else "req_fallback"
    | Err _ => "req_fallback"
    end in
  (requestID,
   if validTraceparent trace then
     String.string_of_list_ascii <$> splitOn hyphenByte (bytes trace) !! 1%nat
   else None).

Definition ready (readyState : bool) (dependency : option (res unit)) : Response :=
  if negb readyState then writeError 503 "NOT_READY" "Service is not ready." true
  else match dependency with
       | Some (Err _) => writeError 503 "DEPENDENCY_UNAVAILABLE" "A required dependency is unavailable." true
       | _ => {| rp_Status := 200; rp_Replay := false; rp_Location := None; rp_Body := HealthBody |}
       end.

(** ** Tenant isolation *)

(** The runs and attempts of other tenants are as they were. *)
Definition foreign_kept (tenantID : UUID) (db db' : DB) : Prop :=
  (forall id row, run_TenantID (rr_Run row) <> tenantID -> db_runs db' !! id = Some row <-> db_runs db !! id = Some row) /\
  (forall id a, att_TenantID a <> tenantID -> db_attempts db' !! id = Some a <-> db_attempts db !! id = Some a).

Lemma foreign_kept_refl tenantID db : foreign_kept tenantID db db.
Proof. done. Qed.

Lemma foreign_insert_run {A} (tenant : A -> UUID) (tenantID : UUID) (m : gmap UUID A) id v :
  tenant v = tenantID -> (forall w, m !! id = Some w -> tenant w = tenantID) ->
  forall k w, tenant w <> tenantID -> <[id := v]> m !! k = Some w <-> m !! k = Some w.
Proof.
  intros Hv Hold k w Hw. destruct (decide (id = k)) as [->|Hne]; [|by rewrite lookup_insert_ne].
  rewrite lookup_insert_eq. split; [by intros [= ->]|]. intros Hk. by apply Hold in Hk.
Qed.

Section Isolation.
Context `{UUIDs} `{!UUIDText} `{NetURL} `{SHA256}.

Lemma CreateRun_foreign fresh caller projectID input db r db' :
  CreateRun fresh caller projectID input db = (r, db') -> foreign_kept (id_TenantID caller) db db'.
Proof.
  unfold CreateRun. destruct (prepareRun _ _ _ _ _) as [[run attempt]|] eqn:Hp; [|by intros [= _ <-]].
  destruct (Create _ _ _ _) as [[u|e] db1] eqn:Hc.
  - intros [= _ <-]. apply prepareRun_ok in Hp as (_ & Ht & _).
    apply Create_ok in Hc as (event & response & (Hv & _) & _ & _ & Hn & _ & Han & _ & _ & ->).
    apply failIf_ok in Hv. rewrite !orb_false_iff, !negb_false_iff, !bool_decide_eq_true in Hv. destruct Hv as [[[[[_ _] Hat] _] _] _].
    split; simpl.
    + apply (foreign_insert_run (fun row => run_TenantID (rr_Run row))); simpl; [done|]. intros w. by rewrite Hn.
    + apply (foreign_insert_run att_TenantID); simpl; [congruence|]. intros w. by rewrite Han.
  - assert (db1 = db) as ->; [|destruct e; by intros [= _ <-]].
    unfold Create in Hc. destruct (_ ≫= _) as [[]|] in Hc; [by apply transact_err in Hc|by injection Hc].
Qed.

Lemma CancelRun_foreign newEventID now caller runID commandID reason db r db' :
  runs_keyed db -> CancelRun newEventID now caller runID commandID reason db = (r, db') ->
  foreign_kept (id_TenantID caller) db db'.
Proof.
  intros Hk. unfold CancelRun, Cancel. destruct (negb _); [by intros [= _ <-]|].
  destruct (validateCancelRequest _) as [[]|]; [|by intros [= _ <-]].
  intros [(result & -> & Hs)|[_ ->]]%transact_cases; [|done].
  apply cancelTx_spec in Hs as (row & Hrow & Hten & [(_ & -> & _)|(_ & _ & _ & resp & ev & _ & _ & _ & _ & _ & _ & _ & _ & ->)]);
    [done| |done].
  split; [|done]. simpl. apply (foreign_insert_run (fun row => run_TenantID (rr_Run row))); simpl; [done|].
  intros w. simpl in Hrow. rewrite Hrow. by intros [= <-].
Qed.

Lemma RetryRun_foreign ida ide now caller runID commandID db r db' :
  runs_keyed db -> rows_valid db -> RetryRun ida ide now caller runID commandID db = (r, db') ->
  foreign_kept (id_TenantID caller) db db'.
Proof.
  intros Hk Hv. unfold RetryRun, Retry. destruct (negb _); [by intros [= _ <-]|].
  destruct (validateRetryRequest _) as [[]|]; [|by intros [= _ <-]].
  intros [(result & -> & Hs)|[_ ->]]%transact_cases; [|done].
  apply retryTx_spec in Hs as (row & Hrow & Hten & [(_ & -> & _)|(_ & _ & _ & _ & id & resp & ev & _ & _ & Han & _ & _ & _ & _ & _ & _ & _ & ->)]);
    [done| |done|apply Hv].
  split; simpl.
  - apply (foreign_insert_run (fun row => run_TenantID (rr_Run row))); simpl; [done|].
    intros w. simpl in Hrow. rewrite Hrow. by intros [= <-].
  - apply (foreign_insert_run att_TenantID); simpl; [done|]. intros w. by rewrite Han.
Qed.

(** A run in a response is a stored run of the tenant. *)
Definition shows (tenantID : UUID) (db : DB) (view : runResponse) : Prop :=
  exists id row, db_runs db !! id = Some row /\ run_TenantID (rr_Run row) = tenantID /\ view = responseForRun (rr_Run row).

Lemma getRun_shows resolver request caller db view :
  authenticate resolver (rq_Authorization request) = Ok caller ->
  rp_Body (getRun resolver request db) = RunBody view -> shows (id_TenantID caller) db view.
Proof.
  intros Ha. unfold getRun, GetRun, Get. rewrite Ha. destruct (pathUUID _) as [runID|]; [|done].
  rewrite bind_failIf. destruct (negb _); [done|].
  destruct (tenantRow db (id_TenantID caller) runID) as [row|] eqn:Ht; [|done]. simpl. intros [= <-].
  apply tenantRow_some in Ht as [Hr Ht]. by exists runID, row.
Qed.

Lemma List_stored tenantID page db runs run :
  List tenantID page db = Ok runs -> run ∈ runs ->
  run_TenantID run = tenantID /\ exists id row, db_runs db !! id = Some row /\ rr_Run row = run.
Proof.
  unfold List. intros Hl. apply bind_ok in Hl as ([] & _ & Hl). apply Ok_inj in Hl as <-. intros Hin.
  apply elem_of_take in Hin as (i & Hin%list_elem_of_lookup_2 & _). rewrite merge_sort_Permutation in Hin.
  apply list_elem_of_filter in Hin as [(Ht & _) Hin]. split; [done|].
  apply list_elem_of_fmap in Hin as (row & -> & ([id r] & -> & Hin%elem_of_map_to_list)%list_elem_of_fmap). by exists id, r.
Qed.

Lemma listRuns_shows resolver request caller db views next view :
  authenticate resolver (rq_Authorization request) = Ok caller ->
  rp_Body (listRuns resolver request db) = RunsBody views next -> view ∈ views -> shows (id_TenantID caller) db view.
Proof.
  intros Ha. unfold listRuns. rewrite Ha. destruct (pathUUID _) as [projectID|]; [|done].
  destruct (parseRunPage _ _) as [page|]; [|done].
  destruct (ListRuns caller projectID page db) as [items|e] eqn:Hl; [|by destruct e].
  assert (Hitems : forall item, item ∈ items -> shows (id_TenantID caller) db (responseForRun item)).
  { unfold ListRuns in Hl. apply bind_ok in Hl as ([] & _ & Hl). apply bind_ok in Hl as ([] & _ & Hl). intros item Hin.
    destruct (List_stored _ _ _ _ _ Hl Hin) as (Ht & id & row & Hr & <-). by exists id, row. }
  intros Hb Hv. assert (views = responseForRun <$> items) as ->; [|apply list_elem_of_fmap in Hv as (item & -> & Hin); eauto].
  destruct (_ && _); [|by injection Hb]. destruct (last items) as [item|]; [|by injection Hb].
  destruct (encodeCursor item); [by injection Hb|done].
Qed.

End Isolation.

(** ** Reading a whole listing *)

Section Walk.
Context `{UUIDs} `{!UUIDText} `{NetURL} `{SHA256}.

(** The request for the page after [cursor]. *)
Definition atCursor (request : Request unit) (cursor : option (option runCursor)) : Request unit :=
  {| rq_Authorization := rq_Authorization request; rq_Path := rq_Path request;
     rq_IdempotencyKey := rq_IdempotencyKey request; rq_Limit := rq_Limit request; rq_Cursor := cursor;
     rq_Body := rq_Body request |}.

(** A client that follows the cursors of the pages, at most [fuel] of them. *)
Fixpoint followPages (fuel : nat) resolver (request : Request unit) (cursor : option (option runCursor)) (db : DB) :
    option (list runResponse) :=
  match fuel with
  | O => None
  | S fuel =>
      match rp_Body (listRuns resolver (atCursor request cursor) db) with
      | RunsBody views None => Some views
      | RunsBody views (Some next) =>
          match followPages fuel resolver request (Some (Some next)) db with
          | Some rest => Some (views ++ rest)
          | None => None
          end
      | _ => None
      end
  end.

(** Stored runs have identifiers and instants a cursor can carry. *)
Record cursors_ok (db : DB) : Prop := {
  co_keyed : runs_keyed db;
  co_precision : stored_precision db;
  co_ids : forall id row, db_runs db !! id = Some row -> isUUID id /\ id <> uuidNil;
  co_created : forall id row, db_runs db !! id = Some row ->
    IsZero (run_CreatedAt (rr_Run row)) = false /\ jsonTimeFails (run_CreatedAt (rr_Run row)) = false;
}.

Lemma cursor_readable tenantID project db run limit n :
  cursors_ok db -> run ∈ runHistory tenantID project db ->
  parseRunPage limit None = Ok {| pg_ProjectID := None; pg_AfterCreatedAt := None; pg_AfterID := None; pg_Limit := n |} ->
  exists cursor, encodeCursor run = Ok cursor /\
    parseRunPage limit (Some (Some cursor)) =
      Ok {| pg_ProjectID := None; pg_AfterCreatedAt := Some (run_CreatedAt run); pg_AfterID := Some (run_ID run); pg_Limit := n |}.
Proof.
  intros Hok (_ & id & row & Hr & <-)%runHistory_elem Hp.
  destruct (co_ids _ Hok _ _ Hr) as [Hid Hnil]. destruct (co_created _ Hok _ _ Hr) as [Hz Hj].
  rewrite <-(co_keyed _ Hok _ _ Hr) in Hid, Hnil.
  eexists. unfold encodeCursor. rewrite Hj. split; [reflexivity|].
  unfold parseRunPage in *. apply bind_ok in Hp as (l & -> & [= ->]). simpl. rewrite uuidParse_string by done. unfold UTC.
  rewrite Hz. by rewrite (bool_decide_eq_false_2 _ Hnil).
Qed.

Context (resolver : option (string -> res Identity)) (request : Request unit) (caller : Identity) (projectID : UUID)
  (limit : Z) (db : DB).
Hypothesis Hcaller : authenticate resolver (rq_Authorization request) = Ok caller.
Hypothesis Hmay : CanManageRuns caller = true.
Hypothesis Hpath : pathUUID (rq_Path request) = Some projectID.
Hypothesis Hproject : projectExists (id_TenantID caller) projectID db = Ok tt.
Hypothesis Hlimit : parseRunPage (rq_Limit request) None =
  Ok {| pg_ProjectID := None; pg_AfterCreatedAt := None; pg_AfterID := None; pg_Limit := limit |}.
Hypothesis Hdb : cursors_ok db.

Lemma page_limit : 1 <= limit <= 100.
Proof using Hlimit.
  unfold parseRunPage in Hlimit. apply bind_ok in Hlimit as (l & Hl & [= <-]).
  destruct (_ == _); [injection Hl; lia|]. destruct (Atoi _); [|done]. destruct (_ || _) eqn:E; [done|].
  injection Hl as <-. lia.
Qed.

(** [cursor] stands before the part [rest] of the history. *)
Definition before (cursor : option (option runCursor)) (rest : list AgentRun) : Prop :=
  exists page, parseRunPage (rq_Limit request) cursor = Ok page /\ pg_Limit page = limit /\
    (exists done, runHistory (id_TenantID caller) (Some projectID) db = done ++ rest) /\
    ListRuns caller projectID page db = Ok (take (Z.to_nat limit) rest).

Lemma before_first : before None (runHistory (id_TenantID caller) (Some projectID) db).
Proof using Hproject Hmay Hlimit.
  eexists. split_and!; [exact Hlimit|done|by exists []|]. unfold ListRuns. rewrite Hmay, Hproject. simpl.
  apply List_first, page_limit.
Qed.

Lemma before_next l1 x l2 :
  runHistory (id_TenantID caller) (Some projectID) db = l1 ++ x :: l2 ->
  exists cursor, encodeCursor x = Ok cursor /\ before (Some (Some cursor)) l2.
Proof using Hproject Hmay Hlimit Hdb.
  intros Hh. destruct (cursor_readable (id_TenantID caller) (Some projectID) db x _ _ Hdb ltac:(rewrite Hh, elem_of_app; right; left) Hlimit) as (c & Hc & Hp).
  exists c. split; [done|]. eexists. split_and!; [exact Hp|done|exists (l1 ++ [x]); by rewrite <-app_assoc|].
  unfold ListRuns. rewrite Hmay, Hproject. simpl. by eapply List_after; [apply Hdb..|apply page_limit|].
Qed.

(** A page that is not full ends the walk; a full one continues after its last run. *)
Lemma listRuns_page cursor rest :
  before cursor rest ->
  let page next := rp_Body (listRuns resolver (atCursor request cursor) db) =
    RunsBody (responseForRun <$> take (Z.to_nat limit) rest) next in
  (length rest < Z.to_nat limit)%nat /\ page None \/
  (exists next, (Z.to_nat limit <= length rest)%nat /\ page (Some next) /\ before (Some (Some next)) (drop (Z.to_nat limit) rest)).
Proof using Hproject Hpath Hmay Hlimit Hdb Hcaller.
  intros (pg & Hp & Hl & (l1 & Hh) & Hlist) page. unfold page, listRuns, atCursor. simpl.
  rewrite Hcaller, Hpath, Hp, Hlist, Hl. pose proof page_limit as Hn.
  destruct (decide (length rest < Z.to_nat limit)%nat) as [Hlt|Hge].
  - left. split; [done|]. rewrite take_ge by lia. by replace (_ =? limit) with false by lia.
  - right. assert (Hlen : length (take (Z.to_nat limit) rest) = Z.to_nat limit) by (rewrite length_take; lia).
    rewrite Hlen, Z2Nat.id, Z.eqb_refl by lia. replace (0 <? limit) with true by lia. simpl.
    destruct (last_of_nonempty (take (Z.to_nat limit) rest)) as (l' & x & Hx); [intros E; rewrite E in Hlen; simpl in Hlen; lia|].
    rewrite Hx, last_snoc.
    destruct (before_next (l1 ++ l') x (drop (Z.to_nat limit) rest)) as (c & Hc & Hb).
    { rewrite Hh, <-(take_drop (Z.to_nat limit) rest) at 1. by rewrite Hx, <-!app_assoc. }
    rewrite Hc. simpl. exists c. split_and!; [lia|done..].
Qed.

Lemma followPages_before fuel cursor rest :
  before cursor rest -> (length rest < fuel)%nat ->
  followPages fuel resolver request cursor db = Some (responseForRun <$> rest).
Proof using Hproject Hpath Hmay Hlimit Hdb Hcaller.
  revert cursor rest. induction fuel as [|fuel IH]; intros cursor rest Hb Hf; [lia|]. cbn [followPages].
  pose proof page_limit as Hn. destruct (listRuns_page cursor rest Hb) as [[Hlt ->]|(next & Hge & -> & Hb')].
  - by rewrite take_ge by lia.
  - rewrite (IH _ _ Hb'); [|rewrite length_drop; lia]. by rewrite <-fmap_app, take_drop.
Qed.

(** Following the cursors reads a project's runs completely. A caller who may
    manage runs, starting without a cursor and with any accepted limit, receives,
    after at most one page more than there are runs, every stored run of the
    project in their tenant, newest first, none twice and none missing; the walk
    ends. *)
Theorem listRuns_complete :
  followPages (S (length (runHistory (id_TenantID caller) (Some projectID) db))) resolver request None db =
    Some (responseForRun <$> runHistory (id_TenantID caller) (Some projectID) db) /\
  NoDup (run_ID <$> runHistory (id_TenantID caller) (Some projectID) db) /\
  StronglySorted newest_first (runHistory (id_TenantID caller) (Some projectID) db) /\
  forall run, run ∈ runHistory (id_TenantID caller) (Some projectID) db <->
    run_TenantID run = id_TenantID caller /\ run_ProjectID run = projectID /\
    exists id row, db_runs db !! id = Some row /\ rr_Run row = run.
Proof using Hproject Hpath Hmay Hlimit Hdb Hcaller.
  split_and!.
  - apply followPages_before; [apply before_first|lia].
  - apply runHistory_NoDup, Hdb.
  - apply runHistory_sorted.
  - intros run. rewrite runHistory_elem. unfold onPage. simpl. naive_solver.
Qed.
End Walk.

(** ** Witnesses *)

(** The canonical 36-byte text, read back digit by digit. *)
Definition readUUID (value : string) : option UUID :=
  let u := readHex (filter (fun c => c <> hyphenByte) (bytes value)) in
  if hexUUID u == value then Some u else None.

Lemma hexValue_hexDigit n : 0 <= n < 16 -> hexValue (hexDigit n) = n /\ hexDigit n <> hyphenByte.
Proof.
  intros Hn. assert (Hin : n ∈ seqZ 0 16) by (apply elem_of_seqZ; lia).
  assert (Hall : forallb (fun n => (hexValue (hexDigit n) =? n) && (hexDigit n != hyphenByte)) (seqZ 0 16) = true)
    by (vm_compute; reflexivity).
  rewrite forallb_forall in Hall. apply list_elem_of_In, Hall, andb_true_iff in Hin as [Hv Hd].
  split; [lia|]. by apply negb_true_iff, bool_decide_eq_false in Hd.
Qed.

Lemma readHex_nibbles (k : nat) u : 0 <= u < 16 ^ Z.of_nat k -> readHex (hexDigit <$> nibbles k u) = u.
Proof.
  revert u. induction k as [|k IH]; intros u Hu; [simpl in *; unfold readHex; simpl; lia|].
  replace (16 ^ Z.of_nat (S k)) with (16 * 16 ^ Z.of_nat k) in * by (rewrite Nat2Z.inj_succ, Z.pow_succ_r; lia).
  cbn [nibbles]. unfold readHex in *. rewrite fmap_app, foldl_app, IH; [|split; [apply Z.div_pos|apply Z.div_lt_upper_bound]; lia].
  cbn [fmap list_fmap foldl]. rewrite (proj1 (hexValue_hexDigit (u mod 16) (Z.mod_pos_bound u 16 ltac:(lia)))).
  rewrite (Z.div_mod u 16) at 3 by lia. done.
Qed.

Lemma readUUID_hexUUID u : isUUID u -> readUUID (@uuidString rfcUUIDs u) = Some u.
Proof.
  intros Hu. change (@uuidString rfcUUIDs u) with (hexUUID u). unfold readUUID. replace (filter _ _) with (hexDigit <$> nibbles 32 u).
  { rewrite readHex_nibbles by (unfold isUUID in Hu; lia). by rewrite bool_decide_eq_true_2. }
  assert (Hh : Forall (fun c => c <> hyphenByte) (hexDigit <$> nibbles 32 u)).
  { apply Forall_fmap. eapply Forall_impl; [apply nibbles_range|]. intros n Hn. by apply hexValue_hexDigit. }
  unfold hexUUID. rewrite bytes_of_list. revert Hh. generalize (hexDigit <$> nibbles 32 u). intros h Hh.
  rewrite !filter_app.
  assert (Hpart : forall l, Forall (fun c => c <> hyphenByte) l -> filter (fun c => c <> hyphenByte) l = l).
  { intros l Hl. apply filter_every. by apply Forall_forall. }
  change (filter (fun c => c <> hyphenByte) [hyphenByte]) with (@nil Ascii.ascii).
  rewrite !Hpart by auto using Forall_take, Forall_drop.
  rewrite !app_nil_l.
  assert (Hjoin : forall n m k, k = (m + n)%nat -> take n (drop m h) ++ drop k h = drop m h).
  { intros n m k ->. by rewrite <-drop_drop, take_drop. }
  rewrite !Hjoin by done. symmetry. apply take_drop.
Qed.

Definition rfcUUIDText : @UUIDText rfcUUIDs := {| uuidParse := readUUID; uuidParse_string := readUUID_hexUUID |}.

Definition example_resolver : option (string -> res Identity) :=
  Some (fun token => if token == "secret" then Ok example_caller else Err ErrUnauthenticated).

Definition example_request {A} (path : UUID) (limit : string) (body : A) : Request A :=
  {| rq_Authorization := "Bearer secret"; rq_Path := hexUUID path; rq_IdempotencyKey := "cmd-1"; rq_Limit := limit;
     rq_Cursor := None; rq_Body := DecodedBody body |}.

(** Three runs of one project, two of them created at the same instant. *)
Definition example_listing : DB :=
  let row n t := example_run_row <| rr_Run := (rr_Run example_run_row) <| run_ID := exampleV7 n |> <| run_CreatedAt := t |> |> in
  example_db <| db_runs := {[exampleV7 11 := row 11 exampleNow; exampleV7 12 := row 12 exampleNow;
                             exampleV7 13 := row 13 (exampleNow + Hour)]} |>.

Definition cursor_ok (p : UUID * RunRow) : bool :=
  let run := rr_Run p.2 in
  (run_ID run =? p.1) && (pgTime (run_CreatedAt run) =? run_CreatedAt run) && (0 <? p.1) && (p.1 <? 2 ^ 128)
  && negb (IsZero (run_CreatedAt run)) && negb (jsonTimeFails (run_CreatedAt run)).

Lemma cursors_ok_check db : forallb cursor_ok (map_to_list (db_runs db)) = true -> cursors_ok db.
Proof.
  intros Hall. rewrite forallb_forall in Hall.
  assert (Hrow : forall id row, db_runs db !! id = Some row -> cursor_ok (id, row) = true).
  { intros id row Hr. by apply Hall, list_elem_of_In, elem_of_map_to_list. }
  unfold cursor_ok in Hrow. simpl in Hrow.
  split; intros id row Hr%Hrow; rewrite !andb_true_iff in Hr; unfold isUUID, uuidNil; rewrite ?negb_true_iff in Hr; [lia..|].
  tauto.
Qed.


Lemma listRuns_complete_witness :
  @followPages rfcUUIDs rfcUUIDText 4 example_resolver (example_request (exampleV7 8) "1" tt) None example_listing =
    Some (@responseForRun rfcUUIDs <$> runHistory exampleTenant (Some (exampleV7 8)) example_listing) /\
  length (runHistory exampleTenant (Some (exampleV7 8)) example_listing) = 3%nat.
Proof.
  split; [|vm_compute; reflexivity].
  refine (proj1 (@listRuns_complete rfcUUIDs rfcUUIDText example_resolver (example_request (exampleV7 8) "1" tt) example_caller (exampleV7 8) 1
    example_listing eq_refl eq_refl _ eq_refl eq_refl _)).
  - vm_compute. reflexivity.
  - apply cursors_ok_check. vm_compute. reflexivity.
Defined.
