(* ===== verification/Outbox.v ===== *)
(** * Publication of events (internal/adapters/postgres/outbox.go,
      internal/application/outbox/relay.go)

    The relay claims due rows of the outbox under a lease, hands each event to the
    broker, and records the outcome. Claiming and publishing are separate steps, so
    a relay that stops in between leaves the event to be published again. *)

From S2P Require Import Prelude AgentRun Policy Cluster Events Store.

(** ** outbox.go *)

Record ClaimedOutboxEvent := {
  co_Event : OutboxEvent;
  co_PublicationAttempts : Z;
  co_ClaimedBy : string;
  co_ClaimExpiresAt : Time;
}.

Record PublicationResult := {
  pb_Partition : Z;
  pb_Offset : Z;
}.

Definition ob_ID (row : OutboxRow) : UUID := env_EventID (oe_Envelope (ob_Event row)).

Definition co_ID (claimed : ClaimedOutboxEvent) : UUID := env_EventID (oe_Envelope (co_Event claimed)).

(** The [where] clause of [claimable]. *)
Definition dueEvent (now : Time) (row : OutboxRow) : bool :=
  (ob_Disposition row == DispositionPending) && bool_decide (ob_PublishedAt row = None) && (ob_NextAttemptAt row <=? pgTime now)
  && (bool_decide (ob_ClaimedBy row = None)
      || match ob_ClaimExpiresAt row with Some expiry => expiry <=? pgTime now | None => false end).

(** [order by next_attempt_at, created_at, event_id] *)
Definition due_first (a b : OutboxRow) : Prop :=
  ob_NextAttemptAt a < ob_NextAttemptAt b \/
  (ob_NextAttemptAt a = ob_NextAttemptAt b /\
   (oe_CreatedAt (ob_Event a) < oe_CreatedAt (ob_Event b) \/
    (oe_CreatedAt (ob_Event a) = oe_CreatedAt (ob_Event b) /\ ob_ID a <= ob_ID b))).

#[export] Instance due_first_dec : RelDecision due_first.
Proof. intros a b. unfold due_first. apply _. Defined.

(** The rows of [claimable]; [heldElsewhere] are locked by other transactions. *)
Definition claimableEvents (heldElsewhere : UUID -> bool) (now : Time) (limit : Z) (db : DB) : list OutboxRow :=
  take (Z.to_nat limit) (filter (fun row => heldElsewhere (ob_ID row) = false)
    (merge_sort due_first (filter (fun row => dueEvent now row = true) (map_to_list (db_outbox db)).*2))).

Definition claimedOutboxRow (owner : string) (expiry : Time) (row : OutboxRow) : OutboxRow :=
  row <| ob_ClaimedBy := Some owner |> <| ob_ClaimExpiresAt := Some expiry |>.

Definition scanClaimedOutbox (owner : string) (expiry : Time) (row : OutboxRow) : ClaimedOutboxEvent :=
  {| co_Event := ob_Event row; co_PublicationAttempts := ob_PublicationAttempts row; co_ClaimedBy := owner;
     co_ClaimExpiresAt := expiry |}.

(** [Claim]. The order in which the update returns its rows is the database's:
    [returning] is a permutation. *)
Definition ClaimOutbox (returning : list OutboxRow -> list OutboxRow) (heldElsewhere : UUID -> bool) (owner : string)
    (now : Time) (lease : Duration) (limit : Z) (db : DB) : res (list ClaimedOutboxEvent) * DB :=
  if (owner == EmptyString) || (lease <=? 0) || (limit <=? 0) || (1000 <? limit)
  then (Err (ErrPlain "outbox claim owner, lease, and bounded limit are required"), db)
  else
    let rows := claimableEvents heldElsewhere now limit db in
    let expiry := pgTime (Add (UTC now) lease) in
    (Ok (scanClaimedOutbox owner expiry <$> returning rows),
     db <| db_outbox := (fun row => if bool_decide (ob_ID row ∈ ob_ID <$> rows) then claimedOutboxRow owner expiry row else row)
             <$> db_outbox db |>).

(** The result of an arithmetic update of an [integer] column. *)
Definition pgInteger (z : Z) : res Z :=
  _ ← failIf ((z <? - 2 ^ 31) || (2 ^ 31 - 1 <? z)) (ErrPlain "integer out of range");
  Ok z.

(** [update outbox_events ... where event_id=$ and disposition='PENDING' and
    claimed_by=$], and [requireOneOutboxRow]. *)
Definition updateClaimed (eventID : UUID) (owner : string) (change : OutboxRow -> res OutboxRow) (db : DB) : res unit * DB :=
  match db_outbox db !! eventID with
  | None => (Err (ErrPlain "claim is missing or expired"), db)
  | Some row =>
      if (ob_Disposition row == DispositionPending) && (ob_ClaimedBy row == Some owner) then
        match change row with
        | Err e => (Err e, db)
        | Ok row' => (Ok tt, db <| db_outbox := <[eventID := row']> (db_outbox db) |>)
        end
      else (Err (ErrPlain "claim is missing or expired"), db)
  end.

Definition publishedRow (now : Time) (result : PublicationResult) (row : OutboxRow) : res OutboxRow :=
  attempts ← pgInteger (ob_PublicationAttempts row + 1);
  partition ← pgInteger (pb_Partition result);
  Ok {| ob_Event := ob_Event row; ob_Disposition := DispositionPublished; ob_NextAttemptAt := ob_NextAttemptAt row;
        ob_PublicationAttempts := attempts; ob_ClaimedBy := None; ob_ClaimExpiresAt := None;
        ob_PublishedAt := Some (pgTime (UTC now)); ob_BrokerPosition := Some (partition, pb_Offset result);
        ob_LastFailure := None |}.

Definition MarkPublished (eventID : UUID) (owner : string) (now : Time) (result : PublicationResult) (db : DB) : res unit * DB :=
  updateClaimed eventID owner (publishedRow now result) db.

(** [left(s, n)] on UTF-8 text: at most [n] characters, a character being a byte
    that does not continue one and the continuation bytes after it. *)
Fixpoint leftBytes (n : nat) (l : list Ascii.ascii) : list Ascii.ascii :=
  match l with
  | [] => []
  | c :: rest =>
      if byte_in 128 191 c then c :: leftBytes n rest
      else match n with O => [] | S n => c :: leftBytes n rest end
  end.

Definition left1000 (s : string) : string := String.string_of_list_ascii (leftBytes 1000 (bytes s)).

(** The interval by the number of earlier publications. *)
Definition backoffBase (attempts : Z) : Duration :=
  if attempts =? 0 then Second else if attempts =? 1 then 5 * Second else if attempts =? 2 then 30 * Second
  else if attempts =? 3 then 2 * Minute else 10 * Minute.

(** [hash] is the database's [hashtextextended(event_id::text, attempts)]. *)
Definition backoffDelay (hash : UUID -> Z -> Z) (eventID : UUID) (attempts : Z) : Duration :=
  backoffBase attempts * (80 + Z.abs (hash eventID attempts) mod 41) / 100.

Definition failedRow (hash : UUID -> Z -> Z) (now : Time) (category reason : string) (permanent : bool) (row : OutboxRow) :
    res OutboxRow :=
  attempts ← pgInteger (ob_PublicationAttempts row + 1);
  Ok {| ob_Event := ob_Event row;
        ob_Disposition := if permanent then DispositionTerminal else DispositionPending;
        ob_NextAttemptAt := if permanent then pgTime (UTC now)
          else pgTime (UTC now) + backoffDelay hash (ob_ID row) (ob_PublicationAttempts row);
        ob_PublicationAttempts := attempts; ob_ClaimedBy := None; ob_ClaimExpiresAt := None;
        ob_PublishedAt := ob_PublishedAt row; ob_BrokerPosition := ob_BrokerPosition row;
        ob_LastFailure := Some (category, left1000 reason, pgTime (UTC now)) |}.

Definition MarkFailed (hash : UUID -> Z -> Z) (eventID : UUID) (owner : string) (now : Time) (category reason : string)
    (permanent : bool) (db : DB) : res unit * DB :=
  updateClaimed eventID owner (failedRow hash now category reason permanent) db.

(** [order by published_at, event_id] *)
Definition published_first (a b : OutboxRow) : Prop :=
  default 0 (ob_PublishedAt a) < default 0 (ob_PublishedAt b) \/
  (default 0 (ob_PublishedAt a) = default 0 (ob_PublishedAt b) /\ ob_ID a <= ob_ID b).

#[export] Instance published_first_dec : RelDecision published_first.
Proof. intros a b. unfold published_first. apply _. Defined.

Definition cleanable (before : Time) (row : OutboxRow) : bool :=
  (ob_Disposition row == DispositionPublished)
  && match ob_PublishedAt row with Some at_ => at_ <? pgTime before | None => false end.

Definition CleanupPublished (before : Time) (limit : Z) (db : DB) : res Z * DB :=
  if (limit <=? 0) || (10000 <? limit) then (Err (ErrPlain "cleanup limit must be between 1 and 10000"), db)
  else
    let ids := ob_ID <$> take (Z.to_nat limit) (merge_sort published_first
      (filter (fun row => cleanable (UTC before) row = true) (map_to_list (db_outbox db)).*2)) in
    (Ok (Z.of_nat (length ids)), db <| db_outbox := filter (fun p => p.1 ∉ ids) (db_outbox db) |>).

(** ** relay.go *)

(** What the publisher answers: the position of the accepted record, or an error
    with its classification and its safe message, if it has them. *)
Inductive PublishOutcome :=
| Accepted (result : PublicationResult)
| Refused (permanent : option bool) (safeMessage : option string).

Record Relay := {
  rl_Owner : string;
  rl_Lease : Duration;
  rl_PublishTimeout : Duration;
  rl_BatchSize : Z;
  rl_PollInterval : Duration;
}.

Definition NewRelay (owner : string) : res Relay :=
  _ ← failIf (owner == EmptyString) (ErrPlain "outbox repository, publisher, and owner are required");
  Ok {| rl_Owner := owner; rl_Lease := 30 * Second; rl_PublishTimeout := 10 * Second; rl_BatchSize := 100;
        rl_PollInterval := Second |}.

Definition failureCategory (permanent : bool) : string := if permanent then "PERMANENT" else "TRANSIENT".

Definition safeFailureReason (safeMessage : option string) : string :=
  match safeMessage with
  | Some message => if TrimSpace message == EmptyString then "event publication failed" else TrimSpace message
  | None => "event publication failed"
  end.

(** The body of the loop for one event: [clock] is the reading when the outcome is
    recorded. *)
Definition relayEvent (hash : UUID -> Z -> Z) (relay : Relay) (clock : UUID -> Time) (publish : OutboxEvent -> PublishOutcome)
    (event : ClaimedOutboxEvent) (db : DB) : res unit * DB :=
  match publish (co_Event event) with
  | Accepted result => MarkPublished (co_ID event) (rl_Owner relay) (clock (co_ID event)) result db
  | Refused classified safeMessage =>
      let permanent := default false classified in
      MarkFailed hash (co_ID event) (rl_Owner relay) (clock (co_ID event)) (failureCategory permanent)
        (safeFailureReason safeMessage) permanent db
  end.

(** The loop: the errors it joins. *)
Fixpoint relayEvents (hash : UUID -> Z -> Z) (relay : Relay) (clock : UUID -> Time) (publish : OutboxEvent -> PublishOutcome)
    (claimed : list ClaimedOutboxEvent) (db : DB) : list error * DB :=
  match claimed with
  | [] => ([], db)
  | event :: rest =>
      let '(r, db1) := relayEvent hash relay clock publish event db in
      let '(failures, db2) := relayEvents hash relay clock publish rest db1 in
      (match r with Ok _ => failures | Err e => e :: failures end, db2)
  end.

Definition RunOnce (hash : UUID -> Z -> Z) (returning : list OutboxRow -> list OutboxRow) (heldElsewhere : UUID -> bool)
    (relay : Relay) (now : Time) (clock : UUID -> Time) (publish : OutboxEvent -> PublishOutcome) (db : DB) :
    Z * list error * DB :=
  match ClaimOutbox returning heldElsewhere (rl_Owner relay) now (rl_Lease relay) (rl_BatchSize relay) db with
  | (Err e, db') => (0, [e], db')
  | (Ok claimed, db') =>
      let '(failures, db'') := relayEvents hash relay clock publish claimed db' in
      (Z.of_nat (length claimed), failures, db'')
  end.

(** [Run]: one pass per poll until the context is cancelled; the relay stops with
    the first error. The polls are the instants of the passes before cancellation. *)
Fixpoint RunRelay (hash : UUID -> Z -> Z) (returning : list OutboxRow -> list OutboxRow) (heldElsewhere : UUID -> bool)
    (relay : Relay) (clock : UUID -> Time) (publish : OutboxEvent -> PublishOutcome) (polls : list Time) (db : DB) :
    list error * DB :=
  match polls with
  | [] => ([], db)
  | now :: polls =>
      let '(_, failures, db') := RunOnce hash returning heldElsewhere relay now clock publish db in
      match failures with
      | [] => RunRelay hash returning heldElsewhere relay clock publish polls db'
      | _ :: _ => (failures, db')
      end
  end.

(** ** Retry schedule *)

Lemma pgInteger_ok z v : pgInteger z = Ok v <-> v = z /\ - 2 ^ 31 <= z <= 2 ^ 31 - 1.
Proof.
  unfold pgInteger. rewrite bind_failIf. destruct (_ || _) eqn:E; split; [done|lia|intros [= <-]; lia|].
  intros [-> _]. done.
Qed.

Lemma pgInteger_fits z : - 2 ^ 31 <= z <= 2 ^ 31 - 1 -> pgInteger z = Ok z.
Proof. intros Hz. by apply pgInteger_ok. Qed.

Lemma updateClaimed_hit eventID owner change db row row' :
  db_outbox db !! eventID = Some row -> ob_Disposition row = DispositionPending -> ob_ClaimedBy row = Some owner ->
  change row = Ok row' ->
  updateClaimed eventID owner change db = (Ok tt, db <| db_outbox := <[eventID := row']> (db_outbox db) |>).
Proof. intros Hr Hd Ho Hc. unfold updateClaimed. rewrite Hr, Hd, Ho, Hc. by rewrite !bool_decide_eq_true_2. Qed.

Lemma backoffBase_bounds attempts : Second <= backoffBase attempts <= 10 * Minute.
Proof. unfold backoffBase. repeat case_match; unfold Minute, Second; lia. Qed.

Lemma backoffDelay_bounds hash eventID attempts :
  let base := backoffBase attempts in
  base * 80 / 100 <= backoffDelay hash eventID attempts <= base * 120 / 100.
Proof.
  intros base. unfold backoffDelay. fold base. pose proof (backoffBase_bounds attempts) as Hb. fold base in Hb.
  pose proof (Z.mod_pos_bound (Z.abs (hash eventID attempts)) 41 ltac:(lia)).
  unfold Minute, Second in *. split; apply Z.div_le_mono; nia.
Qed.

Lemma backoffBase_nth attempts :
  0 <= attempts ->
  backoffBase attempts = nth (Z.to_nat attempts) [Second; 5 * Second; 30 * Second; 2 * Minute] (10 * Minute).
Proof.
  intros Ha. unfold backoffBase. destruct (Z.eqb_spec attempts 0) as [->|]; [done|].
  destruct (Z.eqb_spec attempts 1) as [->|]; [done|]. destruct (Z.eqb_spec attempts 2) as [->|]; [done|].
  destruct (Z.eqb_spec attempts 3) as [->|]; [done|]. rewrite nth_overflow; [done|]. simpl. lia.
Qed.

(** Failed publications are retried on a bounded schedule. When the holder of
    the claim records a failure, the row is released; a transient failure makes it
    due again after 80 to 120 percent of 1 second, 5 seconds, 30 seconds, 2 minutes
    and then always 10 minutes, whatever the hash, so never within 800 ms and
    always within 12 minutes; a permanent one is never due again. Anyone else
    changes nothing. *)
Theorem MarkFailed_reschedules hash eventID owner now category reason permanent db row :
  db_outbox db !! eventID = Some row -> ob_Disposition row = DispositionPending -> ob_PublishedAt row = None ->
  0 <= ob_PublicationAttempts row < 2 ^ 31 - 1 ->
  let '(r, db') := MarkFailed hash eventID owner now category reason permanent db in
  (ob_ClaimedBy row <> Some owner -> (exists e, r = Err e) /\ db' = db) /\
  (ob_ClaimedBy row = Some owner -> r = Ok tt /\
    exists row', db' = db <| db_outbox := <[eventID := row']> (db_outbox db) |> /\
      ob_ClaimedBy row' = None /\ ob_PublicationAttempts row' = ob_PublicationAttempts row + 1 /\
      (permanent = true -> forall t, dueEvent t row' = false) /\
      (permanent = false -> forall t,
        let base := nth (Z.to_nat (ob_PublicationAttempts row)) [Second; 5 * Second; 30 * Second; 2 * Minute] (10 * Minute) in
        (pgTime t < pgTime now + base * 80 / 100 -> dueEvent t row' = false) /\
        (pgTime now + base * 120 / 100 <= pgTime t -> dueEvent t row' = true) /\
        800 * Millisecond <= base * 80 / 100 /\ base * 120 / 100 <= 12 * Minute)).
Proof.
  intros Hr Hd Hp Hn. unfold MarkFailed.
  destruct (decide (ob_ClaimedBy row = Some owner)) as [Ho|Ho].
  - assert (Hc := eq_refl (failedRow hash now category reason permanent row)).
    unfold failedRow in Hc at 2. rewrite pgInteger_fits in Hc by lia. simpl in Hc.
    rewrite (updateClaimed_hit _ _ _ _ _ _ Hr Hd Ho Hc). split; [done|]. intros _. split; [done|].
    eexists. split; [done|]. split; [done|]. split; [done|].
    unfold dueEvent. cbn [ob_Disposition ob_PublishedAt ob_NextAttemptAt ob_ClaimedBy]. rewrite Hp.
    split; intros -> t; [done|]. rewrite <-backoffBase_nth by lia. cbn zeta.
    pose proof (backoffBase_bounds (ob_PublicationAttempts row)).
    pose proof (backoffDelay_bounds hash (ob_ID row) (ob_PublicationAttempts row)). unfold UTC. simpl in *.
    unfold Millisecond, Minute, Second in *. rewrite andb_true_r. split_and!; [lia..| |].
    + apply Z.div_le_lower_bound; lia.
    + apply Z.div_le_upper_bound; lia.
  - unfold updateClaimed. rewrite Hr, Hd, (bool_decide_eq_false_2 _ Ho), andb_false_r. split; [eauto|done].
Qed.

(** ** At-least-once delivery

    Relays, transactions that commit events and the cleanup interleave in any
    order; a relay may stop between any two of its steps. *)

Inductive Task :=
| Holding (owner : string) (event : ClaimedOutboxEvent)
| Answered (owner : string) (event : ClaimedOutboxEvent) (outcome : PublishOutcome).

(** The tables, the identifiers the broker has accepted and those the publisher has
    refused for good, the events committed so far, and the work in progress. *)
Record Publication := {
  pn_DB : DB;
  pn_Log : gset UUID;
  pn_Refused : gset UUID;
  pn_Committed : gset UUID;
  pn_Tasks : list Task;
}.

Definition isPermanent (outcome : PublishOutcome) : bool :=
  match outcome with Refused (Some true) _ => true | _ => false end.

Definition markOutcome (hash : UUID -> Z -> Z) (owner : string) (now : Time) (event : ClaimedOutboxEvent) (outcome : PublishOutcome)
    (db : DB) : res unit * DB :=
  match outcome with
  | Accepted result => MarkPublished (co_ID event) owner now result db
  | Refused classified safeMessage =>
      let permanent := default false classified in
      MarkFailed hash (co_ID event) owner now (failureCategory permanent) (safeFailureReason safeMessage) permanent db
  end.

Inductive publication_step `{UUIDs} : Publication -> Publication -> Prop :=
| step_commit st event db' :
    insertOutboxEvent event (pn_DB st) = Ok (tt, db') -> env_EventID (oe_Envelope event) ∉ pn_Committed st ->
    publication_step st {| pn_DB := db'; pn_Log := pn_Log st; pn_Refused := pn_Refused st;
      pn_Committed := {[env_EventID (oe_Envelope event)]} ∪ pn_Committed st; pn_Tasks := pn_Tasks st |}
| step_claim st returning held owner now lease limit claimed db' :
    (forall rows, returning rows ≡ₚ rows) ->
    ClaimOutbox returning held owner now lease limit (pn_DB st) = (Ok claimed, db') ->
    publication_step st {| pn_DB := db'; pn_Log := pn_Log st; pn_Refused := pn_Refused st;
      pn_Committed := pn_Committed st; pn_Tasks := pn_Tasks st ++ (Holding owner <$> claimed) |}
| step_publish st owner event outcome accepted tasks :
    (* the broker may have taken a record whose publication is reported as failed *)
    pn_Tasks st ≡ₚ Holding owner event :: tasks ->
    accepted = true \/ (forall result, outcome <> Accepted result) ->
    publication_step st {| pn_DB := pn_DB st;
      pn_Log := if accepted : bool then {[co_ID event]} ∪ pn_Log st else pn_Log st;
      pn_Refused := if isPermanent outcome then {[co_ID event]} ∪ pn_Refused st else pn_Refused st;
      pn_Committed := pn_Committed st; pn_Tasks := Answered owner event outcome :: tasks |}
| step_mark st hash owner event outcome now r db' tasks :
    pn_Tasks st ≡ₚ Answered owner event outcome :: tasks ->
    markOutcome hash owner now event outcome (pn_DB st) = (r, db') ->
    publication_step st {| pn_DB := db'; pn_Log := pn_Log st; pn_Refused := pn_Refused st;
      pn_Committed := pn_Committed st; pn_Tasks := tasks |}
| step_stop st task tasks :
    pn_Tasks st ≡ₚ task :: tasks ->
    publication_step st {| pn_DB := pn_DB st; pn_Log := pn_Log st; pn_Refused := pn_Refused st;
      pn_Committed := pn_Committed st; pn_Tasks := tasks |}
| step_cleanup st before limit r db' :
    CleanupPublished before limit (pn_DB st) = (r, db') ->
    publication_step st {| pn_DB := db'; pn_Log := pn_Log st; pn_Refused := pn_Refused st;
      pn_Committed := pn_Committed st; pn_Tasks := pn_Tasks st |}.

Record publication_inv (st : Publication) : Prop := {
  pi_keyed : forall id row, db_outbox (pn_DB st) !! id = Some row -> ob_ID row = id;
  pi_gone : forall id, id ∈ pn_Committed st -> db_outbox (pn_DB st) !! id = None -> id ∈ pn_Log st;
  pi_rows : forall id row, db_outbox (pn_DB st) !! id = Some row ->
    match ob_Disposition row with
    | DispositionPending => ob_PublishedAt row = None
    | DispositionPublished => id ∈ pn_Log st
    | DispositionTerminal => id ∈ pn_Refused st
    end;
  pi_answers : forall owner event outcome, Answered owner event outcome ∈ pn_Tasks st ->
    (forall result, outcome = Accepted result -> co_ID event ∈ pn_Log st) /\
    (isPermanent outcome = true -> co_ID event ∈ pn_Refused st);
}.

Definition publication_start (db : DB) : Publication :=
  {| pn_DB := db; pn_Log := ∅; pn_Refused := ∅; pn_Committed := ∅; pn_Tasks := [] |}.

Section Delivery.
Context `{UUIDs}.

Lemma updateClaimed_cases eventID owner change db r db' :
  updateClaimed eventID owner change db = (r, db') ->
  db' = db \/ exists row row', db_outbox db !! eventID = Some row /\ ob_Disposition row = DispositionPending /\
    change row = Ok row' /\ db' = db <| db_outbox := <[eventID := row']> (db_outbox db) |>.
Proof.
  unfold updateClaimed. destruct (db_outbox db !! eventID) as [row|] eqn:Hr; [|intros [= _ <-]; by left].
  destruct (_ && _) eqn:Hg; [|intros [= _ <-]; by left]. destruct (change row) as [row'|] eqn:Hc; [|intros [= _ <-]; by left].
  intros [= _ <-]. right. exists row, row'. apply andb_true_iff in Hg as [Hd%bool_decide_eq_true _]. done.
Qed.

Lemma markOutcome_cases hash owner now event outcome db r db' :
  markOutcome hash owner now event outcome db = (r, db') ->
  db' = db \/ exists row row', db_outbox db !! co_ID event = Some row /\ ob_Disposition row = DispositionPending /\
    db' = db <| db_outbox := <[co_ID event := row']> (db_outbox db) |> /\ ob_ID row' = ob_ID row /\
    match ob_Disposition row' with
    | DispositionPending => ob_PublishedAt row' = ob_PublishedAt row
    | DispositionPublished => exists result, outcome = Accepted result
    | DispositionTerminal => isPermanent outcome = true
    end.
Proof.
  unfold markOutcome, MarkPublished, MarkFailed.
  destruct outcome as [result|classified safe]; intros [->|(row & row' & Hr & Hd & Hc & ->)]%updateClaimed_cases; try (by left);
    right; exists row, row'; (split; [done|]); (split; [done|]); (split; [done|]).
  - unfold publishedRow in Hc. apply bind_ok in Hc as (? & _ & Hc). apply bind_ok in Hc as (? & _ & Hc).
    apply Ok_inj in Hc as <-. simpl. eauto.
  - unfold failedRow in Hc. apply bind_ok in Hc as (? & _ & Hc). apply Ok_inj in Hc as <-. simpl.
    destruct classified as [[]|]; done.
Qed.

Lemma claimed_lookup (f : OutboxRow -> OutboxRow) db id row :
  (db <| db_outbox := f <$> db_outbox db |>).(db_outbox) !! id = Some row ->
  exists row0, db_outbox db !! id = Some row0 /\ row = f row0.
Proof. simpl. rewrite lookup_fmap. intros (row0 & Hr & ->)%fmap_Some. eauto. Qed.

Lemma commit_inv st event db' :
  insertOutboxEvent event (pn_DB st) = Ok (tt, db') -> publication_inv st ->
  publication_inv {| pn_DB := db'; pn_Log := pn_Log st; pn_Refused := pn_Refused st;
    pn_Committed := {[env_EventID (oe_Envelope event)]} ∪ pn_Committed st; pn_Tasks := pn_Tasks st |}.
Proof.
  intros [Hn ->]%insertOutboxEvent_spec [Hk Hg Hr Ha]. split; simpl; [| | |exact Ha].
  - intros id row [[<- <-]|[_ Hl]]%lookup_insert_Some; [done|eauto].
  - intros id Hc. rewrite lookup_insert_None. intros [Hl Hne]. apply Hg; set_solver.
  - intros id row [[<- <-]|[_ Hl]]%lookup_insert_Some; [done|by apply Hr].
Qed.

Lemma claim_inv st returning held owner now lease limit claimed db' :
  ClaimOutbox returning held owner now lease limit (pn_DB st) = (Ok claimed, db') -> publication_inv st ->
  publication_inv {| pn_DB := db'; pn_Log := pn_Log st; pn_Refused := pn_Refused st;
    pn_Committed := pn_Committed st; pn_Tasks := pn_Tasks st ++ (Holding owner <$> claimed) |}.
Proof.
  unfold ClaimOutbox. destruct (_ || _); [done|]. intros Hc [Hk Hg Hr Ha]. apply pair_equal_spec in Hc as [_ <-]. split.
  - intros id row (row0 & Hl & ->)%claimed_lookup. case_bool_decide; simpl; apply Hk in Hl; done.
  - intros id Hc Hl. simpl in Hl. rewrite lookup_fmap, fmap_None in Hl. by apply Hg.
  - intros id row (row0 & Hl & ->)%claimed_lookup. apply Hr in Hl. case_bool_decide; done.
  - simpl. intros owner' event outcome [Hin|(? & ? & _)%list_elem_of_fmap]%elem_of_app; [by eapply Ha|done].
Qed.

Lemma publish_inv st owner event outcome (accepted : bool) tasks :
  pn_Tasks st ≡ₚ Holding owner event :: tasks ->
  accepted = true \/ (forall result, outcome <> Accepted result) -> publication_inv st ->
  publication_inv {| pn_DB := pn_DB st;
    pn_Log := if accepted then {[co_ID event]} ∪ pn_Log st else pn_Log st;
    pn_Refused := if isPermanent outcome then {[co_ID event]} ∪ pn_Refused st else pn_Refused st;
    pn_Committed := pn_Committed st; pn_Tasks := Answered owner event outcome :: tasks |}.
Proof.
  intros Hperm Hacc [Hk Hg Hr Ha]. split; simpl; [done| | |].
  - intros id Hc Hl. specialize (Hg id Hc Hl). case_match; set_solver.
  - intros id row Hl. specialize (Hr id row Hl). repeat case_match; set_solver.
  - intros owner' event' outcome' [Heq|Hin]%elem_of_cons.
    + injection Heq as -> -> ->. split; [intros result ->|intros ->; set_solver].
      destruct Hacc as [->|Hno]; [set_solver|by destruct (Hno result)].
    + destruct (Ha owner' event' outcome') as [Hal Har]; [rewrite Hperm; set_solver|].
      split; [intros result Hres; specialize (Hal _ Hres)|intros Hp; specialize (Har Hp)]; case_match; set_solver.
Qed.

Lemma mark_inv st hash owner event outcome now r db' tasks :
  pn_Tasks st ≡ₚ Answered owner event outcome :: tasks ->
  markOutcome hash owner now event outcome (pn_DB st) = (r, db') -> publication_inv st ->
  publication_inv {| pn_DB := db'; pn_Log := pn_Log st; pn_Refused := pn_Refused st;
    pn_Committed := pn_Committed st; pn_Tasks := tasks |}.
Proof.
  intros Hperm Hm [Hk Hg Hr Ha].
  destruct (Ha owner event outcome) as [Hacc Href]; [rewrite Hperm; set_solver|].
  assert (Ha' : forall o e out, Answered o e out ∈ tasks -> Answered o e out ∈ pn_Tasks st) by (intros; rewrite Hperm; set_solver).
  apply markOutcome_cases in Hm as [->|(row & row' & Hl & Hd & -> & Hid & Hrow)]; [split; simpl; eauto|].
  split; simpl; [| | |eauto].
  - intros id row1 [[<- <-]|[_ Hl1]]%lookup_insert_Some; [|eauto]. rewrite Hid. eauto.
  - intros id Hc [Hl1 _]%lookup_insert_None. eauto.
  - intros id row1 [[<- <-]|[_ Hl1]]%lookup_insert_Some; [|by apply Hr]. specialize (Hr _ _ Hl). rewrite Hd in Hr.
    destruct (ob_Disposition row'); [congruence|destruct Hrow as [result ->]; eauto|eauto].
Qed.

Lemma cleanup_inv st before limit r db' :
  CleanupPublished before limit (pn_DB st) = (r, db') -> publication_inv st ->
  publication_inv {| pn_DB := db'; pn_Log := pn_Log st; pn_Refused := pn_Refused st;
    pn_Committed := pn_Committed st; pn_Tasks := pn_Tasks st |}.
Proof.
  unfold CleanupPublished. intros Hc [Hk Hg Hr Ha]. destruct (_ || _); apply pair_equal_spec in Hc as [_ <-]; [by split|].
  split; simpl; [| | |done].
  - intros id row [Hl _]%map_lookup_filter_Some. eauto.
  - intros id Hc [Hl|Hl]%map_lookup_filter_None; [eauto|].
    destruct (db_outbox (pn_DB st) !! id) as [row|] eqn:Hid; [|eauto]. specialize (Hl row eq_refl). simpl in Hl.
    apply dec_stable, list_elem_of_fmap in Hl as (row' & -> & Hin).
    apply elem_of_take in Hin as (i & Hin%list_elem_of_lookup_2 & _).
    rewrite merge_sort_Permutation in Hin. apply list_elem_of_filter in Hin as [Hcl Hin].
    apply list_elem_of_fmap in Hin as ([id' row''] & -> & Hin%elem_of_map_to_list). simpl in *.
    rewrite (Hk _ _ Hin) in Hid |- *. specialize (Hr _ _ Hin). unfold cleanable in Hcl.
    apply andb_true_iff in Hcl as [Hd%bool_decide_eq_true _]. by rewrite Hd in Hr.
  - intros id row [Hl _]%map_lookup_filter_Some. by apply Hr.
Qed.

Lemma publication_step_inv st st' : publication_step st st' -> publication_inv st -> publication_inv st'.
Proof.
  intros [] Hinv; [by apply commit_inv|by eapply claim_inv|by eapply publish_inv|by eapply mark_inv| |by eapply cleanup_inv].
  destruct Hinv as [Hk Hg Hr Ha]. split; simpl; [done..|]. intros o e out Hin. apply (Ha o e out).
  match goal with Hp : pn_Tasks _ ≡ₚ _ |- _ => rewrite Hp end. set_solver.
Qed.

Lemma publication_steps_inv st st' : rtc publication_step st st' -> publication_inv st -> publication_inv st'.
Proof. induction 1; eauto using publication_step_inv. Qed.

(** C12: No committed event is lost. Whatever transactions commit events, relays
    claim, publish, record outcomes and stop, and however these interleave with
    each other and with the cleanup, every event committed since the outbox was
    empty has been accepted by the broker, or waits in the outbox to be claimed
    again, or is kept there because the publisher refused it for good. *)
Theorem outbox_at_least_once db st id :
  db_outbox db = ∅ -> rtc publication_step (publication_start db) st -> id ∈ pn_Committed st ->
  id ∈ pn_Log st \/
  exists row, db_outbox (pn_DB st) !! id = Some row /\ ob_ID row = id /\
    (ob_Disposition row = DispositionPending /\ ob_PublishedAt row = None \/
     ob_Disposition row = DispositionTerminal /\ id ∈ pn_Refused st).
Proof.
  intros Hdb Hsteps Hid. apply publication_steps_inv in Hsteps as [Hk Hg Hr _].
  - destruct (db_outbox (pn_DB st) !! id) as [row|] eqn:Hl; [|left; eauto].
    specialize (Hr _ _ Hl). specialize (Hk _ _ Hl). destruct (ob_Disposition row) eqn:Hd; eauto 10.
  - split; simpl; rewrite ?Hdb; set_solver.
Qed.
Lemma publication_start_inv db :
  (forall id row, db_outbox db !! id = Some row ->
     ob_ID row = id /\ ob_Disposition row = DispositionPending /\ ob_PublishedAt row = None) ->
  publication_inv (publication_start db).
Proof.
  intros Hrows. split; simpl; [by intros id row [Hl _]%Hrows|set_solver| |set_solver].
  intros id row (_ & -> & Hp)%Hrows. done.
Qed.

Lemma relayEvent_mark hash relay clock publish event db :
  relayEvent hash relay clock publish event db =
    markOutcome hash (rl_Owner relay) (clock (co_ID event)) event (publish (co_Event event)) db.
Proof. unfold relayEvent, markOutcome. by destruct (publish _). Qed.

Lemma relayEvents_steps hash relay clock publish claimed st failures db' :
  relayEvents hash relay clock publish claimed (pn_DB st) = (failures, db') ->
  forall tasks, pn_Tasks st ≡ₚ (Holding (rl_Owner relay) <$> claimed) ++ tasks ->
  exists st', rtc publication_step st st' /\ pn_DB st' = db' /\ pn_Tasks st' ≡ₚ tasks /\
    pn_Committed st' = pn_Committed st /\ pn_Log st ⊆ pn_Log st' /\
    (forall event result, event ∈ claimed -> publish (co_Event event) = Accepted result -> co_ID event ∈ pn_Log st').
Proof.
  revert st failures. induction claimed as [|event claimed IH]; intros st failures Hrun tasks Ht.
  { simpl in Hrun. injection Hrun as _ <-. exists st. split_and!; [reflexivity|done..|set_solver|set_solver]. }
  cbn [relayEvents] in Hrun. rewrite relayEvent_mark in Hrun.
  destruct (markOutcome _ _ _ _ _ _) as [r db1] eqn:Hm.
  destruct (relayEvents _ _ _ _ claimed db1) as [fs db2] eqn:Hrest. injection Hrun as _ <-.
  set (outcome := publish (co_Event event)) in *.
  set (accepted := match outcome with Accepted _ => true | _ => false end).
  set (st1 := {| pn_DB := pn_DB st; pn_Log := if accepted then {[co_ID event]} ∪ pn_Log st else pn_Log st;
    pn_Refused := if isPermanent outcome then {[co_ID event]} ∪ pn_Refused st else pn_Refused st;
    pn_Committed := pn_Committed st;
    pn_Tasks := Answered (rl_Owner relay) event outcome :: (Holding (rl_Owner relay) <$> claimed) ++ tasks |}).
  set (st2 := {| pn_DB := db1; pn_Log := pn_Log st1; pn_Refused := pn_Refused st1; pn_Committed := pn_Committed st1;
    pn_Tasks := (Holding (rl_Owner relay) <$> claimed) ++ tasks |}).
  assert (Hs1 : publication_step st st1).
  { eapply step_publish; [exact Ht|]. unfold accepted. destruct outcome; [by left|by right]. }
  assert (Hs2 : publication_step st1 st2) by exact (step_mark st1 _ _ _ outcome _ _ _ _ (Permutation_refl _) Hm).
  destruct (IH st2 fs Hrest tasks ltac:(reflexivity)) as (st' & Hst' & Hdb' & Ht' & Hc' & Hl' & Ha').
  exists st'. split_and!; [eapply rtc_l, rtc_l; eassumption|done..| |].
  - unfold st2, st1 in Hl'. simpl in Hl'. destruct accepted; set_solver.
  - intros ev result [->|Hin]%elem_of_cons Hres; [|by eapply Ha'].
    apply Hl'. unfold st2, st1, accepted, outcome. simpl. rewrite Hres. set_solver.
Qed.

(** A relay's claims are never refused. *)
Lemma relay_claims owner relay returning held now db :
  NewRelay owner = Ok relay ->
  exists db', ClaimOutbox returning held (rl_Owner relay) now (rl_Lease relay) (rl_BatchSize relay) db =
    (Ok (scanClaimedOutbox (rl_Owner relay) (pgTime (Add (UTC now) (rl_Lease relay))) <$>
         returning (claimableEvents held now (rl_BatchSize relay) db)), db').
Proof.
  unfold NewRelay. intros Hn. apply bind_ok in Hn as ([] & Ho%failIf_ok & Hn). apply Ok_inj in Hn as <-.
  unfold ClaimOutbox. simpl. rewrite Ho. eauto.
Qed.

End Delivery.

(** ** Draining the outbox *)

Lemma dueEvent_pending now row : dueEvent now row = true -> ob_Disposition row = DispositionPending.
Proof. unfold dueEvent. rewrite !andb_true_iff. by intros [[[Hp%bool_decide_eq_true _] _] _]. Qed.

Section Drain.
Context (hash : UUID -> Z -> Z) (returning : list OutboxRow -> list OutboxRow) (owner : string) (relay : Relay)
  (clock : UUID -> Time) (publish : OutboxEvent -> PublishOutcome).
Hypothesis Hrelay : NewRelay owner = Ok relay.
Hypothesis Hreturning : forall rows, returning rows ≡ₚ rows.
Hypothesis Hpublish : forall event, exists result, publish event = Accepted result /\ - 2 ^ 31 <= pb_Partition result < 2 ^ 31.

(** Rows stand under their identifier and their counters have room. *)
Definition outbox_ok (db : DB) : Prop :=
  forall id row, db_outbox db !! id = Some row ->
    ob_ID row = id /\ (ob_Disposition row = DispositionPending -> 0 <= ob_PublicationAttempts row < 2 ^ 31 - 1).

Definition pendingIDs (db : DB) : gset UUID :=
  dom (filter (fun p => ob_Disposition p.2 = DispositionPending) (db_outbox db)).

Definition isPublished (db : DB) (id : UUID) : Prop :=
  exists row, db_outbox db !! id = Some row /\ ob_ID row = id /\ ob_Disposition row = DispositionPublished.

Lemma relayEvents_accept claimed db :
  NoDup (co_ID <$> claimed) ->
  (forall event, event ∈ claimed -> exists row, db_outbox db !! co_ID event = Some row /\ ob_ID row = co_ID event /\
     ob_Disposition row = DispositionPending /\ ob_ClaimedBy row = Some (rl_Owner relay) /\
     0 <= ob_PublicationAttempts row < 2 ^ 31 - 1) ->
  exists db', relayEvents hash relay clock publish claimed db = ([], db') /\
    forall id, (id ∈ co_ID <$> claimed -> isPublished db' id) /\
      (id ∉ co_ID <$> claimed -> db_outbox db' !! id = db_outbox db !! id).
Proof using Hpublish Hrelay Hreturning.
  revert db. induction claimed as [|event claimed IH]; intros db Hnd Hrows.
  { exists db. split; [done|]. intros id. split; [set_solver|done]. }
  cbn [fmap list_fmap] in *. apply NoDup_cons in Hnd as [Hnew Hnd].
  destruct (Hrows event ltac:(left)) as (row & Hl & Hid & Hd & Ho & Ha). destruct (Hpublish (co_Event event)) as (result & Hp & Hpart).
  cbn [relayEvents]. unfold relayEvent at 1. rewrite Hp. unfold MarkPublished.
  assert (Hc := eq_refl (publishedRow (clock (co_ID event)) result row)). unfold publishedRow in Hc at 2.
  rewrite !pgInteger_fits in Hc by lia. simpl in Hc. rewrite (updateClaimed_hit _ _ _ _ _ _ Hl Hd Ho Hc).
  match goal with |- context [relayEvents _ _ _ _ claimed ?d] => set (db1 := d) end.
  destruct (IH db1 Hnd) as (db' & -> & Hall).
  { intros ev Hin. destruct (Hrows ev ltac:(by right)) as (row1 & Hr1). exists row1. unfold db1. simpl.
    rewrite lookup_insert_ne; [done|]. intros Heq. apply Hnew. rewrite Heq. by apply list_elem_of_fmap_2. }
  exists db'. split; [done|]. intros id. destruct (Hall id) as [Hpub Hkeep]. rewrite elem_of_cons. split.
  - intros [->|Hin]; [|by apply Hpub]. destruct (Hall (co_ID event)) as [_ Hsame].
    unfold isPublished. rewrite (Hsame Hnew). unfold db1. simpl. rewrite lookup_insert_eq. eexists. done.
  - intros Hnot. rewrite Hkeep by tauto. unfold db1. simpl. apply lookup_insert_ne. intros Heq. apply Hnot. by left.
Qed.
Definition free (id : UUID) : bool := false.

Definition batch (now : Time) (db : DB) : list UUID := ob_ID <$> claimableEvents free now (rl_BatchSize relay) db.

Lemma batch_size : rl_BatchSize relay = 100 /\ 0 < rl_Lease relay.
Proof using Hrelay.
  unfold NewRelay in Hrelay. apply bind_ok in Hrelay as ([] & _ & Hn). by apply Ok_inj in Hn as <-.
Qed.

Lemma dueEvents_elem now db row :
  outbox_ok db ->
  row ∈ filter (fun row => dueEvent now row = true) (map_to_list (db_outbox db)).*2 <->
  db_outbox db !! ob_ID row = Some row /\ dueEvent now row = true.
Proof.
  intros Hok. rewrite list_elem_of_filter, list_elem_of_fmap. split.
  - intros (Hd & [id row'] & -> & Hin%elem_of_map_to_list). simpl in *. by destruct (Hok _ _ Hin) as [-> _].
  - intros [Hl Hd]. split; [done|]. exists (ob_ID row, row). by rewrite elem_of_map_to_list.
Qed.

Lemma dueEvents_NoDup now db :
  outbox_ok db -> NoDup (ob_ID <$> filter (fun row => dueEvent now row = true) (map_to_list (db_outbox db)).*2).
Proof.
  intros Hok. eapply sublist_NoDup; [|apply fmap_sublist, sublist_filter]. rewrite <-list_fmap_compose.
  replace (_ <$> map_to_list (db_outbox db)) with (map_to_list (db_outbox db)).*1; [apply NoDup_fst_map_to_list|].
  apply list_fmap_ext. intros i [id row] Hi. simpl. symmetry. eapply (Hok id row), elem_of_map_to_list, list_elem_of_lookup_2, Hi.
Qed.

Lemma claimableEvents_free now limit db :
  claimableEvents free now limit db =
    take (Z.to_nat limit) (merge_sort due_first (filter (fun row => dueEvent now row = true) (map_to_list (db_outbox db)).*2)).
Proof. unfold claimableEvents. f_equal. by apply filter_every. Qed.

Lemma batch_elem now db id :
  outbox_ok db -> id ∈ batch now db -> exists row, db_outbox db !! id = Some row /\ dueEvent now row = true.
Proof.
  intros Hok (row & -> & Hin)%list_elem_of_fmap. rewrite claimableEvents_free in Hin.
  apply elem_of_take in Hin as (i & Hin%list_elem_of_lookup_2 & _). rewrite merge_sort_Permutation in Hin.
  apply dueEvents_elem in Hin; [eauto|done].
Qed.

Lemma batch_NoDup now db : outbox_ok db -> NoDup (batch now db).
Proof.
  intros Hok. unfold batch. rewrite claimableEvents_free. eapply sublist_NoDup; [|apply fmap_sublist, sublist_take].
  rewrite merge_sort_Permutation. by apply dueEvents_NoDup.
Qed.

(** A due row outside the batch means the batch is full. *)
Lemma batch_full now db row :
  outbox_ok db -> db_outbox db !! ob_ID row = Some row -> dueEvent now row = true -> ob_ID row ∉ batch now db ->
  length (batch now db) = 100%nat.
Proof using Hrelay.
  intros Hok Hl Hd Hnot. unfold batch in *. rewrite length_fmap, claimableEvents_free in *. destruct batch_size as [Hb _]. rewrite Hb in Hnot |- *.
  rewrite length_take. destruct (decide (100 <= length (merge_sort due_first (filter (fun row => dueEvent now row = true) (map_to_list (db_outbox db)).*2)))%nat) as [|Hlt]; [lia|].
  destruct Hnot. rewrite take_ge by lia. apply list_elem_of_fmap_2. rewrite merge_sort_Permutation. by apply dueEvents_elem.
Qed.
(** A pass publishes its whole batch and touches nothing else. *)
Lemma RunOnce_accepts now db :
  outbox_ok db ->
  exists db', RunOnce hash returning free relay now clock publish db = (Z.of_nat (length (batch now db)), [], db') /\
    forall id, (id ∈ batch now db -> isPublished db' id) /\ (id ∉ batch now db -> db_outbox db' !! id = db_outbox db !! id).
Proof using Hpublish Hrelay Hreturning.
  intros Hok. unfold RunOnce, ClaimOutbox.
  assert (Hguard : (rl_Owner relay == EmptyString) || (rl_Lease relay <=? 0) || (rl_BatchSize relay <=? 0) || (1000 <? rl_BatchSize relay) = false).
  { unfold NewRelay in Hrelay. apply bind_ok in Hrelay as ([] & Ho%failIf_ok & Hn). apply Ok_inj in Hn as <-. simpl. by rewrite Ho. }
  rewrite Hguard. set (rows := claimableEvents free now (rl_BatchSize relay) db).
  set (expiry := pgTime _). match goal with |- context [relayEvents _ _ _ _ ?c ?d] => set (claimed := c); set (db1 := d) end.
  assert (Hids : co_ID <$> claimed ≡ₚ batch now db).
  { unfold claimed. rewrite <-list_fmap_compose. unfold batch. fold rows. by rewrite Hreturning. }
  assert (Hlook : forall id, db_outbox db1 !! id =
    (fun row => if bool_decide (ob_ID row ∈ batch now db) then claimedOutboxRow (rl_Owner relay) expiry row else row) <$> db_outbox db !! id).
  { intros id. unfold db1. simpl. by rewrite lookup_fmap. }
  destruct (relayEvents_accept claimed db1) as (db' & Hrun & Hall).
  - rewrite Hids. by apply batch_NoDup.
  - intros event Hin. assert (Hb : co_ID event ∈ batch now db) by (rewrite <-Hids; by apply list_elem_of_fmap_2).
    destruct (batch_elem now db _ Hok Hb) as (row & Hl & Hd). destruct (Hok _ _ Hl) as [Hid Hn].
    exists (claimedOutboxRow (rl_Owner relay) expiry row). rewrite Hlook, Hl. cbn [fmap option_fmap option_map]. rewrite Hid, bool_decide_eq_true_2 by done.
    apply dueEvent_pending in Hd. split_and!; [done|exact Hid|done..|by apply Hn|by apply Hn].
  - exists db'. rewrite Hrun. split; [by rewrite <-Hids, length_fmap|].
    intros id. destruct (Hall id) as [Hpub Hkeep]. rewrite <-Hids. split; [done|]. intros Hnot. rewrite Hkeep, Hlook by done.
    rewrite Hids in Hnot. destruct (db_outbox db !! id) as [row|] eqn:Hl; [|done]. cbn [fmap option_fmap option_map]. destruct (Hok _ _ Hl) as [-> _].
    by rewrite bool_decide_eq_false_2.
Qed.

Lemma round_keeps_ok now db db' :
  outbox_ok db ->
  (forall id, (id ∈ batch now db -> isPublished db' id) /\ (id ∉ batch now db -> db_outbox db' !! id = db_outbox db !! id)) ->
  outbox_ok db' /\ pendingIDs db' = pendingIDs db ∖ list_to_set (batch now db) /\
  (forall id, isPublished db id -> isPublished db' id).
Proof.
  intros Hok Hall. split_and!.
  - intros id row Hl. destruct (decide (id ∈ batch now db)) as [Hin|Hnot].
    + destruct (proj1 (Hall id) Hin) as (row' & Hl' & Hid & Hd). rewrite Hl in Hl'. injection Hl' as <-. split; [done|congruence].
    + apply Hok. by rewrite <-(proj2 (Hall id) Hnot).
  - apply set_eq. intros id. unfold pendingIDs. rewrite elem_of_difference, elem_of_list_to_set, !elem_of_dom.
    destruct (decide (id ∈ batch now db)) as [Hin|Hnot].
    + split; [|tauto]. intros [row [Hl Hd]%map_lookup_filter_Some]. destruct (proj1 (Hall id) Hin) as (row' & Hl' & _ & Hd').
      simpl in Hd. congruence.
    + pose proof (proj2 (Hall id) Hnot) as Hsame. rewrite !map_lookup_filter, Hsame. tauto.
  - intros id Hp. destruct (decide (id ∈ batch now db)) as [Hin|Hnot]; [by apply Hall|].
    unfold isPublished. by rewrite (proj2 (Hall id) Hnot).
Qed.
Lemma run_keeps_published polls db id :
  outbox_ok db -> isPublished db id ->
  exists db', RunRelay hash returning free relay clock publish polls db = ([], db') /\ isPublished db' id.
Proof using Hpublish Hrelay Hreturning.
  revert db. induction polls as [|now polls IH]; intros db Hok Hp; [by exists db|]. cbn [RunRelay].
  destruct (RunOnce_accepts now db Hok) as (db1 & -> & Hall). destruct (round_keeps_ok now db db1 Hok Hall) as (Hok1 & _ & Hkeep).
  exact (IH db1 Hok1 (Hkeep _ Hp)).
Qed.

Lemma dueEvent_later t u row : t <= u -> dueEvent t row = true -> dueEvent u row = true.
Proof.
  intros Htu. assert (pgTime t <= pgTime u) by (by apply pgTime_mono). unfold dueEvent. rewrite !andb_true_iff, !orb_true_iff.
  intros [[[? ?] Hn] Hc]. split_and!; [done..|lia|]. destruct Hc as [Hc|Hc]; [by left|right]. destruct (ob_ClaimExpiresAt row); [lia|done].
Qed.

(** The relay drains the outbox. While the broker accepts, an event that is due
    at some instant (never claimed, or its claim has expired, and its retry delay is
    over) is published by a relay polling at any later instants, at the latest when
    it has made one pass per hundred pending events, and the relay does not stop
    with an error. *)
Theorem relay_drains polls start row db :
  outbox_ok db -> db_outbox db !! ob_ID row = Some row -> dueEvent start row = true ->
  (forall t, t ∈ polls -> start <= t) -> (size (pendingIDs db) <= 100 * length polls)%nat ->
  exists db', RunRelay hash returning free relay clock publish polls db = ([], db') /\ isPublished db' (ob_ID row).
Proof using Hpublish Hrelay Hreturning.
  intros Hok Hl Hd Hlater. revert db Hok Hl.
  induction polls as [|now polls IH]; intros db Hok Hl Hsize.
  { exfalso. assert (Hin : ob_ID row ∈ pendingIDs db).
    - apply elem_of_dom. exists row. apply map_lookup_filter_Some. split; [done|]. by eapply dueEvent_pending.
    - simpl in Hsize. assert (size (pendingIDs db) = 0%nat) as H0%size_empty_iff by lia. set_solver. }
  cbn [RunRelay]. destruct (RunOnce_accepts now db Hok) as (db1 & -> & Hall).
  destruct (round_keeps_ok now db db1 Hok Hall) as (Hok1 & Hpend & _).
  destruct (decide (ob_ID row ∈ batch now db)) as [Hin|Hnot]; [by apply run_keeps_published, Hall|].
  apply IH; [by intros t Ht; apply Hlater; right|done|by rewrite (proj2 (Hall _) Hnot)|].
  rewrite Hpend, size_difference, size_list_to_set, (batch_full now db row); simpl in *; try done.
  - lia.
  - apply (dueEvent_later start); [|done]. apply Hlater. left.
  - by apply batch_NoDup.
  - intros id Hin%elem_of_list_to_set. destruct (batch_elem now db id Hok Hin) as (r & Hr & Hrd). apply elem_of_dom. exists r.
    apply map_lookup_filter_Some. split; [done|]. by eapply dueEvent_pending.
Qed.
End Drain.

(** ** Witnesses *)

(** One pending event, claimed as given. *)
Definition example_outbox (claim : option (string * Time)) : DB :=
  match example_event with
  | Ok event => example_db <| db_outbox := {[env_EventID (oe_Envelope event) :=
      (pendingRow event) <| ob_ClaimedBy := fst <$> claim |> <| ob_ClaimExpiresAt := snd <$> claim |>]} |>
  | Err _ => emptyDB
  end.

Definition example_claim : option (string * Time) := Some ("relay-1", exampleNow + Hour).

Definition example_hash (id : UUID) (attempts : Z) : Z := id + attempts.

Definition example_publish (event : OutboxEvent) : PublishOutcome := Accepted {| pb_Partition := 0; pb_Offset := 7 |}.

Definition example_relay : Relay :=
  {| rl_Owner := "relay-1"; rl_Lease := 30 * Second; rl_PublishTimeout := 10 * Second; rl_BatchSize := 100; rl_PollInterval := Second |}.

Lemma MarkFailed_reschedules_witness :
  exists row row', db_outbox (example_outbox example_claim) !! exampleV7 99 = Some row /\
    db_outbox (MarkFailed example_hash (exampleV7 99) "relay-1" exampleNow "TRANSIENT" "broker down" false
      (example_outbox example_claim)).2 !! exampleV7 99 = Some row' /\
    dueEvent (exampleNow + 500 * Millisecond) row' = false /\ dueEvent (exampleNow + 12 * Minute) row' = true.
Proof.
  destruct (db_outbox (example_outbox example_claim) !! exampleV7 99) as [row|] eqn:Hr; [|vm_compute in Hr; discriminate].
  exists row. pose proof (MarkFailed_reschedules example_hash (exampleV7 99) "relay-1" exampleNow "TRANSIENT" "broker down" false
    (example_outbox example_claim) row Hr) as Hm.
  assert (Hrow : ob_Disposition row = DispositionPending /\ ob_PublishedAt row = None /\ ob_PublicationAttempts row = 0 /\
    ob_ClaimedBy row = Some "relay-1") by (vm_compute in Hr; injection Hr as <-; vm_compute; split_and!; reflexivity).
  destruct Hrow as (Hd & Hp & Ha & Ho). specialize (Hm Hd Hp). rewrite Ha in Hm. specialize (Hm ltac:(lia)).
  destruct (MarkFailed _ _ _ _ _ _ _ _) as [r db']. destruct Hm as [_ Hm]. destruct (Hm Ho) as (_ & row' & -> & _ & _ & _ & Ht).
  exists row'. split; [reflexivity|]. split; [apply lookup_insert_eq|]. 
  split; [apply (proj1 (Ht eq_refl _))|apply (proj1 (proj2 (Ht eq_refl _)))]; vm_compute; congruence.
Defined.

Lemma outbox_at_least_once_witness :
  exists event st, example_event = Ok event /\
    rtc (@publication_step rfcUUIDs) (publication_start example_db) st /\ exampleV7 99 ∈ pn_Committed st /\
    (exampleV7 99 ∈ pn_Log st \/
     exists row, db_outbox (pn_DB st) !! exampleV7 99 = Some row /\ ob_ID row = exampleV7 99 /\
       (ob_Disposition row = DispositionPending /\ ob_PublishedAt row = None \/
        ob_Disposition row = DispositionTerminal /\ exampleV7 99 ∈ pn_Refused st)).
Proof.
  destruct example_event as [event|] eqn:E; [|vm_compute in E; discriminate].
  assert (Hid : env_EventID (oe_Envelope event) = exampleV7 99) by (vm_compute in E; injection E as <-; reflexivity).
  destruct (@insertOutboxEvent rfcUUIDs event example_db) as [[[] db']|] eqn:Hi;
    [|vm_compute in E; apply Ok_inj in E; subst event; vm_compute in Hi; discriminate].
  eexists event, _. split; [reflexivity|].
  assert (Hs : rtc (@publication_step rfcUUIDs) (publication_start example_db)
    {| pn_DB := db'; pn_Log := ∅; pn_Refused := ∅; pn_Committed := {[env_EventID (oe_Envelope event)]} ∪ ∅; pn_Tasks := [] |}).
  { apply rtc_once. apply (@step_commit rfcUUIDs (publication_start example_db) event db' Hi). apply not_elem_of_empty. }
  assert (Hc : exampleV7 99 ∈ ({[env_EventID (oe_Envelope event)]} ∪ ∅ : gset UUID)) by (rewrite Hid; set_solver).
  split; [exact Hs|]. split; [exact Hc|].
  exact (@outbox_at_least_once rfcUUIDs example_db _ (exampleV7 99) eq_refl Hs Hc).
Defined.

Lemma example_outbox_rows claim id row :
  db_outbox (example_outbox claim) !! id = Some row -> ob_ID row = id /\ id = exampleV7 99 /\
  ob_Disposition row = DispositionPending /\ ob_PublishedAt row = None /\ ob_PublicationAttempts row = 0.
Proof.
  unfold example_outbox. destruct example_event as [event|] eqn:E; simpl; [|by rewrite lookup_empty].
  intros [<- <-]%lookup_singleton_Some. split; [reflexivity|]. split; [|split; [reflexivity|split; reflexivity]].
  vm_compute in E. injection E as <-. reflexivity.
Qed.


Lemma relay_drains_witness :
  exists row, db_outbox (example_outbox None) !! ob_ID row = Some row /\
    exists db', RunRelay example_hash (fun rows => rows) free example_relay (fun _ => exampleNow) example_publish
      [exampleNow; exampleNow + Second] (example_outbox None) = ([], db') /\ isPublished db' (ob_ID row).
Proof.
  destruct (db_outbox (example_outbox None) !! exampleV7 99) as [row|] eqn:Hr; [|vm_compute in Hr; discriminate].
  destruct (example_outbox_rows None _ _ Hr) as [Hid _].
  exists row. rewrite Hid. split; [exact Hr|]. rewrite <-Hid.
  refine (relay_drains example_hash (fun rows => rows) "relay-1" example_relay (fun _ => exampleNow) example_publish eq_refl
    (fun rows => Permutation_refl rows) _ [exampleNow; exampleNow + Second] exampleNow row (example_outbox None) _ _ _ _ _).
  - intros event. eexists. split; [reflexivity|]. simpl. lia.
  - intros id r Hl. destruct (example_outbox_rows None _ _ Hl) as (Hi & _ & _ & _ & Ha). rewrite Ha. split; [exact Hi|lia].
  - rewrite Hid. exact Hr.
  - vm_compute in Hr. injection Hr as <-. vm_compute. reflexivity.
  - intros t Ht. apply elem_of_cons in Ht as [->|Ht]; [lia|]. apply list_elem_of_singleton in Ht as ->. unfold Second. lia.
  - vm_compute. lia.
Defined.
