(* ===== verification/Rfc3339.v ===== *)
(** * RFC 3339 timestamps

    [time.Time.Format(time.RFC3339Nano)] of an instant in UTC, and [time.Parse] with
    the same layout: the text form in which the router hands the instant of the
    next delivery from one consumer to another. *)

From S2P Require Import Prelude.
From Stdlib Require Import Ascii.

(** ** Dates *)

Definition isLeap (year : Z) : bool := (year mod 4 =? 0) && (negb (year mod 100 =? 0) || (year mod 400 =? 0)).

(** Days from January 1 of year 1 to January 1 of [year]. *)
Definition daysBefore (year : Z) : Z := 365 * (year - 1) + (year - 1) / 4 - (year - 1) / 100 + (year - 1) / 400.

Definition monthLengths (year : Z) : list Z :=
  [31; if isLeap year then 29 else 28; 31; 30; 31; 30; 31; 31; 30; 31; 30; 31].

(** The year a day falls in: an estimate from the length of 400 years, corrected. *)
Definition yearOf (day : Z) : Z :=
  let year := day * 400 / 146097 + 1 in
  if day <? daysBefore year then year - 1 else if daysBefore (year + 1) <=? day then year + 1 else year.

(** The month, counted from 1 for the head of [lengths], and the day in it from 1. *)
Fixpoint monthDay (lengths : list Z) (day : Z) : Z * Z :=
  match lengths with
  | [] => (1, day + 1)
  | n :: rest => if day <? n then (1, day + 1) else let '(m, d) := monthDay rest (day - n) in (m + 1, d)
  end.

(** ** Formatting *)

Fixpoint decimals (k : nat) (v : Z) : list Z :=
  match k with
  | O => []
  | S k => decimals k (v / 10) ++ [v mod 10]
  end.

Definition digitByte (n : Z) : Ascii.ascii := Ascii.ascii_of_N (Z.to_N (48 + n)).

Definition pad (k : nat) (v : Z) : list Ascii.ascii := digitByte <$> decimals k v.

Fixpoint trimZeros (l : list Z) : list Z :=
  match l with
  | [] => []
  | n :: rest => match trimZeros rest with [] => if n =? 0 then [] else [n] | rest => n :: rest end
  end.

Definition fraction (nanos : Z) : list Ascii.ascii :=
  match trimZeros (decimals 9 nanos) with
  | [] => []
  | digits => "."%char :: (digitByte <$> digits)
  end.

Definition FormatRFC3339Nano (t : Time) : string :=
  let day := t / (24 * Hour) in
  let rest := t mod (24 * Hour) in
  let year := yearOf day in
  let '(month, dayOfMonth) := monthDay (monthLengths year) (day - daysBefore year) in
  String.string_of_list_ascii
    (pad 4 year ++ "-"%char :: pad 2 month ++ "-"%char :: pad 2 dayOfMonth ++ "T"%char ::
     pad 2 (rest / Hour) ++ ":"%char :: pad 2 (rest mod Hour / Minute) ++ ":"%char :: pad 2 (rest mod Minute / Second) ++
     fraction (rest mod Second) ++ ["Z"%char]).

(** ** Parsing *)

Definition digitValue (c : Ascii.ascii) : Z := Z.of_N (Ascii.N_of_ascii c) - 48.

Fixpoint number (k : nat) (acc : Z) (l : list Ascii.ascii) : option (Z * list Ascii.ascii) :=
  match k with
  | O => Some (acc, l)
  | S k =>
      match l with
      | c :: rest => if digit c then number k (10 * acc + digitValue c) rest else None
      | [] => None
      end
  end.

(** Hours may have one digit. *)
Definition hourNumber (l : list Ascii.ascii) : option (Z * list Ascii.ascii) :=
  match number 2 0 l with Some read => Some read | None => number 1 0 l end.

Definition expect (c : Ascii.ascii) (l : list Ascii.ascii) : option (list Ascii.ascii) :=
  match l with
  | c' :: rest => if bool_decide (c = c') then Some rest else None
  | [] => None
  end.

(** The fraction: at least one digit, of which nine count. *)
Fixpoint fractionDigits (scale acc : Z) (l : list Ascii.ascii) : Z * list Ascii.ascii :=
  match l with
  | c :: rest => if digit c then fractionDigits (scale / 10) (acc + digitValue c * scale) rest else (acc, l)
  | [] => (acc, l)
  end.

Definition readFraction (l : list Ascii.ascii) : option (Z * list Ascii.ascii) :=
  match l with
  | c :: d :: rest =>
      if bool_decide (c = "."%char) || bool_decide (c = ","%char) then
        if digit d then Some (fractionDigits 100000000 0 (d :: rest)) else None
      else Some (0, l)
  | _ => Some (0, l)
  end.

(** [Z], or the offset of the zone in seconds. *)
Definition readZone (l : list Ascii.ascii) : option Z :=
  match l with
  | [c] => if bool_decide (c = "Z"%char) then Some 0 else None
  | c :: rest =>
      sign ← (if bool_decide (c = "+"%char) then Some 1 else if bool_decide (c = "-"%char) then Some (-1) else None);
      '(hours, rest) ← number 2 0 rest;
      rest ← expect ":"%char rest;
      '(minutes, rest) ← number 2 0 rest;
      if bool_decide (rest = []) && (hours <=? 24) && (minutes <=? 60) then Some (sign * (hours * 3600 + minutes * 60)) else None
  | [] => None
  end.

Definition ParseRFC3339Nano (value : string) : option Time :=
  '(year, l) ← number 4 0 (bytes value);
  l ← expect "-"%char l;
  '(month, l) ← number 2 0 l;
  l ← expect "-"%char l;
  '(day, l) ← number 2 0 l;
  l ← expect "T"%char l;
  '(hours, l) ← hourNumber l;
  l ← expect ":"%char l;
  '(minutes, l) ← number 2 0 l;
  l ← expect ":"%char l;
  '(seconds, l) ← number 2 0 l;
  '(nanos, l) ← readFraction l;
  offset ← readZone l;
  length ← monthLengths year !! Z.to_nat (month - 1);
  if (1 <=? month) && (1 <=? day) && (day <=? length) && (hours <? 24) && (minutes <? 60) && (seconds <? 60) then
    Some ((daysBefore year + foldr Z.add 0 (take (Z.to_nat (month - 1)) (monthLengths year)) + day - 1) * (24 * Hour)
          + hours * Hour + minutes * Minute + (seconds - offset) * Second + nanos)
  else None.

(** ** Round trip *)

Lemma digitByte_spec n : 0 <= n < 10 -> digit (digitByte n) = true /\ digitValue (digitByte n) = n.
Proof.
  intros Hn. assert (Hin : n ∈ seqZ 0 10) by (apply elem_of_seqZ; lia).
  assert (Hall : forallb (fun n => digit (digitByte n) && (digitValue (digitByte n) =? n)) (seqZ 0 10) = true)
    by (vm_compute; reflexivity).
  rewrite forallb_forall in Hall. apply list_elem_of_In, Hall, andb_true_iff in Hin as [Hd Hv]. split; [done|lia].
Qed.

Lemma number_digits ds acc rest :
  Forall (fun n => 0 <= n < 10) ds ->
  number (length ds) acc ((digitByte <$> ds) ++ rest) = Some (foldl (fun v n => 10 * v + n) acc ds, rest).
Proof.
  intros Hds. revert acc. induction Hds as [|n ds Hn _ IH]; intros acc; [done|].
  destruct (digitByte_spec n Hn) as [Hd Hv]. simpl. by rewrite Hd, Hv, IH.
Qed.

Lemma decimals_range k v : Forall (fun n => 0 <= n < 10) (decimals k v).
Proof.
  revert v. induction k as [|k IH]; intros v; simpl; [constructor|].
  apply Forall_app. split; [apply IH|]. constructor; [|constructor]. apply Z.mod_pos_bound. lia.
Qed.

Lemma length_decimals k v : length (decimals k v) = k.
Proof. revert v. induction k as [|k IH]; intros v; simpl; [done|]. rewrite length_app, IH. simpl. lia. Qed.

Lemma decimals_value (k : nat) v : 0 <= v < 10 ^ Z.of_nat k -> foldl (fun v n => 10 * v + n) 0 (decimals k v) = v.
Proof.
  revert v. induction k as [|k IH]; intros v Hv; [simpl in *; lia|].
  replace (10 ^ Z.of_nat (S k)) with (10 * 10 ^ Z.of_nat k) in * by (rewrite Nat2Z.inj_succ, Z.pow_succ_r; lia).
  cbn [decimals]. rewrite foldl_app, IH; [|split; [apply Z.div_pos|apply Z.div_lt_upper_bound]; lia].
  cbn [foldl]. rewrite (Z.div_mod v 10) at 3 by lia. done.
Qed.

Lemma number_pad (k : nat) v rest : 0 <= v < 10 ^ Z.of_nat k -> number k 0 (pad k v ++ rest) = Some (v, rest).
Proof.
  intros Hv. unfold pad. rewrite <-(length_decimals k v) at 1. rewrite number_digits by apply decimals_range.
  by rewrite decimals_value.
Qed.

Lemma expect_hit c l : expect c (c :: l) = Some l.
Proof. unfold expect. by rewrite bool_decide_eq_true_2. Qed.

(** The value of fraction digits from a given scale on. *)
Fixpoint scaled (scale : Z) (ds : list Z) : Z :=
  match ds with [] => 0 | n :: ds => n * scale + scaled (scale / 10) ds end.

Lemma fractionDigits_digits ds scale acc c rest :
  Forall (fun n => 0 <= n < 10) ds -> digit c = false ->
  fractionDigits scale acc ((digitByte <$> ds) ++ c :: rest) = (acc + scaled scale ds, c :: rest).
Proof.
  intros Hds Hc. revert scale acc. induction Hds as [|n ds Hn _ IH]; intros scale acc; simpl.
  { rewrite Hc. f_equal. lia. }
  destruct (digitByte_spec n Hn) as [Hd Hv]. rewrite Hd, Hv, IH. f_equal. lia.
Qed.

Lemma trimZeros_scaled scale ds : scaled scale (trimZeros ds) = scaled scale ds.
Proof.
  revert scale. induction ds as [|n ds IH]; intros scale; [done|]. simpl. rewrite <-IH.
  destruct (trimZeros ds) as [|m l]; [|done]. destruct (Z.eqb_spec n 0) as [->|]; simpl; lia.
Qed.

Lemma trimZeros_range ds : Forall (fun n => 0 <= n < 10) ds -> Forall (fun n => 0 <= n < 10) (trimZeros ds).
Proof.
  induction 1 as [|n ds Hn Hds IH]; simpl; [constructor|].
  destruct (trimZeros ds); [destruct (n =? 0); auto|by constructor].
Qed.

Lemma scaled_decimals nanos : 0 <= nanos < 1000000000 -> scaled 100000000 (decimals 9 nanos) = nanos.
Proof.
  intros Hn. rewrite <-(decimals_value 9 nanos) at 2 by lia. pose proof (length_decimals 9 nanos) as Hl.
  destruct (decimals 9 nanos) as [|a [|b [|c [|d [|e [|f [|g [|h [|i [|]]]]]]]]]]; try done. 
  cbn [scaled foldl]. repeat match goal with |- context [?x / 10] => let v := eval vm_compute in (x / 10) in change (x / 10) with v end. lia.
Qed.

Lemma readFraction_fraction nanos rest :
  0 <= nanos < 1000000000 -> readFraction (fraction nanos ++ "Z"%char :: rest) = Some (nanos, "Z"%char :: rest).
Proof.
  intros Hn. unfold fraction. pose proof (scaled_decimals nanos Hn) as Hv. rewrite <-trimZeros_scaled in Hv.
  pose proof (trimZeros_range _ (decimals_range 9 nanos)) as Hr.
  destruct (trimZeros (decimals 9 nanos)) as [|n ds]; [simpl in Hv; subst; by destruct rest|].
  cbn [app fmap list_fmap readFraction]. rewrite bool_decide_eq_true_2 by done. cbn [orb].
  apply Forall_cons in Hr as [Hn' Hr']. destruct (digitByte_spec n Hn') as [Hd _]. rewrite Hd.
  change (digitByte n :: ?l ++ ?r) with ((digitByte <$> (n :: ds)) ++ "Z"%char :: rest).
  rewrite fractionDigits_digits; [|by constructor|done]. by rewrite Hv.
Qed.

Lemma daysBefore_bounds year : 146097 * (year - 1) - 699 <= 400 * daysBefore year <= 146097 * (year - 1) + 396.
Proof.
  unfold daysBefore. set (n := year - 1). pose proof (Z.div_mod n 4). pose proof (Z.mod_pos_bound n 4).
  pose proof (Z.div_mod n 100). pose proof (Z.mod_pos_bound n 100). pose proof (Z.div_mod n 400). pose proof (Z.mod_pos_bound n 400). lia.
Qed.

Lemma yearOf_spec day : 0 <= day -> daysBefore (yearOf day) <= day < daysBefore (yearOf day + 1) /\ 1 <= yearOf day.
Proof.
  intros Hd. unfold yearOf. set (y := day * 400 / 146097 + 1).
  assert (Hy : 146097 * (y - 1) <= day * 400 < 146097 * y).
  { unfold y. pose proof (Z.div_mod (day * 400) 146097). pose proof (Z.mod_pos_bound (day * 400) 146097). lia. }
  clearbody y. pose proof (daysBefore_bounds y). pose proof (daysBefore_bounds (y - 1)). pose proof (daysBefore_bounds (y + 1)).
  pose proof (daysBefore_bounds (y + 1 + 1)). assert (y = 1 -> daysBefore y = 0) by (by intros ->).
  destruct (Z.ltb_spec day (daysBefore y)); [replace (y - 1 + 1) with y by lia; lia|].
  destruct (Z.leb_spec (daysBefore (y + 1)) day); lia.
Qed.

Lemma div_step k n : 0 < k -> n / k = (n - 1) / k + (if n mod k =? 0 then 1 else 0).
Proof.
  intros Hk. pose proof (Z.div_mod n k ltac:(lia)) as Hn. pose proof (Z.mod_pos_bound n k Hk). destruct (Z.eqb_spec (n mod k) 0) as [H0|H0].
  - rewrite <-(Z.div_unique (n - 1) k (n / k - 1) (k - 1)); lia.
  - rewrite <-(Z.div_unique (n - 1) k (n / k) (n mod k - 1)); lia.
Qed.

Lemma yearLength year :
  foldr Z.add 0 (monthLengths year) = daysBefore (year + 1) - daysBefore year.
Proof.
  unfold daysBefore. replace (year + 1 - 1) with year by lia. rewrite (div_step 4), (div_step 100), (div_step 400) by lia.
  unfold monthLengths, isLeap.
  assert (year mod 400 = 0 -> year mod 100 = 0) by (rewrite !Z.mod_divide by lia; apply Z.divide_trans; by exists 4).
  assert (year mod 100 = 0 -> year mod 4 = 0) by (rewrite !Z.mod_divide by lia; apply Z.divide_trans; by exists 25).
  destruct (Z.eqb_spec (year mod 4) 0), (Z.eqb_spec (year mod 100) 0), (Z.eqb_spec (year mod 400) 0); cbn [andb orb negb foldr]; lia.
Qed.

Lemma monthDay_spec lengths day :
  Forall (fun n => 0 < n) lengths -> 0 <= day < foldr Z.add 0 lengths ->
  let '(m, d) := monthDay lengths day in
  1 <= m <= Z.of_nat (length lengths) /\ foldr Z.add 0 (take (Z.to_nat (m - 1)) lengths) + d - 1 = day /\
  exists n, lengths !! Z.to_nat (m - 1) = Some n /\ 1 <= d <= n.
Proof.
  intros Hpos. revert day. induction Hpos as [|n lengths Hn _ IH]; intros day Hd; [simpl in Hd; lia|].
  cbn [monthDay]. destruct (Z.ltb_spec day n) as [Hlt|Hge].
  - simpl. split; [lia|]. split; [lia|]. exists n. split; [done|lia].
  - simpl in Hd. specialize (IH (day - n) ltac:(lia)). destruct (monthDay lengths (day - n)) as [m d].
    destruct IH as (Hm & Hsum & k & Hk & Hdk). replace (Z.to_nat (m + 1 - 1)) with (S (Z.to_nat (m - 1))) by lia.
    cbn [take foldr length lookup list_lookup]. split; [lia|]. split; [lia|]. by exists k.
Qed.

Lemma monthLengths_bounds year : Forall (fun n => 0 < n <= 31) (monthLengths year).
Proof. unfold monthLengths. destruct (isLeap year); repeat constructor; lia. Qed.

Lemma clock_split rest :
  0 <= rest < 24 * Hour ->
  let h := rest / Hour in let mi := rest mod Hour / Minute in let s := rest mod Minute / Second in let n := rest mod Second in
  0 <= h < 24 /\ 0 <= mi < 60 /\ 0 <= s < 60 /\ 0 <= n < 1000000000 /\ rest = h * Hour + mi * Minute + s * Second + n.
Proof.
  intros Hr. unfold Hour, Minute, Second in *. cbv zeta.
  pose proof (Z.div_mod rest 3600000000000). pose proof (Z.mod_pos_bound rest 3600000000000).
  pose proof (Z.div_mod rest 60000000000). pose proof (Z.mod_pos_bound rest 60000000000).
  pose proof (Z.div_mod rest 1000000000). pose proof (Z.mod_pos_bound rest 1000000000).
  change (60 * (60 * 1000000000)) with 3600000000000 in *. change (60 * 1000000000) with 60000000000 in *.
  assert (Hm : (rest mod 3600000000000) / 60000000000 = rest / 60000000000 - 60 * (rest / 3600000000000))
    by (symmetry; apply (Z.div_unique _ _ _ (rest mod 60000000000)); lia).
  assert (Hs : (rest mod 60000000000) / 1000000000 = rest / 1000000000 - 60 * (rest / 60000000000))
    by (symmetry; apply (Z.div_unique _ _ _ (rest mod 1000000000)); lia).
  rewrite Hm, Hs. lia.
Qed.

(** The last day of year 9999. *)
Definition lastDay : Z := 3652058.

Lemma yearOf_bound day : 0 <= day <= lastDay -> 1 <= yearOf day <= 9999.
Proof.
  intros Hd. destruct (yearOf_spec day ltac:(lia)) as [Hy H1]. split; [done|]. pose proof (daysBefore_bounds (yearOf day)). unfold lastDay in *. lia.
Qed.

(** Parsing recovers every formatted instant of years 1 to 9999, to the nanosecond. *)
Lemma rfc3339_roundtrip t : 0 <= t < (lastDay + 1) * (24 * Hour) -> ParseRFC3339Nano (FormatRFC3339Nano t) = Some t.
Proof.
  intros Ht. unfold FormatRFC3339Nano. set (day := t / (24 * Hour)). set (rest := t mod (24 * Hour)).
  assert (Hday : 0 <= day <= lastDay).
  { unfold day. split; [apply Z.div_pos; unfold Hour, Minute, Second; lia|].
    apply Z.lt_succ_r, Z.div_lt_upper_bound; unfold Hour, Minute, Second, lastDay in *; lia. }
  assert (Hrest : 0 <= rest < 24 * Hour) by (apply Z.mod_pos_bound; unfold Hour, Minute, Second; lia).
  assert (Hsplit : t = day * (24 * Hour) + rest) by (unfold day, rest; rewrite Z.mul_comm; apply Z.div_mod; unfold Hour, Minute, Second; lia).
  clearbody day rest. pose proof (yearOf_bound day Hday) as Hyear. destruct (yearOf_spec day ltac:(lia)) as [Hy _].
  pose proof (monthDay_spec (monthLengths (yearOf day)) (day - daysBefore (yearOf day))) as Hmd.
  destruct (monthDay _ _) as [m d]. destruct Hmd as (Hm & Hsum & n & Hn & Hd).
  { eapply Forall_impl; [apply monthLengths_bounds|]. simpl. lia. }
  { rewrite yearLength. lia. }
  assert (Hn31 : n <= 31) by (pose proof (monthLengths_bounds (yearOf day)) as Hb; rewrite Forall_lookup in Hb; apply Hb in Hn; lia).
  change (length (monthLengths (yearOf day))) with 12%nat in Hm.
  destruct (clock_split rest Hrest) as (Hh & Hmi & Hs & Hna & Hsum').
  unfold ParseRFC3339Nano, hourNumber. rewrite bytes_of_list. 
  repeat first [rewrite number_pad by (simpl; lia) | rewrite expect_hit | progress cbn [mbind option_bind]].
  rewrite readFraction_fraction by done. cbn [mbind option_bind readZone]. rewrite bool_decide_eq_true_2 by done.
  cbn [mbind option_bind]. rewrite Hn. cbn [mbind option_bind].
  replace (_ && _) with true by lia. f_equal. lia.
Qed.

Lemma length_trimZeros l : (length (trimZeros l) <= length l)%nat.
Proof. induction l as [|n l IH]; simpl; [lia|]. destruct (trimZeros l); [destruct (n =? 0)|]; simpl in *; lia. Qed.

Lemma length_FormatRFC3339Nano t : len (FormatRFC3339Nano t) <= 30.
Proof.
  unfold FormatRFC3339Nano. destruct (monthDay _ _) as [m d]. unfold len. rewrite <-length_bytes, bytes_of_list.
  assert (Hp : forall k v, length (pad k v) = k) by (intros k v; unfold pad; by rewrite length_fmap, length_decimals).
  assert (Hf : forall v, (length (fraction v) <= 10)%nat).
  { intros v. unfold fraction. pose proof (length_trimZeros (decimals 9 v)) as Hl. rewrite length_decimals in Hl.
    destruct (trimZeros _); simpl in *; rewrite ?length_fmap; lia. }
  specialize (Hf (t mod (24 * Hour) mod Second)). repeat (rewrite length_app || rewrite Hp || cbn [length]). lia.
Qed.
