(* ===== verification/Delivery.v ===== *)
(** * Delivery of events (internal/adapters/kafka, internal/application/consumer/router.go,
      internal/adapters/postgres/processed_events.go)

    The producer that turns outbox events into broker records, the consumer that
    turns records back into validated events, the router that sends failed events
    to the retry topics or the dead-letter topic, and the transaction that applies
    the effect of an event once. The broker client is the argument of the
    definitions that use it; JSON bytes travel with the envelope they decode to. *)

From S2P Require Import Prelude AgentRun Policy Cluster Events Store Outbox Rfc3339.

(** Message bytes and what they decode to. *)
Record Wire := {
  wi_Bytes : string;
  wi_Decoded : option Envelope;
}.

(** [OutboxEvent] with its serialized value and additional headers. *)
Record PublishRequest := {
  pr_Event : OutboxEvent;
  pr_Serialized : Wire;
  pr_Headers : list Header;
}.

(** The part of [kgo.Record] the producer fills in. *)
Record KafkaRecord := {
  kr_Topic : string;
  kr_Key : string;
  kr_Value : Wire;
  kr_Timestamp : Time;
  kr_Headers : list Header;
}.

Record ReceivedEvent := {
  re_Envelope : Envelope;
  re_Topic : string;
  re_Partition : Z;
  re_LeaderEpoch : Z;
  re_Offset : Z;
  re_Key : string;
  re_Headers : list Header;
  re_Value : Wire;
}.

(** The zero [Envelope]; a nil payload is no JSON object. *)
Definition zeroEnvelope : Envelope :=
  {| env_EventID := uuidNil; env_EventType := EmptyString; env_SchemaVersion := 0; env_OccurredAt := 0;
     env_OccurredZoneOffset := 0; env_Producer := EmptyString; env_TenantID := uuidNil; env_ProjectID := None;
     env_RunID := None; env_AggregateType := EmptyString; env_AggregateID := uuidNil; env_AggregateVersion := 0;
     env_RequestID := EmptyString; env_Traceparent := EmptyString; env_Tracestate := EmptyString;
     env_CorrelationID := EmptyString; env_CausationID := EmptyString; env_Payload := PayloadNotObject |}.

Section Kafka.
Context `{UUIDs} `{NetURL} `{SHA256}.

(** ** errors.go *)

Record PublicationError := {
  pe_Permanent : bool;
  pe_Reason : string;
}.

(** What the client library's predicates say of a transport error. *)
Record TransportError := {
  te_ContextDone : bool;
  te_Rejected : bool;
  te_Network : bool;
  te_Retriable : bool;
}.

Definition classifyPublicationError (err : TransportError) : PublicationError :=
  if te_ContextDone err then {| pe_Permanent := false; pe_Reason := "Kafka publication timed out" |}
  else if te_Rejected err then {| pe_Permanent := true; pe_Reason := "Kafka rejected the event" |}
  else if te_Network err then {| pe_Permanent := false; pe_Reason := "Kafka is temporarily unavailable" |}
  else if te_Retriable err then {| pe_Permanent := false; pe_Reason := "Kafka is temporarily unavailable" |}
  else {| pe_Permanent := true; pe_Reason := "Kafka publication failed permanently" |}.

(** ** producer.go *)

Definition permanent (reason : string) : PublicationError := {| pe_Permanent := true; pe_Reason := reason |}.

(** The checks of [Publish] and the record it produces. *)
Definition prepareRecord (maxMessageBytes : Z) (request : PublishRequest) : PublicationError + KafkaRecord :=
  let event := pr_Event request in
  let size := len (wi_Bytes (pr_Serialized request)) in
  if (size =? 0) || (maxMessageBytes <? size) then inl (permanent "event message size is invalid")
  else
    match DecodeEnvelope (wi_Decoded (pr_Serialized request)) with
    | Err _ => inl (permanent "event contract is invalid")
    | Ok decoded =>
        match ExpectedPartitionKey decoded with
        | Err _ => inl (permanent "event contract is invalid")
        | Ok expectedKey =>
            if (env_EventID decoded != env_EventID (oe_Envelope event))
               || negb (TopicAccepts (env_EventType decoded) (oe_Topic event)) || (oe_PartitionKey event != expectedKey)
            then inl (permanent "event contract is invalid")
            else
              let headers := HeadersForEnvelope decoded ++ pr_Headers request in
              match ValidateHeaders decoded headers with
              | Err _ => inl (permanent "event headers are invalid")
              | Ok _ => inr {| kr_Topic := oe_Topic event; kr_Key := oe_PartitionKey event; kr_Value := pr_Serialized request;
                               kr_Timestamp := env_OccurredAt decoded; kr_Headers := headers |}
              end
        end
    end.

(** [Publish]; [produce] is the client's synchronous answer to a record. *)
Definition PublishKafka (maxMessageBytes : Z) (produce : KafkaRecord -> TransportError + PublicationResult)
    (request : PublishRequest) : PublicationError + PublicationResult :=
  match prepareRecord maxMessageBytes request with
  | inl err => inl err
  | inr record =>
      match produce record with
      | inl err => inl (classifyPublicationError err)
      | inr result => inr result
      end
  end.

(** ** consumer.go *)

Inductive DecodeOutcome :=
| Received (event : ReceivedEvent)
| InvalidEvent (record : ReceivedEvent).

Definition receivedFrom (record : KafkaRecord) (partition epoch offset : Z) (envelope : Envelope) : ReceivedEvent :=
  {| re_Envelope := envelope; re_Topic := kr_Topic record; re_Partition := partition; re_LeaderEpoch := epoch;
     re_Offset := offset; re_Key := kr_Key record; re_Headers := kr_Headers record; re_Value := kr_Value record |}.

Definition decodeRecord (maxMessageBytes : Z) (record : KafkaRecord) (partition epoch offset : Z) : DecodeOutcome :=
  let invalid := InvalidEvent (receivedFrom record partition epoch offset zeroEnvelope) in
  let size := len (wi_Bytes (kr_Value record)) in
  if (size =? 0) || (maxMessageBytes <? size) then invalid
  else
    match DecodeEnvelope (wi_Decoded (kr_Value record)) with
    | Err _ => invalid
    | Ok envelope =>
        match ValidateHeaders envelope (kr_Headers record) with
        | Err _ => invalid
        | Ok _ =>
            match ExpectedPartitionKey envelope with
            | Err _ => invalid
            | Ok expectedKey =>
                if negb (TopicAccepts (env_EventType envelope) (kr_Topic record)) || (kr_Key record != expectedKey) then invalid
                else Received (receivedFrom record partition epoch offset envelope)
            end
        end
    end.

(** ** router.go *)

Definition retryTopics : list string :=
  ["agentforge.agent-run.lifecycle.retry.1m.v1"; "agentforge.agent-run.lifecycle.retry.5m.v1";
   "agentforge.agent-run.lifecycle.retry.30m.v1"].

Definition retryDelays : list Duration := [Minute; 5 * Minute; 30 * Minute].

(** What a processing error reveals through the interfaces the router asks for. *)
Record ProcessingError := {
  px_Permanent : option bool;
  px_Code : option string;
  px_SafeMessage : option string;
}.

(** [newFailure] *)
Definition newFailure (code reason : string) (isPermanent : bool) : ProcessingError :=
  let code := TrimSpace code in
  let reason := TrimSpace reason in
  if (code == EmptyString) || (80 <? len code) || (reason == EmptyString) || (500 <? len reason)
  then {| px_Permanent := Some true; px_Code := Some "INVALID_FAILURE"; px_SafeMessage := Some "event processing failed" |}
  else {| px_Permanent := Some isPermanent; px_Code := Some code; px_SafeMessage := Some reason |}.

Record Router := {
  ro_ConsumerIdentity : string;
  ro_QuarantineTenantID : UUID;
}.

Definition NewRouter (consumerIdentity : string) (quarantineTenantID : UUID) : res Router :=
  let consumerIdentity := TrimSpace consumerIdentity in
  _ ← failIf ((consumerIdentity == EmptyString) || (160 <? len consumerIdentity) || negb (uuidVersion quarantineTenantID =? 7))
      (ErrPlain "publisher, consumer identity, and quarantine tenant are required");
  Ok {| ro_ConsumerIdentity := consumerIdentity; ro_QuarantineTenantID := quarantineTenantID |}.

Definition orDefault (value : option string) (other : string) : string :=
  match value with
  | Some value => if TrimSpace value == EmptyString then other else value
  | None => other
  end.

Definition classify (err : ProcessingError) : bool * string * string :=
  let permanent := default false (px_Permanent err) in
  (permanent,
   orDefault (px_Code err) (if permanent then "PERMANENT_PROCESSING" else "TRANSIENT_PROCESSING"),
   orDefault (px_SafeMessage err) "event processing failed").

(** The loop over the headers of a redelivered event: how many attempts match. *)
Fixpoint countAttempts (previous : Z) (headers : list Header) : res Z :=
  match headers with
  | [] => Ok 0
  | header :: rest =>
      if h_Key header == "delivery-attempt" then
        match Atoi (h_Value header) with
        | Ok value =>
            if value =? previous then matches ← countAttempts previous rest; Ok (matches + 1)
            else Err (ErrPlain "delivery-attempt header is invalid")
        | Err _ => Err (ErrPlain "delivery-attempt header is invalid")
        end
      else countAttempts previous rest
  end.

(** The position of the topic in [retryTopics], from 1. *)
Fixpoint topicIndex (topics : list string) (topic : string) : option Z :=
  match topics with
  | [] => None
  | t :: rest => if topic == t then Some 1 else match topicIndex rest topic with Some n => Some (n + 1) | None => None end
  end.

Definition expectedFailureAttempt (event : ReceivedEvent) : res Z :=
  if re_Topic event == AgentRunLifecycleTopic then Ok 1
  else
    match topicIndex retryTopics (re_Topic event) with
    | None => Err (ErrPlain "source topic is not routable")
    | Some previous =>
        matches ← countAttempts previous (re_Headers event);
        if matches =? 1 then Ok (previous + 1) else Err (ErrPlain "delivery-attempt header is required exactly once")
    end.

Inductive Routed := RoutedRetry | RoutedDLQ.

Definition retryHeaders (source : ReceivedEvent) (attempt : Z) (now : Time) : list Header :=
  [ {| h_Key := "delivery-attempt"; h_Value := Itoa attempt |};
    {| h_Key := "retry-not-before";
       h_Value := FormatRFC3339Nano (UTC (Add now (nth (Z.to_nat (attempt - 1)) retryDelays 0))) |};
    {| h_Key := "original-topic"; h_Value := re_Topic source |};
    {| h_Key := "original-partition"; h_Value := Itoa (re_Partition source) |};
    {| h_Key := "original-offset"; h_Value := Itoa (re_Offset source) |} ].

Definition retryRequest (source : ReceivedEvent) (attempt : Z) (now : Time) : PublishRequest :=
  {| pr_Event := {| oe_Envelope := re_Envelope source; oe_Topic := nth (Z.to_nat (attempt - 1)) retryTopics EmptyString;
                    oe_PartitionKey := uuidString (env_AggregateID (re_Envelope source));
                    oe_CreatedAt := env_OccurredAt (re_Envelope source) |};
     pr_Serialized := re_Value source; pr_Headers := retryHeaders source attempt now |}.

Definition isOk {A} (r : res A) : bool := match r with Ok _ => true | Err _ => false end.

(** The dead letter of a source; [encode] is the JSON encoding of an envelope. *)
Definition deadLetterRequest (encode : Envelope -> string) (newFailureID newV7 : res UUID) (router : Router)
    (source : ReceivedEvent) (code reason : string) (attempt : Z) (firstFailedAt now : Time) : res PublishRequest :=
  let dlqSource :=
    {| ds_Envelope := re_Envelope source; ds_Topic := re_Topic source; ds_Partition := re_Partition source;
       ds_Offset := re_Offset source; ds_Key := re_Key source; ds_Headers := re_Headers source;
       ds_Value := wi_Bytes (re_Value source); ds_Decoded := wi_Decoded (re_Value source) |} in
  deadLetter ← (if isOk (ValidateEnvelope (re_Envelope source))
                then NewDeadLetter newFailureID newV7 dlqSource (ro_ConsumerIdentity router) code reason attempt firstFailedAt now
                else NewMalformedDeadLetter newFailureID newV7 dlqSource (ro_QuarantineTenantID router)
                       (ro_ConsumerIdentity router) code reason attempt firstFailedAt now);
  Ok {| pr_Event := deadLetter;
        pr_Serialized := {| wi_Bytes := encode (oe_Envelope deadLetter); wi_Decoded := Some (oe_Envelope deadLetter) |};
        pr_Headers := [ {| h_Key := "delivery-attempt"; h_Value := Itoa attempt |} ] |}.

(** [Route]: what was published where. [publish] is the publisher's answer. *)
Definition Route (encode : Envelope -> string) (newFailureID newV7 : res UUID) (publish : PublishRequest -> res PublicationResult)
    (router : Router) (source : ReceivedEvent) (processingError : option ProcessingError) (attempt : Z)
    (firstFailedAt now : Time) : res (Routed * PublishRequest) :=
  match processingError with
  | None => Err (ErrPlain "processing failure metadata is invalid")
  | Some err =>
      _ ← failIf ((attempt <? 1) || IsZero firstFailedAt || Before now firstFailedAt)
          (ErrPlain "processing failure metadata is invalid");
      _ ← failIf ((env_EventID (re_Envelope source) != uuidNil) &&
                  match expectedFailureAttempt source with Ok expected => negb (expected =? attempt) | Err _ => true end)
          (ErrPlain "processing attempt does not match source delivery metadata");
      let '(permanent, code, reason) := classify err in
      if negb permanent && (attempt <=? Z.of_nat (length retryTopics)) && isOk (ValidateEnvelope (re_Envelope source)) then
        let retry := retryRequest source attempt now in
        _ ← publish retry;
        Ok (RoutedRetry, retry)
      else
        deadLetter ← deadLetterRequest encode newFailureID newV7 router source code reason attempt firstFailedAt now;
        _ ← publish deadLetter;
        Ok (RoutedDLQ, deadLetter)
  end.

(** The loop of [RetryNotBefore]: the last value, unless an earlier one was not empty. *)
Fixpoint notBeforeHeader (headers : list Header) (value : string) : res string :=
  match headers with
  | [] => Ok value
  | header :: rest =>
      if h_Key header == "retry-not-before" then
        if value == EmptyString then notBeforeHeader rest (h_Value header)
        else Err (ErrPlain "retry-not-before header is duplicated")
      else notBeforeHeader rest value
  end.

Definition RetryNotBefore (event : ReceivedEvent) : res Time :=
  _ ← failIf (negb (bool_decide (re_Topic event ∈ retryTopics))) (ErrPlain "retry-not-before is only valid on retry topics");
  value ← notBeforeHeader (re_Headers event) EmptyString;
  _ ← failIf (value == EmptyString) (ErrPlain "retry-not-before header is required");
  match ParseRFC3339Nano value with
  | Some notBefore => Ok (UTC notBefore)
  | None => Err (ErrPlain "retry-not-before header is invalid")
  end.
End Kafka.

(** ** processed_events.go *)

Record ProcessedRow := {
  pv_TenantID : UUID;
  pv_EventType : string;
  pv_AggregateID : UUID;
  pv_AggregateVersion : Z;
  pv_SourceTopic : string;
  pv_SourcePartition : Z;
  pv_SourceOffset : Z;
  pv_ProcessedAt : Time;
}.

(** The markers, the tenants they refer to, and what the business effects act on. *)
Record ConsumerDB (State : Type) := {
  cd_Markers : gmap (string * UUID) ProcessedRow;
  cd_Tenants : gset UUID;
  cd_State : State;
}.
Arguments Build_ConsumerDB {State}.
Arguments cd_Markers {State}.
Arguments cd_Tenants {State}.
Arguments cd_State {State}.

Section Processing.
Context `{UUIDs} `{NetURL} `{SHA256} {State : Type}.

Definition validateReceivedEvent (event : ReceivedEvent) : res unit :=
  _ ← failIf (negb (uuidVersion (env_EventID (re_Envelope event)) =? 7) || negb (uuidVersion (env_TenantID (re_Envelope event)) =? 7)
      || (re_Topic event == EmptyString) || (re_Partition event <? 0) || (re_Offset event <? 0))
      (ErrPlain "validated event source metadata is required");
  decoded ← match DecodeEnvelope (wi_Decoded (re_Value event)) with
            | Ok decoded =>
                if env_EventID decoded == env_EventID (re_Envelope event) then Ok decoded
                else Err (ErrPlain "validated event envelope bytes are required")
            | Err _ => Err (ErrPlain "validated event envelope bytes are required")
            end;
  _ ← ValidateHeaders decoded (re_Headers event);
  match ExpectedPartitionKey decoded with
  | Err _ => Err (ErrPlain "validated event topic and partition key are required")
  | Ok expectedKey =>
      failIf (negb (TopicAccepts (env_EventType decoded) (re_Topic event)) || (re_Key event != expectedKey))
        (ErrPlain "validated event topic and partition key are required")
  end.

Definition markerFor (event : ReceivedEvent) (processedAt : Time) : ProcessedRow :=
  let envelope := re_Envelope event in
  {| pv_TenantID := env_TenantID envelope; pv_EventType := env_EventType envelope;
     pv_AggregateID := env_AggregateID envelope; pv_AggregateVersion := env_AggregateVersion envelope;
     pv_SourceTopic := re_Topic event; pv_SourcePartition := re_Partition event; pv_SourceOffset := re_Offset event;
     pv_ProcessedAt := pgTime (UTC processedAt) |}.

(** The insert of the marker: whether a row was inserted. *)
Definition insertMarker (consumerIdentity : string) (event : ReceivedEvent) (processedAt : Time) (db : ConsumerDB State) :
    res (bool * ConsumerDB State) :=
  let envelope := re_Envelope event in
  let key := (consumerIdentity, env_EventID envelope) in
  _ ← failIf ((env_SchemaVersion envelope <? 1) || (env_AggregateVersion envelope <? 1))
      (ErrPlain "check constraint violated");
  match cd_Markers db !! key with
  | Some _ => Ok (false, db)
  | None =>
      _ ← failIf (bool_decide (env_TenantID envelope ∉ cd_Tenants db)) ErrNotFound;
      Ok (true, {| cd_Markers := <[key := markerFor event processedAt]> (cd_Markers db);
                   cd_Tenants := cd_Tenants db; cd_State := cd_State db |})
  end.

(** [Process]: the marker and the effect in one transaction; [true] for a duplicate. *)
Definition Process (consumerIdentity : string) (event : ReceivedEvent) (processedAt : Time)
    (businessEffect : ReceivedEvent -> State -> res State) (db : ConsumerDB State) : res bool * ConsumerDB State :=
  let consumerIdentity := TrimSpace consumerIdentity in
  if (consumerIdentity == EmptyString) || (160 <? len consumerIdentity)
  then (Err (ErrPlain "consumer identity and business effect are required"), db)
  else
    match validateReceivedEvent event with
    | Err e => (Err e, db)
    | Ok _ =>
        match insertMarker consumerIdentity event processedAt db with
        | Err e => (Err e, db)
        | Ok (false, _) => (Ok true, db)
        | Ok (true, db') =>
            match businessEffect event (cd_State db') with
            | Err e => (Err e, db)
            | Ok state => (Ok false, {| cd_Markers := cd_Markers db'; cd_Tenants := cd_Tenants db'; cd_State := state |})
            end
        end
    end.

(** Deliveries of one consumer, in order; each may be acknowledged or come again. *)
Fixpoint processAll (consumerIdentity : string) (businessEffect : ReceivedEvent -> State -> res State)
    (deliveries : list (ReceivedEvent * Time)) (db : ConsumerDB State) : list (res bool) * ConsumerDB State :=
  match deliveries with
  | [] => ([], db)
  | (event, at_) :: rest =>
      let '(r, db1) := Process consumerIdentity event at_ businessEffect db in
      let '(rs, db2) := processAll consumerIdentity businessEffect rest db1 in
      (r :: rs, db2)
  end.

Fixpoint applyEffects (businessEffect : ReceivedEvent -> State -> res State) (events : list ReceivedEvent) (state : State) : res State :=
  match events with
  | [] => Ok state
  | event :: rest => match businessEffect event state with Ok state' => applyEffects businessEffect rest state' | Err e => Err e end
  end.

Definition re_ID (event : ReceivedEvent) : UUID := env_EventID (re_Envelope event).

Lemma Process_cases identity event at_ effect db r db' :
  Process identity event at_ effect db = (r, db') ->
  (exists e, r = Err e /\ db' = db) \/
  (r = Ok true /\ db' = db /\ is_Some (cd_Markers db !! (TrimSpace identity, re_ID event))) \/
  (r = Ok false /\ cd_Markers db !! (TrimSpace identity, re_ID event) = None /\
   effect event (cd_State db) = Ok (cd_State db') /\
   cd_Markers db' = <[(TrimSpace identity, re_ID event) := markerFor event at_]> (cd_Markers db)).
Proof.
  unfold Process. destruct (_ || _); [intros [= <- <-]; eauto|].
  destruct (validateReceivedEvent event) as [[]|]; [|intros [= <- <-]; eauto].
  unfold insertMarker. rewrite bind_failIf. destruct (_ || _); [intros [= <- <-]; eauto|].
  destruct (cd_Markers db !! _) as [row|] eqn:Hm.
  { intros [= <- <-]. right. left. eauto. }
  rewrite bind_failIf. destruct (bool_decide _); [intros [= <- <-]; eauto|]. cbn [cd_State].
  destruct (effect event (cd_State db)) as [state|]; intros [= <- <-]; [|eauto]. right. right. simpl. eauto 10.
Qed.

(** Relative to the markers already there. *)
Lemma processAll_spec identity effect deliveries db :
  let marked id := is_Some (cd_Markers db !! (TrimSpace identity, id)) in
  let '(results, db') := processAll identity effect deliveries db in
  exists applied, applied `sublist_of` deliveries.*1 /\ NoDup (re_ID <$> applied) /\
    (forall id, id ∈ re_ID <$> applied -> ~ marked id) /\
    applyEffects effect applied (cd_State db) = Ok (cd_State db') /\
    (forall i event at_ b, deliveries !! i = Some (event, at_) -> results !! i = Some (Ok b) ->
       marked (re_ID event) \/ re_ID event ∈ re_ID <$> applied) /\
    length (filter (fun r => r = Ok false) results) = length applied.
Proof.
  revert db. induction deliveries as [|[event at_] rest IH]; intros db; cbn [processAll].
  { exists []. split_and!; [constructor|constructor|set_solver|done|done|done]. }
  destruct (Process identity event at_ effect db) as [r db1] eqn:Hp. specialize (IH db1).
  destruct (processAll identity effect rest db1) as [rs db2]. cbv zeta in *.
  destruct IH as (applied & Hsub & Hnd & Hfresh & Heff & Hok & Hcount).
  apply Process_cases in Hp as [(e & -> & ->)|[(-> & -> & Hm)|(-> & Hm & He & Hmarks)]].
  - exists applied. split_and!; [by constructor|done..| |by rewrite filter_cons].
    intros [|i] ev t b Hd Hr; simpl in *; [done|by eapply Hok].
  - exists applied. split_and!; [by constructor|done..| |by rewrite filter_cons].
    intros [|i] ev t b Hd Hr; simpl in *; [injection Hd as <- <-; by left|by eapply Hok].
  - exists (event :: applied). rewrite Hmarks in Hfresh, Hok. cbn [fmap list_fmap]. split_and!.
    + by constructor.
    + apply NoDup_cons. split; [|done]. intros Hin. apply (Hfresh _ Hin). rewrite lookup_insert_eq. eauto.
    + intros id [->|Hin]%elem_of_cons Hmk; [by rewrite Hm in Hmk; destruct Hmk|]. apply (Hfresh _ Hin).
      destruct (decide (re_ID event = id)) as [->|Hne]; [rewrite lookup_insert_eq; eauto|].
      rewrite lookup_insert_ne; [done|congruence].
    + simpl. by rewrite He.
    + intros [|i] ev t b Hd Hr; simpl in *; [injection Hd as <- <-; right; left|].
      destruct (Hok i ev t b Hd Hr) as [Hmk|Hin]; [|right; by right].
      destruct (decide (re_ID event = re_ID ev)) as [Heq|Hne]; [right; rewrite Heq; left|].
      rewrite lookup_insert_ne in Hmk; [by left|congruence].
    + rewrite filter_cons_True by done. simpl. by rewrite Hcount.
Qed.

End Processing.

(** ** From producer to consumer *)

Section Transport.
Context `{UUIDs} `{NetURL} `{SHA256}.

Lemma prepareRecord_ok maxBytes request record :
  prepareRecord maxBytes request = inr record ->
  exists decoded, wi_Decoded (pr_Serialized request) = Some decoded /\ ValidateEnvelope decoded = Ok tt /\
    env_EventID decoded = env_EventID (oe_Envelope (pr_Event request)) /\
    record = {| kr_Topic := oe_Topic (pr_Event request); kr_Key := oe_PartitionKey (pr_Event request);
                kr_Value := pr_Serialized request; kr_Timestamp := env_OccurredAt decoded;
                kr_Headers := HeadersForEnvelope decoded ++ pr_Headers request |} /\
    forall partition epoch offset,
      decodeRecord maxBytes record partition epoch offset = Received (receivedFrom record partition epoch offset decoded).
Proof.
  unfold prepareRecord. destruct (_ || _) eqn:Hsize; [done|]. unfold DecodeEnvelope at 1.
  destruct (wi_Decoded (pr_Serialized request)) as [decoded|] eqn:Hd; [|done].
  destruct (ValidateEnvelope decoded) as [[]|] eqn:Hv; [|done]. cbn [mbind res_bind].
  destruct (ExpectedPartitionKey decoded) as [key|] eqn:Hk; [|done].
  destruct ((env_EventID decoded != _) || _ || _) eqn:Hg; [done|].
  destruct (ValidateHeaders _ _) as [[]|] eqn:Hh; [|done]. intros Hrec. apply (inj inr) in Hrec as <-.
  rewrite !orb_false_iff in Hg. destruct Hg as [[Hid Ht] Hkey].
  exists decoded. split; [done|]. split; [done|]. split; [by apply negb_false_iff, bool_decide_eq_true in Hid|]. split; [done|].
  intros partition epoch offset. unfold decodeRecord. cbn [kr_Value kr_Headers kr_Topic kr_Key]. rewrite Hsize.
  unfold DecodeEnvelope at 1. rewrite Hd, Hv. cbn [mbind res_bind]. rewrite Hh, Hk, Ht.
  by rewrite Hkey.
Qed.

Lemma prepareRecord_accepts maxBytes request :
  event_contract (pr_Event request) -> wi_Decoded (pr_Serialized request) = Some (oe_Envelope (pr_Event request)) ->
  0 < len (wi_Bytes (pr_Serialized request)) <= maxBytes ->
  ValidateHeaders (oe_Envelope (pr_Event request)) (HeadersForEnvelope (oe_Envelope (pr_Event request)) ++ pr_Headers request) = Ok tt ->
  exists record, prepareRecord maxBytes request = inr record.
Proof.
  intros (Hv & Ht & Hk) Hd Hsize Hh. unfold prepareRecord.
  replace (_ || _) with false by lia. unfold DecodeEnvelope. rewrite Hd, Hv. cbn [mbind res_bind]. rewrite Hk, Ht, Hh.
  rewrite !bool_decide_eq_true_2 by done. eauto.
Qed.

Lemma decodeRecord_ok maxBytes record partition epoch offset source :
  decodeRecord maxBytes record partition epoch offset = Received source ->
  source = receivedFrom record partition epoch offset (re_Envelope source) /\
  ValidateEnvelope (re_Envelope source) = Ok tt /\ wi_Decoded (re_Value source) = Some (re_Envelope source) /\
  0 < len (wi_Bytes (re_Value source)) <= maxBytes /\
  TopicAccepts (env_EventType (re_Envelope source)) (re_Topic source) = true.
Proof.
  unfold decodeRecord. destruct ((_ =? 0) || _) eqn:Hsize; [done|]. unfold DecodeEnvelope at 1.
  destruct (wi_Decoded (kr_Value record)) as [decoded|] eqn:Hd; [|done].
  destruct (ValidateEnvelope decoded) as [[]|] eqn:Hv; [|done]. cbn [mbind res_bind].
  destruct (ValidateHeaders _ _); [|done]. destruct (ExpectedPartitionKey decoded) as [key|]; [|done].
  destruct (negb _ || _) eqn:Hg; [done|]. intros Hr. injection Hr as <-. unfold receivedFrom. cbn [re_Envelope re_Value re_Topic].
  apply orb_false_iff in Hg as [Ht%negb_false_iff _]. unfold len in *. split_and!; [done..|lia|lia|done].
Qed.

Lemma expected_attempt_range source attempt :
  expectedFailureAttempt source = Ok attempt -> 1 <= attempt <= 4.
Proof.
  unfold expectedFailureAttempt. destruct (re_Topic source == AgentRunLifecycleTopic); [intros [= <-]; lia|].
  destruct (topicIndex retryTopics (re_Topic source)) as [previous|] eqn:Hi; [|done].
  intros Ha. apply bind_ok in Ha as (n & _ & Ha). destruct (n =? 1); [|done]. injection Ha as <-.
  unfold retryTopics in Hi. cbn [topicIndex] in Hi. repeat (destruct (_ == _) in Hi; [injection Hi; lia|]). done.
Qed.

Lemma attempt_cases attempt : 1 <= attempt <= 3 -> attempt = 1 \/ attempt = 2 \/ attempt = 3.
Proof. lia. Qed.

Lemma retry_contract source attempt now :
  ValidateEnvelope (re_Envelope source) = Ok tt -> isLifecycleType (env_EventType (re_Envelope source)) = true ->
  1 <= attempt <= 3 -> event_contract (pr_Event (retryRequest source attempt now)).
Proof.
  intros Hv Hty Ha. unfold event_contract, TopicAccepts, ExpectedPartitionKey. cbn [pr_Event retryRequest oe_Envelope oe_Topic oe_PartitionKey].
  rewrite Hty. split_and!; [done| |done]. destruct (attempt_cases attempt Ha) as [->|[->| ->]]; reflexivity.
Qed.

Lemma retry_headers_ok source attempt now :
  1 <= attempt <= 3 -> len (re_Topic source) <= 512 -> - 2 ^ 63 <= re_Partition source < 2 ^ 63 -> - 2 ^ 63 <= re_Offset source < 2 ^ 63 ->
  NoDup (h_Key <$> retryHeaders source attempt now) /\ sumZ headerSize (retryHeaders source attempt now) <= 2689 /\
  forall h, h ∈ retryHeaders source attempt now ->
    h_Key h ∉ repeatedHeaders /\ h_Key h <> EmptyString /\ len (h_Key h) <= 64 /\ len (h_Value h) <= 512.
Proof.
  intros Ha Ht Hp Ho. pose proof (len_Itoa _ Hp). pose proof (len_Itoa _ Ho). pose proof (len_Itoa attempt ltac:(lia)).
  set (at_ := UTC (Add now (nth (Z.to_nat (attempt - 1)) retryDelays 0))). pose proof (length_FormatRFC3339Nano at_).
  unfold retryHeaders. fold at_. split_and!.
  - apply (bool_decide_unpack _). vm_compute. exact I.
  - unfold headerSize. cbn [sumZ foldr h_Key h_Value].
    repeat match goal with |- context [len (String ?c ?s)] =>
      let n := eval vm_compute in (len (String c s)) in change (len (String c s)) with n end. lia.
  - assert (Hk : forall k v, k ∉ repeatedHeaders -> k <> EmptyString -> len k <= 64 -> len v <= 512 ->
      h_Key {| h_Key := k; h_Value := v |} ∉ repeatedHeaders /\ h_Key {| h_Key := k; h_Value := v |} <> EmptyString /\
      len (h_Key {| h_Key := k; h_Value := v |}) <= 64 /\ len (h_Value {| h_Key := k; h_Value := v |}) <= 512) by done.
    intros h Hh. repeat (apply elem_of_cons in Hh as [->|Hh];
      [apply Hk; [apply (bool_decide_unpack _); vm_compute; exact I|done|done|lia]|]). by apply not_elem_of_nil in Hh.
Qed.

Lemma accepted_topic_length eventType topic : TopicAccepts eventType topic = true -> len topic <= 512.
Proof.
  unfold TopicAccepts. destruct (isLifecycleType eventType); [rewrite !orb_true_iff|destruct (eventType == _); [|done]];
    rewrite !bool_decide_eq_true; intros; destruct_or?; subst; vm_compute; congruence.
Qed.

Lemma countAttempts_skip previous l r :
  (forall h, h ∈ l -> h_Key h <> "delivery-attempt") -> countAttempts previous (l ++ r) = countAttempts previous r.
Proof.
  induction l as [|h l IH]; intros Hl; [done|]. cbn [app countAttempts].
  rewrite bool_decide_eq_false_2 by (apply Hl; left). apply IH. intros h' Hh'. apply Hl. by right.
Qed.

Lemma notBeforeHeader_skip l r v :
  (forall h, h ∈ l -> h_Key h <> "retry-not-before") -> notBeforeHeader (l ++ r) v = notBeforeHeader r v.
Proof.
  induction l as [|h l IH]; intros Hl; [done|]. cbn [app notBeforeHeader].
  rewrite bool_decide_eq_false_2 by (apply Hl; left). apply IH. intros h' Hh'. apply Hl. by right.
Qed.

Lemma envelope_header_key (e : Envelope) k h : k ∉ repeatedHeaders -> h ∈ HeadersForEnvelope e -> h_Key h <> k.
Proof. intros Hk Hh <-. by apply Hk, (HeadersForEnvelope_repeated e). Qed.
(** The record of a retry is received as the next attempt, due after the delay. *)
Lemma redelivered_next source source' attempt now :
  1 <= attempt <= 3 -> 0 <= now -> now + 30 * Minute < (lastDay + 1) * (24 * Hour) ->
  re_Topic source' = nth (Z.to_nat (attempt - 1)) retryTopics EmptyString ->
  re_Headers source' = HeadersForEnvelope (re_Envelope source) ++ retryHeaders source attempt now ->
  expectedFailureAttempt source' = Ok (attempt + 1) /\
  RetryNotBefore source' = Ok (now + nth (Z.to_nat (attempt - 1)) retryDelays 0).
Proof.
  intros Ha Hnow Hyear Ht Hh.
  assert (Hkey : forall k, k ∉ repeatedHeaders -> forall h, h ∈ HeadersForEnvelope (re_Envelope source) -> h_Key h <> k)
    by (intros k Hk h; by apply envelope_header_key).
  assert (Hdelay : 0 <= nth (Z.to_nat (attempt - 1)) retryDelays 0 <= 30 * Minute).
  { destruct (attempt_cases attempt Ha) as [->|[->| ->]]; vm_compute; split; congruence. }
  split.
  - assert (Hindex : (nth (Z.to_nat (attempt - 1)) retryTopics EmptyString == AgentRunLifecycleTopic) = false /\
      topicIndex retryTopics (nth (Z.to_nat (attempt - 1)) retryTopics EmptyString) = Some attempt /\ Atoi (Itoa attempt) = Ok attempt)
      by (destruct (attempt_cases attempt Ha) as [->|[->| ->]]; vm_compute; split_and!; reflexivity).
    destruct Hindex as (Hl & Hi & Hv). unfold expectedFailureAttempt. rewrite Ht, Hh, Hl, Hi.
    rewrite countAttempts_skip by (apply Hkey, (bool_decide_unpack _); vm_compute; exact I).
    unfold retryHeaders. cbn [countAttempts h_Key h_Value].
    rewrite (bool_decide_eq_true_2 ("delivery-attempt" = _)) by done. rewrite !(bool_decide_eq_false_2 (_ = "delivery-attempt")) by done.
    by rewrite Hv, Z.eqb_refl.
  - unfold RetryNotBefore. rewrite Ht, Hh, bind_failIf, bool_decide_eq_true_2;
      [|destruct (attempt_cases attempt Ha) as [->|[->| ->]]; apply (bool_decide_unpack _); vm_compute; exact I].
    cbn [negb]. rewrite notBeforeHeader_skip by (apply Hkey, (bool_decide_unpack _); vm_compute; exact I).
    unfold retryHeaders. cbn [notBeforeHeader h_Key h_Value].
    rewrite (bool_decide_eq_true_2 ("retry-not-before" = _)) by done. rewrite !(bool_decide_eq_false_2 (_ = "retry-not-before")) by done.
    set (at_ := UTC (Add now (nth (Z.to_nat (attempt - 1)) retryDelays 0))).
    pose proof (rfc3339_roundtrip at_ ltac:(unfold at_, UTC, Add; lia)) as Hparse.
    cbn [mbind res_bind]. rewrite bool_decide_eq_true_2 by done. cbn [mbind res_bind].
    rewrite bool_decide_eq_false_2 by (intros E; rewrite E in Hparse; done). cbn [failIf mbind res_bind]. by rewrite Hparse.
Qed.

(** [Route] once its guards are passed. *)
Lemma Route_eval encode f u publish router source err attempt firstFailedAt now :
  1 <= attempt -> firstFailedAt <> 0 -> firstFailedAt <= now -> expectedFailureAttempt source = Ok attempt ->
  ValidateEnvelope (re_Envelope source) = Ok tt ->
  Route encode f u publish router source (Some err) attempt firstFailedAt now =
    let '(permanent, code, reason) := classify err in
    if negb permanent && (attempt <=? 3) then _ ← publish (retryRequest source attempt now); Ok (RoutedRetry, retryRequest source attempt now)
    else deadLetter ← deadLetterRequest encode f u router source code reason attempt firstFailedAt now;
         _ ← publish deadLetter; Ok (RoutedDLQ, deadLetter).
Proof.
  intros Ha Hf0 Hfn Hatt Hv. unfold Route. rewrite !bind_failIf, Hatt, Hv. unfold IsZero, Before. replace (_ || _ || _) with false by lia.
  rewrite Z.eqb_refl, andb_false_r. cbn [isOk]. destruct (classify err) as [[permanent code] reason]. by rewrite andb_true_r.
Qed.

Lemma deadLetterRequest_topic encode f u router source code reason attempt firstFailedAt now request :
  deadLetterRequest encode f u router source code reason attempt firstFailedAt now = Ok request ->
  oe_Topic (pr_Event request) = AgentRunDLQTopic.
Proof.
  unfold deadLetterRequest. intros Hr. apply bind_ok in Hr as (event & Hev & Hr). apply Ok_inj in Hr as <-. simpl.
  destruct (isOk _); [unfold NewDeadLetter in Hev|unfold NewMalformedDeadLetter in Hev];
    repeat (apply bind_ok in Hev as (? & _ & Hev)); by apply Ok_inj in Hev as <-.
Qed.

(** The retry of a received event is sent, and received as the next attempt. *)
Lemma retry_delivered maxBytes source attempt now :
  ValidateEnvelope (re_Envelope source) = Ok tt -> wi_Decoded (re_Value source) = Some (re_Envelope source) ->
  0 < len (wi_Bytes (re_Value source)) <= maxBytes -> TopicAccepts (env_EventType (re_Envelope source)) (re_Topic source) = true ->
  isLifecycleType (env_EventType (re_Envelope source)) = true ->
  isUUID (env_EventID (re_Envelope source)) -> isUUID (env_TenantID (re_Envelope source)) ->
  - 2 ^ 63 <= re_Partition source < 2 ^ 63 -> - 2 ^ 63 <= re_Offset source < 2 ^ 63 ->
  1 <= attempt <= 3 -> 0 <= now -> now + 30 * Minute < (lastDay + 1) * (24 * Hour) ->
  exists record', prepareRecord maxBytes (retryRequest source attempt now) = inr record' /\
    forall partition' epoch' offset', exists source',
      decodeRecord maxBytes record' partition' epoch' offset' = Received source' /\
      re_Envelope source' = re_Envelope source /\ re_Value source' = re_Value source /\
      expectedFailureAttempt source' = Ok (attempt + 1) /\
      RetryNotBefore source' = Ok (now + nth (Z.to_nat (attempt - 1)) retryDelays 0).
Proof.
  intros Hv Hwire Hsize Htopic Hty Hid Hten Hp Ho Ha Hn0 Hyear.
  destruct (retry_headers_ok source attempt now Ha (accepted_topic_length _ _ Htopic) Hp Ho) as (Hnd & Hsum & Hh).
  destruct (prepareRecord_accepts maxBytes (retryRequest source attempt now)) as [record' Hrec]; [by apply retry_contract|done..| |].
  { apply headers_accepted; try done. simpl. lia. }
  exists record'. split; [done|]. intros p' e' o'.
  destruct (prepareRecord_ok _ _ _ Hrec) as (decoded & Hd & _ & _ & Hr & Hdec). cbn [pr_Serialized retryRequest] in Hd.
  rewrite Hwire in Hd. injection Hd as <-. rewrite Hdec. eexists. split; [done|].
  rewrite Hr. unfold receivedFrom. cbn [re_Envelope re_Value kr_Value pr_Serialized retryRequest]. split; [done|]. split; [done|].
  by apply (redelivered_next source).
Qed.

End Transport.

(** ** Witnesses *)

Lemma example_constructed : exists ev, example_event = Ok ev /\ @constructed_event rfcUUIDs exampleNetURL exampleSHA256 ev /\
  env_EventID (oe_Envelope ev) = exampleV7 99 /\ env_TenantID (oe_Envelope ev) = exampleTenant /\
  env_EventType (oe_Envelope ev) = AgentRunRequestedType /\ oe_Topic ev = AgentRunLifecycleTopic.
Proof.
  destruct example_event as [ev|] eqn:E; [|vm_compute in E; discriminate].
  exists ev. split; [reflexivity|]. split; [eapply ce_requested; exact E|].
  vm_compute in E. apply Ok_inj in E. subst ev. vm_compute. split_and!; reflexivity.
Qed.

Lemma example_uuids : isUUID (exampleV7 99) /\ isUUID exampleTenant.
Proof. split; split; vm_compute; congruence. Qed.


Definition example_failure : ProcessingError := newFailure "DEPENDENCY" "database is down" false.


(** The example event as a consumer receives it, delivered twice. *)
Definition example_deliveries : list (ReceivedEvent * Time) :=
  match example_event with
  | Err _ => []
  | Ok ev =>
      match @prepareRecord rfcUUIDs exampleNetURL 1024 {| pr_Event := ev;
        pr_Serialized := {| wi_Bytes := "{}"; wi_Decoded := Some (oe_Envelope ev) |}; pr_Headers := [] |} with
      | inl _ => []
      | inr record =>
          match @decodeRecord rfcUUIDs exampleNetURL 1024 record 3 0 41 with
          | Received source => [(source, exampleNow); (source, exampleNow + Second)]
          | InvalidEvent _ => []
          end
      end
  end.

Definition example_consumer : ConsumerDB Z := {| cd_Markers := ∅; cd_Tenants := {[exampleTenant]}; cd_State := 0 |}.

Definition example_processed : list (res bool) * ConsumerDB Z :=
  @processAll rfcUUIDs exampleNetURL Z "handoff" (fun _ n => Ok (n + 1)) example_deliveries example_consumer.

