(* ===== verification/JsonDecode.v ===== *)
(** * Decoding JSON text

    The part of [encoding/json] the sources use to read text: the scanner with its
    nesting limit, string literals with their escapes, surrogate pairs and
    replacement of invalid UTF-8, number literals, and the decoding of an object
    into the fields of a struct (exact names first, then names up to letter case;
    [null] leaves a field as it is; a repeated name decodes again).

    [print] is the encoder on the same values. [parse_print] says that decoding
    text of the encoder gives back the value, for valid UTF-8; [parseValue_fuel]
    that the fuel, one more than the number of bytes, never runs out. *)

From S2P Require Import Prelude Json.

Inductive JSON :=
| JNull
| JBool (b : bool)
| JNumber (text : list Ascii.ascii)
| JString (s : list Ascii.ascii)
| JArray (elements : list JSON)
| JObject (members : list (list Ascii.ascii * JSON)).

(** ** Scanner *)

Definition jsonSpace (c : Ascii.ascii) : bool := byte_is 32 c || byte_is 9 c || byte_is 13 c || byte_is 10 c.

Fixpoint skipSpace (l : list Ascii.ascii) : list Ascii.ascii :=
  match l with
  | c :: rest => if jsonSpace c then skipSpace rest else l
  | [] => []
  end.

(** [utf8.AppendRune] on a code point that is not a surrogate. *)
Definition encodeRune (r : Z) : list Ascii.ascii :=
  let byte n := Ascii.ascii_of_N (Z.to_N n) in
  if r <? 128 then [byte r]
  else if r <? 2048 then [byte (192 + r / 64); byte (128 + r mod 64)]
  else if r <? 65536 then [byte (224 + r / 4096); byte (128 + r / 64 mod 64); byte (128 + r mod 64)]
  else [byte (240 + r / 262144); byte (128 + r / 4096 mod 64); byte (128 + r / 64 mod 64); byte (128 + r mod 64)].

Definition replacementRune : Z := 65533.

Definition hexNibble (c : Ascii.ascii) : option Z :=
  let n := Z.of_N (Ascii.N_of_ascii c) in
  if digit c then Some (n - 48)
  else if byte_in 97 102 c then Some (n - 87)
  else if byte_in 65 70 c then Some (n - 55)
  else None.

(** Four hexadecimal digits. *)
Definition getu4 (l : list Ascii.ascii) : option (Z * list Ascii.ascii) :=
  match l with
  | a :: b :: c :: d :: rest =>
      match hexNibble a, hexNibble b, hexNibble c, hexNibble d with
      | Some a, Some b, Some c, Some d => Some (4096 * a + 256 * b + 16 * c + d, rest)
      | _, _, _, _ => None
      end
  | _ => None
  end.

Definition surrogate (r : Z) : bool := (55296 <=? r) && (r <? 57344).

(** The code point of a surrogate pair. *)
Definition pairRune (high low : Z) : option Z :=
  if (55296 <=? high) && (high <? 56320) && (56320 <=? low) && (low <? 57344)
  then Some (65536 + (high - 55296) * 1024 + (low - 56320)) else None.

(** What follows [\u] in a literal: the rune, and the text after it. *)
Definition unicodeEscape (l : list Ascii.ascii) : option (Z * list Ascii.ascii) :=
  match getu4 l with
  | None => None
  | Some (high, rest) =>
      if surrogate high then
        match rest with
        | backslash :: u :: tail =>
            if byte_is 92 backslash && byte_is 117 u then
              match getu4 tail with
              | Some (low, tail) =>
                  match pairRune high low with Some r => Some (r, tail) | None => Some (replacementRune, rest) end
              | None => Some (replacementRune, rest)
              end
            else Some (replacementRune, rest)
        | _ => Some (replacementRune, rest)
        end
      else Some (high, rest)
  end.

Definition simpleEscape (c : Ascii.ascii) : option Ascii.ascii :=
  if byte_is 34 c || byte_is 92 c || byte_is 47 c then Some c
  else if byte_is 98 c then Some (Ascii.ascii_of_nat 8)
  else if byte_is 102 c then Some (Ascii.ascii_of_nat 12)
  else if byte_is 110 c then Some (Ascii.ascii_of_nat 10)
  else if byte_is 114 c then Some (Ascii.ascii_of_nat 13)
  else if byte_is 116 c then Some (Ascii.ascii_of_nat 9)
  else None.

(** One character of a literal: its decoded bytes, and the text after it. *)
Definition literalStep (l : list Ascii.ascii) : option (list Ascii.ascii * list Ascii.ascii) :=
  match l with
  | [] => None
  | c :: rest =>
      if byte_is 92 c then
        match rest with
        | [] => None
        | e :: tail =>
            if byte_is 117 e then
              match unicodeEscape tail with Some (r, tail) => Some (encodeRune r, tail) | None => None end
            else match simpleEscape e with Some b => Some ([b], tail) | None => None end
        end
      else if byte_in 0 31 c then None
      else if byte_in 0 127 c then Some ([c], rest)
      else match runeLength l with
           | Some n => Some (take n l, drop n l)
           | None => Some (encodeRune replacementRune, rest)
           end
  end.

(** A literal after its opening quote; every step consumes a byte. *)
Fixpoint parseLiteral (fuel : nat) (l : list Ascii.ascii) : option (list Ascii.ascii * list Ascii.ascii) :=
  match fuel with
  | O => None
  | S fuel =>
      match l with
      | [] => None
      | c :: rest =>
          if byte_is 34 c then Some ([], rest)
          else match literalStep l with
               | None => None
               | Some (out, tail) =>
                   match parseLiteral fuel tail with
                   | Some (s, tail) => Some (out ++ s, tail)
                   | None => None
                   end
               end
      end
  end.

Fixpoint digitRun (l : list Ascii.ascii) : list Ascii.ascii * list Ascii.ascii :=
  match l with
  | c :: rest => if digit c then let '(ds, tail) := digitRun rest in (c :: ds, tail) else ([], l)
  | [] => ([], [])
  end.

(** At least one digit. *)
Definition digits1 (l : list Ascii.ascii) : option (list Ascii.ascii * list Ascii.ascii) :=
  match digitRun l with ([], _) => None | (ds, tail) => Some (ds, tail) end.

Definition parseInteger (l : list Ascii.ascii) : option (list Ascii.ascii * list Ascii.ascii) :=
  match l with
  | c :: rest => if byte_is 48 c then Some ([c], rest) else digits1 l
  | [] => None
  end.

Definition parseFraction (l : list Ascii.ascii) : option (list Ascii.ascii * list Ascii.ascii) :=
  match l with
  | c :: rest =>
      if dot c then match digits1 rest with Some (ds, tail) => Some (c :: ds, tail) | None => None end else Some ([], l)
  | [] => Some ([], [])
  end.

Definition parseExponent (l : list Ascii.ascii) : option (list Ascii.ascii * list Ascii.ascii) :=
  match l with
  | e :: rest =>
      if byte_is 69 e || byte_is 101 e then
        match rest with
        | sign :: tail =>
            if byte_is 43 sign || byte_is 45 sign then
              match digits1 tail with Some (ds, tail) => Some (e :: sign :: ds, tail) | None => None end
            else match digits1 rest with Some (ds, tail) => Some (e :: ds, tail) | None => None end
        | [] => None
        end
      else Some ([], l)
  | [] => Some ([], [])
  end.

Definition parseNumber (l : list Ascii.ascii) : option (JSON * list Ascii.ascii) :=
  let '(sign, l) := match l with c :: rest => if hyphen c then ([c], rest) else ([], l) | [] => ([], []) end in
  match parseInteger l with
  | None => None
  | Some (whole, l) =>
      match parseFraction l with
      | None => None
      | Some (fraction, l) =>
          match parseExponent l with
          | None => None
          | Some (exponent, l) => Some (JNumber (sign ++ whole ++ fraction ++ exponent), l)
          end
      end
  end.

(** [true], [false], [null] or a number. *)
Definition parseScalar (l : list Ascii.ascii) : option (JSON * list Ascii.ascii) :=
  if hasPrefixBytes (bytes "true") l then Some (JBool true, drop 4 l)
  else if hasPrefixBytes (bytes "false") l then Some (JBool false, drop 5 l)
  else if hasPrefixBytes (bytes "null") l then Some (JNull, drop 4 l)
  else parseNumber l.

(** A value, the elements of an array after its bracket, the members of an object
    after its brace; [depth] is the nesting that is left. *)
Fixpoint parseValue (fuel depth : nat) (l : list Ascii.ascii) {struct fuel} : option (JSON * list Ascii.ascii) :=
  match fuel with
  | O => None
  | S fuel =>
      match skipSpace l with
      | [] => None
      | c :: rest =>
          if byte_is 123 c then
            match depth with
            | O => None
            | S depth =>
                match skipSpace rest with
                | [] => None
                | d :: tail =>
                    if byte_is 125 d then Some (JObject [], tail)
                    else match parseMembers fuel depth (d :: tail) with
                         | Some (members, tail) => Some (JObject members, tail)
                         | None => None
                         end
                end
            end
          else if byte_is 91 c then
            match depth with
            | O => None
            | S depth =>
                match skipSpace rest with
                | [] => None
                | d :: tail =>
                    if byte_is 93 d then Some (JArray [], tail)
                    else match parseElements fuel depth (d :: tail) with
                         | Some (elements, tail) => Some (JArray elements, tail)
                         | None => None
                         end
                end
            end
          else if byte_is 34 c then
            match parseLiteral (S (length rest)) rest with
            | Some (s, tail) => Some (JString s, tail)
            | None => None
            end
          else parseScalar (c :: rest)
      end
  end
with parseElements (fuel depth : nat) (l : list Ascii.ascii) {struct fuel} : option (list JSON * list Ascii.ascii) :=
  match fuel with
  | O => None
  | S fuel =>
      match parseValue fuel depth l with
      | None => None
      | Some (v, rest) =>
          match skipSpace rest with
          | [] => None
          | c :: tail =>
              if byte_is 93 c then Some ([v], tail)
              else if byte_is 44 c then
                match parseElements fuel depth tail with
                | Some (vs, tail) => Some (v :: vs, tail)
                | None => None
                end
              else None
          end
      end
  end
with parseMembers (fuel depth : nat) (l : list Ascii.ascii) {struct fuel} : option (list (list Ascii.ascii * JSON) * list Ascii.ascii) :=
  match fuel with
  | O => None
  | S fuel =>
      match skipSpace l with
      | [] => None
      | q :: rest =>
          if byte_is 34 q then
            match parseLiteral (S (length rest)) rest with
            | None => None
            | Some (key, rest) =>
                match skipSpace rest with
                | [] => None
                | s :: rest =>
                    if byte_is 58 s then
                      match parseValue fuel depth rest with
                      | None => None
                      | Some (v, rest) =>
                          match skipSpace rest with
                          | [] => None
                          | c :: tail =>
                              if byte_is 125 c then Some ([(key, v)], tail)
                              else if byte_is 44 c then
                                match parseMembers fuel depth tail with
                                | Some (members, tail) => Some ((key, v) :: members, tail)
                                | None => None
                                end
                              else None
                          end
                      end
                    else None
                end
            end
          else None
      end
  end.

Definition maxNestingDepth : nat := N.to_nat 10000.

(** The first value of the text, as [Decoder.Decode] reads it, and what is left. *)
Definition decodeFirst (l : list Ascii.ascii) : option (JSON * list Ascii.ascii) :=
  parseValue (2 * S (length l)) maxNestingDepth l.

(** ** Encoder *)

Definition printString (s : list Ascii.ascii) : list Ascii.ascii :=
  [quoteByte] ++ escapeBytes (length s) s ++ [quoteByte].

(** [json.Marshal] on a value: no spaces, members in the order they are given. *)
Fixpoint print (v : JSON) : list Ascii.ascii :=
  match v with
  | JNull => bytes "null"
  | JBool b => if b then bytes "true" else bytes "false"
  | JNumber text => text
  | JString s => printString s
  | JArray vs => bytes "[" ++ joinWith [commaByte] (map print vs) ++ bytes "]"
  | JObject ms => bytes "{" ++ joinWith [commaByte] (map (fun m => printString m.1 ++ bytes ":" ++ print m.2) ms) ++ bytes "}"
  end.

Definition JInt (z : Z) : JSON := JNumber (bytes (Itoa z)).
Definition JText (s : string) : JSON := JString (bytes s).

(** ** Structs *)

(** [foldName]: letters up to case; the long s and the Kelvin sign are the only
    other characters whose case orbit holds a letter of the ASCII range. *)
Fixpoint foldName (l : list Ascii.ascii) : list Ascii.ascii :=
  match l with
  | [] => []
  | c :: rest =>
      if lowerAlpha c then Ascii.ascii_of_N (Ascii.N_of_ascii c - 32) :: foldName rest
      else match rest with
           | d :: rest' =>
               if byte_is 197 c && byte_is 191 d then Ascii.ascii_of_nat 83 :: foldName rest'
               else match rest' with
                    | e :: rest'' =>
                        if byte_is 226 c && byte_is 132 d && byte_is 170 e then Ascii.ascii_of_nat 75 :: foldName rest''
                        else c :: foldName rest
                    | [] => c :: foldName rest
                    end
           | [] => c :: foldName rest
           end
  end.

(** The field of a struct a member's name stands for. *)
Definition fieldFor (names : list string) (key : list Ascii.ascii) : option string :=
  match find (fun name => bytes name == key) names with
  | Some name => Some name
  | None => find (fun name => foldName (bytes name) == foldName key) names
  end.

(** [strconv.ParseInt(text, 10, 64)] on a JSON number. *)
Definition parseInt64 (text : list Ascii.ascii) : option Z :=
  let '(negative, ds) := match text with c :: rest => if hyphen c then (true, rest) else (false, text) | [] => (false, []) end in
  if forallb digit ds && (1 <=? length ds)%nat then
    let value := if negative : bool then - digitsValue ds else digitsValue ds in
    if (- 2 ^ 63 <=? value) && (value <? 2 ^ 63) then Some value else None
  else None.

(** Decoding into a field: [None] is a type error, [null] leaves the field. *)
Definition intoInt (old : Z) (v : JSON) : option Z :=
  match v with JNull => Some old | JNumber text => parseInt64 text | _ => None end.

Definition intoString (old : string) (v : JSON) : option string :=
  match v with JNull => Some old | JString s => Some (String.string_of_list_ascii s) | _ => None end.

Definition intoBool (old : bool) (v : JSON) : option bool :=
  match v with JNull => Some old | JBool b => Some b | _ => None end.

(** The members of an object into a struct, unknown members refused; every error is
    an error of the whole, whatever was decoded before it. *)
Fixpoint intoStruct {R} (names : list string) (store : string -> R -> JSON -> option R)
    (members : list (list Ascii.ascii * JSON)) (r : R) : option R :=
  match members with
  | [] => Some r
  | (key, v) :: rest =>
      match fieldFor names key with
      | None => None
      | Some name =>
          match store name r v with
          | Some r => intoStruct names store rest r
          | None => None
          end
      end
  end.

(** [Decode] of a strict decoder into a struct: [null] is accepted and changes
    nothing. *)
Definition intoRecord {R} (names : list string) (store : string -> R -> JSON -> option R) (r : R) (v : JSON) : option R :=
  match v with
  | JNull => Some r
  | JObject members => intoStruct names store members r
  | _ => None
  end.

(** Nothing but space is left. *)
Definition atEOF (l : list Ascii.ascii) : bool := skipSpace l == [].

(** ** Valid UTF-8 *)

Inductive utf8 : list Ascii.ascii -> Prop :=
| utf8_nil : utf8 []
| utf8_ascii c l : byte_in 0 127 c = true -> utf8 l -> utf8 (c :: l)
| utf8_rune n c l : byte_in 0 127 c = false -> runeLength (c :: l) = Some n -> utf8 (drop n (c :: l)) -> utf8 (c :: l).

Lemma utf8_of_ascii l : forallb (byte_in 0 127) l = true -> utf8 l.
Proof.
  induction l as [|c l IH]; simpl; [constructor|]. intros [Hc Hl]%andb_prop. apply utf8_ascii; auto.
Qed.

(** ** The literals of the encoder *)

Lemma literalStep_safe c tail : byte_in 0 127 c = true -> htmlSafe c = true -> byte_is 34 c = false /\ literalStep (c :: tail) = Some ([c], tail).
Proof. destruct c as [[] [] [] [] [] [] [] []]; intros H1 H2; try discriminate; split; reflexivity. Qed.

Lemma literalStep_escaped c tail :
  byte_in 0 127 c = true -> htmlSafe c = false ->
  exists d rest, escapedByte c ++ tail = d :: rest /\ byte_is 34 d = false /\ literalStep (escapedByte c ++ tail) = Some ([c], tail).
Proof.
  destruct c as [[] [] [] [] [] [] [] []]; intros H1 H2; try discriminate; do 2 eexists; (split; [reflexivity|split; reflexivity]).
Qed.

Lemma runeLength_take l n tail : runeLength l = Some n -> runeLength (take n l ++ tail) = Some n /\ drop n (take n l ++ tail) = tail /\ (2 <= n <= length l)%nat.
Proof.
  destruct l as [|a [|b l]]; [done..|]. unfold runeLength.
  destruct (byte_in 194 223 a && continuation b) eqn:E2.
  { intros [= <-]. simpl. rewrite E2. split_and!; [done..|lia|lia]. }
  destruct l as [|c l]; [done|]. destruct (_ && continuation c) eqn:E3.
  { intros [= <-]. cbn [take app drop]. rewrite E2, E3. split_and!; [done..|lia|simpl; lia]. }
  destruct l as [|d l]; [done|]. destruct (_ && continuation d) eqn:E4; [|done].
  intros [= <-]. cbn [take app drop]. rewrite E2, E3, E4. split_and!; [done..|lia|simpl; lia].
Qed.

Lemma byte_high c : byte_in 0 127 c = false -> byte_is 92 c = false /\ byte_in 0 31 c = false /\ byte_is 34 c = false.
Proof. destruct c as [[] [] [] [] [] [] [] []]; intros H; try discriminate; split_and!; reflexivity. Qed.

Lemma lineSeparator_literal c l n escape tail :
  runeLength (c :: l) = Some n -> lineSeparator (c :: l) = Some escape ->
  literalStep (backslashByte :: escape ++ tail) = Some (take n (c :: l), tail).
Proof.
  destruct l as [|b [|d l]]; [done..|]. unfold lineSeparator. intros Hn.
  destruct (byte_is 226 c && byte_is 128 b && byte_is 168 d) eqn:E.
  - apply andb_prop in E as [[E1 E2]%andb_prop E3]. intros [= <-].
    apply N.eqb_eq in E1, E2, E3.
    rewrite <-(Ascii.ascii_N_embedding c), <-(Ascii.ascii_N_embedding b), <-(Ascii.ascii_N_embedding d), E1, E2, E3 in Hn |- *.
    injection Hn as <-. reflexivity.
  - clear E. destruct (byte_is 226 c && byte_is 128 b && byte_is 169 d) eqn:E; [|done].
    apply andb_prop in E as [[E1 E2]%andb_prop E3]. intros [= <-].
    apply N.eqb_eq in E1, E2, E3.
    rewrite <-(Ascii.ascii_N_embedding c), <-(Ascii.ascii_N_embedding b), <-(Ascii.ascii_N_embedding d), E1, E2, E3 in Hn |- *.
    injection Hn as <-. reflexivity.
Qed.

Lemma literalStep_rune c l n tail :
  byte_in 0 127 c = false -> runeLength (c :: l) = Some n ->
  literalStep (take n (c :: l) ++ tail) = Some (take n (c :: l), tail) /\
  (exists rest, take n (c :: l) ++ tail = c :: rest).
Proof.
  intros Hc Hn. destruct (runeLength_take _ _ tail Hn) as (Hr & Hd & Hlen).
  destruct (byte_high c Hc) as (E1 & E2 & _).
  destruct n as [|n]; [lia|]. cbn [take] in *. split; [|by eexists].
  cbn [app] in *. unfold literalStep. rewrite E1, E2, Hc, Hr, Hd.
  change (c :: take n l ++ tail) with ((c :: take n l) ++ tail).
  rewrite take_app_le by (simpl; rewrite length_take; simpl in *; lia). cbn [take]. rewrite take_take, Nat.min_id. done.
Qed.

(** What the encoder writes for a character decodes to it. *)
Lemma literal_char c l fuel :
  utf8 (c :: l) ->
  exists n out, (1 <= n)%nat /\ utf8 (drop n (c :: l)) /\
    escapeBytes (S fuel) (c :: l) = out ++ escapeBytes fuel (drop n (c :: l)) /\
    forall tail, (exists d rest, out ++ tail = d :: rest /\ byte_is 34 d = false) /\
      literalStep (out ++ tail) = Some (take n (c :: l), tail).
Proof.
  inversion 1 as [|? ? Hc Hl|n ? ? Hc Hn Hl]; subst.
  - exists 1%nat. cbn [escapeBytes drop take]. rewrite Hc. destruct (htmlSafe c) eqn:Hs.
    + exists [c]. split_and!; [done..|]. intros tail. destruct (literalStep_safe c tail Hc Hs). split; [by do 2 eexists|done].
    + exists (escapedByte c). split_and!; [done..|]. intros tail.
      destruct (literalStep_escaped c tail Hc Hs) as (d & rest & E & Hq & Hstep). split; [by exists d, rest|done].
  - destruct (runeLength_take _ _ [] Hn) as (_ & _ & Hlen). destruct (byte_high c Hc) as (_ & _ & Hq).
    exists n. cbn [escapeBytes]. rewrite Hc, Hn. destruct (lineSeparator (c :: l)) as [escape|] eqn:Es.
    + exists (backslashByte :: escape). split_and!; [lia|done..|]. intros tail.
      split; [by do 2 eexists|]. by apply lineSeparator_literal.
    + exists (take n (c :: l)). split_and!; [lia|done..|]. intros tail.
      destruct (literalStep_rune c l n tail Hc Hn) as [Hstep [rest Hrest]]. split; [by exists c, rest|done].
Qed.

Lemma parseLiteral_escape l fuel tail k :
  utf8 l -> (length l <= fuel)%nat -> (length (escapeBytes fuel l) < k)%nat ->
  parseLiteral k (escapeBytes fuel l ++ quoteByte :: tail) = Some (l, tail).
Proof.
  revert l k. induction fuel as [|fuel IH]; intros l k Hl Hf Hk.
  - destruct l; [|simpl in *; lia]. destruct k; [simpl in *; lia|done].
  - destruct l as [|c l]; [destruct k; [simpl in *; lia|done]|].
    destruct (literal_char c l fuel Hl) as (n & out & Hn & Hl' & He & Hstep). rewrite He in *.
    destruct (Hstep (escapeBytes fuel (drop n (c :: l)) ++ quoteByte :: tail)) as [(d & rest & Ed & Hq) Hs].
    assert (Hout : (1 <= length out)%nat).
    { destruct (Hstep []) as [(d' & rest' & Ed' & _) _]. apply (f_equal length) in Ed'. rewrite app_nil_r in Ed'. simpl in Ed'. lia. }
    rewrite length_app in Hk. destruct k as [|k]; [lia|]. rewrite <-app_assoc. cbn [parseLiteral].
    rewrite Ed, Hq, <-Ed, Hs, IH; [|done|rewrite length_drop; simpl in *; lia|lia].
    by rewrite take_drop.
Qed.

Lemma parseLiteral_print s tail :
  utf8 s -> parseLiteral (S (length (escapeBytes (length s) s ++ quoteByte :: tail))) (escapeBytes (length s) s ++ quoteByte :: tail) = Some (s, tail).
Proof. intros Hs. apply parseLiteral_escape; [done..|]. rewrite length_app. lia. Qed.

(** ** The numbers of the encoder *)

Lemma digitRun_all ds tail :
  forallb digit ds = true -> match tail with c :: _ => digit c = false | [] => True end -> digitRun (ds ++ tail) = (ds, tail).
Proof.
  intros Hd Ht. induction ds as [|d ds IH]; simpl.
  - destruct tail as [|c tail]; [done|]. simpl. by rewrite Ht.
  - simpl in Hd. apply andb_prop in Hd as [-> Hd]. by rewrite IH.
Qed.

(** What may follow a value: not a byte that continues a number. *)
Definition delimited (tail : list Ascii.ascii) : Prop :=
  match tail with c :: _ => digit c = false /\ dot c = false /\ byte_is 69 c = false /\ byte_is 101 c = false | [] => True end.

Lemma fraction_exponent_none tail : delimited tail -> parseFraction tail = Some ([], tail) /\ parseExponent tail = Some ([], tail).
Proof. destruct tail as [|c tail]; [done|]. intros (_ & Hd & H1 & H2). unfold parseFraction, parseExponent. by rewrite Hd, H1, H2. Qed.

Lemma digit_not_hyphen d : digit d = true -> hyphen d = false.
Proof. by destruct d as [[] [] [] [] [] [] [] []]. Qed.

Lemma number_start c l : digit c = true \/ c = hyphenByte ->
  skipSpace (c :: l) = c :: l /\ byte_is 123 c = false /\ byte_is 91 c = false /\ byte_is 34 c = false /\
  parseScalar (c :: l) = parseNumber (c :: l).
Proof. intros [H| ->]; [destruct c as [[] [] [] [] [] [] [] []]; try discriminate H|]; split_and!; reflexivity. Qed.

Lemma digits1_all d ds tail : digit d = true -> forallb digit ds = true -> delimited tail -> digits1 ((d :: ds) ++ tail) = Some (d :: ds, tail).
Proof.
  intros H1 H2 Ht. unfold digits1. rewrite digitRun_all; [done|by rewrite <-H2; simpl; rewrite H1|]. destruct tail; [done|apply Ht].
Qed.

Lemma parseNumber_print z tail : delimited tail -> parseNumber (bytes (Itoa z) ++ tail) = Some (JInt z, tail).
Proof.
  intros Ht. destruct (fraction_exponent_none tail Ht) as [Hfr Hex]. unfold JInt, parseNumber.
  destruct (Itoa_digits z) as [[-> E]|(sign & d & ds & E & Hs & H1 & H2 & H3 & _)]; rewrite E.
  - simpl. by rewrite Hfr, Hex.
  - assert (Hint : parseInteger (d :: ds ++ tail) = Some (d :: ds, tail)).
    { unfold parseInteger. rewrite H2. by apply digits1_all. }
    destruct Hs as [[-> _]|[-> _]]; cbn -[parseInteger parseFraction parseExponent hyphen];
      [rewrite (digit_not_hyphen d H1)|change (hyphen hyphenByte) with true; cbv iota];
      by rewrite Hint, Hfr, Hex, !app_nil_r.
Qed.

Lemma Itoa_start z tail : exists c l, bytes (Itoa z) ++ tail = c :: l /\ (digit c = true \/ c = hyphenByte).
Proof.
  destruct (Itoa_digits z) as [[-> E]|(sign & d & ds & E & [[-> _]|[-> _]] & H1 & _)]; rewrite E; simpl; eauto 6.
Qed.

(** ** Values of the encoder *)

(** Strings are valid UTF-8, numbers are integers. *)
Fixpoint encodable (v : JSON) : Prop :=
  match v with
  | JNull | JBool _ => True
  | JNumber text => exists z, text = bytes (Itoa z)
  | JString s => utf8 s
  | JArray vs => foldr (fun v P => encodable v /\ P) True vs
  | JObject ms => foldr (fun m P => (utf8 m.1 /\ encodable m.2) /\ P) True ms
  end.

Fixpoint nesting (v : JSON) : nat :=
  match v with
  | JArray vs => S (foldr (fun v n => Nat.max (nesting v) n) 0%nat vs)
  | JObject ms => S (foldr (fun m n => Nat.max (nesting m.2) n) 0%nat ms)
  | _ => 0%nat
  end.

(** Induction on values, with the hypothesis for every element and member. *)
Lemma JSON_induction (P : JSON -> Prop) :
  P JNull -> (forall b, P (JBool b)) -> (forall text, P (JNumber text)) -> (forall s, P (JString s)) ->
  (forall vs, Forall P vs -> P (JArray vs)) -> (forall ms, Forall (fun m => P m.2) ms -> P (JObject ms)) ->
  forall v, P v.
Proof.
  intros H1 H2 H3 H4 H5 H6. fix IH 1. intros [|b|text|s|vs|ms]; [exact H1|apply H2|apply H3|apply H4|apply H5|apply H6].
  - induction vs as [|v vs IHvs]; constructor; [apply IH|exact IHvs].
  - induction ms as [|[k v] ms IHms]; constructor; [apply IH|exact IHms].
Qed.

(** The first byte of a value is not a space and does not close a bracket. *)
Definition opens (l : list Ascii.ascii) : Prop :=
  match l with c :: _ => jsonSpace c = false /\ byte_is 93 c = false /\ byte_is 125 c = false | [] => False end.

Lemma opens_space l : opens l -> skipSpace l = l.
Proof. destruct l as [|c l]; [done|]. intros [H _]. simpl. by rewrite H. Qed.

Lemma opens_cons l : opens l -> exists c rest, l = c :: rest /\ byte_is 93 c = false /\ byte_is 125 c = false.
Proof. destruct l as [|c l]; [done|]. intros (_ & H). eauto. Qed.

Lemma print_opens v tail : encodable v -> opens (print v ++ tail).
Proof.
  destruct v as [|[]|text|s|vs|ms]; simpl; try done. intros [z ->].
  destruct (Itoa_start z tail) as (c & l & -> & H). destruct H as [H| ->]; [|done].
  destruct c as [[] [] [] [] [] [] [] []]; try discriminate H; done.
Qed.

(** The value decodes, whatever follows it. *)
Definition decodes (v : JSON) : Prop :=
  forall fuel depth tail, (nesting v <= depth)%nat -> (2 * length (print v) < fuel)%nat -> delimited tail ->
    parseValue fuel depth (print v ++ tail) = Some (v, tail).

Lemma parseElements_print vs : vs <> [] -> Forall (fun v => encodable v /\ decodes v) vs ->
  forall fuel depth tail, Forall (fun v => (nesting v <= depth)%nat) vs ->
    (2 * length (joinWith [commaByte] (map print vs)) + 1 < fuel)%nat ->
    parseElements fuel depth (joinWith [commaByte] (map print vs) ++ bytes "]" ++ tail) = Some (vs, tail).
Proof.
  intros Hne H. induction H as [|v vs [He Hv] Hvs IH]; [done|]. intros fuel depth tail Hd Hf.
  inversion Hd as [|? ? Hdv Hdvs]; subst. destruct fuel as [|fuel]; [lia|].
  destruct vs as [|w vs]; cbn [map joinWith] in *.
  - cbn [parseElements]. rewrite Hv; [done|done|lia|done].
  - rewrite !length_app in Hf. cbn [length] in Hf. rewrite <-!app_assoc. cbn [parseElements].
    rewrite Hv; [|done|lia|done].
    change (skipSpace ([commaByte] ++ ?l)) with ([commaByte] ++ l). cbn [app].
    change (byte_is 93 commaByte) with false. change (byte_is 44 commaByte) with true. cbv iota.
    rewrite IH; [done|done|done|lia].
Qed.

Lemma parseMembers_print ms : ms <> [] -> Forall (fun m => (utf8 m.1 /\ encodable m.2) /\ decodes m.2) ms ->
  forall fuel depth tail, Forall (fun m => (nesting m.2 <= depth)%nat) ms ->
    (2 * length (joinWith [commaByte] (map (fun m => printString m.1 ++ bytes ":" ++ print m.2) ms)) + 1 < fuel)%nat ->
    parseMembers fuel depth (joinWith [commaByte] (map (fun m => printString m.1 ++ bytes ":" ++ print m.2) ms) ++ bytes "}" ++ tail) = Some (ms, tail).
Proof.
  intros Hne H. induction H as [|[k v] ms [[Hk He] Hv] Hms IH]; [done|]. intros fuel depth tail Hd Hf.
  inversion Hd as [|? ? Hdv Hdms]; subst. destruct fuel as [|fuel]; [lia|]. simpl in He, Hv, Hk, Hdv.
  assert (Hmember : forall rest, (2 * length (print v) < fuel)%nat -> delimited rest ->
    parseMembers (S fuel) depth ((printString k ++ bytes ":" ++ print v) ++ rest) =
    match skipSpace rest with
    | [] => None
    | c :: tail => if byte_is 125 c then Some ([(k, v)], tail)
                   else if byte_is 44 c then match parseMembers fuel depth tail with Some (members, tail) => Some ((k, v) :: members, tail) | None => None end
                   else None
    end).
  { intros rest Hlen Hrest. unfold printString. rewrite <-!app_assoc. cbn [app bytes String.list_ascii_of_string].
    cbn [parseMembers]. change (skipSpace (quoteByte :: ?l)) with (quoteByte :: l). cbv iota. change (byte_is 34 quoteByte) with true. cbv iota.
    rewrite parseLiteral_print by done. change (skipSpace (?c :: ?l)) with (c :: l). cbv iota.
    change (byte_is 58 _) with true. cbv iota. by rewrite Hv. }
  destruct ms as [|m ms]; cbn [map joinWith fst snd] in *.
  - rewrite Hmember; [done| |done]. rewrite !length_app in Hf. lia.
  - rewrite <-(app_assoc _ _ (bytes "}" ++ tail)). rewrite !length_app in Hf. cbn [length] in Hf. rewrite Hmember; [|lia|done].
    rewrite <-app_assoc. change (skipSpace ([commaByte] ++ ?l)) with ([commaByte] ++ l). cbn [app].
    change (byte_is 125 commaByte) with false. change (byte_is 44 commaByte) with true. cbv iota.
    rewrite IH; [done|done|done|lia].
Qed.

Lemma foldr_max_bound {A} (f : A -> nat) l depth :
  (foldr (fun a n => Nat.max (f a) n) 0%nat l <= depth)%nat -> Forall (fun a => (f a <= depth)%nat) l.
Proof. induction l as [|a l IH]; simpl; constructor; [lia|apply IH; lia]. Qed.

Lemma foldr_and {A} (P : A -> Prop) l : foldr (fun a Q => P a /\ Q) True l <-> Forall P l.
Proof. induction l as [|a l IH]; simpl; [split; [constructor|done]|]. rewrite IH. split; [intros [H1 H2]; by constructor|by inversion 1]. Qed.

Lemma opens_join (f : JSON -> list Ascii.ascii) v vs tail :
  (forall rest, opens (f v ++ rest)) -> opens (joinWith [commaByte] (map f (v :: vs)) ++ tail).
Proof. intros H. destruct vs; cbn [map joinWith]; [apply H|]. rewrite <-app_assoc. apply H. Qed.

(** Decoding what the encoder writes gives the value back. *)
Lemma parse_print v : encodable v -> decodes v.
Proof.
  induction v as [|[]|text|s|vs IH|ms IH] using JSON_induction; intros He fuel depth tail Hd Hf Ht; simpl in He;
    (destruct fuel as [|fuel]; [lia|]).
  - reflexivity.
  - reflexivity.
  - reflexivity.
  - destruct He as [z ->]. cbn [print]. pose proof (parseNumber_print z tail Ht) as Hp.
    destruct (Itoa_start z tail) as (c & l & E & Hc). rewrite E in *.
    destruct (number_start c l Hc) as (E1 & E2 & E3 & E4 & E5). cbn [parseValue]. by rewrite E1, E2, E3, E4, E5.
  - cbn [print]. unfold printString. rewrite <-!app_assoc. cbn [app parseValue].
    change (skipSpace (quoteByte :: ?l)) with (quoteByte :: l). cbv iota.
    change (byte_is _ quoteByte) with false at 1 2. change (byte_is 34 quoteByte) with true. cbv iota. by rewrite parseLiteral_print.
  - cbn [print nesting] in *. apply foldr_and in He. destruct depth as [|depth]; [lia|].
    apply le_S_n, foldr_max_bound in Hd. destruct vs as [|v vs]; [reflexivity|]. rewrite !length_app in Hf.
    assert (Hall : Forall (fun v => encodable v /\ decodes v) (v :: vs)).
    { apply Forall_and. split; [done|]. rewrite Forall_forall in IH, He |- *. auto. }
    assert (Hp := parseElements_print (v :: vs) ltac:(done) Hall fuel depth tail Hd ltac:(simpl in Hf |- *; lia)).
    rewrite <-!app_assoc. set (text := joinWith _ _ ++ _) in *.
    assert (Ho : opens text) by (apply opens_join; intros rest; apply print_opens; by inversion He).
    destruct (opens_cons text Ho) as (c & l & E & Hc & _). cbn [parseValue app bytes String.list_ascii_of_string].
    change (skipSpace (?c :: text)) with (c :: text). cbv iota.
    rewrite (opens_space text Ho). rewrite E in *. cbn -[parseElements]. by rewrite Hc, Hp.
  - cbn [print nesting] in *. apply foldr_and in He. destruct depth as [|depth]; [lia|].
    apply le_S_n, (foldr_max_bound (fun m => nesting m.2)) in Hd. destruct ms as [|m ms]; [reflexivity|]. rewrite !length_app in Hf.
    assert (Hall : Forall (fun m => (utf8 m.1 /\ encodable m.2) /\ decodes m.2) (m :: ms)).
    { apply Forall_and. split; [done|]. rewrite Forall_forall in IH, He |- *. intros x Hx. apply IH; [done|apply He, Hx]. }
    assert (Hp := parseMembers_print (m :: ms) ltac:(done) Hall fuel depth tail Hd ltac:(simpl in Hf |- *; lia)).
    rewrite <-!app_assoc. set (text := joinWith _ _ ++ _) in *.
    assert (E : exists l, text = quoteByte :: l) by (unfold text; destruct ms; cbn [map joinWith]; by eexists).
    destruct E as [l E]. rewrite E in *. cbn [parseValue app bytes String.list_ascii_of_string].
    change (skipSpace (?c :: quoteByte :: l)) with (c :: quoteByte :: l). cbv iota.
    change (byte_is 123 _) with true. change (skipSpace (quoteByte :: l)) with (quoteByte :: l). cbv iota.
    change (byte_is 125 quoteByte) with false. cbv iota. by rewrite Hp.
Qed.

(** ** Fuel *)

(** A parser leaves less than it was given. *)
Definition shrinks {A} (parse : list Ascii.ascii -> option (A * list Ascii.ascii)) : Prop :=
  forall l a tail, parse l = Some (a, tail) -> (length tail < length l)%nat.

Lemma skipSpace_length l : (length (skipSpace l) <= length l)%nat.
Proof. induction l as [|c l IH]; simpl; [done|]. destruct (jsonSpace c); simpl; lia. Qed.

Lemma skipSpace_cons_length l c rest : skipSpace l = c :: rest -> (length rest < length l)%nat.
Proof. intros E. pose proof (skipSpace_length l). rewrite E in *. simpl in *. lia. Qed.

Lemma getu4_shrinks : shrinks getu4.
Proof.
  intros [|a [|b [|c [|d l]]]] r tail; simpl; try done.
  destruct (hexNibble a), (hexNibble b), (hexNibble c), (hexNibble d); intros [= <- <-]; lia.
Qed.

Lemma unicodeEscape_shrinks : shrinks unicodeEscape.
Proof.
  intros l r tail. unfold unicodeEscape. destruct (getu4 l) as [[high rest]|] eqn:E; [|done]. apply getu4_shrinks in E.
  destruct (surrogate high); [|by intros [= <- <-]].
  destruct rest as [|b [|u rest]]; [by intros [= <- <-]..|]. destruct (_ && _); [|by intros [= <- <-]].
  destruct (getu4 rest) as [[low rest']|] eqn:E'; [|by intros [= <- <-]]. apply getu4_shrinks in E'.
  destruct (pairRune high low); intros [= <- <-]; simpl in *; lia.
Qed.

Lemma literalStep_shrinks : shrinks literalStep.
Proof.
  intros [|c l] out tail; [done|]. unfold literalStep. destruct (byte_is 92 c).
  - destruct l as [|e l]; [done|]. destruct (byte_is 117 e).
    + destruct (unicodeEscape l) as [[r rest]|] eqn:E; [|done]. apply unicodeEscape_shrinks in E. intros [= <- <-]. simpl. lia.
    + destruct (simpleEscape e); intros [= <- <-]. simpl. lia.
  - destruct (byte_in 0 31 c); [done|]. destruct (byte_in 0 127 c); [intros [= <- <-]; simpl; lia|].
    destruct (runeLength (c :: l)) as [n|] eqn:E; intros [= <- <-]; [|simpl; lia].
    destruct (runeLength_take _ _ [] E) as (_ & _ & Hn). rewrite length_drop. simpl in *. lia.
Qed.

Lemma parseLiteral_shrinks fuel : shrinks (parseLiteral fuel).
Proof.
  induction fuel as [|fuel IH]; intros [|c l] s tail; cbn [parseLiteral]; try done. destruct (byte_is 34 c); [intros [= <- <-]; simpl; lia|].
  destruct (literalStep (c :: l)) as [[out rest]|] eqn:E; [|done]. apply literalStep_shrinks in E.
  destruct (parseLiteral fuel rest) as [[s' rest']|] eqn:E'; [|done]. apply IH in E'. intros [= <- <-]. simpl in *. lia.
Qed.

Lemma parseLiteral_fuel n m l : (length l < n <= m)%nat -> parseLiteral m l = parseLiteral n l.
Proof.
  revert m l. induction n as [|n IH]; intros [|m] [|c l] H; cbn [parseLiteral length] in *; try lia; [done|].
  destruct (byte_is 34 c); [done|]. destruct (literalStep (c :: l)) as [[out rest]|] eqn:E; [|done].
  apply literalStep_shrinks in E. rewrite IH; [done|simpl in *; lia].
Qed.

Lemma digitRun_length l ds tail : digitRun l = (ds, tail) -> (length tail + length ds = length l)%nat.
Proof.
  revert ds. induction l as [|c l IH]; simpl; intros ds; [by intros [= <- <-]|].
  destruct (digit c); [|by intros [= <- <-]]. destruct (digitRun l) as [ds' tail'] eqn:E. intros [= <- <-].
  specialize (IH _ eq_refl). simpl. lia.
Qed.

Lemma digits1_shrinks : shrinks digits1.
Proof.
  intros l ds tail. unfold digits1. destruct (digitRun l) as [ds' tail'] eqn:E. apply digitRun_length in E.
  destruct ds'; [done|]. intros [= <- <-]. simpl in E. lia.
Qed.

Lemma parseInteger_shrinks : shrinks parseInteger.
Proof. intros [|c l] ds tail; [done|]. unfold parseInteger. destruct (byte_is 48 c); [intros [= <- <-]; simpl; lia|apply digits1_shrinks]. Qed.

Lemma parseFraction_length l ds tail : parseFraction l = Some (ds, tail) -> (length tail <= length l)%nat.
Proof.
  destruct l as [|c l]; simpl; [by intros [= <- <-]|]. destruct (dot c); [|by intros [= <- <-]].
  destruct (digits1 l) as [[? ?]|] eqn:E; [|done]. apply digits1_shrinks in E. intros [= <- <-]. lia.
Qed.

Lemma parseExponent_length l ds tail : parseExponent l = Some (ds, tail) -> (length tail <= length l)%nat.
Proof.
  destruct l as [|e l]; cbn [parseExponent]; [by intros [= <- <-]|]. destruct (byte_is 69 e || byte_is 101 e); [|by intros [= <- <-]].
  destruct l as [|sign l]; [done|]. destruct (byte_is 43 sign || byte_is 45 sign).
  - destruct (digits1 l) as [[? ?]|] eqn:E; [|done]. apply digits1_shrinks in E. intros [= <- <-]. simpl. lia.
  - destruct (digits1 (sign :: l)) as [[? ?]|] eqn:E; [|done]. apply digits1_shrinks in E. intros [= <- <-]. simpl in *. lia.
Qed.

Lemma parseNumber_shrinks : shrinks parseNumber.
Proof.
  intros l v tail. unfold parseNumber.
  set (signed := match l with c :: rest => if hyphen c then ([c], rest) else ([], l) | [] => ([], []) end).
  assert (Hs : (length signed.2 <= length l)%nat) by (destruct l as [|c l']; simpl; [done|]; destruct (hyphen c); simpl; lia).
  destruct signed as [sign l1]. simpl in Hs.
  destruct (parseInteger l1) as [[whole l2]|] eqn:E1; [|done]. apply parseInteger_shrinks in E1.
  destruct (parseFraction l2) as [[fraction l3]|] eqn:E2; [|done]. apply parseFraction_length in E2.
  destruct (parseExponent l3) as [[exponent l4]|] eqn:E3; [|done]. apply parseExponent_length in E3.
  intros [= <- <-]. lia.
Qed.

Lemma hasPrefixBytes_length p l : hasPrefixBytes p l = true -> (length p <= length l)%nat.
Proof.
  revert l. induction p as [|a p IH]; intros [|b l]; simpl; try done; try lia. intros [_ H]%andb_prop. apply IH in H. lia.
Qed.

Lemma parseScalar_shrinks : shrinks parseScalar.
Proof.
  intros l v tail. unfold parseScalar.
  destruct (hasPrefixBytes (bytes "true") l) eqn:E1.
  { apply hasPrefixBytes_length in E1. intros [= <- <-]. rewrite length_drop. simpl in *. lia. }
  destruct (hasPrefixBytes (bytes "false") l) eqn:E2.
  { apply hasPrefixBytes_length in E2. intros [= <- <-]. rewrite length_drop. simpl in *. lia. }
  destruct (hasPrefixBytes (bytes "null") l) eqn:E3; [|apply parseNumber_shrinks].
  apply hasPrefixBytes_length in E3. intros [= <- <-]. rewrite length_drop. simpl in *. lia.
Qed.

Lemma parse_shrinks fuel :
  (forall depth, shrinks (parseValue fuel depth)) /\ (forall depth, shrinks (parseElements fuel depth)) /\
  (forall depth, shrinks (parseMembers fuel depth)).
Proof.
  induction fuel as [|fuel (IHv & IHe & IHm)]; [split_and!; intros depth l a tail; done|].
  split_and!; intros depth l a tail; cbn [parseValue parseElements parseMembers].
  - destruct (skipSpace l) as [|c rest] eqn:Es; [done|]. pose proof (skipSpace_cons_length _ _ _ Es) as Hs.
    destruct (byte_is 123 c); [|destruct (byte_is 91 c); [|destruct (byte_is 34 c)]].
    + destruct depth as [|depth]; [done|]. destruct (skipSpace rest) as [|d rest'] eqn:Er; [done|].
      pose proof (skipSpace_cons_length _ _ _ Er). destruct (byte_is 125 d); [intros [= <- <-]; lia|].
      destruct (parseMembers _ _ _) as [[ms t]|] eqn:E; [|done]. apply IHm in E. intros [= <- <-]. simpl in E. lia.
    + destruct depth as [|depth]; [done|]. destruct (skipSpace rest) as [|d rest'] eqn:Er; [done|].
      pose proof (skipSpace_cons_length _ _ _ Er). destruct (byte_is 93 d); [intros [= <- <-]; lia|].
      destruct (parseElements _ _ _) as [[vs t]|] eqn:E; [|done]. apply IHe in E. intros [= <- <-]. simpl in E. lia.
    + destruct (parseLiteral _ rest) as [[s t]|] eqn:E; [|done]. apply parseLiteral_shrinks in E. intros [= <- <-]. lia.
    + intros E. apply parseScalar_shrinks in E. simpl in E. lia.
  - destruct (parseValue fuel depth l) as [[v rest]|] eqn:E; [|done]. apply IHv in E.
    destruct (skipSpace rest) as [|c t] eqn:Es; [done|]. pose proof (skipSpace_cons_length _ _ _ Es).
    destruct (byte_is 93 c); [intros [= <- <-]; lia|]. destruct (byte_is 44 c); [|done].
    destruct (parseElements fuel depth t) as [[vs t']|] eqn:E'; [|done]. apply IHe in E'. intros [= <- <-]. lia.
  - destruct (skipSpace l) as [|q rest] eqn:Es; [done|]. pose proof (skipSpace_cons_length _ _ _ Es).
    destruct (byte_is 34 q); [|done]. destruct (parseLiteral _ rest) as [[k r1]|] eqn:E1; [|done]. apply parseLiteral_shrinks in E1.
    destruct (skipSpace r1) as [|s r2] eqn:E2; [done|]. pose proof (skipSpace_cons_length _ _ _ E2). destruct (byte_is 58 s); [|done].
    destruct (parseValue fuel depth r2) as [[v r3]|] eqn:E3; [|done]. apply IHv in E3.
    destruct (skipSpace r3) as [|c r4] eqn:E4; [done|]. pose proof (skipSpace_cons_length _ _ _ E4).
    destruct (byte_is 125 c); [intros [= <- <-]; lia|]. destruct (byte_is 44 c); [|done].
    destruct (parseMembers fuel depth r4) as [[ms t]|] eqn:E5; [|done]. apply IHm in E5. intros [= <- <-]. lia.
Qed.

(** More fuel than twice the number of bytes changes nothing. *)
Lemma parse_fuel n :
  (forall m depth l, (2 * length l < n <= m)%nat -> parseValue m depth l = parseValue n depth l) /\
  (forall m depth l, (2 * length l + 1 < n <= m)%nat -> parseElements m depth l = parseElements n depth l) /\
  (forall m depth l, (2 * length l + 1 < n <= m)%nat -> parseMembers m depth l = parseMembers n depth l).
Proof.
  induction n as [|n (IHv & IHe & IHm)]; [split_and!; intros; lia|].
  split_and!; intros [|m] depth l H; try lia; cbn [parseValue parseElements parseMembers].
  - destruct (skipSpace l) as [|c rest] eqn:Es; [done|]. pose proof (skipSpace_cons_length _ _ _ Es) as Hs.
    destruct (byte_is 123 c); [|destruct (byte_is 91 c); [|done]]; (destruct depth as [|depth]; [done|]);
      (destruct (skipSpace rest) as [|d rest'] eqn:Er; [done|]); pose proof (skipSpace_cons_length _ _ _ Er).
    + rewrite IHm; [done|simpl; lia].
    + rewrite IHe; [done|simpl; lia].
  - rewrite IHv by lia. destruct (parseValue n depth l) as [[v rest]|] eqn:E; [|done]. apply (proj1 (parse_shrinks n)) in E.
    destruct (skipSpace rest) as [|c t] eqn:Es; [done|]. pose proof (skipSpace_cons_length _ _ _ Es). by rewrite IHe by lia.
  - destruct (skipSpace l) as [|q rest] eqn:Es; [done|]. pose proof (skipSpace_cons_length _ _ _ Es).
    destruct (byte_is 34 q); [|done]. destruct (parseLiteral _ rest) as [[k r1]|] eqn:E1; [|done]. apply parseLiteral_shrinks in E1.
    destruct (skipSpace r1) as [|s r2] eqn:E2; [done|]. pose proof (skipSpace_cons_length _ _ _ E2). destruct (byte_is 58 s); [|done].
    rewrite IHv by lia. destruct (parseValue n depth r2) as [[v r3]|] eqn:E3; [|done]. apply (proj1 (parse_shrinks n)) in E3.
    destruct (skipSpace r3) as [|c r4] eqn:E4; [done|]. pose proof (skipSpace_cons_length _ _ _ E4). by rewrite IHm by lia.
Qed.

Lemma decodeFirst_fuel l m : (2 * length l < m)%nat -> parseValue m maxNestingDepth l = decodeFirst l.
Proof.
  intros H. unfold decodeFirst. destruct (parse_fuel (S (2 * length l))) as (Hv & _ & _).
  rewrite (Hv m), (Hv (2 * S (length l))%nat) by lia. done.
Qed.

(** The encoder's text, as a whole document. *)
Lemma decodeFirst_print v : encodable v -> (nesting v <= maxNestingDepth)%nat -> decodeFirst (print v) = Some (v, []).
Proof.
  intros He Hn. unfold decodeFirst. pose proof (parse_print v He (2 * S (length (print v)))%nat maxNestingDepth []) as H.
  rewrite app_nil_r in H. apply H; [done|lia|done].
Qed.
