(* ===== verification/OpTypes.v ===== *)
(** * The AgentRun resource (operator/api/v1alpha1, internal/naming,
      internal/controller/errors.go, internal/controller/validation.go)

    The custom resource the operator reconciles, the names of the objects it
    creates for an attempt, the classification of API errors, and the validation
    of desired state. The failure categories are the strings of the platform's
    domain model, so its type is used. *)

From S2P Require Import Prelude AgentRun Policy Cluster Events.

(** ** api/v1alpha1 *)

Inductive DesiredState := DesiredStateRunning | DesiredStateCancelled | DesiredStateOther (s : string).

#[export] Instance DesiredState_eq_dec : EqDecision DesiredState.
Proof. solve_decision. Defined.

Inductive NetworkProfile := NetworkProfileIsolated | NetworkProfileRestrictedEgress | NetworkProfileOther (s : string).

#[export] Instance NetworkProfile_eq_dec : EqDecision NetworkProfile.
Proof. solve_decision. Defined.

Inductive WorkspaceRetentionPolicy := WorkspaceRetentionDelete | WorkspaceRetentionRetain | WorkspaceRetentionOther (s : string).

#[export] Instance WorkspaceRetentionPolicy_eq_dec : EqDecision WorkspaceRetentionPolicy.
Proof. solve_decision. Defined.

(** The empty phase is a status that was never written. *)
Inductive AgentRunPhase :=
| PhaseUnset
| PhasePending
| PhaseProvisioning
| PhaseRunning
| PhaseSucceeded
| PhaseFailed
| PhaseCancelling
| PhaseCancelled.

#[export] Instance AgentRunPhase_eq_dec : EqDecision AgentRunPhase.
Proof. solve_decision. Defined.

Record RetryPolicy := {
  rp_MaxAttempts : Z;
  rp_InitialBackoffSeconds : Z;
  rp_MaxBackoffSeconds : Z;
  rp_RetryableFailureCategories : list FailureCategory;
}.

Record ResourceValues := {
  rv_CPUMillis : Z;
  rv_MemoryMiB : Z;
}.

Record ResourceRequirements := {
  rq_Requests : ResourceValues;
  rq_Limits : ResourceValues;
}.

Record WorkspaceSpec := {
  wk_SizeGiB : Z;
  wk_StorageClassName : string;
  wk_RetentionPolicy : WorkspaceRetentionPolicy;
}.

Record NetworkSpec := {
  nw_Profile : NetworkProfile;
  nw_AllowedDestinationsRef : option string;
}.

(** References to objects of the namespace are their names. *)
Record AgentRunSpec := {
  sp_TenantID : string;
  sp_ProjectID : string;
  sp_RunID : string;
  sp_AttemptID : string;
  sp_Attempt : Z;
  sp_RunnerImage : string;
  sp_Runtime : string;
  sp_ExecutionProfile : string;
  sp_TaskRef : string;
  sp_TimeoutSeconds : Z;
  sp_RetryPolicy : RetryPolicy;
  sp_Resources : ResourceRequirements;
  sp_Workspace : WorkspaceSpec;
  sp_Network : NetworkSpec;
  sp_ArtifactDestinationRef : string;
  sp_ConfigurationRefs : list string;
  sp_SecretRefs : list string;
  sp_DeployOnSuccess : bool;
  sp_DesiredState : DesiredState;
}.

Record AttemptStatus := {
  as_Attempt : Z;
  as_JobName : string;
  as_PodName : string;
  as_Phase : AgentRunPhase;
  as_StartTime : option Time;
  as_CompletionTime : option Time;
  as_FailureCategory : FailureCategory;
  as_FailureReason : string;
  as_ArtifactManifestRef : string;
}.

#[export] Instance AttemptStatus_eq_dec : EqDecision AttemptStatus.
Proof. solve_decision. Defined.

Inductive ConditionStatus := ConditionTrue | ConditionFalse | ConditionUnknown.

#[export] Instance ConditionStatus_eq_dec : EqDecision ConditionStatus.
Proof. solve_decision. Defined.

(** [metav1.Condition] *)
Record Condition := {
  cn_Type : string;
  cn_Status : ConditionStatus;
  cn_ObservedGeneration : Z;
  cn_LastTransitionTime : Time;
  cn_Reason : string;
  cn_Message : string;
}.

#[export] Instance Condition_eq_dec : EqDecision Condition.
Proof. solve_decision. Defined.

Record AgentRunResourceStatus := {
  ss_Phase : AgentRunPhase;
  ss_ObservedGeneration : Z;
  ss_Attempt : Z;
  ss_Namespace : string;
  ss_JobName : string;
  ss_PodName : string;
  ss_StartTime : option Time;
  ss_CompletionTime : option Time;
  ss_HeartbeatTime : option Time;
  ss_FailureCategory : FailureCategory;
  ss_FailureReason : string;
  ss_ArtifactManifestRef : string;
  ss_Attempts : list AttemptStatus;
  ss_Conditions : list Condition;
}.

#[export] Instance AgentRunResourceStatus_eq_dec : EqDecision AgentRunResourceStatus.
Proof. solve_decision. Defined.

#[export] Instance AgentRunResourceStatus_settable : Settable AgentRunResourceStatus := fun s =>
  Build_AgentRunResourceStatus (ss_Phase s) (ss_ObservedGeneration s) (ss_Attempt s) (ss_Namespace s) (ss_JobName s)
    (ss_PodName s) (ss_StartTime s) (ss_CompletionTime s) (ss_HeartbeatTime s) (ss_FailureCategory s) (ss_FailureReason s)
    (ss_ArtifactManifestRef s) (ss_Attempts s) (ss_Conditions s).

(** The resource: the metadata the operator reads, the spec and the status. *)
Record AgentRunResource := {
  kr_Name : string;
  kr_Namespace : string;
  kr_UID : string;
  kr_Generation : Z;
  kr_DeletionTimestamp : option Time;
  kr_Finalizers : list string;
  kr_Spec : AgentRunSpec;
  kr_Status : AgentRunResourceStatus;
}.

#[export] Instance AgentRunResource_settable : Settable AgentRunResource := fun r =>
  Build_AgentRunResource (kr_Name r) (kr_Namespace r) (kr_UID r) (kr_Generation r) (kr_DeletionTimestamp r)
    (kr_Finalizers r) (kr_Spec r) (kr_Status r).

(** The byte at an index, as the source reads it. *)
Definition byteAt (l : list Ascii.ascii) (i : nat) (code : N) : bool :=
  match l !! i with Some c => byte_is code c | None => false end.

Definition variantByte (c : Ascii.ascii) : bool := byte_in 56 57 c || byte_in 97 98 c.

(** The pattern the resource's schema puts on identifiers. *)
Definition UUIDv7 (value : string) : bool :=
  let l := bytes value in
  (len value =? 36) && forallb lowerHex (take 8 l) && byteAt l 8 45 && forallb lowerHex (take 4 (drop 9 l)) && byteAt l 13 45
  && byteAt l 14 55 && forallb lowerHex (take 3 (drop 15 l)) && byteAt l 18 45
  && match l !! 19%nat with Some c => variantByte c | None => false end
  && forallb lowerHex (take 3 (drop 20 l)) && byteAt l 23 45 && forallb lowerHex (drop 24 l).

(** ** internal/naming *)

Record ResourceNames := {
  rn_ServiceAccount : string;
  rn_Configuration : string;
  rn_Workspace : string;
  rn_NetworkPolicy : string;
  rn_Job : string;
}.

Definition CurrentAttempt (run : AgentRunResource) : Z :=
  if sp_Attempt (kr_Spec run) <=? ss_Attempt (kr_Status run) then ss_Attempt (kr_Status run) else sp_Attempt (kr_Spec run).

(** [strings.ReplaceAll(value, "-", "")] *)
Definition withoutHyphens (value : string) : string :=
  String.string_of_list_ascii (filter (fun c => c <> hyphenByte) (bytes value)).

Definition isLowerHex (value : string) : bool := forallb lowerHex (bytes value).

Definition IsUUIDv7 (value : string) : bool :=
  let l := bytes value in
  (len value =? 36) && byteAt l 8 45 && byteAt l 13 45 && byteAt l 18 45 && byteAt l 23 45 && byteAt l 14 55
  && match l !! 19%nat with Some c => variantByte c | None => false end
  && isLowerHex (withoutHyphens value).

Definition baseName (runID : string) (attempt : Z) : string :=
  "ar-" +:+ withoutHyphens runID +:+ "-a" +:+ Itoa attempt.

Definition ForAgentRun (run : AgentRunResource) : res ResourceNames :=
  _ ← failIf (negb (IsUUIDv7 (sp_RunID (kr_Spec run)))) (ErrPlain "invalid immutable run identity");
  let attempt := CurrentAttempt run in
  _ ← failIf ((attempt <? 1) || (rp_MaxAttempts (sp_RetryPolicy (kr_Spec run)) <? attempt) || (10 <? attempt))
      (ErrPlain "invalid current attempt");
  let base := baseName (sp_RunID (kr_Spec run)) attempt in
  Ok {| rn_ServiceAccount := base +:+ "-sa"; rn_Configuration := base +:+ "-config"; rn_Workspace := base +:+ "-workspace";
        rn_NetworkPolicy := base +:+ "-network"; rn_Job := base +:+ "-job" |}.

(** ** errors.go *)

Inductive ErrorClass := ErrorClassTransient | ErrorClassPermanent.

#[export] Instance ErrorClass_eq_dec : EqDecision ErrorClass.
Proof. solve_decision. Defined.

(** What the API machinery's predicates say of an error. *)
Inductive APIError :=
| APIConflict | APIServerTimeout | APITimeout | APITooManyRequests | APIServiceUnavailable
| APIInvalid | APIBadRequest | APIForbidden | APIUnauthorized | APIMethodNotSupported
| APINotFound
| APIOther.

#[export] Instance APIError_eq_dec : EqDecision APIError.
Proof. solve_decision. Defined.

Record ReconcileError := {
  rc_Class : ErrorClass;
  rc_Reason : string;
}.

Definition newReconcileError (class : ErrorClass) (reason : string) : ReconcileError :=
  {| rc_Class := class; rc_Reason := reason |}.

Definition classifyAPIError (reason : string) (err : APIError) : ReconcileError :=
  match err with
  | APIConflict | APIServerTimeout | APITimeout | APITooManyRequests | APIServiceUnavailable =>
      newReconcileError ErrorClassTransient reason
  | APIInvalid | APIBadRequest | APIForbidden | APIUnauthorized | APIMethodNotSupported =>
      newReconcileError ErrorClassPermanent reason
  | APINotFound | APIOther => newReconcileError ErrorClassTransient reason
  end.

(** ** validation.go *)

(** [net/url]: scheme, host and opaque part of a reference that parses. *)
Class URLParts := { urlParse : string -> option (string * string * string) }.

Definition asciiSpace (c : Ascii.ascii) : bool := byte_is 32 c || byte_is 9 c || byte_is 13 c || byte_is 10 c.

(** The last index of a substring. *)
Fixpoint lastIndex (l sub : list Ascii.ascii) : option nat :=
  match l with
  | [] => match sub with [] => Some 0%nat | _ => None end
  | c :: rest =>
      match lastIndex rest sub with
      | Some i => Some (S i)
      | None => if hasPrefixBytes sub l then Some 0%nat else None
      end
  end.

Definition digestMark : list Ascii.ascii := bytes "@sha256:".

Definition isDigestImage (value : string) : bool :=
  match lastIndex (bytes value) digestMark with
  | None => false
  | Some separator =>
      (1 <=? separator)%nat && (Z.of_nat separator + 8 + 64 =? len value)
      && negb (existsb asciiSpace (take separator (bytes value))) && forallb lowerHex (drop (separator + 8) (bytes value))
  end.

Definition validateNetwork (network : NetworkSpec) : res unit :=
  match nw_Profile network, nw_AllowedDestinationsRef network with
  | NetworkProfileIsolated, Some _ => Err (ErrPlain "isolated network cannot include allowed destinations")
  | NetworkProfileIsolated, None => Ok tt
  | NetworkProfileRestrictedEgress, None => Err (ErrPlain "restricted egress requires an allowed destination reference")
  | NetworkProfileRestrictedEgress, Some _ => Ok tt
  | NetworkProfileOther _, _ => Err (ErrPlain "network profile is not supported")
  end.

Fixpoint validateIdentifiers (identifiers : list (string * string)) : res unit :=
  match identifiers with
  | [] => Ok tt
  | (name, value) :: rest =>
      if negb (IsUUIDv7 value) then Err (ErrPlain (name +:+ " must be a lowercase UUIDv7")) else validateIdentifiers rest
  end.

Section Validation.
Context `{URLParts}.

Definition isSecureReference (value : string) : bool :=
  if (2048 <? len value) || existsb asciiSpace (bytes value) then false
  else
    match urlParse value with
    | Some (scheme, host, opaque) =>
        (2 <=? len scheme) && forallb (fun c => negb (byte_in 65 90 c)) (bytes scheme)
        && ((host != EmptyString) || (opaque != EmptyString))
    | None => false
    end.

Definition validateAgentRun (run : AgentRunResource) : res unit :=
  let spec := kr_Spec run in
  _ ← failIf (kr_Generation run <? 1) (ErrPlain "metadata generation must be positive");
  _ ← validateIdentifiers [("tenantId", sp_TenantID spec); ("projectId", sp_ProjectID spec); ("runId", sp_RunID spec);
                          ("attemptId", sp_AttemptID spec)];
  _ ← failIf ((sp_Attempt spec <? 1) || (10 <? sp_Attempt spec) || (rp_MaxAttempts (sp_RetryPolicy spec) <? sp_Attempt spec))
      (ErrPlain "attempt must be within the retry ceiling");
  _ ← failIf (negb (isDigestImage (sp_RunnerImage spec))) (ErrPlain "runnerImage must use a sha256 digest");
  _ ← failIf (negb (isSecureReference (sp_TaskRef spec))) (ErrPlain "taskRef must be a secure reference");
  _ ← failIf ((sp_TimeoutSeconds spec <? 1) || (86400 <? sp_TimeoutSeconds spec))
      (ErrPlain "timeoutSeconds is outside the approved range");
  _ ← failIf ((rv_CPUMillis (rq_Limits (sp_Resources spec)) <? rv_CPUMillis (rq_Requests (sp_Resources spec)))
      || (rv_MemoryMiB (rq_Limits (sp_Resources spec)) <? rv_MemoryMiB (rq_Requests (sp_Resources spec))))
      (ErrPlain "resource limits must cover requests");
  _ ← validateNetwork (sp_Network spec);
  _ ← failIf ((sp_DesiredState spec != DesiredStateRunning) && (sp_DesiredState spec != DesiredStateCancelled))
      (ErrPlain "desiredState is not supported");
  _ ← ForAgentRun run;
  Ok tt.
End Validation.

(** ** The names of an attempt's objects *)

Definition nameList (names : ResourceNames) : list string :=
  [rn_ServiceAccount names; rn_Configuration names; rn_Workspace names; rn_NetworkPolicy names; rn_Job names].

Definition suffixes : list string := ["-sa"; "-config"; "-workspace"; "-network"; "-job"].

(** An RFC 1123 label. *)
Definition dnsLabel (s : string) : bool :=
  match bytes s with
  | [] => false
  | c :: rest =>
      (len s <=? 63) && lowerAlnum c && forallb (fun c => lowerAlnum c || hyphen c) rest
      && match last (c :: rest) with Some d => lowerAlnum d | None => false end
  end.

Lemma ForAgentRun_ok run names :
  ForAgentRun run = Ok names ->
  IsUUIDv7 (sp_RunID (kr_Spec run)) = true /\ 1 <= CurrentAttempt run <= 10 /\
  CurrentAttempt run <= rp_MaxAttempts (sp_RetryPolicy (kr_Spec run)) /\
  nameList names = (fun suffix => baseName (sp_RunID (kr_Spec run)) (CurrentAttempt run) +:+ suffix) <$> suffixes.
Proof.
  unfold ForAgentRun. rewrite bind_failIf. destruct (negb _) eqn:H1; [done|]. rewrite bind_failIf.
  destruct (_ || _) eqn:H2; [done|]. intros H%Ok_inj. subst names. apply negb_false_iff in H1. split_and!; [done|lia..|done].
Qed.

Lemma withoutHyphens_app l : bytes (withoutHyphens (String.string_of_list_ascii l)) = filter (fun c => c <> hyphenByte) l.
Proof. unfold withoutHyphens. by rewrite !bytes_of_list. Qed.

Lemma lowerHex_alnum c : lowerHex c = true -> lowerAlnum c = true.
Proof. by destruct c as [[] [] [] [] [] [] [] []]. Qed.

Lemma forallb_mono {A} (f g : A -> bool) l : (forall a, f a = true -> g a = true) -> forallb f l = true -> forallb g l = true.
Proof. intros H. induction l as [|a l IH]; simpl; [done|]. intros [H1 H2]%andb_prop. by rewrite H, IH. Qed.

Lemma Itoa_attempt a : 1 <= a <= 10 -> forallb digit (bytes (Itoa a)) = true /\ (length (bytes (Itoa a)) <= 2)%nat.
Proof.
  intros H. assert (In a [1; 2; 3; 4; 5; 6; 7; 8; 9; 10]) as Hin by (simpl; lia).
  repeat (destruct Hin as [<-|Hin]; [vm_compute; split; [done|lia]|]). destruct Hin.
Qed.

Lemma bytes_baseName runID attempt suffix :
  bytes (baseName runID attempt +:+ suffix) =
  bytes "ar-" ++ bytes (withoutHyphens runID) ++ bytes "-a" ++ bytes (Itoa attempt) ++ bytes suffix.
Proof. unfold baseName. by rewrite !bytes_app, <-!app_assoc. Qed.

Lemma suffix_facts suffix : suffix ∈ suffixes ->
  (length (bytes suffix) <= 10)%nat /\ forallb (fun c => lowerAlnum c || hyphen c) (bytes suffix) = true /\
  (exists d, last (bytes suffix) = Some d /\ lowerAlnum d = true) /\ (exists tail, bytes suffix = hyphenByte :: tail).
Proof.
  unfold suffixes. rewrite !elem_of_cons, elem_of_nil.
  intros [->|[->|[->|[->|[->|[]]]]]]; (split_and!; [simpl; lia|done|by eexists|by eexists]).
Qed.

Lemma withoutHyphens_length value : (length (bytes (withoutHyphens value)) <= length (bytes value))%nat.
Proof. unfold withoutHyphens. rewrite bytes_of_list. apply length_filter. Qed.

Lemma baseName_label runID attempt suffix :
  IsUUIDv7 runID = true -> 1 <= attempt <= 10 -> suffix ∈ suffixes -> dnsLabel (baseName runID attempt +:+ suffix) = true.
Proof.
  intros Hid Ha Hs. unfold IsUUIDv7 in Hid. repeat (apply andb_prop in Hid as [Hid ?]).
  destruct (suffix_facts suffix Hs) as (Hlen & Hall & (d & Hlast & Hd) & _). destruct (Itoa_attempt attempt Ha) as [Hdig Hlen2].
  pose proof (withoutHyphens_length runID) as Hlen1. rewrite (length_bytes runID) in Hlen1. unfold len in Hid.
  unfold dnsLabel, len. rewrite <-length_bytes, bytes_baseName. cbn [bytes String.list_ascii_of_string app]. fold (bytes suffix).
  set (l := bytes (withoutHyphens runID)) in *. set (ds := bytes (Itoa attempt)) in *. set (ss := bytes suffix) in *.
  apply andb_true_intro. split; [apply andb_true_intro; split; [apply andb_true_intro; split|]|].
  - apply Z.leb_le. cbn [length]. rewrite length_app. cbn [length]. rewrite length_app. lia.
  - done.
  - cbn [forallb]. rewrite forallb_app. cbn [forallb]. rewrite forallb_app, Hall.
    rewrite (forallb_mono lowerHex _ l), (forallb_mono digit _ ds); [done| |done| |done]; intros c Hc.
    + unfold lowerAlnum. by rewrite Hc, orb_true_r.
    + by rewrite lowerHex_alnum.
  - rewrite !app_comm_cons, (app_assoc _ _ ss), last_app. by rewrite Hlast.
Qed.

(** The names of two attempts differ in the identifier, the attempt or the suffix. *)
Lemma digits_suffix_inj ds ds' t t' :
  forallb digit ds = true -> forallb digit ds' = true -> ds ++ hyphenByte :: t = ds' ++ hyphenByte :: t' -> ds = ds' /\ t = t'.
Proof.
  revert ds'. induction ds as [|d ds IH]; intros [|d' ds'] H H'; simpl in *.
  - by intros [= ->].
  - intros [= <- _]. done.
  - intros [= -> _]. done.
  - apply andb_prop in H as [_ H]. apply andb_prop in H' as [_ H']. intros [= <- E]. by destruct (IH _ H H' E) as [-> ->].
Qed.

Lemma filter_hex l : forallb lowerHex l = true -> filter (fun c => c <> hyphenByte) l = l.
Proof.
  induction l as [|c l IH]; simpl; [done|]. intros [Hc Hl]%andb_prop. rewrite filter_cons_True, IH; [done..|].
  intros ->. done.
Qed.

Lemma byteAt_hyphen l i : byteAt l i 45 = true -> drop i l = hyphenByte :: drop (S i) l.
Proof.
  unfold byteAt. destruct (l !! i) as [c|] eqn:E; [|done]. intros H%N.eqb_eq. apply drop_S in E.
  by rewrite E, <-(Ascii.ascii_N_embedding c), H.
Qed.


Lemma lowerHex_byteAt l i : byteAt l i 55 = true -> exists c, drop i l = c :: drop (S i) l /\ lowerHex c = true.
Proof.
  unfold byteAt. destruct (l !! i) as [c|] eqn:E; [|done]. intros H%N.eqb_eq. apply drop_S in E. exists c. split; [done|].
  by rewrite <-(Ascii.ascii_N_embedding c), H.
Qed.

Lemma variant_hex c : variantByte c = true -> lowerHex c = true.
Proof. by destruct c as [[] [] [] [] [] [] [] []]. Qed.

(** The five groups of an identifier. *)
Lemma UUIDv7_groups value :
  UUIDv7 value = true ->
  exists a b c d e, bytes value = a ++ [hyphenByte] ++ b ++ [hyphenByte] ++ c ++ [hyphenByte] ++ d ++ [hyphenByte] ++ e /\
    length a = 8%nat /\ length b = 4%nat /\ length c = 4%nat /\ length d = 4%nat /\ length e = 12%nat /\
    forallb lowerHex (a ++ b ++ c ++ d ++ e) = true.
Proof.
  unfold UUIDv7, len. rewrite <-length_bytes. set (l := bytes value). intros H. repeat (apply andb_prop in H as [H ?]).
  assert (Hl : length l = 36%nat) by lia.
  destruct (l !! 19%nat) as [v|] eqn:Ev; [|done]. apply drop_S in Ev.
  destruct (lowerHex_byteAt l 14) as (s & Es & Hs); [done|].
  exists (take 8 l), (take 4 (drop 9 l)), (s :: take 3 (drop 15 l)), (v :: take 3 (drop 20 l)), (drop 24 l).
  split_and!; [|cbn [length]; rewrite ?length_take, ?length_drop, ?Hl; done..|].
  - rewrite <-(take_drop 8 l) at 1. f_equal. rewrite byteAt_hyphen by done. cbn [app]. f_equal.
    rewrite <-(take_drop 4 (drop 9 l)) at 1. f_equal. rewrite drop_drop, byteAt_hyphen by done. cbn [app Nat.add]. f_equal.
    rewrite Es. f_equal. rewrite <-(take_drop 3 (drop 15 l)) at 1. f_equal. rewrite drop_drop, byteAt_hyphen by done. cbn [app Nat.add]. f_equal.
    rewrite Ev. f_equal. rewrite <-(take_drop 3 (drop 20 l)) at 1. f_equal. by rewrite drop_drop, byteAt_hyphen by done.
  - rewrite !forallb_app. cbn [forallb]. rewrite Hs, (variant_hex v) by done. by repeat (apply andb_true_intro; split).
Qed.

Lemma withoutHyphens_groups value :
  UUIDv7 value = true ->
  length (bytes (withoutHyphens value)) = 32%nat /\
  exists a b c d e, length a = 8%nat /\ length b = 4%nat /\ length c = 4%nat /\ length d = 4%nat /\
    bytes (withoutHyphens value) = a ++ b ++ c ++ d ++ e /\
    bytes value = a ++ [hyphenByte] ++ b ++ [hyphenByte] ++ c ++ [hyphenByte] ++ d ++ [hyphenByte] ++ e.
Proof.
  intros H. destruct (UUIDv7_groups value H) as (a & b & c & d & e & E & Ha & Hb & Hc & Hd & He & Hx).
  assert (Hw : bytes (withoutHyphens value) = a ++ b ++ c ++ d ++ e).
  { unfold withoutHyphens. rewrite bytes_of_list, E, !filter_app. rewrite !forallb_app in Hx.
    apply andb_prop in Hx as [H1 Hx]. apply andb_prop in Hx as [H2 Hx]. apply andb_prop in Hx as [H3 Hx]. apply andb_prop in Hx as [H4 H5].
    assert (Hh : filter (fun c => c <> hyphenByte) [hyphenByte] = []) by done. by rewrite Hh, !filter_hex. }
  split; [rewrite Hw, !length_app; lia|]. by exists a, b, c, d, e.
Qed.

Lemma withoutHyphens_inj v v' : UUIDv7 v = true -> UUIDv7 v' = true -> bytes (withoutHyphens v) = bytes (withoutHyphens v') -> v = v'.
Proof.
  intros (_ & a & b & c & d & e & Ha & Hb & Hc & Hd & Ew & E)%withoutHyphens_groups
    (_ & a' & b' & c' & d' & e' & Ha' & Hb' & Hc' & Hd' & Ew' & E')%withoutHyphens_groups Heq.
  rewrite Ew, Ew' in Heq.
  apply app_inj_1 in Heq as [<- Heq]; [|lia]. apply app_inj_1 in Heq as [<- Heq]; [|lia].
  apply app_inj_1 in Heq as [<- Heq]; [|lia]. apply app_inj_1 in Heq as [<- <-]; [|lia].
  apply bytes_inj. by rewrite E, E'.
Qed.

(** C21: The names of an attempt's objects are well formed and never clash. Whatever
    run the operator derives names for, each of the five is an RFC 1123 label of at
    most 63 bytes and they are pairwise different; and two runs whose identifiers
    satisfy the schema's pattern share a name only when they are the same run at the
    same attempt. *)
Theorem names_typed_and_unique run names :
  ForAgentRun run = Ok names ->
  Forall (fun name => dnsLabel name = true) (nameList names) /\ NoDup (nameList names) /\
  forall run' names' name,
    ForAgentRun run' = Ok names' -> UUIDv7 (sp_RunID (kr_Spec run)) = true -> UUIDv7 (sp_RunID (kr_Spec run')) = true ->
    name ∈ nameList names -> name ∈ nameList names' ->
    sp_RunID (kr_Spec run) = sp_RunID (kr_Spec run') /\ CurrentAttempt run = CurrentAttempt run'.
Proof.
  intros (Hid & Ha & _ & E)%ForAgentRun_ok. split_and!.
  - rewrite E. apply Forall_fmap, Forall_forall. intros suffix Hs. by apply baseName_label.
  - rewrite E. apply NoDup_fmap_2; [|by apply (bool_decide_unpack _)]. intros s s' H. apply (f_equal bytes) in H. rewrite !bytes_app in H. by apply app_inv_head, bytes_inj in H.
  - intros run' names' name (Hid' & Ha' & _ & E')%ForAgentRun_ok Hv Hv' Hin Hin'. rewrite E in Hin. rewrite E' in Hin'.
    apply list_elem_of_fmap in Hin as (s & -> & Hs). apply list_elem_of_fmap in Hin' as (s' & Heq & Hs').
    apply (f_equal bytes) in Heq. rewrite !bytes_baseName in Heq. apply app_inv_head in Heq.
    apply app_inj_1 in Heq as [Hw Heq].
    2:{ by rewrite (proj1 (withoutHyphens_groups _ Hv)), (proj1 (withoutHyphens_groups _ Hv')). }
    apply app_inv_head in Heq. split; [by apply withoutHyphens_inj|].
    destruct (suffix_facts s Hs) as (_ & _ & _ & t & Et). destruct (suffix_facts s' Hs') as (_ & _ & _ & t' & Et').
    rewrite Et, Et' in Heq. apply digits_suffix_inj in Heq as [Hd _]; [|by apply Itoa_attempt..].
    apply bytes_inj in Hd. by apply (inj pretty) in Hd.
Qed.
