(* ===== verification/Builder.v ===== *)
(** * The execution resources (operator/internal/resources)

    The Kubernetes objects one attempt of a run needs, as [builder.go] builds them,
    the trusted profiles and egress policies of [profile.go], and the defence-in-depth
    checks of [security.go].

    Parameters: the name and label checks of [k8s.io/apimachinery] and the parsing of
    CIDR text by [net/netip]; a prefix itself is its family, address and length, and
    overlap and containment are computed on it. *)

From S2P Require Import Prelude Json AgentRun Policy Cluster Events JsonDecode OpTypes.

(** ** Objects *)

Record OwnerReference := {
  or_APIVersion : string;
  or_Kind : string;
  or_Name : string;
  or_UID : string;
  or_Controller : bool;
  or_BlockOwnerDeletion : bool;
}.

#[export] Instance OwnerReference_eq_dec : EqDecision OwnerReference.
Proof. solve_decision. Defined.

Record ObjectMeta := {
  om_Name : string;
  om_Namespace : string;
  om_Labels : gmap string string;
  om_Annotations : gmap string string;
  om_OwnerReferences : list OwnerReference;
}.

Record ServiceAccount := {
  sa_Meta : ObjectMeta;
  sa_AutomountServiceAccountToken : option bool;
  sa_Secrets : list string;
  sa_ImagePullSecrets : list string;
}.

Record ConfigMap := {
  cm_Meta : ObjectMeta;
  cm_Immutable : option bool;
  cm_Data : gmap string string;
  cm_BinaryData : gmap string string;
}.

Record PersistentVolumeClaim := {
  pvc_Meta : ObjectMeta;
  pvc_AccessModes : list string;
  pvc_StorageBytes : Z;
  pvc_StorageClassName : option string;
}.

Record LabelSelector := {
  ls_MatchLabels : gmap string string;
  ls_MatchExpressions : list (string * string * list string);
}.

#[export] Instance LabelSelector_eq_dec : EqDecision LabelSelector.
Proof. solve_decision. Defined.

Record IPBlock := {
  ib_CIDR : string;
  ib_Except : list string;
}.

#[export] Instance IPBlock_eq_dec : EqDecision IPBlock.
Proof. solve_decision. Defined.

Record NetworkPolicyPeer := {
  pe_IPBlock : option IPBlock;
  pe_NamespaceSelector : option LabelSelector;
  pe_PodSelector : option LabelSelector;
}.

#[export] Instance NetworkPolicyPeer_eq_dec : EqDecision NetworkPolicyPeer.
Proof. solve_decision. Defined.

Inductive IntOrString := PortNumber (n : Z) | PortName (s : string).

#[export] Instance IntOrString_eq_dec : EqDecision IntOrString.
Proof. solve_decision. Defined.

Record NetworkPolicyPort := {
  po_Protocol : option string;
  po_Port : option IntOrString;
  po_EndPort : option Z;
}.

#[export] Instance NetworkPolicyPort_eq_dec : EqDecision NetworkPolicyPort.
Proof. solve_decision. Defined.

Record EgressRule := {
  eg_To : list NetworkPolicyPeer;
  eg_Ports : list NetworkPolicyPort;
}.

#[export] Instance EgressRule_eq_dec : EqDecision EgressRule.
Proof. solve_decision. Defined.

(** Ingress rules are only present or not here; [None] is the nil slice. *)
Record NetworkPolicy := {
  np_Meta : ObjectMeta;
  np_PodSelector : gmap string string;
  np_PolicyTypes : list string;
  np_Ingress : option (list unit);
  np_Egress : list EgressRule;
}.

Record Toleration := {
  to_Key : string;
  to_Operator : string;
  to_Value : string;
  to_Effect : string;
}.

Record TopologySpreadConstraint := {
  ts_MaxSkew : Z;
  ts_TopologyKey : string;
  ts_WhenUnsatisfiable : string;
  ts_LabelSelector : gmap string string;
}.

Record PodSecurityContext := {
  psc_RunAsNonRoot : option bool;
  psc_RunAsUser : option Z;
  psc_RunAsGroup : option Z;
  psc_FSGroup : option Z;
  psc_FSGroupChangePolicy : option string;
  psc_SeccompProfile : option string;
}.

Record SecurityContext := {
  sc_RunAsNonRoot : option bool;
  sc_RunAsUser : option Z;
  sc_RunAsGroup : option Z;
  sc_Privileged : option bool;
  sc_AllowPrivilegeEscalation : option bool;
  sc_ReadOnlyRootFilesystem : option bool;
  sc_Capabilities : option (list string * list string);  (* added, dropped *)
  sc_SeccompProfile : option string;
}.

(** The source of a volume; a projected volume says which sources are API tokens. *)
Inductive VolumeSource :=
| VolumeClaim (claim : string)
| VolumeConfigMap (name : string) (mode : Z)
| VolumeSecret (name : string) (mode : Z)
| VolumeEmptyDir (sizeBytes : Z)
| VolumeHostPath (path : string)
| VolumeProjected (tokens : list bool)
| VolumeOther.

Record Volume := {
  vo_Name : string;
  vo_Source : VolumeSource;
}.

Record VolumeMount := {
  vm_Name : string;
  vm_MountPath : string;
  vm_ReadOnly : bool;
}.

(** CPU in millicores and memory in bytes. *)
Record ResourceList := {
  rl_CPUMillis : Z;
  rl_MemoryBytes : Z;
}.

Record Container := {
  co_Name : string;
  co_Image : string;
  co_ImagePullPolicy : string;
  co_Env : list (string * string);
  co_Requests : ResourceList;
  co_Limits : ResourceList;
  co_SecurityContext : option SecurityContext;
  co_VolumeMounts : list VolumeMount;
  co_TerminationMessagePolicy : string;
}.

Record PodSpec := {
  ps_ServiceAccountName : string;
  ps_AutomountServiceAccountToken : option bool;
  ps_RestartPolicy : string;
  ps_TerminationGracePeriodSeconds : Z;
  ps_EnableServiceLinks : bool;
  ps_HostNetwork : bool;
  ps_HostPID : bool;
  ps_HostIPC : bool;
  ps_NodeSelector : gmap string string;
  ps_Tolerations : list Toleration;
  ps_TopologySpreadConstraints : list TopologySpreadConstraint;
  ps_PriorityClassName : string;
  ps_NodeAffinity : list (string * string);  (* required: key and operator *)
  ps_SecurityContext : option PodSecurityContext;
  ps_Containers : list Container;
  ps_InitContainers : list Container;
  ps_EphemeralContainers : list Container;
  ps_Volumes : list Volume;
  ps_RuntimeClassName : option string;
}.

Record JobSpec := {
  js_Parallelism : option Z;
  js_Completions : option Z;
  js_BackoffLimit : option Z;
  js_ActiveDeadlineSeconds : option Z;
  js_TemplateLabels : gmap string string;
  js_TemplateAnnotations : gmap string string;
  js_PodSpec : PodSpec;
}.

Record JobObject := {
  jo_Meta : ObjectMeta;
  jo_Spec : JobSpec;
}.

Record ExecutionResources := {
  er_ServiceAccount : option ServiceAccount;
  er_Configuration : option ConfigMap;
  er_Workspace : option PersistentVolumeClaim;
  er_NetworkPolicy : option NetworkPolicy;
  er_Job : option JobObject;
}.

(** ** Prefixes *)

(** A [netip.Prefix]: the address is a number of 32 or 128 bits. *)
Record Prefix := {
  px_Is4 : bool;
  px_Addr : Z;
  px_Bits : Z;
}.

Definition BitLen (p : Prefix) : Z := if px_Is4 p then 32 else 128.

(** The network of a prefix: its address without the host bits. *)
Definition network (is4 : bool) (addr bits : Z) : Z := Z.shiftr addr ((if is4 then 32 else 128) - bits).

Definition PrefixContains (p : Prefix) (is4 : bool) (addr : Z) : bool :=
  bool_decide (px_Is4 p = is4) && (network is4 (px_Addr p) (px_Bits p) =? network is4 addr (px_Bits p)).

Definition Overlaps (p q : Prefix) : bool :=
  let bits := Z.min (px_Bits p) (px_Bits q) in
  bool_decide (px_Is4 p = px_Is4 q) && (network (px_Is4 p) (px_Addr p) bits =? network (px_Is4 p) (px_Addr q) bits).

Class NetIP := {
  parsePrefix : string -> option Prefix;
  prefixString : Prefix -> string;
}.

(** A DNS-1123 subdomain as it is documented: at most 253 bytes; groups of lower-case
    letters, digits and hyphens that begin and end with a letter or digit, separated
    by dots. It is also the schema's pattern for reference names and the runner's
    [referenceNamePattern]. *)
Definition dnsGroup (l : list Ascii.ascii) : bool :=
  match l with
  | [] => false
  | c :: rest =>
      lowerAlnum c && forallb (fun c => lowerAlnum c || hyphen c) rest
      && match last l with Some d => lowerAlnum d | None => false end
  end.

Definition referenceNamePattern (s : string) : bool := forallb dnsGroup (splitOn dotByte (bytes s)).

Class K8sValidation := {
  IsDNS1123Subdomain : string -> bool;
  IsQualifiedName : string -> bool;
  IsValidLabelValue : string -> bool;
  LabelSelectorAsSelector : LabelSelector -> bool;
  IsDNS1123Subdomain_documented s : IsDNS1123Subdomain s = true -> referenceNamePattern s = true /\ len s <= 253;
}.

(** ** profile.go *)

Definition requiredNodePoolLabel : string := "agentforge.dev/node-pool".

Definition prohibitedEgressPrefixes : list Prefix :=
  [ {| px_Is4 := true; px_Addr := 0; px_Bits := 0 |};
    {| px_Is4 := false; px_Addr := 0; px_Bits := 0 |};
    {| px_Is4 := true; px_Addr := 169 * 2 ^ 24 + 254 * 2 ^ 16; px_Bits := 16 |};
    {| px_Is4 := false; px_Addr := 65152 * 2 ^ 112; px_Bits := 10 |} ].

Record ExecutionProfile := {
  ep_Name : string;
  ep_NodeSelector : gmap string string;
  ep_Tolerations : list Toleration;
  ep_TopologyKeys : list string;
  ep_RuntimeClassName : string;
  ep_PriorityClassName : string;
  ep_TerminationGracePeriodSeconds : Z;
}.

Record EgressPolicy := {
  ey_Name : string;
  ey_Rules : list EgressRule;
}.

Definition StandardProfile : ExecutionProfile :=
  {| ep_Name := "standard"; ep_NodeSelector := {[requiredNodePoolLabel := "agents"]};
     ep_Tolerations := [ {| to_Key := requiredNodePoolLabel; to_Operator := "Equal"; to_Value := "agents"; to_Effect := "NoSchedule" |} ];
     ep_TopologyKeys := ["topology.kubernetes.io/zone"; "kubernetes.io/hostname"]; ep_RuntimeClassName := EmptyString;
     ep_PriorityClassName := "agentforge-agent"; ep_TerminationGracePeriodSeconds := 30 |}.

Definition isControlPlaneKey (key : string) : bool :=
  Contains key "node-role.kubernetes.io/control-plane" || Contains key "node-role.kubernetes.io/master".

(** The first error a loop over a list meets. *)
Fixpoint checkAll {A} (check : A -> res unit) (l : list A) : res unit :=
  match l with
  | [] => Ok tt
  | a :: rest => _ ← check a; checkAll check rest
  end.

(** References in byte order; the sort compares by [<] and [>] on strings. *)
Definition refLe (a b : string) : Prop := string_lt b a = false.
#[export] Instance refLe_dec a b : Decision (refLe a b) := bool_eq_dec _ _.

Definition sortedReferences (references : list string) : list string := merge_sort refLe references.

Section Resources.
Context `{K8sValidation} `{NetIP} `{SHA256}.

Definition validateToleration (toleration : Toleration) : res unit :=
  _ ← failIf ((to_Key toleration == EmptyString) || (to_Operator toleration == "Exists") || isControlPlaneKey (to_Key toleration))
      (ErrPlain "execution profile contains a broad or control-plane toleration");
  _ ← failIf (negb (IsQualifiedName (to_Key toleration)) || negb (IsValidLabelValue (to_Value toleration)))
      (ErrPlain "execution profile contains an invalid toleration");
  failIf ((to_Effect toleration != "NoSchedule") && (to_Effect toleration != "NoExecute"))
    (ErrPlain "execution profile toleration effect is not approved").

Fixpoint validateTopologyKeys (seen : gset string) (keys : list string) : res unit :=
  match keys with
  | [] => Ok tt
  | key :: rest =>
      _ ← failIf (negb (IsQualifiedName key)) (ErrPlain "execution profile contains an invalid topology key");
      _ ← failIf (bool_decide (key ∈ seen)) (ErrPlain "execution profile contains a duplicate topology key");
      validateTopologyKeys ({[key]} ∪ seen) rest
  end.

(** The order of a map's entries only decides which error is reported. *)
Definition validateProfile (profile : ExecutionProfile) : res unit :=
  _ ← failIf ((ep_Name profile == EmptyString) || negb (IsDNS1123Subdomain (ep_Name profile)))
      (ErrPlain "execution profile name must be a DNS subdomain");
  _ ← failIf (default EmptyString (ep_NodeSelector profile !! requiredNodePoolLabel) != "agents")
      (ErrPlain "execution profile must select the dedicated agents node pool");
  _ ← checkAll (fun '(key, value) =>
        _ ← failIf (negb (IsQualifiedName key) || negb (IsValidLabelValue value))
            (ErrPlain "execution profile contains an invalid node selector");
        failIf (isControlPlaneKey key) (ErrPlain "execution profile cannot select control-plane nodes"))
      (map_to_list (ep_NodeSelector profile));
  _ ← checkAll validateToleration (ep_Tolerations profile);
  _ ← failIf ((ep_TerminationGracePeriodSeconds profile <? 1) || (300 <? ep_TerminationGracePeriodSeconds profile))
      (ErrPlain "termination grace period must be between 1 and 300 seconds");
  _ ← failIf (8 <? Z.of_nat (length (ep_TopologyKeys profile))) (ErrPlain "execution profile has too many topology constraints");
  _ ← validateTopologyKeys ∅ (ep_TopologyKeys profile);
  checkAll (fun '(field, value) =>
      failIf ((value != EmptyString) && negb (IsDNS1123Subdomain value)) (ErrPlain (field +:+ " must be a DNS subdomain")))
    [("runtime class", ep_RuntimeClassName profile); ("priority class", ep_PriorityClassName profile)].

Definition validateSelector (selector : option LabelSelector) : res unit :=
  match selector with
  | None => Ok tt
  | Some selector =>
      _ ← failIf (bool_decide (ls_MatchLabels selector = ∅) && bool_decide (ls_MatchExpressions selector = []))
          (ErrPlain "empty egress selectors are prohibited");
      failIf (negb (LabelSelectorAsSelector selector)) (ErrPlain "egress selector is invalid")
  end.

Definition validateProhibited (prefix prohibited : Prefix) : res unit :=
  _ ← failIf ((px_Bits prohibited =? 0) && (px_Bits prefix =? 0) && (BitLen prohibited =? BitLen prefix))
      (ErrPlain "internet-wide egress is prohibited");
  failIf ((px_Bits prohibited !=  0) && Overlaps prefix prohibited)
    (ErrPlain "link-local and metadata-service egress is prohibited").

Definition validateException (prefix : Prefix) (exception : string) : res unit :=
  match parsePrefix exception with
  | Some except =>
      failIf (negb (PrefixContains prefix (px_Is4 except) (px_Addr except)) || (px_Bits except <? px_Bits prefix))
        (ErrPlain "egress IPBlock exception must be contained by its CIDR")
  | None => Err (ErrPlain "egress IPBlock exception must be contained by its CIDR")
  end.

Definition validateNetworkPeer (peer : NetworkPolicyPeer) : res unit :=
  match pe_IPBlock peer, pe_NamespaceSelector peer, pe_PodSelector peer with
  | None, None, None => Err (ErrPlain "wildcard egress peers are prohibited")
  | Some _, Some _, _ | Some _, _, Some _ => Err (ErrPlain "IPBlock cannot be combined with selector peers")
  | None, namespaceSelector, podSelector =>
      _ ← validateSelector namespaceSelector;
      validateSelector podSelector
  | Some block, None, None =>
      match parsePrefix (ib_CIDR block) with
      | None => Err (ErrPlain "egress IPBlock must use canonical CIDR notation")
      | Some prefix =>
          _ ← failIf (prefixString prefix != ib_CIDR block) (ErrPlain "egress IPBlock must use canonical CIDR notation");
          _ ← failIf ((px_Is4 prefix && (px_Bits prefix <? 8)) || (negb (px_Is4 prefix) && (px_Bits prefix <? 32)))
              (ErrPlain "egress IPBlock is broader than the approved minimum prefix");
          _ ← checkAll (validateProhibited prefix) prohibitedEgressPrefixes;
          checkAll (validateException prefix) (ib_Except block)
      end
  end.

Definition validatePort (port : NetworkPolicyPort) : res unit :=
  match po_Port port with
  | None => Err (ErrPlain "egress rules require explicit TCP or UDP ports")
  | Some number =>
      _ ← failIf (match po_Protocol port with Some p => (p != "TCP") && (p != "UDP") | None => false end)
          (ErrPlain "egress rules require explicit TCP or UDP ports");
      match po_EndPort port, number with
      | Some _, PortName _ => Err (ErrPlain "egress endPort requires a numeric port")
      | _, _ => Ok tt
      end
  end.

Definition validateEgressPolicy (policy : EgressPolicy) : res unit :=
  _ ← failIf ((ey_Name policy == EmptyString) || negb (IsDNS1123Subdomain (ey_Name policy)))
      (ErrPlain "egress policy name must be a DNS subdomain");
  _ ← failIf (bool_decide (ey_Rules policy = []) || (32 <? Z.of_nat (length (ey_Rules policy))))
      (ErrPlain "restricted egress policy must contain 1 through 32 rules");
  checkAll (fun rule =>
      _ ← failIf (bool_decide (eg_To rule = []) || bool_decide (eg_Ports rule = []))
          (ErrPlain "egress rules require bounded destinations and ports");
      _ ← checkAll validateNetworkPeer (eg_To rule);
      checkAll validatePort (eg_Ports rule))
    (ey_Rules policy).

Definition profileForRun (profiles : gmap string ExecutionProfile) (run : AgentRunResource) : res ExecutionProfile :=
  match profiles !! sp_ExecutionProfile (kr_Spec run) with
  | Some profile => Ok profile
  | None => Err (ErrPlain "execution profile is not configured")
  end.

Definition egressForRun (policies : gmap string EgressPolicy) (run : AgentRunResource) : res (option EgressPolicy) :=
  match nw_Profile (sp_Network (kr_Spec run)), nw_AllowedDestinationsRef (sp_Network (kr_Spec run)) with
  | NetworkProfileIsolated, Some _ => Err (ErrPlain "isolated network cannot reference allowed destinations")
  | NetworkProfileIsolated, None => Ok None
  | NetworkProfileRestrictedEgress, Some reference =>
      match policies !! reference with
      | Some policy => Ok (Some policy)
      | None => Err (ErrPlain "allowed destination policy is not configured")
      end
  | _, _ => Err (ErrPlain "network profile is not supported")
  end.

(** ** security.go *)

(** [strings.ToLower] as far as a search for ASCII text can see it: the Kelvin sign
    and the dotted capital I are the only other characters whose lower case is an
    ASCII letter. *)
Fixpoint lowerBytes (l : list Ascii.ascii) : list Ascii.ascii :=
  match l with
  | [] => []
  | c :: rest =>
      if byte_in 65 90 c then Ascii.ascii_of_N (Ascii.N_of_ascii c + 32) :: lowerBytes rest
      else match rest with
           | d :: rest' =>
               if byte_is 196 c && byte_is 176 d then Ascii.ascii_of_nat 105 :: lowerBytes rest'
               else match rest' with
                    | e :: rest'' =>
                        if byte_is 226 c && byte_is 132 d && byte_is 170 e then Ascii.ascii_of_nat 107 :: lowerBytes rest''
                        else c :: lowerBytes rest
                    | [] => c :: lowerBytes rest
                    end
           | [] => c :: lowerBytes rest
           end
  end.

Definition dockerSocket (path : string) : bool :=
  containsBytes (lowerBytes (bytes path)) (bytes "docker.sock") || (path == "/var/run/docker").

Definition containsPolicyType (values : list string) (want : string) : bool := bool_decide (want ∈ values).

Definition validateNetworkPolicySecurity (policy : NetworkPolicy) : res unit :=
  _ ← failIf ((Z.of_nat (length (np_PolicyTypes policy)) !=  2) || negb (containsPolicyType (np_PolicyTypes policy) "Ingress")
              || negb (containsPolicyType (np_PolicyTypes policy) "Egress"))
      (ErrPlain "NetworkPolicy must govern ingress and egress");
  _ ← failIf (np_Ingress policy != Some []) (ErrPlain "workload ingress must be denied");
  checkAll (fun rule =>
      _ ← failIf (bool_decide (eg_To rule = []) || bool_decide (eg_Ports rule = [])) (ErrPlain "wildcard egress is prohibited");
      checkAll validateNetworkPeer (eg_To rule))
    (np_Egress policy).

Definition runnerContext (context : option SecurityContext) : bool :=
  match context with
  | None => false
  | Some context =>
      (sc_RunAsNonRoot context == Some true) && (sc_Privileged context == Some false)
      && (sc_AllowPrivilegeEscalation context == Some false) && (sc_ReadOnlyRootFilesystem context == Some true)
      && (sc_SeccompProfile context == Some "RuntimeDefault")
  end.

Definition dropsAll (context : option SecurityContext) : bool :=
  match context with
  | Some context => sc_Capabilities context == Some ([], ["ALL"])
  | None => false
  end.

Definition validateVolume (volume : Volume) : res unit :=
  match vo_Source volume with
  | VolumeHostPath _ => Err (ErrPlain "hostPath volumes are prohibited")
  | VolumeProjected tokens => failIf (existsb id tokens) (ErrPlain "projected Kubernetes API tokens are prohibited")
  | _ => Ok tt
  end.

Definition validatePodSecurity (job : JobObject) : res unit :=
  let pod := js_PodSpec (jo_Spec job) in
  _ ← failIf (ps_HostNetwork pod || ps_HostPID pod || ps_HostIPC pod) (ErrPlain "host namespace access is prohibited");
  _ ← failIf (ps_AutomountServiceAccountToken pod != Some false)
      (ErrPlain "pod service account token automount must be disabled");
  _ ← failIf (negb match ps_SecurityContext pod with
                   | Some context => (psc_RunAsNonRoot context == Some true) && (psc_SeccompProfile context == Some "RuntimeDefault")
                   | None => false
                   end) (ErrPlain "pod must run as non-root with RuntimeDefault seccomp");
  match ps_Containers pod, ps_InitContainers pod, ps_EphemeralContainers pod with
  | [container], [], [] =>
      _ ← failIf (negb (runnerContext (co_SecurityContext container)))
          (ErrPlain "runner security context violates the restricted policy");
      _ ← failIf (negb (dropsAll (co_SecurityContext container))) (ErrPlain "runner must drop all Linux capabilities");
      _ ← failIf (negb match js_ActiveDeadlineSeconds (jo_Spec job) with Some d => 1 <=? d | None => false end
                  || (js_BackoffLimit (jo_Spec job) != Some 0))
          (ErrPlain "job must have an active deadline and Kubernetes retries disabled");
      _ ← checkAll validateVolume (ps_Volumes pod);
      checkAll (fun mount => failIf (dockerSocket (vm_MountPath mount)) (ErrPlain "docker socket mounts are prohibited"))
        (co_VolumeMounts container)
  | _, _, _ => Err (ErrPlain "execution Pod must contain exactly one validated runner container")
  end.

Definition ValidateSecurity (resources : ExecutionResources) : res unit :=
  match er_ServiceAccount resources, er_NetworkPolicy resources, er_Job resources with
  | Some account, Some policy, Some job =>
      _ ← failIf (sa_AutomountServiceAccountToken account != Some false)
          (ErrPlain "workload ServiceAccount token automount must be disabled");
      _ ← validateNetworkPolicySecurity policy;
      validatePodSecurity job
  | _, _, _ => Err (ErrPlain "service account, network policy, and Job are required for security validation")
  end.

(** ** builder.go *)

Record Builder := {
  bu_profiles : gmap string ExecutionProfile;
  bu_egressPolicies : gmap string EgressPolicy;
}.

Fixpoint addProfiles (profiles : list ExecutionProfile) (known : gmap string ExecutionProfile) : res (gmap string ExecutionProfile) :=
  match profiles with
  | [] => Ok known
  | profile :: rest =>
      _ ← validateProfile profile;
      _ ← failIf (bool_decide (is_Some (known !! ep_Name profile))) (ErrPlain "duplicate execution profile");
      addProfiles rest (<[ep_Name profile := profile]> known)
  end.

Fixpoint addPolicies (policies : list EgressPolicy) (known : gmap string EgressPolicy) : res (gmap string EgressPolicy) :=
  match policies with
  | [] => Ok known
  | policy :: rest =>
      _ ← validateEgressPolicy policy;
      _ ← failIf (bool_decide (is_Some (known !! ey_Name policy))) (ErrPlain "duplicate egress policy");
      addPolicies rest (<[ey_Name policy := policy]> known)
  end.

Definition NewBuilder (profiles : list ExecutionProfile) (egressPolicies : list EgressPolicy) : res Builder :=
  _ ← failIf (bool_decide (length profiles = 0%nat)) (ErrPlain "at least one execution profile is required");
  known ← addProfiles profiles ∅;
  policies ← addPolicies egressPolicies ∅;
  Ok {| bu_profiles := known; bu_egressPolicies := policies |}.

Definition safeLabelValue (value : string) : string :=
  if IsValidLabelValue value then value
  else "sha256-" +:+ String.string_of_list_ascii (take 16 (bytes (sha256Hex value))).

Definition labelsForRun (run : AgentRunResource) : gmap string string :=
  list_to_map
    [ ("app.kubernetes.io/name", "agentforge-runner");
      ("app.kubernetes.io/managed-by", "agentforge-operator");
      ("execution.agentforge.dev/tenant-id", sp_TenantID (kr_Spec run));
      ("execution.agentforge.dev/project-id", sp_ProjectID (kr_Spec run));
      ("execution.agentforge.dev/run-id", sp_RunID (kr_Spec run));
      ("execution.agentforge.dev/attempt", Itoa (CurrentAttempt run));
      ("execution.agentforge.dev/runtime", safeLabelValue (sp_Runtime (kr_Spec run)));
      ("execution.agentforge.dev/workload", "agent-run") ].

Definition workloadSelectorLabels (run : AgentRunResource) : gmap string string :=
  list_to_map
    [ ("execution.agentforge.dev/run-id", sp_RunID (kr_Spec run));
      ("execution.agentforge.dev/attempt", Itoa (CurrentAttempt run)) ].

Definition NetworkProfile_string (profile : NetworkProfile) : string :=
  match profile with
  | NetworkProfileIsolated => "Isolated"
  | NetworkProfileRestrictedEgress => "RestrictedEgress"
  | NetworkProfileOther s => s
  end.

Definition ownerUIDAnnotation : string := "execution.agentforge.dev/owner-uid".

Definition annotationsForRun (run : AgentRunResource) : gmap string string :=
  list_to_map
    [ ("execution.agentforge.dev/attempt-id", sp_AttemptID (kr_Spec run));
      ("execution.agentforge.dev/execution-profile", sp_ExecutionProfile (kr_Spec run));
      ("execution.agentforge.dev/network-profile", NetworkProfile_string (nw_Profile (sp_Network (kr_Spec run))));
      (ownerUIDAnnotation, kr_UID run) ].

Definition GroupVersion : string := "execution.agentforge.dev/v1alpha1".

Definition ownerReference (run : AgentRunResource) : OwnerReference :=
  {| or_APIVersion := GroupVersion; or_Kind := "AgentRun"; or_Name := kr_Name run; or_UID := kr_UID run;
     or_Controller := true; or_BlockOwnerDeletion := true |}.

Record buildContext := {
  bc_run : AgentRunResource;
  bc_names : ResourceNames;
  bc_profile : ExecutionProfile;
  bc_egress : option EgressPolicy;
}.

Definition validateRunForBuild (run : AgentRunResource) : res unit :=
  let spec := kr_Spec run in
  _ ← match lastIndex (bytes (sp_RunnerImage spec)) digestMark with
      | Some separator =>
          _ ← failIf ((separator <? 1)%nat || (Z.of_nat separator + 8 + 64 !=  len (sp_RunnerImage spec)))
              (ErrPlain "runner image must use an immutable sha256 digest");
          failIf (negb (forallb lowerHex (drop (separator + 8) (bytes (sp_RunnerImage spec)))))
            (ErrPlain "runner image digest must be lowercase hexadecimal")
      | None => Err (ErrPlain "runner image must use an immutable sha256 digest")
      end;
  _ ← failIf ((sp_TimeoutSeconds spec <? 1) || (86400 <? sp_TimeoutSeconds spec) || (wk_SizeGiB (sp_Workspace spec) <? 1))
      (ErrPlain "execution timeout and workspace size must be positive and bounded");
  _ ← failIf ((rv_CPUMillis (rq_Requests (sp_Resources spec)) <? 1) || (rv_MemoryMiB (rq_Requests (sp_Resources spec)) <? 1)
              || (rv_CPUMillis (rq_Limits (sp_Resources spec)) <? rv_CPUMillis (rq_Requests (sp_Resources spec)))
              || (rv_MemoryMiB (rq_Limits (sp_Resources spec)) <? rv_MemoryMiB (rq_Requests (sp_Resources spec))))
      (ErrPlain "resource requests and limits are invalid");
  checkAll (fun reference => failIf (negb (IsDNS1123Subdomain reference)) (ErrPlain "resource reference is not a DNS subdomain"))
    (sp_ConfigurationRefs spec ++ sp_SecretRefs spec ++ [sp_ArtifactDestinationRef spec]).

Definition resolve (b : Builder) (run : AgentRunResource) : res buildContext :=
  _ ← failIf ((kr_Namespace run == EmptyString) || (kr_Name run == EmptyString) || (kr_UID run == EmptyString))
      (ErrPlain "AgentRun must be persisted with namespace, name, and UID");
  _ ← failIf (negb (IsDNS1123Subdomain (kr_Namespace run)) || negb (IsDNS1123Subdomain (kr_Name run)))
      (ErrPlain "AgentRun metadata is not a valid Kubernetes identity");
  _ ← validateRunForBuild run;
  names ← ForAgentRun run;
  profile ← profileForRun (bu_profiles b) run;
  egress ← egressForRun (bu_egressPolicies b) run;
  Ok {| bc_run := run; bc_names := names; bc_profile := profile; bc_egress := egress |}.

Definition ownedMeta (context : buildContext) (name : string) : ObjectMeta :=
  {| om_Name := name; om_Namespace := kr_Namespace (bc_run context); om_Labels := labelsForRun (bc_run context);
     om_Annotations := annotationsForRun (bc_run context); om_OwnerReferences := [ownerReference (bc_run context)] |}.

Definition buildServiceAccount (context : buildContext) : ServiceAccount :=
  {| sa_Meta := ownedMeta context (rn_ServiceAccount (bc_names context)); sa_AutomountServiceAccountToken := Some false;
     sa_Secrets := []; sa_ImagePullSecrets := [] |}.

(** [json.Marshal] of a map writes the members in the order of their names. *)
Definition runtimeConfig (run : AgentRunResource) : JSON :=
  let spec := kr_Spec run in
  JObject
    [ (bytes "artifactDestinationRef", JText (sp_ArtifactDestinationRef spec));
      (bytes "attempt", JInt (CurrentAttempt run));
      (bytes "attemptId", JText (sp_AttemptID spec));
      (bytes "configurationRefs", JArray (JText <$> sortedReferences (sp_ConfigurationRefs spec)));
      (bytes "projectId", JText (sp_ProjectID spec));
      (bytes "runId", JText (sp_RunID spec));
      (bytes "schemaVersion", JInt 1);
      (bytes "secretRefs", JArray (JText <$> sortedReferences (sp_SecretRefs spec)));
      (bytes "taskRef", JText (sp_TaskRef spec));
      (bytes "tenantId", JText (sp_TenantID spec));
      (bytes "timeoutSeconds", JInt (sp_TimeoutSeconds spec)) ].

Definition buildConfigMap (context : buildContext) : ConfigMap :=
  {| cm_Meta := ownedMeta context (rn_Configuration (bc_names context)); cm_Immutable := Some true;
     cm_Data := {["config.json" := String.string_of_list_ascii (print (runtimeConfig (bc_run context)))]}; cm_BinaryData := ∅ |}.

Definition retentionAnnotation : string := "execution.agentforge.dev/retention-policy".

Definition buildPVC (context : buildContext) : PersistentVolumeClaim :=
  let run := bc_run context in
  let name := rn_Workspace (bc_names context) in
  let workspace := sp_Workspace (kr_Spec run) in
  {| pvc_Meta :=
       if wk_RetentionPolicy workspace == WorkspaceRetentionDelete then ownedMeta context name
       else {| om_Name := name; om_Namespace := kr_Namespace run; om_Labels := labelsForRun run;
               om_Annotations := <[retentionAnnotation := "Retain"]> (annotationsForRun run); om_OwnerReferences := [] |};
     pvc_AccessModes := ["ReadWriteOnce"];
     pvc_StorageBytes := mul64 (mul64 (mul64 (wk_SizeGiB workspace) 1024) 1024) 1024;
     pvc_StorageClassName :=
       if wk_StorageClassName workspace == EmptyString then None else Some (wk_StorageClassName workspace) |}.

Definition buildNetworkPolicy (context : buildContext) : NetworkPolicy :=
  {| np_Meta := ownedMeta context (rn_NetworkPolicy (bc_names context));
     np_PodSelector := workloadSelectorLabels (bc_run context); np_PolicyTypes := ["Ingress"; "Egress"]; np_Ingress := Some [];
     np_Egress := match bc_egress context with Some policy => ey_Rules policy | None => [] end |}.

Definition runtimeConfigPath : string := "/etc/agentforge/runtime".
Definition workspaceMountPath : string := "/workspace".
Definition configMountRoot : string := "/etc/agentforge/config".
Definition secretMountRoot : string := "/var/run/agentforge/secrets".
Definition nonRootUID : Z := 65532.

(** [%02d] *)
Definition twoDigits (n : nat) : string := if (n <? 10)%nat then "0" +:+ Itoa (Z.of_nat n) else Itoa (Z.of_nat n).

Definition volumesAndMounts (context : buildContext) : list Volume * list VolumeMount :=
  let spec := kr_Spec (bc_run context) in
  let configurations := sortedReferences (sp_ConfigurationRefs spec) in
  let secrets := sortedReferences (sp_SecretRefs spec) in
  ([ {| vo_Name := "workspace"; vo_Source := VolumeClaim (rn_Workspace (bc_names context)) |};
     {| vo_Name := "runtime-config"; vo_Source := VolumeConfigMap (rn_Configuration (bc_names context)) 292 |};
     {| vo_Name := "artifact-destination"; vo_Source := VolumeConfigMap (sp_ArtifactDestinationRef spec) 292 |};
     {| vo_Name := "tmp"; vo_Source := VolumeEmptyDir (64 * 1024 * 1024) |};
     {| vo_Name := "home"; vo_Source := VolumeEmptyDir (256 * 1024 * 1024) |} ]
   ++ imap (fun i r => {| vo_Name := "external-config-" +:+ twoDigits i; vo_Source := VolumeConfigMap r 292 |}) configurations
   ++ imap (fun i r => {| vo_Name := "external-secret-" +:+ twoDigits i; vo_Source := VolumeSecret r 288 |}) secrets,
   [ {| vm_Name := "workspace"; vm_MountPath := workspaceMountPath; vm_ReadOnly := false |};
     {| vm_Name := "runtime-config"; vm_MountPath := runtimeConfigPath; vm_ReadOnly := true |};
     {| vm_Name := "artifact-destination"; vm_MountPath := "/etc/agentforge/artifacts"; vm_ReadOnly := true |};
     {| vm_Name := "tmp"; vm_MountPath := "/tmp"; vm_ReadOnly := false |};
     {| vm_Name := "home"; vm_MountPath := "/home/agent"; vm_ReadOnly := false |} ]
   ++ imap (fun i r => {| vm_Name := "external-config-" +:+ twoDigits i; vm_MountPath := configMountRoot +:+ "/" +:+ r; vm_ReadOnly := true |}) configurations
   ++ imap (fun i r => {| vm_Name := "external-secret-" +:+ twoDigits i; vm_MountPath := secretMountRoot +:+ "/" +:+ r; vm_ReadOnly := true |}) secrets).

Definition resourceList (values : ResourceValues) : ResourceList :=
  {| rl_CPUMillis := rv_CPUMillis values; rl_MemoryBytes := mul64 (mul64 (rv_MemoryMiB values) 1024) 1024 |}.

Definition runnerSecurityContext : SecurityContext :=
  {| sc_RunAsNonRoot := Some true; sc_RunAsUser := Some nonRootUID; sc_RunAsGroup := Some nonRootUID; sc_Privileged := Some false;
     sc_AllowPrivilegeEscalation := Some false; sc_ReadOnlyRootFilesystem := Some true; sc_Capabilities := Some ([], ["ALL"]);
     sc_SeccompProfile := Some "RuntimeDefault" |}.

Definition runnerContainer (context : buildContext) : Container :=
  let spec := kr_Spec (bc_run context) in
  {| co_Name := "runner"; co_Image := sp_RunnerImage spec; co_ImagePullPolicy := "IfNotPresent";
     co_Env := [("AGENTFORGE_RUN_CONFIG", runtimeConfigPath +:+ "/config.json"); ("AGENTFORGE_WORKSPACE", workspaceMountPath)];
     co_Requests := resourceList (rq_Requests (sp_Resources spec)); co_Limits := resourceList (rq_Limits (sp_Resources spec));
     co_SecurityContext := Some runnerSecurityContext; co_VolumeMounts := (volumesAndMounts context).2;
     co_TerminationMessagePolicy := "File" |}.

Definition podSpec (context : buildContext) : PodSpec :=
  let profile := bc_profile context in
  {| ps_ServiceAccountName := rn_ServiceAccount (bc_names context); ps_AutomountServiceAccountToken := Some false;
     ps_RestartPolicy := "Never"; ps_TerminationGracePeriodSeconds := ep_TerminationGracePeriodSeconds profile;
     ps_EnableServiceLinks := false; ps_HostNetwork := false; ps_HostPID := false; ps_HostIPC := false;
     ps_NodeSelector := ep_NodeSelector profile; ps_Tolerations := ep_Tolerations profile;
     ps_TopologySpreadConstraints :=
       (fun key => {| ts_MaxSkew := 1; ts_TopologyKey := key; ts_WhenUnsatisfiable := "ScheduleAnyway";
                      ts_LabelSelector := workloadSelectorLabels (bc_run context) |}) <$> ep_TopologyKeys profile;
     ps_PriorityClassName := ep_PriorityClassName profile;
     ps_NodeAffinity := [("node-role.kubernetes.io/control-plane", "DoesNotExist"); ("node-role.kubernetes.io/master", "DoesNotExist")];
     ps_SecurityContext :=
       Some {| psc_RunAsNonRoot := Some true; psc_RunAsUser := Some nonRootUID; psc_RunAsGroup := Some nonRootUID;
               psc_FSGroup := Some nonRootUID; psc_FSGroupChangePolicy := Some "OnRootMismatch";
               psc_SeccompProfile := Some "RuntimeDefault" |};
     ps_Containers := [runnerContainer context]; ps_InitContainers := []; ps_EphemeralContainers := [];
     ps_Volumes := (volumesAndMounts context).1;
     ps_RuntimeClassName := if ep_RuntimeClassName profile == EmptyString then None else Some (ep_RuntimeClassName profile) |}.

Definition buildJob (context : buildContext) : JobObject :=
  {| jo_Meta := ownedMeta context (rn_Job (bc_names context));
     jo_Spec :=
       {| js_Parallelism := Some 1; js_Completions := Some 1; js_BackoffLimit := Some 0;
          js_ActiveDeadlineSeconds := Some (sp_TimeoutSeconds (kr_Spec (bc_run context)));
          js_TemplateLabels := labelsForRun (bc_run context); js_TemplateAnnotations := annotationsForRun (bc_run context);
          js_PodSpec := podSpec context |} |}.

Definition BuildAll (b : Builder) (run : AgentRunResource) : res ExecutionResources :=
  context ← resolve b run;
  let result := {| er_ServiceAccount := Some (buildServiceAccount context); er_Configuration := Some (buildConfigMap context);
                   er_Workspace := Some (buildPVC context); er_NetworkPolicy := Some (buildNetworkPolicy context);
                   er_Job := Some (buildJob context) |} in
  _ ← ValidateSecurity result;
  Ok result.

Definition BuildJob (b : Builder) (run : AgentRunResource) : res JobObject :=
  context ← resolve b run;
  _ ← ValidateSecurity {| er_ServiceAccount := Some (buildServiceAccount context); er_Configuration := None; er_Workspace := None;
                          er_NetworkPolicy := Some (buildNetworkPolicy context); er_Job := Some (buildJob context) |};
  Ok (buildJob context).
End Resources.

(** ** Lemmas *)

Lemma checkAll_ok {A} (check : A -> res unit) l : checkAll check l = Ok tt <-> Forall (fun a => check a = Ok tt) l.
Proof.
  induction l as [|a l IH]; simpl; [split; [constructor|done]|].
  rewrite Forall_cons, <-IH. split; [by intros ([] & H1 & H2)%bind_ok|]. intros [-> H2]. done.
Qed.

Lemma checkAll_app {A} (check : A -> res unit) l k : checkAll check (l ++ k) = (_ ← checkAll check l; checkAll check k).
Proof. induction l as [|a l IH]; simpl; [done|]. by destruct (check a). Qed.

(** A loop whose check is one guard with one error. *)
Lemma checkAll_failIf {A} (f : A -> bool) e l : checkAll (fun a => failIf (f a) e) l = failIf (existsb f l) e.
Proof. induction l as [|a l IH]; simpl; [done|]. rewrite bind_failIf. by destruct (f a). Qed.

Definition nameByte (c : Ascii.ascii) : bool := lowerAlnum c || hyphen c || dot c.

Lemma dnsGroup_bytes l : dnsGroup l = true -> forallb nameByte l = true.
Proof.
  destruct l as [|c l]; [done|]. unfold dnsGroup. intros [[H1 H2]%andb_prop _]%andb_prop. simpl. unfold nameByte at 1. rewrite H1. simpl.
  revert H2. apply forallb_mono. intros a Ha. unfold nameByte. by rewrite Ha.
Qed.

Lemma splitOn_bytes l : forallb dnsGroup (splitOn dotByte l) = true -> forallb nameByte l = true.
Proof.
  assert (H : forall k, forallb (forallb nameByte) (splitOn dotByte k) = true -> forallb nameByte k = true).
  { induction k as [|c k IH]; simpl; [done|]. destruct (Ascii.eqb c dotByte) eqn:E.
    - apply Ascii.eqb_eq in E as ->. simpl. auto.
    - destruct (splitOn dotByte k) as [|part parts]; simpl; intros Hk; [rewrite !andb_true_r in Hk; rewrite Hk; by apply IH|].
      apply andb_prop in Hk as [[Hc Hp]%andb_prop Hps]. rewrite Hc. apply IH. simpl. by rewrite Hp. }
  intros Hl. apply H. revert Hl. apply forallb_mono, dnsGroup_bytes.
Qed.

(** A byte of a mount path. *)
Definition pathByte (c : Ascii.ascii) : bool := nameByte c || slash c.

Lemma pathByte_lower c : pathByte c = true -> byte_in 65 90 c = false /\ byte_is 196 c = false /\ byte_is 226 c = false.
Proof. destruct c as [[] [] [] [] [] [] [] []]; intros Hc; try discriminate Hc; split_and!; reflexivity. Qed.

Lemma lowerBytes_id l : forallb pathByte l = true -> lowerBytes l = l.
Proof.
  induction l as [|c l IH]; [done|]. simpl forallb. intros [Hc Hl]%andb_prop. specialize (IH Hl).
  destruct (pathByte_lower c Hc) as (E1 & E2 & E3). cbn [lowerBytes]. rewrite E1, E2, E3. cbn [andb].
  destruct l as [|d [|e l]]; by rewrite IH.
Qed.

Lemma containsBytes_skip p l c sub :
  forallb (fun a => negb (Ascii.eqb c a)) p = true -> containsBytes (p ++ l) (c :: sub) = containsBytes l (c :: sub).
Proof.
  induction p as [|a p IH]; [done|]. simpl forallb. intros [Ha Hp]%andb_prop. apply negb_true_iff in Ha.
  cbn [app containsBytes hasPrefixBytes]. rewrite Ha. cbn [andb orb]. by apply IH.
Qed.

Section Security.
Context `{K8sValidation} `{NetIP} `{SHA256}.

Lemma IsDNS1123_bytes s : IsDNS1123Subdomain s = true -> forallb nameByte (bytes s) = true.
Proof. intros [Hs _]%IsDNS1123Subdomain_documented. by apply splitOn_bytes. Qed.

(** The mount path of a reference looks like a container socket only when its name does. *)
Lemma dockerSocket_mount root r :
  forallb pathByte (bytes root) = true -> forallb (fun a => negb (byte_is 100 a)) (bytes root) = true -> root +:+ r <> "/var/run/docker" ->
  IsDNS1123Subdomain r = true -> dockerSocket (root +:+ r) = Contains r "docker.sock".
Proof.
  intros Hroot Hd Hne Hr. pose proof (IsDNS1123_bytes r Hr) as Hn. unfold dockerSocket, Contains.
  rewrite bool_decide_eq_false_2 by done. rewrite orb_false_r, bytes_app, lowerBytes_id.
  - change (bytes "docker.sock") with (Ascii.ascii_of_nat 100 :: bytes "ocker.sock"). apply containsBytes_skip.
    revert Hd. apply forallb_mono. intros a. rewrite !negb_true_iff. intros Ha. destruct (Ascii.eqb_spec (Ascii.ascii_of_nat 100) a) as [<-|]; done.
  - rewrite forallb_app, Hroot. revert Hn. apply forallb_mono. intros a Ha. unfold pathByte. by rewrite Ha.
Qed.

Lemma dockerSocket_config r : IsDNS1123Subdomain r = true -> dockerSocket (configMountRoot +:+ "/" +:+ r) = Contains r "docker.sock".
Proof. intros Hr. apply (dockerSocket_mount "/etc/agentforge/config/"); done. Qed.

Lemma dockerSocket_secret r : IsDNS1123Subdomain r = true -> dockerSocket (secretMountRoot +:+ "/" +:+ r) = Contains r "docker.sock".
Proof. intros Hr. apply (dockerSocket_mount "/var/run/agentforge/secrets/"); done. Qed.

(** The egress policy a run names, of those the builder was configured with. *)
Definition approvedEgress (b : Builder) (run : AgentRunResource) : option EgressPolicy :=
  match nw_AllowedDestinationsRef (sp_Network (kr_Spec run)) with
  | Some reference => bu_egressPolicies b !! reference
  | None => None
  end.

(** What a resolved context guarantees. *)
Lemma resolve_ok b run context :
  resolve b run = Ok context ->
  bc_run context = run /\ ForAgentRun run = Ok (bc_names context) /\
  1 <= sp_TimeoutSeconds (kr_Spec run) <= 86400 /\
  Forall (fun r => IsDNS1123Subdomain r = true)
    (sp_ConfigurationRefs (kr_Spec run) ++ sp_SecretRefs (kr_Spec run) ++ [sp_ArtifactDestinationRef (kr_Spec run)]) /\
  bu_profiles b !! sp_ExecutionProfile (kr_Spec run) = Some (bc_profile context) /\
  bc_egress context = approvedEgress b run.
Proof.
  unfold resolve. intros Hr. do 2 (apply bind_ok in Hr as ([] & _ & Hr)). apply bind_ok in Hr as ([] & Hv & Hr).
  apply bind_ok in Hr as (names & Hn & Hr). apply bind_ok in Hr as (profile & Hp & Hr). apply bind_ok in Hr as (egress & He & Hr).
  apply Ok_inj in Hr. subst context. simpl. unfold validateRunForBuild in Hv.
  apply bind_ok in Hv as ([] & _ & Hv). apply bind_ok in Hv as ([] & Ht%failIf_ok & Hv). apply bind_ok in Hv as ([] & _ & Hv).
  apply checkAll_ok in Hv. split_and!; [done|done|lia|lia| | |].
  - eapply Forall_impl; [exact Hv|]. intros r Hr%failIf_ok. by apply negb_false_iff in Hr.
  - unfold profileForRun in Hp. by destruct (_ !! _); [apply Ok_inj in Hp as ->|].
  - unfold egressForRun in He. unfold approvedEgress. repeat case_match; try discriminate; by apply Ok_inj in He as <-.
Qed.

Lemma addPolicies_valid policies known known' :
  addPolicies policies known = Ok known' ->
  map_Forall (fun _ policy => validateEgressPolicy policy = Ok tt) known ->
  map_Forall (fun _ policy => validateEgressPolicy policy = Ok tt) known'.
Proof.
  revert known. induction policies as [|policy policies IH]; simpl; intros known E Hk; [by apply Ok_inj in E as <-|].
  apply bind_ok in E as ([] & Hv & E). apply bind_ok in E as ([] & _ & E). eapply IH; [exact E|]. by apply map_Forall_insert_2.
Qed.

Lemma builder_policies profiles policies b :
  NewBuilder profiles policies = Ok b -> map_Forall (fun _ policy => validateEgressPolicy policy = Ok tt) (bu_egressPolicies b).
Proof.
  unfold NewBuilder. intros E. apply bind_ok in E as ([] & _ & E). apply bind_ok in E as (known & _ & E). apply bind_ok in E as (ps & Hp & E).
  apply Ok_inj in E. subst b. simpl. eapply addPolicies_valid; [exact Hp|]. apply map_Forall_empty.
Qed.

Lemma policy_rules_secure policy :
  validateEgressPolicy policy = Ok tt ->
  checkAll (fun rule => _ ← failIf (bool_decide (eg_To rule = []) || bool_decide (eg_Ports rule = [])) (ErrPlain "wildcard egress is prohibited");
                        checkAll validateNetworkPeer (eg_To rule)) (ey_Rules policy) = Ok tt.
Proof.
  unfold validateEgressPolicy. intros E. apply bind_ok in E as ([] & _ & E). apply bind_ok in E as ([] & _ & E).
  apply checkAll_ok in E. apply checkAll_ok. eapply Forall_impl; [exact E|]. simpl. intros rule Hr.
  apply bind_ok in Hr as ([] & Hg%failIf_ok & Hr). apply bind_ok in Hr as ([] & Hp & _). by rewrite Hg.
Qed.

Lemma existsb_imap {A B} (f : B -> bool) (g : nat -> A -> B) l (h : A -> bool) :
  (forall i a, a ∈ l -> f (g i a) = h a) -> existsb f (imap g l) = existsb h l.
Proof.
  revert g. induction l as [|a l IH]; intros g Hg; simpl; [done|]. rewrite Hg by left. f_equal.
  apply IH. intros i x Hx. apply Hg. by right.
Qed.

Lemma elem_of_sorted r references : r ∈ sortedReferences references -> r ∈ references.
Proof. unfold sortedReferences. by rewrite (merge_sort_Permutation refLe). Qed.

Lemma existsb_sorted f references : existsb f (sortedReferences references) = existsb f references.
Proof.
  apply eq_iff_eq_true. rewrite !existsb_exists. setoid_rewrite <-list_elem_of_In.
  split; intros (x & Hx & Hf); exists x; (split; [|done]);
    [by apply elem_of_sorted|unfold sortedReferences; by rewrite (merge_sort_Permutation refLe)].
Qed.

Lemma mounts_checked b run context :
  resolve b run = Ok context ->
  existsb (fun mount => dockerSocket (vm_MountPath mount)) (volumesAndMounts context).2 =
  existsb (fun r => Contains r "docker.sock") (sp_ConfigurationRefs (kr_Spec run) ++ sp_SecretRefs (kr_Spec run)).
Proof.
  intros (Hrun & _ & _ & Hrefs & _)%resolve_ok. unfold volumesAndMounts. rewrite Hrun. cbn [snd].
  apply Forall_app in Hrefs as [Hc [Hs _]%Forall_app]. rewrite !existsb_app.
  rewrite (existsb_imap _ _ _ (fun r => Contains r "docker.sock")).
  2:{ intros i r Hr. apply elem_of_sorted in Hr. simpl. apply dockerSocket_config. rewrite Forall_forall in Hc. by apply Hc. }
  rewrite (existsb_imap _ _ _ (fun r => Contains r "docker.sock")).
  2:{ intros i r Hr. apply elem_of_sorted in Hr. simpl. apply dockerSocket_secret. rewrite Forall_forall in Hs. by apply Hs. }
  rewrite !existsb_sorted. reflexivity.
Qed.

(** A volume that gives no access to the host and holds no API token. *)
Definition plainVolume (v : Volume) : Prop :=
  match vo_Source v with VolumeHostPath _ | VolumeProjected _ => False | _ => True end.

Lemma volumes_plain context : Forall plainVolume (volumesAndMounts context).1.
Proof.
  unfold volumesAndMounts. cbn [fst]. repeat (apply Forall_app; split).
  - by repeat constructor.
  - apply Forall_lookup. intros i v Hv. rewrite list_lookup_imap in Hv. destruct (_ !! i); [|done]. by injection Hv as <-.
  - apply Forall_lookup. intros i v Hv. rewrite list_lookup_imap in Hv. destruct (_ !! i); [|done]. by injection Hv as <-.
Qed.

Lemma volumes_checked context : checkAll validateVolume (volumesAndMounts context).1 = Ok tt.
Proof.
  apply checkAll_ok. eapply Forall_impl; [apply volumes_plain|]. intros v. unfold plainVolume, validateVolume. by destruct (vo_Source v).
Qed.

(** The objects of a context, as [BuildAll] puts them together. *)
Definition built (context : buildContext) : ExecutionResources :=
  {| er_ServiceAccount := Some (buildServiceAccount context); er_Configuration := Some (buildConfigMap context);
     er_Workspace := Some (buildPVC context); er_NetworkPolicy := Some (buildNetworkPolicy context);
     er_Job := Some (buildJob context) |}.

Lemma built_security profiles policies b run context :
  NewBuilder profiles policies = Ok b -> resolve b run = Ok context ->
  ValidateSecurity (built context) =
  failIf (existsb (fun r => Contains r "docker.sock") (sp_ConfigurationRefs (kr_Spec run) ++ sp_SecretRefs (kr_Spec run)))
    (ErrPlain "docker socket mounts are prohibited").
Proof.
  intros Hb Hr. pose proof (mounts_checked b run context Hr) as Hm. destruct (resolve_ok b run context Hr) as (Hrun & _ & Ht & _ & _ & He).
  unfold ValidateSecurity, built. cbn [er_ServiceAccount er_NetworkPolicy er_Job]. 
  rewrite bind_failIf. rewrite bool_decide_eq_true_2 by done. cbn [negb].
  assert (Hn : validateNetworkPolicySecurity (buildNetworkPolicy context) = Ok tt).
  { unfold validateNetworkPolicySecurity, buildNetworkPolicy. cbn [np_PolicyTypes np_Ingress np_Egress].
    rewrite bind_failIf. change (_ || _ || _) with false. cbv iota. rewrite bind_failIf, bool_decide_eq_true_2 by done. cbn [negb].
    destruct (bc_egress context) as [policy|]; [|done]. apply policy_rules_secure. unfold approvedEgress in He.
    destruct (nw_AllowedDestinationsRef _) as [reference|]; [|done]. symmetry in He.
    exact (builder_policies profiles policies b Hb reference policy He). }
  rewrite Hn. cbn [mbind res_bind]. unfold validatePodSecurity, buildJob, podSpec.
  cbn [jo_Spec js_PodSpec ps_HostNetwork ps_HostPID ps_HostIPC ps_AutomountServiceAccountToken ps_SecurityContext ps_Containers
    ps_InitContainers ps_EphemeralContainers js_ActiveDeadlineSeconds js_BackoffLimit ps_Volumes].
  rewrite bind_failIf. cbn [orb]. do 2 (rewrite bind_failIf, ?bool_decide_eq_true_2 by done; cbn [negb andb psc_RunAsNonRoot psc_SeccompProfile]).
  change (runnerContext (co_SecurityContext (runnerContainer context))) with true.
  change (dropsAll (co_SecurityContext (runnerContainer context))) with true.
  do 3 (rewrite bind_failIf; cbn [negb]). rewrite (proj2 (Z.leb_le 1 _)) by (rewrite Hrun; lia).
  cbn [negb orb]. rewrite volumes_checked. cbn [mbind res_bind]. rewrite checkAll_failIf.
  unfold runnerContainer. cbn [co_VolumeMounts]. by rewrite Hm.
Qed.

(** The restricted posture of an execution: no API token, no host namespace, one
    unprivileged non-root container, bounded run time without Kubernetes retries, no
    host path or token volume, and a network policy that selects exactly this attempt's
    pods, denies ingress and allows only the rules of the approved policy. *)
Definition restricted (run : AgentRunResource) (approved : option EgressPolicy) (r : ExecutionResources) : Prop :=
  exists account policy job container,
    er_ServiceAccount r = Some account /\ er_NetworkPolicy r = Some policy /\ er_Job r = Some job /\
    sa_AutomountServiceAccountToken account = Some false /\
    np_PodSelector policy = workloadSelectorLabels run /\ np_PolicyTypes policy = ["Ingress"; "Egress"] /\
    np_Ingress policy = Some [] /\ np_Egress policy = match approved with Some p => ey_Rules p | None => [] end /\
    workloadSelectorLabels run ⊆ js_TemplateLabels (jo_Spec job) /\
    js_BackoffLimit (jo_Spec job) = Some 0 /\ js_Parallelism (jo_Spec job) = Some 1 /\ js_Completions (jo_Spec job) = Some 1 /\
    js_ActiveDeadlineSeconds (jo_Spec job) = Some (sp_TimeoutSeconds (kr_Spec run)) /\ 1 <= sp_TimeoutSeconds (kr_Spec run) <= 86400 /\
    let pod := js_PodSpec (jo_Spec job) in
    ps_AutomountServiceAccountToken pod = Some false /\ ps_HostNetwork pod = false /\ ps_HostPID pod = false /\ ps_HostIPC pod = false /\
    ps_Containers pod = [container] /\ ps_InitContainers pod = [] /\ ps_EphemeralContainers pod = [] /\
    co_SecurityContext container = Some runnerSecurityContext /\
    Forall plainVolume (ps_Volumes pod) /\
    Forall (fun m => dockerSocket (vm_MountPath m) = false) (co_VolumeMounts container).

Lemma selector_in_labels run : workloadSelectorLabels run ⊆ labelsForRun run.
Proof.
  apply map_subseteq_spec. intros k v Hk. unfold workloadSelectorLabels in Hk. simpl in Hk.
  rewrite !lookup_insert_Some, lookup_empty in Hk. unfold labelsForRun. simpl.
  destruct Hk as [[<- <-]|[Hne [[<- <-]|[_ ?]]]]; [| |done]; repeat (rewrite lookup_insert_ne by done); apply lookup_insert_eq.
Qed.

(** C20: What the operator builds is locked down, and its own checks reject nothing
    else. For a builder made from validated configuration and a run it can resolve,
    building fails exactly when a configuration or secret reference's name contains
    "docker.sock"; otherwise it returns the objects of the attempt, and they have the
    restricted posture, with egress limited to the approved policy the run names. *)
Theorem BuildAll_restricted profiles policies b run context :
  NewBuilder profiles policies = Ok b -> resolve b run = Ok context ->
  if existsb (fun r => Contains r "docker.sock") (sp_ConfigurationRefs (kr_Spec run) ++ sp_SecretRefs (kr_Spec run))
  then BuildAll b run = Err (ErrPlain "docker socket mounts are prohibited")
  else BuildAll b run = Ok (built context) /\ restricted run (approvedEgress b run) (built context).
Proof.
  intros Hb Hr. pose proof (built_security _ _ _ _ _ Hb Hr) as Hs. unfold BuildAll. rewrite Hr. cbn [mbind res_bind].
  fold (built context). rewrite Hs. pose proof (mounts_checked b run context Hr) as Hm.
  destruct (existsb (fun r => Contains r _) _); [done|]. split; [done|].
  destruct (resolve_ok b run context Hr) as (Hrun & _ & Ht & _ & _ & He).
  subst run. exists (buildServiceAccount context), (buildNetworkPolicy context), (buildJob context), (runnerContainer context).
  split_and!; try reflexivity; try lia; [by rewrite <-He|apply selector_in_labels|]. split_and!; try reflexivity; [apply volumes_plain|].
  apply Forall_forall. intros m Hin. destruct (dockerSocket (vm_MountPath m)) eqn:E; [|done].
  rewrite <-Hm. symmetry. apply existsb_exists. exists m. split; [by apply list_elem_of_In|done].
Qed.
End Security.
