(* ===== verification/Lifecycle.v ===== *)
(** * Observing an execution (operator/internal/controller/lifecycle.go)

    The lifecycle of an attempt as the operator reads it from the Job and its Pods:
    the choice of the Pod, the classification of failures, the mandatory result
    evidence in the runner's termination message, and the projection of what was
    observed into the resource's status and attempt history. *)

From S2P Require Import Prelude Json AgentRun Policy Cluster Events JsonDecode OpTypes.

(** ** Jobs and Pods, as far as the operator reads them *)

Record JobCondition := {
  jc_Type : string;
  jc_Status : ConditionStatus;
  jc_Reason : string;
  jc_LastTransitionTime : Time;
}.

(** [jb_StartTime] and the times below are nil or a time; the zero time is [0]. *)
Record Job := {
  jb_Name : string;
  jb_UID : string;
  jb_DeletionTimestamp : option Time;
  jb_StartTime : option Time;
  jb_CompletionTime : option Time;
  jb_Active : Z;
  jb_Succeeded : Z;
  jb_Failed : Z;
  jb_Conditions : list JobCondition;
}.

Record ContainerStateTerminated := {
  ct_ExitCode : Z;
  ct_Reason : string;
  ct_Message : string;
  ct_FinishedAt : Time;
}.

Record ContainerStatus := {
  cs_Name : string;
  cs_Waiting : option string;  (* the reason *)
  cs_Running : option Time;    (* started at *)
  cs_Terminated : option ContainerStateTerminated;
}.

Record PodCondition := {
  pc_Type : string;
  pc_Status : ConditionStatus;
  pc_Reason : string;
}.

(** The controller owner of an object: API version, kind, name and UID. *)
Record ControllerRef := {
  cr_APIVersion : string;
  cr_Kind : string;
  cr_Name : string;
  cr_UID : string;
}.

Record Pod := {
  pd_Name : string;
  pd_CreationTimestamp : Time;
  pd_Controller : option ControllerRef;
  pd_Reason : string;
  pd_Phase : string;
  pd_StartTime : option Time;
  pd_ContainerStatuses : list ContainerStatus;
  pd_Conditions : list PodCondition;
}.

(** ** Helpers *)

Definition findJobCondition (job : Job) (conditionType : string) : option JobCondition :=
  find (fun c => (jc_Type c == conditionType) && (jc_Status c == ConditionTrue)) (jb_Conditions job).

Definition findPodCondition (pod : Pod) (conditionType : string) : option PodCondition :=
  find (fun c => pc_Type c == conditionType) (pd_Conditions pod).

Definition runnerContainerStatus (pod : Pod) : option ContainerStatus :=
  find (fun c => cs_Name c == "runner") (pd_ContainerStatuses pod).

Definition runnerTermination (pod : Pod) : option ContainerStateTerminated :=
  container ← runnerContainerStatus pod; cs_Terminated container.

Definition jobCompletionTime (job : Job) : option Time :=
  match jb_CompletionTime job with
  | Some t => Some t
  | None =>
      match findJobCondition job "Failed" with
      | Some condition => Some (jc_LastTransitionTime condition)
      | None =>
          match findJobCondition job "FailureTarget" with
          | Some condition => Some (jc_LastTransitionTime condition)
          | None => None
          end
      end
  end.

Fixpoint firstTime (values : list (option Time)) : option Time :=
  match values with
  | [] => None
  | Some value :: rest => if IsZero value then firstTime rest else Some value
  | None :: rest => firstTime rest
  end.

(** ** Choice of the Pod *)

Definition ownedByJob (job : Job) (pod : Pod) : bool :=
  match pd_Controller pod with
  | Some owner =>
      (cr_APIVersion owner == "batch/v1") && (cr_Kind owner == "Job") && (cr_Name owner == jb_Name job) && (cr_UID owner == jb_UID job)
  | None => false
  end.

(** The order of the sort: by creation, then by name. *)
Definition podLe (left right : Pod) : Prop :=
  pd_CreationTimestamp left < pd_CreationTimestamp right \/
  (pd_CreationTimestamp left = pd_CreationTimestamp right /\ string_lt (pd_Name right) (pd_Name left) = false).

#[export] Instance podLe_dec left right : Decision (podLe left right).
Proof. unfold podLe. apply _. Defined.

Definition selectLifecyclePod (job : Job) (pods : list Pod) : option Pod :=
  last (merge_sort podLe (filter (fun pod => ownedByJob job pod = true) pods)).

(** ** Result evidence *)

Definition maximumTerminationEvidenceBytes : Z := 4096.

Record terminationEvidence := {
  te_SchemaVersion : Z;
  te_ArtifactManifestRef : string;
}.

(** [^[a-z][a-z0-9+.-]{1,31}://[^\s]+$] *)
Definition schemeByte (c : Ascii.ascii) : bool := lowerAlnum c || byte_is 43 c || dot c || hyphen c.

Definition regexSpace (c : Ascii.ascii) : bool := byte_is 9 c || byte_is 10 c || byte_is 12 c || byte_is 13 c || byte_is 32 c.

Fixpoint afterScheme (l : list Ascii.ascii) : list Ascii.ascii * list Ascii.ascii :=
  match l with
  | c :: rest => if schemeByte c then let '(scheme, tail) := afterScheme rest in (c :: scheme, tail) else ([], l)
  | [] => ([], [])
  end.

Definition artifactManifestReferencePattern (s : string) : bool :=
  let '(scheme, tail) := afterScheme (bytes s) in
  match scheme with
  | [] => false
  | c :: rest =>
      lowerAlpha c && (1 <=? length rest)%nat && (length rest <=? 31)%nat && hasPrefixBytes (bytes "://") tail
      && (1 <=? length (drop 3 tail))%nat && negb (existsb regexSpace (drop 3 tail))
  end.

Definition evidenceNames : list string := ["schemaVersion"; "artifactManifestRef"].

Definition storeEvidence (name : string) (e : terminationEvidence) (v : JSON) : option terminationEvidence :=
  if name == "schemaVersion" then
    (fun n => {| te_SchemaVersion := n; te_ArtifactManifestRef := te_ArtifactManifestRef e |}) <$> intoInt (te_SchemaVersion e) v
  else
    (fun s => {| te_SchemaVersion := te_SchemaVersion e; te_ArtifactManifestRef := s |}) <$> intoString (te_ArtifactManifestRef e) v.

Definition parseTerminationEvidence (message : string) : res terminationEvidence :=
  _ ← failIf ((len message =? 0) || (maximumTerminationEvidenceBytes <? len message)) (ErrPlain "termination evidence size is invalid");
  match decodeFirst (bytes message) with
  | None => Err (ErrPlain "decode termination evidence")
  | Some (value, rest) =>
      match intoRecord evidenceNames storeEvidence {| te_SchemaVersion := 0; te_ArtifactManifestRef := EmptyString |} value with
      | None => Err (ErrPlain "decode termination evidence")
      | Some evidence =>
          _ ← failIf (negb (atEOF rest)) (ErrPlain "termination evidence contains trailing data");
          _ ← failIf ((te_SchemaVersion evidence !=  1) || (2048 <? len (te_ArtifactManifestRef evidence))
                      || negb (artifactManifestReferencePattern (te_ArtifactManifestRef evidence)))
              (ErrPlain "termination evidence fields are invalid");
          Ok evidence
      end
  end.

(** ** The observation *)

Record lifecycleObservation := {
  lo_phase : AgentRunPhase;
  lo_reason : string;
  lo_message : string;
  lo_podName : string;
  lo_startTime : option Time;
  lo_completionTime : option Time;
  lo_failureCategory : FailureCategory;
  lo_failureReason : string;
  lo_artifactManifestRef : string;
}.

Definition failedObservation (reason message : string) (category : FailureCategory) (pod : Pod) : lifecycleObservation :=
  {| lo_phase := PhaseFailed; lo_reason := reason; lo_message := message; lo_podName := EmptyString;
     lo_startTime := pd_StartTime pod;
     lo_completionTime :=
       match runnerTermination pod with
       | Some terminated => if IsZero (ct_FinishedAt terminated) then None else Some (ct_FinishedAt terminated)
       | None => None
       end;
     lo_failureCategory := category; lo_failureReason := message; lo_artifactManifestRef := EmptyString |}.

Definition terminalPodObservation (pod : Pod) : option lifecycleObservation :=
  if pd_Reason pod == "Evicted" then
    Some (failedObservation "PodEvicted" "Execution Pod was evicted" FailureTransientDependency pod)
  else if pd_Reason pod == "NodeLost" then
    Some (failedObservation "NodeLost" "Execution Pod was lost with its node" FailureTransientDependency pod)
  else
    match runnerContainerStatus pod with
    | None => None
    | Some container =>
        let waiting := default EmptyString (cs_Waiting container) in
        if (waiting == "ErrImagePull") || (waiting == "ImagePullBackOff") then
          Some (failedObservation "ImagePullFailed" "Runner image could not be pulled" FailureTransientDependency pod)
        else if waiting == "InvalidImageName" then
          Some (failedObservation "InvalidImage" "Runner image reference was rejected" FailurePermanentDependency pod)
        else if waiting == "CreateContainerConfigError" then
          Some (failedObservation "ConfigurationError" "Runner container configuration was rejected" FailurePolicy pod)
        else if (waiting == "CreateContainerError") || (waiting == "RunContainerError") then
          Some (failedObservation "ContainerStartFailed" "Runner container could not start" FailurePermanentDependency pod)
        else
          match cs_Terminated container with
          | None => None
          | Some terminated =>
              if ct_ExitCode terminated =? 0 then None
              else if ct_Reason terminated == "OOMKilled" then
                Some (failedObservation "OOMKilled" "Runner exceeded its memory limit" FailureExecution pod)
              else
                Some (failedObservation "ProcessExitNonZero" "Runner process exited with a nonzero status" FailureExecution pod)
          end
    end.

Definition classifyJobFailure (reason : string) : FailureCategory * string * string :=
  if reason == "DeadlineExceeded" then (FailureExecution, "DeadlineExceeded", "Execution exceeded its active deadline")
  else if reason == "BackoffLimitExceeded" then (FailureExecution, "JobFailed", "Execution Job exhausted its zero-retry policy")
  else (FailureExecution, "JobFailed", "Execution Job reported failure").

(** An observation that is not terminal. *)
Definition progress (phase : AgentRunPhase) (reason message podName : string) (startTime : option Time) : lifecycleObservation :=
  {| lo_phase := phase; lo_reason := reason; lo_message := message; lo_podName := podName; lo_startTime := startTime;
     lo_completionTime := None; lo_failureCategory := FailureUnset; lo_failureReason := EmptyString;
     lo_artifactManifestRef := EmptyString |}.

Definition observeNonTerminalPod (pod : Pod) (startTime : option Time) : lifecycleObservation :=
  let at_ phase reason message := progress phase reason message (pd_Name pod) startTime in
  let unscheduled :=
    match findPodCondition pod "PodScheduled" with
    | Some condition =>
        if (pc_Status condition == ConditionFalse) && (pc_Reason condition == "Unschedulable") then
          Some (at_ PhaseProvisioning "PodUnschedulable" "Execution Pod cannot currently be scheduled")
        else if pc_Status condition == ConditionTrue then
          Some (at_ PhaseProvisioning "PodScheduled" "Execution Pod is scheduled and waiting for the runner")
        else None
    | None => None
    end in
  let byPod :=
    match unscheduled with
    | Some observation => observation
    | None =>
        if pd_Phase pod == "Running" then at_ PhaseRunning "PodRunning" "Execution Pod is running"
        else at_ PhaseProvisioning "PodPending" "Execution is waiting for an observed Pod"
    end in
  match runnerContainerStatus pod with
  | None => byPod
  | Some container =>
      match cs_Running container, cs_Waiting container, cs_Terminated container with
      | Some startedAt, _, _ =>
          progress PhaseRunning "RunnerActive" "Runner container is active" (pd_Name pod)
            (if IsZero startedAt then startTime else Some startedAt)
      | None, Some reason, _ =>
          if reason == "ContainerCreating" then at_ PhaseProvisioning "ContainerCreating" "Runner container is being created"
          else at_ PhaseProvisioning "PodPending" "Runner container is waiting"
      | None, None, Some terminated =>
          if ct_ExitCode terminated =? 0 then
            at_ PhaseProvisioning "JobCompletionPending" "Runner exited successfully and Job completion is pending"
          else byPod
      | None, None, None => byPod
      end
  end.

Definition failedJob (reason message podName : string) (startTime completionTime : option Time) (category : FailureCategory)
    (failureReason : string) : lifecycleObservation :=
  {| lo_phase := PhaseFailed; lo_reason := reason; lo_message := message; lo_podName := podName; lo_startTime := startTime;
     lo_completionTime := completionTime; lo_failureCategory := category; lo_failureReason := failureReason;
     lo_artifactManifestRef := EmptyString |}.

(** What a completed Job shows: success only with valid evidence. *)
Definition observeResult (job : Job) (pod : option Pod) (startTime : option Time) : lifecycleObservation :=
  match pod with
  | None => progress PhaseProvisioning "ResultEvidencePending" "Completed Job is waiting for Pod result evidence" EmptyString startTime
  | Some pod =>
      match runnerTermination pod with
      | None =>
          progress PhaseProvisioning "ResultEvidencePending" "Completed Job is waiting for runner termination evidence" (pd_Name pod) startTime
      | Some terminated =>
          let completion := firstTime [jb_CompletionTime job; Some (ct_FinishedAt terminated)] in
          match parseTerminationEvidence (ct_Message terminated) with
          | Err _ =>
              failedJob "ResultEvidenceInvalid" "Runner completed without valid mandatory result evidence" (pd_Name pod) startTime
                completion FailureExecution "Mandatory result evidence is missing or invalid"
          | Ok evidence =>
              {| lo_phase := PhaseSucceeded; lo_reason := "ResultEvidenceReady";
                 lo_message := "Execution completed with mandatory result evidence"; lo_podName := pd_Name pod;
                 lo_startTime := startTime; lo_completionTime := completion; lo_failureCategory := FailureUnset;
                 lo_failureReason := EmptyString; lo_artifactManifestRef := te_ArtifactManifestRef evidence |}
          end
      end
  end.

Definition jobFailure (job : Job) : option JobCondition :=
  match findJobCondition job "Failed" with
  | Some condition => Some condition
  | None => findJobCondition job "FailureTarget"
  end.

Definition jobComplete (job : Job) : bool := bool_decide (is_Some (findJobCondition job "Complete")) || (0 <? jb_Succeeded job).

(** The start of the execution: of the Job, else of the Pod. *)
Definition observedStart (job : Job) (pod : option Pod) : option Time :=
  match jb_StartTime job with
  | Some t => Some t
  | None => match pod with Some pod => pd_StartTime pod | None => None end
  end.

Definition observeLifecycle (job : Job) (pods : list Pod) : lifecycleObservation :=
  let pod := selectLifecyclePod job pods in
  let startTime := observedStart job pod in
  let podName := match pod with Some pod => pd_Name pod | None => EmptyString end in
  match (match pod with Some pod => terminalPodObservation pod | None => None end) with
  | Some failed =>
      {| lo_phase := lo_phase failed; lo_reason := lo_reason failed; lo_message := lo_message failed; lo_podName := podName;
         lo_startTime := match lo_startTime failed with Some t => Some t | None => startTime end;
         lo_completionTime := match lo_completionTime failed with Some t => Some t | None => jobCompletionTime job end;
         lo_failureCategory := lo_failureCategory failed; lo_failureReason := lo_failureReason failed;
         lo_artifactManifestRef := lo_artifactManifestRef failed |}
  | None =>
      match jobFailure job with
      | Some condition =>
          let '(category, reason, message) := classifyJobFailure (jc_Reason condition) in
          failedJob reason message podName startTime (firstTime [jb_CompletionTime job; Some (jc_LastTransitionTime condition)])
            category message
      | None =>
          if (0 <? jb_Failed job) && (jb_Active job =? 0) then
            failedJob "JobFailed" "Execution Job reported failure" podName startTime (jobCompletionTime job)
              FailureExecution "Execution Job reported failure"
          else if jobComplete job then observeResult job pod startTime
          else
            match pod with
            | None =>
                if 0 <? jb_Active job then
                  progress PhaseProvisioning "JobActive" "Execution Job is active and waiting for a Pod" EmptyString startTime
                else progress PhaseProvisioning "PodPending" "Execution is waiting for an observed Pod" EmptyString startTime
            | Some pod => observeNonTerminalPod pod startTime
            end
      end
  end.

(** ** What an observation means *)

(** Causes outside the run's control: the Pod was evicted or lost, or its image could
    not be pulled. *)
Definition transientCause (pod : Pod) : Prop :=
  pd_Reason pod = "Evicted" \/ pd_Reason pod = "NodeLost" \/
  exists container, runnerContainerStatus pod = Some container /\
    (cs_Waiting container = Some "ErrImagePull" \/ cs_Waiting container = Some "ImagePullBackOff").

Lemma terminalPod_failed pod failed :
  terminalPodObservation pod = Some failed ->
  lo_phase failed = PhaseFailed /\ lo_artifactManifestRef failed = EmptyString /\
  lo_failureCategory failed ∈ [FailureTransientDependency; FailurePermanentDependency; FailurePolicy; FailureExecution] /\
  (lo_failureCategory failed = FailureTransientDependency <-> transientCause pod).
Proof.
  unfold terminalPodObservation, transientCause.
  destruct (decide (pd_Reason pod = "Evicted")) as [E|E]; [rewrite bool_decide_eq_true_2 by done; intros [= <-]; simpl; set_solver|].
  rewrite bool_decide_eq_false_2 by done.
  destruct (decide (pd_Reason pod = "NodeLost")) as [N|N]; [rewrite bool_decide_eq_true_2 by done; intros [= <-]; simpl; set_solver|].
  rewrite bool_decide_eq_false_2 by done.
  destruct (runnerContainerStatus pod) as [container|] eqn:Ec; [|done].
  destruct (_ || _) eqn:Ep.
  { intros [= <-]. simpl. split_and!; [done|done|set_solver|]. split; [|done]. intros _. right; right. exists container. split; [done|].
    destruct (cs_Waiting container); cases_bools; simpl in *; subst; auto; done. }
  assert (Hnot : ~ (pd_Reason pod = "Evicted" \/ pd_Reason pod = "NodeLost" \/
    exists c, Some container = Some c /\ (cs_Waiting c = Some "ErrImagePull" \/ cs_Waiting c = Some "ImagePullBackOff"))).
  { intros [?|[?|(c & [= <-] & Hw)]]; [done..|]. destruct Hw as [Hw|Hw]; rewrite Hw in Ep; done. }
  assert (Hcat : forall category, category ∈ [FailurePermanentDependency; FailurePolicy; FailureExecution] ->
    category ∈ [FailureTransientDependency; FailurePermanentDependency; FailurePolicy; FailureExecution] /\ category <> FailureTransientDependency)
    by (intros category; set_solver).
  repeat case_match; intros Hf; try discriminate; injection Hf as <-; simpl; (split_and!; [done|done|set_solver|split; [done|intros []%Hnot]]).
Qed.

(** The conditions under which an execution has succeeded. *)
Definition succeeded (job : Job) (pods : list Pod) (reference : string) : Prop :=
  exists pod terminated evidence,
    selectLifecyclePod job pods = Some pod /\ terminalPodObservation pod = None /\ jobFailure job = None /\
    ~ (0 < jb_Failed job /\ jb_Active job = 0) /\ jobComplete job = true /\
    runnerTermination pod = Some terminated /\ parseTerminationEvidence (ct_Message terminated) = Ok evidence /\
    te_ArtifactManifestRef evidence = reference.

Lemma observeNonTerminalPod_phase pod startTime :
  let o := observeNonTerminalPod pod startTime in
  (lo_phase o = PhaseProvisioning \/ lo_phase o = PhaseRunning) /\ lo_failureCategory o = FailureUnset /\ lo_artifactManifestRef o = EmptyString.
Proof. unfold observeNonTerminalPod. repeat case_match; simplify_eq/=; auto. Qed.

Lemma classifyJobFailure_category reason : (classifyJobFailure reason).1.1 = FailureExecution.
Proof. unfold classifyJobFailure. by repeat case_match. Qed.

Lemma evidence_valid message evidence :
  parseTerminationEvidence message = Ok evidence ->
  len message <= 4096 /\ te_SchemaVersion evidence = 1 /\ len (te_ArtifactManifestRef evidence) <= 2048 /\
  artifactManifestReferencePattern (te_ArtifactManifestRef evidence) = true.
Proof.
  unfold parseTerminationEvidence. intros E. apply bind_ok in E as ([] & Hl%failIf_ok & E).
  destruct (decodeFirst _) as [[v rest]|]; [|done]. destruct (intoRecord _ _ _ _) as [e|]; [|done].
  apply bind_ok in E as ([] & _ & E). apply bind_ok in E as ([] & Hg%failIf_ok & E). apply Ok_inj in E. subst e.
  unfold maximumTerminationEvidenceBytes in Hl. reflect_bools. split_and!; [lia|done|lia|done].
Qed.

(** The order of the Pods does not matter when names are unique. *)
Lemma podLe_antisymm l p q :
  NoDup (pd_Name <$> l) -> p ∈ l -> q ∈ l -> podLe p q -> podLe q p -> p = q.
Proof.
  intros Hnd Hp Hq [H1|[E1 H1]] [H2|[E2 H2]]; try lia. pose proof (string_lt_total _ _ H2 H1) as Hn.
  apply list_elem_of_lookup in Hp as [i Hi]. apply list_elem_of_lookup in Hq as [j Hj].
  assert (i = j) as ->; [|congruence]. eapply NoDup_lookup; [exact Hnd|rewrite list_lookup_fmap, Hi; done|rewrite list_lookup_fmap, Hj; simpl; congruence].
Qed.

#[export] Instance podLe_total : Total podLe.
Proof.
  intros p q. unfold podLe. destruct (Z.lt_trichotomy (pd_CreationTimestamp p) (pd_CreationTimestamp q)) as [?|[->|?]]; [tauto| |tauto].
  destruct (string_lt (pd_Name q) (pd_Name p)) eqn:E1; [|tauto]. destruct (string_lt (pd_Name p) (pd_Name q)) eqn:E2; [|tauto].
  pose proof (string_lt_trans _ _ _ E1 E2) as E. by rewrite string_lt_irrefl in E.
Qed.

#[export] Instance podLe_transitive : Transitive podLe.
Proof.
  intros p q r [H1|[E1 H1]] [H2|[E2 H2]]; unfold podLe; [left; lia..|]. right. split; [lia|].
  destruct (string_lt (pd_Name r) (pd_Name p)) eqn:E; [|done]. destruct (string_lt (pd_Name p) (pd_Name q)) eqn:E'.
  - by rewrite (string_lt_trans _ _ _ E E') in H2.
  - pose proof (string_lt_total _ _ H1 E') as Hn. rewrite <-Hn in E. congruence.
Qed.

Lemma selectLifecyclePod_permutation job pods pods' :
  NoDup (pd_Name <$> pods) -> Permutation pods pods' -> selectLifecyclePod job pods = selectLifecyclePod job pods'.
Proof.
  intros Hnd Hp. unfold selectLifecyclePod. f_equal. apply (StronglySorted_unique_strong podLe).
  - intros p q Hp1 Hq Hpq Hqp. rewrite merge_sort_Permutation, list_elem_of_filter in Hp1, Hq. rewrite <-Hp in Hq.
    destruct Hp1 as [_ Hp1], Hq as [_ Hq]. by eapply podLe_antisymm.
  - apply (StronglySorted_merge_sort podLe).
  - apply (StronglySorted_merge_sort podLe).
  - rewrite !merge_sort_Permutation. by rewrite Hp.
Qed.

Lemma terminalPod_none pod : terminalPodObservation pod = None -> ~ transientCause pod.
Proof.
  unfold terminalPodObservation, transientCause. intros H [E|[E|(container & E & W)]].
  - by rewrite E in H.
  - by rewrite E in H.
  - destruct (bool_decide (pd_Reason pod = "Evicted")); [done|]. destruct (bool_decide (pd_Reason pod = "NodeLost")); [done|].
    rewrite E in H. destruct W as [W|W]; rewrite W in H; done.
Qed.

(** What a completed Job without signs of failure shows. *)
Lemma observeResult_phase job pods startTime :
  let pod := selectLifecyclePod job pods in
  match pod with Some pod => terminalPodObservation pod = None | None => True end -> jobFailure job = None ->
  ~ (0 < jb_Failed job /\ jb_Active job = 0) -> jobComplete job = true ->
  let o := observeResult job pod startTime in
  (lo_phase o = PhaseSucceeded /\ succeeded job pods (lo_artifactManifestRef o) /\ lo_failureCategory o = FailureUnset) \/
  (lo_phase o = PhaseFailed /\ lo_failureCategory o = FailureExecution /\ lo_artifactManifestRef o = EmptyString /\
   forall reference, ~ succeeded job pods reference) \/
  (lo_phase o = PhaseProvisioning /\ lo_failureCategory o = FailureUnset /\ lo_artifactManifestRef o = EmptyString /\
   forall reference, ~ succeeded job pods reference).
Proof.
  simpl. unfold succeeded. destruct (selectLifecyclePod job pods) as [pod|] eqn:Ep; cbn [observeResult].
  2:{ intros _ _ _ _. right; right. split_and!; [done..|]. intros reference (pod & ? & ? & [=] & _). }
  intros Ht Hf Hg Hc. destruct (runnerTermination pod) as [terminated|] eqn:Er.
  2:{ right; right. split_and!; [done..|]. intros reference (p & t & e & [= <-] & _ & _ & _ & _ & Hr & _). congruence. }
  destruct (parseTerminationEvidence (ct_Message terminated)) as [evidence|err] eqn:Ee.
  - left. split_and!; [done| |done]. by exists pod, terminated, evidence.
  - right; left. split_and!; [done..|]. intros reference (p & t & e & [= <-] & _ & _ & _ & _ & Hr & He & _). congruence.
Qed.

Lemma observeLifecycle_cases job pods :
  let o := observeLifecycle job pods in
  (lo_phase o = PhaseSucceeded /\ succeeded job pods (lo_artifactManifestRef o) /\ lo_failureCategory o = FailureUnset) \/
  ((forall reference, ~ succeeded job pods reference) /\ lo_artifactManifestRef o = EmptyString /\
   ((lo_phase o = PhaseFailed /\
     lo_failureCategory o ∈ [FailureTransientDependency; FailurePermanentDependency; FailurePolicy; FailureExecution] /\
     (lo_failureCategory o = FailureTransientDependency <->
      exists pod, selectLifecyclePod job pods = Some pod /\ transientCause pod)) \/
    ((lo_phase o = PhaseProvisioning \/ lo_phase o = PhaseRunning) /\ lo_failureCategory o = FailureUnset))).
Proof.
  intros o. unfold o, observeLifecycle. clear o. set (pod := selectLifecyclePod job pods).
  set (failed := match pod with Some pod => terminalPodObservation pod | None => None end).
  destruct failed as [f|] eqn:Ef.
  { right. destruct pod as [p|] eqn:Ep; [|done]. destruct (terminalPod_failed p f Ef) as (H1 & H2 & H3 & H4). simpl.
    split_and!; [|done|left; split_and!; [done..|]].
    - intros reference (p' & t & e & Hp & Hn & _). unfold pod in Ep. rewrite Ep in Hp. injection Hp as <-.
      change (terminalPodObservation p = Some f) in Ef. congruence.
    - rewrite H4. split; [by exists p|]. by intros (p' & [= <-] & ?). }
  assert (Hterm : match pod with Some pod => terminalPodObservation pod = None | None => True end) by (by destruct pod).
  assert (Hno : ~ exists p, pod = Some p /\ transientCause p).
  { intros (p & Ep & Hp). rewrite Ep in Hterm. by apply (terminalPod_none p). }
  assert (Hexec : FailureExecution ∈ [FailureTransientDependency; FailurePermanentDependency; FailurePolicy; FailureExecution] /\
    (FailureExecution = FailureTransientDependency <-> exists p, pod = Some p /\ transientCause p)).
  { split; [set_solver|]. split; [done|intros []%Hno]. }
  destruct (jobFailure job) as [condition|] eqn:Ej.
  { right. pose proof (classifyJobFailure_category (jc_Reason condition)) as Hc.
    destruct (classifyJobFailure (jc_Reason condition)) as [[category reason] message]. simpl in Hc. subst category. simpl.
    split_and!; [|done|left; split; done]. intros reference (p' & t & e & _ & _ & Hn & _). congruence. }
  destruct ((0 <? jb_Failed job) && (jb_Active job =? 0)) eqn:Eg.
  { right. simpl. split_and!; [|done|left; split; done]. intros reference (p' & t & e & _ & _ & _ & Hn & _). apply Hn. lia. }
  destruct (jobComplete job) eqn:Ec.
  { destruct (observeResult_phase job pods (observedStart job pod) Hterm Ej ltac:(lia) Ec) as [(H1 & H2 & H3)|[(H1 & H2 & H3 & H4)|(H1 & H2 & H3 & H4)]].
    - left. by split_and!.
    - right. fold pod in H2. split_and!; [done..|]. left. rewrite H2. split; [exact H1|exact Hexec].
    - right. split_and!; [done..|]. right. split; [by left|done]. }
  right. split; [intros reference (p' & t & e & _ & _ & _ & _ & Hn & _); congruence|].
  destruct pod as [p|]; [|destruct (0 <? jb_Active job); simpl; auto].
  destruct (observeNonTerminalPod_phase p (observedStart job (Some p))) as (H1 & H2 & H3). auto.
Qed.

(** The operator's verdict on an execution. An attempt is reported as succeeded
    exactly when the newest Pod of the Job shows no failure, the Job is complete
    without a failure condition, and the runner's termination message is valid
    evidence, whose manifest reference is then reported (at most 2048 bytes, of the
    required form). A failure has a category of the taxonomy, and the retryable
    "transient dependency" exactly when the Pod was evicted, lost with its node, or
    its image could not be pulled. No other phase than provisioning, running,
    succeeded or failed is reported; Pods of other owners and the order in which the
    Pods are listed do not matter. *)
Theorem observeLifecycle_verdict job pods :
  let o := observeLifecycle job pods in
  (lo_phase o = PhaseSucceeded <-> exists reference, succeeded job pods reference) /\
  match lo_phase o with
  | PhaseSucceeded =>
      succeeded job pods (lo_artifactManifestRef o) /\ lo_failureCategory o = FailureUnset /\
      len (lo_artifactManifestRef o) <= 2048 /\ artifactManifestReferencePattern (lo_artifactManifestRef o) = true
  | PhaseFailed =>
      lo_artifactManifestRef o = EmptyString /\
      lo_failureCategory o ∈ [FailureTransientDependency; FailurePermanentDependency; FailurePolicy; FailureExecution] /\
      (lo_failureCategory o = FailureTransientDependency <->
       exists pod, selectLifecyclePod job pods = Some pod /\ transientCause pod)
  | PhaseProvisioning | PhaseRunning => lo_artifactManifestRef o = EmptyString /\ lo_failureCategory o = FailureUnset
  | _ => False
  end /\
  observeLifecycle job (filter (fun pod => ownedByJob job pod = true) pods) = o /\
  (forall pods', NoDup (pd_Name <$> pods) -> Permutation pods pods' -> observeLifecycle job pods' = o).
Proof.
  intros o. split_and!.
  - destruct (observeLifecycle_cases job pods) as [(H1 & H2 & _)|(H1 & _ & H2)];
      [split; [intros _; by exists (lo_artifactManifestRef o)|done]|].
    split; [|intros [reference Hr]; by apply H1 in Hr]. intros Hp. exfalso. fold o in H2. destruct H2 as [[H2 _]|[[H2|H2] _]]; congruence.
  - destruct (observeLifecycle_cases job pods) as [(H1 & H2 & H3)|(H1 & H2 & [(H3 & H4)|([H3|H3] & H4)])]; fold o in H2, H3;
      [fold o in H1; rewrite H1|rewrite H3; by split..].
    split; [done|]. split; [done|]. destruct H2 as (pod & t & e & _ & _ & _ & _ & _ & _ & He & <-).
    by destruct (evidence_valid _ _ He) as (_ & _ & ? & ?).
  - unfold o, observeLifecycle, selectLifecyclePod. by rewrite list_filter_filter_r.
  - intros pods' Hnd Hp. unfold o, observeLifecycle. by rewrite (selectLifecyclePod_permutation job pods pods').
Qed.
