(* ===== verification/Operator.v ===== *)
(** * The AgentRun controller (operator/internal/controller)

    One call of [Reconcile] as a function of the resource it reads and of the answers
    the Kubernetes API gives to each of its calls ([World]); its result is the resource
    as it is stored afterwards, the writes issued in order, and what is returned to the
    work queue. A status or finalizer patch carries the resource version it was computed
    from, so it is stored only when the API accepts it.

    [System] runs the controller: reconciliations that read the newest version or, from a
    lagging cache, an older one whose patches are then refused, interleaved with the only
    change of desired state the schema admits (cancellation) and with deletion.

    The clock is read once per call. [meta.SetStatusCondition] and the semantic derivative
    comparison of specs are parameters. *)

From S2P Require Import Prelude Json AgentRun Policy Cluster Events JsonDecode OpTypes Builder Lifecycle.

(** ** Conditions *)

Definition FindStatusCondition (conditions : list Condition) (conditionType : string) : option Condition :=
  find (fun c => cn_Type c == conditionType) conditions.

(** Documented: the condition of the type is replaced or added; its transition time is
    the given one unless a condition with the same status was there; others stay. *)
Class StatusConditions := {
  SetStatusCondition : list Condition -> Condition -> list Condition;
  SetStatusCondition_same cs c :
    cn_LastTransitionTime c <> 0 ->
    FindStatusCondition (SetStatusCondition cs c) (cn_Type c) =
    Some {| cn_Type := cn_Type c; cn_Status := cn_Status c; cn_ObservedGeneration := cn_ObservedGeneration c;
            cn_LastTransitionTime :=
              match FindStatusCondition cs (cn_Type c) with
              | Some old => if cn_Status old == cn_Status c then cn_LastTransitionTime old else cn_LastTransitionTime c
              | None => cn_LastTransitionTime c
              end;
            cn_Reason := cn_Reason c; cn_Message := cn_Message c |};
  SetStatusCondition_other cs c conditionType :
    conditionType <> cn_Type c -> FindStatusCondition (SetStatusCondition cs c) conditionType = FindStatusCondition cs conditionType;
}.

Definition ConditionSpecValid : string := "SpecValid".
Definition ConditionServiceAccountReady : string := "ServiceAccountReady".
Definition ConditionConfigurationReady : string := "ConfigurationReady".
Definition ConditionWorkspaceReady : string := "WorkspaceReady".
Definition ConditionNetworkPolicyReady : string := "NetworkPolicyReady".
Definition ConditionJobReady : string := "JobReady".
Definition ConditionReady : string := "Ready".
Definition ConditionCancellationComplete : string := "CancellationComplete".
Definition ConditionRetryReady : string := "RetryReady".
Definition ConditionCleanupPending : string := "CleanupPending".

Definition RetainedResourcesFinalizer : string := "execution.agentforge.dev/retained-resources".

(** ** Objects the controller manages *)

Definition GetControllerOf (meta : ObjectMeta) : option OwnerReference := find or_Controller (om_OwnerReferences meta).

Definition metadataContains (existingLabels existingAnnotations desiredLabels desiredAnnotations : gmap string string) : bool :=
  forallb (fun '(key, value) => default EmptyString (existingLabels !! key) == value) (map_to_list desiredLabels)
  && forallb (fun '(key, value) => default EmptyString (existingAnnotations !! key) == value) (map_to_list desiredAnnotations).

(** [equality.Semantic.DeepDerivative] on claims and Job specs. *)
Class Derivatives := {
  claimDerivative : PersistentVolumeClaim -> PersistentVolumeClaim -> bool;
  jobDerivative : JobSpec -> JobSpec -> bool;
}.

(** An object the controller applies: its metadata, kind, and whether what exists is
    already what is wanted. *)
Class ManagedObject (T : Type) := {
  objectMeta : T -> ObjectMeta;
  objectKind : string;
  specMatches : T -> T -> bool;
}.

#[export] Instance ServiceAccount_managed : ManagedObject ServiceAccount :=
  {| objectMeta := sa_Meta; objectKind := "ServiceAccount";
     specMatches wanted actual :=
       (sa_AutomountServiceAccountToken wanted == sa_AutomountServiceAccountToken actual) && (sa_Secrets wanted == sa_Secrets actual)
       && (sa_ImagePullSecrets wanted == sa_ImagePullSecrets actual) |}.

#[export] Instance ConfigMap_managed : ManagedObject ConfigMap :=
  {| objectMeta := cm_Meta; objectKind := "ConfigMap";
     specMatches wanted actual :=
       (cm_Immutable wanted == cm_Immutable actual) && (cm_Data wanted == cm_Data actual) && (cm_BinaryData wanted == cm_BinaryData actual) |}.

#[export] Instance Claim_managed `{Derivatives} : ManagedObject PersistentVolumeClaim :=
  {| objectMeta := pvc_Meta; objectKind := "PersistentVolumeClaim"; specMatches := claimDerivative |}.

#[export] Instance NetworkPolicy_managed : ManagedObject NetworkPolicy :=
  {| objectMeta := np_Meta; objectKind := "NetworkPolicy";
     specMatches wanted actual :=
       (np_PodSelector wanted == np_PodSelector actual) && (np_PolicyTypes wanted == np_PolicyTypes actual)
       && (np_Ingress wanted == np_Ingress actual) && (np_Egress wanted == np_Egress actual) |}.

#[export] Instance Job_managed `{K8sValidation} `{NetIP} `{Derivatives} : ManagedObject JobObject :=
  {| objectMeta := jo_Meta; objectKind := "Job";
     specMatches wanted actual :=
       is_ok (validatePodSecurity actual)
       && metadataContains (js_TemplateLabels (jo_Spec actual)) (js_TemplateAnnotations (jo_Spec actual))
            (js_TemplateLabels (jo_Spec wanted)) (js_TemplateAnnotations (jo_Spec wanted))
       && jobDerivative (jo_Spec wanted) (jo_Spec actual) |}.

Definition managedObjectMatches {T} `{ManagedObject T} (desired existing : T) : bool :=
  metadataContains (om_Labels (objectMeta existing)) (om_Annotations (objectMeta existing))
    (om_Labels (objectMeta desired)) (om_Annotations (objectMeta desired))
  && specMatches desired existing.

Definition validateExistingOwnership (run : AgentRunResource) (desired existing : ObjectMeta) : res unit :=
  _ ← match GetControllerOf desired, GetControllerOf existing with
      | Some _, Some owner =>
          failIf ((or_UID owner != kr_UID run) || (or_Name owner != kr_Name run) || (or_Kind owner != "AgentRun")
                  || (or_APIVersion owner != GroupVersion)) (ErrPlain "resource is not controlled by this AgentRun")
      | Some _, None => Err (ErrPlain "resource is not controlled by this AgentRun")
      | None, Some _ => Err (ErrPlain "retained resource has an unexpected controller owner")
      | None, None => Ok tt
      end;
  failIf (default EmptyString (om_Annotations existing !! ownerUIDAnnotation) != kr_UID run)
    (ErrPlain "resource owner identity annotation does not match").

(** ** Answers of the API *)

Inductive Answer (A : Type) := Found (a : A) | Failed (e : APIError).
Arguments Found {A} a.
Arguments Failed {A} e.

(** [None] is success. *)
Definition PatchAnswer : Type := option APIError.

Record World := {
  w_now : Time;
  w_ServiceAccount : Answer ServiceAccount;
  w_ServiceAccountPatch : PatchAnswer;
  w_ConfigMapExists : string -> Answer unit;
  w_SecretExists : string -> Answer unit;
  w_Configuration : Answer ConfigMap;
  w_ConfigurationPatch : PatchAnswer;
  w_Workspace : Answer PersistentVolumeClaim;
  w_WorkspacePatch : PatchAnswer;
  w_Claim : Answer (string * option string);        (* phase and storage class of the claim *)
  w_StorageClass : Answer (option string);          (* its volume binding mode *)
  w_NetworkPolicy : Answer NetworkPolicy;
  w_NetworkPolicyPatch : PatchAnswer;
  w_JobBefore : Answer Job;                         (* the recorded Job, before it is applied *)
  w_JobObject : Answer JobObject;
  w_JobPatch : PatchAnswer;
  w_Job : Answer Job;                               (* the Job, after it is applied; and in cancellation *)
  w_Pods : Answer (list Pod);
  w_ForcedPods : Answer (list Pod);
  w_DeletePod : string -> PatchAnswer;
  w_DeleteJob : PatchAnswer;
  w_RetainedClaim : Z -> Answer ObjectMeta;         (* the workspace of an attempt *)
  w_RetainedPatch : Z -> PatchAnswer;
  w_MetadataPatch : PatchAnswer;
  w_StatusPatch : PatchAnswer;
  w_FailureStatusPatch : PatchAnswer;
}.

Inductive Write :=
| WriteApply (kind name : string)
| WriteDeleteJob (name : string) (forced : bool)
| WriteDeletePod (name : string)
| WriteReleaseWorkspace (attempt : Z)
| WriteFinalizer (present : bool)
| WriteStatus.

#[export] Instance Write_eq_dec : EqDecision Write.
Proof. solve_decision. Defined.

Definition prerequisiteRequeue : Duration := 5 * Second.
Definition cancellationDeadline : Duration := 2 * Minute.
Definition cancellationRequeue : Duration := 5 * Second.
Definition cleanupRequeue : Duration := 15 * Second.
Definition cleanupDeadline : Duration := 10 * Minute.

(** What a handler leaves: the resource in memory, the writes so far, when to be called
    again (zero: not), and an error. *)
Record Progress := {
  pg_Run : AgentRunResource;
  pg_Writes : list Write;
  pg_Requeue : Duration;
  pg_Error : option ReconcileError;
}.

(** ** Status *)

Definition withStatus (run : AgentRunResource) (status : AgentRunResourceStatus) : AgentRunResource := run <| kr_Status := status |>.

Section Controller.
Context {SC : StatusConditions} {UP : URLParts} {KV : K8sValidation} {NI : NetIP} {SH : SHA256} {DV : Derivatives}.

Definition setCondition (now : Time) (run : AgentRunResource) (conditionType : string) (status : ConditionStatus) (reason message : string) :
    AgentRunResource :=
  withStatus run ((kr_Status run) <| ss_Conditions := SetStatusCondition (ss_Conditions (kr_Status run))
    {| cn_Type := conditionType; cn_Status := status; cn_ObservedGeneration := kr_Generation run;
       cn_LastTransitionTime := now; cn_Reason := reason; cn_Message := message |} |>).

Definition attemptLe (left right : AttemptStatus) : Prop := wrap32 (as_Attempt left - as_Attempt right) <= 0.
#[export] Instance attemptLe_dec left right : Decision (attemptLe left right) := Z.le_dec _ _.

(** The entry the status describes. *)
Definition currentEntry (run : AgentRunResource) : AttemptStatus :=
  let s := kr_Status run in
  {| as_Attempt := CurrentAttempt run; as_JobName := ss_JobName s; as_PodName := ss_PodName s; as_Phase := ss_Phase s;
     as_StartTime := ss_StartTime s; as_CompletionTime := ss_CompletionTime s; as_FailureCategory := ss_FailureCategory s;
     as_FailureReason := ss_FailureReason s; as_ArtifactManifestRef := ss_ArtifactManifestRef s |}.

Fixpoint replaceAttempt (current : AttemptStatus) (attempts : list AttemptStatus) : option (list AttemptStatus) :=
  match attempts with
  | [] => None
  | a :: rest =>
      if as_Attempt a =? as_Attempt current then Some (current :: rest)
      else match replaceAttempt current rest with Some rest => Some (a :: rest) | None => None end
  end.

Definition upsertAttempts (current : AttemptStatus) (attempts : list AttemptStatus) : list AttemptStatus :=
  merge_sort attemptLe (match replaceAttempt current attempts with Some l => l | None => attempts ++ [current] end).

Definition upsertAttemptStatus (run : AgentRunResource) : AgentRunResource :=
  withStatus run ((kr_Status run) <| ss_Attempts := upsertAttempts (currentEntry run) (ss_Attempts (kr_Status run)) |>).

Definition projectLifecycle (now : Time) (run : AgentRunResource) (o : lifecycleObservation) : AgentRunResource :=
  let s := kr_Status run in
  let run := withStatus run
    {| ss_Phase := lo_phase o; ss_ObservedGeneration := ss_ObservedGeneration s; ss_Attempt := ss_Attempt s; ss_Namespace := ss_Namespace s;
       ss_JobName := ss_JobName s; ss_PodName := lo_podName o; ss_StartTime := lo_startTime o; ss_CompletionTime := lo_completionTime o;
       ss_HeartbeatTime := ss_HeartbeatTime s; ss_FailureCategory := lo_failureCategory o; ss_FailureReason := lo_failureReason o;
       ss_ArtifactManifestRef := lo_artifactManifestRef o; ss_Attempts := ss_Attempts s; ss_Conditions := ss_Conditions s |} in
  let status := if lo_phase o == PhaseSucceeded then ConditionTrue else ConditionFalse in
  upsertAttemptStatus (setCondition now run ConditionReady status (lo_reason o) (lo_message o)).

Definition recordMissingJob (now : Time) (run : AgentRunResource) (jobName : string) : AgentRunResource :=
  let run := withStatus run ((kr_Status run) <| ss_JobName := jobName |>) in
  let s := kr_Status run in
  projectLifecycle now run
    {| lo_phase := PhaseFailed; lo_reason := "JobMissing"; lo_message := "Previously observed execution Job is missing";
       lo_podName := ss_PodName s; lo_startTime := ss_StartTime s; lo_completionTime := ss_CompletionTime s;
       lo_failureCategory := FailureInternal; lo_failureReason := "Previously observed execution Job was deleted";
       lo_artifactManifestRef := EmptyString |}.

Definition terminalPhase (phase : AgentRunPhase) : bool :=
  match phase with PhaseSucceeded | PhaseFailed | PhaseCancelled => true | _ => false end.

Definition currentAttemptTerminal (run : AgentRunResource) : bool :=
  (ss_Attempt (kr_Status run) =? CurrentAttempt run) && terminalPhase (ss_Phase (kr_Status run)).

(** What [initializeAcceptedStatus] and [initializeCancellationStatus] share. *)
Definition initializeStatus (now : Time) (run : AgentRunResource) (category : FailureCategory) (failureReason : string) : AgentRunResource :=
  let s := kr_Status run in
  let run := withStatus run
    {| ss_Phase := if ss_Phase s == PhaseUnset then PhasePending else ss_Phase s; ss_ObservedGeneration := kr_Generation run;
       ss_Attempt := if ss_Attempt s =? 0 then sp_Attempt (kr_Spec run) else ss_Attempt s;
       ss_Namespace := if ss_Namespace s == EmptyString then kr_Namespace run else ss_Namespace s;
       ss_JobName := ss_JobName s; ss_PodName := ss_PodName s; ss_StartTime := ss_StartTime s; ss_CompletionTime := ss_CompletionTime s;
       ss_HeartbeatTime := ss_HeartbeatTime s; ss_FailureCategory := category; ss_FailureReason := failureReason;
       ss_ArtifactManifestRef := ss_ArtifactManifestRef s; ss_Attempts := ss_Attempts s; ss_Conditions := ss_Conditions s |} in
  setCondition now run ConditionSpecValid ConditionTrue "Accepted" "AgentRun desired state is valid".

Definition initializeCancellationStatus (now : Time) (run : AgentRunResource) : AgentRunResource :=
  initializeStatus now run (ss_FailureCategory (kr_Status run)) (ss_FailureReason (kr_Status run)).

Definition initializeAcceptedStatus (now : Time) (run : AgentRunResource) : AgentRunResource :=
  let run := initializeStatus now run FailureUnset EmptyString in
  let run := setCondition now run ConditionReady ConditionFalse "ReconciliationPending" "Execution resources have not been reconciled" in
  foldl (fun run conditionType =>
      match FindStatusCondition (ss_Conditions (kr_Status run)) conditionType with
      | None => setCondition now run conditionType ConditionFalse "ReconciliationPending" "Prerequisite has not been reconciled"
      | Some _ => run
      end) run
    [ConditionServiceAccountReady; ConditionConfigurationReady; ConditionWorkspaceReady; ConditionNetworkPolicyReady; ConditionJobReady].

Definition initializeInvalidStatus (now : Time) (run : AgentRunResource) : AgentRunResource :=
  let s := kr_Status run in
  let run := withStatus run
    {| ss_Phase := PhaseFailed; ss_ObservedGeneration := kr_Generation run; ss_Attempt := sp_Attempt (kr_Spec run);
       ss_Namespace := kr_Namespace run; ss_JobName := ss_JobName s; ss_PodName := ss_PodName s; ss_StartTime := ss_StartTime s;
       ss_CompletionTime := ss_CompletionTime s; ss_HeartbeatTime := ss_HeartbeatTime s; ss_FailureCategory := FailureValidation;
       ss_FailureReason := "AgentRun desired state failed controller validation"; ss_ArtifactManifestRef := ss_ArtifactManifestRef s;
       ss_Attempts := ss_Attempts s; ss_Conditions := ss_Conditions s |} in
  let run := setCondition now run ConditionSpecValid ConditionFalse "InvalidSpec" "AgentRun desired state is invalid" in
  setCondition now run ConditionReady ConditionFalse "InvalidSpec" "Execution resources will not be reconciled".

Definition initializeDeletingStatus (now : Time) (run : AgentRunResource) : AgentRunResource :=
  let run := withStatus run ((kr_Status run) <| ss_ObservedGeneration := kr_Generation run |>) in
  let run := setCondition now run ConditionReady ConditionFalse "Deleting" "AgentRun deletion is in progress" in
  match FindStatusCondition (ss_Conditions (kr_Status run)) ConditionCleanupPending with
  | None => setCondition now run ConditionCleanupPending ConditionTrue "CleanupStarted" "Retained workspace handoff is in progress"
  | Some _ => run
  end.

(** ** retry.go *)

Definition retryAllowed (run : AgentRunResource) : bool :=
  let s := kr_Status run in
  (ss_Phase s == PhaseFailed) && (ss_Attempt s =? CurrentAttempt run)
  && (ss_Attempt s <? rp_MaxAttempts (sp_RetryPolicy (kr_Spec run)))
  && match ss_FailureCategory s with
     | FailureTransientDependency | FailureInternal =>
         bool_decide (ss_FailureCategory s ∈ rp_RetryableFailureCategories (sp_RetryPolicy (kr_Spec run)))
     | _ => false
     end.

Definition retryAnchor (run : AgentRunResource) : Time :=
  let byCondition :=
    match find (fun c => (cn_Type c == ConditionRetryReady) && (cn_Status c == ConditionFalse)) (ss_Conditions (kr_Status run)) with
    | Some condition => cn_LastTransitionTime condition
    | None => 0
    end in
  match ss_CompletionTime (kr_Status run) with
  | Some t => if IsZero t then byCondition else t
  | None => byCondition
  end.

(** The doubling loop of [retryDelay]: [exponent] counts down. *)
Fixpoint backoffBase (exponent : nat) (base maximum : Duration) : Duration :=
  match exponent with
  | O => base
  | S exponent =>
      if base <? maximum then
        if Z.quot maximum 2 <? base then maximum else backoffBase exponent (mul64 base 2) maximum
      else base
  end.

(** The first eight bytes of the digest, big endian. *)
Definition hashPrefix (s : string) : Z := readHex (take 16 (bytes (sha256Hex s))).

Definition retryDelay (run : AgentRunResource) (currentAttempt nextAttempt : Z) : Duration :=
  let policy := sp_RetryPolicy (kr_Spec run) in
  let base := mul64 (rp_InitialBackoffSeconds policy) Second in
  let maximum := mul64 (rp_MaxBackoffSeconds policy) Second in
  let base := backoffBase (Z.to_nat (wrap32 (currentAttempt - sp_Attempt (kr_Spec run)))) base maximum in
  let base := if maximum <? base then maximum else base in
  let permille := 500 + hashPrefix (sp_RunID (kr_Spec run) +:+ ":" +:+ Itoa nextAttempt) mod 501 in
  Z.quot (mul64 base permille) 1000.

Definition reconcileRetry (now : Time) (run : AgentRunResource) : AgentRunResource * Duration :=
  let currentAttempt := CurrentAttempt run in
  let nextAttempt := wrap32 (currentAttempt + 1) in
  let anchor := if IsZero (retryAnchor run) then now else retryAnchor run in
  let readyAt := Add anchor (retryDelay run currentAttempt nextAttempt) in
  let remaining := TimeSub readyAt now in
  if 0 <? remaining then
    let run := setCondition now run ConditionRetryReady ConditionFalse "BackoffPending"
      ("Retry attempt " +:+ Itoa nextAttempt +:+ " is waiting for bounded backoff") in
    (setCondition now run ConditionReady ConditionFalse "RetryBackoff" "Execution retry is waiting for bounded backoff", remaining)
  else
    let s := kr_Status run in
    let run := withStatus run
      {| ss_Phase := PhasePending; ss_ObservedGeneration := kr_Generation run; ss_Attempt := nextAttempt; ss_Namespace := ss_Namespace s;
         ss_JobName := EmptyString; ss_PodName := EmptyString; ss_StartTime := None; ss_CompletionTime := None; ss_HeartbeatTime := None;
         ss_FailureCategory := FailureUnset; ss_FailureReason := EmptyString; ss_ArtifactManifestRef := EmptyString;
         ss_Attempts := ss_Attempts s; ss_Conditions := ss_Conditions s |} in
    let run := setCondition now run ConditionRetryReady ConditionTrue "RetryStarted"
      ("Retry attempt " +:+ Itoa nextAttempt +:+ " is ready for reconciliation") in
    let run := setCondition now run ConditionJobReady ConditionFalse "RetryPending" "A new deterministic execution Job has not been created" in
    let run := setCondition now run ConditionReady ConditionFalse "RetryPending" "Execution retry resources have not been reconciled" in
    (upsertAttemptStatus run, Millisecond).

(** ** prerequisites.go *)

(** What [ensureObject] may fail with: another owner's object or field, or an API error. *)
Inductive EnsureError := ResourceConflict | EnsureAPI (e : APIError).

Definition ensureObject {T} `{ManagedObject T} (run : AgentRunResource) (desired : T) (existing : Answer T) (patch : PatchAnswer) :
    list Write * option EnsureError :=
  let apply :=
    ([WriteApply (objectKind (T:=T)) (om_Name (objectMeta desired))],
     match patch with
     | Some APIConflict => Some ResourceConflict
     | Some e => Some (EnsureAPI e)
     | None => None
     end) in
  match existing with
  | Found existing =>
      match validateExistingOwnership run (objectMeta desired) (objectMeta existing) with
      | Err _ => ([], Some ResourceConflict)
      | Ok _ => if managedObjectMatches desired existing then ([], None) else apply
      end
  | Failed APINotFound => apply
  | Failed e => ([], Some (EnsureAPI e))
  end.

Definition recordPrerequisiteReady (now : Time) (run : AgentRunResource) (conditionType reason message : string) : AgentRunResource :=
  setCondition now run conditionType ConditionTrue reason message.

Definition recordPrerequisiteFailure (now : Time) (run : AgentRunResource) (conditionType : string) (err : ReconcileError)
    (category : FailureCategory) : AgentRunResource :=
  let s := kr_Status run in
  let failureReason := conditionType +:+ " could not be reconciled" in
  let run := withStatus run
    {| ss_Phase := if rc_Class err == ErrorClassPermanent then PhaseFailed else PhaseProvisioning;
       ss_ObservedGeneration := ss_ObservedGeneration s; ss_Attempt := ss_Attempt s; ss_Namespace := ss_Namespace s;
       ss_JobName := ss_JobName s; ss_PodName := ss_PodName s; ss_StartTime := ss_StartTime s; ss_CompletionTime := ss_CompletionTime s;
       ss_HeartbeatTime := ss_HeartbeatTime s; ss_FailureCategory := category; ss_FailureReason := failureReason;
       ss_ArtifactManifestRef := ss_ArtifactManifestRef s; ss_Attempts := ss_Attempts s; ss_Conditions := ss_Conditions s |} in
  let run := setCondition now run conditionType ConditionFalse (rc_Reason err) failureReason in
  setCondition now run ConditionReady ConditionFalse (rc_Reason err) "Execution prerequisites are not ready".

Definition handlePrerequisiteError (now : Time) (run : AgentRunResource) (conditionType reason : string) (err : EnsureError) :
    AgentRunResource * ReconcileError :=
  match err with
  | ResourceConflict =>
      let e := newReconcileError ErrorClassPermanent reason in
      (recordPrerequisiteFailure now run conditionType e FailureConflict, e)
  | EnsureAPI err =>
      let e := classifyAPIError reason err in
      let category := if rc_Class e == ErrorClassPermanent then FailurePolicy else FailureTransientDependency in
      (recordPrerequisiteFailure now run conditionType e category, e)
  end.

Definition failPrerequisite (now : Time) (run : AgentRunResource) (writes : list Write) (conditionType reason : string) (err : EnsureError) :
    Progress :=
  let '(run, e) := handlePrerequisiteError now run conditionType reason err in
  {| pg_Run := run; pg_Writes := writes; pg_Requeue := 0; pg_Error := Some e |}.

(** Ensure an object and go on, or record the failure. *)
Definition ensuring {T} `{ManagedObject T} (now : Time) (run : AgentRunResource) (writes : list Write) (desired : T) (existing : Answer T)
    (patch : PatchAnswer) (conditionType reason : string) (next : list Write -> Progress) : Progress :=
  let '(applied, err) := ensureObject run desired existing patch in
  match err with
  | Some err => failPrerequisite now run (writes ++ applied) conditionType reason err
  | None => next (writes ++ applied)
  end.

Definition waiting (run : AgentRunResource) (writes : list Write) (requeue : Duration) : Progress :=
  {| pg_Run := run; pg_Writes := writes; pg_Requeue := requeue; pg_Error := None |}.

Definition withPhase (run : AgentRunResource) (phase : AgentRunPhase) : AgentRunResource :=
  withStatus run ((kr_Status run) <| ss_Phase := phase |>).

(** [slices.Compact] of the sorted names. *)
Definition referencedNames (names : list string) : list string :=
  (fix compact (l : list string) : list string :=
     match l with
     | a :: ((b :: _) as rest) => if a == b then compact rest else a :: compact rest
     | _ => l
     end) (sortedReferences names).

(** The first reference whose lookup does not succeed. *)
Fixpoint firstMissing (lookup : string -> Answer unit) (names : list string) : option (string * APIError) :=
  match names with
  | [] => None
  | name :: rest => match lookup name with Found _ => firstMissing lookup rest | Failed e => Some (name, e) end
  end.

Definition referenceMissing (now : Time) (run : AgentRunResource) (message : string) : AgentRunResource :=
  let run := setCondition now run ConditionConfigurationReady ConditionFalse "ReferenceNotFound" message in
  let run := setCondition now run ConditionWorkspaceReady ConditionFalse "ConfigurationPending" "Workspace waits for execution configuration" in
  let run := setCondition now run ConditionNetworkPolicyReady ConditionFalse "ConfigurationPending" "Network policy waits for execution configuration" in
  let run := setCondition now run ConditionJobReady ConditionFalse "ConfigurationPending" "Execution Job waits for execution configuration" in
  setCondition now run ConditionReady ConditionFalse "ConfigurationPending" "Execution configuration references are not ready".

Inductive References := ReferencesReady | ReferencesMissing (run : AgentRunResource) | ReferencesFailed (e : APIError).

Definition quoted (s : string) : string := String.string_of_list_ascii ([quoteByte] ++ bytes s ++ [quoteByte]).

Definition configurationReferencesReady (w : World) (run : AgentRunResource) : References :=
  let spec := kr_Spec run in
  match firstMissing (w_ConfigMapExists w) (referencedNames (sp_ArtifactDestinationRef spec :: sp_ConfigurationRefs spec)) with
  | Some (name, APINotFound) =>
      ReferencesMissing (referenceMissing (w_now w) run ("Required ConfigMap " +:+ quoted name +:+ " is not available"))
  | Some (_, e) => ReferencesFailed e
  | None =>
      match firstMissing (w_SecretExists w) (referencedNames (sp_SecretRefs spec)) with
      | Some (name, APINotFound) =>
          ReferencesMissing (referenceMissing (w_now w) run ("Required Secret " +:+ quoted name +:+ " is not available"))
      | Some (_, e) => ReferencesFailed e
      | None => ReferencesReady
      end
  end.

Definition workspaceWaitsForFirstConsumer (w : World) (storageClass : option string) : Answer bool :=
  match storageClass with
  | None => Found false
  | Some name =>
      if name == EmptyString then Found false
      else match w_StorageClass w with
           | Found mode => Found (mode == Some "WaitForFirstConsumer")
           | Failed APINotFound => Found false
           | Failed e => Failed e
           end
  end.

Definition storagePending (now : Time) (run : AgentRunResource) : AgentRunResource :=
  let run := setCondition now run ConditionWorkspaceReady ConditionFalse "StoragePending" "Workspace storage is not bound" in
  let run := setCondition now run ConditionNetworkPolicyReady ConditionFalse "WorkspacePending" "Network policy waits for workspace storage" in
  let run := setCondition now run ConditionJobReady ConditionFalse "WorkspacePending" "Execution Job waits for workspace storage" in
  setCondition now run ConditionReady ConditionFalse "StoragePending" "Execution is waiting for workspace storage".

(** lifecycle.go: [observeJob] *)
Definition observeJob (w : World) (run : AgentRunResource) (writes : list Write) (job : Job) : Progress :=
  match w_Pods w with
  | Failed e => failPrerequisite (w_now w) run writes ConditionJobReady "PodListFailed" (EnsureAPI e)
  | Found pods =>
      let o := observeLifecycle job pods in
      waiting (projectLifecycle (w_now w) run o) writes
        (if (lo_phase o == PhaseProvisioning) || (lo_phase o == PhaseRunning) then prerequisiteRequeue else 0)
  end.

(** The Job, once everything before it is ready. *)
Definition reconcileJob (w : World) (run : AgentRunResource) (writes : list Write) (desired : JobObject) : Progress :=
  let now := w_now w in
  let name := om_Name (jo_Meta desired) in
  let apply :=
    ensuring now run writes desired (w_JobObject w) (w_JobPatch w) ConditionJobReady "JobReconcileFailed" (fun writes =>
      let run := withStatus run ((kr_Status run) <| ss_JobName := name |>) in
      let run := recordPrerequisiteReady now run ConditionJobReady "JobReady" "Execution Job is created" in
      match w_Job w with
      | Failed e => failPrerequisite now run writes ConditionJobReady "JobReadFailed" (EnsureAPI e)
      | Found job => observeJob w run writes job
      end) in
  if ss_JobName (kr_Status run) == EmptyString then apply
  else if ss_JobName (kr_Status run) != name then
    let e := newReconcileError ErrorClassPermanent "JobIdentityConflict" in
    {| pg_Run := recordPrerequisiteFailure now run ConditionJobReady e FailureInternal; pg_Writes := writes; pg_Requeue := 0;
       pg_Error := Some e |}
  else
    match w_JobBefore w with
    | Failed APINotFound => waiting (recordMissingJob now run name) writes 0
    | Failed e => failPrerequisite now run writes ConditionJobReady "JobReadFailed" (EnsureAPI e)
    | Found existing =>
        match jb_DeletionTimestamp existing with
        | Some _ => waiting (recordMissingJob now run name) writes 0
        | None => apply
        end
    end.

(** The network policy and the Job, once the workspace may be used. *)
Definition reconcileNetwork (w : World) (run : AgentRunResource) (writes : list Write) (policy : NetworkPolicy) (job : JobObject) : Progress :=
  let now := w_now w in
  ensuring now run writes policy (w_NetworkPolicy w) (w_NetworkPolicyPatch w) ConditionNetworkPolicyReady "NetworkPolicyReconcileFailed"
    (fun writes =>
      let run := recordPrerequisiteReady now run ConditionNetworkPolicyReady "NetworkPolicyReady" "Workload network policy is ready" in
      reconcileJob w run writes job).

(** The workspace and what follows. *)
Definition reconcileWorkspace (w : World) (run : AgentRunResource) (writes : list Write) (claim : PersistentVolumeClaim)
    (policy : NetworkPolicy) (job : JobObject) : Progress :=
  let now := w_now w in
  ensuring now run writes claim (w_Workspace w) (w_WorkspacePatch w) ConditionWorkspaceReady "WorkspaceReconcileFailed" (fun writes =>
    match w_Claim w with
    | Failed e => failPrerequisite now run writes ConditionWorkspaceReady "WorkspaceReadFailed" (EnsureAPI e)
    | Found (phase, storageClass) =>
        if phase == "Bound" then
          let run := recordPrerequisiteReady now run ConditionWorkspaceReady "WorkspaceReady" "Workspace storage is bound" in
          reconcileNetwork w run writes policy job
        else
          let run := withPhase run PhaseProvisioning in
          match workspaceWaitsForFirstConsumer w storageClass with
          | Failed e => failPrerequisite now run writes ConditionWorkspaceReady "StorageClassReadFailed" (EnsureAPI e)
          | Found false => waiting (storagePending now run) writes prerequisiteRequeue
          | Found true =>
              let run := setCondition now run ConditionWorkspaceReady ConditionFalse "FirstConsumerPending"
                "Workspace binding requires an execution Pod consumer" in
              reconcileNetwork w run writes policy job
          end
    end).

Definition reconcilePrerequisites (b : Builder) (w : World) (run : AgentRunResource) : Progress :=
  let now := w_now w in
  match BuildAll b run with
  | Ok {| er_ServiceAccount := Some account; er_Configuration := Some configuration; er_Workspace := Some claim;
          er_NetworkPolicy := Some policy; er_Job := Some job |} =>
      ensuring now run [] account (w_ServiceAccount w) (w_ServiceAccountPatch w) ConditionServiceAccountReady "ServiceAccountReconcileFailed"
        (fun writes =>
          let run := recordPrerequisiteReady now run ConditionServiceAccountReady "ServiceAccountReady" "Workload ServiceAccount is ready" in
          match configurationReferencesReady w run with
          | ReferencesFailed e => failPrerequisite now run writes ConditionConfigurationReady "ConfigurationReadFailed" (EnsureAPI e)
          | ReferencesMissing run => waiting (withPhase run PhaseProvisioning) writes prerequisiteRequeue
          | ReferencesReady =>
              ensuring now run writes configuration (w_Configuration w) (w_ConfigurationPatch w) ConditionConfigurationReady
                "ConfigurationReconcileFailed" (fun writes =>
                  let run := recordPrerequisiteReady now run ConditionConfigurationReady "ConfigurationReady"
                    "Execution configuration references are ready" in
                  reconcileWorkspace w run writes claim policy job)
          end)
  | _ =>
      let e := newReconcileError ErrorClassPermanent "ResourceBuildFailed" in
      {| pg_Run := recordPrerequisiteFailure now run ConditionConfigurationReady e FailurePolicy; pg_Writes := []; pg_Requeue := 0;
         pg_Error := Some e |}
  end.

(** ** cancellation.go *)

Definition projectCancelling (now : Time) (run : AgentRunResource) (forced : bool) : AgentRunResource :=
  let run := withPhase run PhaseCancelling in
  let reason := if forced then "ForcedTerminationPending" else "GracefulTerminationPending" in
  let message := if forced then "Execution Job exceeded the cancellation deadline and is being forcibly terminated"
                 else "Execution Job is terminating within the cancellation deadline" in
  let run := setCondition now run ConditionCancellationComplete ConditionFalse reason message in
  let run := setCondition now run ConditionJobReady ConditionFalse "CancellationInProgress" "Execution Job is being terminated" in
  let run := setCondition now run ConditionReady ConditionFalse "CancellationInProgress" "Cancellation is not yet complete" in
  upsertAttemptStatus run.

Definition completeCancellation (now : Time) (run : AgentRunResource) (forced : bool) : AgentRunResource :=
  let s := kr_Status run in
  let run := withStatus run
    (s <| ss_Phase := PhaseCancelled |> <| ss_CompletionTime := match ss_CompletionTime s with Some t => Some t | None => Some now end |>) in
  let reason := if forced then "ForcedCancellation" else "GracefulCancellation" in
  let message := if forced then "Execution cancellation completed after forced termination"
                 else "Execution cancellation completed gracefully" in
  let run := setCondition now run ConditionCancellationComplete ConditionTrue reason message in
  let run := setCondition now run ConditionJobReady ConditionFalse "ExecutionCancelled" "Execution Job is absent after cancellation" in
  let run := setCondition now run ConditionReady ConditionFalse "ExecutionCancelled" "Execution was cancelled" in
  upsertAttemptStatus run.

(** Deletes of Pods until one fails; a Pod that is gone already is no failure. *)
Fixpoint deletePods (answer : string -> PatchAnswer) (pods : list Pod) : list Write * option APIError :=
  match pods with
  | [] => ([], None)
  | pod :: rest =>
      let failed := match answer (pd_Name pod) with Some APINotFound | None => None | Some e => Some e end in
      match failed with
      | Some e => ([WriteDeletePod (pd_Name pod)], Some e)
      | None => let '(writes, err) := deletePods answer rest in (WriteDeletePod (pd_Name pod) :: writes, err)
      end
  end.

Definition deleteJob (answer : PatchAnswer) (name : string) (forced : bool) : list Write * option APIError :=
  ([WriteDeleteJob name forced], match answer with Some APINotFound | None => None | Some e => Some e end).

Definition forceDeleteExecution (w : World) (job : Job) : list Write * option APIError :=
  match w_ForcedPods w with
  | Failed e => ([], Some e)
  | Found pods =>
      let '(writes, err) := deletePods (w_DeletePod w) (filter (fun pod => ownedByJob job pod = true) pods) in
      match err with
      | Some e => (writes, Some e)
      | None => let '(deleted, err) := deleteJob (w_DeleteJob w) (jb_Name job) true in (writes ++ deleted, err)
      end
  end.

(** The error is a [ReconcileError] already, or one of the API. *)
Definition recordCancellationError (now : Time) (run : AgentRunResource) (reason : string) (reconcileErr : ReconcileError) :
    AgentRunResource * ReconcileError :=
  let category :=
    if (reason == "CancellationJobConflict") || (reason == "CancellationIdentityInvalid") then FailureInternal
    else if rc_Class reconcileErr == ErrorClassPermanent then FailurePolicy else FailureTransientDependency in
  let message := "Cancellation reconciliation could not make progress" in
  let run := withStatus run
    ((kr_Status run) <| ss_Phase := PhaseCancelling |> <| ss_FailureCategory := category |> <| ss_FailureReason := message |>) in
  let run := setCondition now run ConditionCancellationComplete ConditionFalse reason message in
  let run := setCondition now run ConditionReady ConditionFalse reason message in
  (upsertAttemptStatus run, reconcileErr).

Definition failCancellation (now : Time) (run : AgentRunResource) (writes : list Write) (reason : string) (e : ReconcileError) : Progress :=
  let '(run, e) := recordCancellationError now run reason e in
  {| pg_Run := run; pg_Writes := writes; pg_Requeue := 0; pg_Error := Some e |}.

Definition cancellationStartedAt (run : AgentRunResource) : Time :=
  match find (fun c => (cn_Type c == ConditionCancellationComplete) && (cn_Status c == ConditionFalse)) (ss_Conditions (kr_Status run)) with
  | Some condition => cn_LastTransitionTime condition
  | None => 0
  end.

Definition cancellationWasForced (run : AgentRunResource) (now : Time) : bool :=
  match FindStatusCondition (ss_Conditions (kr_Status run)) ConditionCancellationComplete with
  | Some condition =>
      (cn_Reason condition == "ForcedTerminationPending") || (cn_Reason condition == "ForcedCancellation")
      || ((cn_Status condition == ConditionFalse) && negb (Before now (Add (cn_LastTransitionTime condition) cancellationDeadline)))
  | None => false
  end.

(** The deadline has passed since cancellation was first recorded. *)
Definition cancellationForced (now : Time) (run : AgentRunResource) : bool :=
  let started := if IsZero (cancellationStartedAt run) then now else cancellationStartedAt run in
  negb (Before now (Add started cancellationDeadline)).

(** Terminating a Job that is still there. *)
Definition terminateJob (w : World) (run : AgentRunResource) (job : Job) : Progress :=
  let now := w_now w in
  let forced := cancellationForced now run in
  let run := projectCancelling now run forced in
  if forced then
    match forceDeleteExecution w job with
    | (writes, Some e) => failCancellation now run writes "ForcedCancellationFailed" (classifyAPIError "ForcedCancellationFailed" e)
    | (writes, None) => waiting run writes cancellationRequeue
    end
  else
    match jb_DeletionTimestamp job with
    | Some _ => waiting run [] cancellationRequeue
    | None =>
        match deleteJob (w_DeleteJob w) (jb_Name job) false with
        | (writes, Some e) => failCancellation now run writes "GracefulCancellationFailed" (classifyAPIError "GracefulCancellationFailed" e)
        | (writes, None) => waiting run writes cancellationRequeue
        end
    end.

Definition reconcileCancellation (w : World) (run : AgentRunResource) : Progress :=
  let now := w_now w in
  if ss_JobName (kr_Status run) == EmptyString then waiting (completeCancellation now run false) [] 0
  else
    match ForAgentRun run with
    | Err _ => failCancellation now run [] "CancellationIdentityInvalid" (newReconcileError ErrorClassPermanent "CancellationIdentityInvalid")
    | Ok names =>
        if ss_JobName (kr_Status run) != rn_Job names then
          failCancellation now run [] "CancellationJobConflict" (newReconcileError ErrorClassPermanent "CancellationJobConflict")
        else
          match w_Job w with
          | Failed APINotFound => waiting (completeCancellation now run (cancellationWasForced run now)) [] 0
          | Failed e => failCancellation now run [] "CancellationJobReadFailed" (classifyAPIError "CancellationJobReadFailed" e)
          | Found job =>
              match jb_DeletionTimestamp job, w_Pods w with
              | Some _, _ => terminateJob w run job
              | None, Failed e => failCancellation now run [] "CancellationPodReadFailed" (classifyAPIError "CancellationPodReadFailed" e)
              | None, Found pods =>
                  let o := observeLifecycle job pods in
                  if (lo_phase o == PhaseSucceeded) || (lo_phase o == PhaseFailed) then waiting (projectLifecycle now run o) [] 0
                  else terminateJob w run job
              end
          end
    end.

(** ** cleanup.go *)

Definition retentionStateAnnotation : string := "execution.agentforge.dev/retention-state".
Definition retentionStateReleased : string := "Released".

Definition completeCleanup (now : Time) (run : AgentRunResource) (reason message : string) : AgentRunResource :=
  setCondition now run ConditionCleanupPending ConditionFalse reason message.

Definition cleanupStartedAt (run : AgentRunResource) : Time :=
  match kr_DeletionTimestamp run with
  | Some t => t
  | None =>
      match find (fun c => (cn_Type c == ConditionCleanupPending) && (cn_Status c == ConditionTrue)) (ss_Conditions (kr_Status run)) with
      | Some condition => cn_LastTransitionTime condition
      | None => 0
      end
  end.

Definition handleCleanupFailure (now : Time) (run : AgentRunResource) (reason : string) (e : ReconcileError) :
    AgentRunResource * bool * option ReconcileError :=
  let started := cleanupStartedAt run in
  if negb (IsZero started) && negb (Before now (Add started cleanupDeadline)) then
    (completeCleanup now run "CleanupEscalated" "Cleanup deadline elapsed; finalizer release requires retained-resource operator review", true, None)
  else
    (setCondition now run ConditionCleanupPending ConditionTrue reason "Retained workspace handoff could not make progress", false, Some e).

Definition workspaceNameForAttempt (run : AgentRunResource) (attempt : Z) : res string :=
  names ← ForAgentRun (withStatus run ((kr_Status run) <| ss_Attempt := attempt |>));
  Ok (rn_Workspace names).

Definition validateRetainedWorkspace (run : AgentRunResource) (workspace : ObjectMeta) : res unit :=
  _ ← failIf (bool_decide (is_Some (GetControllerOf workspace))) (ErrPlain "retained workspace unexpectedly has a controller owner");
  _ ← failIf (default EmptyString (om_Annotations workspace !! ownerUIDAnnotation) != kr_UID run)
      (ErrPlain "retained workspace owner identity does not match");
  failIf (default EmptyString (om_Annotations workspace !! retentionAnnotation) != "Retain")
    (ErrPlain "retained workspace policy marker does not match").

(** The attempts from the scheduled to the current one, in order. *)
Definition cleanupAttempts (run : AgentRunResource) : list Z :=
  (fun i => sp_Attempt (kr_Spec run) + Z.of_nat i) <$> seq 0 (Z.to_nat (CurrentAttempt run - sp_Attempt (kr_Spec run) + 1)).

Fixpoint releaseWorkspaces (w : World) (run : AgentRunResource) (attempts : list Z) :
    list Write * option (string * ReconcileError) :=
  match attempts with
  | [] => ([], None)
  | attempt :: rest =>
      match workspaceNameForAttempt run attempt with
      | Err _ => ([], Some ("CleanupIdentityInvalid", newReconcileError ErrorClassPermanent "CleanupIdentityInvalid"))
      | Ok _ =>
          match w_RetainedClaim w attempt with
          | Failed APINotFound => releaseWorkspaces w run rest
          | Failed e => ([], Some ("RetainedWorkspaceReadFailed", classifyAPIError "RetainedWorkspaceReadFailed" e))
          | Found workspace =>
              match validateRetainedWorkspace run workspace with
              | Err _ => ([], Some ("RetainedWorkspaceConflict", newReconcileError ErrorClassPermanent "RetainedWorkspaceConflict"))
              | Ok _ =>
                  if default EmptyString (om_Annotations workspace !! retentionStateAnnotation) == retentionStateReleased then
                    releaseWorkspaces w run rest
                  else
                    match w_RetainedPatch w attempt with
                    | Some e => ([WriteReleaseWorkspace attempt], Some ("RetentionHandoffFailed", classifyAPIError "RetentionHandoffFailed" e))
                    | None => let '(writes, err) := releaseWorkspaces w run rest in (WriteReleaseWorkspace attempt :: writes, err)
                    end
              end
          end
      end
  end.

Definition reconcileCleanup (w : World) (run : AgentRunResource) : AgentRunResource * list Write * bool * option ReconcileError :=
  let now := w_now w in
  let run := initializeDeletingStatus now run in
  if wk_RetentionPolicy (sp_Workspace (kr_Spec run)) != WorkspaceRetentionRetain then
    (completeCleanup now run "CleanupNotRequired" "No explicitly retained resource requires cleanup", [], true, None)
  else
    match releaseWorkspaces w run (cleanupAttempts run) with
    | (writes, Some (reason, e)) =>
        let '(run, complete, err) := handleCleanupFailure now run reason e in (run, writes, complete, err)
    | (writes, None) => (completeCleanup now run "CleanupComplete" "Retained workspace handoff is complete", writes, true, None)
    end.

(** ** agentrun_controller.go *)

(** An error returned to the work queue; a terminal one is not retried. *)
Record QueueError := {
  qe_Terminal : bool;
  qe_Error : ReconcileError;
}.

Definition terminalIfPermanent (e : ReconcileError) : QueueError :=
  {| qe_Terminal := rc_Class e == ErrorClassPermanent; qe_Error := e |}.

(** The result of a call: the stored resource, the writes, the delay and the error. *)
Record Outcome := {
  oc_Stored : AgentRunResource;
  oc_Writes : list Write;
  oc_Requeue : Duration;
  oc_Error : option QueueError;
}.

(** The status of [after] in place of that of [before]: what is stored, the write, and
    the API's error. *)
Definition patchStatusIfChanged (answer : PatchAnswer) (before after : AgentRunResource) :
    AgentRunResource * list Write * option APIError :=
  if kr_Status before == kr_Status after then (before, [], None)
  else match answer with
       | Some e => (before, [WriteStatus], Some e)
       | None => (withStatus before (kr_Status after), [WriteStatus], None)
       end.

(** Write the status a handler left, then report the handler's result. *)
Definition finish (w : World) (before : AgentRunResource) (reason : string) (p : Progress) : Outcome :=
  match patchStatusIfChanged (w_StatusPatch w) before (pg_Run p) with
  | (stored, written, Some e) =>
      {| oc_Stored := stored; oc_Writes := pg_Writes p ++ written; oc_Requeue := 0;
         oc_Error := Some (terminalIfPermanent (classifyAPIError reason e)) |}
  | (stored, written, None) =>
      {| oc_Stored := stored; oc_Writes := pg_Writes p ++ written; oc_Requeue := pg_Requeue p;
         oc_Error := terminalIfPermanent <$> pg_Error p |}
  end.

Definition acknowledgeTerminal (now : Time) (run : AgentRunResource) : AgentRunResource :=
  let s := kr_Status run in
  let run := withStatus run
    (s <| ss_ObservedGeneration := kr_Generation run |>
       <| ss_Conditions := (fun c => {| cn_Type := cn_Type c; cn_Status := cn_Status c; cn_ObservedGeneration := kr_Generation run;
                                        cn_LastTransitionTime := cn_LastTransitionTime c; cn_Reason := cn_Reason c;
                                        cn_Message := cn_Message c |}) <$> ss_Conditions s |>) in
  setCondition now run ConditionSpecValid ConditionTrue "Accepted" "AgentRun desired state is valid".

(** A resource that is being deleted. *)
Definition reconcileDeletion (w : World) (run : AgentRunResource) : Outcome :=
  if negb (bool_decide (RetainedResourcesFinalizer ∈ kr_Finalizers run)) then
    {| oc_Stored := run; oc_Writes := []; oc_Requeue := 0; oc_Error := None |}
  else
    let '(cleaned, released, complete, cleanupErr) := reconcileCleanup w run in
    let '(stored, written, statusErr) := patchStatusIfChanged (w_StatusPatch w) run cleaned in
    let later := {| oc_Stored := stored; oc_Writes := released ++ written; oc_Requeue := cleanupRequeue; oc_Error := None |} in
    match statusErr, cleanupErr, complete with
    | Some _, _, _ | _, Some _, _ | _, _, false => later
    | None, None, true =>
        match w_MetadataPatch w with
        | None =>
            {| oc_Stored := stored <| kr_Finalizers := filter (fun f => f <> RetainedResourcesFinalizer) (kr_Finalizers stored) |>;
               oc_Writes := released ++ written ++ [WriteFinalizer false]; oc_Requeue := 0; oc_Error := None |}
        | Some _ =>
            let failed := setCondition (w_now w) stored ConditionCleanupPending ConditionTrue "FinalizerRemovalFailed"
              "Cleanup completed but finalizer removal could not make progress" in
            let '(stored, again, _) := patchStatusIfChanged (w_FailureStatusPatch w) stored failed in
            {| oc_Stored := stored; oc_Writes := released ++ written ++ [WriteFinalizer false] ++ again; oc_Requeue := cleanupRequeue;
               oc_Error := None |}
        end
    end.

(** A valid resource whose finalizer is in place. *)
Definition reconcileExecution (b : Builder) (w : World) (run : AgentRunResource) : Outcome :=
  let now := w_now w in
  if currentAttemptTerminal run then
    if (sp_DesiredState (kr_Spec run) == DesiredStateRunning) && retryAllowed run then
      let '(retried, requeue) := reconcileRetry now run in
      finish w run "RetryStatusWriteFailed" (waiting retried [] requeue)
    else finish w run "TerminalStatusWriteFailed" (waiting (acknowledgeTerminal now run) [] 0)
  else if sp_DesiredState (kr_Spec run) == DesiredStateCancelled then
    finish w run "CancellationStatusWriteFailed" (reconcileCancellation w (initializeCancellationStatus now run))
  else
    let p := reconcilePrerequisites b w (initializeAcceptedStatus now run) in
    let p :=
      match pg_Error p with
      | None =>
          if retryAllowed (pg_Run p) then
            let '(retried, requeue) := reconcileRetry now (pg_Run p) in
            {| pg_Run := retried; pg_Writes := pg_Writes p; pg_Requeue := requeue; pg_Error := None |}
          else p
      | Some _ => p
      end in
    finish w run "StatusWriteFailed" p.

(** [Reconcile] on a resource that was found. *)
Definition Reconcile (b : Builder) (w : World) (run : AgentRunResource) : Outcome :=
  match kr_DeletionTimestamp run with
  | Some _ => reconcileDeletion w run
  | None =>
      match validateAgentRun run with
      | Err _ =>
          finish w run "InvalidSpecStatusWriteFailed"
            {| pg_Run := initializeInvalidStatus (w_now w) run; pg_Writes := []; pg_Requeue := 0;
               pg_Error := Some (newReconcileError ErrorClassPermanent "InvalidSpec") |}
      | Ok _ =>
          if (wk_RetentionPolicy (sp_Workspace (kr_Spec run)) == WorkspaceRetentionRetain)
             && negb (bool_decide (RetainedResourcesFinalizer ∈ kr_Finalizers run)) then
            match w_MetadataPatch w with
            | Some e =>
                {| oc_Stored := run; oc_Writes := [WriteFinalizer true]; oc_Requeue := 0;
                   oc_Error := Some (terminalIfPermanent (classifyAPIError "FinalizerWriteFailed" e)) |}
            | None =>
                let o := reconcileExecution b w (run <| kr_Finalizers := kr_Finalizers run ++ [RetainedResourcesFinalizer] |>) in
                {| oc_Stored := oc_Stored o; oc_Writes := WriteFinalizer true :: oc_Writes o; oc_Requeue := oc_Requeue o; oc_Error := oc_Error o |}
            end
          else reconcileExecution b w run
      end
  end.

(** The events of the resource itself the controller reacts to. *)
Definition reconciliationPredicate (old new : AgentRunResource) : bool :=
  (kr_Generation old !=  kr_Generation new)
  || (bool_decide (kr_DeletionTimestamp old = None) && bool_decide (is_Some (kr_DeletionTimestamp new))).
End Controller.
