(* ===== verification/OperatorInvariant.v ===== *)
(** * Attempts and history under the controller

    What every reconciliation preserves, whatever the API answers: the attempt number
    only moves forward, one at a time and only after a failure that may be retried; the
    history is sorted, has one entry per attempt and never changes for past attempts; a
    settled outcome is final; and every object that is applied belongs to the attempt
    that was read. [System] runs the controller on stored versions, with stale reads,
    cancellation and deletion in between. *)

From S2P Require Import Prelude Json AgentRun Policy Cluster Events JsonDecode OpTypes Builder Lifecycle Operator.

(** ** The attempt history *)

Definition attemptLt (a b : AttemptStatus) : Prop := as_Attempt a < as_Attempt b.

Definition inRange (l : list AttemptStatus) : Prop := Forall (fun a => 1 <= as_Attempt a <= 10) l.

Lemma wrap32_small z : - 2 ^ 31 <= z < 2 ^ 31 -> wrap32 z = z.
Proof. intros Hz. unfold wrap32. rewrite Z.mod_small; lia. Qed.

#[export] Instance attemptLe_total : Total attemptLe.
Proof.
  intros a b. unfold attemptLe, wrap32. set (d := as_Attempt a - as_Attempt b).
  replace (as_Attempt b - as_Attempt a) with (- d) by lia.
  destruct (Z.le_gt_cases ((d + 2 ^ 31) mod 2 ^ 32 - 2 ^ 31) 0) as [|Hgt]; [by left|right].
  pose proof (Z.mod_pos_bound (d + 2 ^ 31) (2 ^ 32) ltac:(lia)) as Hb.
  pose proof (Z.div_mod (d + 2 ^ 31) (2 ^ 32) ltac:(lia)) as Hd.
  set (r := (d + 2 ^ 31) mod 2 ^ 32) in *. set (q := (d + 2 ^ 31) / 2 ^ 32) in *.
  replace (- d + 2 ^ 31) with ((2 ^ 32 - r) + (- q) * 2 ^ 32) by lia.
  rewrite Z_mod_plus_full, Z.mod_small by lia. lia.
Qed.

Lemma Sorted_attempts l : inRange l -> Sorted attemptLe l -> Sorted (fun a b => as_Attempt a <= as_Attempt b) l.
Proof.
  intros Hr. induction 1 as [|a l Hs IH Hh]; [constructor|]. inversion Hr as [|? ? Ha Hl]; subst. constructor; [by apply IH|].
  destruct Hh as [|b l Hb]; constructor. inversion Hl; subst. unfold attemptLe in Hb. rewrite wrap32_small in Hb by lia. lia.
Qed.

Lemma strictly_sorted l : NoDup (as_Attempt <$> l) -> StronglySorted (fun a b => as_Attempt a <= as_Attempt b) l -> StronglySorted attemptLt l.
Proof.
  intros Hnd. induction 1 as [|a l Hs IH Ha]; [constructor|]. simpl in Hnd. apply NoDup_cons in Hnd as [Hn Hnd]. constructor; [by apply IH|].
  rewrite Forall_forall in Ha |- *. intros b Hb. unfold attemptLt. specialize (Ha b Hb).
  destruct (decide (as_Attempt a = as_Attempt b)) as [E|]; [|lia]. exfalso. apply Hn. rewrite E. by apply list_elem_of_fmap_2.
Qed.

Lemma sort_attempts l : inRange l -> NoDup (as_Attempt <$> l) -> StronglySorted attemptLt (merge_sort attemptLe l).
Proof.
  intros Hr Hnd. apply strictly_sorted; [by rewrite merge_sort_Permutation|]. apply Sorted_StronglySorted; [intros a b c ? ?; lia|].
  apply Sorted_attempts; [unfold inRange; by rewrite merge_sort_Permutation|]. apply Sorted_merge_sort, _.
Qed.

Lemma sorted_NoDup l : StronglySorted attemptLt l -> NoDup (as_Attempt <$> l).
Proof.
  induction 1 as [|a l Hs IH Ha]; simpl; constructor; [|done]. rewrite list_elem_of_fmap. intros (b & E & Hb).
  rewrite Forall_forall in Ha. specialize (Ha b Hb). unfold attemptLt in Ha. lia.
Qed.

Lemma replaceAttempt_some current l l' :
  NoDup (as_Attempt <$> l) -> replaceAttempt current l = Some l' ->
  as_Attempt <$> l' = as_Attempt <$> l /\ (forall e, e ∈ l' <-> e = current \/ (e ∈ l /\ as_Attempt e <> as_Attempt current)).
Proof.
  revert l'. induction l as [|a l IH]; intros l' Hnd; simpl; [done|]. simpl in Hnd. apply NoDup_cons in Hnd as [Hn Hnd].
  destruct (Z.eqb_spec (as_Attempt a) (as_Attempt current)) as [E|E].
  - intros [= <-]. split; [simpl; congruence|]. intros e. rewrite !elem_of_cons. split.
    + intros [->|He]; [by left|]. right. split; [by right|]. intros Ee. apply Hn. rewrite E, <-Ee. by apply list_elem_of_fmap_2.
    + intros [->|[[->|He] Hne]]; [by left|done|by right].
  - destruct (replaceAttempt current l) as [k|]; [|done]. intros [= <-]. destruct (IH k Hnd eq_refl) as [Hk He]. split; [by rewrite !fmap_cons, Hk|].
    intros e. rewrite !elem_of_cons, He. naive_solver.
Qed.

Lemma replaceAttempt_none current l : replaceAttempt current l = None -> as_Attempt current ∉ as_Attempt <$> l.
Proof.
  induction l as [|a l IH]; simpl; [intros _; apply not_elem_of_nil|].
  destruct (Z.eqb_spec (as_Attempt a) (as_Attempt current)); [done|]. destruct (replaceAttempt current l); [done|].
  intros _. rewrite elem_of_cons. intros [E|E]; [lia|]. by apply IH.
Qed.

(** Recording the current attempt: its entry is the given one, the others stay, and the
    list remains strictly sorted. *)
Lemma upsert_spec current l :
  StronglySorted attemptLt l -> inRange l -> 1 <= as_Attempt current <= 10 ->
  StronglySorted attemptLt (upsertAttempts current l) /\
  (forall e, e ∈ upsertAttempts current l <-> e = current \/ (e ∈ l /\ as_Attempt e <> as_Attempt current)).
Proof.
  intros Hs Hr Hc. pose proof (sorted_NoDup l Hs) as Hnd. unfold upsertAttempts. destruct (replaceAttempt current l) as [k|] eqn:E.
  - destruct (replaceAttempt_some current l k Hnd E) as [Hk He]. split.
    + apply sort_attempts; [|by rewrite Hk]. apply Forall_forall. intros e [->|[Hel _]]%He; [done|].
      unfold inRange in Hr. rewrite Forall_forall in Hr. auto.
    + intros e. by rewrite merge_sort_Permutation.
  - apply replaceAttempt_none in E. split.
    + apply sort_attempts; [apply Forall_app; split; [done|by constructor]|]. rewrite fmap_app. apply NoDup_app. simpl.
      split_and!; [done|intros x Hx; rewrite list_elem_of_singleton; intros ->; done|apply NoDup_singleton].
    + intros e. rewrite merge_sort_Permutation, elem_of_app, list_elem_of_singleton. split; [|naive_solver].
      intros [He| ->]; [|by left]. right. split; [done|]. intros Ee. apply E. rewrite <-Ee. by apply list_elem_of_fmap_2.
Qed.

(** The entries of attempts before [k]. *)
Definition past (k : Z) (l : list AttemptStatus) : list AttemptStatus := filter (fun a => as_Attempt a < k) l.

Lemma StronglySorted_filter {A} (R : relation A) (P : A -> Prop) `{!forall a, Decision (P a)} l :
  StronglySorted R l -> StronglySorted R (filter P l).
Proof.
  induction 1 as [|a l Hs IH Ha]; [constructor|]. rewrite filter_cons. case_decide; [|done]. constructor; [done|].
  rewrite Forall_forall in Ha |- *. intros b [_ Hb]%list_elem_of_filter. auto.
Qed.

Lemma attempts_unique l k : StronglySorted attemptLt l -> StronglySorted attemptLt k -> (forall e, e ∈ l <-> e ∈ k) -> l = k.
Proof.
  intros Hl Hk He. apply (StronglySorted_unique_strong attemptLt); [|done..|].
  - intros a b _ _ H1 H2. unfold attemptLt in *. lia.
  - apply NoDup_Permutation; [eapply NoDup_fmap_1, sorted_NoDup; done..|done].
Qed.

Lemma upsert_past current l k :
  StronglySorted attemptLt l -> inRange l -> 1 <= as_Attempt current <= 10 -> k <= as_Attempt current ->
  past k (upsertAttempts current l) = past k l.
Proof.
  intros Hs Hr Hc Hk. destruct (upsert_spec current l Hs Hr Hc) as [Hs' He].
  apply attempts_unique; [by apply StronglySorted_filter..|]. intros e. unfold past. rewrite !list_elem_of_filter, He. split.
  - intros [Hlt [->|[Hel _]]]; [lia|done].
  - intros [Hlt Hel]. split; [done|]. right. split; [done|lia].
Qed.

Section Invariant.
Context {SC : StatusConditions} {UP : URLParts} {KV : K8sValidation} {NI : NetIP} {SH : SHA256} {DV : Derivatives}.

(** ** What holds of every stored version *)

(** A category the platform and the run's own policy allow to be retried. *)
Definition retryable (run : AgentRunResource) (category : FailureCategory) : Prop :=
  (category = FailureTransientDependency \/ category = FailureInternal) /\
  category ∈ rp_RetryableFailureCategories (sp_RetryPolicy (kr_Spec run)).

(** The entry of a failed attempt. *)
Definition failedEntry (run : AgentRunResource) (attempt : Z) (category : FailureCategory) : Prop :=
  exists e, e ∈ ss_Attempts (kr_Status run) /\ as_Attempt e = attempt /\ as_Phase e = PhaseFailed /\ as_FailureCategory e = category.

Record run_inv (run : AgentRunResource) : Prop := {
  ri_valid : validateAgentRun run = Ok tt;
  ri_ceiling : rp_MaxAttempts (sp_RetryPolicy (kr_Spec run)) <= 10;  (* the schema's maximum *)
  ri_attempt : ss_Attempt (kr_Status run) = 0 \/ sp_Attempt (kr_Spec run) <= ss_Attempt (kr_Status run);
  ri_fresh : ss_Attempt (kr_Status run) = 0 -> ss_Phase (kr_Status run) = PhaseUnset;
  ri_job : ss_JobName (kr_Status run) = EmptyString \/
           exists names, ForAgentRun run = Ok names /\ ss_JobName (kr_Status run) = rn_Job names;
  ri_sorted : StronglySorted attemptLt (ss_Attempts (kr_Status run));
  ri_range : Forall (fun a => sp_Attempt (kr_Spec run) <= as_Attempt a <= CurrentAttempt run) (ss_Attempts (kr_Status run));
  ri_past : forall a, sp_Attempt (kr_Spec run) <= a < CurrentAttempt run ->
            exists category, retryable run category /\ failedEntry run a category;
  ri_retry : retryAllowed run = true -> failedEntry run (CurrentAttempt run) (ss_FailureCategory (kr_Status run));
}.

(** One step of a handler within the same attempt. *)
Record evolves (r r' : AgentRunResource) : Prop := {
  ev_spec : kr_Spec r' = kr_Spec r;
  ev_generation : kr_Generation r' = kr_Generation r;
  ev_attempt : CurrentAttempt r' = CurrentAttempt r;
  ev_started : ss_Attempt (kr_Status r) <> 0 -> ss_Attempt (kr_Status r') <> 0;
  ev_past : past (CurrentAttempt r) (ss_Attempts (kr_Status r')) = past (CurrentAttempt r) (ss_Attempts (kr_Status r));
  ev_inv : run_inv r';
}.

Lemma evolves_refl r : run_inv r -> evolves r r.
Proof. by constructor. Qed.

Lemma evolves_trans r1 r2 r3 : evolves r1 r2 -> evolves r2 r3 -> evolves r1 r3.
Proof.
  intros [E1 G1 A1 S1 P1 _] [E2 G2 A2 S2 P2 I]. constructor; [congruence..|auto| |done]. rewrite <-P1. by rewrite <-A1, P2, A1.
Qed.

Lemma ForAgentRun_congr r r' :
  kr_Spec r' = kr_Spec r -> CurrentAttempt r' = CurrentAttempt r -> ForAgentRun r' = ForAgentRun r.
Proof. intros Hs Ha. unfold ForAgentRun. by rewrite Hs, Ha. Qed.

Lemma validate_congr r r' :
  kr_Spec r' = kr_Spec r -> kr_Generation r' = kr_Generation r -> CurrentAttempt r' = CurrentAttempt r ->
  validateAgentRun r' = validateAgentRun r.
Proof. intros Hs Hg Ha. unfold validateAgentRun. by rewrite (ForAgentRun_congr r r'), Hs, Hg. Qed.

Lemma validate_bounds r :
  validateAgentRun r = Ok tt ->
  1 <= sp_Attempt (kr_Spec r) /\ 1 <= CurrentAttempt r <= 10 /\ CurrentAttempt r <= rp_MaxAttempts (sp_RetryPolicy (kr_Spec r)) /\
  (sp_DesiredState (kr_Spec r) = DesiredStateRunning \/ sp_DesiredState (kr_Spec r) = DesiredStateCancelled) /\
  exists names, ForAgentRun r = Ok names.
Proof.
  unfold validateAgentRun. intros E. apply bind_ok in E as ([] & _ & E). apply bind_ok in E as ([] & _ & E).
  apply bind_ok in E as ([] & Ha%failIf_ok & E). do 5 (apply bind_ok in E as ([] & _ & E)). apply bind_ok in E as ([] & Hd%failIf_ok & E).
  apply bind_ok in E as (names & Hn & _). destruct (ForAgentRun_ok r names Hn) as (_ & Hb & Hm & _).
  reflect_bools. split_and!; try lia; [|by eexists]. cases_bools; auto.
Qed.

Lemma CurrentAttempt_ge r : sp_Attempt (kr_Spec r) <= CurrentAttempt r.
Proof. unfold CurrentAttempt. destruct (Z.leb_spec (sp_Attempt (kr_Spec r)) (ss_Attempt (kr_Status r))); lia. Qed.

Lemma inv_range r : run_inv r -> inRange (ss_Attempts (kr_Status r)).
Proof.
  intros I. destruct (validate_bounds r (ri_valid r I)) as (H1 & H2 & _). eapply Forall_impl; [apply (ri_range r I)|]. simpl. lia.
Qed.

(** A step that keeps the history and does not open a retry. *)
Lemma evolves_general r r' :
  run_inv r -> kr_Spec r' = kr_Spec r -> kr_Generation r' = kr_Generation r -> CurrentAttempt r' = CurrentAttempt r ->
  (ss_Attempt (kr_Status r') = 0 -> ss_Attempt (kr_Status r) = 0 /\ ss_Phase (kr_Status r') = PhaseUnset) ->
  (ss_Attempt (kr_Status r') <> 0 -> sp_Attempt (kr_Spec r) <= ss_Attempt (kr_Status r')) ->
  ss_Attempts (kr_Status r') = ss_Attempts (kr_Status r) ->
  (ss_JobName (kr_Status r') = ss_JobName (kr_Status r) \/ exists names, ForAgentRun r = Ok names /\ ss_JobName (kr_Status r') = rn_Job names) ->
  (retryAllowed r' = true -> retryAllowed r = true /\ ss_FailureCategory (kr_Status r') = ss_FailureCategory (kr_Status r)) ->
  evolves r r'.
Proof.
  intros I Hs Hg Hc Hz Hnz Hh Hj Hr. constructor; [done|done|done|intros Hn E; by apply Hz in E as [? _]|by rewrite Hh|]. constructor.
  - rewrite (validate_congr r r'); [apply (ri_valid r I)|done..].
  - rewrite Hs. apply (ri_ceiling r I).
  - rewrite Hs. destruct (decide (ss_Attempt (kr_Status r') = 0)); auto.
  - intros E. by apply Hz in E as [_ ?].
  - rewrite (ForAgentRun_congr r r' Hs Hc). destruct Hj as [->|Hj]; [apply (ri_job r I)|by right].
  - rewrite Hh. apply (ri_sorted r I).
  - rewrite Hh, Hs, Hc. apply (ri_range r I).
  - rewrite Hs, Hc. intros a Hlt. unfold retryable, failedEntry. rewrite Hs, Hh. apply (ri_past r I a Hlt).
  - intros [Hr1 Hr2]%Hr. rewrite Hc, Hr2. unfold failedEntry. rewrite Hh. by apply (ri_retry r I).
Qed.

(** The same, when the attempt number stays too. *)
Lemma evolves_quiet r r' :
  run_inv r -> kr_Spec r' = kr_Spec r -> kr_Generation r' = kr_Generation r ->
  ss_Attempt (kr_Status r') = ss_Attempt (kr_Status r) -> ss_Attempts (kr_Status r') = ss_Attempts (kr_Status r) ->
  (ss_Attempt (kr_Status r) <> 0 \/ ss_Phase (kr_Status r') = ss_Phase (kr_Status r)) ->
  (ss_JobName (kr_Status r') = ss_JobName (kr_Status r) \/ exists names, ForAgentRun r = Ok names /\ ss_JobName (kr_Status r') = rn_Job names) ->
  (retryAllowed r' = true -> retryAllowed r = true /\ ss_FailureCategory (kr_Status r') = ss_FailureCategory (kr_Status r)) ->
  evolves r r'.
Proof.
  intros I Hs Hg Ha Hh Hf Hj Hr. apply evolves_general; auto.
  - unfold CurrentAttempt. by rewrite Hs, Ha.
  - rewrite Ha. intros E. split; [done|]. destruct Hf as [Hf|Hf]; [done|]. rewrite Hf. by apply (ri_fresh r I).
  - rewrite Ha. intros Hn. destruct (ri_attempt r I); [done|lia].
Qed.

(** Two resources that differ only in conditions and fields no theorem here reads. *)
Record sameCore (r r' : AgentRunResource) : Prop := {
  sc_spec : kr_Spec r' = kr_Spec r;
  sc_generation : kr_Generation r' = kr_Generation r;
  sc_phase : ss_Phase (kr_Status r') = ss_Phase (kr_Status r);
  sc_attempt : ss_Attempt (kr_Status r') = ss_Attempt (kr_Status r);
  sc_job : ss_JobName (kr_Status r') = ss_JobName (kr_Status r);
  sc_category : ss_FailureCategory (kr_Status r') = ss_FailureCategory (kr_Status r);
  sc_attempts : ss_Attempts (kr_Status r') = ss_Attempts (kr_Status r);
}.

Lemma sameCore_refl r : sameCore r r.
Proof. by constructor. Qed.

Lemma sameCore_trans r1 r2 r3 : sameCore r1 r2 -> sameCore r2 r3 -> sameCore r1 r3.
Proof. intros [] []. constructor; congruence. Qed.

Lemma sameCore_current r r' : sameCore r r' -> CurrentAttempt r' = CurrentAttempt r.
Proof. intros S. unfold CurrentAttempt. by rewrite (sc_spec _ _ S), (sc_attempt _ _ S). Qed.

Lemma sameCore_retry r r' : sameCore r r' -> retryAllowed r' = retryAllowed r.
Proof.
  intros S. unfold retryAllowed. rewrite (sameCore_current r r' S). destruct S as [-> _ -> -> _ -> _]. done.
Qed.

Lemma sameCore_evolves r r' : run_inv r -> sameCore r r' -> evolves r r'.
Proof.
  intros I S. pose proof (sameCore_retry r r' S) as Hr. destruct S as [H1 H2 H3 H4 H5 H6 H7]. apply evolves_quiet; auto. intros E. split; congruence.
Qed.

Lemma setCondition_core now r t s reason message : sameCore r (setCondition now r t s reason message).
Proof. by constructor. Qed.

Lemma started_current r : run_inv r -> ss_Attempt (kr_Status r) <> 0 -> ss_Attempt (kr_Status r) = CurrentAttempt r.
Proof.
  intros I Hn. destruct (ri_attempt r I) as [?|Hge]; [done|]. unfold CurrentAttempt. by rewrite (proj2 (Z.leb_le _ _)).
Qed.

(** A step that records the current attempt in the history. *)
Lemma evolves_upsert r r1 :
  run_inv r -> ss_Attempt (kr_Status r) <> 0 -> kr_Spec r1 = kr_Spec r -> kr_Generation r1 = kr_Generation r ->
  ss_Attempt (kr_Status r1) = ss_Attempt (kr_Status r) -> ss_Attempts (kr_Status r1) = ss_Attempts (kr_Status r) ->
  (ss_JobName (kr_Status r1) = ss_JobName (kr_Status r) \/ exists names, ForAgentRun r = Ok names /\ ss_JobName (kr_Status r1) = rn_Job names) ->
  evolves r (upsertAttemptStatus r1).
Proof.
  intros I Hn Hs Hg Ha Hh Hj. set (r' := upsertAttemptStatus r1).
  assert (Hc1 : CurrentAttempt r1 = CurrentAttempt r) by (unfold CurrentAttempt; by rewrite Hs, Ha).
  assert (Hc : CurrentAttempt r' = CurrentAttempt r) by exact Hc1.
  destruct (validate_bounds r (ri_valid r I)) as (B1 & B2 & _).
  destruct (upsert_spec (currentEntry r1) (ss_Attempts (kr_Status r)) (ri_sorted r I) (inv_range r I)) as [Hsort Hel]; [simpl; lia|].
  assert (Hlist : ss_Attempts (kr_Status r') = upsertAttempts (currentEntry r1) (ss_Attempts (kr_Status r))).
  { unfold r', upsertAttemptStatus. simpl. by rewrite Hh. }
  constructor; [done|done|done|by rewrite <-Ha in Hn|rewrite Hlist; apply upsert_past;
    [apply (ri_sorted r I)|apply (inv_range r I)|simpl; lia|simpl; lia]|].
  constructor.
  - rewrite (validate_congr r r'); [apply (ri_valid r I)|done..].
  - change (kr_Spec r') with (kr_Spec r1). rewrite Hs. apply (ri_ceiling r I).
  - change (ss_Attempt (kr_Status r')) with (ss_Attempt (kr_Status r1)). rewrite Ha. change (kr_Spec r') with (kr_Spec r1). rewrite Hs. apply (ri_attempt r I).
  - change (ss_Attempt (kr_Status r')) with (ss_Attempt (kr_Status r1)). rewrite Ha. done.
  - rewrite (ForAgentRun_congr r r' Hs Hc). change (ss_JobName (kr_Status r')) with (ss_JobName (kr_Status r1)).
    destruct Hj as [->|Hj]; [apply (ri_job r I)|by right].
  - by rewrite Hlist.
  - rewrite Hlist, Hc. change (kr_Spec r') with (kr_Spec r1). rewrite Hs. apply Forall_forall. intros e [->|[He _]]%Hel.
    + simpl. rewrite Hc1. pose proof (CurrentAttempt_ge r). lia.
    + pose proof (ri_range r I) as Hr. rewrite Forall_forall in Hr. auto.
  - rewrite Hc. intros a Hlt. change (kr_Spec r') with (kr_Spec r1) in Hlt. rewrite Hs in Hlt.
    destruct (ri_past r I a Hlt) as (category & [Hcat Hpol] & e & He & E1 & E2 & E3).
    exists category. split; [split; [done|change (kr_Spec r') with (kr_Spec r1); by rewrite Hs]|]. exists e. rewrite Hlist.
    split_and!; [|done..]. apply Hel. right. split; [done|]. simpl. lia.
  - intros Hr. rewrite Hc. exists (currentEntry r1). rewrite Hlist. split_and!; [by apply Hel; left|done| |done].
    unfold retryAllowed in Hr. simpl in Hr. reflect_bools. done.
Qed.

(** ** Handlers *)

Lemma projectLifecycle_evolves now r o :
  run_inv r -> ss_Attempt (kr_Status r) <> 0 -> evolves r (projectLifecycle now r o).
Proof. intros I Hn. apply evolves_upsert; auto. Qed.

Lemma recordMissingJob_evolves now r names :
  run_inv r -> ss_Attempt (kr_Status r) <> 0 -> ForAgentRun r = Ok names -> evolves r (recordMissingJob now r (rn_Job names)).
Proof. intros I Hn Hnames. apply evolves_upsert; auto. right. by exists names. Qed.

Lemma not_failed_no_retry r : ss_Phase (kr_Status r) <> PhaseFailed -> retryAllowed r = false.
Proof. intros Hp. unfold retryAllowed. by rewrite bool_decide_eq_false_2. Qed.

Lemma category_no_retry r : ~ (ss_FailureCategory (kr_Status r) = FailureTransientDependency \/ ss_FailureCategory (kr_Status r) = FailureInternal) ->
  retryAllowed r = false.
Proof. intros Hc. unfold retryAllowed. destruct (ss_FailureCategory _); rewrite ?andb_false_r; try done; exfalso; auto. Qed.

Lemma evolves_phase r p : run_inv r -> ss_Attempt (kr_Status r) <> 0 -> p <> PhaseFailed -> evolves r (withPhase r p).
Proof.
  intros I Hn Hp. apply evolves_quiet; auto. rewrite not_failed_no_retry by done. done.
Qed.

Lemma evolves_condition now r r' t s reason message : evolves r r' -> evolves r (setCondition now r' t s reason message).
Proof. intros E. eapply evolves_trans; [exact E|]. apply sameCore_evolves; [apply (ev_inv _ _ E)|apply setCondition_core]. Qed.

Lemma handlePrerequisiteError_evolves now r t reason err :
  run_inv r -> ss_Attempt (kr_Status r) <> 0 -> evolves r (handlePrerequisiteError now r t reason err).1.
Proof.
  intros I Hn. unfold handlePrerequisiteError. destruct err as [|e]; cbn [fst]; unfold recordPrerequisiteFailure; apply evolves_condition, evolves_condition.
  - apply evolves_quiet; auto. rewrite category_no_retry; [done|]. by intros [|].
  - apply evolves_quiet; auto. case_bool_decide.
    + rewrite category_no_retry; [done|]. by intros [|].
    + rewrite not_failed_no_retry; done.
Qed.

(** The objects an attempt may apply. *)
Definition ownApplies (names : ResourceNames) : list Write :=
  [ WriteApply "ServiceAccount" (rn_ServiceAccount names); WriteApply "ConfigMap" (rn_Configuration names);
    WriteApply "PersistentVolumeClaim" (rn_Workspace names); WriteApply "NetworkPolicy" (rn_NetworkPolicy names);
    WriteApply "Job" (rn_Job names) ].

(** A handler that stays within the attempt [names] belong to. *)
Definition within (r : AgentRunResource) (names : ResourceNames) (p : Progress) : Prop :=
  evolves r (pg_Run p) /\ Forall (fun w => w ∈ ownApplies names) (pg_Writes p).

Lemma failPrerequisite_within now r0 r names writes t reason err :
  evolves r0 r -> ss_Attempt (kr_Status r) <> 0 -> Forall (fun w => w ∈ ownApplies names) writes ->
  within r0 names (failPrerequisite now r writes t reason err).
Proof.
  intros E Hn Hw. unfold failPrerequisite. pose proof (handlePrerequisiteError_evolves now r t reason err (ev_inv _ _ E) Hn) as E'.
  destruct (handlePrerequisiteError now r t reason err) as [r' e]. split; [by eapply evolves_trans|done].
Qed.

Lemma ensuring_within {T} `{!ManagedObject T} now r0 r names writes (desired : T) existing patch t reason next :
  evolves r0 r -> ss_Attempt (kr_Status r) <> 0 -> Forall (fun w => w ∈ ownApplies names) writes ->
  WriteApply objectKind (om_Name (objectMeta desired)) ∈ ownApplies names ->
  (forall writes, Forall (fun w => w ∈ ownApplies names) writes -> within r0 names (next writes)) ->
  within r0 names (ensuring now r writes desired existing patch t reason next).
Proof.
  intros E Hn Hw Hd Hnext. unfold ensuring.
  destruct (ensureObject r desired existing patch) as [applied err] eqn:Ee.
  assert (Happ : Forall (fun w => w ∈ ownApplies names) (writes ++ applied)).
  { apply Forall_app. split; [done|]. unfold ensureObject in Ee. repeat case_match; simplify_eq; first [by apply Forall_nil_2|by apply Forall_singleton]. }
  destruct err; [by apply failPrerequisite_within|by apply Hnext].
Qed.

Lemma waiting_within r0 r names writes d :
  evolves r0 r -> Forall (fun w => w ∈ ownApplies names) writes -> within r0 names (waiting r writes d).
Proof. by split. Qed.

Lemma observeJob_within w r0 r names writes job :
  evolves r0 r -> ss_Attempt (kr_Status r) <> 0 -> Forall (fun w => w ∈ ownApplies names) writes ->
  within r0 names (observeJob w r writes job).
Proof.
  intros E Hn Hw. unfold observeJob. destruct (w_Pods w) as [pods|e]; [|by apply failPrerequisite_within].
  apply waiting_within; [|done]. eapply evolves_trans; [exact E|]. apply projectLifecycle_evolves; [apply (ev_inv _ _ E)|done].
Qed.

Lemma evolves_names r0 r names : evolves r0 r -> ForAgentRun r0 = Ok names -> ForAgentRun r = Ok names.
Proof. intros E. by rewrite (ForAgentRun_congr r0 r (ev_spec _ _ E) (ev_attempt _ _ E)). Qed.

Lemma reconcileJob_within w r0 r names writes desired :
  evolves r0 r -> ss_Attempt (kr_Status r) <> 0 -> Forall (fun w => w ∈ ownApplies names) writes ->
  ForAgentRun r0 = Ok names -> om_Name (jo_Meta desired) = rn_Job names ->
  within r0 names (reconcileJob w r writes desired).
Proof.
  intros E Hn Hw Hnames Hd. pose proof (evolves_names r0 r names E Hnames) as Hnames'. unfold reconcileJob. rewrite Hd.
  match goal with |- context [ensuring ?a ?b ?c ?d ?e ?f ?g ?h ?i] => set (apply := ensuring a b c d e f g h i) end.
  assert (Happly : within r0 names apply).
  { apply ensuring_within; [done|done|done| |].
    - simpl. rewrite Hd. set_solver.
    - intros writes' Hw'. set (r1 := withStatus r _).
      assert (E1 : evolves r r1) by (apply evolves_quiet; auto; [apply (ev_inv _ _ E)|right; by exists names]).
      assert (E2 : evolves r0 (recordPrerequisiteReady (w_now w) r1 ConditionJobReady "JobReady" "Execution Job is created")).
      { apply evolves_condition. by eapply evolves_trans. }
      destruct (w_Job w) as [job|e]; [by apply observeJob_within|by apply failPrerequisite_within]. }
  case_bool_decide as Hempty; [done|]. destruct (ri_job r (ev_inv _ _ E)) as [?|(names' & Hn' & Hj)]; [done|].
  rewrite Hnames' in Hn'. apply Ok_inj in Hn'. subst names'. rewrite (bool_decide_eq_true_2 (ss_JobName _ = _)) by done. cbn [negb].
  assert (Hmiss : within r0 names (waiting (recordMissingJob (w_now w) r (rn_Job names)) writes 0)).
  { apply waiting_within; [|done]. eapply evolves_trans; [exact E|]. apply recordMissingJob_evolves; [apply (ev_inv _ _ E)|done..]. }
  destruct (w_JobBefore w) as [existing|e];
    [|destruct e; [by apply failPrerequisite_within..|exact Hmiss|by apply failPrerequisite_within]].
  by destruct (jb_DeletionTimestamp existing).
Qed.

Lemma reconcileNetwork_within w r0 r names writes policy job :
  evolves r0 r -> ss_Attempt (kr_Status r) <> 0 -> Forall (fun w => w ∈ ownApplies names) writes ->
  ForAgentRun r0 = Ok names -> om_Name (np_Meta policy) = rn_NetworkPolicy names -> om_Name (jo_Meta job) = rn_Job names ->
  within r0 names (reconcileNetwork w r writes policy job).
Proof.
  intros E Hn Hw Hnames Hp Hj. unfold reconcileNetwork. apply ensuring_within; [done|done|done|simpl; rewrite Hp; set_solver|].
  intros writes' Hw'. apply reconcileJob_within; [by apply evolves_condition|done..].
Qed.

Lemma reconcileWorkspace_within w r0 r names writes claim policy job :
  evolves r0 r -> ss_Attempt (kr_Status r) <> 0 -> Forall (fun w => w ∈ ownApplies names) writes ->
  ForAgentRun r0 = Ok names -> om_Name (pvc_Meta claim) = rn_Workspace names -> om_Name (np_Meta policy) = rn_NetworkPolicy names ->
  om_Name (jo_Meta job) = rn_Job names ->
  within r0 names (reconcileWorkspace w r writes claim policy job).
Proof.
  intros E Hn Hw Hnames Hc Hp Hj. unfold reconcileWorkspace. apply ensuring_within; [done|done|done|simpl; rewrite Hc; set_solver|].
  intros writes' Hw'. destruct (w_Claim w) as [[phase storageClass]|e]; [|by apply failPrerequisite_within].
  case_bool_decide; [apply reconcileNetwork_within; [by apply evolves_condition|done..]|].
  assert (E1 : evolves r0 (withPhase r PhaseProvisioning)).
  { eapply evolves_trans; [exact E|]. apply evolves_phase; [apply (ev_inv _ _ E)|done..]. }
  destruct (workspaceWaitsForFirstConsumer w storageClass) as [[]|e]; [| |by apply failPrerequisite_within].
  - apply reconcileNetwork_within; [by apply evolves_condition|done..].
  - apply waiting_within; [|done]. unfold storagePending. by repeat apply evolves_condition.
Qed.

Lemma references_cases w r :
  (exists e, configurationReferencesReady w r = ReferencesFailed e) \/
  (exists message, configurationReferencesReady w r = ReferencesMissing (referenceMissing (w_now w) r message)) \/
  configurationReferencesReady w r = ReferencesReady.
Proof.
  unfold configurationReferencesReady. destruct (firstMissing (w_ConfigMapExists w) _) as [[name []]|]; eauto.
  destruct (firstMissing (w_SecretExists w) _) as [[name []]|]; eauto.
Qed.

(** The prerequisites of an attempt touch only its own objects and entry. *)
Lemma reconcilePrerequisites_within b w r names :
  run_inv r -> ss_Attempt (kr_Status r) <> 0 -> ForAgentRun r = Ok names -> within r names (reconcilePrerequisites b w r).
Proof.
  intros I Hn Hnames. pose proof (evolves_refl r I) as E. unfold reconcilePrerequisites.
  destruct (BuildAll b r) as [resources|err] eqn:Eb.
  2:{ split; [|constructor]. simpl. do 2 apply evolves_condition. apply evolves_quiet; auto. rewrite category_no_retry; [done|]. by intros [|]. }
  unfold BuildAll in Eb. apply bind_ok in Eb as (context & Hr & Eb). apply bind_ok in Eb as ([] & _ & Eb). apply Ok_inj in Eb. subst resources.
  destruct (resolve_ok b r context Hr) as (Hrun & Hnames' & _). rewrite Hnames in Hnames'. apply Ok_inj in Hnames'. subst names.
  apply ensuring_within; [done|done|constructor|simpl; set_solver|]. intros writes Hw.
  set (r1 := recordPrerequisiteReady _ r _ _ _). assert (E1 : evolves r r1) by (by apply evolves_condition).
  assert (Hmissing : forall message, within r (bc_names context) (waiting (withPhase (referenceMissing (w_now w) r1 message) PhaseProvisioning) writes prerequisiteRequeue)).
  { intros message. apply waiting_within; [|done].
    assert (E2 : evolves r (referenceMissing (w_now w) r1 message)) by (unfold referenceMissing; by repeat apply evolves_condition).
    eapply evolves_trans; [exact E2|]. apply evolves_phase; [apply (ev_inv _ _ E2)|done..]. }
  assert (Hready : within r (bc_names context) (ensuring (w_now w) r1 writes (buildConfigMap context) (w_Configuration w) (w_ConfigurationPatch w)
    ConditionConfigurationReady "ConfigurationReconcileFailed" (fun writes =>
      reconcileWorkspace w (recordPrerequisiteReady (w_now w) r1 ConditionConfigurationReady "ConfigurationReady"
        "Execution configuration references are ready") writes (buildPVC context) (buildNetworkPolicy context) (buildJob context)))).
  { apply ensuring_within; [done|done|done|simpl; set_solver|]. intros writes' Hw'.
    apply reconcileWorkspace_within; try done; [by apply evolves_condition|]. simpl. by case_bool_decide. }
  destruct (references_cases w r1) as [[e Er]|[[message Er]|Er]]; rewrite Er; [by apply failPrerequisite_within|apply Hmissing|exact Hready].
Qed.

Lemma initializeStatus_evolves now r category failureReason :
  run_inv r -> (category = FailureUnset \/ category = ss_FailureCategory (kr_Status r)) ->
  evolves r (initializeStatus now r category failureReason) /\ ss_Attempt (kr_Status (initializeStatus now r category failureReason)) <> 0.
Proof.
  intros I Hcat. destruct (validate_bounds r (ri_valid r I)) as (Hb & _).
  assert (Hne : ss_Attempt (kr_Status (initializeStatus now r category failureReason)) <> 0).
  { simpl. destruct (Z.eqb_spec (ss_Attempt (kr_Status r)) 0); lia. }
  split; [|done]. unfold initializeStatus. apply evolves_condition. apply evolves_general; auto.
  - unfold CurrentAttempt. simpl. destruct (Z.eqb_spec (ss_Attempt (kr_Status r)) 0) as [->|]; [|done].
    rewrite Z.leb_refl. rewrite (proj2 (Z.leb_gt _ _)); lia.
  - intros E. by simpl in *.
  - intros _. simpl. destruct (Z.eqb_spec (ss_Attempt (kr_Status r)) 0); [lia|]. destruct (ri_attempt r I); [done|lia].
  - destruct Hcat as [->|Hcat]; [rewrite category_no_retry; [done|by intros [|]]|]. intros Hr. split; [|done].
    unfold retryAllowed in Hr |- *. simpl in Hr. subst category. unfold CurrentAttempt in Hr |- *. simpl in Hr.
    destruct (decide (ss_Phase (kr_Status r) = PhaseUnset)) as [Hu|Hu]; [by rewrite Hu in Hr|].
    rewrite (bool_decide_eq_false_2 _ Hu) in Hr. destruct (Z.eqb_spec (ss_Attempt (kr_Status r)) 0) as [E|]; [|done].
    by rewrite (ri_fresh r I E) in Hu.
Qed.

Lemma initializeAcceptedStatus_evolves now r :
  run_inv r -> evolves r (initializeAcceptedStatus now r) /\ ss_Attempt (kr_Status (initializeAcceptedStatus now r)) <> 0.
Proof.
  intros I. destruct (initializeStatus_evolves now r FailureUnset EmptyString I) as [E Hn]; [by left|].
  unfold initializeAcceptedStatus. set (r1 := setCondition _ (initializeStatus _ _ _ _) _ _ _ _).
  assert (E1 : evolves r r1 /\ ss_Attempt (kr_Status r1) <> 0) by (split; [by apply evolves_condition|done]). clearbody r1. clear E Hn.
  generalize [ConditionServiceAccountReady; ConditionConfigurationReady; ConditionWorkspaceReady; ConditionNetworkPolicyReady; ConditionJobReady].
  intros l. revert r1 E1. induction l as [|t l IH]; intros r1 E1; simpl; [done|]. apply IH.
  destruct (FindStatusCondition _ t); [done|]. destruct E1. split; [by apply evolves_condition|done].
Qed.

(** ** Cancellation *)

Definition noApply (writes : list Write) : Prop := Forall (fun w => match w with WriteApply _ _ => False | _ => True end) writes.

(** A cancellation handler: the attempt stays, and nothing is created. *)
Definition cancels (r : AgentRunResource) (p : Progress) : Prop := evolves r (pg_Run p) /\ noApply (pg_Writes p).

Lemma failCancellation_cancels now r0 r writes reason e :
  evolves r0 r -> ss_Attempt (kr_Status r) <> 0 -> noApply writes -> cancels r0 (failCancellation now r writes reason e).
Proof.
  intros E Hn Hw. unfold failCancellation, recordCancellationError. split; [|done]. simpl. eapply evolves_trans; [exact E|].
  apply evolves_upsert; auto. apply (ev_inv _ _ E).
Qed.

Lemma deletePods_noApply answer pods : noApply (deletePods answer pods).1.
Proof.
  unfold noApply. induction pods as [|pod pods IH]; simpl; [by apply Forall_nil_2|].
  destruct (match answer (pd_Name pod) with Some APINotFound | None => None | Some e => Some e end); [by apply Forall_singleton|].
  destruct (deletePods answer pods). simpl in *. by constructor.
Qed.

Lemma forceDeleteExecution_noApply w job : noApply (forceDeleteExecution w job).1.
Proof.
  unfold forceDeleteExecution. destruct (w_ForcedPods w) as [pods|e]; [|constructor].
  pose proof (deletePods_noApply (w_DeletePod w) (filter (fun pod => ownedByJob job pod = true) pods)) as Hd.
  destruct (deletePods _ _) as [writes [e|]]; [done|]. simpl. apply Forall_app. split; [done|]. by apply Forall_singleton.
Qed.

Lemma terminateJob_cancels w r job : run_inv r -> ss_Attempt (kr_Status r) <> 0 -> cancels r (terminateJob w r job).
Proof.
  intros I Hn. unfold terminateJob. set (r1 := projectCancelling _ _ _).
  assert (E : evolves r r1) by (apply evolves_upsert; auto). assert (Hn1 : ss_Attempt (kr_Status r1) <> 0) by done.
  destruct (cancellationForced (w_now w) r).
  - pose proof (forceDeleteExecution_noApply w job) as Hf. destruct (forceDeleteExecution w job) as [writes [e|]];
      [by apply failCancellation_cancels|by split].
  - destruct (jb_DeletionTimestamp job); [by split; [|constructor]|]. unfold deleteJob.
    assert (Hd : noApply [WriteDeleteJob (jb_Name job) false]) by (by apply Forall_singleton).
    destruct (match w_DeleteJob w with Some APINotFound | None => None | Some e => Some e end); [by apply failCancellation_cancels|by split].
Qed.

Lemma completeCancellation_evolves now r forced : run_inv r -> ss_Attempt (kr_Status r) <> 0 -> evolves r (completeCancellation now r forced).
Proof. intros I Hn. apply evolves_upsert; auto. Qed.

Lemma reconcileCancellation_cancels w r : run_inv r -> ss_Attempt (kr_Status r) <> 0 -> cancels r (reconcileCancellation w r).
Proof.
  intros I Hn. pose proof (evolves_refl r I) as E. assert (Hnil : noApply []) by constructor.
  assert (Hc : forall forced, cancels r (waiting (completeCancellation (w_now w) r forced) [] 0)) by (split; [by apply completeCancellation_evolves|done]).
  unfold reconcileCancellation. case_bool_decide; [done|].
  destruct (ForAgentRun r) as [names|e]; [|by apply failCancellation_cancels].
  case_bool_decide; cbn [negb]; [|by apply failCancellation_cancels].
  destruct (w_Job w) as [job|e]; [|destruct e; [by apply failCancellation_cancels..|apply Hc|by apply failCancellation_cancels]].
  destruct (jb_DeletionTimestamp job); [by apply terminateJob_cancels|].
  destruct (w_Pods w) as [pods|e]; [|by apply failCancellation_cancels].
  destruct (_ || _); [|by apply terminateJob_cancels]. split; [by apply projectLifecycle_evolves|done].
Qed.

(** ** One call of Reconcile *)

(** The attempt number moves forward by at most one, and past entries are kept. *)
Record step (r r' : AgentRunResource) : Prop := {
  sp_spec : kr_Spec r' = kr_Spec r;
  sp_generation : kr_Generation r' = kr_Generation r;
  sp_attempt : CurrentAttempt r <= CurrentAttempt r' <= CurrentAttempt r + 1;
  sp_past : past (CurrentAttempt r) (ss_Attempts (kr_Status r')) = past (CurrentAttempt r) (ss_Attempts (kr_Status r));
  sp_inv : run_inv r';
}.

Lemma evolves_step r r' : evolves r r' -> step r r'.
Proof. intros [E G A _ P I]. constructor; try done. lia. Qed.

Lemma step_after r1 r2 r3 : evolves r1 r2 -> step r2 r3 -> step r1 r3.
Proof.
  intros [E1 G1 A1 _ P1 _] [E2 G2 A2 P2 I]. rewrite A1 in *. constructor; [congruence..|done|by rewrite <-P1|done].
Qed.

Lemma retryAllowed_facts r : run_inv r -> retryAllowed r = true ->
  ss_Attempt (kr_Status r) = CurrentAttempt r /\ CurrentAttempt r < rp_MaxAttempts (sp_RetryPolicy (kr_Spec r)) /\
  retryable r (ss_FailureCategory (kr_Status r)).
Proof.
  intros I Hr. unfold retryAllowed in Hr. reflect_bools. split_and!; [lia|lia|]. unfold retryable.
  destruct (ss_FailureCategory (kr_Status r)); try done; reflect_bools; split; auto.
Qed.

(** Validation depends on the status only through the attempt being within the ceiling. *)
Lemma validate_attempt r r' :
  validateAgentRun r = Ok tt -> kr_Spec r' = kr_Spec r -> kr_Generation r' = kr_Generation r ->
  1 <= CurrentAttempt r' <= 10 -> CurrentAttempt r' <= rp_MaxAttempts (sp_RetryPolicy (kr_Spec r)) -> validateAgentRun r' = Ok tt.
Proof.
  intros Hv Hs Hg Hb Hm. destruct (validate_bounds r Hv) as (_ & _ & _ & _ & names & Hn). unfold validateAgentRun in *. rewrite Hs, Hg.
  assert (Hn' : exists names', ForAgentRun r' = Ok names').
  { destruct (ForAgentRun_ok r names Hn) as (Hid & _). unfold ForAgentRun. rewrite Hs, Hid. cbn [negb]. rewrite bind_failIf, bind_failIf.
    assert (Hok : (CurrentAttempt r' <? 1) || (rp_MaxAttempts (sp_RetryPolicy (kr_Spec r)) <? CurrentAttempt r') || (10 <? CurrentAttempt r') = false) by lia.
    rewrite Hok. by eexists. }
  destruct Hn' as [names' Hn'].
  do 3 (apply bind_ok in Hv as ([] & E & Hv); rewrite E; cbn [mbind res_bind]; clear E).
  do 6 (apply bind_ok in Hv as ([] & E & Hv); rewrite E; cbn [mbind res_bind]; clear E). by rewrite Hn'.
Qed.

(** Starting the next attempt. *)
Lemma nextAttempt_inv r r1 :
  run_inv r -> retryAllowed r = true -> kr_Spec r1 = kr_Spec r -> kr_Generation r1 = kr_Generation r ->
  ss_Attempt (kr_Status r1) = CurrentAttempt r + 1 -> ss_Phase (kr_Status r1) = PhasePending -> ss_JobName (kr_Status r1) = EmptyString ->
  ss_Attempts (kr_Status r1) = ss_Attempts (kr_Status r) ->
  step r (upsertAttemptStatus r1).
Proof.
  intros I Hr Hs Hg Ha Hp Hj Hh. set (r' := upsertAttemptStatus r1).
  destruct (retryAllowed_facts r I Hr) as (Hcur & Hmax & Hcat). destruct (validate_bounds r (ri_valid r I)) as (B1 & B2 & B3 & _).
  pose proof (CurrentAttempt_ge r) as Hge.
  assert (Hc1 : CurrentAttempt r1 = CurrentAttempt r + 1).
  { unfold CurrentAttempt at 1. rewrite Ha, Hs. by rewrite (proj2 (Z.leb_le _ _)) by lia. }
  assert (Hc : CurrentAttempt r' = CurrentAttempt r + 1) by exact Hc1.
  pose proof (ri_ceiling r I) as Hten.
  destruct (upsert_spec (currentEntry r1) (ss_Attempts (kr_Status r)) (ri_sorted r I) (inv_range r I)) as [Hsort Hel]; [simpl; lia|].
  assert (Hlist : ss_Attempts (kr_Status r') = upsertAttempts (currentEntry r1) (ss_Attempts (kr_Status r))).
  { unfold r', upsertAttemptStatus. simpl. by rewrite Hh. }
  assert (Hold : forall a category, sp_Attempt (kr_Spec r) <= a <= CurrentAttempt r -> failedEntry r a category -> failedEntry r' a category).
  { intros a category Hle (e & He & E1 & E2 & E3). exists e. rewrite Hlist. split_and!; [|done..]. apply Hel. right. split; [done|]. simpl. lia. }
  constructor; [done|done|rewrite Hc; lia|rewrite Hlist; apply upsert_past;
    [apply (ri_sorted r I)|apply (inv_range r I)|simpl; lia|simpl; lia]|].
  constructor.
  - apply (validate_attempt r r' (ri_valid r I)); [done|done|lia|lia].
  - change (kr_Spec r') with (kr_Spec r1). by rewrite Hs.
  - change (kr_Spec r') with (kr_Spec r1). change (ss_Attempt (kr_Status r')) with (ss_Attempt (kr_Status r1)). rewrite Hs, Ha. lia.
  - change (ss_Attempt (kr_Status r')) with (ss_Attempt (kr_Status r1)). rewrite Ha. lia.
  - by left.
  - by rewrite Hlist.
  - rewrite Hlist, Hc. change (kr_Spec r') with (kr_Spec r1). rewrite Hs. apply Forall_forall. intros e [->|[He _]]%Hel; [simpl; lia|].
    pose proof (ri_range r I) as Hrange. rewrite Forall_forall in Hrange. specialize (Hrange e He). simpl in Hrange. lia.
  - rewrite Hc. change (kr_Spec r') with (kr_Spec r1). rewrite Hs. intros a Hlt. unfold retryable. change (kr_Spec r') with (kr_Spec r1). rewrite Hs.
    destruct (decide (a = CurrentAttempt r)) as [->|Hne].
    + exists (ss_FailureCategory (kr_Status r)). split; [exact Hcat|]. apply Hold; [lia|]. by apply (ri_retry r I).
    + destruct (ri_past r I a) as (category & Hc2 & He); [lia|]. exists category. split; [exact Hc2|]. apply Hold; [lia|done].
  - intros Hra. rewrite not_failed_no_retry in Hra; [done|]. change (ss_Phase (kr_Status r')) with (ss_Phase (kr_Status r1)). by rewrite Hp.
Qed.

Lemma reconcileRetry_step now r : run_inv r -> retryAllowed r = true -> step r (reconcileRetry now r).1.
Proof.
  intros I Hr. destruct (retryAllowed_facts r I Hr) as (Hcur & Hmax & _). destruct (validate_bounds r (ri_valid r I)) as (_ & B2 & _).
  unfold reconcileRetry. destruct (0 <? _); cbn [fst].
  - apply evolves_step. do 2 apply evolves_condition. by apply evolves_refl.
  - apply (nextAttempt_inv r); auto. simpl. apply wrap32_small. lia.
Qed.

Lemma patchStatus_step answer r r' : run_inv r -> step r r' -> step r (patchStatusIfChanged answer r r').1.1.
Proof.
  intros I St. unfold patchStatusIfChanged. case_bool_decide; [by apply evolves_step, evolves_refl|].
  destruct answer; [by apply evolves_step, evolves_refl|]. cbn [fst].
  assert (Hc : CurrentAttempt (withStatus r (kr_Status r')) = CurrentAttempt r').
  { unfold CurrentAttempt. simpl. by rewrite (sp_spec _ _ St). }
  destruct St as [E G A P In]. constructor; [done|done|by rewrite Hc|done|].
  assert (Hs : kr_Spec (withStatus r (kr_Status r')) = kr_Spec r') by done.
  assert (Hg : kr_Generation (withStatus r (kr_Status r')) = kr_Generation r') by done.
  assert (S : sameCore r' (withStatus r (kr_Status r'))) by (by constructor).
  apply (ev_inv r'). by apply sameCore_evolves.
Qed.

Lemma finish_step w r reason p : run_inv r -> step r (pg_Run p) ->
  step r (oc_Stored (finish w r reason p)) /\
  oc_Writes (finish w r reason p) ∈ [pg_Writes p; pg_Writes p ++ [WriteStatus]].
Proof.
  intros I St. pose proof (patchStatus_step (w_StatusPatch w) r (pg_Run p) I St) as Hp. unfold finish.
  assert (Hw : (patchStatusIfChanged (w_StatusPatch w) r (pg_Run p)).1.2 ∈ [[]; [WriteStatus]]).
  { unfold patchStatusIfChanged. case_bool_decide; [set_solver|]. destruct (w_StatusPatch w); set_solver. }
  destruct (patchStatusIfChanged (w_StatusPatch w) r (pg_Run p)) as [[stored written] [e|]]; simpl in *; (split; [done|]);
    (apply elem_of_cons in Hw as [->|Hw]; [rewrite app_nil_r; set_solver|apply list_elem_of_singleton in Hw as ->; set_solver]).
Qed.

(** What a call may create: objects of its own attempt, and only while the run is wanted. *)
Definition allowedWrites (r : AgentRunResource) (writes : list Write) : Prop :=
  Forall (fun w => match w with
                   | WriteApply _ _ => sp_DesiredState (kr_Spec r) = DesiredStateRunning /\
                                       exists names, ForAgentRun r = Ok names /\ w ∈ ownApplies names
                   | _ => True
                   end) writes.

Lemma allowed_noApply r writes : noApply writes -> allowedWrites r writes.
Proof. intros Hw. eapply Forall_impl; [exact Hw|]. intros w ?. by destruct w. Qed.

Lemma allowed_own r names writes :
  sp_DesiredState (kr_Spec r) = DesiredStateRunning -> ForAgentRun r = Ok names -> Forall (fun w => w ∈ ownApplies names) writes ->
  allowedWrites r writes.
Proof. intros Hd Hn Hw. eapply Forall_impl; [exact Hw|]. intros w ?. destruct w; eauto. Qed.

Lemma allowed_status r writes : allowedWrites r writes -> allowedWrites r (writes ++ [WriteStatus]).
Proof. intros Hw. apply Forall_app. split; [done|]. by apply Forall_singleton. Qed.

Lemma finish_result w r reason p : run_inv r -> step r (pg_Run p) -> allowedWrites r (pg_Writes p) ->
  step r (oc_Stored (finish w r reason p)) /\ allowedWrites r (oc_Writes (finish w r reason p)).
Proof.
  intros I St Hw. destruct (finish_step w r reason p I St) as [Hs He]. split; [done|].
  apply elem_of_cons in He as [->|He]; [done|]. apply list_elem_of_singleton in He as ->. by apply allowed_status.
Qed.

(** Everything of a status but the generation and the conditions that were observed. *)
Definition outcome (s : AgentRunResourceStatus) : AgentRunResourceStatus := s <| ss_ObservedGeneration := 0 |> <| ss_Conditions := [] |>.

Record sameOutcome (r r' : AgentRunResource) : Prop := {
  so_spec : kr_Spec r' = kr_Spec r;
  so_generation : kr_Generation r' = kr_Generation r;
  so_deletion : kr_DeletionTimestamp r' = kr_DeletionTimestamp r;
  so_outcome : outcome (kr_Status r') = outcome (kr_Status r);
}.

Lemma sameOutcome_refl r : sameOutcome r r.
Proof. by constructor. Qed.

Lemma sameOutcome_trans r1 r2 r3 : sameOutcome r1 r2 -> sameOutcome r2 r3 -> sameOutcome r1 r3.
Proof. intros [] []. constructor; congruence. Qed.

Lemma setCondition_outcome now r t s reason message : sameOutcome r (setCondition now r t s reason message).
Proof. by constructor. Qed.

Lemma sameOutcome_core r r' : sameOutcome r r' -> sameCore r r'.
Proof.
  intros [? ? ? Ho]. constructor; try done; [apply (f_equal ss_Phase) in Ho|apply (f_equal ss_Attempt) in Ho|apply (f_equal ss_JobName) in Ho
    |apply (f_equal ss_FailureCategory) in Ho|apply (f_equal ss_Attempts) in Ho]; exact Ho.
Qed.

Lemma acknowledgeTerminal_outcome now r : sameOutcome r (acknowledgeTerminal now r).
Proof. by constructor. Qed.

Lemma reconcileExecution_step b w r :
  run_inv r -> step r (oc_Stored (reconcileExecution b w r)) /\ allowedWrites r (oc_Writes (reconcileExecution b w r)).
Proof.
  intros I. destruct (validate_bounds r (ri_valid r I)) as (_ & _ & _ & Hd & names & Hn). unfold reconcileExecution.
  destruct (currentAttemptTerminal r).
  { destruct (_ && retryAllowed r) eqn:Er.
    - apply andb_prop in Er as [_ Er]. pose proof (reconcileRetry_step (w_now w) r I Er) as Hs.
      destruct (reconcileRetry (w_now w) r) as [r' requeue]. apply finish_result; [done|done|constructor].
    - apply finish_result; [done| |constructor]. apply evolves_step, sameCore_evolves; [done|apply sameOutcome_core, acknowledgeTerminal_outcome]. }
  case_bool_decide as Hc.
  { destruct (initializeStatus_evolves (w_now w) r (ss_FailureCategory (kr_Status r)) (ss_FailureReason (kr_Status r)) I) as [E Hs]; [by right|].
    destruct (reconcileCancellation_cancels w (initializeCancellationStatus (w_now w) r) (ev_inv _ _ E) Hs) as [E' Hw].
    apply finish_result; [done| |by apply allowed_noApply]. apply evolves_step. by eapply evolves_trans. }
  destruct Hd as [Hd|?]; [|done]. destruct (initializeAcceptedStatus_evolves (w_now w) r I) as [E Hs].
  destruct (reconcilePrerequisites_within b w (initializeAcceptedStatus (w_now w) r) names (ev_inv _ _ E) Hs) as [E' Hw]; [by eapply evolves_names|].
  set (p := reconcilePrerequisites b w (initializeAcceptedStatus (w_now w) r)) in *.
  assert (Hallowed : allowedWrites r (pg_Writes p)) by (by eapply allowed_own).
  assert (Hkeep : step r (pg_Run p)) by (apply evolves_step; by eapply evolves_trans).
  destruct (pg_Error p); [by apply finish_result|]. destruct (retryAllowed (pg_Run p)) eqn:Er; [|by apply finish_result].
  pose proof (reconcileRetry_step (w_now w) (pg_Run p) (ev_inv _ _ E') Er) as Hr.
  destruct (reconcileRetry (w_now w) (pg_Run p)) as [r' requeue]. apply finish_result; [done| |done]. simpl.
  eapply step_after; [|exact Hr]. by eapply evolves_trans.
Qed.

(** Writes that neither create nor delete anything of the execution. *)
Definition housekeeping (writes : list Write) : Prop :=
  Forall (fun w => match w with WriteReleaseWorkspace _ | WriteFinalizer _ | WriteStatus => True | _ => False end) writes.

Lemma housekeeping_noApply writes : housekeeping writes -> noApply writes.
Proof. intros Hw. eapply Forall_impl; [exact Hw|]. intros w ?. by destruct w. Qed.

Lemma initializeDeleting_outcome now r : sameOutcome r (initializeDeletingStatus now r).
Proof. unfold initializeDeletingStatus. destruct (FindStatusCondition _ _); by constructor. Qed.

Lemma releaseWorkspaces_housekeeping w r attempts : housekeeping (releaseWorkspaces w r attempts).1.
Proof.
  unfold housekeeping. induction attempts as [|a l IH]; simpl; [by apply Forall_nil_2|].
  destruct (workspaceNameForAttempt r a); [|by apply Forall_nil_2].
  destruct (w_RetainedClaim w a) as [workspace|e]; [|destruct e; first [exact IH|by apply Forall_nil_2]].
  destruct (validateRetainedWorkspace r workspace); [|by apply Forall_nil_2]. case_bool_decide; [done|].
  destruct (w_RetainedPatch w a); [by apply Forall_singleton|]. destruct (releaseWorkspaces w r l). simpl in *. by constructor.
Qed.

Lemma reconcileCleanup_outcome w r :
  sameOutcome r (reconcileCleanup w r).1.1.1 /\ housekeeping (reconcileCleanup w r).1.1.2.
Proof.
  unfold reconcileCleanup. pose proof (initializeDeleting_outcome (w_now w) r) as Hd. set (r1 := initializeDeletingStatus (w_now w) r) in *.
  assert (Hset : forall t s reason message, sameOutcome r (setCondition (w_now w) r1 t s reason message)).
  { intros. eapply sameOutcome_trans; [exact Hd|]. apply setCondition_outcome. }
  case_bool_decide; cbn [negb]; [|split; [apply Hset|constructor]].
  pose proof (releaseWorkspaces_housekeeping w r1 (cleanupAttempts r1)) as Hr.
  destruct (releaseWorkspaces w r1 (cleanupAttempts r1)) as [writes [[reason e]|]]; [|split; [apply Hset|done]].
  unfold handleCleanupFailure. destruct (_ && _); (split; [apply Hset|done]).
Qed.

Lemma patchStatus_outcome answer r r' : sameOutcome r r' -> sameOutcome r (patchStatusIfChanged answer r r').1.1 /\
  housekeeping (patchStatusIfChanged answer r r').1.2.
Proof.
  intros S. unfold patchStatusIfChanged. case_bool_decide; [split; [apply sameOutcome_refl|constructor]|].
  destruct answer; (split; [|by apply Forall_singleton]); [apply sameOutcome_refl|]. destruct S. by constructor.
Qed.

Lemma reconcileDeletion_outcome w r : sameOutcome r (oc_Stored (reconcileDeletion w r)) /\ housekeeping (oc_Writes (reconcileDeletion w r)).
Proof.
  unfold reconcileDeletion. case_bool_decide; cbn [negb]; [|split; [apply sameOutcome_refl|constructor]].
  destruct (reconcileCleanup_outcome w r) as [Hc Hw]. destruct (reconcileCleanup w r) as [[[cleaned released] complete] cleanupErr]. simpl in Hc, Hw.
  destruct (patchStatus_outcome (w_StatusPatch w) r cleaned Hc) as [Hs Hp].
  destruct (patchStatusIfChanged (w_StatusPatch w) r cleaned) as [[stored written] statusErr]. simpl in Hs, Hp.
  assert (Hlater : sameOutcome r stored /\ housekeeping (released ++ written)) by (split; [done|by apply Forall_app]).
  destruct statusErr, cleanupErr, complete; try exact Hlater.
  destruct (w_MetadataPatch w) as [e|].
  - set (failed := setCondition _ _ _ _ _ _).
    assert (Hf : sameOutcome stored failed) by apply setCondition_outcome.
    destruct (patchStatus_outcome (w_FailureStatusPatch w) stored failed Hf) as [Hs2 Hp2].
    destruct (patchStatusIfChanged (w_FailureStatusPatch w) stored failed) as [[stored2 again] ?]. simpl in *.
    split; [by eapply sameOutcome_trans|]. unfold housekeeping in *. rewrite !Forall_app, Forall_cons. by split_and!; try apply Forall_nil_2.
  - simpl. split; [destruct Hs; by constructor|]. unfold housekeeping in *. rewrite !Forall_app, Forall_cons. by split_and!; try apply Forall_nil_2.
Qed.

(** Every call of [Reconcile] on a good version is a step, and creates nothing but the
    current attempt's objects. *)
Lemma Reconcile_step b w r :
  run_inv r -> step r (oc_Stored (Reconcile b w r)) /\ allowedWrites r (oc_Writes (Reconcile b w r)).
Proof.
  intros I. unfold Reconcile. destruct (kr_DeletionTimestamp r).
  { destruct (reconcileDeletion_outcome w r) as [Hc%sameOutcome_core Hw%housekeeping_noApply]. split; [by apply evolves_step, sameCore_evolves|by apply allowed_noApply]. }
  rewrite (ri_valid r I). destruct (_ && negb _); [|by apply reconcileExecution_step].
  destruct (w_MetadataPatch w) as [e|].
  { simpl. split; [by apply evolves_step, evolves_refl|]. by apply Forall_singleton. }
  set (r1 := r <| kr_Finalizers := _ |>). assert (S : sameCore r r1) by (by constructor). pose proof (sameCore_evolves r r1 I S) as E.
  destruct (reconcileExecution_step b w r1 (ev_inv _ _ E)) as [Hs Hw]. simpl. split; [by eapply step_after|]. constructor; [done|].
  unfold allowedWrites in *. rewrite <-(ForAgentRun_congr r r1 (ev_spec _ _ E) (ev_attempt _ _ E)). exact Hw.
Qed.

(** ** The controller at work *)

(** The stored version, the versions before it, and every object that was applied. *)
Record System := {
  sy_Stored : AgentRunResource;
  sy_Past : list AgentRunResource;
  sy_Applied : list Write;
}.

Definition isApply (w : Write) : Prop := match w with WriteApply _ _ => True | _ => False end.
#[local] Instance isApply_dec w : Decision (isApply w).
Proof. destruct w; simpl; apply _. Defined.

(** A request to cancel: the one change of the spec the schema admits. *)
Definition cancelRequested (r : AgentRunResource) : AgentRunResource :=
  let s := kr_Spec r in
  {| kr_Name := kr_Name r; kr_Namespace := kr_Namespace r; kr_UID := kr_UID r; kr_Generation := kr_Generation r + 1;
     kr_DeletionTimestamp := kr_DeletionTimestamp r; kr_Finalizers := kr_Finalizers r;
     kr_Spec :=
       {| sp_TenantID := sp_TenantID s; sp_ProjectID := sp_ProjectID s; sp_RunID := sp_RunID s; sp_AttemptID := sp_AttemptID s;
          sp_Attempt := sp_Attempt s; sp_RunnerImage := sp_RunnerImage s; sp_Runtime := sp_Runtime s;
          sp_ExecutionProfile := sp_ExecutionProfile s; sp_TaskRef := sp_TaskRef s; sp_TimeoutSeconds := sp_TimeoutSeconds s;
          sp_RetryPolicy := sp_RetryPolicy s; sp_Resources := sp_Resources s; sp_Workspace := sp_Workspace s; sp_Network := sp_Network s;
          sp_ArtifactDestinationRef := sp_ArtifactDestinationRef s; sp_ConfigurationRefs := sp_ConfigurationRefs s;
          sp_SecretRefs := sp_SecretRefs s; sp_DeployOnSuccess := sp_DeployOnSuccess s; sp_DesiredState := DesiredStateCancelled |};
     kr_Status := kr_Status r |}.

Definition deletionRequested (now : Time) (r : AgentRunResource) : AgentRunResource :=
  r <| kr_DeletionTimestamp := Some now |> <| kr_Generation := kr_Generation r + 1 |>.

(** The API refuses a patch that was computed from an old version. *)
Definition refused (w : World) : Prop :=
  w_StatusPatch w = Some APIConflict /\ w_FailureStatusPatch w = Some APIConflict /\ w_MetadataPatch w = Some APIConflict.

Definition stored (s : System) (r : AgentRunResource) (applied : list Write) : System :=
  {| sy_Stored := r; sy_Past := sy_Stored s :: sy_Past s; sy_Applied := sy_Applied s ++ filter isApply applied |}.

Inductive system_step (b : Builder) : System -> System -> Prop :=
| sys_reconcile s w :
    system_step b s (stored s (oc_Stored (Reconcile b w (sy_Stored s))) (oc_Writes (Reconcile b w (sy_Stored s))))
| sys_stale s w r :
    r ∈ sy_Past s -> refused w ->
    system_step b s {| sy_Stored := sy_Stored s; sy_Past := sy_Past s;
                       sy_Applied := sy_Applied s ++ filter isApply (oc_Writes (Reconcile b w r)) |}
| sys_cancel s : system_step b s (stored s (cancelRequested (sy_Stored s)) [])
| sys_delete s now : system_step b s (stored s (deletionRequested now (sy_Stored s)) []).

(** A resource as it is created: admitted by the schema, without status. *)
Definition created (r : AgentRunResource) : Prop :=
  validateAgentRun r = Ok tt /\ rp_MaxAttempts (sp_RetryPolicy (kr_Spec r)) <= 10 /\ ss_Attempt (kr_Status r) = 0 /\
  ss_Phase (kr_Status r) = PhaseUnset /\ ss_JobName (kr_Status r) = EmptyString /\ ss_Attempts (kr_Status r) = [].

Definition start (r : AgentRunResource) : System := {| sy_Stored := r; sy_Past := []; sy_Applied := [] |}.

(** The name of an attempt's Job. *)
Definition jobName (r : AgentRunResource) (attempt : Z) : string := baseName (sp_RunID (kr_Spec r)) attempt +:+ "-job".

Record system_inv (s : System) : Prop := {
  si_stored : run_inv (sy_Stored s);
  si_past : forall r, r ∈ sy_Past s ->
    run_inv r /\ sp_RunID (kr_Spec r) = sp_RunID (kr_Spec (sy_Stored s)) /\ sp_Attempt (kr_Spec r) = sp_Attempt (kr_Spec (sy_Stored s)) /\
    CurrentAttempt r <= CurrentAttempt (sy_Stored s) /\
    past (CurrentAttempt r) (ss_Attempts (kr_Status (sy_Stored s))) = past (CurrentAttempt r) (ss_Attempts (kr_Status r));
  si_jobs : forall name, WriteApply "Job" name ∈ sy_Applied s ->
    exists a, sp_Attempt (kr_Spec (sy_Stored s)) <= a <= CurrentAttempt (sy_Stored s) /\ name = jobName (sy_Stored s) a;
}.

Lemma past_past j k l : j <= k -> past j (past k l) = past j l.
Proof. intros Hle. unfold past. apply list_filter_filter_l. intros a Ha. lia. Qed.

Lemma validate_cancel r : validateAgentRun r = Ok tt -> validateAgentRun (cancelRequested r) = Ok tt.
Proof.
  intros Hv. unfold validateAgentRun in *. cbn [cancelRequested kr_Generation kr_Spec sp_TenantID sp_ProjectID sp_RunID sp_AttemptID sp_Attempt
    sp_RetryPolicy sp_RunnerImage sp_TaskRef sp_TimeoutSeconds sp_Resources sp_Network sp_DesiredState].
  apply bind_ok in Hv as ([] & E%failIf_ok & Hv). rewrite bind_failIf. assert (Hg : (kr_Generation r + 1 <? 1) = false) by lia. rewrite Hg. clear E Hg.
  do 7 (apply bind_ok in Hv as ([] & E & Hv); rewrite E; cbn [mbind res_bind]; clear E).
  apply bind_ok in Hv as ([] & _ & Hv). rewrite bind_failIf. cbn. exact Hv.
Qed.

Lemma cancel_inv r : run_inv r -> run_inv (cancelRequested r).
Proof.
  intros I. assert (Hc : CurrentAttempt (cancelRequested r) = CurrentAttempt r) by done.
  constructor; [apply validate_cancel, (ri_valid r I)|apply (ri_ceiling r I)|apply (ri_attempt r I)|apply (ri_fresh r I)|apply (ri_job r I)
    |apply (ri_sorted r I)|apply (ri_range r I)|apply (ri_past r I)|apply (ri_retry r I)].
Qed.

Lemma delete_inv now r : run_inv r -> run_inv (deletionRequested now r).
Proof.
  intros I. constructor; [|apply (ri_ceiling r I)|apply (ri_attempt r I)|apply (ri_fresh r I)|apply (ri_job r I)
    |apply (ri_sorted r I)|apply (ri_range r I)|apply (ri_past r I)|apply (ri_retry r I)].
  pose proof (ri_valid r I) as Hv. unfold validateAgentRun in *. cbn [deletionRequested kr_Generation].
  apply bind_ok in Hv as ([] & E%failIf_ok & Hv). rewrite bind_failIf. assert (Hg : (kr_Generation (deletionRequested now r) <? 1) = false) by (simpl; lia).
  rewrite Hg. exact Hv.
Qed.

Lemma own_job r names name : ForAgentRun r = Ok names -> WriteApply "Job" name ∈ ownApplies names -> name = jobName r (CurrentAttempt r).
Proof.
  intros (_ & _ & _ & E)%ForAgentRun_ok Hin. unfold nameList in E. simpl in E. injection E as _ _ _ _ E.
  unfold ownApplies in Hin. rewrite !elem_of_cons, elem_of_nil in Hin. destruct Hin as [[=]|[[=]|[[=]|[[=]|[[= ->]|[]]]]]]. exact E.
Qed.

Lemma allowed_jobs r writes name :
  allowedWrites r writes -> WriteApply "Job" name ∈ filter isApply writes -> name = jobName r (CurrentAttempt r).
Proof.
  unfold allowedWrites. rewrite Forall_forall. intros Hw [_ Hin]%list_elem_of_filter. destruct (Hw _ Hin) as (_ & names & Hn & Ho). by eapply own_job.
Qed.

Lemma inv_step s r writes :
  system_inv s -> run_inv r -> sp_RunID (kr_Spec r) = sp_RunID (kr_Spec (sy_Stored s)) -> sp_Attempt (kr_Spec r) = sp_Attempt (kr_Spec (sy_Stored s)) ->
  CurrentAttempt (sy_Stored s) <= CurrentAttempt r ->
  past (CurrentAttempt (sy_Stored s)) (ss_Attempts (kr_Status r)) = past (CurrentAttempt (sy_Stored s)) (ss_Attempts (kr_Status (sy_Stored s))) ->
  allowedWrites (sy_Stored s) writes -> system_inv (stored s r writes).
Proof.
  intros [I P J] Ir Hid Ha Hle Hp Hw. constructor; simpl; [done| |].
  - intros r1 [->|Hin]%elem_of_cons; [by split_and!|]. destruct (P r1 Hin) as (I1 & Hid1 & Ha1 & Hle1 & Hp1).
    split_and!; [done|congruence|congruence|lia|]. by rewrite <-Hp1, <-(past_past _ _ _ Hle1), Hp, (past_past _ _ _ Hle1).
  - intros name [Hin|Hin]%elem_of_app.
    + destruct (J name Hin) as (a & Hb & ->). exists a. unfold jobName. rewrite Ha, Hid. split; [lia|done].
    + exists (CurrentAttempt (sy_Stored s)). rewrite (allowed_jobs _ _ _ Hw Hin). unfold jobName. rewrite Ha, Hid.
      split; [|done]. pose proof (CurrentAttempt_ge (sy_Stored s)). lia.
Qed.

Lemma system_step_inv b s s' : system_inv s -> system_step b s s' -> system_inv s'.
Proof.
  intros Inv St. pose proof Inv as [I P J]. destruct St as [s w|s w r Hr _|s|s now].
  - destruct (Reconcile_step b w (sy_Stored s) I) as [[E _ A Pp Ir] Hw]. apply inv_step; rewrite ?E; auto. lia.
  - constructor; simpl; [done|done|]. intros name [Hin|Hin]%elem_of_app; [by apply J|]. destruct (P r Hr) as (Ir & Hid & Ha & Hle & _).
    destruct (Reconcile_step b w r Ir) as [_ Hw]. exists (CurrentAttempt r). rewrite (allowed_jobs _ _ _ Hw Hin). unfold jobName. rewrite Hid.
    split; [|done]. pose proof (CurrentAttempt_ge r). lia.
  - apply inv_step; auto; [by apply cancel_inv|done|by apply Forall_nil_2].
  - apply inv_step; auto; [by apply delete_inv|done|by apply Forall_nil_2].
Qed.

Lemma created_inv r : created r -> system_inv (start r).
Proof.
  intros (Hv & Hm & Ha & Hp & Hj & Hl). assert (Hc : CurrentAttempt r = sp_Attempt (kr_Spec r)).
  { unfold CurrentAttempt. rewrite Ha. destruct (validate_bounds r Hv) as (B & _). case_match; lia. }
  constructor; simpl; [|by intros ? ?%elem_of_nil..].
  constructor; [done|done|by left|by intros|by left|rewrite Hl; constructor|rewrite Hl; constructor| |].
  - intros a Hb. lia.
  - intros Hr. rewrite not_failed_no_retry in Hr; [done|]. by rewrite Hp.
Qed.

Lemma reachable_inv b r s : created r -> rtc (system_step b) (start r) s -> system_inv s.
Proof.  intros Hc%created_inv Hs. induction Hs; eauto using system_step_inv. Qed.

(** ** Settled runs *)

(** The attempt has ended and no other will be started. *)
Definition settled (r : AgentRunResource) : Prop :=
  currentAttemptTerminal r = true /\ (sp_DesiredState (kr_Spec r) == DesiredStateRunning) && retryAllowed r = false.

Lemma settled_same r r' : sameOutcome r r' -> settled r -> settled r'.
Proof.
  intros S%sameOutcome_core [Ht Hr]. pose proof (sameCore_current r r' S). pose proof (sameCore_retry r r' S). unfold settled, currentAttemptTerminal in *.
  rewrite H, H0, (sc_spec _ _ S), (sc_phase _ _ S), (sc_attempt _ _ S). done.
Qed.

Lemma settled_cancel r : settled r -> settled (cancelRequested r).
Proof. intros [Ht _]. by split. Qed.

Lemma reconcileExecution_settled b w r :
  settled r -> sameOutcome r (oc_Stored (reconcileExecution b w r)) /\ housekeeping (oc_Writes (reconcileExecution b w r)).
Proof.
  intros [Ht Hr]. unfold reconcileExecution. rewrite Ht, Hr. unfold finish.
  destruct (patchStatus_outcome (w_StatusPatch w) r _ (acknowledgeTerminal_outcome (w_now w) r)) as [Hs Hw]. cbn [waiting pg_Run pg_Writes pg_Requeue pg_Error].
  by destruct (patchStatusIfChanged _ _ _) as [[stored written] [e|]].
Qed.

Lemma Reconcile_settled b w r :
  run_inv r -> settled r -> sameOutcome r (oc_Stored (Reconcile b w r)) /\ housekeeping (oc_Writes (Reconcile b w r)).
Proof.
  intros I Hs. unfold Reconcile. destruct (kr_DeletionTimestamp r); [apply reconcileDeletion_outcome|]. rewrite (ri_valid r I).
  destruct (_ && negb _); [|by apply reconcileExecution_settled]. destruct (w_MetadataPatch w).
  { split; [apply sameOutcome_refl|by apply Forall_singleton]. }
  set (r1 := r <| kr_Finalizers := _ |>). assert (S : sameOutcome r r1) by (by constructor).
  destruct (reconcileExecution_settled b w r1) as [So Hw]; [by eapply settled_same|]. split; [by eapply sameOutcome_trans|by constructor].
Qed.

Lemma settled_step b s s' :
  system_inv s -> settled (sy_Stored s) -> system_step b s s' ->
  settled (sy_Stored s') /\ outcome (kr_Status (sy_Stored s')) = outcome (kr_Status (sy_Stored s)).
Proof.
  intros Inv Hs St. destruct St as [s w|s w r _ _|s|s now]; simpl; [|done|split; [by apply settled_cancel|done]|done].
  destruct (Reconcile_settled b w (sy_Stored s) (si_stored s Inv) Hs) as [So _]. split; [by eapply settled_same|apply (so_outcome _ _ So)].
Qed.

Lemma settled_steps b s s' :
  rtc (system_step b) s s' -> system_inv s -> settled (sy_Stored s) -> outcome (kr_Status (sy_Stored s')) = outcome (kr_Status (sy_Stored s)).
Proof.
  induction 1 as [|s1 s2 s3 St Hr IH]; [done|]. intros Inv Hs. destruct (settled_step b s1 s2 Inv Hs St) as [Hs2 Ho].
  rewrite IH; [done|by eapply system_step_inv|done].
Qed.

(** C17: In every run of the controller (reconciliations of the newest version, or of an
    older one out of a lagging cache; cancellation; deletion) the attempts stay between
    the scheduled one and the policy's maximum; the history has one entry for each, in
    order; an attempt is followed by another only after it failed with a category the
    policy and the platform retry; entries of past attempts never change; and every Job
    that was ever applied is the one Job of one of these attempts. *)
Theorem attempts_controlled b r0 s :
  created r0 -> rtc (system_step b) (start r0) s ->
  let r := sy_Stored s in
  sp_Attempt (kr_Spec r) <= CurrentAttempt r <= rp_MaxAttempts (sp_RetryPolicy (kr_Spec r)) /\
  StronglySorted attemptLt (ss_Attempts (kr_Status r)) /\
  (forall a, sp_Attempt (kr_Spec r) <= a < CurrentAttempt r -> exists category, retryable r category /\ failedEntry r a category) /\
  (forall r1, r1 ∈ sy_Past s ->
     CurrentAttempt r1 <= CurrentAttempt r /\
     past (CurrentAttempt r1) (ss_Attempts (kr_Status r)) = past (CurrentAttempt r1) (ss_Attempts (kr_Status r1))) /\
  (forall name, WriteApply "Job" name ∈ sy_Applied s ->
     exists a, sp_Attempt (kr_Spec r) <= a <= CurrentAttempt r /\ name = jobName r a).
Proof.
  intros Hc Hs. destruct (reachable_inv b r0 s Hc Hs) as [I P J]. cbv zeta.
  destruct (validate_bounds _ (ri_valid _ I)) as (_ & _ & Hm & _). pose proof (CurrentAttempt_ge (sy_Stored s)).
  split_and!; [done|done|apply (ri_sorted _ I)|apply (ri_past _ I)| |exact J]. intros r1 Hin. destruct (P r1 Hin) as (_ & _ & _ & ? & ?). done.
Qed.


(** ** Retries *)

Lemma backoffBase_min exponent base maximum :
  0 <= base -> 0 <= maximum < 2 ^ 62 ->
  (let b := backoffBase exponent base maximum in if maximum <? b then maximum else b) = Z.min maximum (base * 2 ^ Z.of_nat exponent).
Proof.
  revert base. induction exponent as [|n IH]; intros base Hb Hm; cbn [backoffBase].
  - rewrite Z.pow_0_r, Z.mul_1_r. cbv zeta. destruct (Z.ltb_spec maximum base); lia.
  - assert (Hp : 2 ^ Z.of_nat (S n) = 2 * 2 ^ Z.of_nat n) by (rewrite Nat2Z.inj_succ, Z.pow_succ_r; lia).
    assert (1 <= 2 ^ Z.of_nat n) by (pose proof (Z.pow_pos_nonneg 2 (Z.of_nat n)); lia).
    rewrite Hp. clear Hp. assert (Hd : base * 2 <= base * (2 * 2 ^ Z.of_nat n)) by (apply Z.mul_le_mono_nonneg_l; lia).
    destruct (Z.ltb_spec base maximum) as [Hlt|Hge].
    2:{ cbv zeta. destruct (Z.ltb_spec maximum base); lia. }
    rewrite Z.quot_div_nonneg by lia. pose proof (Z.div_mod maximum 2). pose proof (Z.mod_pos_bound maximum 2).
    destruct (Z.ltb_spec (maximum / 2) base) as [Hh|Hh].
    + cbv zeta. rewrite Z.ltb_irrefl. assert (maximum <= 2 * base) by lia. lia.
    + rewrite mul64_small by (unfold in_int64; lia). rewrite IH by lia. f_equal. lia.
Qed.

(** The nominal backoff after [attempt] failed: doubled for every attempt before it, up to
    the policy's maximum. *)
Definition nominalBackoff (run : AgentRunResource) (attempt : Z) : Duration :=
  let policy := sp_RetryPolicy (kr_Spec run) in
  Z.min (rp_MaxBackoffSeconds policy * Second) (rp_InitialBackoffSeconds policy * Second * 2 ^ (attempt - sp_Attempt (kr_Spec run))).

(** The schema's bounds on a retry policy. *)
Definition schemaBackoff (policy : RetryPolicy) : Prop :=
  1 <= rp_InitialBackoffSeconds policy <= 3600 /\ 1 <= rp_MaxBackoffSeconds policy <= 21600.

Lemma retryDelay_jitter run attempt next :
  schemaBackoff (sp_RetryPolicy (kr_Spec run)) -> 1 <= sp_Attempt (kr_Spec run) <= attempt -> attempt <= 10 ->
  exists permille, 500 <= permille <= 1000 /\ retryDelay run attempt next = nominalBackoff run attempt * permille / 1000.
Proof.
  intros [Hi Hm] Ha H10. unfold retryDelay, nominalBackoff. set (p := sp_RetryPolicy (kr_Spec run)) in *.
  set (h := hashPrefix _). exists (500 + h mod 501). pose proof (Z.mod_pos_bound h 501). split; [lia|].
  rewrite (mul64_small _ Second), (mul64_small _ Second) by (unfold in_int64, Second; lia).
  rewrite wrap32_small by lia. cbv zeta. pose proof (backoffBase_min (Z.to_nat (attempt - sp_Attempt (kr_Spec run)))
    (rp_InitialBackoffSeconds p * Second) (rp_MaxBackoffSeconds p * Second)) as Hb. cbv zeta in Hb.
  rewrite Hb by (unfold Second; lia). rewrite Z2Nat.id by lia. set (e := 2 ^ _). assert (1 <= e) by (subst e; pose proof (Z.pow_pos_nonneg 2 (attempt - sp_Attempt (kr_Spec run))); lia).
  set (full := Z.min _ _). assert (0 <= full <= 21600 * Second) by (subst full; unfold Second in *; nia).
  rewrite mul64_small by (unfold in_int64, Second in *; nia). rewrite Z.quot_div_nonneg by nia. done.
Qed.

Lemma retryDelay_range run attempt next :
  schemaBackoff (sp_RetryPolicy (kr_Spec run)) -> 1 <= sp_Attempt (kr_Spec run) <= attempt -> attempt <= 10 ->
  nominalBackoff run attempt / 2 <= retryDelay run attempt next <= nominalBackoff run attempt /\ 0 < nominalBackoff run attempt <= 21600 * Second.
Proof.
  intros Hs Ha H10. destruct (retryDelay_jitter run attempt next Hs Ha H10) as (permille & Hp & ->).
  assert (0 < nominalBackoff run attempt <= 21600 * Second) as Hn.
  { unfold nominalBackoff. destruct Hs as [Hi Hm]. pose proof (Z.pow_pos_nonneg 2 (attempt - sp_Attempt (kr_Spec run))). unfold Second in *. nia. }
  set (full := nominalBackoff run attempt) in *. split; [|done]. split.
  - apply Z.div_le_lower_bound; [lia|]. pose proof (Z.mul_div_le full 2). nia.
  - apply Z.div_le_upper_bound; nia.
Qed.

(** A failed attempt that may be retried, whose failure has a completion time. *)
Record awaitsRetry (run : AgentRunResource) (failedAt : Time) : Prop := {
  aw_inv : run_inv run;
  aw_schema : schemaBackoff (sp_RetryPolicy (kr_Spec run));
  aw_kept : kr_DeletionTimestamp run = None;
  aw_wanted : sp_DesiredState (kr_Spec run) = DesiredStateRunning;
  aw_allowed : retryAllowed run = true;
  aw_failed : ss_CompletionTime (kr_Status run) = Some failedAt;
  aw_time : failedAt <> 0;
}.

Lemma retryAllowed_terminal run : retryAllowed run = true -> currentAttemptTerminal run = true.
Proof. unfold retryAllowed, currentAttemptTerminal. intros Hr. reflect_bools. rewrite H. simpl. lia. Qed.

Lemma Reconcile_retry b w r failedAt :
  awaitsRetry r failedAt -> w_MetadataPatch w = None ->
  exists finalizers, let r1 := r <| kr_Finalizers := finalizers |> in
  oc_Stored (Reconcile b w r) =
    oc_Stored (finish w r1 "RetryStatusWriteFailed" (waiting (reconcileRetry (w_now w) r1).1 [] (reconcileRetry (w_now w) r1).2)) /\
  oc_Requeue (Reconcile b w r) =
    oc_Requeue (finish w r1 "RetryStatusWriteFailed" (waiting (reconcileRetry (w_now w) r1).1 [] (reconcileRetry (w_now w) r1).2)).
Proof.
  intros [I _ Hk Hw Hr _ _] Hm. unfold Reconcile. rewrite Hk, (ri_valid r I).
  assert (Hx : forall fs, reconcileExecution b w (r <| kr_Finalizers := fs |>) =
    finish w (r <| kr_Finalizers := fs |>) "RetryStatusWriteFailed"
      (waiting (reconcileRetry (w_now w) (r <| kr_Finalizers := fs |>)).1 [] (reconcileRetry (w_now w) (r <| kr_Finalizers := fs |>)).2)).
  { intros fs. unfold reconcileExecution. change (currentAttemptTerminal (r <| kr_Finalizers := fs |>)) with (currentAttemptTerminal r).
    rewrite (retryAllowed_terminal r Hr). change (retryAllowed (r <| kr_Finalizers := fs |>)) with (retryAllowed r). rewrite Hr.
    change (kr_Spec (r <| kr_Finalizers := fs |>)) with (kr_Spec r). rewrite Hw. cbn [bool_decide]. by destruct (reconcileRetry _ _). }
  destruct (_ && negb _).
  - rewrite Hm. eexists. cbn [oc_Stored oc_Requeue]. rewrite Hx. by split.
  - exists (kr_Finalizers r). specialize (Hx (kr_Finalizers r)). assert (Hs : r <| kr_Finalizers := kr_Finalizers r |> = r) by (by destruct r).
    cbv zeta. rewrite Hs in *. by rewrite Hx.
Qed.

Lemma reconcileRetry_timing now r failedAt :
  awaitsRetry r failedAt ->
  let full := nominalBackoff r (CurrentAttempt r) in
  let '(r', requeue) := reconcileRetry now r in
  exists readyAt, failedAt + full / 2 <= readyAt <= failedAt + full /\
    (now < readyAt -> sameCore r r' /\ requeue = TimeSub readyAt now) /\
    (readyAt <= now -> ss_Attempt (kr_Status r') = CurrentAttempt r + 1 /\ ss_Phase (kr_Status r') = PhasePending /\
                       ss_JobName (kr_Status r') = EmptyString /\ requeue = Millisecond).
Proof.
  intros [I Hs _ _ Hr Hf Hz]. cbv zeta. destruct (retryAllowed_facts r I Hr) as (Hcur & Hmax & _).
  destruct (validate_bounds r (ri_valid r I)) as (B1 & B2 & _). pose proof (CurrentAttempt_ge r).
  assert (Hnext : wrap32 (CurrentAttempt r + 1) = CurrentAttempt r + 1) by (apply wrap32_small; lia).
  destruct (retryDelay_range r (CurrentAttempt r) (CurrentAttempt r + 1) Hs) as [Hd Hb]; [lia..|].
  assert (Ha : retryAnchor r = failedAt) by (unfold retryAnchor, IsZero; rewrite Hf; destruct (Z.eqb_spec failedAt 0); done).
  unfold reconcileRetry. rewrite Hnext, Ha. unfold IsZero. destruct (Z.eqb_spec failedAt 0); [done|].
  unfold Add. set (readyAt := failedAt + _). destruct (Z.ltb_spec 0 (TimeSub readyAt now)) as [Hl|Hl]; exists readyAt;
    (split; [subst readyAt; lia|]); unfold TimeSub in Hl; (split; [intros Hn|intros Hn]); try lia.
  - split; [|done]. eapply sameCore_trans; apply setCondition_core.
  - done.
Qed.

Lemma finish_accepted w r reason p :
  w_StatusPatch w = None ->
  kr_Status (oc_Stored (finish w r reason p)) = kr_Status (pg_Run p) /\ kr_Spec (oc_Stored (finish w r reason p)) = kr_Spec r /\
  kr_Generation (oc_Stored (finish w r reason p)) = kr_Generation r /\ oc_Requeue (finish w r reason p) = pg_Requeue p.
Proof. intros Hw. unfold finish, patchStatusIfChanged. rewrite Hw. by case_bool_decide. Qed.

Lemma finish_kept w r reason p : kr_DeletionTimestamp (oc_Stored (finish w r reason p)) = kr_DeletionTimestamp r.
Proof. unfold finish, patchStatusIfChanged. case_bool_decide; [done|]. by destruct (w_StatusPatch w). Qed.

Lemma awaitsRetry_finalizers r failedAt finalizers : awaitsRetry r failedAt -> awaitsRetry (r <| kr_Finalizers := finalizers |>) failedAt.
Proof. intros [I ? ? ? ? ? ?]. constructor; try done. apply (ev_inv r). by apply sameCore_evolves. Qed.

(** A failed attempt that the run's policy and the platform let be retried is followed
    by exactly one new attempt, after the backoff: before half the nominal backoff has
    passed (the initial backoff doubled for every earlier attempt, capped by the maximum)
    nothing of the attempt changes and the run is queued again within the nominal backoff;
    once all of it has passed the next attempt is pending, with no Job yet. *)
Theorem retry_backoff b w r failedAt :
  awaitsRetry r failedAt -> w_MetadataPatch w = None -> w_StatusPatch w = None ->
  let full := nominalBackoff r (CurrentAttempt r) in
  let o := Reconcile b w r in
  0 < full <= rp_MaxBackoffSeconds (sp_RetryPolicy (kr_Spec r)) * Second /\
  (w_now w < failedAt + full / 2 -> sameCore r (oc_Stored o)) /\
  (CurrentAttempt (oc_Stored o) = CurrentAttempt r -> 0 < oc_Requeue o <= Z.max 0 (failedAt + full - w_now w)) /\
  (failedAt + full <= w_now w ->
     CurrentAttempt (oc_Stored o) = CurrentAttempt r + 1 /\ ss_Phase (kr_Status (oc_Stored o)) = PhasePending /\
     ss_JobName (kr_Status (oc_Stored o)) = EmptyString).
Proof.
  intros Hr Hm Hp. cbv zeta. destruct (Reconcile_retry b w r failedAt Hr Hm) as (fs & E1 & E2). rewrite E1, E2. clear E1 E2.
  destruct (validate_bounds r (ri_valid r (aw_inv _ _ Hr))) as (B1 & B2 & _). pose proof (CurrentAttempt_ge r).
  destruct (retryDelay_range r (CurrentAttempt r) 0 (aw_schema _ _ Hr)) as [_ [Hb _]]; [lia..|].
  split; [split; [done|unfold nominalBackoff; lia]|].
  pose proof (reconcileRetry_timing (w_now w) _ failedAt (awaitsRetry_finalizers r failedAt fs Hr)) as Ht. cbv zeta in Ht.
  change (nominalBackoff (r <| kr_Finalizers := fs |>) (CurrentAttempt (r <| kr_Finalizers := fs |>))) with (nominalBackoff r (CurrentAttempt r)) in Ht.
  change (CurrentAttempt (r <| kr_Finalizers := fs |>)) with (CurrentAttempt r) in Ht.
  destruct (reconcileRetry (w_now w) (r <| kr_Finalizers := fs |>)) as [r' requeue]. cbn [fst snd].
  destruct Ht as (readyAt & Hrange & Hwait & Hgo).
  destruct (finish_accepted w (r <| kr_Finalizers := fs |>) "RetryStatusWriteFailed" (waiting r' [] requeue) Hp) as (Hs & Hsp & Hg & Hq).
  rewrite Hq. cbn [waiting pg_Run pg_Requeue] in *. set (o := finish _ _ _ _) in *. clearbody o.
  assert (Hc : readyAt <= w_now w -> CurrentAttempt (oc_Stored o) = CurrentAttempt r + 1).
  { intros (Ha & _)%Hgo. unfold CurrentAttempt at 1. rewrite Hsp, Hs, Ha. change (kr_Spec (r <| kr_Finalizers := fs |>)) with (kr_Spec r).
    destruct (Z.leb_spec (sp_Attempt (kr_Spec r)) (CurrentAttempt r + 1)); lia. }
  split_and!.
  - intros Hn. destruct Hwait as [[? ? ? ? ? ? ?] _]; [lia|]. by constructor; rewrite ?Hs, ?Hsp, ?Hg.
  - intros He. destruct (Z.le_gt_cases readyAt (w_now w)) as [Hle|Hlt]; [specialize (Hc Hle); lia|].
    destruct (Hwait Hlt) as [_ ->]. unfold TimeSub. lia.
  - intros Hn. assert (Hle : readyAt <= w_now w) by lia. destruct (Hgo Hle) as (_ & ? & ? & _). rewrite Hs. auto.
Qed.

(** ** Cancellation *)

(** Cancellation was first recorded at [started] and has not completed. *)
Definition anchored (r : AgentRunResource) (started : Time) : Prop :=
  exists c, FindStatusCondition (ss_Conditions (kr_Status r)) ConditionCancellationComplete = Some c /\
            cn_Status c = ConditionFalse /\ cn_LastTransitionTime c = started.

Lemma anchored_other now r t s reason message started :
  t <> ConditionCancellationComplete -> anchored r started -> anchored (setCondition now r t s reason message) started.
Proof.
  intros Ht (c & Hf & Hc). exists c. split; [|done]. rewrite <-Hf. apply SetStatusCondition_other. exact (not_eq_sym Ht).
Qed.

Lemma anchored_again now r reason message started :
  now <> 0 -> anchored r started -> anchored (setCondition now r ConditionCancellationComplete ConditionFalse reason message) started.
Proof.
  intros Hn (c & Hf & Hs & Ht). pose proof (SetStatusCondition_same (ss_Conditions (kr_Status r))
    {| cn_Type := ConditionCancellationComplete; cn_Status := ConditionFalse; cn_ObservedGeneration := kr_Generation r;
       cn_LastTransitionTime := now; cn_Reason := reason; cn_Message := message |} Hn) as Hset. simpl in Hset. rewrite Hf, Hs in Hset.
  eexists. split; [exact Hset|]. by split.
Qed.

Lemma anchored_startedAt r started : anchored r started -> cancellationStartedAt r = started.
Proof.
  intros (c & Hf & Hs & <-). unfold cancellationStartedAt, FindStatusCondition in *. revert Hf.
  induction (ss_Conditions (kr_Status r)) as [|d l IH]; simpl; [done|]. case_bool_decide; simpl; [|done].
  intros [= ->]. rewrite Hs. by rewrite bool_decide_true.
Qed.

Lemma failCancellation_anchored now r writes reason e started :
  now <> 0 -> anchored r started -> anchored (pg_Run (failCancellation now r writes reason e)) started.
Proof.
  intros Hn Ha. unfold failCancellation, recordCancellationError. cbn [pg_Run]. apply anchored_other; [done|]. by apply anchored_again.
Qed.

Lemma projectCancelling_anchored now r forced started : now <> 0 -> anchored r started -> anchored (projectCancelling now r forced) started.
Proof. intros Hn Ha. unfold projectCancelling. do 2 (apply anchored_other; [done|]). by apply anchored_again. Qed.

Lemma projectCancelling_anchors now r forced :
  now <> 0 -> FindStatusCondition (ss_Conditions (kr_Status r)) ConditionCancellationComplete = None ->
  anchored (projectCancelling now r forced) now.
Proof.
  intros Hn Hf. unfold projectCancelling. do 2 (apply anchored_other; [done|]). unfold setCondition, anchored. cbn [withStatus kr_Status ss_Conditions].
  match goal with |- context [SetStatusCondition ?cs ?c] => pose proof (SetStatusCondition_same cs c Hn) as Hset end.
  simpl in Hset. rewrite Hf in Hset. eexists. split; [exact Hset|]. by split.
Qed.

Lemma terminateJob_anchored w r job started :
  w_now w <> 0 -> anchored (projectCancelling (w_now w) r (cancellationForced (w_now w) r)) started -> anchored (pg_Run (terminateJob w r job)) started.
Proof.
  intros Hn Hp. unfold terminateJob.
  destruct (cancellationForced (w_now w) r).
  - destruct (forceDeleteExecution w job) as [writes [e|]]; [by apply failCancellation_anchored|exact Hp].
  - destruct (jb_DeletionTimestamp job); [exact Hp|]. unfold deleteJob.
    destruct (match w_DeleteJob w with Some APINotFound | None => None | Some e => Some e end); [by apply failCancellation_anchored|exact Hp].
Qed.

Lemma terminateJob_job w r job : ss_JobName (kr_Status (pg_Run (terminateJob w r job))) = ss_JobName (kr_Status r).
Proof.
  unfold terminateJob. destruct (cancellationForced (w_now w) r).
  - by destruct (forceDeleteExecution w job) as [writes [e|]].
  - destruct (jb_DeletionTimestamp job); [done|]. unfold deleteJob.
    by destruct (match w_DeleteJob w with Some APINotFound | None => None | Some e => Some e end).
Qed.

(** A call keeps the time cancellation started, or ends the attempt. *)
Lemma reconcileCancellation_anchored w r started :
  w_now w <> 0 -> ss_JobName (kr_Status r) <> EmptyString -> anchored r started ->
  let r' := pg_Run (reconcileCancellation w r) in
  anchored r' started /\ ss_JobName (kr_Status r') = ss_JobName (kr_Status r) \/ terminalPhase (ss_Phase (kr_Status r')) = true.
Proof.
  intros Hn Hj Ha. cbv zeta.
  assert (Hfail : forall writes reason e, let r' := pg_Run (failCancellation (w_now w) r writes reason e) in
    anchored r' started /\ ss_JobName (kr_Status r') = ss_JobName (kr_Status r) \/ terminalPhase (ss_Phase (kr_Status r')) = true).
  { intros. left. split; [by apply failCancellation_anchored|done]. }
  assert (Hterm : forall job, let r' := pg_Run (terminateJob w r job) in
    anchored r' started /\ ss_JobName (kr_Status r') = ss_JobName (kr_Status r) \/ terminalPhase (ss_Phase (kr_Status r')) = true).
  { intros. left. split; [by apply terminateJob_anchored, projectCancelling_anchored|apply terminateJob_job]. }
  unfold reconcileCancellation. rewrite bool_decide_false by done.
  destruct (ForAgentRun r) as [names|]; [|apply Hfail]. destruct (_ != _); [apply Hfail|].
  destruct (w_Job w) as [job|e]; [|destruct e; [apply Hfail..|right; reflexivity|apply Hfail]].
  destruct (jb_DeletionTimestamp job); [apply Hterm|]. destruct (w_Pods w) as [pods|e]; [|apply Hfail].
  destruct (_ || _) eqn:Ho; [|apply Hterm]. right. apply orb_prop in Ho as [Ho|Ho]; apply bool_decide_eq_true in Ho; simpl; by rewrite Ho.
Qed.

(** A run that is wanted no longer, with a Job on record. *)
Record unwanted (r : AgentRunResource) : Prop := {
  cg_inv : run_inv r;
  cg_kept : kr_DeletionTimestamp r = None;
  cg_unwanted : sp_DesiredState (kr_Spec r) = DesiredStateCancelled;
  cg_job : ss_JobName (kr_Status r) <> EmptyString;
  cg_begun : ss_Attempt (kr_Status r) <> 0;
}.

Definition cancelling (r : AgentRunResource) (started : Time) : Prop := unwanted r /\ anchored r started.

Lemma unwanted_finalizers r finalizers : unwanted r -> unwanted (r <| kr_Finalizers := finalizers |>).
Proof. intros [I ? ? ? ?]. constructor; try done. apply (ev_inv r). by apply sameCore_evolves. Qed.

Lemma terminal_current r : run_inv r -> ss_Attempt (kr_Status r) <> 0 -> terminalPhase (ss_Phase (kr_Status r)) = true -> currentAttemptTerminal r = true.
Proof. intros I Ha Ht. unfold currentAttemptTerminal. rewrite Ht, (started_current r I Ha), Z.eqb_refl. done. Qed.

(** The part of a call after the finalizer is in place. *)
Lemma reconcileExecution_cancelling b w r started :
  w_now w <> 0 -> cancelling r started ->
  let r' := oc_Stored (reconcileExecution b w r) in currentAttemptTerminal r' = true \/ cancelling r' started.
Proof.
  intros Hn C. pose proof C as [[I Hk Hu Hj Hb] Ha]. destruct (reconcileExecution_step b w r I) as [[Es _ _ _ I'] _]. cbv zeta.
  unfold reconcileExecution in *. destruct (currentAttemptTerminal r) eqn:Ht.
  { left. rewrite Hu in *. change (bool_decide (DesiredStateCancelled = DesiredStateRunning)) with false in *.
    cbn [andb] in *. destruct (patchStatus_outcome (w_StatusPatch w) r _ (acknowledgeTerminal_outcome (w_now w) r)) as [Hs _].
    assert (Hset : settled r) by (split; [done|rewrite Hu; reflexivity]).
    unfold finish. cbn [waiting pg_Run pg_Writes pg_Requeue pg_Error]. destruct (patchStatusIfChanged _ _ _) as [[stored written] [e|]];
      exact (proj1 (settled_same _ _ Hs Hset)). }
  rewrite Hu in *. rewrite bool_decide_true in * by done.
  destruct (initializeStatus_evolves (w_now w) r (ss_FailureCategory (kr_Status r)) (ss_FailureReason (kr_Status r)) I) as [E Hs]; [by right|].
  set (r1 := initializeCancellationStatus (w_now w) r) in *.
  assert (Ha1 : anchored r1 started) by (by apply anchored_other).
  destruct (reconcileCancellation_cancels w r1 (ev_inv _ _ E) Hs) as [E' _].
  pose proof (reconcileCancellation_anchored w r1 started Hn Hj Ha1) as Hc. cbv zeta in Hc.
  set (p := reconcileCancellation w r1) in *. clearbody p. unfold finish, patchStatusIfChanged in *.
  case_bool_decide as Hsame; [by right|]. destruct (w_StatusPatch w); [by right|]. cbn [oc_Stored] in *.
  assert (Hb' : ss_Attempt (kr_Status (pg_Run p)) <> 0) by (apply (ev_started _ _ E'); exact Hs).
  destruct Hc as [[Ha' Hj']|Ht']; [right|left; by apply terminal_current].
  split; [|exact Ha']. constructor; [done|done|exact Hu| |done]. change (ss_JobName (kr_Status (pg_Run p)) <> EmptyString). rewrite Hj'. exact Hj.
Qed.

Lemma Reconcile_cancelling b w r started :
  w_now w <> 0 -> cancelling r started ->
  let r' := oc_Stored (Reconcile b w r) in currentAttemptTerminal r' = true \/ cancelling r' started.
Proof.
  intros Hn [U Ha]. cbv zeta. unfold Reconcile. rewrite (cg_kept _ U), (ri_valid r (cg_inv _ U)).
  destruct (_ && negb _); [|by apply reconcileExecution_cancelling]. destruct (w_MetadataPatch w); [by right|].
  apply (reconcileExecution_cancelling b w _ started Hn). split; [by apply unwanted_finalizers|exact Ha].
Qed.

(** The Job has not ended: it is being deleted, or its Pods show no result. *)
Definition stillRunning (w : World) (job : Job) : Prop :=
  is_Some (jb_DeletionTimestamp job) \/ exists pods, w_Pods w = Found pods /\ terminalPhase (lo_phase (observeLifecycle job pods)) = false.

(** The API takes what the call writes to the resource itself. *)
Definition accepts (w : World) : Prop := w_now w <> 0 /\ w_MetadataPatch w = None /\ w_StatusPatch w = None.

Lemma reconcileCancellation_job w r :
  run_inv r -> ss_JobName (kr_Status r) <> EmptyString ->
  (w_Job w = Failed APINotFound -> ss_Phase (kr_Status (pg_Run (reconcileCancellation w r))) = PhaseCancelled) /\
  (forall job, w_Job w = Found job -> stillRunning w job -> reconcileCancellation w r = terminateJob w r job).
Proof.
  intros I Hj. destruct (ri_job r I) as [?|(names & Hn & Hjob)]; [done|]. unfold reconcileCancellation.
  rewrite (bool_decide_false _ Hj), Hn, Hjob, bool_decide_true by done. cbn [negb]. split; [by intros ->|].
  intros job -> Hrun. destruct (jb_DeletionTimestamp job) as [t|] eqn:Hd; [done|].
  destruct Hrun as [[? Hd']|(pods & -> & Hp)]; [congruence|]. destruct (_ || _) eqn:Ho; [|done].
  apply orb_prop in Ho as [Ho|Ho]; apply bool_decide_eq_true in Ho; by rewrite Ho in Hp.
Qed.

Lemma reconcileExecution_unwanted b w r :
  unwanted r -> currentAttemptTerminal r = false ->
  reconcileExecution b w r = finish w r "CancellationStatusWriteFailed" (reconcileCancellation w (initializeCancellationStatus (w_now w) r)).
Proof. intros U Ht. unfold reconcileExecution. by rewrite Ht, (cg_unwanted _ U). Qed.

Lemma Reconcile_unwanted b w r :
  unwanted r -> currentAttemptTerminal r = false -> w_MetadataPatch w = None ->
  exists fs written, let r1 := r <| kr_Finalizers := fs |> in
  let o := finish w r1 "CancellationStatusWriteFailed" (reconcileCancellation w (initializeCancellationStatus (w_now w) r1)) in
  oc_Stored (Reconcile b w r) = oc_Stored o /\ oc_Writes (Reconcile b w r) = written ++ oc_Writes o.
Proof.
  intros U Ht Hm. unfold Reconcile. rewrite (cg_kept _ U), (ri_valid r (cg_inv _ U)). destruct (_ && negb _).
  - rewrite Hm. eexists _, [WriteFinalizer true]. cbn [oc_Stored oc_Writes]. rewrite reconcileExecution_unwanted; [by split|by apply unwanted_finalizers|done].
  - exists (kr_Finalizers r), []. assert (Hs : r <| kr_Finalizers := kr_Finalizers r |> = r) by (by destruct r). cbv zeta. rewrite Hs.
    by rewrite reconcileExecution_unwanted.
Qed.

Lemma initializeCancellation_facts now r :
  unwanted r -> let r1 := initializeCancellationStatus now r in
  run_inv r1 /\ ss_JobName (kr_Status r1) <> EmptyString /\ ss_Attempt (kr_Status r1) <> 0 /\
  FindStatusCondition (ss_Conditions (kr_Status r1)) ConditionCancellationComplete =
  FindStatusCondition (ss_Conditions (kr_Status r)) ConditionCancellationComplete.
Proof.
  intros [I Hk Hu Hj Hb]. destruct (initializeStatus_evolves now r (ss_FailureCategory (kr_Status r)) (ss_FailureReason (kr_Status r)) I) as [E Hs]; [by right|].
  cbv zeta. split_and!; [apply (ev_inv _ _ E)|exact Hj|exact Hs|]. by apply SetStatusCondition_other.
Qed.

(** The first call records when cancellation began. *)
Lemma Reconcile_begins b w r job :
  unwanted r -> currentAttemptTerminal r = false -> accepts w ->
  FindStatusCondition (ss_Conditions (kr_Status r)) ConditionCancellationComplete = None ->
  w_Job w = Found job -> stillRunning w job -> cancelling (oc_Stored (Reconcile b w r)) (w_now w).
Proof.
  intros U Ht (Hn & Hm & Hp) Hf Hjob Hrun. destruct (Reconcile_step b w r (cg_inv _ U)) as [[_ _ _ _ I] _].
  destruct (Reconcile_unwanted b w r U Ht Hm) as (fs & written & E & _). cbv zeta in E. rewrite E in *. clear E.
  pose proof (unwanted_finalizers r fs U) as U1. set (r1 := r <| kr_Finalizers := fs |>) in *.
  destruct (initializeCancellation_facts (w_now w) r1 U1) as (I1 & Hj1 & Hb1 & Hf1).
  destruct (reconcileCancellation_job w _ I1 Hj1) as [_ Hc]. rewrite (Hc job Hjob Hrun) in *. destruct (terminateJob_cancels w _ job I1 Hb1) as [E _].
  pose proof (terminateJob_job w (initializeCancellationStatus (w_now w) r1) job) as Hj. set (p := terminateJob _ _ _) in *.
  destruct (finish_accepted w r1 "CancellationStatusWriteFailed" p Hp) as (Hs & Hsp & _).
  pose proof (finish_kept w r1 "CancellationStatusWriteFailed" p) as Hk. split.
  - constructor; [done|rewrite Hk; apply (cg_kept _ U1)|rewrite Hsp; apply (cg_unwanted _ U1)|by rewrite Hs, Hj|rewrite Hs; by apply (ev_started _ _ E)].
  - unfold anchored. rewrite Hs. apply terminateJob_anchored; [done|]. apply projectCancelling_anchors; [done|]. by rewrite Hf1.
Qed.

Lemma deletePods_all answer pods :
  Forall (fun pod => answer (pd_Name pod) = None \/ answer (pd_Name pod) = Some APINotFound) pods ->
  deletePods answer pods = ((fun pod => WriteDeletePod (pd_Name pod)) <$> pods, None).
Proof. induction 1 as [|pod pods Hp _ IH]; [done|]. simpl. rewrite IH. by destruct Hp as [->| ->]. Qed.

(** The Pods of the Job are listed and may be deleted. *)
Definition deletable (w : World) (job : Job) (pods : list Pod) : Prop :=
  w_ForcedPods w = Found pods /\
  Forall (fun pod => w_DeletePod w (pd_Name pod) = None \/ w_DeletePod w (pd_Name pod) = Some APINotFound)
    (filter (fun pod => ownedByJob job pod = true) pods).

Lemma terminateJob_forced w r job pods started :
  anchored r started -> started <> 0 -> started + cancellationDeadline <= w_now w -> deletable w job pods ->
  pg_Writes (terminateJob w r job) =
  ((fun pod => WriteDeletePod (pd_Name pod)) <$> filter (fun pod => ownedByJob job pod = true) pods) ++ [WriteDeleteJob (jb_Name job) true].
Proof.
  intros Ha Hz Hd [Hl Hp]. unfold terminateJob, cancellationForced. rewrite (anchored_startedAt r started Ha). unfold IsZero.
  destruct (Z.eqb_spec started 0) as [?|_]; [done|]. unfold Before, Add. destruct (Z.ltb_spec (w_now w) (started + cancellationDeadline)); [lia|]. cbn [negb].
  unfold forceDeleteExecution. rewrite Hl, (deletePods_all _ _ Hp). cbn [deleteJob].
  by destruct (match w_DeleteJob w with Some APINotFound | None => None | Some e => Some e end).
Qed.

Lemma finish_writes w r reason p write : write ∈ pg_Writes p -> write ∈ oc_Writes (finish w r reason p).
Proof.
  intros Hin. unfold finish. destruct (patchStatusIfChanged _ _ _) as [[stored written] [e|]]; simpl; apply elem_of_app; by left.
Qed.

(** Calls in a row, each on what the one before stored. *)
Definition reconcileAll (b : Builder) (ws : list World) (r : AgentRunResource) : AgentRunResource :=
  foldl (fun r w => oc_Stored (Reconcile b w r)) r ws.

Lemma reconcileAll_inv b ws r : run_inv r -> run_inv (reconcileAll b ws r) /\ kr_Spec (reconcileAll b ws r) = kr_Spec r.
Proof.
  revert r. induction ws as [|w ws IH]; intros r I; [done|]. simpl. destruct (Reconcile_step b w r I) as [[<- _ _ _ I'] _]. by apply IH.
Qed.

Lemma reconcileAll_terminal b ws r :
  run_inv r -> sp_DesiredState (kr_Spec r) = DesiredStateCancelled -> currentAttemptTerminal r = true ->
  currentAttemptTerminal (reconcileAll b ws r) = true.
Proof.
  revert r. induction ws as [|w ws IH]; intros r I Hd Ht; [done|]. simpl. destruct (Reconcile_step b w r I) as [[Es _ _ _ I'] _].
  assert (Hs : settled r) by (split; [done|by rewrite Hd]). destruct (Reconcile_settled b w r I Hs) as [So _].
  apply IH; [done|by rewrite Es|exact (proj1 (settled_same _ _ So Hs))].
Qed.

Lemma reconcileAll_cancelling b ws r started :
  cancelling r started -> Forall (fun w => w_now w <> 0) ws ->
  currentAttemptTerminal (reconcileAll b ws r) = true \/ cancelling (reconcileAll b ws r) started.
Proof.
  intros C Hw. revert r C. induction Hw as [|w ws Hn Hw IH]; intros r C; [by right|]. simpl.
  destruct (Reconcile_step b w r (cg_inv _ (proj1 C))) as [[Es _ _ _ I] _].
  destruct (Reconcile_cancelling b w r started Hn C) as [Ht|C']; [|by apply IH].
  left. apply reconcileAll_terminal; [done|rewrite Es; apply (cg_unwanted _ (proj1 C))|done].
Qed.

Lemma unwanted_noApply r writes : sp_DesiredState (kr_Spec r) = DesiredStateCancelled -> allowedWrites r writes -> noApply writes.
Proof. intros Hd Hw. eapply Forall_impl; [exact Hw|]. intros []; try done. intros [He _]. congruence. Qed.

(** C19: Cancellation of a run whose Job is still there. From the first call that sees it,
    whatever the API answers to the calls that follow: nothing is created; as long as the
    attempt has not ended, a call that finds the Job gone records the cancellation, and
    a call two minutes or more after that first one deletes the Job and all its Pods
    without grace, however often the run was reconciled in between. *)
Theorem cancellation_deadline b r w0 job0 ws w :
  unwanted r -> currentAttemptTerminal r = false ->
  FindStatusCondition (ss_Conditions (kr_Status r)) ConditionCancellationComplete = None ->
  accepts w0 -> w_Job w0 = Found job0 -> stillRunning w0 job0 ->
  Forall (fun w => w_now w <> 0) ws ->
  let r' := reconcileAll b (w0 :: ws) r in
  let o := Reconcile b w r' in
  noApply (oc_Writes o) /\
  (currentAttemptTerminal r' = true \/ (accepts w ->
   (w_Job w = Failed APINotFound -> ss_Phase (kr_Status (oc_Stored o)) = PhaseCancelled) /\
   (forall job pods, w_Job w = Found job -> stillRunning w job -> deletable w job pods -> w_now w0 + cancellationDeadline <= w_now w ->
      WriteDeleteJob (jb_Name job) true ∈ oc_Writes o /\
      (forall pod, pod ∈ pods -> ownedByJob job pod = true -> WriteDeletePod (pd_Name pod) ∈ oc_Writes o)))).
Proof.
  intros U Ht Hf Ha Hj Hrun Hws. cbv zeta. pose proof (Reconcile_begins b w0 r job0 U Ht Ha Hf Hj Hrun) as C.
  destruct (reconcileAll_inv b (w0 :: ws) r (cg_inv _ U)) as [I Hsp].
  destruct (Reconcile_step b w _ I) as [_ Hw]. split; [apply (unwanted_noApply _ _ (eq_trans (f_equal _ Hsp) (cg_unwanted _ U)) Hw)|].
  destruct (reconcileAll_cancelling b ws _ (w_now w0) C Hws) as [Hend|[U' Ha']]; [by left|].
  change (reconcileAll b (w0 :: ws) r) with (reconcileAll b ws (oc_Stored (Reconcile b w0 r))). set (r' := reconcileAll b ws _) in *. clearbody r'.
  destruct (currentAttemptTerminal r') eqn:Ht'; [by left|right]. intros (Hn & Hm & Hp).
  destruct (Reconcile_unwanted b w r' U' Ht' Hm) as (fs & written & -> & ->).
  destruct (initializeCancellation_facts (w_now w) _ (unwanted_finalizers r' fs U')) as (I1 & Hj1 & _ & Hf1).
  destruct (reconcileCancellation_job w _ I1 Hj1) as [Hgone Hstill]. split.
  - intros Hnf. match goal with |- context [finish w ?r1 ?reason ?p] => destruct (finish_accepted w r1 reason p Hp) as (-> & _) end. by apply Hgone.
  - intros job pods Hjob Hr Hdel Hd. rewrite (Hstill job Hjob Hr).
    assert (Ha1 : anchored (initializeCancellationStatus (w_now w) (r' <| kr_Finalizers := fs |>)) (w_now w0)) by (unfold anchored; by rewrite Hf1).
    pose proof (terminateJob_forced w _ job pods (w_now w0) Ha1 (proj1 Ha) Hd Hdel) as Hwrites.
    split; [|intros pod Hin Hown]; apply elem_of_app; right; apply finish_writes; rewrite Hwrites; apply elem_of_app.
    + right. by apply list_elem_of_singleton.
    + left. apply list_elem_of_fmap. exists pod. split; [done|]. by apply list_elem_of_filter.
Qed.
End Invariant.
