(* ===== verification/OperatorExamples.v ===== *)
(** * Concrete runs of the operator

    Instances of the parameters of the operator model (condition lists, names, URLs,
    prefixes, digests and derivative comparison), a resource the schema admits, and
    worlds the API may answer with. The theorems of [OpTypes], [Builder] and
    [OperatorInvariant] are applied to them, and one run shows how a Job can outlive a
    completed cancellation. *)

From S2P Require Import Prelude Json AgentRun Policy Cluster Events JsonDecode OpTypes Builder Lifecycle Operator OperatorInvariant.

(** ** Parameters *)

Fixpoint replaceCondition (cs : list Condition) (c : Condition) : list Condition :=
  match cs with
  | [] => [c]
  | d :: rest =>
      if cn_Type d == cn_Type c then
        {| cn_Type := cn_Type c; cn_Status := cn_Status c; cn_ObservedGeneration := cn_ObservedGeneration c;
           cn_LastTransitionTime := if cn_Status d == cn_Status c then cn_LastTransitionTime d else cn_LastTransitionTime c;
           cn_Reason := cn_Reason c; cn_Message := cn_Message c |} :: rest
      else d :: replaceCondition rest c
  end.

Lemma replaceCondition_same cs c :
  FindStatusCondition (replaceCondition cs c) (cn_Type c) =
  Some {| cn_Type := cn_Type c; cn_Status := cn_Status c; cn_ObservedGeneration := cn_ObservedGeneration c;
          cn_LastTransitionTime :=
            match FindStatusCondition cs (cn_Type c) with
            | Some old => if cn_Status old == cn_Status c then cn_LastTransitionTime old else cn_LastTransitionTime c
            | None => cn_LastTransitionTime c
            end;
          cn_Reason := cn_Reason c; cn_Message := cn_Message c |}.
Proof.
  unfold FindStatusCondition. induction cs as [|d rest IH]; simpl; [rewrite bool_decide_true by done; by destruct c|].
  case_bool_decide as Hd; simpl; [by rewrite bool_decide_true|]. by rewrite (bool_decide_false _ Hd).
Qed.

Lemma replaceCondition_other cs c t :
  t <> cn_Type c -> FindStatusCondition (replaceCondition cs c) t = FindStatusCondition cs t.
Proof.
  intros Ht. unfold FindStatusCondition. induction cs as [|d rest IH]; simpl; [rewrite bool_decide_false by congruence; done|].
  case_bool_decide as Hd; simpl; [rewrite !bool_decide_false by congruence; done|]. by rewrite IH.
Qed.

Definition exampleConditions : StatusConditions :=
  {| SetStatusCondition := replaceCondition; SetStatusCondition_same cs c _ := replaceCondition_same cs c;
     SetStatusCondition_other := replaceCondition_other |}.

Definition exampleParts : URLParts :=
  {| urlParse := fun s => if HasPrefix s "s3://" then Some ("s3", "tasks", EmptyString) else None |}.

Definition exampleSubdomain (s : string) : bool := referenceNamePattern s && (len s <=? 253).

Lemma exampleSubdomain_documented s : exampleSubdomain s = true -> referenceNamePattern s = true /\ len s <= 253.
Proof. intros [? ?]%andb_prop. split; [done|lia]. Qed.

Definition exampleValidation : K8sValidation :=
  {| IsDNS1123Subdomain := exampleSubdomain; IsQualifiedName := fun s => 0 <? len s; IsValidLabelValue := fun s => len s <=? 63;
     LabelSelectorAsSelector := fun _ => true; IsDNS1123Subdomain_documented := exampleSubdomain_documented |}.

Definition exampleNetIP : NetIP :=
  {| parsePrefix := fun s => if s == "10.0.0.0/8" then Some {| px_Is4 := true; px_Addr := 10 * 2 ^ 24; px_Bits := 8 |} else None;
     prefixString := fun _ => "10.0.0.0/8" |}.

Definition exampleDerivatives : Derivatives := {| claimDerivative := fun _ _ => true; jobDerivative := fun _ _ => true |}.

#[local] Existing Instances exampleConditions exampleParts exampleValidation exampleNetIP exampleSHA256 exampleDerivatives.

(** ** Resources *)

Definition exampleSpec : AgentRunSpec :=
  {| sp_TenantID := "01890a5d-ac96-774b-bcce-b302099a8057"; sp_ProjectID := "01890a5d-ac96-774b-bcce-b302099a8058";
     sp_RunID := "01890a5d-ac96-774b-bcce-b302099a8059"; sp_AttemptID := "01890a5d-ac96-774b-bcce-b302099a805a"; sp_Attempt := 1;
     sp_RunnerImage := "runner@sha256:0000000000000000000000000000000000000000000000000000000000000000"; sp_Runtime := "python";
     sp_ExecutionProfile := "standard"; sp_TaskRef := "s3://tasks/one"; sp_TimeoutSeconds := 600;
     sp_RetryPolicy := {| rp_MaxAttempts := 3; rp_InitialBackoffSeconds := 5; rp_MaxBackoffSeconds := 300;
                          rp_RetryableFailureCategories := [FailureTransientDependency; FailureInternal] |};
     sp_Resources := {| rq_Requests := {| rv_CPUMillis := 500; rv_MemoryMiB := 512 |};
                        rq_Limits := {| rv_CPUMillis := 1000; rv_MemoryMiB := 1024 |} |};
     sp_Workspace := {| wk_SizeGiB := 5; wk_StorageClassName := "fast"; wk_RetentionPolicy := WorkspaceRetentionDelete |};
     sp_Network := {| nw_Profile := NetworkProfileIsolated; nw_AllowedDestinationsRef := None |};
     sp_ArtifactDestinationRef := "artifacts"; sp_ConfigurationRefs := ["settings"]; sp_SecretRefs := ["token"];
     sp_DeployOnSuccess := false; sp_DesiredState := DesiredStateRunning |}.

Definition exampleStatus : AgentRunResourceStatus :=
  {| ss_Phase := PhaseUnset; ss_ObservedGeneration := 0; ss_Attempt := 0; ss_Namespace := EmptyString; ss_JobName := EmptyString;
     ss_PodName := EmptyString; ss_StartTime := None; ss_CompletionTime := None; ss_HeartbeatTime := None; ss_FailureCategory := FailureUnset;
     ss_FailureReason := EmptyString; ss_ArtifactManifestRef := EmptyString; ss_Attempts := []; ss_Conditions := [] |}.

Definition exampleRun : AgentRunResource :=
  {| kr_Name := "run"; kr_Namespace := "tenant"; kr_UID := "uid"; kr_Generation := 1; kr_DeletionTimestamp := None; kr_Finalizers := [];
     kr_Spec := exampleSpec; kr_Status := exampleStatus |}.

Definition exampleNames : ResourceNames := match ForAgentRun exampleRun with Ok names => names | Err _ => {| rn_ServiceAccount := EmptyString;
  rn_Configuration := EmptyString; rn_Workspace := EmptyString; rn_NetworkPolicy := EmptyString; rn_Job := EmptyString |} end.

Definition exampleBuilder : Builder := match NewBuilder [StandardProfile] [] with Ok b => b | Err _ => {| bu_profiles := ∅; bu_egressPolicies := ∅ |} end.

Lemma exampleBuilder_ok : NewBuilder [StandardProfile] [] = Ok exampleBuilder.
Proof. vm_compute. reflexivity. Qed.

(** ** Worlds *)

Definition exampleJob : Job :=
  {| jb_Name := rn_Job exampleNames; jb_UID := "job"; jb_DeletionTimestamp := None; jb_StartTime := Some (5 * Second); jb_CompletionTime := None;
     jb_Active := 1; jb_Succeeded := 0; jb_Failed := 0; jb_Conditions := [] |}.

Definition examplePod : Pod :=
  {| pd_Name := "pod"; pd_CreationTimestamp := 5 * Second;
     pd_Controller := Some {| cr_APIVersion := "batch/v1"; cr_Kind := "Job"; cr_Name := rn_Job exampleNames; cr_UID := "job" |};
     pd_Reason := EmptyString; pd_Phase := "Running"; pd_StartTime := Some (5 * Second);
     pd_ContainerStatuses := [ {| cs_Name := "runner"; cs_Waiting := None; cs_Running := Some (5 * Second); cs_Terminated := None |} ];
     pd_Conditions := [] |}.

(** Nothing exists yet but what the run refers to; every write is accepted unless [status]
    says otherwise; the Job and its Pods read as [job] and [pods]. *)
Definition exampleWorld (now : Time) (job : Answer Job) (pods : list Pod) (status : PatchAnswer) : World :=
  {| w_now := now; w_ServiceAccount := Failed APINotFound; w_ServiceAccountPatch := None; w_ConfigMapExists := fun _ => Found tt;
     w_SecretExists := fun _ => Found tt; w_Configuration := Failed APINotFound; w_ConfigurationPatch := None; w_Workspace := Failed APINotFound;
     w_WorkspacePatch := None; w_Claim := Found ("Bound", None); w_StorageClass := Failed APINotFound; w_NetworkPolicy := Failed APINotFound;
     w_NetworkPolicyPatch := None; w_JobBefore := job; w_JobObject := Failed APINotFound; w_JobPatch := None; w_Job := job;
     w_Pods := Found pods; w_ForcedPods := Found pods; w_DeletePod := fun _ => None; w_DeleteJob := None;
     w_RetainedClaim := fun _ => Failed APINotFound; w_RetainedPatch := fun _ => None; w_MetadataPatch := None; w_StatusPatch := status;
     w_FailureStatusPatch := status |}.

(** The Job is created and runs. *)
Definition startedRun : AgentRunResource :=
  oc_Stored (Reconcile exampleBuilder (exampleWorld (10 * Second) (Found exampleJob) [examplePod] None) exampleRun).

(** The Job fails: because its Pod was evicted, or by itself. *)
Definition failedJob : Job :=
  {| jb_Name := rn_Job exampleNames; jb_UID := "job"; jb_DeletionTimestamp := None; jb_StartTime := Some (5 * Second); jb_CompletionTime := None;
     jb_Active := 0; jb_Succeeded := 0; jb_Failed := 1;
     jb_Conditions := [ {| jc_Type := "Failed"; jc_Status := ConditionTrue; jc_Reason := "BackoffLimitExceeded"; jc_LastTransitionTime := 15 * Second |} ] |}.

Definition evictedPod : Pod :=
  {| pd_Name := "pod"; pd_CreationTimestamp := 5 * Second;
     pd_Controller := Some {| cr_APIVersion := "batch/v1"; cr_Kind := "Job"; cr_Name := rn_Job exampleNames; cr_UID := "job" |};
     pd_Reason := "Evicted"; pd_Phase := "Failed"; pd_StartTime := Some (5 * Second); pd_ContainerStatuses := []; pd_Conditions := [] |}.

Definition evictedRun : AgentRunResource :=
  oc_Stored (Reconcile exampleBuilder (exampleWorld (16 * Second) (Found failedJob) [evictedPod] None) startedRun).

Definition failedRun : AgentRunResource :=
  oc_Stored (Reconcile exampleBuilder (exampleWorld (16 * Second) (Found failedJob) [] None) startedRun).

(** Cancellation is requested while the Job runs. *)
Definition cancelledRun : AgentRunResource := cancelRequested startedRun.

Lemma created_example : created exampleRun.
Proof. unfold created. split_and!; [vm_compute; reflexivity|vm_compute; discriminate|reflexivity..]. Qed.

Lemma start_inv : run_inv exampleRun.
Proof. apply (si_stored (start exampleRun)), created_inv, created_example. Qed.

Lemma started_inv : run_inv startedRun.
Proof. apply (sp_inv exampleRun). apply Reconcile_step, start_inv. Qed.

Lemma evicted_inv : run_inv evictedRun.
Proof. apply (sp_inv startedRun). apply Reconcile_step, started_inv. Qed.

(** ** The theorems at work *)

Lemma names_typed_and_unique_witness :
  ForAgentRun exampleRun = Ok exampleNames /\ NoDup (nameList exampleNames).
Proof.
  assert (Hn : ForAgentRun exampleRun = Ok exampleNames) by (vm_compute; reflexivity). split; [exact Hn|].
  exact (proj1 (proj2 (names_typed_and_unique exampleRun exampleNames Hn))).
Defined.

Lemma BuildAll_restricted_witness :
  exists context, resolve exampleBuilder exampleRun = Ok context /\ BuildAll exampleBuilder exampleRun = Ok (built context).
Proof.
  destruct (resolve exampleBuilder exampleRun) as [context|e] eqn:Hr; [|exfalso; vm_compute in Hr; discriminate Hr].
  exists context. split; [reflexivity|].
  exact (proj1 (BuildAll_restricted [StandardProfile] [] exampleBuilder exampleRun context exampleBuilder_ok Hr)).
Defined.

(** Reconciliations of the newest version, one after the other. *)
Definition runAll (b : Builder) (ws : list World) (s : System) : System :=
  foldl (fun s w => stored s (oc_Stored (Reconcile b w (sy_Stored s))) (oc_Writes (Reconcile b w (sy_Stored s)))) s ws.

Lemma runAll_steps b ws s : rtc (system_step b) s (runAll b ws s).
Proof. revert s. induction ws as [|w ws IH]; intros s; [apply rtc_refl|]. simpl. eapply rtc_l; [apply (sys_reconcile b s w)|apply IH]. Qed.

(** The Pod is evicted, and the second attempt's Job is created after the backoff. *)
Definition retriedWorlds : list World :=
  [ exampleWorld (10 * Second) (Found exampleJob) [examplePod] None; exampleWorld (16 * Second) (Found failedJob) [evictedPod] None;
    exampleWorld (21 * Second) (Failed APINotFound) [] None; exampleWorld (22 * Second) (Found exampleJob) [] None ].

Definition retriedSystem : System := runAll exampleBuilder retriedWorlds (start exampleRun).

Lemma attempts_controlled_witness :
  created exampleRun /\ CurrentAttempt (sy_Stored retriedSystem) = 2 /\
  (exists category, retryable (sy_Stored retriedSystem) category /\ failedEntry (sy_Stored retriedSystem) 1 category) /\
  WriteApply "Job" (jobName exampleRun 1) ∈ sy_Applied retriedSystem /\ WriteApply "Job" (jobName exampleRun 2) ∈ sy_Applied retriedSystem.
Proof.
  pose proof (attempts_controlled exampleBuilder exampleRun retriedSystem created_example (runAll_steps _ _ _)) as (_ & _ & Hpast & _).
  split_and!; [exact created_example|vm_compute; reflexivity| |apply (bool_decide_unpack _); vm_compute; exact I..].
  apply Hpast. vm_compute. split; [discriminate|reflexivity].
Defined.

Definition failedSystem : System :=
  runAll exampleBuilder [ exampleWorld (10 * Second) (Found exampleJob) [examplePod] None; exampleWorld (16 * Second) (Found failedJob) [] None ] (start exampleRun).

Definition deletedSystem : System :=
  runAll exampleBuilder [exampleWorld (40 * Second) (Failed APINotFound) [] None] (stored failedSystem (deletionRequested (30 * Second) (sy_Stored failedSystem)) []).


Lemma retry_backoff_witness :
  awaitsRetry evictedRun (15 * Second) /\
  CurrentAttempt (oc_Stored (Reconcile exampleBuilder (exampleWorld (20 * Second) (Failed APINotFound) [] None) evictedRun)) = 2.
Proof.
  assert (Ha : awaitsRetry evictedRun (15 * Second)).
  { constructor; [exact evicted_inv|split; vm_compute; split; discriminate|vm_compute; reflexivity..|discriminate]. }
  split; [exact Ha|].
  destruct (retry_backoff exampleBuilder (exampleWorld (20 * Second) (Failed APINotFound) [] None) evictedRun (15 * Second) Ha eq_refl eq_refl)
    as (_ & _ & _ & Hgo).
  destruct Hgo as (Hc & _); [vm_compute; discriminate|]. etransitivity; [exact Hc|]. vm_compute. reflexivity.
Defined.

Lemma cancelled_unwanted : unwanted cancelledRun.
Proof. constructor; [apply cancel_inv, started_inv|vm_compute; reflexivity..|vm_compute; discriminate|vm_compute; discriminate]. Qed.

(** Two minutes after cancellation began the Job and its Pod are deleted without grace. *)
Lemma cancellation_deadline_witness :
  unwanted cancelledRun /\
  let w0 := exampleWorld (30 * Second) (Found exampleJob) [examplePod] None in
  let w := exampleWorld (151 * Second) (Found exampleJob) [examplePod] None in
  let r := reconcileAll exampleBuilder [w0; exampleWorld (60 * Second) (Failed APIOther) [] None] cancelledRun in
  currentAttemptTerminal r = false /\
  WriteDeleteJob (rn_Job exampleNames) true ∈ oc_Writes (Reconcile exampleBuilder w r).
Proof.
  split; [exact cancelled_unwanted|]. cbv zeta. split; [vm_compute; reflexivity|].
  set (w0 := exampleWorld (30 * Second) (Found exampleJob) [examplePod] None).
  set (w := exampleWorld (151 * Second) (Found exampleJob) [examplePod] None).
  assert (Hrun : forall now, stillRunning (exampleWorld now (Found exampleJob) [examplePod] None) exampleJob).
  { intros now. right. exists [examplePod]. split; [reflexivity|vm_compute; reflexivity]. }
  assert (Hok : forall now, now <> 0 -> accepts (exampleWorld now (Found exampleJob) [examplePod] None)) by (intros now Hn; split; [exact Hn|split; reflexivity]).
  assert (Hlater : Forall (fun w => w_now w <> 0) [exampleWorld (60 * Second) (Failed APIOther) [] None]) by (constructor; [discriminate|constructor]).
  destruct (cancellation_deadline exampleBuilder cancelledRun w0 exampleJob [exampleWorld (60 * Second) (Failed APIOther) [] None] w cancelled_unwanted)
    as [_ [Hend|Hgo]]; [vm_compute; reflexivity|vm_compute; reflexivity|apply Hok; discriminate|reflexivity|apply Hrun|exact Hlater
    |exfalso; vm_compute in Hend; discriminate Hend|].
  destruct Hgo as [_ Hdel]; [apply Hok; discriminate|].
  refine (proj1 (Hdel exampleJob [examplePod] eq_refl (Hrun _) _ _)); [|vm_compute; discriminate].
  split; [reflexivity|]. apply Forall_forall. intros pod _. left. reflexivity.
Defined.

(** ** A Job that cancellation does not see *)

(** The status write that would have recorded the Job is refused, because cancellation was
    requested meanwhile. *)
Definition refusedWorld : World := exampleWorld (10 * Second) (Found exampleJob) [examplePod] (Some APIConflict).
Definition seenWorld : World := exampleWorld (12 * Second) (Found exampleJob) [examplePod] None.
Definition missedOutcome : Outcome := Reconcile exampleBuilder seenWorld (cancelRequested exampleRun).

Lemma missed_inv : run_inv (oc_Stored missedOutcome).
Proof. apply (sp_inv (cancelRequested exampleRun)). apply Reconcile_step, cancel_inv, start_inv. Qed.

(** Cancellation decides that there is no Job from the status alone. When the Job was
    applied but the status write that records its name lost against the request to
    cancel, the next call completes the cancellation although the Job runs, deletes
    nothing, and no later call deletes the Job either. *)
Theorem cancellation_misses_job :
  WriteApply "Job" (jb_Name exampleJob) ∈ oc_Writes (Reconcile exampleBuilder refusedWorld exampleRun) /\
  oc_Stored (Reconcile exampleBuilder refusedWorld exampleRun) = exampleRun /\
  w_Job seenWorld = Found exampleJob /\ stillRunning seenWorld exampleJob /\
  ss_Phase (kr_Status (oc_Stored missedOutcome)) = PhaseCancelled /\
  oc_Writes missedOutcome = [WriteStatus] /\ oc_Requeue missedOutcome = 0 /\
  forall w, housekeeping (oc_Writes (Reconcile exampleBuilder w (oc_Stored missedOutcome))).
Proof.
  split_and!; [apply (bool_decide_unpack _); vm_compute; exact I|vm_compute; reflexivity|reflexivity| |vm_compute; reflexivity..|].
  - right. exists [examplePod]. split; [reflexivity|vm_compute; reflexivity].
  - intros w. apply Reconcile_settled; [exact missed_inv|split; vm_compute; reflexivity].
Qed.
