(* ===== verification/Handoff.v ===== *)
(** * Handing scheduled runs to Kubernetes (internal/application/handoff,
      internal/adapters/postgres/handoff.go, internal/adapters/kubernetes)

    The consumer of scheduled events: it checks the durable intent, makes sure of the
    tenant's namespace and of the AgentRun resource in the selected cluster, and marks
    the event as processed. A cluster is its namespaces and AgentRun resources; every
    call to it or to the database may fail, a create may be stored although its answer is
    lost, and others may write between a read and the create that follows.

    A resource read from the API has gone through JSON: a list that was empty is absent
    there, and absent lists are nil slices, which [reflect.DeepEqual] tells from empty
    ones. What the API server itself admits is a parameter. *)

From S2P Require Import Prelude Json AgentRun Policy Cluster Strategy Events Intent Store Reservations Queue SchedulingIntent Rfc3339 Delivery.
From S2P Require Import JsonDecode OpTypes Builder Lifecycle Operator OperatorInvariant.

(** ** Resources as Go values *)

#[export] Instance RetryPolicy_eq_dec : EqDecision RetryPolicy.
Proof. solve_decision. Defined.
#[export] Instance ResourceValues_eq_dec : EqDecision ResourceValues.
Proof. solve_decision. Defined.
#[export] Instance ResourceRequirements_eq_dec : EqDecision ResourceRequirements.
Proof. solve_decision. Defined.
#[export] Instance WorkspaceSpec_eq_dec : EqDecision WorkspaceSpec.
Proof. solve_decision. Defined.
#[export] Instance NetworkSpec_eq_dec : EqDecision NetworkSpec.
Proof. solve_decision. Defined.
#[export] Instance AgentRunSpec_eq_dec : EqDecision AgentRunSpec.
Proof. solve_decision. Defined.

(** A spec in memory: which of its three lists are nil. *)
Record SpecValue := {
  sv_Spec : AgentRunSpec;
  sv_NilCategories : bool;
  sv_NilConfiguration : bool;
  sv_NilSecrets : bool;
}.

#[export] Instance SpecValue_eq_dec : EqDecision SpecValue.
Proof. solve_decision. Defined.

(** The spec as it is read back: [omitempty] drops empty lists. *)
Definition readBack (spec : AgentRunSpec) : SpecValue :=
  {| sv_Spec := spec; sv_NilCategories := rp_RetryableFailureCategories (sp_RetryPolicy spec) == [];
     sv_NilConfiguration := sp_ConfigurationRefs spec == []; sv_NilSecrets := sp_SecretRefs spec == [] |}.

Record KubeRun := {
  ka_Labels : gmap string string;
  ka_Annotations : gmap string string;
  ka_Spec : AgentRunSpec;
}.

(** A cluster: the labels of its namespaces, and its AgentRuns by namespace and name. *)
Record KubeCluster := {
  kc_Namespaces : gmap string (gmap string string);
  kc_Runs : gmap (string * string) KubeRun;
}.

(** What a call to the API may fail with; [conflicts]: the text of the error contains
    "conflicts". [KubeMismatch] are the service's own errors, whose text does. *)
Inductive KubeError :=
| KubeAPI (e : APIError) (conflicts : bool)
| KubeAlreadyExists
| KubeMismatch.

Inductive CreateFault := CreateAccepted | CreateRefused (e : KubeError) | CreateLost (e : KubeError).

(** How the calls of one run of the service fare, and what others write meanwhile. *)
Record KubeFaults := {
  kf_GetNamespace : option KubeError;
  kf_BeforeNamespace : KubeCluster -> KubeCluster;
  kf_CreateNamespace : CreateFault;
  kf_GetNamespaceAgain : option KubeError;
  kf_GetRun : option KubeError;
  kf_BeforeRun : KubeCluster -> KubeCluster;
  kf_CreateRun : CreateFault;
  kf_GetRunAgain : option KubeError;
}.

(** [true]: the call fails. *)
Record HandoffFaults := {
  hf_Seen : bool;
  hf_Load : bool;
  hf_Authorize : bool;
  hf_Select : bool;
  hf_Mark : bool;
  hf_Kube : KubeFaults;
}.

(** What the API server admits as an AgentRun. *)
Class Admission := { admits : AgentRunSpec -> bool }.

Definition isNotFound (e : KubeError) : bool := match e with KubeAPI APINotFound _ => true | _ => false end.
Definition isAlreadyExists (e : KubeError) : bool := match e with KubeAlreadyExists => true | _ => false end.

(** A read of a map of objects. *)
Definition getObject {A} (fault : option KubeError) (found : option A) : KubeError + A :=
  match fault with
  | Some e => inl e
  | None => match found with Some a => inr a | None => inl (KubeAPI APINotFound false) end
  end.

(** A create: [refusal] is what the API has against the object. *)
Definition createObject (fault : CreateFault) (refusal : option KubeError) (stored before : KubeCluster) : KubeCluster * option KubeError :=
  match fault with
  | CreateRefused e => (before, Some e)
  | CreateAccepted => match refusal with Some e => (before, Some e) | None => (stored, None) end
  | CreateLost e => match refusal with Some e => (before, Some e) | None => (stored, Some e) end
  end.

(** ** Names *)

Section Handoff.
Context {UU : UUIDs} {NU : NetURL} {SH : SHA256} {AD : Admission}.

Definition ConsumerIdentity : string := "agentrun-handoff.v1".

Definition NamespaceName (tenantID : UUID) : string := "af-" +:+ withoutHyphens (uuidString tenantID).

Definition AgentRunName (runID : UUID) (attempt : Z) : string :=
  "run-" +:+ withoutHyphens (uuidString runID) +:+ "-a" +:+ Itoa attempt.

Definition managedBy : string := "app.kubernetes.io/managed-by".
Definition tenantLabel : string := "execution.agentforge.dev/tenant-id".
Definition projectLabel : string := "execution.agentforge.dev/project-id".
Definition runLabel : string := "execution.agentforge.dev/run-id".

(** ** The namespace *)

Definition namespaceLabels (tenantID : UUID) : gmap string string :=
  {[managedBy := "agentforge-handoff"; tenantLabel := uuidString tenantID]}.

(** The value of a key, the empty string when it is absent. *)
Definition label (labels : gmap string string) (key : string) : string := default EmptyString (labels !! key).

Definition checkNamespace (tenantID : UUID) (labels : gmap string string) : option KubeError :=
  if (label labels managedBy != "agentforge-handoff") || (label labels tenantLabel != uuidString tenantID)
  then Some KubeMismatch else None.

(** The namespace was not found. *)
Definition createNamespace (k : KubeFaults) (name : string) (tenantID : UUID) (c : KubeCluster) : KubeCluster * option KubeError :=
  let refusal := match kc_Namespaces c !! name with Some _ => Some KubeAlreadyExists | None => None end in
  match createObject (kf_CreateNamespace k) refusal
          {| kc_Namespaces := <[name := namespaceLabels tenantID]> (kc_Namespaces c); kc_Runs := kc_Runs c |} c with
  | (c, None) => (c, None)
  | (c, Some createErr) =>
      if isAlreadyExists createErr then
        match getObject (kf_GetNamespaceAgain k) (kc_Namespaces c !! name) with
        | inl e => (c, Some e)
        | inr labels => (c, checkNamespace tenantID labels)
        end
      else (c, Some createErr)
  end.

Definition ensureNamespace (k : KubeFaults) (name : string) (tenantID : UUID) (c : KubeCluster) : KubeCluster * option KubeError :=
  match getObject (kf_GetNamespace k) (kc_Namespaces c !! name) with
  | inr labels => (c, checkNamespace tenantID labels)
  | inl e => if isNotFound e then createNamespace k name tenantID (kf_BeforeNamespace k c) else (c, Some e)
  end.

(** ** The resource *)

Definition auditAnnotations (envelope : Envelope) (payload : AgentRunScheduledPayload) : gmap string string :=
  let annotations : gmap string string :=
    {["execution.agentforge.dev/scheduled-event-id" := uuidString (env_EventID envelope);
      "execution.agentforge.dev/correlation-id" := env_CorrelationID envelope;
      "execution.agentforge.dev/causation-id" := env_CausationID envelope;
      "execution.agentforge.dev/cluster-id" := sc_ClusterID payload]} in
  let annotations :=
    if env_Traceparent envelope == EmptyString then annotations
    else <["execution.agentforge.dev/traceparent" := env_Traceparent envelope]> annotations in
  if env_Tracestate envelope == EmptyString then annotations
  else <["execution.agentforge.dev/tracestate" := env_Tracestate envelope]> annotations.

Definition optionalReference (value : string) : option string := if value == EmptyString then None else Some value.

(** Conversions of strings to the types of the resource. *)
Definition toRetention (s : string) : WorkspaceRetentionPolicy :=
  if s == "Delete" then WorkspaceRetentionDelete else if s == "Retain" then WorkspaceRetentionRetain else WorkspaceRetentionOther s.
Definition toProfile (s : string) : NetworkProfile :=
  if s == "Isolated" then NetworkProfileIsolated else if s == "RestrictedEgress" then NetworkProfileRestrictedEgress else NetworkProfileOther s.

Definition desiredSpec (envelope : Envelope) (payload : AgentRunScheduledPayload) (desired : AgentRunDesiredState) : AgentRunSpec :=
  {| sp_TenantID := uuidString (env_TenantID envelope); sp_ProjectID := uuidString (sc_ProjectID payload);
     sp_RunID := uuidString (sc_RunID payload); sp_AttemptID := uuidString (sc_AttemptID payload);
     sp_Attempt := wrap32 (sc_AttemptNumber payload); sp_RunnerImage := ds_RunnerImage desired; sp_Runtime := ds_Runtime desired;
     sp_ExecutionProfile := ds_ExecutionProfile desired; sp_TaskRef := ds_TaskReference desired;
     sp_TimeoutSeconds := wrap32 (ds_TimeoutSeconds desired);
     sp_RetryPolicy := {| rp_MaxAttempts := wrap32 (ds_MaxAttempts desired); rp_InitialBackoffSeconds := wrap32 (ds_InitialBackoffSeconds desired);
                          rp_MaxBackoffSeconds := wrap32 (ds_MaxBackoffSeconds desired);
                          rp_RetryableFailureCategories := ds_RetryableFailureCategories desired |};
     sp_Resources := {| rq_Requests := {| rv_CPUMillis := wrap32 (sc_CPUMillis payload); rv_MemoryMiB := wrap32 (sc_MemoryMiB payload) |};
                        rq_Limits := {| rv_CPUMillis := wrap32 (ds_CPULimitMillis desired); rv_MemoryMiB := wrap32 (ds_MemoryLimitMiB desired) |} |};
     sp_Workspace := {| wk_SizeGiB := wrap32 (ds_WorkspaceSizeGiB desired); wk_StorageClassName := ds_StorageClassName desired;
                        wk_RetentionPolicy := toRetention (ds_WorkspaceRetentionPolicy desired) |};
     sp_Network := {| nw_Profile := toProfile (ds_NetworkProfile desired);
                      nw_AllowedDestinationsRef := optionalReference (ds_AllowedDestinationsRef desired) |};
     sp_ArtifactDestinationRef := ds_ArtifactDestinationRef desired; sp_ConfigurationRefs := ds_ConfigurationRefs desired;
     sp_SecretRefs := ds_SecretRefs desired; sp_DeployOnSuccess := ds_DeployOnSuccess desired; sp_DesiredState := DesiredStateRunning |}.

Definition desiredAgentRun (envelope : Envelope) (payload : AgentRunScheduledPayload) (desired : AgentRunDesiredState) : KubeRun :=
  {| ka_Labels := {[managedBy := "agentforge-handoff"; tenantLabel := uuidString (env_TenantID envelope);
                    projectLabel := uuidString (sc_ProjectID payload); runLabel := uuidString (sc_RunID payload)]};
     ka_Annotations := auditAnnotations envelope payload;
     ka_Spec := desiredSpec envelope payload desired |}.

(** The spec as the service builds it: its lists are made, never nil. *)
Definition builtSpec (run : KubeRun) : SpecValue :=
  {| sv_Spec := ka_Spec run; sv_NilCategories := false; sv_NilConfiguration := false; sv_NilSecrets := false |}.

Definition managedMetadataMatches (existing desired : KubeRun) : bool :=
  forallb (fun key => label (ka_Labels existing) key == label (ka_Labels desired) key) [managedBy; tenantLabel; projectLabel; runLabel]
  && forallb (fun '(key, value) => label (ka_Annotations existing) key == value) (map_to_list (ka_Annotations desired)).

Definition checkAgentRun (existing desired : KubeRun) : option KubeError :=
  if (readBack (ka_Spec existing) != builtSpec desired) || negb (managedMetadataMatches existing desired) then Some KubeMismatch else None.

(** What the API has against creating the resource. *)
Definition refusesRun (key : string * string) (desired : KubeRun) (c : KubeCluster) : option KubeError :=
  match kc_Runs c !! key with
  | Some _ => Some KubeAlreadyExists
  | None =>
      if bool_decide (kc_Namespaces c !! key.1 = None) then Some (KubeAPI APINotFound false)
      else if admits (ka_Spec desired) then None else Some (KubeAPI APIInvalid false)
  end.

(** The resource was not found. *)
Definition createAgentRun (k : KubeFaults) (key : string * string) (desired : KubeRun) (c : KubeCluster) : KubeCluster * option KubeError :=
  match createObject (kf_CreateRun k) (refusesRun key desired c)
          {| kc_Namespaces := kc_Namespaces c; kc_Runs := <[key := desired]> (kc_Runs c) |} c with
  | (c, None) => (c, None)
  | (c, Some createErr) =>
      if isAlreadyExists createErr then
        match getObject (kf_GetRunAgain k) (kc_Runs c !! key) with
        | inl e => (c, Some e)
        | inr existing => (c, checkAgentRun existing desired)
        end
      else (c, Some createErr)
  end.

Definition ensureAgentRun (k : KubeFaults) (key : string * string) (desired : KubeRun) (c : KubeCluster) : KubeCluster * option KubeError :=
  match getObject (kf_GetRun k) (kc_Runs c !! key) with
  | inr existing => (c, checkAgentRun existing desired)
  | inl e => if isNotFound e then createAgentRun k key desired (kf_BeforeRun k c) else (c, Some e)
  end.

(** ** Failures *)

Definition classifyKubernetes (code reason : string) (e : KubeError) : ProcessingError :=
  let isPermanent :=
    match e with
    | KubeAPI (APIInvalid | APIForbidden | APIUnauthorized) _ => true
    | KubeAPI _ conflicts => conflicts
    | KubeAlreadyExists | KubeMismatch => true
    end in
  newFailure (code +:+ (if isPermanent then "_CONFLICT" else "_UNAVAILABLE")) reason isPermanent.

(** ** internal/adapters/postgres/handoff.go *)

(** [false]: the cluster is not registered, or not for the tenant. *)
Definition Authorize (clusterID : string) (tenantID : UUID) (db : DB) : bool :=
  match db_clusters db !! clusterID with
  | Some cluster => negb (ec_TenantRestricted cluster) || bool_decide ((clusterID, tenantID) ∈ db_allowlist db)
  | None => false
  end.

Definition intentMismatch (payload : AgentRunScheduledPayload) (desired : AgentRunDesiredState) : bool :=
  negb (is_ok (Desired_Validate desired (sc_AttemptNumber payload))) || (ds_ExecutionProfile desired != sc_ExecutionProfile payload)
  || negb (ds_CPUMillis desired =? sc_CPUMillis payload) || negb (ds_MemoryMiB desired =? sc_MemoryMiB payload).

(** [None]: missing or invalid, which the service treats alike. *)
Definition LoadIntent (envelope : Envelope) (payload : AgentRunScheduledPayload) (db : DB) : option AgentRunDesiredState :=
  row ← db_handoff db !! env_EventID envelope;
  if (ho_TenantID row =? env_TenantID envelope) && (ho_RunID row =? sc_RunID payload) && (ho_AttemptID row =? sc_AttemptID payload)
     && (ho_AttemptNumber row =? sc_AttemptNumber payload) && (ho_ClusterID row == sc_ClusterID payload)
  then if intentMismatch payload (ho_DesiredState row) then None else Some (ho_DesiredState row)
  else None.

Definition Seen (envelope : Envelope) (db : ConsumerDB unit) : bool :=
  match cd_Markers db !! (ConsumerIdentity, env_EventID envelope) with
  | Some row => pv_TenantID row =? env_TenantID envelope
  | None => false
  end.

Definition Mark (event : ReceivedEvent) (at_ : Time) (db : ConsumerDB unit) : res bool * ConsumerDB unit :=
  Process ConsumerIdentity event at_ (fun _ state => Ok state) db.

(** ** Process *)

(** The database, the markers, and the clusters a client is configured for. *)
Record Platform := {
  pl_DB : DB;
  pl_Consumer : ConsumerDB unit;
  pl_Clusters : gmap string KubeCluster;
}.

Definition withCluster (s : Platform) (clusterID : string) (c : KubeCluster) : Platform :=
  {| pl_DB := pl_DB s; pl_Consumer := pl_Consumer s; pl_Clusters := <[clusterID := c]> (pl_Clusters s) |}.

(** The part of [Process] after the client is selected. *)
Definition project (f : HandoffFaults) (event : ReceivedEvent) (now : Time) (payload : AgentRunScheduledPayload)
    (desired : AgentRunDesiredState) (c : KubeCluster) (s : Platform) : option ProcessingError * Platform :=
  let envelope := re_Envelope event in
  let namespace := NamespaceName (env_TenantID envelope) in
  match ensureNamespace (hf_Kube f) namespace (env_TenantID envelope) c with
  | (c, Some e) => (Some (classifyKubernetes "NAMESPACE" "tenant namespace handoff failed" e), withCluster s (sc_ClusterID payload) c)
  | (c, None) =>
      match ensureAgentRun (hf_Kube f) (namespace, AgentRunName (sc_RunID payload) (sc_AttemptNumber payload))
              (desiredAgentRun envelope payload desired) c with
      | (c, Some e) => (Some (classifyKubernetes "AGENTRUN" "AgentRun handoff failed" e), withCluster s (sc_ClusterID payload) c)
      | (c, None) =>
          let s := withCluster s (sc_ClusterID payload) c in
          let unavailable := newFailure "PROCESSED_MARKER" "processed-event marker is unavailable" false in
          if hf_Mark f then (Some unavailable, s)
          else
            match Mark event (UTC now) (pl_Consumer s) with
            | (Err _, _) => (Some unavailable, s)
            | (Ok _, consumer) => (None, {| pl_DB := pl_DB s; pl_Consumer := consumer; pl_Clusters := pl_Clusters s |})
            end
      end
  end.

(** [Service.Process]; [None] is success. An envelope that reaches the service was
    validated, so the payload of a scheduled event decodes. *)
Definition ProcessHandoff (f : HandoffFaults) (event : ReceivedEvent) (now : Time) (s : Platform) : option ProcessingError * Platform :=
  let envelope := re_Envelope event in
  if env_EventType envelope != AgentRunScheduledType then
    (Some (newFailure "UNSUPPORTED_EVENT" "handoff accepts only scheduled AgentRun events" true), s)
  else
    match env_Payload envelope with
    | PayloadScheduled payload =>
        if hf_Seen f then (Some (newFailure "PROCESSED_MARKER" "processed-event marker is unavailable" false), s)
        else if Seen envelope (pl_Consumer s) then (None, s)
        else if hf_Load f then (Some (newFailure "HANDOFF_INTENT" "durable AgentRun handoff intent is unavailable" false), s)
        else
          match LoadIntent envelope payload (pl_DB s) with
          | None => (Some (newFailure "HANDOFF_INTENT" "durable AgentRun handoff intent is invalid" true), s)
          | Some desired =>
              if intentMismatch payload desired then
                (Some (newFailure "HANDOFF_INTENT" "durable AgentRun handoff intent is invalid" true), s)
              else
                let unauthorized isPermanent := newFailure "CLUSTER_AUTHORIZATION" "selected cluster is not authorized for tenant" isPermanent in
                if hf_Authorize f then (Some (unauthorized false), s)
                else if negb (Authorize (sc_ClusterID payload) (env_TenantID envelope) (pl_DB s)) then (Some (unauthorized true), s)
                else
                  let unavailable isPermanent := newFailure "CLUSTER_CLIENT" "selected cluster client is unavailable" isPermanent in
                  match pl_Clusters s !! sc_ClusterID payload with
                  | None => (Some (unavailable true), s)
                  | Some c => if hf_Select f then (Some (unavailable false), s) else project f event now payload desired c s
                  end
          end
    | _ => (Some (newFailure "INVALID_INTENT_EVENT" "scheduled event payload is invalid" true), s)
    end.

(** ** What a call leaves behind *)

(** Others only add objects. *)
Definition grows (c c' : KubeCluster) : Prop := kc_Namespaces c ⊆ kc_Namespaces c' /\ kc_Runs c ⊆ kc_Runs c'.

Definition onlyAdds (k : KubeFaults) : Prop := (forall c, grows c (kf_BeforeNamespace k c)) /\ (forall c, grows c (kf_BeforeRun k c)).

Lemma grows_refl c : grows c c.
Proof. by split. Qed.

Lemma grows_trans c1 c2 c3 : grows c1 c2 -> grows c2 c3 -> grows c1 c3.
Proof. intros [] []. split; by etrans. Qed.

Lemma createObject_cases fault refusal stored before c e :
  createObject fault refusal stored before = (c, e) ->
  (c = before /\ is_Some e) \/ (c = stored /\ refusal = None).
Proof. unfold createObject. destruct fault, refusal; intros [= <- <-]; eauto. Qed.

Lemma namespaceLabels_ok tenantID : checkNamespace tenantID (namespaceLabels tenantID) = None.
Proof. unfold checkNamespace, label, namespaceLabels. rewrite lookup_insert_eq, lookup_insert_ne, lookup_singleton_eq by done. simpl. by rewrite !bool_decide_true. Qed.

Lemma getObject_inr {A} fault (found : option A) a : getObject fault found = inr a -> found = Some a.
Proof. unfold getObject. destruct fault, found; naive_solver. Qed.

Definition ownedNamespace (tenantID : UUID) (name : string) (c : KubeCluster) : Prop :=
  exists labels, kc_Namespaces c !! name = Some labels /\ checkNamespace tenantID labels = None.

Lemma createNamespace_spec k name tenantID c c' e :
  createNamespace k name tenantID c = (c', e) -> grows c c' /\ kc_Runs c' = kc_Runs c /\ (e = None -> ownedNamespace tenantID name c').
Proof.
  unfold createNamespace. destruct (createObject _ _ _ _) as [c2 ce] eqn:Hc.
  assert (Hg : grows c c2 /\ kc_Runs c2 = kc_Runs c).
  { apply createObject_cases in Hc as [[-> _]|[-> Hr]]; [by repeat split|]. split; [split; [|done]|done]. simpl.
    apply insert_subseteq. by destruct (kc_Namespaces c !! name). }
  destruct ce as [ce|].
  - destruct (isAlreadyExists ce); [|intros [= <- <-]; naive_solver].
    destruct (getObject _ _) as [e0|labels] eqn:Hget; intros [= <- <-]; [naive_solver|]. apply getObject_inr in Hget.
    destruct Hg. split_and!; [done..|]. intros Hn. by exists labels.
  - intros [= <- <-]. destruct Hg. split_and!; [done..|]. intros _. apply createObject_cases in Hc as [[_ [? ?]]|[-> _]]; [done|].
    exists (namespaceLabels tenantID). simpl. rewrite lookup_insert_eq. split; [done|apply namespaceLabels_ok].
Qed.

Lemma ensureNamespace_spec k name tenantID c c' e :
  onlyAdds k -> ensureNamespace k name tenantID c = (c', e) -> grows c c' /\ (e = None -> ownedNamespace tenantID name c').
Proof.
  intros [Ha _]. unfold ensureNamespace. destruct (getObject _ _) as [e0|labels] eqn:Hget.
  - destruct (isNotFound e0); [|intros [= <- <-]; split; [apply grows_refl|done]]. intros (Hg & _ & Ho)%createNamespace_spec. split; [|done]. by eapply grows_trans.
  - intros [= <- <-]. split; [apply grows_refl|]. intros Hn. exists labels. by apply getObject_inr in Hget.
Qed.

(** A resource that is what was wanted. *)
Definition holdsRun (key : string * string) (desired : KubeRun) (c : KubeCluster) : Prop :=
  exists run, kc_Runs c !! key = Some run /\ ka_Spec run = ka_Spec desired /\ managedMetadataMatches run desired = true.

Lemma managedMetadata_refl run : managedMetadataMatches run run = true.
Proof.
  unfold managedMetadataMatches. apply andb_true_intro. split; apply forallb_forall; [intros key _; by apply bool_decide_eq_true|].
  intros [key value] Hin%list_elem_of_In%elem_of_map_to_list. unfold label. rewrite Hin. by apply bool_decide_eq_true.
Qed.

Lemma checkAgentRun_ok existing desired : checkAgentRun existing desired = None ->
  ka_Spec existing = ka_Spec desired /\ managedMetadataMatches existing desired = true.
Proof.
  unfold checkAgentRun. case_bool_decide as Hs; cbn [negb orb]; [|done]. destruct (managedMetadataMatches _ _); [|done].
  intros _. split; [|done]. by apply (f_equal sv_Spec) in Hs.
Qed.

Lemma createAgentRun_spec k key desired c c' e :
  createAgentRun k key desired c = (c', e) ->
  grows c c' /\ kc_Namespaces c' = kc_Namespaces c /\ (kc_Runs c' = kc_Runs c \/ kc_Runs c' = <[key := desired]> (kc_Runs c)) /\
  (e = None -> holdsRun key desired c').
Proof.
  unfold createAgentRun. destruct (createObject _ _ _ _) as [c2 ce] eqn:Hc.
  assert (Hg : grows c c2 /\ kc_Namespaces c2 = kc_Namespaces c /\ (kc_Runs c2 = kc_Runs c \/ kc_Runs c2 = <[key := desired]> (kc_Runs c))).
  { apply createObject_cases in Hc as [[-> _]|[-> Hr]]; [by repeat split; auto|]. split_and!; [split; [done|]|done|by right]. simpl.
    apply insert_subseteq. unfold refusesRun in Hr. by destruct (kc_Runs c !! key). }
  destruct ce as [ce|].
  - destruct (isAlreadyExists ce); [|intros [= <- <-]; naive_solver].
    destruct (getObject _ _) as [e0|existing] eqn:Hget; intros [= <- <-]; [naive_solver|]. apply getObject_inr in Hget.
    destruct Hg as (? & ? & ?). split_and!; [done..|]. intros [? ?]%checkAgentRun_ok. by exists existing.
  - intros [= <- <-]. destruct Hg as (? & ? & ?). split_and!; [done..|]. intros _. apply createObject_cases in Hc as [[_ [? ?]]|[-> _]]; [done|].
    exists desired. simpl. rewrite lookup_insert_eq. split_and!; [done..|apply managedMetadata_refl].
Qed.

Lemma ensureAgentRun_spec k key desired c c' e :
  onlyAdds k -> ensureAgentRun k key desired c = (c', e) -> grows c c' /\ (e = None -> holdsRun key desired c').
Proof.
  intros [_ Ha]. unfold ensureAgentRun. destruct (getObject _ _) as [e0|existing] eqn:Hget.
  - destruct (isNotFound e0); [|intros [= <- <-]; split; [apply grows_refl|done]]. intros (Hg & _ & _ & Ho)%createAgentRun_spec. split; [|done]. by eapply grows_trans.
  - intros [= <- <-]. split; [apply grows_refl|]. intros [? ?]%checkAgentRun_ok. exists existing. by apply getObject_inr in Hget.
Qed.

Definition marked (s : Platform) (event : ReceivedEvent) : Prop := is_Some (cd_Markers (pl_Consumer s) !! (ConsumerIdentity, re_ID event)).

(** The cluster's namespace is the tenant's, and it holds the resource of the intent. *)
Definition projectedTo (envelope : Envelope) (payload : AgentRunScheduledPayload) (desired : AgentRunDesiredState) (c : KubeCluster) : Prop :=
  let namespace := NamespaceName (env_TenantID envelope) in
  ownedNamespace (env_TenantID envelope) namespace c /\
  holdsRun (namespace, AgentRunName (sc_RunID payload) (sc_AttemptNumber payload)) (desiredAgentRun envelope payload desired) c.

(** The event's run is in the cluster its durable intent names, which the tenant may use. *)
Definition projected (s : Platform) (event : ReceivedEvent) : Prop :=
  exists payload desired c,
    env_Payload (re_Envelope event) = PayloadScheduled payload /\ LoadIntent (re_Envelope event) payload (pl_DB s) = Some desired /\
    Authorize (sc_ClusterID payload) (env_TenantID (re_Envelope event)) (pl_DB s) = true /\
    pl_Clusters s !! sc_ClusterID payload = Some c /\ projectedTo (re_Envelope event) payload desired c.

Lemma Mark_cases event at_ db r db' :
  Mark event at_ db = (r, db') ->
  match r with
  | Err _ => db' = db
  | Ok _ => cd_Markers db ⊆ cd_Markers db' /\ is_Some (cd_Markers db' !! (ConsumerIdentity, re_ID event))
  end.
Proof.
  intros Hp%Process_cases. change (TrimSpace ConsumerIdentity) with ConsumerIdentity in Hp.
  destruct Hp as [(e & -> & ->)|[(-> & -> & Hm)|(-> & Hn & _ & Hm)]]; [done|by split|]. rewrite Hm. split.
  - by apply insert_subseteq.
  - rewrite lookup_insert_eq. by eexists.
Qed.

Lemma holdsRun_grows key desired c c' : grows c c' -> holdsRun key desired c -> holdsRun key desired c'.
Proof. intros [_ Hr] (run & Hl & ?). exists run. split; [by eapply lookup_weaken|done]. Qed.

Lemma ownedNamespace_grows tenantID name c c' : grows c c' -> ownedNamespace tenantID name c -> ownedNamespace tenantID name c'.
Proof. intros [Hn _] (labels & Hl & ?). exists labels. split; [by eapply lookup_weaken|done]. Qed.

Lemma project_spec f event now payload desired c s r s' :
  onlyAdds (hf_Kube f) -> project f event now payload desired c s = (r, s') ->
  pl_DB s' = pl_DB s /\
  (exists c', pl_Clusters s' = <[sc_ClusterID payload := c']> (pl_Clusters s) /\ grows c c' /\
     ((pl_Consumer s' = pl_Consumer s /\ is_Some r) \/ projectedTo (re_Envelope event) payload desired c')) /\
  (r = None -> marked s' event).
Proof.
  intros Ha. unfold project. destruct (ensureNamespace _ _ _ _) as [c1 [e1|]] eqn:En; apply ensureNamespace_spec in En as [G1 N1]; try done.
  { intros [= <- <-]. split_and!; [done|exists c1; split_and!; [done|done|by left; eauto]|done]. }
  destruct (ensureAgentRun _ _ _ _) as [c2 [e2|]] eqn:Er; apply ensureAgentRun_spec in Er as [G2 R2]; try done.
  { intros [= <- <-]. split_and!; [done|exists c2; split_and!; [done|by eapply grows_trans|by left; eauto]|done]. }
  assert (Hp : projectedTo (re_Envelope event) payload desired c2) by (split; [by eapply ownedNamespace_grows, N1|by apply R2]).
  assert (Hg : grows c c2) by (by eapply grows_trans).
  destruct (hf_Mark f). { intros [= <- <-]. split_and!; [done|exists c2; auto|done]. }
  destruct (Mark _ _ _) as [[dup|e] db'] eqn:Em; apply Mark_cases in Em; intros [= <- <-].
  - split_and!; [done|exists c2; auto|intros _; apply Em].
  - split_and!; [done|exists c2; auto|done].
Qed.

Record handoffStep (event : ReceivedEvent) (s : Platform) (r : option ProcessingError) (s' : Platform) : Prop := {
  hs_tables : pl_DB s' = pl_DB s;
  hs_grows : forall id c, pl_Clusters s !! id = Some c -> exists c', pl_Clusters s' !! id = Some c' /\ grows c c';
  hs_others : forall id, (forall payload, env_Payload (re_Envelope event) = PayloadScheduled payload -> sc_ClusterID payload <> id) ->
    pl_Clusters s' !! id = pl_Clusters s !! id;
  hs_mark : pl_Consumer s' = pl_Consumer s \/ projected s' event;
  hs_success : r = None -> marked s' event /\ (Seen (re_Envelope event) (pl_Consumer s) = true \/ projected s' event);
}.

Lemma step_same event s r : (r = None -> Seen (re_Envelope event) (pl_Consumer s) = true) -> handoffStep event s r s.
Proof.
  intros Hseen. constructor; [done| |done|by left|].
  - intros id c Hc. exists c. split; [done|apply grows_refl].
  - intros Hr. specialize (Hseen Hr). split; [|by left]. unfold Seen in Hseen. unfold marked, re_ID. destruct (cd_Markers _ !! _); [by eexists|done].
Qed.

Lemma ProcessHandoff_step f event now s r s' :
  onlyAdds (hf_Kube f) -> ProcessHandoff f event now s = (r, s') -> handoffStep event s r s'.
Proof.
  intros Ha. unfold ProcessHandoff.
  assert (Hsame : forall e, (Some e : option ProcessingError, s) = (r, s') -> handoffStep event s r s') by (intros e [= <- <-]; by apply step_same).
  destruct (_ != _); [apply Hsame|]. destruct (env_Payload (re_Envelope event)) as [ |payload| | | | | | | ] eqn:Hp; try apply Hsame.
  destruct (hf_Seen f); [apply Hsame|]. destruct (Seen _ _) eqn:Hseen; [intros [= <- <-]; by apply step_same|].
  destruct (hf_Load f); [apply Hsame|]. destruct (LoadIntent _ _ _) as [desired|] eqn:Hl; [|apply Hsame].
  destruct (intentMismatch _ _); [apply Hsame|]. destruct (hf_Authorize f); [apply Hsame|].
  destruct (Authorize _ _ _) eqn:Hau; cbn [negb]; [|apply Hsame].
  destruct (pl_Clusters s !! _) as [c|] eqn:Hc; [|apply Hsame]. destruct (hf_Select f); [apply Hsame|].
  intros (Hdb & (c' & Hcl & Hg & Hproj) & Hm)%project_spec; [|done].
  assert (Hdone : projectedTo (re_Envelope event) payload desired c' -> projected s' event).
  { intros. exists payload, desired, c'. rewrite Hdb, Hcl, lookup_insert_eq. by split_and!. }
  constructor; [done| | | |].
  - intros id c1 Hid. rewrite Hcl. destruct (decide (id = sc_ClusterID payload)) as [->|Hne].
    + rewrite lookup_insert_eq. exists c'. split; [done|]. congruence.
    + rewrite lookup_insert_ne by done. exists c1. split; [done|apply grows_refl].
  - intros id Hid. rewrite Hcl. apply lookup_insert_ne. by apply Hid.
  - destruct Hproj as [[? _]|?]; auto.
  - intros ->. split; [by apply Hm|]. destruct Hproj as [[_ [? ?]]|?]; [done|auto].
Qed.

(** Handing off a scheduled event is safe whatever fails on the way and whatever
    others add to the clusters meanwhile. Nothing that exists in a cluster is changed or
    removed, only the cluster the event names is touched, and the platform's own tables
    not at all. The event is marked, and success is reported, only when it was marked
    before or when the tenant's namespace in the cluster of the durable intent, which
    the tenant may use, holds exactly the resource that intent describes. *)
Theorem handoff_projects f event now s r s' :
  onlyAdds (hf_Kube f) -> ProcessHandoff f event now s = (r, s') ->
  pl_DB s' = pl_DB s /\
  (forall id c, pl_Clusters s !! id = Some c -> exists c', pl_Clusters s' !! id = Some c' /\ grows c c') /\
  (forall id, (forall payload, env_Payload (re_Envelope event) = PayloadScheduled payload -> sc_ClusterID payload <> id) ->
     pl_Clusters s' !! id = pl_Clusters s !! id) /\
  (pl_Consumer s' = pl_Consumer s \/ projected s' event) /\
  (r = None -> marked s' event /\ (Seen (re_Envelope event) (pl_Consumer s) = true \/ projected s' event)).
Proof. intros Ha Hs. destruct (ProcessHandoff_step f event now s r s' Ha Hs). by split_and!. Qed.

(** ** Repeating a call *)

Definition quietKube : KubeFaults :=
  {| kf_GetNamespace := None; kf_BeforeNamespace := id; kf_CreateNamespace := CreateAccepted; kf_GetNamespaceAgain := None;
     kf_GetRun := None; kf_BeforeRun := id; kf_CreateRun := CreateAccepted; kf_GetRunAgain := None |}.

(** Nothing fails; or the service stops before it has marked the event. *)
Definition noFaults : HandoffFaults :=
  {| hf_Seen := false; hf_Load := false; hf_Authorize := false; hf_Select := false; hf_Mark := false; hf_Kube := quietKube |}.
Definition crashBeforeMark : HandoffFaults :=
  {| hf_Seen := false; hf_Load := false; hf_Authorize := false; hf_Select := false; hf_Mark := true; hf_Kube := quietKube |}.

Definition runKey (envelope : Envelope) (payload : AgentRunScheduledPayload) : string * string :=
  (NamespaceName (env_TenantID envelope), AgentRunName (sc_RunID payload) (sc_AttemptNumber payload)).

(** A valid, unprocessed event whose intent is stored and whose run is not in the cluster yet. *)
Record handoffReady (event : ReceivedEvent) (payload : AgentRunScheduledPayload) (desired : AgentRunDesiredState) (c : KubeCluster)
    (s : Platform) : Prop := {
  hr_type : env_EventType (re_Envelope event) = AgentRunScheduledType;
  hr_payload : env_Payload (re_Envelope event) = PayloadScheduled payload;
  hr_unseen : cd_Markers (pl_Consumer s) !! (ConsumerIdentity, re_ID event) = None;
  hr_intent : LoadIntent (re_Envelope event) payload (pl_DB s) = Some desired;
  hr_authorized : Authorize (sc_ClusterID payload) (env_TenantID (re_Envelope event)) (pl_DB s) = true;
  hr_cluster : pl_Clusters s !! sc_ClusterID payload = Some c;
  hr_namespace : kc_Namespaces c !! NamespaceName (env_TenantID (re_Envelope event)) = None \/
                 ownedNamespace (env_TenantID (re_Envelope event)) (NamespaceName (env_TenantID (re_Envelope event))) c;
  hr_absent : kc_Runs c !! runKey (re_Envelope event) payload = None;
  hr_admitted : admits (desiredSpec (re_Envelope event) payload desired) = true;
  hr_valid : validateReceivedEvent event = Ok tt;
  hr_versions : 1 <= env_SchemaVersion (re_Envelope event) /\ 1 <= env_AggregateVersion (re_Envelope event);
  hr_tenant : env_TenantID (re_Envelope event) ∈ cd_Tenants (pl_Consumer s);
}.

Lemma LoadIntent_match envelope payload db desired : LoadIntent envelope payload db = Some desired -> intentMismatch payload desired = false.
Proof.
  unfold LoadIntent. destruct (db_handoff db !! _) as [row|]; [|done]. cbn [mbind option_bind]. destruct (_ && _); [|done].
  destruct (intentMismatch payload (ho_DesiredState row)) eqn:E; [done|]. by intros [= <-].
Qed.

(** Up to the cluster, a call without database faults does nothing but check. *)
Lemma ProcessHandoff_project f event now s payload desired c :
  hf_Seen f = false -> hf_Load f = false -> hf_Authorize f = false -> hf_Select f = false ->
  env_EventType (re_Envelope event) = AgentRunScheduledType -> env_Payload (re_Envelope event) = PayloadScheduled payload ->
  cd_Markers (pl_Consumer s) !! (ConsumerIdentity, re_ID event) = None -> LoadIntent (re_Envelope event) payload (pl_DB s) = Some desired ->
  Authorize (sc_ClusterID payload) (env_TenantID (re_Envelope event)) (pl_DB s) = true -> pl_Clusters s !! sc_ClusterID payload = Some c ->
  ProcessHandoff f event now s = project f event now payload desired c s.
Proof.
  intros F1 F2 F3 F4 Ht Hp Hm Hl Ha Hc. unfold ProcessHandoff. rewrite Ht, Hp, F1, F2, F3, F4, Hl, Ha, Hc, (LoadIntent_match _ _ _ _ Hl).
  rewrite bool_decide_true by done. unfold Seen. unfold re_ID in Hm. by rewrite Hm.
Qed.

Lemma ensureNamespace_quiet name tenantID c :
  kc_Namespaces c !! name = None \/ ownedNamespace tenantID name c ->
  exists c', ensureNamespace quietKube name tenantID c = (c', None) /\ ownedNamespace tenantID name c' /\ kc_Runs c' = kc_Runs c.
Proof.
  intros [Hn|(labels & Hl & Hk)]; unfold ensureNamespace; cbn [quietKube kf_GetNamespace getObject].
  - rewrite Hn. cbn [isNotFound]. unfold createNamespace. cbn [quietKube kf_CreateNamespace kf_BeforeNamespace id]. rewrite Hn. eexists.
    split_and!; [done| |done]. exists (namespaceLabels tenantID). simpl. rewrite lookup_insert_eq. split; [done|apply namespaceLabels_ok].
  - rewrite Hl, Hk. exists c. split_and!; [done|by exists labels|done].
Qed.

Lemma ensureAgentRun_quiet key desired c labels :
  kc_Runs c !! key = None -> kc_Namespaces c !! key.1 = Some labels -> admits (ka_Spec desired) = true ->
  ensureAgentRun quietKube key desired c = ({| kc_Namespaces := kc_Namespaces c; kc_Runs := <[key := desired]> (kc_Runs c) |}, None).
Proof.
  intros Hn Hl Ha. unfold ensureAgentRun. cbn [quietKube kf_GetRun getObject]. rewrite Hn. cbn [isNotFound].
  unfold createAgentRun, refusesRun. cbn [quietKube kf_CreateRun kf_BeforeRun id]. by rewrite Hn, Hl, bool_decide_false, Ha.
Qed.

Lemma Mark_ready event at_ db :
  validateReceivedEvent event = Ok tt -> 1 <= env_SchemaVersion (re_Envelope event) /\ 1 <= env_AggregateVersion (re_Envelope event) ->
  env_TenantID (re_Envelope event) ∈ cd_Tenants db -> cd_Markers db !! (ConsumerIdentity, re_ID event) = None ->
  exists db', Mark event at_ db = (Ok false, db').
Proof.
  intros Hv [H1 H2] Ht Hm. unfold Mark, Process. change (TrimSpace ConsumerIdentity) with ConsumerIdentity.
  change ((ConsumerIdentity == EmptyString) || (160 <? len ConsumerIdentity)) with false. rewrite Hv. unfold insertMarker.
  rewrite bind_failIf. destruct (Z.ltb_spec (env_SchemaVersion (re_Envelope event)) 1); [lia|].
  destruct (Z.ltb_spec (env_AggregateVersion (re_Envelope event)) 1); [lia|]. cbn [orb]. unfold re_ID in Hm. rewrite Hm, bind_failIf.
  rewrite bool_decide_false by (by intros ?). by eexists.
Qed.

(** The lists of an intent that are empty. *)
Definition hasEmptyList (desired : AgentRunDesiredState) : bool :=
  (ds_RetryableFailureCategories desired == []) || (ds_ConfigurationRefs desired == []) || (ds_SecretRefs desired == []).

Lemma checkAgentRun_self envelope payload desired :
  checkAgentRun (desiredAgentRun envelope payload desired) (desiredAgentRun envelope payload desired) =
  if hasEmptyList desired then Some KubeMismatch else None.
Proof.
  unfold checkAgentRun. rewrite managedMetadata_refl. cbn [negb]. rewrite orb_false_r. unfold hasEmptyList.
  set (run := desiredAgentRun envelope payload desired). case_bool_decide as He; cbn [negb].
  - assert (H1 := f_equal sv_NilCategories He). assert (H2 := f_equal sv_NilConfiguration He). assert (H3 := f_equal sv_NilSecrets He).
    cbn in H1, H2, H3. by rewrite H1, H2, H3.
  - destruct (_ || _ || _) eqn:E; [done|]. exfalso. apply He. apply orb_false_elim in E as [[E1 E2]%orb_false_elim E3].
    unfold readBack, builtSpec. cbn. by rewrite E1, E2, E3.
Qed.

Definition markerUnavailable : ProcessingError := newFailure "PROCESSED_MARKER" "processed-event marker is unavailable" false.

(** The first call brings the run to the cluster. *)
Lemma project_ready f event now payload desired c s :
  hf_Kube f = quietKube -> handoffReady event payload desired c s ->
  exists c1, kc_Runs c1 = <[runKey (re_Envelope event) payload := desiredAgentRun (re_Envelope event) payload desired]> (kc_Runs c) /\
    ownedNamespace (env_TenantID (re_Envelope event)) (NamespaceName (env_TenantID (re_Envelope event))) c1 /\
    (hf_Mark f = true -> project f event now payload desired c s = (Some markerUnavailable, withCluster s (sc_ClusterID payload) c1)) /\
    (hf_Mark f = false -> (project f event now payload desired c s).1 = None).
Proof.
  intros Hq R. destruct (ensureNamespace_quiet _ _ _ (hr_namespace _ _ _ _ _ R)) as (c1 & En & Ho & Hr).
  pose proof Ho as (labels & Hl & _). pose proof (ensureAgentRun_quiet (runKey (re_Envelope event) payload)
    (desiredAgentRun (re_Envelope event) payload desired) c1 labels) as Er. rewrite Hr in Er.
  specialize (Er (hr_absent _ _ _ _ _ R) Hl (hr_admitted _ _ _ _ _ R)). unfold project. rewrite Hq, En. unfold runKey in Er. rewrite Er.
  set (c2 := {| kc_Namespaces := _; kc_Runs := _ |}). exists c2.
  split_and!; [done|exists labels; by destruct Ho as (l & Hl' & Hk); rewrite Hl in Hl'; injection Hl' as <-|by intros ->|].
  intros ->. destruct (Mark_ready event (UTC now) (pl_Consumer s) (hr_valid _ _ _ _ _ R) (hr_versions _ _ _ _ _ R) (hr_tenant _ _ _ _ _ R)
    (hr_unseen _ _ _ _ _ R)) as [db' Em]. cbn [withCluster pl_Consumer]. by rewrite Em.
Qed.

(** Another call compares what is there. *)
Lemma project_again event now payload desired c s :
  ownedNamespace (env_TenantID (re_Envelope event)) (NamespaceName (env_TenantID (re_Envelope event))) c ->
  kc_Runs c !! runKey (re_Envelope event) payload = Some (desiredAgentRun (re_Envelope event) payload desired) ->
  pl_Clusters s !! sc_ClusterID payload = Some c ->
  project noFaults event now payload desired c s =
  if hasEmptyList desired then (Some (newFailure "AGENTRUN_CONFLICT" "AgentRun handoff failed" true), s)
  else match Mark event (UTC now) (pl_Consumer s) with
       | (Err _, _) => (Some markerUnavailable, s)
       | (Ok _, consumer) => (None, {| pl_DB := pl_DB s; pl_Consumer := consumer; pl_Clusters := pl_Clusters s |})
       end.
Proof.
  intros (labels & Hl & Hk) Hr Hc. unfold runKey in Hr. unfold project, ensureNamespace, ensureAgentRun. cbn [noFaults hf_Kube quietKube kf_GetNamespace kf_GetRun].
  unfold getObject. rewrite Hl, Hk, Hr, checkAgentRun_self.
  assert (Hs : withCluster s (sc_ClusterID payload) c = s) by (unfold withCluster; rewrite insert_id by done; by destruct s).
  destruct (hasEmptyList desired); [by rewrite Hs|]. cbn [noFaults hf_Mark]. by rewrite Hs.
Qed.

(** C22: A scheduled event whose intent is stored, for a cluster the tenant may use and that
    admits the resource, is handed off by a call that nothing disturbs. When the service
    stops after the resource was created and before the event was marked, the event is
    delivered again; the repeated call then succeeds without touching the cluster
    exactly when none of the intent's lists is empty. With an empty list it reports a
    permanent conflict with the very resource it created. *)
Theorem handoff_replay event payload desired c s now now' :
  handoffReady event payload desired c s ->
  let crashed := ProcessHandoff crashBeforeMark event now s in
  let again := ProcessHandoff noFaults event now' crashed.2 in
  (ProcessHandoff noFaults event now s).1 = None /\
  crashed.1 = Some markerUnavailable /\ projected crashed.2 event /\ pl_Clusters again.2 = pl_Clusters crashed.2 /\
  again.1 = if hasEmptyList desired then Some (newFailure "AGENTRUN_CONFLICT" "AgentRun handoff failed" true) else None.
Proof.
  intros R. pose proof R as [Ht Hp Hm Hl Ha Hc _ _ _ Hv Hver Hten]. cbv zeta.
  destruct (project_ready noFaults event now payload desired c s eq_refl R) as (_ & _ & _ & _ & Hok).
  destruct (project_ready crashBeforeMark event now payload desired c s eq_refl R) as (c1 & Hr1 & Ho1 & Hcrash & _).
  rewrite !(ProcessHandoff_project _ event now s payload desired c) by done. rewrite (Hcrash eq_refl). cbn [fst snd].
  set (s1 := withCluster s (sc_ClusterID payload) c1). assert (Hc1 : pl_Clusters s1 !! sc_ClusterID payload = Some c1) by apply lookup_insert_eq.
  rewrite (ProcessHandoff_project noFaults event now' s1 payload desired c1) by done.
  assert (Hrun : kc_Runs c1 !! runKey (re_Envelope event) payload = Some (desiredAgentRun (re_Envelope event) payload desired))
    by (rewrite Hr1; apply lookup_insert_eq).
  rewrite (project_again event now' payload desired c1 s1 Ho1 Hrun Hc1). split_and!; [by apply Hok|done| | |].
  - exists payload, desired, c1. split_and!; [done..|]. split; [done|]. exists (desiredAgentRun (re_Envelope event) payload desired).
    split_and!; [done..|apply managedMetadata_refl].
  - destruct (hasEmptyList desired); [done|]. by destruct (Mark _ _ _) as [[]].
  - destruct (hasEmptyList desired); [done|].
    destruct (Mark_ready event (UTC now') (pl_Consumer s1) Hv Hver Hten Hm) as [db' ->]. done.
Qed.
End Handoff.

(** ** The operator accepts what is handed off *)

Lemma splitOn_one sep l a : splitOn sep l = [a] -> l = a /\ sep ∉ a.
Proof.
  revert a. induction l as [|c l IH]; intros a; simpl; [intros [= <-]; split; [done|apply not_elem_of_nil]|].
  destruct (Ascii.eqb_spec c sep) as [->|Hne]; [destruct l; simpl; [done|]; by repeat case_match|].
  destruct (splitOn sep l) as [|part [|]] eqn:Hs; [by destruct l; simpl in Hs; repeat case_match| |done].
  intros [= <-]. destruct (IH part eq_refl) as [<- Hn]. split; [done|]. set_solver.
Qed.

Lemma splitOn_two sep l a b : splitOn sep l = [a; b] -> l = a ++ sep :: b /\ sep ∉ a /\ sep ∉ b.
Proof.
  revert a. induction l as [|c l IH]; intros a; simpl; [done|].
  destruct (Ascii.eqb_spec c sep) as [->|Hne].
  - intros [= <- Hs]. apply splitOn_one in Hs as [-> Hn]. split_and!; [done|apply not_elem_of_nil|done].
  - destruct (splitOn sep l) as [|part rest] eqn:Hs; [done|]. intros [= <- ->]. destruct (IH part eq_refl) as (-> & Ha & Hb).
    split_and!; [done|set_solver|done].
Qed.

Lemma lastIndex_none l : atByte ∉ l -> lastIndex l digestMark = None.
Proof.
  induction l as [|c l IH]; intros Hn; [done|]. cbn [lastIndex]. rewrite IH by set_solver.
  destruct (hasPrefixBytes digestMark (c :: l)) eqn:Hp; [|done]. exfalso. apply Hn.
  change digestMark with (atByte :: bytes "sha256:") in Hp. cbn [hasPrefixBytes] in Hp. apply andb_prop in Hp as [Hc _]. apply Ascii.eqb_eq in Hc as <-. by left.
Qed.

Lemma lastIndex_app a l sub i : lastIndex l sub = Some i -> lastIndex (a ++ l) sub = Some (length a + i)%nat.
Proof. intros Hi. induction a as [|c a IH]; simpl; [done|]. by rewrite IH. Qed.

Lemma alnum_not_space c : lowerAlnum c = true -> asciiSpace c = true -> False.
Proof. by destruct c as [[] [] [] [] [] [] [] []]. Qed.

Lemma imageByte_not_space c :
  lowerAlnum c || dot c || slash c || colon c || underscore c || hyphen c = true -> asciiSpace c = true -> False.
Proof. by destruct c as [[] [] [] [] [] [] [] []]. Qed.

Lemma digestImage_accepted image : desiredDigestImagePattern image = true -> isDigestImage image = true.
Proof.
  unfold desiredDigestImagePattern, isDigestImage. destruct (splitOn atByte (bytes image)) as [|[|first name] [|digest [|]]] eqn:Hs; try done.
  apply splitOn_two in Hs as (Hb & Ha & Hd). intros ((((Hfirst & Hname)%andb_prop & Hpre)%andb_prop & Hhex)%andb_prop & H64%Nat.eqb_eq)%andb_prop. rewrite length_drop in H64.
  assert (Hlast : lastIndex (bytes image) digestMark = Some (S (length name))).
  { rewrite Hb. rewrite (lastIndex_app (first :: name) _ _ 0); [simpl; f_equal; lia|]. cbn [lastIndex]. rewrite lastIndex_none by done.
    change digestMark with (atByte :: bytes "sha256:"). cbn [hasPrefixBytes]. by rewrite Ascii.eqb_refl, Hpre. }
  rewrite Hlast. apply andb_true_intro. split; [apply andb_true_intro; split; [apply andb_true_intro; split|]|].
  - done.
  - unfold len. rewrite <-length_bytes, Hb, length_app. cbn [length]. apply Z.eqb_eq. assert (length digest = 71%nat) by lia. rewrite H. lia.
  - rewrite Hb. rewrite (take_app_length' (first :: name)) by done. apply negb_true_iff, not_true_iff_false.
    intros (c & [<-|Hin] & Hsp)%existsb_exists; [by apply (alnum_not_space first)|].
    rewrite forallb_forall in Hname. specialize (Hname c Hin). by apply (imageByte_not_space c).
  - rewrite Hb. replace (S (length name) + 8)%nat with (length (first :: name) + 8)%nat by done. rewrite drop_app_add' by done. exact Hhex.
Qed.

Lemma validate_intent payload desired :
  intentMismatch payload desired = false ->
  desiredScalarsInvalid desired (sc_AttemptNumber payload) = false /\ ds_CPUMillis desired = sc_CPUMillis payload /\
  ds_MemoryMiB desired = sc_MemoryMiB payload.
Proof.
  unfold intentMismatch. intros [[[Hv _]%orb_false_elim Hc]%orb_false_elim Hm]%orb_false_elim. split_and!; [|lia..].
  unfold Desired_Validate in Hv. rewrite bind_failIf in Hv. by destruct (desiredScalarsInvalid _ _).
Qed.

Lemma scalars_bounds desired attempt :
  desiredScalarsInvalid desired attempt = false ->
  desiredDigestImagePattern (ds_RunnerImage desired) = true /\ 1 <= attempt <= 10 /\ attempt <= ds_MaxAttempts desired <= 10 /\
  1 <= ds_TimeoutSeconds desired <= 86400 /\ 1 <= ds_InitialBackoffSeconds desired <= 3600 /\
  ds_InitialBackoffSeconds desired <= ds_MaxBackoffSeconds desired <= 21600 /\
  1 <= ds_CPUMillis desired <= ds_CPULimitMillis desired /\ ds_CPULimitMillis desired <= 128000 /\
  1 <= ds_MemoryMiB desired <= ds_MemoryLimitMiB desired /\ ds_MemoryLimitMiB desired <= 524288 /\
  validateNetwork {| nw_Profile := toProfile (ds_NetworkProfile desired);
                     nw_AllowedDestinationsRef := optionalReference (ds_AllowedDestinationsRef desired) |} = Ok tt.
Proof.
  unfold desiredScalarsInvalid. intros Hv.
  repeat match type of Hv with _ || _ = false => apply orb_false_elim in Hv as [Hv ?] end.
  split_and!; try lia; [by apply negb_false_iff|].
  unfold validateNetwork, toProfile, optionalReference. cbn [nw_Profile nw_AllowedDestinationsRef].
  destruct (ds_NetworkProfile desired == "Isolated"); cbn [negb andb] in *.
  - by destruct (ds_AllowedDestinationsRef desired == EmptyString).
  - destruct (ds_NetworkProfile desired == "RestrictedEgress"); [|done]. cbn [negb andb] in *.
    destruct (decide (ds_AllowedDestinationsRef desired = EmptyString)) as [He|He]; [by rewrite He in *|].
    by rewrite (bool_decide_false (ds_AllowedDestinationsRef desired = EmptyString)).
Qed.

(** ** Labels *)

Lemma dnsLabel_intro s c rest d :
  bytes s = c :: rest -> len s <= 63 -> lowerAlnum c = true -> forallb (fun c => lowerAlnum c || hyphen c) rest = true ->
  last (c :: rest) = Some d -> lowerAlnum d = true -> OpTypes.dnsLabel s = true.
Proof. intros Hb Hl Hc Hr Hlast Hd. unfold OpTypes.dnsLabel. rewrite Hb, Hc, Hr, Hlast, Hd. cbn [andb]. by rewrite !andb_true_r, (proj2 (Z.leb_le _ _) Hl). Qed.

Lemma plain_hex value : IsUUIDv7 value = true ->
  forallb (fun c => lowerAlnum c || hyphen c) (bytes (withoutHyphens value)) = true /\ (length (bytes (withoutHyphens value)) <= 36)%nat /\
  exists d, last (bytes (withoutHyphens value)) = Some d /\ lowerAlnum d = true.
Proof.
  unfold IsUUIDv7. intros Hv. apply andb_prop in Hv as [Hv Hhex]. repeat (apply andb_prop in Hv as [Hv ?]). unfold isLowerHex in Hhex.
  pose proof (withoutHyphens_length value) as Hlen. rewrite (length_bytes value) in Hlen. unfold len in Hv. split_and!; [|lia|].
  - eapply forallb_mono; [|exact Hhex]. intros c Hc. by rewrite lowerHex_alnum.
  - destruct (last (bytes (withoutHyphens value))) as [d|] eqn:Hd.
    + exists d. split; [done|]. apply lowerHex_alnum. rewrite forallb_forall in Hhex. apply Hhex, list_elem_of_In. by apply last_Some_elem_of.
    + exfalso. apply last_None in Hd. unfold withoutHyphens in Hd. rewrite bytes_of_list in Hd.
      unfold byteAt in *. destruct (bytes value !! 14%nat) as [c|] eqn:E; [|done].
      assert (c ∈ filter (fun c => c <> hyphenByte) (bytes value)) as Hin.
      { apply list_elem_of_filter. split; [|by eapply list_elem_of_lookup_2]. intros ->. done. }
      rewrite Hd in Hin. by apply elem_of_nil in Hin.
Qed.

Lemma NamespaceName_label `{UUIDs} tenantID : IsUUIDv7 (uuidString tenantID) = true -> OpTypes.dnsLabel (NamespaceName tenantID) = true.
Proof.
  intros (Hall & Hlen & d & Hlast & Hd)%plain_hex.
  assert (Hb : bytes (NamespaceName tenantID) = bytes "af-" ++ bytes (withoutHyphens (uuidString tenantID))) by apply bytes_app.
  eapply dnsLabel_intro; [exact Hb| |done| | |exact Hd].
  - unfold len. rewrite <-length_bytes, Hb, length_app. cbn [bytes String.list_ascii_of_string length]. lia.
  - cbn [forallb]. by rewrite Hall.
  - change (last (bytes "af-" ++ bytes (withoutHyphens (uuidString tenantID))) = Some d). by rewrite last_app, Hlast.
Qed.

Lemma AgentRunName_label `{UUIDs} runID attempt :
  IsUUIDv7 (uuidString runID) = true -> 1 <= attempt <= 10 -> OpTypes.dnsLabel (AgentRunName runID attempt) = true.
Proof.
  intros (Hall & Hlen & _)%plain_hex Ha. destruct (Itoa_attempt attempt Ha) as [Hdig Hlen2].
  assert (Hb : bytes (AgentRunName runID attempt) = bytes "run-" ++ bytes (withoutHyphens (uuidString runID)) ++ bytes "-a" ++ bytes (Itoa attempt))
    by (unfold AgentRunName; by rewrite !bytes_app).
  assert (Hlast : exists d, last (bytes "-a" ++ bytes (Itoa attempt)) = Some d /\ lowerAlnum d = true).
  { rewrite last_app. destruct (last (bytes (Itoa attempt))) as [d|] eqn:E; [|by eexists]. exists d. split; [done|].
    rewrite forallb_forall in Hdig. unfold lowerAlnum. rewrite Hdig, orb_true_r; [done|]. apply list_elem_of_In. by apply last_Some_elem_of. }
  destruct Hlast as (d & Hlast & Hd). eapply dnsLabel_intro; [exact Hb| |done| | |exact Hd].
  - unfold len. rewrite <-length_bytes, Hb, !length_app. cbn [bytes String.list_ascii_of_string length]. fold (bytes (Itoa attempt)). lia.
  - cbn [forallb]. rewrite !forallb_app, Hall. rewrite (forallb_mono digit _ (bytes (Itoa attempt))); [done| |done].
    intros c Hc. unfold lowerAlnum. by rewrite Hc, orb_true_r.
  - change (last (bytes "run-" ++ bytes (withoutHyphens (uuidString runID)) ++ bytes "-a" ++ bytes (Itoa attempt)) = Some d).
    rewrite last_app, last_app, Hlast. done.
Qed.

Section Accepted.
Context {UU : UUIDs} {NU : NetURL} {SH : SHA256} {UP : URLParts}.

(** The resource as the API stores it: its first generation, without status. *)
Definition storedResource (key : string * string) (uid : string) (run : KubeRun) : AgentRunResource :=
  {| kr_Name := key.2; kr_Namespace := key.1; kr_UID := uid; kr_Generation := 1; kr_DeletionTimestamp := None; kr_Finalizers := [];
     kr_Spec := ka_Spec run;
     kr_Status :=
       {| ss_Phase := PhaseUnset; ss_ObservedGeneration := 0; ss_Attempt := 0; ss_Namespace := EmptyString; ss_JobName := EmptyString;
          ss_PodName := EmptyString; ss_StartTime := None; ss_CompletionTime := None; ss_HeartbeatTime := None;
          ss_FailureCategory := FailureUnset; ss_FailureReason := EmptyString; ss_ArtifactManifestRef := EmptyString; ss_Attempts := [];
          ss_Conditions := [] |} |}.

(** The identifiers of an event are version 7 in the operator's sense. *)
Definition identifiersV7 (envelope : Envelope) (payload : AgentRunScheduledPayload) : Prop :=
  Forall (fun id => IsUUIDv7 (uuidString id) = true) [env_TenantID envelope; sc_ProjectID payload; sc_RunID payload; sc_AttemptID payload].

End Accepted.

(** ** The scheduler's intents can be handed off *)

Section Scheduled.
Context {UU : UUIDs} {NU : NetURL}.

(** What a claim repeats of the run it was made on. *)
Definition claimsRun (claim : ClaimedRun) (run : AgentRun) : Prop :=
  cl_AttemptNumber claim = run_AttemptCount run /\ cl_CPUMillis claim = run_CPUMillis run /\ cl_MemoryMiB claim = run_MemoryMiB run.

(** The event and the intent one decision stores. *)
Lemma scheduleNew_intent idc idb ide row request db result db' :
  scheduleNew idc idb ide
    {| lr_Run := scannedRun (rr_Run row); lr_Owner := default EmptyString (rr_LeaseOwner row);
       lr_Expiry := rr_LeaseExpiresAt row; lr_Profile := rr_ExecutionProfile row |} request db = Ok (result, db') ->
  exists event payload h,
    db_outbox db' !! sir_EventID result = Some (pendingRow event) /\ env_EventID (oe_Envelope event) = sir_EventID result /\
    env_EventType (oe_Envelope event) = AgentRunScheduledType /\ env_Payload (oe_Envelope event) = PayloadScheduled payload /\
    db_handoff db' !! sir_EventID result = Some h /\ ho_DesiredState h = si_DesiredState request /\
    ho_TenantID h = env_TenantID (oe_Envelope event) /\ ho_RunID h = sc_RunID payload /\ ho_AttemptID h = sc_AttemptID payload /\
    ho_AttemptNumber h = sc_AttemptNumber payload /\ ho_ClusterID h = sc_ClusterID payload /\
    sc_AttemptNumber payload = run_AttemptCount (rr_Run row) /\ sc_ExecutionProfile payload = cl_ExecutionProfile (si_Claim request) /\
    sc_CPUMillis payload = run_CPUMillis (rr_Run row) /\ sc_MemoryMiB payload = run_MemoryMiB (rr_Run row).
Proof.
  intros Hs. unfold scheduleNew in Hs. cbn [lr_Run lr_Owner lr_Expiry lr_Profile] in Hs.
  apply tx_bind_ok in Hs as ([] & ? & [Hg ->]%abortIf_ok & Hs). apply orb_false_iff in Hg as [_ Hprof%negb_false_iff%bool_decide_eq_true].
  apply tx_bind_ok in Hs as ([] & ? & [_ ->]%abortIf_ok & Hs).
  apply tx_bind_ok in Hs as (attempt & ? & (-> & a & _ & _ & _ & Han & _ & _ & _ & _ & _ & En & _)%lockPendingAttempt_spec & Hs). simpl in Han.
  apply tx_bind_ok in Hs as (policy & db1 & _ & Hs). apply tx_bind_ok in Hs as (placed & db2 & _ & Hs).
  apply tx_bind_ok in Hs as (bundle & db3 & _ & Hs). apply tx_bind_ok in Hs as (n1 & db4 & _ & Hs). apply tx_bind_ok in Hs as (n2 & db5 & _ & Hs).
  apply tx_bind_ok in Hs as ([] & ? & [_ ->]%abortIf_ok & Hs).
  apply tx_bind_ok in Hs as (event & ? & [Hev ->]%lift_tx_ok & Hs). simpl in Hev.
  apply tx_bind_ok in Hs as ([] & db6 & (Hon & ->)%insertOutboxEvent_spec & Hs). simpl in Hon.
  apply tx_bind_ok in Hs as ([] & db7 & (Hhn & _ & ->)%insertHandoffIntent_spec & Hs). tx_inv.
  pose proof Hev as (_ & _ & _ & Hty & _ & Hpay & _ & Hten & _)%newEvent_ok. simpl in Hten.
  eexists event, _, _. cbn [sir_EventID]. split_and!; [simpl; apply lookup_insert_eq|done|done|exact Hpay|simpl; apply lookup_insert_eq|done|by rewrite Hten|done|done|done|done| |done..].
  simpl. congruence.
Qed.

(** What the scheduler commits can be handed off: when it assigns a run, the event it
    publishes and the durable intent it stores belong together, and loading the intent
    for that event gives the desired state of the decision. *)
Theorem scheduled_intent_loads idc idb ide request db result db' row :
  Schedule idc idb ide request db = (Ok result, db') -> sir_Replayed result = false ->
  db_runs db !! cl_ID (si_Claim request) = Some row -> claimsRun (si_Claim request) (rr_Run row) ->
  exists event payload,
    db_outbox db' !! sir_EventID result = Some (pendingRow event) /\ env_EventType (oe_Envelope event) = AgentRunScheduledType /\
    env_Payload (oe_Envelope event) = PayloadScheduled payload /\
    LoadIntent (oe_Envelope event) payload db' = Some (si_DesiredState request).
Proof.
  intros Hs Hr Hrow (Hca & Hcc & Hcm). unfold Schedule in Hs. destruct (validateSchedulingIntent request) as [[]|] eqn:Hval; [|done].
  apply transact_ok in Hs. unfold scheduleTx in Hs. apply tx_bind_ok in Hs as (locked & ? & (-> & row' & Hrow' & _ & ->)%lockSchedulingRun_spec & Hs).
  assert (row' = row) as -> by congruence. cbn [lr_Run] in Hs.
  case_bool_decide. { apply replaySchedulingIntent_kept in Hs as [_ ?]. congruence. }
  apply scheduleNew_intent in Hs as (event & payload & h & Hout & Hid & Hty & Hpay & Hh & Hd & H1 & H2 & H3 & H4 & H5 & H6 & H7 & H8 & H9).
  exists event, payload. split_and!; [done..|]. unfold LoadIntent. rewrite Hid, Hh. cbn [mbind option_bind].
  rewrite H1, H2, H3, H4, H5, !Z.eqb_refl, bool_decide_true by done. cbn [andb]. rewrite Hd.
  unfold validateSchedulingIntent in Hval. apply bind_ok in Hval as ([] & _ & Hval). apply bind_ok in Hval as ([] & Hm%failIf_ok & Hval).
  reflect_bools. unfold intentMismatch. rewrite H6, <-Hca, Hval. cbn [is_ok negb orb].
  replace (ds_ExecutionProfile (si_DesiredState request)) with (sc_ExecutionProfile payload) by congruence. rewrite bool_decide_true by done.
  cbn [negb orb]. rewrite H8, H9. assert (Ec : (ds_CPUMillis (si_DesiredState request) =? run_CPUMillis (rr_Run row)) = true) by lia.
  assert (Em : (ds_MemoryMiB (si_DesiredState request) =? run_MemoryMiB (rr_Run row)) = true) by lia. by rewrite Ec, Em.
Qed.
End Scheduled.

(** ** Examples *)

(** The example decision of the scheduler, published and received; its intent has no
    references to configuration or secrets. *)
Definition exampleAdmission : Admission := {| admits := fun _ => true |}.

Definition received (db : DB) (eventID : UUID) : ReceivedEvent :=
  let nothing := {| re_Envelope := zeroEnvelope; re_Topic := EmptyString; re_Partition := 0; re_LeaderEpoch := 0; re_Offset := 0;
                    re_Key := EmptyString; re_Headers := []; re_Value := {| wi_Bytes := EmptyString; wi_Decoded := None |} |} in
  match db_outbox db !! eventID with
  | None => nothing
  | Some row =>
      match @prepareRecord rfcUUIDs exampleNetURL 1024 {| pr_Event := ob_Event row;
        pr_Serialized := {| wi_Bytes := "{}"; wi_Decoded := Some (oe_Envelope (ob_Event row)) |}; pr_Headers := [] |} with
      | inl _ => nothing
      | inr record => match @decodeRecord rfcUUIDs exampleNetURL 1024 record 3 0 41 with Received source => source | InvalidEvent _ => nothing end
      end
  end.

Definition exampleHandoff : ReceivedEvent := received example_schedule.2 (exampleV7 33).

Definition examplePayload : AgentRunScheduledPayload :=
  match env_Payload (re_Envelope exampleHandoff) with
  | PayloadScheduled payload => payload
  | _ => {| sc_ProjectID := 0; sc_RunID := 0; sc_Status := AgentRunQueued; sc_AttemptID := 0; sc_AttemptNumber := 0; sc_ClusterID := EmptyString;
            sc_ExecutionProfile := EmptyString; sc_CapacityReservationID := 0; sc_BudgetReservationID := 0; sc_CPUMillis := 0; sc_MemoryMiB := 0 |}
  end.

Definition emptyCluster : KubeCluster := {| kc_Namespaces := ∅; kc_Runs := ∅ |}.

Definition examplePlatform : Platform :=
  {| pl_DB := example_schedule.2; pl_Consumer := {| cd_Markers := ∅; cd_Tenants := {[exampleTenant]}; cd_State := tt |};
     pl_Clusters := {["cluster-a" := emptyCluster]} |}.

#[local] Existing Instances rfcUUIDs exampleNetURL exampleSHA256 exampleAdmission.

Lemma exampleHandoff_ready : handoffReady exampleHandoff examplePayload example_desired emptyCluster examplePlatform.
Proof.
  constructor; try (vm_compute; reflexivity); [left; vm_compute; reflexivity|split; vm_compute; discriminate].
Qed.

Lemma quiet_adds : onlyAdds quietKube.
Proof. split; intros c; apply grows_refl. Qed.

Lemma handoff_projects_witness :
  (ProcessHandoff noFaults exampleHandoff exampleNow examplePlatform).1 = None /\
  projected (ProcessHandoff noFaults exampleHandoff exampleNow examplePlatform).2 exampleHandoff.
Proof.
  assert (Hr : (ProcessHandoff noFaults exampleHandoff exampleNow examplePlatform).1 = None) by (vm_compute; reflexivity).
  split; [exact Hr|].
  destruct (handoff_projects noFaults exampleHandoff exampleNow examplePlatform _ _ quiet_adds (surjective_pairing _)) as (_ & _ & _ & _ & Hok).
  destruct (Hok Hr) as [_ [Hseen|Hp]]; [|exact Hp]. exfalso. vm_compute in Hseen. discriminate Hseen.
Defined.

(** The example intent has empty lists: its event cannot be handed off again. *)
Lemma handoff_replay_witness :
  handoffReady exampleHandoff examplePayload example_desired emptyCluster examplePlatform /\
  (ProcessHandoff noFaults exampleHandoff (exampleNow + Minute)
     (ProcessHandoff crashBeforeMark exampleHandoff exampleNow examplePlatform).2).1 =
  Some (newFailure "AGENTRUN_CONFLICT" "AgentRun handoff failed" true).
Proof.
  split; [exact exampleHandoff_ready|].
  destruct (handoff_replay exampleHandoff examplePayload example_desired emptyCluster examplePlatform exampleNow (exampleNow + Minute)
    exampleHandoff_ready) as (_ & _ & _ & _ & Hagain).
  exact Hagain.
Defined.

(** Identifiers with the RFC variant. *)
Definition rfcV7 (n : Z) : UUID := exampleV7 n + 2 ^ 63.

Definition exampleEnvelope : Envelope :=
  {| env_EventID := rfcV7 1; env_EventType := AgentRunScheduledType; env_SchemaVersion := 1; env_OccurredAt := exampleNow;
     env_OccurredZoneOffset := 0; env_Producer := "scheduler"; env_TenantID := rfcV7 2; env_ProjectID := Some (rfcV7 3);
     env_RunID := Some (rfcV7 4); env_AggregateType := "AgentRun"; env_AggregateID := rfcV7 4; env_AggregateVersion := 2;
     env_RequestID := EmptyString; env_Traceparent := EmptyString; env_Tracestate := EmptyString;
     env_CorrelationID := "corr-1"; env_CausationID := "cause-1"; env_Payload := PayloadNotObject |}.

Definition exampleAssignment : AgentRunScheduledPayload :=
  {| sc_ProjectID := rfcV7 3; sc_RunID := rfcV7 4; sc_Status := AgentRunProvisioning; sc_AttemptID := rfcV7 5; sc_AttemptNumber := 1;
     sc_ClusterID := "cluster-a"; sc_ExecutionProfile := "standard"; sc_CapacityReservationID := rfcV7 6; sc_BudgetReservationID := rfcV7 7;
     sc_CPUMillis := 500; sc_MemoryMiB := 512 |}.

Definition exampleIntents : DB :=
  emptyDB <| db_handoff := {[rfcV7 1 := {| ho_EventID := rfcV7 1; ho_TenantID := rfcV7 2; ho_RunID := rfcV7 4; ho_AttemptID := rfcV7 5;
    ho_AttemptNumber := 1; ho_ClusterID := "cluster-a"; ho_DesiredState := example_desired; ho_CreatedAt := exampleNow |}]} |>.

Definition exampleTaskURL : URLParts := {| urlParse := fun s => if HasPrefix s "s3://" then Some ("s3", "prompts", EmptyString) else None |}.


Lemma scheduled_intent_loads_witness :
  exists result db' event payload, example_schedule = (Ok result, db') /\ sir_Replayed result = false /\
    env_Payload (oe_Envelope event) = PayloadScheduled payload /\ LoadIntent (oe_Envelope event) payload db' = Some example_desired.
Proof.
  destruct example_scheduled as (result & db' & E & Hr).
  destruct (scheduled_intent_loads _ _ _ example_scheduling example_claimed_db result db' example_leased E Hr) as (event & payload & _ & _ & Hp & Hl);
    [vm_compute; reflexivity|split_and!; vm_compute; reflexivity|].
  exists result, db', event, payload. exact (conj E (conj Hr (conj Hp Hl))).
Defined.
