(* ===== verification/Paths.v ===== *)
(** * Slash-separated paths

    The part of package [path/filepath] the sources use, on Unix: [Clean], [Join],
    [Base], [Dir], [IsAbs] and [Rel]. A path is read as the names between its
    slashes, cleaned of empty names, [.] and resolvable [..]; [Clean] prints them.

    [Rel_confined] is what the callers rely on: for absolute paths the result of
    [Rel] leaves the base exactly when the base's names are not a prefix of the
    target's. *)

From S2P Require Import Prelude JsonDecode.

Definition dotdot : list Ascii.ascii := [dotByte; dotByte].

Record Path := {
  pt_rooted : bool;
  pt_parts : list (list Ascii.ascii);
}.

(** One name of [Clean]'s scan; the names kept so far, the last one first. *)
Definition cleanStep (rooted : bool) (stack : list (list Ascii.ascii)) (part : list Ascii.ascii) : list (list Ascii.ascii) :=
  if (part == []) || (part == [dotByte]) then stack
  else if part == dotdot then
    match stack with
    | top :: below => if top == dotdot then dotdot :: stack else below
    | [] => if rooted then [] else [dotdot]
    end
  else part :: stack.

Definition cleanParts (rooted : bool) (parts : list (list Ascii.ascii)) : list (list Ascii.ascii) :=
  reverse (foldl (cleanStep rooted) [] parts).

Definition IsAbs (path : string) : bool := match bytes path with c :: _ => slash c | [] => false end.

Definition parsePath (path : string) : Path :=
  {| pt_rooted := IsAbs path; pt_parts := cleanParts (IsAbs path) (splitOn slashByte (bytes path)) |}.

Definition printPath (p : Path) : string :=
  String.string_of_list_ascii
    (if pt_rooted p then slashByte :: joinWith [slashByte] (pt_parts p)
     else match pt_parts p with [] => [dotByte] | parts => joinWith [slashByte] parts end).

Definition Clean (path : string) : string := printPath (parsePath path).

(** The elements with a slash between them, leading empty ones dropped. *)
Fixpoint Join (elements : list string) : string :=
  match elements with
  | [] => EmptyString
  | element :: rest =>
      if element == EmptyString then Join rest
      else Clean (String.string_of_list_ascii (joinWith [slashByte] (bytes <$> elements)))
  end.

Fixpoint dropWhileB (f : Ascii.ascii -> bool) (l : list Ascii.ascii) : list Ascii.ascii :=
  match l with
  | c :: rest => if f c then dropWhileB f rest else l
  | [] => []
  end.

Fixpoint takeWhileB (f : Ascii.ascii -> bool) (l : list Ascii.ascii) : list Ascii.ascii :=
  match l with
  | c :: rest => if f c then c :: takeWhileB f rest else []
  | [] => []
  end.

Definition Base (path : string) : string :=
  if path == EmptyString then "."
  else match dropWhileB slash (reverse (bytes path)) with
       | [] => "/"
       | l => String.string_of_list_ascii (reverse (takeWhileB (fun c => negb (slash c)) l))
       end.

Definition Dir (path : string) : string :=
  Clean (String.string_of_list_ascii (reverse (dropWhileB (fun c => negb (slash c)) (reverse (bytes path))))).

(** The names past the common ones, after a [..] for each name of the base that is
    left; a [..] of the base there has no known name. *)
Fixpoint relParts (base target : list (list Ascii.ascii)) : option (list (list Ascii.ascii)) :=
  match base, target with
  | x :: base', y :: target' =>
      if x == y then relParts base' target'
      else if x == dotdot then None
      else Some (replicate (length base) dotdot ++ target)
  | _, _ => Some (replicate (length base) dotdot ++ target)
  end.

Definition Rel (base target : string) : option string :=
  let b := parsePath base in
  let t := parsePath target in
  if Clean base == Clean target then Some "."
  else if Bool.eqb (pt_rooted b) (pt_rooted t) then
    let names := if negb (pt_rooted t) && (pt_parts t == []) then [[dotByte]] else pt_parts t in
    (fun parts => String.string_of_list_ascii (joinWith [slashByte] parts)) <$> relParts (pt_parts b) names
  else None.

(** The callers' test of a relative path. *)
Definition escapes (relative : string) : bool := (relative == "..") || HasPrefix relative "../".

(** ** Cleaned names *)

Definition properName (part : list Ascii.ascii) : Prop :=
  part <> [] /\ part <> [dotByte] /\ part <> dotdot /\ slashByte ∉ part.

Lemma splitOn_parts sep l : Forall (fun part => sep ∉ part) (splitOn sep l).
Proof.
  induction l as [|c l IH]; simpl; [repeat constructor; apply not_elem_of_nil|].
  destruct (Ascii.eqb_spec c sep) as [->|Hc]; [constructor; [apply not_elem_of_nil|done]|].
  destruct (splitOn sep l) as [|part parts]; [repeat constructor; set_solver|].
  inversion IH; subst. constructor; set_solver.
Qed.

Lemma cleanStep_proper stack part : slashByte ∉ part -> Forall properName stack -> Forall properName (cleanStep true stack part).
Proof.
  intros Hp Hs. unfold cleanStep. destruct (_ || _) eqn:E; [done|]. reflect_bools. case_bool_decide as Hd.
  - destruct Hs as [|top below Ht Hb]; [constructor|]. case_bool_decide; [by destruct Ht as (_ & _ & ? & _)|done].
  - by constructor.
Qed.

Lemma rooted_proper path : IsAbs path = true -> Forall properName (pt_parts (parsePath path)).
Proof.
  intros Ha. unfold parsePath, cleanParts. simpl. rewrite Ha. apply Forall_reverse.
  assert (H : forall parts stack, Forall (fun part => slashByte ∉ part) parts -> Forall properName stack -> Forall properName (foldl (cleanStep true) stack parts)).
  { induction parts as [|part parts IH]; simpl; intros stack Hp Hs; [done|]. inversion Hp; subst. apply IH; [done|]. by apply cleanStep_proper. }
  apply H; [apply splitOn_parts|constructor].
Qed.

Lemma cleanStep_name rooted stack part : properName part -> cleanStep rooted stack part = part :: stack.
Proof. intros (H1 & H2 & H3 & _). unfold cleanStep. by rewrite !bool_decide_eq_false_2 by done. Qed.

Lemma cleanParts_names rooted parts : Forall properName parts -> cleanParts rooted parts = parts.
Proof.
  intros Hp. unfold cleanParts.
  assert (H : forall stack, foldl (cleanStep rooted) stack parts = reverse parts ++ stack).
  { induction Hp as [|part parts Hn Hp IH]; intros stack; simpl; [done|]. rewrite cleanStep_name by done. rewrite IH, reverse_cons. by rewrite <-app_assoc. }
  rewrite H, app_nil_r. apply reverse_involutive.
Qed.

Lemma splitOn_app sep part l : sep ∉ part -> splitOn sep (part ++ sep :: l) = part :: splitOn sep l.
Proof.
  induction part as [|c part IH]; simpl; intros Hn.
  - by rewrite Ascii.eqb_refl.
  - destruct (Ascii.eqb_spec c sep) as [->|Hc]; [set_solver|]. rewrite IH by set_solver. done.
Qed.

Lemma splitOn_none sep part : sep ∉ part -> splitOn sep part = [part].
Proof.
  induction part as [|c part IH]; simpl; intros Hn; [done|].
  destruct (Ascii.eqb_spec c sep) as [->|Hc]; [set_solver|]. by rewrite IH by set_solver.
Qed.

Lemma splitOn_join sep parts : parts <> [] -> Forall (fun part => sep ∉ part) parts -> splitOn sep (joinWith [sep] parts) = parts.
Proof.
  intros Hne Hp. induction Hp as [|part parts Hn Hp IH]; [done|]. destruct parts as [|q parts]; cbn [joinWith].
  - by apply splitOn_none.
  - cbn [app]. rewrite splitOn_app by done. f_equal. by apply IH.
Qed.

Lemma Forall_proper_slash parts : Forall properName parts -> Forall (fun part => slashByte ∉ part) parts.
Proof. intros H. eapply Forall_impl; [exact H|]. by intros part (_ & _ & _ & ?). Qed.

(** Reading what was printed. *)
Lemma parse_printPath parts :
  Forall properName parts -> parsePath (printPath {| pt_rooted := true; pt_parts := parts |}) = {| pt_rooted := true; pt_parts := parts |}.
Proof.
  intros Hp. set (text := slashByte :: joinWith [slashByte] parts).
  assert (E : parsePath (String.string_of_list_ascii text) = {| pt_rooted := true; pt_parts := cleanParts true ([] :: splitOn slashByte (joinWith [slashByte] parts)) |}).
  { unfold parsePath, IsAbs. by rewrite bytes_of_list. }
  unfold printPath. cbn [pt_rooted pt_parts]. fold text. rewrite E. f_equal. unfold cleanParts. cbn [foldl].
  change (cleanStep true [] []) with (@nil (list Ascii.ascii)). fold (cleanParts true (splitOn slashByte (joinWith [slashByte] parts))).
  destruct parts as [|q parts]; [done|]. rewrite splitOn_join by (done || by apply Forall_proper_slash). by apply cleanParts_names.
Qed.

Lemma parse_Clean path : IsAbs path = true -> parsePath (Clean path) = parsePath path.
Proof.
  intros Ha. pose proof (rooted_proper path Ha) as Hp. unfold Clean.
  assert (E : parsePath path = {| pt_rooted := true; pt_parts := pt_parts (parsePath path) |}) by (unfold parsePath at 1; rewrite Ha; unfold parsePath; by rewrite Ha).
  rewrite E. by apply parse_printPath.
Qed.

Lemma Clean_inj p q : IsAbs p = true -> IsAbs q = true -> Clean p = Clean q <-> pt_parts (parsePath p) = pt_parts (parsePath q).
Proof.
  intros Hp Hq. split; intros E.
  - by rewrite <-(parse_Clean p Hp), <-(parse_Clean q Hq), E.
  - unfold Clean, printPath. rewrite E. change (pt_rooted (parsePath p)) with (IsAbs p). change (pt_rooted (parsePath q)) with (IsAbs q). by rewrite Hp, Hq.
Qed.

(** ** Relative paths *)

Lemma relParts_spec base target :
  Forall properName base ->
  exists parts, relParts base target = Some parts /\
    (base `prefix_of` target -> target = base ++ parts) /\ (~ base `prefix_of` target -> exists rest, parts = dotdot :: rest).
Proof.
  intros Hb. revert target. induction Hb as [|x base Hx Hb IH]; intros target.
  - exists target. split_and!; [done|done|]. intros H. exfalso. apply H. apply prefix_nil.
  - destruct target as [|y target]; cbn [relParts].
    + eexists. split_and!; [done| |intros _; by eexists]. by intros ?%prefix_nil_not.
    + case_bool_decide as Hxy.
      * subst y. destruct (IH target) as (parts & -> & H1 & H2). exists parts. split_and!; [done| |].
        -- intros Hp%prefix_cons_inv_2. by rewrite (H1 Hp) at 1.
        -- intros Hn. apply H2. intros Hp. apply Hn. by apply prefix_cons.
      * destruct Hx as (_ & _ & Hx & _). rewrite bool_decide_eq_false_2 by done. eexists. split_and!; [done| |intros _; by eexists].
        intros Hp%prefix_cons_inv_1. done.
Qed.

Lemma prefix_slash_free part tail :
  slashByte ∉ part -> tail = [] \/ (exists k, tail = slashByte :: k) -> hasPrefixBytes (bytes "../") (part ++ tail) = true -> part = dotdot.
Proof.
  change (bytes "../") with [dotByte; dotByte; slashByte]. intros Hn Ht.
  destruct part as [|a [|b [|c part]]]; cbn [app hasPrefixBytes]; intros H.
  - destruct Ht as [->|[k ->]]; [done|]. by apply andb_prop in H as [H _].
  - destruct Ht as [->|[k ->]]; [by rewrite andb_false_r in H|]. apply andb_prop in H as [_ H]. by apply andb_prop in H as [H _].
  - apply andb_prop in H as [Ha H]. apply andb_prop in H as [Hb _]. apply Ascii.eqb_eq in Ha, Hb. by subst.
  - apply andb_prop in H as [_ H]. apply andb_prop in H as [_ H]. apply andb_prop in H as [Hc _]. apply Ascii.eqb_eq in Hc. subst c. exfalso. apply Hn. set_solver.
Qed.

Lemma escapes_join parts :
  Forall (fun part => slashByte ∉ part) parts ->
  escapes (String.string_of_list_ascii (joinWith [slashByte] parts)) = match parts with part :: _ => part == dotdot | [] => false end.
Proof.
  intros Hp. unfold escapes, HasPrefix. rewrite bytes_of_list. destruct Hp as [|part parts Hn Hp]; [done|].
  assert (E : exists tail, joinWith [slashByte] (part :: parts) = part ++ tail /\ (tail = [] \/ exists k, tail = slashByte :: k)).
  { destruct parts as [|q parts]; [exists []; by rewrite app_nil_r; auto|]. eexists. split; [done|]. right. by eexists. }
  destruct E as (tail & -> & Ht). case_bool_decide as Hd; cbn [orb].
  - symmetry. apply bool_decide_eq_true_2. apply (f_equal bytes) in Hd. rewrite bytes_of_list in Hd. change (bytes "..") with dotdot in Hd.
    destruct Ht as [->|[k ->]]; [by rewrite app_nil_r in Hd|]. exfalso.
    assert (Hs : slashByte ∈ dotdot) by (rewrite <-Hd; set_solver). unfold dotdot in Hs. by repeat (apply elem_of_cons in Hs as [Hs|Hs]; [done|]); apply elem_of_nil in Hs.
  - destruct (hasPrefixBytes _ _) eqn:H; [symmetry; apply bool_decide_eq_true_2; by eapply prefix_slash_free|].
    symmetry. apply bool_decide_eq_false_2. intros ->. destruct Ht as [->|[k ->]]; [|done]. by apply Hd.
Qed.

(** For absolute paths, [Rel] answers, and its answer leaves the base exactly when
    the base's names do not begin the target's. *)
Lemma Rel_confined base target :
  IsAbs base = true -> IsAbs target = true ->
  exists relative, Rel base target = Some relative /\
    (escapes relative = false <-> pt_parts (parsePath base) `prefix_of` pt_parts (parsePath target)) /\
    (relative = "." <-> pt_parts (parsePath base) = pt_parts (parsePath target)).
Proof.
  intros Hb Ht. unfold Rel. pose proof (rooted_proper _ Hb) as Pb. pose proof (rooted_proper _ Ht) as Pt.
  case_bool_decide as Hc; [apply Clean_inj in Hc; [|done..]|].
  { exists ".". split_and!; [done| |done]. split; intros _; [rewrite Hc; done|done]. }
  assert (Hne : pt_parts (parsePath base) <> pt_parts (parsePath target)) by (by intros E%Clean_inj).
  change (pt_rooted (parsePath base)) with (IsAbs base). change (pt_rooted (parsePath target)) with (IsAbs target). rewrite Hb, Ht. simpl.
  destruct (relParts_spec _ (pt_parts (parsePath target)) Pb) as (parts & E & H1 & H2). simpl in E, H1, H2, Pb, Pt. rewrite E. simpl.
  eexists. split; [done|]. destruct (decide (pt_parts (parsePath base) `prefix_of` pt_parts (parsePath target))) as [Hp|Hp]; simpl in *.
  - specialize (H1 Hp). rewrite H1 in Pt. apply Forall_app in Pt as [_ Pt]. rewrite escapes_join by (by apply Forall_proper_slash).
    destruct Pt as [|part rest Hpart Hrest]; [rewrite app_nil_r in H1; by rewrite H1 in Hne|]. split; [split; [done|]|].
    + intros _. destruct Hpart as (_ & _ & ? & _). by apply bool_decide_eq_false_2.
    + split; [|done]. intros Hd. exfalso. apply (f_equal bytes) in Hd. rewrite bytes_of_list in Hd.
      apply (f_equal (splitOn slashByte)) in Hd. rewrite splitOn_join in Hd; [|done|by apply Forall_proper_slash; constructor].
      change (splitOn slashByte (bytes ".")) with [[dotByte]] in Hd. destruct Hpart as (_ & Hpart & _). congruence.
  - destruct (H2 Hp) as (rest & ->). split; [split; [|done]|split; [|done]].
    + intros He%not_true_iff_false. exfalso. apply He. unfold escapes, HasPrefix. rewrite bytes_of_list.
      destruct rest; [done|]. apply orb_true_iff. by right.
    + intros Hd. exfalso. apply (f_equal bytes) in Hd. rewrite bytes_of_list in Hd. by destruct rest.
Qed.

Lemma relParts_app base rest : relParts base (base ++ rest) = Some rest.
Proof. induction base as [|x base IH]; cbn [app relParts]; [by destruct rest|]. by rewrite bool_decide_eq_true_2. Qed.

(** Below the base, [Rel] gives the names that follow. *)
Lemma Rel_below base target rest :
  IsAbs base = true -> IsAbs target = true -> pt_parts (parsePath target) = pt_parts (parsePath base) ++ rest -> rest <> [] ->
  Rel base target = Some (String.string_of_list_ascii (joinWith [slashByte] rest)).
Proof.
  intros Hb Ht E Hne. unfold Rel. rewrite bool_decide_eq_false_2.
  - change (pt_rooted (parsePath base)) with (IsAbs base). change (pt_rooted (parsePath target)) with (IsAbs target). rewrite Hb, Ht. cbn [Bool.eqb negb andb].
    by rewrite E, relParts_app.
  - intros Hc%Clean_inj; [|done..]. rewrite E in Hc. apply Hne. by apply (app_inv_head (pt_parts (parsePath base))); rewrite app_nil_r.
Qed.

Lemma Clean_rooted path : IsAbs path = true -> IsAbs (Clean path) = true.
Proof. intros H. unfold Clean, printPath. change (pt_rooted (parsePath path)) with (IsAbs path). rewrite H. unfold IsAbs. by rewrite bytes_of_list. Qed.

Lemma Join_rooted root elements : IsAbs root = true -> IsAbs (Join (root :: elements)) = true.
Proof.
  intros Hr. unfold Join. case_bool_decide as He; [by subst|]. apply Clean_rooted. unfold IsAbs in *. rewrite bytes_of_list.
  cbn [fmap list_fmap]. destruct (bytes root); [done|]. by destruct elements.
Qed.

(** ** Joined names *)

Lemma splitOn_app_sep sep a b : splitOn sep (a ++ sep :: b) = splitOn sep a ++ splitOn sep b.
Proof.
  induction a as [|c a IH]; cbn [app splitOn]; [by rewrite Ascii.eqb_refl|].
  destruct (Ascii.eqb c sep); [by rewrite IH|]. rewrite IH.
  destruct (splitOn sep a) as [|part parts] eqn:E; [|done]. by destruct a; simpl in E; repeat case_match.
Qed.

Lemma parsePath_rooted path : IsAbs path = true ->
  parsePath path = {| pt_rooted := true; pt_parts := reverse (foldl (cleanStep true) [] (splitOn slashByte (bytes path))) |}.
Proof. intros H. unfold parsePath, cleanParts. by rewrite H. Qed.

(** Names without a slash, joined below an absolute root. *)
Lemma Join_parts root names :
  IsAbs root = true -> Forall (fun name => slashByte ∉ bytes name) names ->
  parsePath (Join (root :: names)) =
  {| pt_rooted := true; pt_parts := reverse (foldl (cleanStep true) (reverse (pt_parts (parsePath root))) (bytes <$> names)) |}.
Proof.
  intros Hr Hn. unfold Join. rewrite bool_decide_eq_false_2 by (by intros ->).
  assert (Hs : forall l, splitOn slashByte (joinWith [slashByte] (l :: (bytes <$> names))) = splitOn slashByte l ++ (bytes <$> names)).
  { induction Hn as [|name names Hname Hn IH]; intros l; [by rewrite app_nil_r|].
    rewrite fmap_cons. change (joinWith [slashByte] (l :: bytes name :: (bytes <$> names))) with (l ++ slashByte :: joinWith [slashByte] (bytes name :: (bytes <$> names))).
    rewrite splitOn_app_sep, IH. by rewrite (splitOn_none _ _ Hname). }
  assert (Ha : IsAbs (String.string_of_list_ascii (joinWith [slashByte] (bytes root :: (bytes <$> names)))) = true).
  { unfold IsAbs in *. rewrite bytes_of_list. destruct (bytes root); [done|]. by destruct names. }
  rewrite fmap_cons, parse_Clean by done. rewrite parsePath_rooted by done. rewrite bytes_of_list, Hs, foldl_app.
  f_equal. f_equal. f_equal. rewrite (parsePath_rooted root Hr). simpl. by rewrite reverse_involutive.
Qed.

Lemma Join_proper root names :
  IsAbs root = true -> Forall (fun name => properName (bytes name)) names ->
  pt_parts (parsePath (Join (root :: names))) = pt_parts (parsePath root) ++ (bytes <$> names).
Proof.
  intros Hr Hn. rewrite Join_parts; [|done|eapply Forall_impl; [exact Hn|by intros name (_ & _ & _ & ?)]]. cbn [pt_parts].
  assert (H : forall stack, foldl (cleanStep true) stack (bytes <$> names) = reverse (bytes <$> names) ++ stack).
  { induction Hn as [|name names Hname Hn IH]; intros stack; [done|]. rewrite !fmap_cons. cbn [foldl]. rewrite cleanStep_name by done.
    rewrite IH, reverse_cons, <-app_assoc. done. }
  by rewrite H, reverse_app, !reverse_involutive.
Qed.

Lemma Clean_fixed path : IsAbs path = true -> Clean (Clean path) = Clean path.
Proof. intros H. unfold Clean at 1. by rewrite parse_Clean. Qed.

Lemma Join_clean root names : IsAbs root = true -> Join (root :: names) = printPath (parsePath (Join (root :: names))).
Proof.
  intros Hr. symmetry. change (Clean (Join (root :: names)) = Join (root :: names)). unfold Join.
  rewrite bool_decide_eq_false_2 by (by intros ->). apply Clean_fixed. unfold IsAbs in *. rewrite bytes_of_list, fmap_cons.
  destruct (bytes root); [done|]. by destruct names.
Qed.

Lemma dropWhileB_free f l c k : forallb (fun c => negb (f c)) l = true -> f c = true -> dropWhileB (fun c => negb (f c)) (l ++ c :: k) = c :: k.
Proof. intros Hl Hc. induction l as [|d l IH]; simpl in *; [by rewrite Hc|]. apply andb_prop in Hl as [-> Hl]. by apply IH. Qed.

Lemma joinWith_snoc parts name : parts <> [] -> joinWith [slashByte] (parts ++ [name]) = joinWith [slashByte] parts ++ slashByte :: name.
Proof.
  induction parts as [|part parts IH]; [done|]. intros _. destruct parts as [|q parts]; [done|].
  change (joinWith [slashByte] ((part :: q :: parts) ++ [name])) with (part ++ slashByte :: joinWith [slashByte] ((q :: parts) ++ [name])).
  rewrite IH by done. cbn [joinWith app]. by rewrite <-!app_assoc.
Qed.

(** The directory of an absolute path lacks the last name. *)
Lemma Dir_parts parts :
  Forall properName parts ->
  parsePath (Dir (printPath {| pt_rooted := true; pt_parts := parts |})) = {| pt_rooted := true; pt_parts := removelast parts |}.
Proof.
  intros Hp. unfold Dir, printPath at 1. cbn [pt_rooted pt_parts]. rewrite bytes_of_list.
  destruct parts as [|name front _] using rev_ind; [reflexivity|].
  apply Forall_app in Hp as [Hf Hn]. inversion Hn as [|? ? Hname _]; subst. rewrite removelast_last.
  set (dir := match front with [] => [] | _ => slashByte :: joinWith [slashByte] front end).
  assert (E : slashByte :: joinWith [slashByte] (front ++ [name]) = dir ++ slashByte :: name).
  { unfold dir. destruct front as [|q front]; [done|]. by rewrite joinWith_snoc. }
  rewrite E, reverse_app, reverse_cons, <-app_assoc. cbn [app].
  rewrite (dropWhileB_free slash).
  2:{ apply forallb_forall. intros c Hc%list_elem_of_In. rewrite elem_of_reverse in Hc. apply negb_true_iff. destruct (slash c) eqn:Hs; [|done].
      exfalso. destruct Hname as (_ & _ & _ & Hname). apply Hname. unfold slash, byte_is in Hs. apply N.eqb_eq in Hs.
      replace slashByte with c; [done|]. apply N_of_ascii_inj. by rewrite Hs. }
  2:{ done. }
  rewrite reverse_cons, reverse_involutive.
  assert (Ha : IsAbs (String.string_of_list_ascii (dir ++ [slashByte])) = true) by (unfold IsAbs; rewrite bytes_of_list; by destruct front).
  rewrite parse_Clean, parsePath_rooted by done. f_equal. rewrite bytes_of_list, splitOn_app_sep, foldl_app.
  cbn [foldl splitOn]. change (cleanStep true ?s []) with s. destruct front as [|q front]; [done|].
  pose proof (parse_printPath (q :: front) Hf) as H. unfold printPath in H. cbn [pt_rooted pt_parts] in H. fold dir in H.
  assert (Hd : IsAbs (String.string_of_list_ascii dir) = true) by (unfold IsAbs; by rewrite bytes_of_list).
  rewrite parsePath_rooted, bytes_of_list in H by done. by injection H.
Qed.

(** ** Keys below a root *)

Lemma joinWith_splitOn sep l : joinWith [sep] (splitOn sep l) = l.
Proof.
  induction l as [|c l IH]; [done|]. cbn [splitOn]. destruct (Ascii.eqb_spec c sep) as [->|Hc].
  - destruct (splitOn sep l) as [|part parts] eqn:E; [by destruct l; simpl in E; repeat case_match|]. cbn [joinWith app]. f_equal. exact IH.
  - destruct (splitOn sep l) as [|part parts] eqn:E; [by destruct l; simpl in E; repeat case_match|]. destruct parts; cbn [joinWith app] in *; by f_equal.
Qed.

Lemma splitOn_inj sep l k : splitOn sep l = splitOn sep k -> l = k.
Proof. intros E. by rewrite <-(joinWith_splitOn sep l), E, joinWith_splitOn. Qed.

Lemma Join_key root key :
  IsAbs root = true -> Forall properName (splitOn slashByte (bytes key)) ->
  parsePath (Join [root; key]) = {| pt_rooted := true; pt_parts := pt_parts (parsePath root) ++ splitOn slashByte (bytes key) |}.
Proof.
  intros Hr Hk. unfold Join. rewrite bool_decide_eq_false_2 by (by intros ->).
  assert (Ha : IsAbs (String.string_of_list_ascii (joinWith [slashByte] (bytes <$> [root; key]))) = true).
  { unfold IsAbs in *. rewrite bytes_of_list. cbn [fmap list_fmap joinWith]. by destruct (bytes root). }
  rewrite parse_Clean, parsePath_rooted by done. f_equal. rewrite bytes_of_list. cbn [fmap list_fmap joinWith app]. rewrite splitOn_app_sep, foldl_app.
  rewrite (parsePath_rooted root Hr). cbn [pt_parts]. generalize (foldl (cleanStep true) [] (splitOn slashByte (bytes root))). intros stack.
  assert (H : foldl (cleanStep true) stack (splitOn slashByte (bytes key)) = reverse (splitOn slashByte (bytes key)) ++ stack).
  { revert stack. induction Hk as [|part parts Hp Hk IH]; intros stack; [done|]. cbn [foldl]. rewrite cleanStep_name by done. rewrite IH, reverse_cons. by rewrite <-app_assoc. }
  by rewrite H, reverse_app, reverse_involutive.
Qed.

Lemma Join_key_inj root key key' :
  IsAbs root = true -> Forall properName (splitOn slashByte (bytes key)) -> Forall properName (splitOn slashByte (bytes key')) ->
  Join [root; key] = Join [root; key'] -> key = key'.
Proof.
  intros Hr Hk Hk' E%(f_equal parsePath). rewrite !Join_key in E by done. injection E as E. apply (inj (app _)) in E.
  by apply bytes_inj, (splitOn_inj slashByte).
Qed.

(** ** Names without slashes *)

Lemma forallb_not_elem (f : Ascii.ascii -> bool) l c : forallb f l = true -> f c = false -> c ∉ l.
Proof. intros Hf Hc Hin%list_elem_of_In. rewrite forallb_forall in Hf. by rewrite (Hf c Hin) in Hc. Qed.

Lemma Itoa_slash z : slashByte ∉ bytes (Itoa z).
Proof.
  assert (H : forall ds, forallb digit ds = true -> slashByte ∉ ds) by (intros ds Hd; by eapply forallb_not_elem).
  destruct (Itoa_digits z) as [[-> ->]|(sign & d & ds & -> & Hs & Hd & _ & Hds & _)]; [change (bytes "0") with [Ascii.ascii_of_nat 48]; set_solver|].
  assert (Hall : slashByte ∉ d :: ds) by (apply H; simpl; by rewrite Hd). rewrite elem_of_app. intros [Hin|Hin]; [|done].
  destruct Hs as [[-> _]|[-> _]]; [by apply not_elem_of_nil in Hin|]. by apply list_elem_of_singleton in Hin.
Qed.

Lemma hasPrefixBytes_spec p l : hasPrefixBytes p l = true <-> exists k, l = p ++ k.
Proof.
  revert l. induction p as [|a p IH]; intros l; cbn [hasPrefixBytes]; [split; [intros _; by exists l|done]|].
  destruct l as [|b l]; [split; [done|by intros [k ?]]|]. rewrite andb_true_iff, Ascii.eqb_eq, IH. split.
  - intros [-> [k ->]]. by exists k.
  - intros [k [= -> ->]]. split; [done|by exists k].
Qed.

Lemma Clean_names name : Forall properName (splitOn slashByte (bytes name)) -> IsAbs name = false /\ Clean name = name.
Proof.
  intros Hp. assert (Ha : IsAbs name = false).
  { unfold IsAbs. destruct (bytes name) as [|c l] eqn:E; [done|]. apply not_true_iff_false. intros Hc. cbn [splitOn] in Hp.
    assert (c = slashByte) as -> by (unfold slash, byte_is in Hc; apply N.eqb_eq in Hc; by apply N_of_ascii_inj; rewrite Hc).
    rewrite Ascii.eqb_refl in Hp. apply Forall_inv in Hp. by destruct Hp as [? _]. }
  split; [done|]. unfold Clean, parsePath, printPath. cbn [pt_rooted pt_parts]. rewrite Ha, cleanParts_names by done.
  assert (Hne : splitOn slashByte (bytes name) <> []) by (destruct (bytes name); simpl; repeat case_match; done).
  pose proof (joinWith_splitOn slashByte (bytes name)) as Hj. destruct (splitOn slashByte (bytes name)); [done|].
  rewrite Hj. apply of_list_bytes.
Qed.

Lemma Itoa_proper z : properName (bytes (Itoa z)).
Proof.
  assert (H : forall l, (exists c k, l = c :: k /\ (digit c = true \/ c = hyphenByte)) -> l <> [] /\ l <> [dotByte] /\ l <> dotdot).
  { intros l (c & k & -> & Hc). split_and!; [done|..]; intros [= -> _]; destruct Hc; done. }
  destruct (Itoa_start z []) as (c & k & E & Hc). rewrite app_nil_r in E.
  destruct (H (bytes (Itoa z))) as (H1 & H2 & H3); [by exists c, k|]. split_and!; [done..|apply Itoa_slash].
Qed.
