(* ===== verification/Url.v ===== *)
(** * URLs

    [url.Parse] of package [net/url]: the fragment, the scheme, the query, the
    authority with its user information, host and port, and the path with its
    escapes. A host that holds a bracketed IP literal is read by [package netip];
    it is the parameter [ipLiteral]. *)

From S2P Require Import Prelude JsonDecode.

Record URL := {
  url_Scheme : string;
  url_Opaque : string;
  url_User : option string;  (* the name of the user, if there is user information *)
  url_Host : string;
  url_Path : string;
}.

(** What [parseHost] answers for a host with a bracket in it. *)
Class IPLiterals := { ipLiteral : list Ascii.ascii -> option (list Ascii.ascii) }.

Definition upperAlpha (c : Ascii.ascii) : bool := byte_in 65 90 c.
Definition alnum (c : Ascii.ascii) : bool := lowerAlnum c || upperAlpha c.

(** [strings.Cut] at a byte, and at its last occurrence. *)
Fixpoint cutByte (f : Ascii.ascii -> bool) (l : list Ascii.ascii) : list Ascii.ascii * option (list Ascii.ascii) :=
  match l with
  | [] => ([], None)
  | c :: rest => if f c then ([], Some rest) else let '(before, after) := cutByte f rest in (c :: before, after)
  end.

Definition cutLast (f : Ascii.ascii -> bool) (l : list Ascii.ascii) : option (list Ascii.ascii * list Ascii.ascii) :=
  match cutByte f (reverse l) with
  | (after, Some before) => Some (reverse before, reverse after)
  | (_, None) => None
  end.

Definition percent (c : Ascii.ascii) : bool := byte_is 37 c.

(** Bytes a host may hold as they are. *)
Definition hostByte (c : Ascii.ascii) : bool :=
  byte_in 128 255 c || alnum c
  || existsb (fun n => byte_is n c) [33; 36; 38; 39; 40; 41; 42; 43; 44; 59; 61; 58; 91; 93; 60; 62; 34; 45; 95; 46; 126]%N.

(** [unescape]: in a host only bytes outside ASCII and the percent sign are escaped. *)
Fixpoint unescape (host : bool) (l : list Ascii.ascii) : option (list Ascii.ascii) :=
  match l with
  | [] => Some []
  | c :: rest =>
      if percent c then
        match rest with
        | a :: b :: rest =>
            match hexNibble a, hexNibble b with
            | Some x, Some y =>
                if host && (x <? 8) && negb ((x =? 2) && (y =? 5)) then None
                else cons (Ascii.ascii_of_N (Z.to_N (16 * x + y))) <$> unescape host rest
            | _, _ => None
            end
        | _ => None
        end
      else if host && negb (hostByte c) then None
      else cons c <$> unescape host rest
  end.

(** [getScheme]: letters, then also digits and [+-.], up to a colon; otherwise there
    is no scheme. [None] is a colon at the start. *)
Fixpoint schemeTail (l : list Ascii.ascii) : option (list Ascii.ascii * list Ascii.ascii) :=
  match l with
  | [] => None
  | c :: rest =>
      if alnum c || byte_is 43 c || hyphen c || dot c then
        match schemeTail rest with Some (scheme, rest) => Some (c :: scheme, rest) | None => None end
      else if colon c then Some ([], rest) else None
  end.

Definition getScheme (l : list Ascii.ascii) : option (list Ascii.ascii * list Ascii.ascii) :=
  match l with
  | [] => Some ([], l)
  | c :: _ =>
      if colon c then None
      else if lowerAlpha c || upperAlpha c then
        match schemeTail l with Some (scheme, rest) => Some (scheme, rest) | None => Some ([], l) end
      else Some ([], l)
  end.

Definition lowerByte (c : Ascii.ascii) : Ascii.ascii :=
  if upperAlpha c then Ascii.ascii_of_N (Ascii.N_of_ascii c + 32) else c.

Definition validUserinfo (l : list Ascii.ascii) : bool :=
  forallb (fun c => alnum c || existsb (fun n => byte_is n c) [45; 46; 95; 58; 126; 33; 36; 38; 39; 40; 41; 42; 43; 44; 59; 61; 37; 64]%N) l.

Section Parse.
Context {IL : IPLiterals}.

(** The port is digits; a second colon is refused, but for the two database schemes. *)
Definition parseHost (scheme host : list Ascii.ascii) : option (list Ascii.ascii) :=
  if existsb (byte_is 91) host then ipLiteral host
  else
    let port :=
      if (scheme == bytes "postgresql") || (scheme == bytes "postgres")
      then match cutLast colon host with Some (_, port) => Some port | None => None end
      else (cutByte colon host).2 in
    if match port with Some port => negb (forallb digit port) | None => false end then None
    else unescape true host.

Definition parseAuthority (scheme authority : list Ascii.ascii) : option (option (list Ascii.ascii) * list Ascii.ascii) :=
  match cutLast (byte_is 64) authority with
  | None => (fun host => (None, host)) <$> parseHost scheme authority
  | Some (userinfo, host) =>
      match parseHost scheme host with
      | None => None
      | Some host =>
          if negb (validUserinfo userinfo) then None
          else let '(username, password) := cutByte colon userinfo in
               match unescape false username, unescape false (default [] password) with
               | Some username, Some _ => Some (Some username, host)
               | _, _ => None
               end
      end
  end.

Definition parseRest (scheme rest : list Ascii.ascii) : option URL :=
  let text := String.string_of_list_ascii in
  let none : list Ascii.ascii := [] in
  let '(rest, _) := cutByte (byte_is 63) rest in
  if negb (hasPrefixBytes (bytes "/") rest) && (scheme != []) then
    Some {| url_Scheme := text scheme; url_Opaque := text rest; url_User := None; url_Host := EmptyString; url_Path := EmptyString |}
  else if negb (hasPrefixBytes (bytes "/") rest) && existsb colon (cutByte slash rest).1 then None
  else
    let authority :=
      if ((scheme != []) || negb (hasPrefixBytes (bytes "///") rest)) && hasPrefixBytes (bytes "//") rest then
        match cutByte slash (drop 2 rest) with
        | (authority, Some path) => (fun who => (who, slashByte :: path)) <$> parseAuthority scheme authority
        | (authority, None) => (fun who => (who, [])) <$> parseAuthority scheme authority
        end
      else Some ((None, none), rest) in
    match authority with
    | None => None
    | Some (user, host, path) =>
        match unescape false path with
        | None => None
        | Some path => Some {| url_Scheme := text scheme; url_Opaque := EmptyString; url_User := text <$> user; url_Host := text host;
                        url_Path := text path |}
        end
    end.

Definition ParseURL (raw : string) : option URL :=
  let '(l, fragment) := cutByte (byte_is 35) (bytes raw) in
  let url :=
    if existsb (fun c => byte_in 0 31 c || byte_is 127 c) l then None
    else if l == bytes "*" then
      Some {| url_Scheme := EmptyString; url_Opaque := EmptyString; url_User := None; url_Host := EmptyString;
              url_Path := "*" |}
    else match getScheme l with
         | None => None
         | Some (scheme, rest) => parseRest (lowerByte <$> scheme) rest
         end in
  match url, unescape false (default [] fragment) with
  | Some url, Some _ => Some url
  | _, _ => None
  end.

(** ** References of the form [scheme://host/path] *)

Definition plainByte (c : Ascii.ascii) : bool := lowerAlnum c || hyphen c || dot c || underscore c.

Lemma cutByte_none f l : forallb (fun c => negb (f c)) l = true -> cutByte f l = (l, None).
Proof. induction l as [|c l IH]; simpl; [done|]. intros [Hc Hl]%andb_prop. apply negb_true_iff in Hc. by rewrite Hc, IH. Qed.

Lemma cutByte_app f l c k : forallb (fun c => negb (f c)) l = true -> f c = true -> cutByte f (l ++ c :: k) = (l, Some k).
Proof. intros Hl Hc. induction l as [|d l IH]; simpl in *; [by rewrite Hc|]. apply andb_prop in Hl as [Hd Hl]. apply negb_true_iff in Hd. by rewrite Hd, IH. Qed.

Lemma plainByte_facts c : plainByte c = true ->
  percent c = false /\ hostByte c = true /\ slash c = false /\ colon c = false /\ byte_is 63 c = false /\ byte_is 35 c = false /\
  byte_is 64 c = false /\ byte_is 91 c = false /\ byte_in 0 31 c || byte_is 127 c = false.
Proof. destruct c as [[] [] [] [] [] [] [] []]; intros H; try discriminate H; split_and!; reflexivity. Qed.

Lemma plain_free (f : Ascii.ascii -> bool) l :
  (forall c, plainByte c = true -> f c = false) -> forallb plainByte l = true -> forallb (fun c => negb (f c)) l = true /\ existsb f l = false.
Proof.
  intros Hf. induction l as [|c l IH]; simpl; [done|]. intros [Hc Hl]%andb_prop. destruct (IH Hl) as [-> ->]. by rewrite (Hf c Hc).
Qed.

Lemma unescape_plain host l : forallb plainByte l = true -> unescape host l = Some l.
Proof.
  induction l as [|c l IH]; [done|]. cbn [forallb]. intros [Hc Hl]%andb_prop. cbn [unescape].
  destruct (plainByte_facts c Hc) as (-> & -> & _). rewrite andb_false_r, (IH Hl). done.
Qed.

Lemma forallb_reverse {A} (f : A -> bool) l : forallb f (reverse l) = forallb f l.
Proof. induction l as [|a l IH]; [done|]. rewrite reverse_cons, forallb_app, IH. simpl. rewrite andb_true_r. apply andb_comm. Qed.

Lemma parseAuthority_plain scheme host : forallb plainByte host = true -> parseAuthority scheme host = Some (None, host).
Proof.
  intros Hh. unfold parseAuthority, cutLast.
  rewrite cutByte_none by (rewrite forallb_reverse; apply plain_free; [apply plainByte_facts|done]).
  unfold parseHost, cutLast. destruct (plain_free (byte_is 91) host) as [_ ->]; [apply plainByte_facts|done|].
  destruct (plain_free colon host) as [Hc _]; [apply plainByte_facts|done|].
  rewrite !cutByte_none by (rewrite ?forallb_reverse; done). rewrite (unescape_plain true host Hh). by destruct (_ || _).
Qed.

(** A local reference [secret://host/key] is read as it is written. *)
Lemma ParseURL_secret host key :
  forallb plainByte (bytes host) = true -> forallb plainByte (bytes key) = true ->
  ParseURL ("secret://" +:+ host +:+ "/" +:+ key) =
  Some {| url_Scheme := "secret"; url_Opaque := EmptyString; url_User := None; url_Host := host; url_Path := "/" +:+ key |}.
Proof.
  intros Hh Hk. unfold ParseURL. rewrite !bytes_app.
  set (l := bytes "secret://" ++ bytes host ++ bytes "/" ++ bytes key).
  assert (Hfree : forall f, (forall c, plainByte c = true -> f c = false) -> forallb (fun c => negb (f c)) (bytes "secret://") = true ->
    f slashByte = false -> forallb (fun c => negb (f c)) l = true).
  { intros f Hf Hp Hs. unfold l. rewrite !forallb_app, Hp. change (bytes "/") with [slashByte]. cbn [forallb]. rewrite Hs.
    by rewrite (proj1 (plain_free f _ Hf Hh)), (proj1 (plain_free f _ Hf Hk)). }
  rewrite cutByte_none by (apply Hfree; [apply plainByte_facts|done..]).
  assert (Hctl : existsb (fun c => byte_in 0 31 c || byte_is 127 c) l = false).
  { apply not_true_iff_false. intros (c & Hc & E)%existsb_exists.
    assert (H : forallb (fun c => negb (byte_in 0 31 c || byte_is 127 c)) l = true) by (apply Hfree; [apply plainByte_facts|done..]).
    rewrite forallb_forall in H. specialize (H c Hc). by rewrite E in H. }
  rewrite Hctl. change (unescape false (default [] None)) with (Some (@nil Ascii.ascii)).
  assert (Hg : getScheme l = Some (bytes "secret", bytes "//" ++ bytes host ++ bytes "/" ++ bytes key)) by done.
  rewrite bool_decide_eq_false_2 by done. rewrite Hg. change (lowerByte <$> bytes "secret") with (bytes "secret").
  unfold parseRest. rewrite cutByte_none.
  2:{ assert (H : forallb (fun c => negb (byte_is 63 c)) l = true) by (apply Hfree; [apply plainByte_facts|done..]).
      unfold l in H. rewrite (forallb_app _ (bytes "secret://")) in H. apply andb_prop in H as [_ H]. by rewrite forallb_app, H. }
  cbn [hasPrefixBytes bytes String.list_ascii_of_string app Ascii.eqb Bool.eqb andb negb orb drop].
  rewrite (bool_decide_eq_false_2 (_ = [])) by done. cbn [negb orb andb].
  rewrite drop_0. rewrite (cutByte_app slash (bytes host)) by (done || (apply plain_free; [apply plainByte_facts|done])).
  rewrite parseAuthority_plain by done. cbn [fmap option_fmap option_map].
  cbn [unescape]. change (percent slashByte) with false. rewrite (unescape_plain false) by done. cbn [andb fmap option_fmap option_map].
  rewrite of_list_bytes. cbn [String.string_of_list_ascii]. by rewrite of_list_bytes.
Qed.
End Parse.
