(* ===== verification/RunnerTask.v ===== *)
(** * The runner's inputs

    agent-runner/internal/runner/config.go and task.go: the configuration the
    operator mounts, and the signed task the runner executes. Files are read through
    the operating system, a parameter; Ed25519 is a parameter too.

    [operator_config_accepted] says that the runner accepts the configuration the
    operator builds, with the fields of the resource; [signed_task_authentic] what a
    loaded task guarantees; [task_names_one_attempt] that one mounted task serves one
    attempt only. *)

From S2P Require Import Prelude JsonDecode Paths Url Events OpTypes Builder.

(** ** The environment *)

(** What [os.ReadFile] answers; [FileNotExist] is the error [os.IsNotExist] knows. *)
Inductive fileRead := FileContents (contents : list Ascii.ascii) | FileNotExist | FileFailure.

Class Files := { readFile : string -> fileRead }.

Class Ed25519 := { ed25519Verify : list Ascii.ascii -> list Ascii.ascii -> list Ascii.ascii -> bool }.

Definition PublicKeySize : nat := 32.

(** ** More of encoding/json and encoding/base64 *)

(** An array into a slice: an element is decoded over the one the slice holds there;
    what a slice keeps beyond its length is not seen. *)
Fixpoint intoElements {A} (into : A -> JSON -> option A) (zero : A) (old : list A) (vs : list JSON) : option (list A) :=
  match vs with
  | [] => Some []
  | v :: vs =>
      match into (default zero (head old)) v, intoElements into zero (tail old) vs with
      | Some a, Some rest => Some (a :: rest)
      | _, _ => None
      end
  end.

Definition intoSlice {A} (into : A -> JSON -> option A) (zero : A) (old : list A) (v : JSON) : option (list A) :=
  match v with JNull => Some [] | JArray vs => intoElements into zero old vs | _ => None end.

Definition intoStrings : list string -> JSON -> option (list string) := intoSlice intoString EmptyString.

(** An object into a map: the members are added to what the map holds. *)
Fixpoint intoMapMembers (members : list (list Ascii.ascii * JSON)) (m : gmap string string) : option (gmap string string) :=
  match members with
  | [] => Some m
  | (key, v) :: rest =>
      match intoString EmptyString v with
      | Some value => intoMapMembers rest (<[String.string_of_list_ascii key := value]> m)
      | None => None
      end
  end.

Definition intoStringMap (old : gmap string string) (v : JSON) : option (gmap string string) :=
  match v with JNull => Some ∅ | JObject members => intoMapMembers members old | _ => None end.

(** [json.NewDecoder(contents)] with [DisallowUnknownFields] and one [Decode]. *)
Definition decodeStrict {R} (names : list string) (store : string -> R -> JSON -> option R) (zero : R) (contents : list Ascii.ascii) : option R :=
  match decodeFirst contents with
  | Some (value, _) => intoRecord names store zero value
  | None => None
  end.

Definition sextet (c : Ascii.ascii) : option Z :=
  let n := Z.of_N (Ascii.N_of_ascii c) in
  if upperAlpha c then Some (n - 65)
  else if lowerAlpha c then Some (n - 71)
  else if digit c then Some (n + 4)
  else if byte_is 43 c then Some 62
  else if slash c then Some 63
  else None.

Definition octet (n : Z) : Ascii.ascii := Ascii.ascii_of_N (Z.to_N (n mod 256)).
Definition padding (c : Ascii.ascii) : bool := byte_is 61 c.

(** Groups of four characters; only the last one is padded. *)
Fixpoint decodeQuanta (l : list Ascii.ascii) : option (list Ascii.ascii) :=
  match l with
  | [] => Some []
  | a :: b :: c :: d :: rest =>
      match sextet a, sextet b with
      | Some a, Some b =>
          if padding c then if padding d && (rest == []) then Some [octet (4 * a + b / 16)] else None
          else match sextet c with
               | None => None
               | Some c =>
                   if padding d then if rest == [] then Some [octet (4 * a + b / 16); octet (16 * b + c / 4)] else None
                   else match sextet d with
                        | None => None
                        | Some d => app [octet (4 * a + b / 16); octet (16 * b + c / 4); octet (64 * c + d)] <$> decodeQuanta rest
                        end
               end
      | _, _ => None
      end
  | _ => None
  end.

(** [base64.StdEncoding.DecodeString], which skips line ends. *)
Definition decodeBase64 (l : list Ascii.ascii) : option (list Ascii.ascii) :=
  decodeQuanta (filter (fun c => ~ (byte_is 10 c || byte_is 13 c)) l).

(** ** config.go *)

Definition runtimeSchemaVersion : Z := 1.

Record RuntimeConfig := {
  rc_SchemaVersion : Z;
  rc_TenantID : string;
  rc_ProjectID : string;
  rc_RunID : string;
  rc_AttemptID : string;
  rc_Attempt : Z;
  rc_TaskRef : string;
  rc_TimeoutSeconds : Z;
  rc_ConfigurationRefs : list string;
  rc_SecretRefs : list string;
  rc_ArtifactDestinationRef : string;
}.

#[export] Instance RuntimeConfig_settable : Settable RuntimeConfig := fun r =>
  Build_RuntimeConfig (rc_SchemaVersion r) (rc_TenantID r) (rc_ProjectID r) (rc_RunID r) (rc_AttemptID r) (rc_Attempt r) (rc_TaskRef r)
    (rc_TimeoutSeconds r) (rc_ConfigurationRefs r) (rc_SecretRefs r) (rc_ArtifactDestinationRef r).

Definition noRuntimeConfig : RuntimeConfig :=
  {| rc_SchemaVersion := 0; rc_TenantID := EmptyString; rc_ProjectID := EmptyString; rc_RunID := EmptyString; rc_AttemptID := EmptyString;
     rc_Attempt := 0; rc_TaskRef := EmptyString; rc_TimeoutSeconds := 0; rc_ConfigurationRefs := []; rc_SecretRefs := [];
     rc_ArtifactDestinationRef := EmptyString |}.

Definition runtimeNames : list string :=
  ["schemaVersion"; "tenantId"; "projectId"; "runId"; "attemptId"; "attempt"; "taskRef"; "timeoutSeconds"; "configurationRefs"; "secretRefs";
   "artifactDestinationRef"].

Definition storeRuntime (name : string) (r : RuntimeConfig) (v : JSON) : option RuntimeConfig :=
  if name == "schemaVersion" then (fun x => r <| rc_SchemaVersion := x |>) <$> intoInt (rc_SchemaVersion r) v
  else if name == "tenantId" then (fun x => r <| rc_TenantID := x |>) <$> intoString (rc_TenantID r) v
  else if name == "projectId" then (fun x => r <| rc_ProjectID := x |>) <$> intoString (rc_ProjectID r) v
  else if name == "runId" then (fun x => r <| rc_RunID := x |>) <$> intoString (rc_RunID r) v
  else if name == "attemptId" then (fun x => r <| rc_AttemptID := x |>) <$> intoString (rc_AttemptID r) v
  else if name == "attempt" then (fun x => r <| rc_Attempt := x |>) <$> intoInt (rc_Attempt r) v
  else if name == "taskRef" then (fun x => r <| rc_TaskRef := x |>) <$> intoString (rc_TaskRef r) v
  else if name == "timeoutSeconds" then (fun x => r <| rc_TimeoutSeconds := x |>) <$> intoInt (rc_TimeoutSeconds r) v
  else if name == "configurationRefs" then (fun x => r <| rc_ConfigurationRefs := x |>) <$> intoStrings (rc_ConfigurationRefs r) v
  else if name == "secretRefs" then (fun x => r <| rc_SecretRefs := x |>) <$> intoStrings (rc_SecretRefs r) v
  else (fun x => r <| rc_ArtifactDestinationRef := x |>) <$> intoString (rc_ArtifactDestinationRef r) v.

(** [slices.IsSorted] and [slices.Compact] *)
Fixpoint isSorted (l : list string) : bool :=
  match l with
  | a :: (b :: _) as rest => negb (string_lt b a) && isSorted rest
  | _ => true
  end.

Fixpoint Compact (l : list string) : list string :=
  match l with
  | a :: ((b :: _) as rest) => if a == b then Compact rest else a :: Compact rest
  | _ => l
  end.

Definition plainReference (value : string) : bool := referenceNamePattern value && (Base value == value).

Definition validateReferences (references : list string) : res unit :=
  _ ← failIf (negb (isSorted references) || negb (length (Compact references) =? length references)%nat)
      (ErrPlain "references must be sorted and unique");
  checkAll (fun reference => failIf (negb (plainReference reference)) (ErrPlain "invalid reference")) references.

Definition validateRuntimeConfig (config : RuntimeConfig) : res unit :=
  _ ← failIf ((rc_SchemaVersion config != runtimeSchemaVersion) || (rc_TimeoutSeconds config <? 1) || (rc_Attempt config <? 1))
      (ErrPlain "runtime config has unsupported schema or bounds");
  _ ← checkAll (fun value => failIf (negb (plainReference value)) (ErrPlain "runtime config contains an invalid identity"))
      [rc_TenantID config; rc_ProjectID config; rc_RunID config; rc_AttemptID config; rc_ArtifactDestinationRef config];
  _ ← validateReferences (rc_ConfigurationRefs config);
  validateReferences (rc_SecretRefs config).

Section Inputs.
Context {FS : Files} {ED : Ed25519} {IL : IPLiterals}.

Definition LoadRuntimeConfig (path : string) : res RuntimeConfig :=
  _ ← failIf (path == EmptyString) (ErrPlain "AGENTFORGE_RUN_CONFIG is required");
  match readFile path with
  | FileContents contents =>
      match decodeStrict runtimeNames storeRuntime noRuntimeConfig contents with
      | None => Err (ErrPlain "decode runtime config")
      | Some config => _ ← validateRuntimeConfig config; Ok config
      end
  | _ => Err (ErrPlain "read runtime config")
  end.

(** ** task.go *)

Definition taskSchemaVersion : Z := 1.

Record TaskEnvelope := {
  tk_SchemaVersion : Z;
  tk_KeyID : string;
  tk_TenantID : string;
  tk_ProjectID : string;
  tk_RunID : string;
  tk_AttemptID : string;
  tk_Attempt : Z;
  tk_Template : string;
  tk_Tests : list (list string);
}.

#[local] Instance TaskEnvelope_settable : Settable TaskEnvelope := fun t =>
  Build_TaskEnvelope (tk_SchemaVersion t) (tk_KeyID t) (tk_TenantID t) (tk_ProjectID t) (tk_RunID t) (tk_AttemptID t) (tk_Attempt t)
    (tk_Template t) (tk_Tests t).

Definition noTask : TaskEnvelope :=
  {| tk_SchemaVersion := 0; tk_KeyID := EmptyString; tk_TenantID := EmptyString; tk_ProjectID := EmptyString; tk_RunID := EmptyString;
     tk_AttemptID := EmptyString; tk_Attempt := 0; tk_Template := EmptyString; tk_Tests := [] |}.

Definition taskNames : list string :=
  ["schemaVersion"; "keyId"; "tenantId"; "projectId"; "runId"; "attemptId"; "attempt"; "template"; "tests"].

Definition storeTask (name : string) (t : TaskEnvelope) (v : JSON) : option TaskEnvelope :=
  if name == "schemaVersion" then (fun x => t <| tk_SchemaVersion := x |>) <$> intoInt (tk_SchemaVersion t) v
  else if name == "keyId" then (fun x => t <| tk_KeyID := x |>) <$> intoString (tk_KeyID t) v
  else if name == "tenantId" then (fun x => t <| tk_TenantID := x |>) <$> intoString (tk_TenantID t) v
  else if name == "projectId" then (fun x => t <| tk_ProjectID := x |>) <$> intoString (tk_ProjectID t) v
  else if name == "runId" then (fun x => t <| tk_RunID := x |>) <$> intoString (tk_RunID t) v
  else if name == "attemptId" then (fun x => t <| tk_AttemptID := x |>) <$> intoString (tk_AttemptID t) v
  else if name == "attempt" then (fun x => t <| tk_Attempt := x |>) <$> intoInt (tk_Attempt t) v
  else if name == "template" then (fun x => t <| tk_Template := x |>) <$> intoString (tk_Template t) v
  else (fun x => t <| tk_Tests := x |>) <$> intoSlice intoStrings [] (tk_Tests t) v.

Definition storeBundle (name : string) (keys : gmap string string) (v : JSON) : option (gmap string string) := intoStringMap keys v.

Fixpoint trustLoop (references : list string) (root : string) (bundle : gmap string string) (found : bool) : res (gmap string string * bool) :=
  match references with
  | [] => Ok (bundle, found)
  | reference :: rest =>
      match readFile (Join [root; reference; "task-trust.json"]) with
      | FileNotExist => trustLoop rest root bundle found
      | FileFailure => Err (ErrPlain "read task trust bundle")
      | FileContents contents =>
          _ ← failIf found (ErrPlain "exactly one task trust bundle is required");
          match decodeStrict ["keys"] storeBundle bundle contents with
          | None => Err (ErrPlain "decode task trust bundle")
          | Some bundle => trustLoop rest root bundle true
          end
      end
  end.

Definition loadTrustBundle (references : list string) (root : string) : res (gmap string string) :=
  '(bundle, found) ← trustLoop references root ∅ false;
  _ ← failIf (negb found || (bundle == ∅)) (ErrPlain "exactly one task trust bundle is required");
  Ok bundle.

Definition Task_Validate (task : TaskEnvelope) (config : RuntimeConfig) : res unit :=
  _ ← failIf ((tk_SchemaVersion task != taskSchemaVersion) || (tk_KeyID task == EmptyString) || (tk_Template task != "python-basic")
              || (tk_Tests task == [])) (ErrPlain "task envelope is invalid");
  _ ← failIf ((tk_TenantID task != rc_TenantID config) || (tk_ProjectID task != rc_ProjectID config) || (tk_RunID task != rc_RunID config)
              || (tk_AttemptID task != rc_AttemptID config) || (tk_Attempt task != rc_Attempt config))
      (ErrPlain "task envelope identity does not match runtime config");
  checkAll (fun command : list string => failIf (command == []) (ErrPlain "task contains an empty test command")) (tk_Tests task).

Definition readOr (path : string) (e : error) : res (list Ascii.ascii) :=
  match readFile path with FileContents contents => Ok contents | _ => Err e end.

(** The mounted file a task reference names. *)
Definition taskPath (config : RuntimeConfig) (secretRoot : string) : res string :=
  match ParseURL (rc_TaskRef config) with
  | None => Err (ErrPlain "taskRef must use secret://<name>/<key>")
  | Some parsed =>
      _ ← failIf ((url_Scheme parsed != "secret") || (url_Host parsed == EmptyString) || (url_Path parsed == EmptyString))
          (ErrPlain "taskRef must use secret://<name>/<key>");
      let secretName := url_Host parsed in
      let key := Base (url_Path parsed) in
      _ ← failIf ((key == ".") || (key == "/") || (url_Path parsed != ("/" +:+ key)%string) || bool_decide (secretName ∉ rc_SecretRefs config)
                  || negb (referenceNamePattern secretName)) (ErrPlain "task reference is not an approved secret projection");
      let path := Join [secretRoot; secretName; key] in
      _ ← failIf (Dir path != Join [secretRoot; secretName]) (ErrPlain "task reference escapes secret mount");
      Ok path
  end.

Definition verifyTask (keyring : gmap string string) (task : TaskEnvelope) (body signatureText : list Ascii.ascii) : res unit :=
  match keyring !! tk_KeyID task with
  | None => Err (ErrPlain "task signing key is not trusted")
  | Some encoded =>
      match decodeBase64 (bytes encoded) with
      | None => Err (ErrPlain "task signing key is invalid")
      | Some publicKey =>
          _ ← failIf (negb (length publicKey =? PublicKeySize)%nat) (ErrPlain "task signing key is invalid");
          match decodeBase64 signatureText with
          | None => Err (ErrPlain "task signature is invalid")
          | Some signature => failIf (negb (ed25519Verify publicKey body signature)) (ErrPlain "task signature is invalid")
          end
      end
  end.

Definition LoadSignedTask (config : RuntimeConfig) (secretRoot configRoot : string) : res TaskEnvelope :=
  path ← taskPath config secretRoot;
  body ← readOr path (ErrPlain "read task envelope");
  signatureText ← readOr (path +:+ ".sig")%string (ErrPlain "read task signature");
  match decodeStrict taskNames storeTask noTask body with
  | None => Err (ErrPlain "decode task envelope")
  | Some task =>
      keyring ← loadTrustBundle (rc_ConfigurationRefs config) configRoot;
      _ ← verifyTask keyring task body signatureText;
      _ ← Task_Validate task config;
      Ok task
  end.

End Inputs.

(** ** Names *)

Lemma dnsGroup_nil : dnsGroup [] = false.
Proof. done. Qed.

Lemma byte_in_slash c : nameByte c = true -> c <> slashByte.
Proof. intros H ->. done. Qed.

(** A reference name is a proper file name. *)
Lemma referenceName_proper s : referenceNamePattern s = true -> properName (bytes s).
Proof.
  unfold referenceNamePattern. intros H. split_and!.
  - by intros E; rewrite E in H.
  - by intros E; rewrite E in H.
  - by intros E; rewrite E in H.
  - eapply forallb_not_elem; [by apply splitOn_bytes|done].
Qed.

Lemma takeWhileB_all f l : forallb f l = true -> takeWhileB f l = l.
Proof. induction l as [|c l IH]; simpl; [done|]. by intros [-> ->%IH]%andb_prop. Qed.

Lemma takeWhileB_holds f l : forallb f (takeWhileB f l) = true.
Proof. induction l as [|c l IH]; simpl; [done|]. destruct (f c) eqn:E; [by simpl; rewrite E|done]. Qed.

Lemma slash_free_forallb l : slashByte ∉ l <-> forallb (fun c => negb (slash c)) l = true.
Proof.
  rewrite forallb_forall. split.
  - intros Hn c Hc%list_elem_of_In. apply negb_true_iff. destruct (slash c) eqn:E; [|done]. exfalso. apply Hn.
    unfold slash, byte_is in E. apply N.eqb_eq in E. replace slashByte with c; [done|]. apply N_of_ascii_inj. by rewrite E.
  - intros H Hin%list_elem_of_In. by specialize (H _ Hin).
Qed.

Lemma Base_name s : bytes s <> [] -> slashByte ∉ bytes s -> Base s = s.
Proof.
  intros Hne Hs%slash_free_forallb. unfold Base. rewrite bool_decide_eq_false_2 by (by intros ->).
  assert (E : dropWhileB slash (reverse (bytes s)) = reverse (bytes s)).
  { rewrite <-forallb_reverse in Hs. destruct (reverse (bytes s)) as [|c l]; [done|]. simpl in *. apply andb_prop in Hs as [Hc _].
    apply negb_true_iff in Hc. by rewrite Hc. }
  rewrite E. destruct (reverse (bytes s)) eqn:Hr; [apply (f_equal reverse) in Hr; by rewrite reverse_involutive in Hr|].
  rewrite <-Hr, takeWhileB_all by (by rewrite forallb_reverse). by rewrite reverse_involutive, of_list_bytes.
Qed.

(** The base of a path is a name, or the slash. *)
Lemma Base_slash path : Base path <> "/" -> bytes (Base path) <> [] /\ slashByte ∉ bytes (Base path).
Proof.
  unfold Base. case_bool_decide; [intros _; split; [done|]; change (bytes ".") with [dotByte]; set_solver|].
  destruct (dropWhileB slash (reverse (bytes path))) as [|c l] eqn:E; [done|]. intros _.
  assert (Hc : slash c = false).
  { clear -E. revert E. induction (reverse (bytes path)) as [|d k IH]; simpl; [done|]. destruct (slash d) eqn:Hd; [done|]. by intros [= <- <-]. }
  rewrite bytes_of_list. split.
  - cbn [takeWhileB]. rewrite Hc. cbn [negb]. rewrite reverse_cons. by intros [_ ?]%app_nil.
  - apply slash_free_forallb. rewrite forallb_reverse. apply takeWhileB_holds.
Qed.

Lemma referenceName_plain s : referenceNamePattern s = true -> plainReference s = true.
Proof.
  intros H. unfold plainReference. rewrite H. destruct (referenceName_proper s H) as (Hne & _ & _ & Hs). rewrite (Base_name s Hne Hs). by apply bool_decide_eq_true_2.
Qed.

(** ** Sorted references *)

#[local] Instance refLe_total : Total refLe.
Proof. intros a b. unfold refLe. destruct (string_lt b a) eqn:E; [|by left]. right. destruct (string_lt a b) eqn:F; [|done].
  pose proof (string_lt_trans _ _ _ E F) as H. by rewrite string_lt_irrefl in H. Qed.

#[local] Instance refLe_trans : Transitive refLe.
Proof.
  intros a b c Hab Hbc. unfold refLe in *. destruct (string_lt c a) eqn:E; [|done].
  destruct (string_lt a b) eqn:F; [by rewrite (string_lt_trans _ _ _ E F) in Hbc|].
  assert (a = b) as -> by (by apply string_lt_total). by rewrite E in Hbc.
Qed.

Lemma isSorted_spec l : isSorted l = true <-> Sorted refLe l.
Proof.
  induction l as [|a l IH]; [split; [constructor|done]|]. destruct l as [|b l]; [split; [repeat constructor|done]|].
  change (isSorted (a :: b :: l)) with (negb (string_lt b a) && isSorted (b :: l)). rewrite andb_true_iff, negb_true_iff, IH. split.
  - intros [Ha Hs]. constructor; [done|]. by constructor.
  - intros H. inversion H as [|? ? Hs Hr]; subst. split; [by inversion Hr|done].
Qed.

Lemma Compact_nodup l : NoDup l -> Compact l = l.
Proof.
  induction 1 as [|a l Hn Hd IH]; [done|]. destruct l as [|b l]; [done|]. change (Compact (a :: b :: l)) with (if a == b then Compact (b :: l) else a :: Compact (b :: l)).
  rewrite bool_decide_eq_false_2 by set_solver. by rewrite IH.
Qed.

Lemma validateReferences_sorted references :
  NoDup references -> Forall (fun r => referenceNamePattern r = true) references -> validateReferences (sortedReferences references) = Ok tt.
Proof.
  intros Hd Hr. unfold validateReferences, sortedReferences. rewrite bind_failIf.
  rewrite (proj2 (isSorted_spec _)) by apply Sorted_merge_sort, _.
  rewrite Compact_nodup by (by rewrite (merge_sort_Permutation refLe)). rewrite Nat.eqb_refl. cbn [negb orb].
  apply checkAll_ok. rewrite (merge_sort_Permutation refLe). eapply Forall_impl; [exact Hr|]. intros r Hp. by rewrite (referenceName_plain r Hp).
Qed.

(** ** The operator's configuration *)

Lemma parseInt64_Itoa z : in_int64 z -> parseInt64 (bytes (Itoa z)) = Some z.
Proof.
  intros Hz. destruct (Itoa_digits z) as [[-> ->]|(sign & d & ds & -> & Hs & Hd & _ & Hds & Hv)]; [done|]. unfold in_int64 in Hz.
  assert (Hall : forallb digit (d :: ds) = true) by (simpl; by rewrite Hd). unfold parseInt64.
  destruct Hs as [[-> Hp]|[-> Hp]]; cbn [app].
  - rewrite (digit_not_hyphen d Hd), Hall, Hv. cbn [length Nat.leb andb]. rewrite Z.abs_eq by lia. by rewrite (proj2 (Z.leb_le _ _)), (proj2 (Z.ltb_lt _ _)) by lia.
  - change (hyphen hyphenByte) with true. cbv iota. rewrite Hall, Hv. cbn [length Nat.leb andb]. rewrite Z.abs_neq, Z.opp_involutive by lia.
    by rewrite (proj2 (Z.leb_le _ _)), (proj2 (Z.ltb_lt _ _)) by lia.
Qed.

Lemma intoString_text old s : intoString old (JText s) = Some s.
Proof. unfold intoString, JText. by rewrite of_list_bytes. Qed.

Lemma intoStrings_texts l : intoStrings [] (JArray (JText <$> l)) = Some l.
Proof.
  unfold intoStrings, intoSlice. induction l as [|s l IH]; [done|]. rewrite fmap_cons. cbn [intoElements head tail]. by rewrite intoString_text, IH.
Qed.

(** The configuration of the current attempt, as the resource has it. *)
Definition configOf (run : AgentRunResource) : RuntimeConfig :=
  let spec := kr_Spec run in
  {| rc_SchemaVersion := 1; rc_TenantID := sp_TenantID spec; rc_ProjectID := sp_ProjectID spec; rc_RunID := sp_RunID spec;
     rc_AttemptID := sp_AttemptID spec; rc_Attempt := CurrentAttempt run; rc_TaskRef := sp_TaskRef spec;
     rc_TimeoutSeconds := sp_TimeoutSeconds spec; rc_ConfigurationRefs := sortedReferences (sp_ConfigurationRefs spec);
     rc_SecretRefs := sortedReferences (sp_SecretRefs spec); rc_ArtifactDestinationRef := sp_ArtifactDestinationRef spec |}.

Lemma intoStruct_cons {R} names (store : string -> R -> JSON -> option R) name v rest r r' :
  fieldFor names (bytes name) = Some name -> store name r v = Some r' ->
  intoStruct names store ((bytes name, v) :: rest) r = intoStruct names store rest r'.
Proof. cbn [intoStruct]. by intros -> ->. Qed.

Lemma intoInt_number old z : in_int64 z -> intoInt old (JInt z) = Some z.
Proof. apply parseInt64_Itoa. Qed.

Lemma storeRuntime_text r v :
  storeRuntime "tenantId" r v = (fun x => r <| rc_TenantID := x |>) <$> intoString (rc_TenantID r) v /\
  storeRuntime "projectId" r v = (fun x => r <| rc_ProjectID := x |>) <$> intoString (rc_ProjectID r) v /\
  storeRuntime "runId" r v = (fun x => r <| rc_RunID := x |>) <$> intoString (rc_RunID r) v /\
  storeRuntime "attemptId" r v = (fun x => r <| rc_AttemptID := x |>) <$> intoString (rc_AttemptID r) v /\
  storeRuntime "taskRef" r v = (fun x => r <| rc_TaskRef := x |>) <$> intoString (rc_TaskRef r) v /\
  storeRuntime "artifactDestinationRef" r v = (fun x => r <| rc_ArtifactDestinationRef := x |>) <$> intoString (rc_ArtifactDestinationRef r) v.
Proof. split_and!; reflexivity. Qed.

Lemma storeRuntime_other r v :
  storeRuntime "schemaVersion" r v = (fun x => r <| rc_SchemaVersion := x |>) <$> intoInt (rc_SchemaVersion r) v /\
  storeRuntime "attempt" r v = (fun x => r <| rc_Attempt := x |>) <$> intoInt (rc_Attempt r) v /\
  storeRuntime "timeoutSeconds" r v = (fun x => r <| rc_TimeoutSeconds := x |>) <$> intoInt (rc_TimeoutSeconds r) v /\
  storeRuntime "configurationRefs" r v = (fun x => r <| rc_ConfigurationRefs := x |>) <$> intoStrings (rc_ConfigurationRefs r) v /\
  storeRuntime "secretRefs" r v = (fun x => r <| rc_SecretRefs := x |>) <$> intoStrings (rc_SecretRefs r) v.
Proof. split_and!; reflexivity. Qed.

(** The next member of an object into its field; the record is kept in normal form. *)
Ltac member name eqn decoded :=
  erewrite (intoStruct_cons _ _ name);
  [|reflexivity
   |etransitivity; [apply eqn|]; rewrite decoded by done; cbn [fmap option_fmap option_map];
    match goal with |- Some ?t = _ =>
      let t' := eval cbv beta iota delta [set noRuntimeConfig rc_SchemaVersion rc_TenantID rc_ProjectID rc_RunID rc_AttemptID rc_Attempt
        rc_TaskRef rc_TimeoutSeconds rc_ConfigurationRefs rc_SecretRefs rc_ArtifactDestinationRef] in t in
      change (Some t) with (Some t') end; reflexivity].

Lemma decode_runtimeConfig run :
  in_int64 (CurrentAttempt run) -> in_int64 (sp_TimeoutSeconds (kr_Spec run)) ->
  intoRecord runtimeNames storeRuntime noRuntimeConfig (runtimeConfig run) = Some (configOf run).
Proof.
  intros Ha Ht. unfold intoRecord, runtimeConfig.
  member "artifactDestinationRef" storeRuntime_text intoString_text.
  member "attempt" storeRuntime_other intoInt_number.
  member "attemptId" storeRuntime_text intoString_text.
  member "configurationRefs" storeRuntime_other intoStrings_texts.
  member "projectId" storeRuntime_text intoString_text.
  member "runId" storeRuntime_text intoString_text.
  member "schemaVersion" storeRuntime_other intoInt_number.
  member "secretRefs" storeRuntime_other intoStrings_texts.
  member "taskRef" storeRuntime_text intoString_text.
  member "tenantId" storeRuntime_text intoString_text.
  member "timeoutSeconds" storeRuntime_other intoInt_number.
  reflexivity.
Qed.

Lemma dnsGroup_intro l : forallb (fun c => lowerAlnum c || hyphen c) l = true ->
  match head l with Some c => lowerAlnum c | None => false end = true -> match last l with Some c => lowerAlnum c | None => false end = true ->
  dnsGroup l = true.
Proof.
  destruct l as [|c l]; [done|]. cbn [head forallb]. intros [_ Hl]%andb_prop Hc Hd. unfold dnsGroup. by rewrite Hc, Hl, Hd.
Qed.

(** An identifier is a reference name. *)
Lemma UUIDv7_reference value : UUIDv7 value = true -> referenceNamePattern value = true.
Proof.
  intros (a & b & c & d & e & E & Ha & Hb & Hc & Hd & He & Hx)%UUIDv7_groups. unfold referenceNamePattern. rewrite E.
  set (l := a ++ _). rewrite !forallb_app in Hx. apply andb_prop in Hx as [Hxa Hx]. apply andb_prop in Hx as [Hxb Hx].
  apply andb_prop in Hx as [Hxc Hx]. apply andb_prop in Hx as [Hxd Hxe].
  assert (Hm : forall k, forallb lowerHex k = true -> forallb (fun c => lowerAlnum c || hyphen c) k = true).
  { intros k. apply forallb_mono. intros x Hx. by rewrite (lowerHex_alnum x Hx). }
  assert (Hl : forallb (fun c => lowerAlnum c || hyphen c) l = true) by (unfold l; rewrite !forallb_app; by rewrite (Hm a), (Hm b), (Hm c), (Hm d), (Hm e)).
  rewrite splitOn_none by (eapply forallb_not_elem; [exact Hl|done]). cbn [forallb]. rewrite andb_true_r. apply dnsGroup_intro; [done| |].
  - unfold l. destruct a as [|x a]; [done|]. cbn [app head]. cbn [forallb] in Hxa. apply andb_prop in Hxa as [Hx _]. by apply lowerHex_alnum.
  - unfold l. rewrite !app_assoc, last_app. destruct e as [|x e _] using rev_ind; [done|]. rewrite last_snoc.
    rewrite forallb_app in Hxe. apply andb_prop in Hxe as [_ Hxe]. cbn [forallb] in Hxe. rewrite andb_true_r in Hxe. by apply lowerHex_alnum.
Qed.

Lemma name_ascii s : referenceNamePattern s = true -> utf8 (bytes s).
Proof.
  intros H%splitOn_bytes. apply utf8_of_ascii. revert H. apply forallb_mono. by intros [[] [] [] [] [] [] [] []].
Qed.

(** What the resource schema guarantees of the fields the runner reads. *)
Record schemaIdentity (run : AgentRunResource) : Prop := {
  si_ids : Forall (fun v => UUIDv7 v = true)
    [sp_TenantID (kr_Spec run); sp_ProjectID (kr_Spec run); sp_RunID (kr_Spec run); sp_AttemptID (kr_Spec run)];
  si_configuration : NoDup (sp_ConfigurationRefs (kr_Spec run));
  si_secrets : NoDup (sp_SecretRefs (kr_Spec run));
  si_task : utf8 (bytes (sp_TaskRef (kr_Spec run)));
}.

Section OperatorConfig.
Context {KV : K8sValidation} {SH : SHA256} {FS : Files}.

Lemma resolved_references b run context :
  resolve b run = Ok context ->
  Forall (fun r => referenceNamePattern r = true)
    (sp_ConfigurationRefs (kr_Spec run) ++ sp_SecretRefs (kr_Spec run) ++ [sp_ArtifactDestinationRef (kr_Spec run)]).
Proof. intros (_ & _ & _ & H & _)%resolve_ok. eapply Forall_impl; [exact H|]. by intros r [? _]%IsDNS1123Subdomain_documented. Qed.

Lemma encodable_texts l : Forall (fun s => utf8 (bytes s)) l -> encodable (JArray (JText <$> l)).
Proof. intros H. cbn [encodable]. apply (foldr_and encodable). apply Forall_fmap. exact H. Qed.

Lemma encodable_runtimeConfig b run context : resolve b run = Ok context -> schemaIdentity run -> encodable (runtimeConfig run).
Proof.
  intros Hr [Hids _ _ Htask]. apply resolved_references in Hr. apply Forall_app in Hr as [Hc Hr]. apply Forall_app in Hr as [Hs Hd].
  assert (Hn : forall l, Forall (fun r => referenceNamePattern r = true) l -> encodable (JArray (JText <$> sortedReferences l))).
  { intros l Hl. apply encodable_texts. unfold sortedReferences. rewrite (merge_sort_Permutation refLe). eapply Forall_impl; [exact Hl|]. exact name_ascii. }
  assert (Hi : Forall (fun v => utf8 (bytes v)) [sp_TenantID (kr_Spec run); sp_ProjectID (kr_Spec run); sp_RunID (kr_Spec run); sp_AttemptID (kr_Spec run)]).
  { eapply Forall_impl; [exact Hids|]. intros v Hv. by apply name_ascii, UUIDv7_reference. }
  rewrite !Forall_cons in Hi. destruct Hi as (Ht & Hp & Hrun & Ha & _). apply Forall_inv in Hd. apply name_ascii in Hd.
  apply Hn in Hc, Hs. unfold runtimeConfig. apply (foldr_and (fun m => utf8 m.1 /\ encodable m.2)).
  repeat (constructor; [split; [apply utf8_of_ascii; reflexivity|]; first [done|by eexists]|]). constructor.
Qed.

Lemma nesting_texts l : (nesting (JArray (JText <$> l)) <= 1)%nat.
Proof. cbn [nesting]. induction l as [|s l IH]; [done|]. rewrite fmap_cons. cbn [foldr]. change (nesting (JText s)) with 0%nat. lia. Qed.

Lemma nesting_runtimeConfig run : (nesting (runtimeConfig run) <= maxNestingDepth)%nat.
Proof.
  assert (H2 : (2 <= maxNestingDepth)%nat) by (apply Nat.leb_le; vm_compute; reflexivity). etransitivity; [|exact H2].
  pose proof (nesting_texts (sortedReferences (sp_ConfigurationRefs (kr_Spec run)))) as H3.
  pose proof (nesting_texts (sortedReferences (sp_SecretRefs (kr_Spec run)))) as H4.
  unfold runtimeConfig. cbn [nesting foldr snd JInt JText] in *. lia.
Qed.

Lemma validate_configOf b run context : resolve b run = Ok context -> schemaIdentity run -> validateRuntimeConfig (configOf run) = Ok tt.
Proof.
  intros Hr [Hids Hnc Hns _]. pose proof (resolved_references _ _ _ Hr) as Href. apply Forall_app in Href as [Hc Href]. apply Forall_app in Href as [Hs Hd].
  apply resolve_ok in Hr as (_ & (_ & Ha & _)%ForAgentRun_ok & Ht & _). unfold validateRuntimeConfig. rewrite bind_failIf. cbn [configOf rc_SchemaVersion rc_TimeoutSeconds rc_Attempt].
  replace ((1 != runtimeSchemaVersion) || (sp_TimeoutSeconds (kr_Spec run) <? 1) || (CurrentAttempt run <? 1)) with false.
  2:{ rewrite (proj2 (Z.ltb_ge _ _)), (proj2 (Z.ltb_ge _ _)) by lia. done. }
  assert (Hall : checkAll (fun value => failIf (negb (plainReference value)) (ErrPlain "runtime config contains an invalid identity"))
    [rc_TenantID (configOf run); rc_ProjectID (configOf run); rc_RunID (configOf run); rc_AttemptID (configOf run); rc_ArtifactDestinationRef (configOf run)] = Ok tt).
  { apply checkAll_ok. assert (H : Forall (fun v => referenceNamePattern v = true) ([sp_TenantID (kr_Spec run); sp_ProjectID (kr_Spec run); sp_RunID (kr_Spec run); sp_AttemptID (kr_Spec run)] ++ [sp_ArtifactDestinationRef (kr_Spec run)])).
    { apply Forall_app. split; [|done]. eapply Forall_impl; [exact Hids|]. exact UUIDv7_reference. }
    eapply Forall_impl; [exact H|]. intros v Hv. by rewrite (referenceName_plain v Hv). }
  rewrite Hall. cbn [mbind res_bind]. cbn [configOf rc_ConfigurationRefs rc_SecretRefs].
  rewrite !validateReferences_sorted by done. done.
Qed.

(** C24: The runner accepts the configuration the operator mounts. For a run the
    builder resolves and whose identity satisfies the resource schema, reading the
    ConfigMap's document gives the configuration of the current attempt, field by
    field: encoding by the operator and strict decoding by the runner are inverse. *)
Theorem operator_config_accepted b run context path text :
  resolve b run = Ok context -> schemaIdentity run ->
  cm_Data (buildConfigMap context) !! "config.json" = Some text ->
  path <> EmptyString -> readFile path = FileContents (bytes text) ->
  LoadRuntimeConfig path = Ok (configOf run).
Proof.
  intros Hr Hi Ht Hp Hf. pose proof (resolve_ok _ _ _ Hr) as (Hrun & (_ & Ha & _)%ForAgentRun_ok & Htime & _).
  unfold LoadRuntimeConfig. rewrite bind_failIf, bool_decide_eq_false_2, Hf by done.
  unfold buildConfigMap in Ht. cbn [cm_Data] in Ht. rewrite lookup_singleton_eq in Ht. apply (inj Some) in Ht. subst text. rewrite bytes_of_list, Hrun. unfold decodeStrict.
  rewrite decodeFirst_print by (eapply encodable_runtimeConfig || apply nesting_runtimeConfig; done).
  rewrite decode_runtimeConfig by (unfold in_int64; lia). by rewrite (validate_configOf b run context).
Qed.
End OperatorConfig.

(** ** Signed tasks *)

Section SignedTask.
Context {FS : Files} {ED : Ed25519} {IL : IPLiterals}.

Lemma parent_rejected root name :
  IsAbs root = true -> properName (bytes name) -> Dir (Join [root; name; ".."]) <> Join [root; name].
Proof.
  intros Hr Hn Hd. apply (f_equal parsePath) in Hd. pose proof (rooted_proper root Hr) as Hp.
  assert (E : parsePath (Join [root; name; ".."]) = {| pt_rooted := true; pt_parts := pt_parts (parsePath root) |}).
  { rewrite Join_parts; [|done|]. 2:{ repeat constructor; [by destruct Hn as (_ & _ & _ & ?)|change (bytes "..") with dotdot; unfold dotdot; set_solver]. }
    f_equal. cbn [fmap list_fmap foldl]. rewrite (cleanStep_name true _ (bytes name)) by done. change (bytes "..") with dotdot. unfold cleanStep.
    change ((dotdot == []) || (dotdot == [dotByte])) with false. change (dotdot == dotdot) with true. cbv iota.
    destruct Hn as (_ & _ & Hdd & _). rewrite bool_decide_eq_false_2 by done. apply reverse_involutive. }
  rewrite (Join_clean root [name; ".."] Hr), E, Dir_parts in Hd by done. apply (f_equal pt_parts) in Hd.
  rewrite Join_proper in Hd by (done || (repeat (apply Forall_cons_2; [done|]); apply Forall_nil_2)). cbn [pt_parts fmap list_fmap] in Hd.
  apply (f_equal length) in Hd. rewrite length_app in Hd. cbn [length] in Hd.
  destruct (pt_parts (parsePath root)) as [|x l _] using rev_ind; [done|]. rewrite removelast_last, length_app in Hd. simpl in Hd. lia.
Qed.

(** Where an accepted task reference points: a key of an approved secret. *)
Lemma taskPath_ok config root path :
  IsAbs root = true -> taskPath config root = Ok path ->
  exists name key, path = Join [root; name; key] /\ name ∈ rc_SecretRefs config /\ properName (bytes name) /\ properName (bytes key) /\
    pt_parts (parsePath path) = pt_parts (parsePath root) ++ [bytes name; bytes key].
Proof.
  intros Hr. unfold taskPath. destruct (ParseURL _) as [parsed|]; [|done]. rewrite bind_failIf. destruct (_ || _) eqn:H1; [done|].
  rewrite bind_failIf. destruct (_ || negb (referenceNamePattern _)) eqn:H2; [done|]. rewrite bind_failIf.
  destruct (decide (Dir (Join [root; url_Host parsed; Base (url_Path parsed)]) = Join [root; url_Host parsed])) as [Hd|Hd];
    [rewrite bool_decide_eq_true_2 by done|by rewrite (bool_decide_eq_false_2 _ Hd)]. cbn [negb]. intros E%Ok_inj. subst path. reflect_bools. exists (url_Host parsed), (Base (url_Path parsed)).
  pose proof (referenceName_proper (url_Host parsed) ltac:(done)) as Hn. destruct (Base_slash (url_Path parsed)) as [Hne Hs]; [done|].
  assert (Hk : properName (bytes (Base (url_Path parsed)))).
  { split_and!; [done| | |done].
    - change [dotByte] with (bytes "."). by intros ?%bytes_inj.
    - change dotdot with (bytes ".."). intros E%bytes_inj. rewrite E in Hd. revert Hd. by apply parent_rejected. }
  split_and!; [done| |done|done|].
  - match goal with H : ¬ (_ ∉ _) |- _ => by apply dec_stable in H end.
  - by rewrite Join_proper by (done || (repeat (apply Forall_cons_2; [done|]); apply Forall_nil_2)).
Qed.

Lemma trustLoop_found references root bundle keys found :
  trustLoop references root bundle true = Ok (keys, found) ->
  keys = bundle /\ Forall (fun r => readFile (Join [root; r; "task-trust.json"]) = FileNotExist) references.
Proof.
  induction references as [|r references IH]; cbn [trustLoop]; [by intros [= <- <-]%Ok_inj|].
  destruct (readFile _) eqn:E; [done| |done]. intros [-> Hf]%IH. by split; [|constructor].
Qed.

(** The one document of the mounted configuration that names the trusted keys. *)
Record trustDocument (references : list string) (root : string) (keys : gmap string string) : Prop := {
  td_split : exists before r after contents, references = before ++ r :: after /\
    readFile (Join [root; r; "task-trust.json"]) = FileContents contents /\ decodeStrict ["keys"] storeBundle ∅ contents = Some keys /\
    Forall (fun r => readFile (Join [root; r; "task-trust.json"]) = FileNotExist) (before ++ after);
}.

Lemma loadTrustBundle_ok references root keys : loadTrustBundle references root = Ok keys -> trustDocument references root keys.
Proof.
  unfold loadTrustBundle. intros H. apply bind_ok in H as ([bundle found] & Hl & H). apply bind_ok in H as ([] & Hg%failIf_ok & H%Ok_inj).
  subst bundle. apply orb_false_iff in Hg as [Hfound%negb_false_iff _]. subst found. constructor.
  induction references as [|r references IH]; cbn [trustLoop] in Hl; [by apply Ok_inj in Hl|]. destruct (readFile _) as [contents| |] eqn:E; [| |done].
  - rewrite bind_failIf in Hl. destruct (decodeStrict _ _ _ _) as [bundle|] eqn:Hd; [|done]. apply trustLoop_found in Hl as [-> Hf].
    exists [], r, references, contents. by split_and!.
  - destruct (IH Hl) as (before & r' & after & contents & -> & H1 & H2 & H3). exists (r :: before), r', after, contents. split_and!; [done..|].
    by constructor.
Qed.

(** A task as the runner may execute it for a configuration: decoded from a file of
    an approved secret, signed with a key the configuration trusts, and naming this
    run and attempt. *)
Record authenticTask (config : RuntimeConfig) (secretRoot configRoot : string) (task : TaskEnvelope) : Prop := {
  at_file : exists name key body signatureText encoded publicKey signature keys,
    name ∈ rc_SecretRefs config /\ properName (bytes key) /\
    pt_parts (parsePath (Join [secretRoot; name; key])) = pt_parts (parsePath secretRoot) ++ [bytes name; bytes key] /\
    readFile (Join [secretRoot; name; key]) = FileContents body /\
    readFile (Join [secretRoot; name; key] +:+ ".sig") = FileContents signatureText /\
    decodeStrict taskNames storeTask noTask body = Some task /\
    trustDocument (rc_ConfigurationRefs config) configRoot keys /\ keys !! tk_KeyID task = Some encoded /\
    decodeBase64 (bytes encoded) = Some publicKey /\ length publicKey = PublicKeySize /\ decodeBase64 signatureText = Some signature /\
    ed25519Verify publicKey body signature = true;
  at_identity : tk_TenantID task = rc_TenantID config /\ tk_ProjectID task = rc_ProjectID config /\ tk_RunID task = rc_RunID config /\
    tk_AttemptID task = rc_AttemptID config /\ tk_Attempt task = rc_Attempt config;
  at_shape : tk_SchemaVersion task = 1 /\ tk_Template task = "python-basic" /\ tk_Tests task <> [] /\ Forall (fun command => command <> []) (tk_Tests task);
}.

Lemma verifyTask_ok keyring task body signatureText :
  verifyTask keyring task body signatureText = Ok tt ->
  exists encoded publicKey signature, keyring !! tk_KeyID task = Some encoded /\ decodeBase64 (bytes encoded) = Some publicKey /\
    length publicKey = PublicKeySize /\ decodeBase64 signatureText = Some signature /\ ed25519Verify publicKey body signature = true.
Proof.
  unfold verifyTask. destruct (_ !! _) as [encoded|]; [|done]. destruct (decodeBase64 (bytes encoded)) as [publicKey|] eqn:Hk; [|done].
  rewrite bind_failIf. destruct (length publicKey =? PublicKeySize)%nat eqn:Hl; [|done]. cbn [negb]. destruct (decodeBase64 signatureText) as [signature|]; [|done].
  intros Hv%failIf_ok%negb_false_iff. exists encoded, publicKey, signature. split_and!; [done..|by apply Nat.eqb_eq|done|done].
Qed.

Lemma Task_Validate_ok task config :
  Task_Validate task config = Ok tt ->
  (tk_TenantID task = rc_TenantID config /\ tk_ProjectID task = rc_ProjectID config /\ tk_RunID task = rc_RunID config /\
   tk_AttemptID task = rc_AttemptID config /\ tk_Attempt task = rc_Attempt config) /\
  tk_SchemaVersion task = 1 /\ tk_Template task = "python-basic" /\ tk_Tests task <> [] /\ Forall (fun command => command <> []) (tk_Tests task).
Proof.
  unfold Task_Validate. intros H. apply bind_ok in H as ([] & H1%failIf_ok & H). apply bind_ok in H as ([] & H2%failIf_ok & Ht%checkAll_ok). reflect_bools. split_and!; try done. eapply Forall_impl; [exact Ht|]. intros command Hc%failIf_ok. by apply bool_decide_eq_false in Hc.
Qed.

Lemma readOr_ok path e contents : readOr path e = Ok contents <-> readFile path = FileContents contents.
Proof. unfold readOr. destruct (readFile path); split; [intros ->%Ok_inj|intros [= ->]|..]; done. Qed.

Lemma LoadSignedTask_authentic config secretRoot configRoot task :
  IsAbs secretRoot = true -> LoadSignedTask config secretRoot configRoot = Ok task -> authenticTask config secretRoot configRoot task.
Proof.
  intros Hr. unfold LoadSignedTask. intros H. apply bind_ok in H as (path & Hp & H). apply bind_ok in H as (body & Hb%readOr_ok & H).
  apply bind_ok in H as (signatureText & Hs%readOr_ok & H). destruct (decodeStrict _ _ _ _) as [t|] eqn:Hd; [|done].
  apply bind_ok in H as (keyring & Hk%loadTrustBundle_ok & H). apply bind_ok in H as ([] & Hv%verifyTask_ok & H). apply bind_ok in H as ([] & Hval%Task_Validate_ok & H%Ok_inj).
  subst t. apply taskPath_ok in Hp as (name & key & -> & Hn & _ & Hkey & Hparts); [|done]. destruct Hv as (encoded & publicKey & signature & ? & ? & ? & ? & ?).
  destruct Hval as [Hid Hshape]. constructor; [|done|done]. exists name, key, body, signatureText, encoded, publicKey, signature, keyring. by split_and!.
Qed.

(** C25: The runner executes authentic tasks only. Whatever the files hold, a task that
    loads was read from one key of a secret the configuration approves, the file lying
    directly in that secret's mount; its exact bytes verify under a key named by the
    one trust document of the mounted configuration; and it names the tenant, project,
    run and attempt of the configuration. *)
Theorem signed_task_authentic config secretRoot configRoot task :
  IsAbs secretRoot = true -> LoadSignedTask config secretRoot configRoot = Ok task -> authenticTask config secretRoot configRoot task.
Proof. apply LoadSignedTask_authentic. Qed.

(** One mounted task serves one attempt only. When the task of a run's current
    attempt loads, the operator's retry of the same resource, whose configuration
    differs in the attempt's number alone, is refused while the mounted files stay
    the same: the signed task still names the earlier attempt. *)
Theorem retry_rejected_by_runner run retry secretRoot configRoot task :
  kr_Spec retry = kr_Spec run -> CurrentAttempt retry <> CurrentAttempt run ->
  LoadSignedTask (configOf run) secretRoot configRoot = Ok task ->
  LoadSignedTask (configOf retry) secretRoot configRoot = Err (ErrPlain "task envelope identity does not match runtime config").
Proof.
  intros Hspec Ha. unfold LoadSignedTask.
  assert (E : taskPath (configOf retry) secretRoot = taskPath (configOf run) secretRoot) by (unfold taskPath, configOf; cbn [rc_TaskRef rc_SecretRefs]; by rewrite Hspec).
  assert (Ec : rc_ConfigurationRefs (configOf retry) = rc_ConfigurationRefs (configOf run)) by (unfold configOf; cbn [rc_ConfigurationRefs]; by rewrite Hspec).
  rewrite E, Ec. intros H. apply bind_ok in H as (path & -> & H). rewrite bind_Ok. apply bind_ok in H as (body & -> & H). rewrite bind_Ok.
  apply bind_ok in H as (sig & -> & H). rewrite bind_Ok. destruct (decodeStrict _ _ _ _) as [t|]; [|done].
  apply bind_ok in H as (keys & -> & H). rewrite bind_Ok. apply bind_ok in H as ([] & -> & H). rewrite bind_Ok. apply bind_ok in H as ([] & Hv & _).
  pose proof (Task_Validate_ok _ _ Hv) as [(_ & _ & _ & _ & Hat) _].
  unfold Task_Validate in *. apply bind_ok in Hv as ([] & Hg%failIf_ok & _). rewrite !bind_failIf, Hg.
  assert (Hne : tk_Attempt t <> rc_Attempt (configOf retry)) by (rewrite Hat; cbn [configOf rc_Attempt]; congruence).
  rewrite (bool_decide_eq_false_2 _ Hne). cbn [negb]. by rewrite orb_true_r.
Qed.
End SignedTask.
