(* ===== verification/RunnerExec.v ===== *)
(** * Commands, redaction and the trajectory of the runner

    agent-runner/internal/runner/executor.go, redact.go and trajectory.go. The
    operating system is a parameter: how paths resolve, what directories hold, and
    what a started process writes and how it ends.

    [executor_confines] says that a process is started only for an allowed command
    inside the workspace with the minimal environment; [command_output_bounded] what
    of its output is kept; [redaction_hides_secrets] that no secret survives
    redaction; [trajectory_numbered] that the records of a trajectory are numbered
    without gaps. *)

From S2P Require Import Prelude Json JsonDecode Rfc3339 Paths Url OpTypes Builder RunnerTask.

(** ** The operating system *)

Record DirEntry := {
  de_Name : string;
  de_IsDir : bool;
  de_IsSymlink : bool;
}.

Class FileTree := {
  evalSymlinks : string -> option string;
  readDir : string -> option (list DirEntry);
  statIsDir : string -> option bool;          (* [os.Stat], links followed *)
  lstat : string -> option (bool * bool);     (* [os.Lstat]: a directory, a symbolic link *)
  getwd : option string;
}.

(** Errors the runner's callers tell apart. *)
Inductive ContextError := DeadlineExceeded | ContextCanceled.

Inductive RunError := ErrCommandPolicy (msg : string) | ErrOutputLimit | ErrContext (e : ContextError) | ErrOther (msg : string).

#[export] Instance ContextError_eq_dec : EqDecision ContextError.
Proof. solve_decision. Defined.

#[export] Instance RunError_eq_dec : EqDecision RunError.
Proof. solve_decision. Defined.

(** ** executor.go: bounded output *)

Definition maximumCommandOutput : Z := 64 * 1024.

Record boundedBuffer := {
  bb_bytes : list Ascii.ascii;
  bb_limit : Z;
  bb_exceeded : bool;
}.

(** [Write]: the buffer, the count it reports, and whether it reports the limit. *)
Definition Buffer_Write (buffer : boundedBuffer) (value : list Ascii.ascii) : boundedBuffer * Z * bool :=
  let remaining := bb_limit buffer - Z.of_nat (length (bb_bytes buffer)) in
  let size := Z.of_nat (length value) in
  let over bytes := ({| bb_bytes := bytes; bb_limit := bb_limit buffer; bb_exceeded := true |}, size, true) in
  if 0 <? remaining then
    if remaining <? size then over (bb_bytes buffer ++ take (Z.to_nat remaining) value)
    else ({| bb_bytes := bb_bytes buffer ++ value; bb_limit := bb_limit buffer; bb_exceeded := bb_exceeded buffer |}, size, false)
  else if remaining <? size then over (bb_bytes buffer)
  else (buffer, size, false).

Definition emptyBuffer (limit : Z) : boundedBuffer := {| bb_bytes := []; bb_limit := limit; bb_exceeded := false |}.

Definition writeAll (buffer : boundedBuffer) (values : list (list Ascii.ascii)) : boundedBuffer :=
  foldl (fun buffer value => (Buffer_Write buffer value).1.1) buffer values.

(** ** executor.go: commands *)

Record CommandResult := {
  cr_Arguments : list string;
  cr_ExitCode : Z;
  cr_Stdout : list Ascii.ascii;
  cr_Stderr : list Ascii.ascii;
}.

Record Executor := {
  ex_Workspace : string;
  ex_AllowedExecutables : list string;
  ex_OutputLimit : Z;
}.

(** The command handed to [exec.Command]. *)
Record Command := {
  cd_Arguments : list string;
  cd_Dir : string;
  cd_Env : list string;
}.

(** How [command.Wait] answers. *)
Inductive waitResult := WaitOk | WaitExit (code : Z) | WaitFailure.

(** Which case of the select is taken first. *)
Inductive selected := SelectedWait | SelectedContext (e : ContextError) | SelectedLimit.

(** A started process: the writes to its two outputs in order, the first case of the
    select, and its end. *)
Record StartedProcess := {
  ps_Stdout : list (list Ascii.ascii);
  ps_Stderr : list (list Ascii.ascii);
  ps_Selected : selected;
  ps_Wait : waitResult;
}.

Definition containsUnsafeArgument (arguments : list string) : bool :=
  existsb (fun argument => (argument == EmptyString) || existsb (byte_is 0) (bytes argument)) arguments.

Definition validateEnvironment (environment : gmap string string) : option RunError :=
  if existsb (fun '(key, value) => (key != "PYTHONHASHSEED") && (key != "PYTHONDONTWRITEBYTECODE") || (128 <? len value)
                                   || existsb (byte_is 0) (bytes value)) (map_to_list environment)
  then Some (ErrCommandPolicy "environment value is not allowed") else None.

(** Keys in byte order. *)
Definition entryLe (a b : string * string) : Prop := refLe a.1 b.1.
#[export] Instance entryLe_dec a b : Decision (entryLe a b) := refLe_dec a.1 b.1.

Definition minimalEnvironment (environment : gmap string string) : list string :=
  ["HOME=/home/agent"; "PATH=/usr/local/bin:/usr/bin:/bin"; "TMPDIR=/tmp"; "LANG=C.UTF-8"]
    ++ ((fun '(key, value) => key +:+ "=" +:+ value) <$> merge_sort entryLe (map_to_list environment)).

Definition commandResult (arguments : list string) (stdout stderr : boundedBuffer) (wait : waitResult) : CommandResult :=
  {| cr_Arguments := arguments; cr_ExitCode := match wait with WaitOk => 0 | WaitExit code => code | WaitFailure => -1 end;
     cr_Stdout := bb_bytes stdout; cr_Stderr := bb_bytes stderr |}.

Definition noResult : CommandResult := {| cr_Arguments := []; cr_ExitCode := 0; cr_Stdout := []; cr_Stderr := [] |}.

Section Execution.
Context {FT : FileTree}.

Definition confinedDirectory (workspace requested : string) : string + RunError :=
  let requested := if requested == EmptyString then "." else requested in
  if IsAbs requested then inr (ErrCommandPolicy "working directory must be relative")
  else match evalSymlinks (Join [workspace; requested]) with
       | None => inr (ErrCommandPolicy "resolve working directory")
       | Some resolved =>
           match Rel workspace resolved with
           | None => inr (ErrCommandPolicy "working directory escapes workspace")
           | Some relative =>
               if escapes relative then inr (ErrCommandPolicy "working directory escapes workspace") else inl resolved
           end
       end.

(** The checks of [Run] before the process is started, and the command it starts. *)
Definition prepare (executor : Executor) (arguments : list string) (workingDirectory : string) (environment : gmap string string)
    : Command + RunError :=
  match arguments with
  | [] => inr (ErrCommandPolicy "command arguments are invalid")
  | executable :: _ =>
      if containsUnsafeArgument arguments then inr (ErrCommandPolicy "command arguments are invalid")
      else if bool_decide (executable ∉ ex_AllowedExecutables executor) then inr (ErrCommandPolicy "executable is not allowed")
      else match evalSymlinks (ex_Workspace executor) with
           | None => inr (ErrOther "resolve workspace")
           | Some workspace =>
               match confinedDirectory workspace workingDirectory with
               | inr e => inr e
               | inl directory =>
                   match validateEnvironment environment with
                   | Some e => inr e
                   | None => inl {| cd_Arguments := arguments; cd_Dir := directory; cd_Env := minimalEnvironment environment |}
                   end
               end
           end
  end.

(** [start] is the operating system: the process of a command, or a failure to start. *)
Definition Executor_Run (start : Command -> option StartedProcess) (executor : Executor) (arguments : list string) (workingDirectory : string)
    (environment : gmap string string) : CommandResult * option RunError :=
  match prepare executor arguments workingDirectory environment with
  | inr e => (noResult, Some e)
  | inl command =>
      let limit := if ex_OutputLimit executor =? 0 then maximumCommandOutput else ex_OutputLimit executor in
      match start command with
      | None => (noResult, Some (ErrOther "start command"))
      | Some process =>
          let stdout := writeAll (emptyBuffer limit) (ps_Stdout process) in
          let stderr := writeAll (emptyBuffer limit) (ps_Stderr process) in
          let result := commandResult arguments stdout stderr (ps_Wait process) in
          match ps_Selected process with
          | SelectedContext e => (result, Some (ErrContext e))
          | SelectedLimit => (result, Some ErrOutputLimit)
          | SelectedWait =>
              if bb_exceeded stdout || bb_exceeded stderr then (result, Some ErrOutputLimit)
              else match ps_Wait process with
                   | WaitOk => (result, None)
                   | _ => (result, Some (ErrOther "command exited non-zero"))
                   end
          end
      end
  end.
End Execution.

(** ** redact.go *)

(** The first occurrence of a substring: what is before and after it. *)
Fixpoint cutSub (l sub : list Ascii.ascii) : option (list Ascii.ascii * list Ascii.ascii) :=
  if hasPrefixBytes sub l then Some ([], drop (length sub) l)
  else match l with
       | [] => None
       | c :: rest => match cutSub rest sub with Some (before, after) => Some (c :: before, after) | None => None end
       end.

(** The text between the occurrences; each round but the last consumes one. *)
Fixpoint splitSub (fuel : nat) (l sub : list Ascii.ascii) : list (list Ascii.ascii) :=
  match fuel with
  | O => [l]
  | S fuel => match cutSub l sub with Some (before, after) => before :: splitSub fuel after sub | None => [l] end
  end.

(** [strings.ReplaceAll] for a non-empty [old]. *)
Definition ReplaceAll (l old new : list Ascii.ascii) : list Ascii.ascii := joinWith new (splitSub (length l) l old).

Definition redactionMark : list Ascii.ascii := bytes "[REDACTED]".

Record Redactor := { rd_values : list (list Ascii.ascii) }.

Definition Redact (redactor : Redactor) (value : list Ascii.ascii) : list Ascii.ascii :=
  foldl (fun value secret => ReplaceAll value secret redactionMark) value (rd_values redactor).

(** [strings.FieldsFunc] at slashes of either kind gives no empty field; none is a [..]. *)
Definition hasParentSegment (path : string) : bool :=
  existsb (fun segment => segment == dotdot)
    (splitOn slashByte ((fun c => if byte_is 92 c then slashByte else c) <$> bytes path)).

Definition isChildPath (root path : string) : bool :=
  match Rel root path with
  | Some relative => (relative != ".") && negb (escapes relative)
  | None => false
  end.

(** Longest first. *)
Definition longerFirst (a b : list Ascii.ascii) : Prop := (length b <= length a)%nat.
#[export] Instance longerFirst_dec a b : Decision (longerFirst a b) := Nat.le_dec (length b) (length a).

Section Redaction.
Context {FS : Files} {FT : FileTree}.

Definition secretProjectionPath (secretRoot reference : string) : res string :=
  _ ← failIf ((reference == EmptyString) || (reference == ".") || IsAbs reference || hasParentSegment reference)
      (ErrPlain "secret projection is invalid");
  let projection := Join [secretRoot; reference] in
  _ ← failIf (negb (isChildPath secretRoot projection)) (ErrPlain "secret projection escapes secret root");
  match evalSymlinks projection with
  | None => Err (ErrPlain "read secret projection")
  | Some resolved =>
      _ ← failIf (negb (isChildPath secretRoot resolved)) (ErrPlain "secret projection escapes secret root");
      match lstat projection with
      | None => Err (ErrPlain "read secret projection")
      | Some (isDir, isSymlink) =>
          _ ← failIf (negb isDir || isSymlink) (ErrPlain "secret projection must be a non-symlink directory");
          Ok resolved
      end
  end.

(** The value of one entry of a projection, unless it is a directory or empty. *)
Definition entryValue (projection : string) (entry : DirEntry) : res (list (list Ascii.ascii)) :=
  let path := Join [projection; de_Name entry] in
  let read path :=
    match readFile path with
    | FileContents [] => Ok []
    | FileContents value => Ok [value]
    | _ => Err (ErrPlain "read secret projection")
    end in
  if de_IsDir entry then Ok []
  else if de_IsSymlink entry then
    match evalSymlinks path with
    | None => Err (ErrPlain "read secret projection")
    | Some path =>
        _ ← failIf (negb (isChildPath projection path)) (ErrPlain "secret projection escapes its mount");
        match statIsDir path with
        | None => Err (ErrPlain "read secret projection")
        | Some true => Ok []
        | Some false => read path
        end
    end
  else read path.

Fixpoint collect {A B} (f : A -> res (list B)) (l : list A) : res (list B) :=
  match l with
  | [] => Ok []
  | a :: l => values ← f a; rest ← collect f l; Ok (values ++ rest)
  end.

Definition projectionValues (root reference : string) : res (list (list Ascii.ascii)) :=
  projection ← secretProjectionPath root reference;
  match readDir projection with
  | None => Err (ErrPlain "read secret projection")
  | Some entries => collect (entryValue projection) entries
  end.

(** [filepath.Abs] *)
Definition Abs (path : string) : option string :=
  if IsAbs path then Some (Clean path) else (fun directory => Join [directory; path]) <$> getwd.

(** The order of secrets of one length is the sort's; they are kept as collected. *)
Definition NewRedactor (secretRoot : string) (references : list string) : res Redactor :=
  match Abs secretRoot ≫= evalSymlinks with
  | None => Err (ErrPlain "resolve secret root")
  | Some root =>
      values ← collect (projectionValues root) references;
      Ok {| rd_values := merge_sort longerFirst values |}
  end.
End Redaction.

(** ** trajectory.go *)

Record TrajectoryRecord := {
  tr_SchemaVersion : Z;
  tr_Sequence : Z;
  tr_Timestamp : string;
  tr_Type : string;
  tr_Message : list Ascii.ascii;
}.

(** [message] is left out when it is empty. *)
Definition recordJSON (r : TrajectoryRecord) : JSON :=
  JObject
    ([ (bytes "schemaVersion", JInt (tr_SchemaVersion r));
       (bytes "sequence", JInt (tr_Sequence r));
       (bytes "timestamp", JText (tr_Timestamp r));
       (bytes "type", JText (tr_Type r)) ]
     ++ match tr_Message r with [] => [] | message => [(bytes "message", JString message)] end).

Definition newline : Ascii.ascii := Ascii.ascii_of_nat 10.

(** The sink: its counter, its redactor, and what the in-memory trajectory holds. *)
Record TrajectorySink := {
  ts_sequence : Z;
  ts_redactor : Redactor;
  ts_trajectory : list Ascii.ascii;
}.

(** [Emit] at time [now]; [logged] is whether the log accepts the line, which is
    written there before the trajectory. *)
Definition Emit (sink : TrajectorySink) (now : Time) (logged : bool) (kind message : string) : TrajectorySink * bool :=
  let sequence := (ts_sequence sink + 1) mod 2 ^ 64 in
  let record := {| tr_SchemaVersion := 1; tr_Sequence := sequence; tr_Timestamp := FormatRFC3339Nano (UTC now); tr_Type := kind;
                   tr_Message := Redact (ts_redactor sink) (bytes message) |} in
  let line := print (recordJSON record) ++ [newline] in
  ({| ts_sequence := sequence; ts_redactor := ts_redactor sink;
      ts_trajectory := if logged then ts_trajectory sink ++ line else ts_trajectory sink |}, logged).

(** [strconv.ParseUint(text, 10, 64)] on a JSON number *)
Definition parseUint64 (text : list Ascii.ascii) : option Z :=
  if forallb digit text && (1 <=? length text)%nat && (digitsValue text <? 2 ^ 64) then Some (digitsValue text) else None.

Definition recordNames : list string := ["schemaVersion"; "sequence"; "timestamp"; "type"; "message"].

Definition storeRecord (name : string) (r : TrajectoryRecord) (v : JSON) : option TrajectoryRecord :=
  if name == "schemaVersion" then
    (fun x => {| tr_SchemaVersion := x; tr_Sequence := tr_Sequence r; tr_Timestamp := tr_Timestamp r; tr_Type := tr_Type r; tr_Message := tr_Message r |})
      <$> intoInt (tr_SchemaVersion r) v
  else if name == "sequence" then
    (fun x => {| tr_SchemaVersion := tr_SchemaVersion r; tr_Sequence := x; tr_Timestamp := tr_Timestamp r; tr_Type := tr_Type r; tr_Message := tr_Message r |})
      <$> match v with JNull => Some (tr_Sequence r) | JNumber text => parseUint64 text | _ => None end
  else if name == "timestamp" then
    (fun x => {| tr_SchemaVersion := tr_SchemaVersion r; tr_Sequence := tr_Sequence r; tr_Timestamp := x; tr_Type := tr_Type r; tr_Message := tr_Message r |})
      <$> intoString (tr_Timestamp r) v
  else if name == "type" then
    (fun x => {| tr_SchemaVersion := tr_SchemaVersion r; tr_Sequence := tr_Sequence r; tr_Timestamp := tr_Timestamp r; tr_Type := x; tr_Message := tr_Message r |})
      <$> intoString (tr_Type r) v
  else
    (fun x => {| tr_SchemaVersion := tr_SchemaVersion r; tr_Sequence := tr_Sequence r; tr_Timestamp := tr_Timestamp r; tr_Type := tr_Type r; tr_Message := bytes x |})
      <$> intoString (String.string_of_list_ascii (tr_Message r)) v.

(** The members of an object into a struct, unknown members skipped. *)
Fixpoint intoStructLoose {R} (names : list string) (store : string -> R -> JSON -> option R)
    (members : list (list Ascii.ascii * JSON)) (r : R) : option R :=
  match members with
  | [] => Some r
  | (key, v) :: rest =>
      match fieldFor names key with
      | None => intoStructLoose names store rest r
      | Some name =>
          match store name r v with
          | Some r => intoStructLoose names store rest r
          | None => None
          end
      end
  end.

(** [json.Unmarshal]: one value and nothing after it. *)
Definition unmarshal {R} (names : list string) (store : string -> R -> JSON -> option R) (zero : R) (contents : list Ascii.ascii) : option R :=
  match decodeFirst contents with
  | Some (value, rest) =>
      if atEOF rest then
        match value with
        | JNull => Some zero
        | JObject members => intoStructLoose names store members zero
        | _ => None
        end
      else None
  | None => None
  end.

Definition noRecord : TrajectoryRecord :=
  {| tr_SchemaVersion := 0; tr_Sequence := 0; tr_Timestamp := EmptyString; tr_Type := EmptyString; tr_Message := [] |}.

Definition trajectorySequence (contents : list Ascii.ascii) : Z :=
  foldl (fun last line => match unmarshal recordNames storeRecord noRecord line with Some record => tr_Sequence record | None => last end)
    0 (splitOn newline contents).

(** ** Confinement *)

Lemma existsb_none {A} (f : A -> bool) l x : existsb f l = false -> x ∈ l -> f x = false.
Proof.
  intros H Hx%list_elem_of_In. destruct (f x) eqn:E; [|done]. rewrite <-H. symmetry. apply existsb_exists. by exists x.
Qed.

(** A command the runner may start: an allowed executable with well-formed arguments,
    a directory below the resolved workspace, the minimal environment. *)
Record confined {FT : FileTree} (executor : Executor) (command : Command) : Prop := {
  cf_executable : exists executable rest, cd_Arguments command = executable :: rest /\ executable ∈ ex_AllowedExecutables executor;
  cf_arguments : Forall (fun argument => argument <> EmptyString /\ existsb (byte_is 0) (bytes argument) = false) (cd_Arguments command);
  cf_directory : exists workspace, evalSymlinks (ex_Workspace executor) = Some workspace /\
    pt_parts (parsePath workspace) `prefix_of` pt_parts (parsePath (cd_Dir command));
  cf_environment : exists environment, cd_Env command = minimalEnvironment environment /\
    map_Forall (fun key value => key ∈ ["PYTHONHASHSEED"; "PYTHONDONTWRITEBYTECODE"] /\ len value <= 128) environment;
}.

Section Confinement.
Context {FT : FileTree}.

(** Resolving an absolute path gives an absolute path. *)
Hypothesis resolves_absolute : forall path resolved, evalSymlinks path = Some resolved -> IsAbs path = true -> IsAbs resolved = true.

Lemma confinedDirectory_below workspace requested directory :
  IsAbs workspace = true -> confinedDirectory workspace requested = inl directory ->
  pt_parts (parsePath workspace) `prefix_of` pt_parts (parsePath directory).
Proof.
  intros Hw. unfold confinedDirectory. cbv zeta. set (name := if requested == EmptyString then "." else requested). destruct (IsAbs name); [done|].
  destruct (evalSymlinks _) as [resolved|] eqn:He; [|done]. pose proof (resolves_absolute _ _ He (Join_rooted _ _ Hw)) as Hr.
  destruct (Rel_confined workspace resolved Hw Hr) as (relative & -> & Hc & _). destruct (escapes relative); [done|]. intros [= ->]. by apply Hc.
Qed.

Lemma validateEnvironment_ok environment :
  validateEnvironment environment = None -> map_Forall (fun key value => key ∈ ["PYTHONHASHSEED"; "PYTHONDONTWRITEBYTECODE"] /\ len value <= 128) environment.
Proof.
  unfold validateEnvironment. destruct (existsb _ _) eqn:E; [done|]. intros _ key value Hkv%elem_of_map_to_list.
  apply (existsb_none _ _ _ E) in Hkv. cbv beta iota in Hkv. apply orb_false_iff in Hkv as [Hkv _]. apply orb_false_iff in Hkv as [Hk Hlen]. split; [|lia].
  destruct (decide (key = "PYTHONHASHSEED")) as [->|H1]; [left|]. destruct (decide (key = "PYTHONDONTWRITEBYTECODE")) as [->|H2]; [right; left|].
  by rewrite !bool_decide_eq_false_2 in Hk by done.
Qed.

Lemma prepare_confined executor arguments workingDirectory environment command :
  IsAbs (ex_Workspace executor) = true -> prepare executor arguments workingDirectory environment = inl command -> confined executor command.
Proof.
  intros Hw. unfold prepare. destruct arguments as [|executable rest]; [done|]. destruct (containsUnsafeArgument _) eqn:Hu; [done|].
  case_bool_decide as Ha; [done|]. destruct (evalSymlinks _) as [workspace|] eqn:He; [|done].
  destruct (confinedDirectory _ _) as [directory|] eqn:Hd; [|done]. destruct (validateEnvironment _) eqn:Hv; [done|]. intros [= <-].
  apply confinedDirectory_below in Hd; [|by eapply resolves_absolute]. apply validateEnvironment_ok in Hv. constructor; cbn [cd_Arguments cd_Dir cd_Env].
  - by exists executable, rest.
  - apply Forall_forall. intros argument Hin. apply (existsb_none _ _ _ Hu) in Hin. by reflect_bools.
  - by exists workspace.
  - by exists environment.
Qed.

End Confinement.

(** ** Bounded output *)

Lemma Buffer_Write_spec buffer value whole :
  0 <= bb_limit buffer -> bb_bytes buffer = take (Z.to_nat (bb_limit buffer)) whole ->
  bb_exceeded buffer = (bb_limit buffer <? Z.of_nat (length whole)) ->
  let buffer' := (Buffer_Write buffer value).1.1 in
  bb_limit buffer' = bb_limit buffer /\ bb_bytes buffer' = take (Z.to_nat (bb_limit buffer)) (whole ++ value) /\
  bb_exceeded buffer' = (bb_limit buffer <? Z.of_nat (length (whole ++ value))).
Proof.
  intros Hl Hb He. unfold Buffer_Write. rewrite Hb, length_take. assert (Hn : Z.of_nat (Z.to_nat (bb_limit buffer)) = bb_limit buffer) by lia.
  set (n := Z.to_nat (bb_limit buffer)) in *. clearbody n. rewrite length_app, Nat2Z.inj_add.
  destruct (0 <? _) eqn:H1; [destruct (_ <? _) eqn:H2 in |- *|destruct (_ <? _) eqn:H2 in |- *]; cbn [fst bb_limit bb_bytes bb_exceeded].
  - apply Z.ltb_lt in H1, H2. assert (length whole < n)%nat by lia. split_and!; [done| |symmetry; apply Z.ltb_lt; lia].
    rewrite take_app, (take_ge whole) by lia. do 2 f_equal. lia.
  - apply Z.ltb_lt in H1. apply Z.ltb_ge in H2. assert (length whole < n)%nat by lia. split_and!; [done| |].
    + rewrite (take_ge whole), (take_ge (whole ++ value)) by (rewrite ?length_app; lia). done.
    + rewrite He. destruct (Z.ltb_spec (bb_limit buffer) (Z.of_nat (length whole))); destruct (Z.ltb_spec (bb_limit buffer) (Z.of_nat (length whole) + Z.of_nat (length value))); lia.
  - apply Z.ltb_ge in H1. apply Z.ltb_lt in H2. assert (n <= length whole)%nat by lia. split_and!; [done|by rewrite take_app_le by lia|symmetry; apply Z.ltb_lt; lia].
  - apply Z.ltb_ge in H1, H2. assert (n <= length whole)%nat by lia. assert (length value = 0)%nat as Hz by lia. apply nil_length_inv in Hz as ->. rewrite app_nil_r. split_and!; [done|by rewrite Hb|].
    rewrite He. f_equal. simpl. lia.
Qed.

Lemma writeAll_spec limit values :
  0 <= limit ->
  bb_bytes (writeAll (emptyBuffer limit) values) = take (Z.to_nat limit) (concat values) /\
  bb_exceeded (writeAll (emptyBuffer limit) values) = (limit <? Z.of_nat (length (concat values))).
Proof.
  intros Hl.
  assert (H : forall buffer whole, bb_limit buffer = limit -> bb_bytes buffer = take (Z.to_nat limit) whole ->
    bb_exceeded buffer = (limit <? Z.of_nat (length whole)) ->
    bb_bytes (writeAll buffer values) = take (Z.to_nat limit) (whole ++ concat values) /\
    bb_exceeded (writeAll buffer values) = (limit <? Z.of_nat (length (whole ++ concat values)))).
  { unfold writeAll. induction values as [|value values IH]; intros buffer whole <- Hb He; cbn [foldl concat]; [by rewrite app_nil_r|].
    destruct (Buffer_Write_spec buffer value whole Hl Hb He) as (H1 & H2 & H3). rewrite app_assoc. by apply IH. }
  apply (H (emptyBuffer limit) []); [done| |]; cbn [emptyBuffer bb_bytes bb_exceeded length]; [by rewrite take_nil|]. symmetry. by apply Z.ltb_ge.
Qed.

Definition effectiveLimit (executor : Executor) : Z :=
  if ex_OutputLimit executor =? 0 then maximumCommandOutput else ex_OutputLimit executor.

(** What the runner keeps of a command's output is bounded and honest. For every
    split of the output into writes, the result holds exactly the first bytes up to
    the limit; and the command counts as passed exactly when it ended by itself with
    success and neither output went over the limit, so that a passing result holds
    the whole output. *)
Theorem command_output_bounded {FT : FileTree} start executor arguments workingDirectory environment command process result error :
  0 <= ex_OutputLimit executor -> prepare executor arguments workingDirectory environment = inl command -> start command = Some process ->
  Executor_Run start executor arguments workingDirectory environment = (result, error) ->
  let limit := effectiveLimit executor in
  cr_Stdout result = take (Z.to_nat limit) (concat (ps_Stdout process)) /\
  cr_Stderr result = take (Z.to_nat limit) (concat (ps_Stderr process)) /\
  (error = None <-> ps_Selected process = SelectedWait /\ ps_Wait process = WaitOk /\
    Z.of_nat (length (concat (ps_Stdout process))) <= limit /\ Z.of_nat (length (concat (ps_Stderr process))) <= limit).
Proof.
  intros Hl Hp Hs. unfold Executor_Run. rewrite Hp, Hs. fold (effectiveLimit executor).
  assert (Hlim : 0 <= effectiveLimit executor) by (unfold effectiveLimit, maximumCommandOutput; destruct (_ =? 0); lia).
  destruct (writeAll_spec (effectiveLimit executor) (ps_Stdout process) Hlim) as [Ho Heo].
  destruct (writeAll_spec (effectiveLimit executor) (ps_Stderr process) Hlim) as [He Hee].
  rewrite Heo, Hee. unfold commandResult. rewrite Ho, He. intros E.
  assert (Hr : cr_Stdout result = take (Z.to_nat (effectiveLimit executor)) (concat (ps_Stdout process)) /\ cr_Stderr result = take (Z.to_nat (effectiveLimit executor)) (concat (ps_Stderr process))).
  { by destruct (ps_Selected process); [destruct (_ || _); [|destruct (ps_Wait process)]|..]; injection E as <- <-. }
  cbv zeta. destruct Hr as [-> ->]. split_and!; [done|done|].
  destruct (ps_Selected process); [destruct (_ || _) eqn:Hx; [|destruct (ps_Wait process)]|..]; injection E as <- <-; (split; [|intros (H1 & H2 & H3 & H4)]); try done.
  - apply orb_true_iff in Hx as [Hx|Hx]; lia.
  - intros _. apply orb_false_iff in Hx. split_and!; [done|done|lia..].
Qed.

(** ** Redaction *)

Lemma containsBytes_spec l sub : containsBytes l sub = true <-> exists before after, l = before ++ sub ++ after.
Proof.
  induction l as [|c l IH]; cbn [containsBytes]; rewrite orb_true_iff, hasPrefixBytes_spec.
  - split; [intros [[k E]|]; [by exists [], k|done]|]. intros (before & after & E). left. exists after. by destruct before.
  - rewrite IH. split.
    + intros [[k E]|(before & after & ->)]; [by exists [], k|by exists (c :: before), after].
    + intros ([|d before] & after & E); [left; by exists after|right]. injection E as -> ->. by exists before, after.
Qed.

Lemma containsBytes_part a b c sub : containsBytes b sub = true -> containsBytes (a ++ b ++ c) sub = true.
Proof. rewrite !containsBytes_spec. intros (x & y & ->). exists (a ++ x), (y ++ c). by rewrite <-!app_assoc. Qed.

(** An occurrence does not cross a byte it does not hold. *)
Lemma containsBytes_cut a c b sub : c ∉ sub -> containsBytes (a ++ c :: b) sub = true -> containsBytes a sub = true \/ containsBytes b sub = true.
Proof.
  intros Hc. rewrite !containsBytes_spec. intros (x & y & E).
  destruct (decide (length (x ++ sub) <= length a)%nat) as [Hl|Hl].
  - left. exists x, (take (length a - length (x ++ sub)) y). apply (f_equal (take (length a))) in E. rewrite take_app_length, (app_assoc x) in E.
    rewrite take_app, (take_ge (x ++ sub)) in E by done. by rewrite app_assoc.
  - right. destruct (decide (length x <= length a)%nat) as [Hx|Hx].
    + exfalso. apply Hc. apply (f_equal (.!! length a)) in E. rewrite list_lookup_middle in E by done. symmetry in E.
      rewrite lookup_app_r, lookup_app_l in E by (rewrite length_app in Hl; lia). by eapply list_elem_of_lookup_2.
    + exists (drop (S (length a)) x), y. apply (f_equal (drop (S (length a)))) in E. rewrite (drop_app_ge a) in E by lia.
      replace (S (length a) - length a)%nat with 1%nat in E by lia. cbn [drop] in E. rewrite drop_0 in E. rewrite E. by rewrite drop_app_le by lia.
Qed.

Lemma cutSub_spec l sub before after :
  sub <> [] -> cutSub l sub = Some (before, after) -> l = before ++ sub ++ after /\ containsBytes before sub = false.
Proof.
  intros Hs. revert before after. induction l as [|c l IH]; intros before after; cbn [cutSub].
  - destruct (hasPrefixBytes sub []) eqn:E; [|done]. apply hasPrefixBytes_spec in E as [k E]. by destruct sub.
  - destruct (hasPrefixBytes sub (c :: l)) eqn:E.
    + apply hasPrefixBytes_spec in E as [k E]. intros [= <- <-]. rewrite E, drop_app_length. split; [done|]. cbn [containsBytes]. by destruct sub.
    + destruct (cutSub l sub) as [[b a]|] eqn:Hc; [|done]. intros [= <- <-]. destruct (IH b a eq_refl) as [-> Hb]. split; [done|].
      cbn [containsBytes]. rewrite Hb, orb_false_r. apply not_true_iff_false. intros [k Hk]%hasPrefixBytes_spec.
      rewrite <-not_true_iff_false in E. apply E. apply hasPrefixBytes_spec. exists (k ++ sub ++ a). by rewrite app_comm_cons, Hk, <-app_assoc.
Qed.

Lemma cutSub_none l sub : cutSub l sub = None -> containsBytes l sub = false.
Proof.
  induction l as [|c l IH]; cbn [cutSub containsBytes]; destruct (hasPrefixBytes _ _); try done. destruct (cutSub l sub) as [[]|]; [done|]. intros _. by apply IH.
Qed.

(** The parts of a text between the occurrences hold no occurrence, and nothing the
    text does not hold. *)
Lemma splitSub_free fuel l sub : sub <> [] -> (length l <= fuel)%nat -> Forall (fun part => containsBytes part sub = false) (splitSub fuel l sub).
Proof.
  intros Hs. revert l. induction fuel as [|fuel IH]; intros l Hl; cbn [splitSub].
  - destruct l; [|simpl in Hl; lia]. repeat constructor. by destruct sub.
  - destruct (cutSub l sub) as [[before after]|] eqn:E; [|constructor; [by apply cutSub_none|constructor]].
    apply cutSub_spec in E as [-> Hb]; [|done]. constructor; [done|]. apply IH. rewrite !length_app in Hl. destruct sub; [done|]. simpl in Hl. lia.
Qed.

Lemma splitSub_infix fuel l sub w : sub <> [] -> containsBytes l w = false -> Forall (fun part => containsBytes part w = false) (splitSub fuel l sub).
Proof.
  intros Hs. revert l. induction fuel as [|fuel IH]; intros l Hl; cbn [splitSub]; [by repeat constructor|].
  destruct (cutSub l sub) as [[before after]|] eqn:E; [|by repeat constructor]. apply cutSub_spec in E as [-> _]; [|done].
  assert (H : forall k a b, containsBytes k w = true -> before ++ sub ++ after = a ++ k ++ b -> False).
  { intros k a b Hk E. rewrite E in Hl. by rewrite (containsBytes_part a k b w Hk) in Hl. }
  constructor; [|apply IH]; apply not_true_iff_false; intros Hk.
  - by apply (H before [] (sub ++ after) Hk).
  - apply (H after (before ++ sub) [] Hk). by rewrite app_nil_r, <-app_assoc.
Qed.

(** A secret that does not interfere with the mark that replaces it. *)
Definition maskable (secret : list Ascii.ascii) : Prop :=
  secret <> [] /\ existsb (fun c => byte_is 91 c || byte_is 93 c) secret = false /\ containsBytes (bytes "REDACTED") secret = false.

Lemma join_mark parts secret :
  maskable secret -> Forall (fun part => containsBytes part secret = false) parts -> containsBytes (joinWith redactionMark parts) secret = false.
Proof.
  intros (Hne & Hb & Hm) Hp.
  assert (Hfree : Ascii.ascii_of_nat 91 ∉ secret /\ Ascii.ascii_of_nat 93 ∉ secret).
  { split; intros Hin; by apply (existsb_none _ _ _ Hb) in Hin. }
  induction Hp as [|part parts Hpart Hp IH]; [by destruct secret|]. destruct parts as [|q parts]; [done|].
  change (joinWith redactionMark (part :: q :: parts)) with
    (part ++ Ascii.ascii_of_nat 91 :: (bytes "REDACTED" ++ Ascii.ascii_of_nat 93 :: joinWith redactionMark (q :: parts))).
  apply not_true_iff_false. intros [H|[H|H]%(containsBytes_cut _ _ _ _ (proj2 Hfree))]%(containsBytes_cut _ _ _ _ (proj1 Hfree)).
  - by rewrite Hpart in H.
  - by rewrite Hm in H.
  - by rewrite IH in H.
Qed.

(** C27: No secret survives redaction. When no secret value interferes with the mark
    (none holds a square bracket or is part of the word REDACTED), the text an event
    is recorded with contains none of the secret values, whatever order and overlap
    they have. *)
Theorem redaction_hides_secrets redactor text secret :
  Forall maskable (rd_values redactor) -> secret ∈ rd_values redactor -> containsBytes (Redact redactor text) secret = false.
Proof.
  unfold Redact. destruct redactor as [values]. cbn [rd_values]. intros Hm Hs.
  assert (H : forall text, secret ∈ values \/ containsBytes text secret = false ->
    containsBytes (foldl (fun value secret => ReplaceAll value secret redactionMark) text values) secret = false).
  { assert (Hsec : maskable secret) by (by eapply Forall_forall in Hm). clear Hs. induction Hm as [|v values Hv Hm IH]; intros t Ht; cbn [foldl].
    - destruct Ht as [Ht|Ht]; [by apply not_elem_of_nil in Ht|done].
    - apply IH. destruct Ht as [[->|Ht]%elem_of_cons|Ht]; [right|by left|right].
      + apply join_mark; [done|]. by apply splitSub_free; [apply Hv|].
      + apply join_mark; [done|]. by apply splitSub_infix; [apply Hv|]. }
  apply H. by left.
Qed.

(** ** The trajectory *)

Definition lineByte (c : Ascii.ascii) : bool := negb (byte_is 10 c).

Lemma runeLength_high l n : runeLength l = Some n -> forallb lineByte (take n l) = true.
Proof.
  assert (Hc : forall lo hi c, byte_in lo hi c = true -> (10 <? lo)%N = true -> lineByte c = true).
  { intros lo hi c Hc Hlo%N.ltb_lt. unfold byte_in in Hc. apply andb_prop in Hc as [Hc _]. apply N.leb_le in Hc. unfold lineByte, byte_is.
    apply negb_true_iff, N.eqb_neq. lia. }
  assert (Hi : forall n c, byte_is n c = true -> (10 <? n)%N = true -> lineByte c = true).
  { intros m c Hc' Hm%N.ltb_lt. unfold byte_is in Hc'. apply N.eqb_eq in Hc'. unfold lineByte, byte_is. apply negb_true_iff, N.eqb_neq. lia. }
  unfold runeLength, continuation. destruct l as [|a [|b rest]]; [done|done|].
  destruct (byte_in 194 223 a && byte_in 128 191 b) eqn:E2.
  { intros [= <-]. apply andb_prop in E2 as [Ha Hb]. simpl. by rewrite (Hc _ _ _ Ha eq_refl), (Hc _ _ _ Hb eq_refl). }
  destruct rest as [|c rest]; [done|].
  destruct (_ && byte_in 128 191 c) eqn:E3 in |- *.
  { intros [= <-]. apply andb_prop in E3 as [Hab Hcc]. simpl. rewrite (Hc _ _ _ Hcc eq_refl).
    rewrite !orb_true_iff, !andb_true_iff in Hab. by destruct Hab as [[[[Ha Hb]|[Ha Hb]]|[Ha Hb]]|[Ha Hb]];
      (rewrite (Hi _ _ Ha eq_refl) || rewrite (Hc _ _ _ Ha eq_refl)); rewrite (Hc _ _ _ Hb eq_refl). }
  destruct rest as [|d rest]; [done|].
  destruct (_ && byte_in 128 191 c && byte_in 128 191 d) eqn:E4 in |- *; [|done].
  intros [= <-]. apply andb_prop in E4 as [Habc Hd]. apply andb_prop in Habc as [Hab Hcc]. simpl. rewrite (Hc _ _ _ Hcc eq_refl), (Hc _ _ _ Hd eq_refl).
  rewrite !orb_true_iff, !andb_true_iff in Hab. by destruct Hab as [[[Ha Hb]|[Ha Hb]]|[Ha Hb]];
    (rewrite (Hi _ _ Ha eq_refl) || rewrite (Hc _ _ _ Ha eq_refl)); rewrite (Hc _ _ _ Hb eq_refl).
Qed.

Lemma escapedByte_line c : forallb lineByte (escapedByte c) = true /\ (htmlSafe c = true -> lineByte c = true).
Proof. by destruct c as [[] [] [] [] [] [] [] []]; vm_compute. Qed.

Lemma escapeBytes_line fuel l : forallb lineByte (escapeBytes fuel l) = true.
Proof.
  revert l. induction fuel as [|fuel IH]; intros [|c l]; try done. cbn [escapeBytes]. destruct (byte_in 0 127 c).
  - rewrite forallb_app, IH, andb_true_r. destruct (escapedByte_line c) as [He Hs]. destruct (htmlSafe c); [simpl; by rewrite Hs|done].
  - destruct (runeLength (c :: l)) as [n|] eqn:Hr.
    + rewrite forallb_app, IH, andb_true_r. destruct (lineSeparator (c :: l)) as [e|] eqn:Hs; [|by apply runeLength_high].
      unfold lineSeparator in Hs. by repeat case_match; simplify_eq.
    + rewrite app_comm_cons, forallb_app, IH. done.
Qed.

Lemma Itoa_line z : forallb lineByte (bytes (Itoa z)) = true.
Proof.
  assert (Hd : forall c, digit c = true -> lineByte c = true) by (by intros [[] [] [] [] [] [] [] []]).
  destruct (Itoa_digits z) as [[-> ->]|(sign & d & ds & -> & Hs & H1 & _ & H2 & _)]; [done|]. rewrite forallb_app. cbn [forallb]. rewrite (Hd d H1).
  rewrite (forallb_mono _ _ _ Hd H2). by destruct Hs as [[-> _]|[-> _]].
Qed.

Lemma joinWith_line ls : Forall (fun l => forallb lineByte l = true) ls -> forallb lineByte (joinWith [commaByte] ls) = true.
Proof.
  induction 1 as [|l ls Hl Hls IH]; [done|]. destruct ls as [|k ls]; [done|].
  change (joinWith [commaByte] (l :: k :: ls)) with (l ++ commaByte :: joinWith [commaByte] (k :: ls)). rewrite forallb_app. cbn [forallb]. by rewrite Hl, IH.
Qed.

(** The encoder writes one line. *)
Lemma print_line v : encodable v -> forallb lineByte (print v) = true.
Proof.
  assert (Hq : forall s, forallb lineByte (printString s) = true) by (intros s; unfold printString; by rewrite !forallb_app, escapeBytes_line).
  induction v as [|[]|text|s|vs IH|ms IH] using JSON_induction; cbn [encodable print]; intros He; try done.
  - destruct He as [z ->]. apply Itoa_line.
  - rewrite !forallb_app, joinWith_line; [done|]. apply (foldr_and encodable) in He. apply Forall_fmap. rewrite Forall_forall in *.
    intros v Hv. apply IH; [done|]. by apply He.
  - rewrite !forallb_app, joinWith_line; [done|]. apply (foldr_and (fun m => utf8 m.1 /\ encodable m.2)) in He. apply Forall_fmap. rewrite Forall_forall in *.
    intros m Hm. change (forallb lineByte (printString m.1 ++ bytes ":" ++ print m.2) = true). rewrite !forallb_app, Hq, (IH m Hm); [done|]. by apply He.
Qed.

Lemma ascii_time t : forallb (byte_in 0 127) (bytes (FormatRFC3339Nano t)) = true.
Proof.
  assert (Hd : forall l, Forall (fun n => 0 <= n < 10) l -> forallb (byte_in 0 127) (digitByte <$> l) = true).
  { intros l Hl. induction Hl as [|n l Hn Hl IH]; [done|]. rewrite fmap_cons. cbn [forallb]. rewrite IH, andb_true_r.
    destruct (digitByte_spec n Hn) as [H _]. revert H. by destruct (digitByte n) as [[] [] [] [] [] [] [] []]. }
  assert (Hp : forall k v, forallb (byte_in 0 127) (pad k v) = true) by (intros k v; apply Hd, decimals_range).
  unfold FormatRFC3339Nano. destruct (monthDay _ _) as [month day]. rewrite bytes_of_list. rewrite !forallb_app. cbn [forallb]. rewrite !forallb_app. cbn [forallb].
  rewrite !forallb_app. cbn [forallb]. rewrite !forallb_app. cbn [forallb]. rewrite !forallb_app. cbn [forallb]. rewrite !forallb_app. rewrite !Hp. cbn [andb].
  assert (Hf : forall n, forallb (byte_in 0 127) (fraction n) = true).
  { intros n. unfold fraction. pose proof (trimZeros_range _ (decimals_range 9 n)) as Hr. destruct (trimZeros _); [done|]. cbn [forallb]. by rewrite Hd. }
  by rewrite Hf.
Qed.

Lemma parseUint64_Itoa z : 0 <= z < 2 ^ 64 -> parseUint64 (bytes (Itoa z)) = Some z.
Proof.
  intros Hz. destruct (Itoa_digits z) as [[-> ->]|(sign & d & ds & -> & [[-> Hp]|[-> Hp]] & Hd & _ & Hds & Hv)]; [done| |lia].
  unfold parseUint64. cbn [app forallb length Nat.leb]. rewrite Hd, Hds, Hv, Z.abs_eq by lia. cbn [andb]. by rewrite (proj2 (Z.ltb_lt _ _)) by lia.
Qed.

(** A record that is written and read back. *)
Definition recordable (r : TrajectoryRecord) : Prop :=
  tr_SchemaVersion r = 1 /\ 0 <= tr_Sequence r < 2 ^ 64 /\ utf8 (bytes (tr_Timestamp r)) /\ utf8 (bytes (tr_Type r)) /\ utf8 (tr_Message r).

Lemma encodable_record r : recordable r -> encodable (recordJSON r).
Proof.
  intros (_ & _ & Ht & Hk & Hm). unfold recordJSON. apply (foldr_and (fun m => utf8 m.1 /\ encodable m.2)). apply Forall_app. split.
  - repeat (constructor; [split; [apply utf8_of_ascii; reflexivity|]; first [done|by eexists]|]). constructor.
  - destruct (tr_Message r) eqn:E; [constructor|]. constructor; [|constructor]. split; [apply utf8_of_ascii; reflexivity|done].
Qed.

Lemma intoStructLoose_cons {R} names (store : string -> R -> JSON -> option R) name v rest r r' :
  fieldFor names (bytes name) = Some name -> store name r v = Some r' ->
  intoStructLoose names store ((bytes name, v) :: rest) r = intoStructLoose names store rest r'.
Proof. cbn [intoStructLoose]. by intros -> ->. Qed.

Lemma unmarshal_record r : recordable r -> unmarshal recordNames storeRecord noRecord (print (recordJSON r)) = Some r.
Proof.
  intros Hr. unfold unmarshal. rewrite decodeFirst_print; [|by apply encodable_record|].
  2:{ assert (H2 : (1 <= maxNestingDepth)%nat) by (apply Nat.leb_le; vm_compute; reflexivity). etransitivity; [|exact H2].
      unfold recordJSON. cbn [nesting]. rewrite foldr_app. by destruct (tr_Message r). }
  change (atEOF []) with true. cbv iota. destruct Hr as (Hv & Hs & Ht & Hk & Hm). destruct r as [version sequence timestamp kind message].
  cbn [tr_SchemaVersion tr_Sequence tr_Timestamp tr_Type tr_Message] in Hv, Hs, Ht, Hk, Hm. subst version.
  unfold recordJSON. cbn [tr_SchemaVersion tr_Sequence tr_Timestamp tr_Type tr_Message app].
  erewrite (intoStructLoose_cons _ _ "schemaVersion"); [|reflexivity|reflexivity].
  erewrite (intoStructLoose_cons _ _ "sequence"); [|reflexivity|]; cycle 1.
  { etransitivity; [exact (f_equal (fmap _) (parseUint64_Itoa sequence Hs))|reflexivity]. }
  erewrite (intoStructLoose_cons _ _ "timestamp"); [|reflexivity|]; cycle 1.
  { etransitivity; [exact (f_equal (fmap _) (intoString_text _ timestamp))|reflexivity]. }
  erewrite (intoStructLoose_cons _ _ "type"); [|reflexivity|]; cycle 1.
  { etransitivity; [exact (f_equal (fmap _) (intoString_text _ kind))|reflexivity]. }
  destruct message as [|c message]; [reflexivity|].
  erewrite (intoStructLoose_cons _ _ "message"); [|reflexivity|reflexivity]. cbn [intoStructLoose].
  cbn [tr_SchemaVersion tr_Sequence tr_Timestamp tr_Type tr_Message noRecord]. rewrite bytes_of_list. reflexivity.
Qed.

(** Events as the runner emits them, in the order the sink's mutex gives them, all
    accepted by the log. *)
Definition emitAll (sink : TrajectorySink) (events : list (Time * string * string)) : TrajectorySink :=
  foldl (fun sink '(now, kind, message) => (Emit sink now true kind message).1) sink events.

Definition emptySink (redactor : Redactor) : TrajectorySink := {| ts_sequence := 0; ts_redactor := redactor; ts_trajectory := [] |}.

Definition emitted (redactor : Redactor) (sequence : Z) (event : Time * string * string) : TrajectoryRecord :=
  let '(now, kind, message) := event in
  {| tr_SchemaVersion := 1; tr_Sequence := sequence; tr_Timestamp := FormatRFC3339Nano (UTC now); tr_Type := kind;
     tr_Message := Redact redactor (bytes message) |}.

Definition recordLine (r : TrajectoryRecord) : list Ascii.ascii := print (recordJSON r) ++ [newline].

(** The records of a trajectory, numbered from [from]. *)
Fixpoint numbered (redactor : Redactor) (from : Z) (events : list (Time * string * string)) : list TrajectoryRecord :=
  match events with
  | [] => []
  | event :: events => emitted redactor from event :: numbered redactor (from + 1) events
  end.

Lemma emitAll_spec sink events :
  0 <= ts_sequence sink -> ts_sequence sink + Z.of_nat (length events) < 2 ^ 64 ->
  ts_sequence (emitAll sink events) = ts_sequence sink + Z.of_nat (length events) /\
  ts_trajectory (emitAll sink events) = ts_trajectory sink ++ concat (recordLine <$> numbered (ts_redactor sink) (ts_sequence sink + 1) events).
Proof.
  unfold emitAll. revert sink. induction events as [|[[now kind] message] events IH]; intros sink H0 Hn; cbn [foldl length numbered].
  - rewrite app_nil_r. split; [cbn; lia|done].
  - cbn [length] in Hn. set (sink' := (Emit sink now true kind message).1).
    assert (Hs : ts_sequence sink' = ts_sequence sink + 1) by (unfold sink', Emit; cbn [fst ts_sequence]; apply Z.mod_small; lia).
    destruct (IH sink') as [H1 H2]; [lia..|]. rewrite H1, H2, Hs. split; [lia|].
    change (ts_redactor sink') with (ts_redactor sink). rewrite fmap_cons. cbn [concat].
    change (ts_trajectory sink') with (ts_trajectory sink ++ recordLine (emitted (ts_redactor sink) (ts_sequence sink') (now, kind, message))).
    by rewrite Hs, <-app_assoc.
Qed.

Lemma splitOn_lines (lines : list (list Ascii.ascii)) :
  Forall (fun line => forallb lineByte line = true) lines -> splitOn newline (concat ((fun line => line ++ [newline]) <$> lines)) = lines ++ [[]].
Proof.
  induction 1 as [|line lines Hl Hls IH]; [done|]. rewrite fmap_cons. cbn [concat]. rewrite <-app_assoc. cbn [app]. rewrite splitOn_app; [by rewrite IH|].
  by eapply forallb_not_elem.
Qed.

Lemma numbered_spec redactor from events :
  0 <= from -> from + Z.of_nat (length events) <= 2 ^ 64 ->
  Forall (fun '(_, kind, message) => utf8 (bytes kind) /\ utf8 (Redact redactor (bytes message))) events ->
  Forall recordable (numbered redactor from events) /\ tr_Sequence <$> numbered redactor from events = seqZ from (Z.of_nat (length events)).
Proof.
  intros H0 Hn He. revert from H0 Hn. induction He as [|[[now kind] message] events [Hk Hm] He IH]; intros from H0 Hn; [done|].
  cbn [numbered length] in *. destruct (IH (from + 1)) as [H1 H2]; [lia..|]. rewrite fmap_cons, H2. split.
  - constructor; [|done]. unfold emitted, recordable. cbn [tr_SchemaVersion tr_Sequence tr_Timestamp tr_Type tr_Message].
    split_and!; [done|lia|lia|apply utf8_of_ascii, ascii_time|done|done].
  - rewrite (seqZ_cons from) by lia. cbn [emitted tr_Sequence]. f_equal. f_equal; lia.
Qed.

Lemma unmarshal_lines records :
  Forall recordable records ->
  splitOn newline (concat (recordLine <$> records)) = ((print ∘ recordJSON) <$> records) ++ [[]] /\
  omap (fun line => tr_Sequence <$> unmarshal recordNames storeRecord noRecord line) ((print ∘ recordJSON) <$> records) = tr_Sequence <$> records.
Proof.
  intros Hr. split.
  - rewrite <-(splitOn_lines ((print ∘ recordJSON) <$> records)); [by rewrite <-list_fmap_compose|]. apply Forall_fmap. eapply Forall_impl; [exact Hr|].
    intros r Hr'. by apply print_line, encodable_record.
  - induction Hr as [|r records Hr Hrs IH]; [done|]. rewrite !fmap_cons. cbn [omap list_omap compose]. change ((print ∘ recordJSON) r) with (print (recordJSON r)).
    rewrite unmarshal_record by done. cbn [fmap option_fmap option_map]. by rewrite IH.
Qed.

(** The trajectory numbers its records without gaps, and the manifest's bounds are
    those of the trajectory it refers to. For every sequence of events the sink
    accepts, the lines of the trajectory decode to records numbered 1, 2, ... up to
    the number of events, and the number read back as the last is that one. *)
Theorem trajectory_numbered redactor events :
  Z.of_nat (length events) < 2 ^ 64 ->
  Forall (fun '(_, kind, message) => utf8 (bytes kind) /\ utf8 (Redact redactor (bytes message))) events ->
  let trajectory := ts_trajectory (emitAll (emptySink redactor) events) in
  omap (fun line => tr_Sequence <$> unmarshal recordNames storeRecord noRecord line) (splitOn newline trajectory) =
    seqZ 1 (Z.of_nat (length events)) /\
  trajectorySequence trajectory = Z.of_nat (length events).
Proof.
  intros Hn He. destruct (emitAll_spec (emptySink redactor) events) as [_ Ht]; [done|cbn; lia|]. rewrite Ht. cbn [emptySink ts_trajectory ts_sequence ts_redactor app].
  destruct (numbered_spec redactor 1 events) as [Hr Hs]; [lia|lia|done|]. destruct (unmarshal_lines _ Hr) as [Hl Hu]. change (0 + 1) with 1. cbv zeta.
  unfold trajectorySequence. rewrite Hl. split; [by rewrite omap_app, Hu, Hs, app_nil_r|].
  assert (Hf : forall lines last, foldl (fun last line => match unmarshal recordNames storeRecord noRecord line with Some record => tr_Sequence record | None => last end) last lines
    = default last (list.last (omap (fun line => tr_Sequence <$> unmarshal recordNames storeRecord noRecord line) lines))).
  { intros lines. induction lines as [|line lines IH]; intros last; [done|]. cbn [foldl omap list_omap]. rewrite IH.
    destruct (unmarshal _ _ _ line) as [record|]; [|done]. cbn [fmap option_fmap option_map]. rewrite last_cons. by destruct (list.last _). }
  rewrite Hf, omap_app, Hu, Hs, app_nil_r. destruct (length events) as [|k]; [done|].
  rewrite Nat2Z.inj_succ, <-Z.add_1_r, seqZ_app by lia. rewrite last_app. change (seqZ (1 + Z.of_nat k) 1) with [1 + Z.of_nat k]. cbn [list.last default]. simpl. lia.
Qed.
