(* ===== verification/RunnerArtifacts.v ===== *)
(** * Publishing the runner's artifacts

    agent-runner/internal/runner/artifact.go: the configuration of the artifact store,
    its two implementations behind one interface, the snapshot of the workspace, and
    the publication of an attempt's artifacts with the manifest as commit point.

    [ArtifactStore] states what publication needs of a store; the file store
    ([diskStore]) and the S3 store over a client with documented behaviour
    ([s3ArtifactStore]) provide it. [manifest_commits_last] is the publication
    protocol, [artifact_keys_scoped] that attempts never share a key,
    [snapshot_exact] what the source snapshot holds. *)

From S2P Require Import Prelude Json JsonDecode Paths Url Events OpTypes Builder RunnerTask RunnerExec.

(** ** Objects and keys *)

Definition artifactSchemaVersion : Z := 1.

Record ArtifactObject := {
  ao_Key : string;
  ao_ContentType : string;
  ao_SHA256 : string;
  ao_Size : Z;
}.

Definition text (l : list Ascii.ascii) : string := String.string_of_list_ascii l.

Section Objects.
Context {SH : SHA256}.

Definition artifactObject (key contentType : string) (contents : list Ascii.ascii) : ArtifactObject :=
  {| ao_Key := key; ao_ContentType := contentType; ao_SHA256 := sha256Hex (text contents); ao_Size := Z.of_nat (length contents) |}.
End Objects.

Definition filesystemPath (root key : string) : res string :=
  _ ← failIf ((key == EmptyString) || IsAbs key) (ErrPlain "artifact key is invalid");
  let path := Join [root; key] in
  match Rel root path with
  | None => Err (ErrPlain "artifact key escapes root")
  | Some relative => _ ← failIf (escapes relative) (ErrPlain "artifact key escapes root"); Ok path
  end.

(** A key as publication builds them: proper names between slashes, the last of which
    is not the name of a temporary file. *)
Definition temporaryMark : list Ascii.ascii := bytes ".artifact-".

Definition plainKey (key : string) : Prop :=
  Forall properName (splitOn slashByte (bytes key)) /\
  match last (splitOn slashByte (bytes key)) with Some name => hasPrefixBytes temporaryMark name = false | None => False end.

(** ** The store interface *)

(** The state [S] holds the store and everything the environment answers. [stored] is
    what a reader of a key gets. *)
Class ArtifactStore {SH : SHA256} (S : Type) := {
  store_Put : S -> string -> string -> list Ascii.ascii -> S * option ArtifactObject;
  store_Head : S -> string -> S * option ArtifactObject;
  store_Reference : string -> string;
  store_Pause : S -> S * option ContextError;  (* the context is done, or the delay has passed *)
  stored : S -> string -> option (list Ascii.ascii);
  Put_result s key contentType contents s' object :
    store_Put s key contentType contents = (s', Some object) -> object = artifactObject key contentType contents;
  Put_frame s key contentType contents other :
    plainKey key -> plainKey other -> other <> key -> stored (store_Put s key contentType contents).1 other = stored s other;
  Head_frame s key other : stored (store_Head s key).1 other = stored s other;
  Head_truth s key s' object :
    store_Head s key = (s', Some object) ->
    exists contents, stored s key = Some contents /\ ao_SHA256 object = sha256Hex (text contents) /\ ao_Size object = Z.of_nat (length contents);
  Pause_frame s other : stored (store_Pause s).1 other = stored s other;
}.

(** ** Publication *)

Record ResultManifest := {
  mf_SchemaVersion : Z;
  mf_TenantID : string;
  mf_ProjectID : string;
  mf_RunID : string;
  mf_AttemptID : string;
  mf_Attempt : Z;
  mf_Outcome : string;
  mf_Artifacts : list ArtifactObject;
  mf_TrajectoryFirst : Z;
  mf_TrajectoryLast : Z;
}.

(** Structs without field tags are encoded under the field names. *)
Definition objectJSON (object : ArtifactObject) : JSON :=
  JObject [ (bytes "Key", JText (ao_Key object)); (bytes "ContentType", JText (ao_ContentType object));
            (bytes "SHA256", JText (ao_SHA256 object)); (bytes "Size", JInt (ao_Size object)) ].

Definition manifestJSON (m : ResultManifest) : JSON :=
  JObject
    [ (bytes "schemaVersion", JInt (mf_SchemaVersion m)); (bytes "tenantId", JText (mf_TenantID m));
      (bytes "projectId", JText (mf_ProjectID m)); (bytes "runId", JText (mf_RunID m)); (bytes "attemptId", JText (mf_AttemptID m));
      (bytes "attempt", JInt (mf_Attempt m)); (bytes "outcome", JText (mf_Outcome m));
      (bytes "artifacts", JArray (objectJSON <$> mf_Artifacts m)); (bytes "trajectoryFirstSequence", JInt (mf_TrajectoryFirst m));
      (bytes "trajectoryLastSequence", JInt (mf_TrajectoryLast m)) ].

Definition commandJSON (result : CommandResult) : JSON :=
  JObject
    [ (bytes "Arguments", match cr_Arguments result with [] => JNull | arguments => JArray (JText <$> arguments) end);
      (bytes "ExitCode", JInt (cr_ExitCode result)); (bytes "Stdout", JString (cr_Stdout result)); (bytes "Stderr", JString (cr_Stderr result)) ].

Definition testReport (results : list CommandResult) : list Ascii.ascii :=
  print (JObject
    [ (bytes "schemaVersion", JInt 1);
      (bytes "passed", JBool (forallb (fun result => cr_ExitCode result =? 0) results));
      (bytes "commands", JArray (commandJSON <$> results)) ]).

Definition commandOutput (results : list CommandResult) (stdout : bool) : list Ascii.ascii :=
  concat ((fun result => if stdout then cr_Stdout result else cr_Stderr result) <$> results).

(** [strings.Join(parts, "/")] *)
Definition keyPrefix (config : RuntimeConfig) : string :=
  text (joinWith [slashByte]
    (bytes <$> ["tenants"; rc_TenantID config; "projects"; rc_ProjectID config; "runs"; rc_RunID config; "attempts"; Itoa (rc_Attempt config)])).

Definition objectsOf (config : RuntimeConfig) (snapshot trajectory : list Ascii.ascii) (results : list CommandResult)
    : list (string * string * list Ascii.ascii) :=
  let prefix := keyPrefix config in
  [ (prefix +:+ "/source.tar.gz", "application/gzip", snapshot);
    (prefix +:+ "/test-report.json", "application/json", testReport results);
    (prefix +:+ "/trajectory/000001.jsonl", "application/x-ndjson", trajectory);
    (prefix +:+ "/logs/stdout.txt", "text/plain", commandOutput results true);
    (prefix +:+ "/logs/stderr.txt", "text/plain", commandOutput results false) ].

Definition manifestKey (config : RuntimeConfig) : string := keyPrefix config +:+ "/result-manifest.json".

Definition manifestOf (config : RuntimeConfig) (published : list ArtifactObject) (trajectory : list Ascii.ascii) : ResultManifest :=
  {| mf_SchemaVersion := 1; mf_TenantID := rc_TenantID config; mf_ProjectID := rc_ProjectID config; mf_RunID := rc_RunID config;
     mf_AttemptID := rc_AttemptID config; mf_Attempt := rc_Attempt config; mf_Outcome := "SUCCEEDED"; mf_Artifacts := published;
     mf_TrajectoryFirst := 1; mf_TrajectoryLast := trajectorySequence trajectory |}.

Section Publication.
Context {SH : SHA256} {S : Type} {AS : ArtifactStore S}.

(** Up to [attempts] uploads, each verified by reading the object's size and digest
    back; between them the context may be done. *)
Fixpoint putAttempts (attempts : nat) (s : S) (key contentType : string) (contents : list Ascii.ascii) : S * (ArtifactObject + RunError) :=
  match attempts with
  | O => (s, inr (ErrOther "publish"))
  | Datatypes.S attempts =>
      let again s :=
        match store_Pause s with
        | (s, Some e) => (s, inr (ErrContext e))
        | (s, None) => putAttempts attempts s key contentType contents
        end in
      match store_Put s key contentType contents with
      | (s, None) => again s
      | (s, Some result) =>
          match store_Head s key with
          | (s, Some head) =>
              if (ao_Size head =? ao_Size result) && (ao_SHA256 head == ao_SHA256 result) then (s, inl result) else again s
          | (s, None) => again s
          end
      end
  end.

Definition putVerified : S -> string -> string -> list Ascii.ascii -> S * (ArtifactObject + RunError) := putAttempts 3.

Fixpoint publishObjects (s : S) (objects : list (string * string * list Ascii.ascii)) : S * (list ArtifactObject + RunError) :=
  match objects with
  | [] => (s, inl [])
  | (key, contentType, contents) :: objects =>
      match putVerified s key contentType contents with
      | (s, inr e) => (s, inr e)
      | (s, inl result) =>
          match publishObjects s objects with
          | (s, inl published) => (s, inl (result :: published))
          | (s, inr e) => (s, inr e)
          end
      end
  end.

Definition publishArtifacts (s : S) (config : RuntimeConfig) (snapshot : option (list Ascii.ascii)) (trajectory : list Ascii.ascii)
    (results : list CommandResult) : S * (string + RunError) :=
  match snapshot with
  | None => (s, inr (ErrOther "source snapshot"))
  | Some snapshot =>
      match publishObjects s (objectsOf config snapshot trajectory results) with
      | (s, inr e) => (s, inr e)
      | (s, inl published) =>
          match putVerified s (manifestKey config) "application/json" (print (manifestJSON (manifestOf config published trajectory))) with
          | (s, inr e) => (s, inr e)
          | (s, inl _) => (s, inl (store_Reference (manifestKey config)))
          end
      end
  end.
End Publication.

(** ** The source snapshot *)

(** A directory tree as [filepath.WalkDir] visits it, entries in the order of their
    names; [BadNode] is one the system fails to read. *)
Inductive node :=
| FileNode (contents : list Ascii.ascii)
| LinkNode
| BadNode
| DirNode (entries : list (string * node)).

Section Snapshot.
Context (archive : list (string * list Ascii.ascii) -> list Ascii.ascii) (workspace artifactRoot : string).

Definition insideArtifacts (path : string) : bool :=
  (artifactRoot != EmptyString)
  && match Rel artifactRoot path with Some relative => (relative == ".") || negb (escapes relative) | None => false end.

(** The files of the walk, named relative to the workspace; [None] is its error. *)
Fixpoint walk (path : string) (n : node) : option (list (string * list Ascii.ascii)) :=
  match n with
  | BadNode => None
  | DirNode entries =>
      if insideArtifacts path then Some []
      else foldr (fun '(name, n) rest =>
             match walk (Join [path; name]) n, rest with Some files, Some rest => Some (files ++ rest) | _, _ => None end) (Some []) entries
  | LinkNode => if insideArtifacts path then Some [] else None
  | FileNode contents =>
      if insideArtifacts path then Some []
      else (fun relative => [(relative, contents)]) <$> Rel workspace path
  end.

(** [tar] and [gzip] are the parameter [archive]. *)
Definition sourceSnapshot (tree : node) : option (list Ascii.ascii) := archive <$> walk workspace tree.
End Snapshot.

(** ** The configured store *)

Record ArtifactConfig := {
  ac_SchemaVersion : Z;
  ac_Backend : string;
  ac_Root : string;
  ac_Endpoint : string;
  ac_Bucket : string;
  ac_Region : string;
  ac_Secure : bool;
  ac_Prefix : string;
  ac_CredentialRef : string;
}.

#[export] Instance ArtifactConfig_settable : Settable ArtifactConfig := fun c =>
  Build_ArtifactConfig (ac_SchemaVersion c) (ac_Backend c) (ac_Root c) (ac_Endpoint c) (ac_Bucket c) (ac_Region c) (ac_Secure c) (ac_Prefix c)
    (ac_CredentialRef c).

Definition noArtifactConfig : ArtifactConfig :=
  {| ac_SchemaVersion := 0; ac_Backend := EmptyString; ac_Root := EmptyString; ac_Endpoint := EmptyString; ac_Bucket := EmptyString;
     ac_Region := EmptyString; ac_Secure := false; ac_Prefix := EmptyString; ac_CredentialRef := EmptyString |}.

Definition artifactNames : list string :=
  ["schemaVersion"; "backend"; "root"; "endpoint"; "bucket"; "region"; "secure"; "prefix"; "credentialRef"].

Definition storeArtifact (name : string) (c : ArtifactConfig) (v : JSON) : option ArtifactConfig :=
  if name == "schemaVersion" then (fun x => c <| ac_SchemaVersion := x |>) <$> intoInt (ac_SchemaVersion c) v
  else if name == "backend" then (fun x => c <| ac_Backend := x |>) <$> intoString (ac_Backend c) v
  else if name == "root" then (fun x => c <| ac_Root := x |>) <$> intoString (ac_Root c) v
  else if name == "endpoint" then (fun x => c <| ac_Endpoint := x |>) <$> intoString (ac_Endpoint c) v
  else if name == "bucket" then (fun x => c <| ac_Bucket := x |>) <$> intoString (ac_Bucket c) v
  else if name == "region" then (fun x => c <| ac_Region := x |>) <$> intoString (ac_Region c) v
  else if name == "secure" then (fun x => c <| ac_Secure := x |>) <$> intoBool (ac_Secure c) v
  else if name == "prefix" then (fun x => c <| ac_Prefix := x |>) <$> intoString (ac_Prefix c) v
  else (fun x => c <| ac_CredentialRef := x |>) <$> intoString (ac_CredentialRef c) v.

(** [strings.Trim(s, "/")] *)
Definition trimSlashes (s : string) : string := text (reverse (dropWhileB slash (reverse (dropWhileB slash (bytes s))))).

(** The store that is chosen, with what its client is made from. *)
Inductive storeChoice :=
| FilesystemChoice (root : string)
| S3Choice (bucket prefix accessKey secretKey sessionToken : string).

(** [os.MkdirAll], and whether the S3 client accepts its configuration. *)
Class StoreSetup := {
  mkdirAll : string -> bool;
  minioNew : ArtifactConfig -> bool;
}.

Section Configuration.
Context {FS : Files} {FT : FileTree} {SU : StoreSetup}.

Definition confinedArtifactRoot (workspace root : string) : res string :=
  _ ← failIf (negb (IsAbs root)) (ErrPlain "filesystem artifact root must be absolute");
  _ ← failIf (negb (mkdirAll root)) (ErrPlain "create artifact root");
  match evalSymlinks workspace, evalSymlinks root with
  | None, _ => Err (ErrPlain "resolve workspace")
  | Some _, None => Err (ErrPlain "resolve artifact root")
  | Some canonicalWorkspace, Some canonicalRoot =>
      match Rel canonicalWorkspace canonicalRoot with
      | None => Err (ErrPlain "filesystem artifact root escapes workspace")
      | Some relative => _ ← failIf (escapes relative) (ErrPlain "filesystem artifact root escapes workspace"); Ok canonicalRoot
      end
  end.

Definition LoadArtifactStore (configPath workspace secretRoot : string) (approvedSecretRefs : list string) : res storeChoice :=
  contents ← readOr configPath (ErrPlain "read artifact configuration");
  match decodeStrict artifactNames storeArtifact noArtifactConfig contents with
  | None => Err (ErrPlain "decode artifact configuration")
  | Some config =>
      _ ← failIf (ac_SchemaVersion config != artifactSchemaVersion) (ErrPlain "artifact configuration schema is unsupported");
      if ac_Backend config == "filesystem" then
        _ ← failIf (ac_Root config == EmptyString) (ErrPlain "filesystem artifact root is required");
        root ← confinedArtifactRoot workspace (ac_Root config);
        Ok (FilesystemChoice root)
      else if ac_Backend config == "s3" then
        _ ← failIf ((ac_Endpoint config == EmptyString) || (ac_Bucket config == EmptyString) || (ac_CredentialRef config == EmptyString)
                    || negb (referenceNamePattern (ac_CredentialRef config)) || bool_decide (ac_CredentialRef config ∉ approvedSecretRefs))
            (ErrPlain "S3 artifact configuration is invalid");
        accessKey ← readOr (Join [secretRoot; ac_CredentialRef config; "accessKey"]) (ErrPlain "read artifact access key");
        secretKey ← readOr (Join [secretRoot; ac_CredentialRef config; "secretKey"]) (ErrPlain "read artifact secret key");
        let sessionToken := match readFile (Join [secretRoot; ac_CredentialRef config; "sessionToken"]) with FileContents token => token | _ => [] end in
        _ ← failIf (negb (minioNew config)) (ErrPlain "create S3 artifact client");
        Ok (S3Choice (ac_Bucket config) (trimSlashes (ac_Prefix config)) (TrimSpace (text accessKey)) (TrimSpace (text secretKey))
              (TrimSpace (text sessionToken)))
      else Err (ErrPlain "artifact backend is unsupported")
  end.
End Configuration.

(** ** The file store *)

(** How the disk answers an operation: it works; it fails, perhaps leaving a temporary
    file with part of the contents behind; or, for a pause, the context is done. *)
Inductive diskAnswer := DiskWorks | DiskFails (leftover : option (Z * list Ascii.ascii)) | DiskCancelled (e : ContextError).

Record Disk := {
  dk_files : gmap string (list Ascii.ascii);
  dk_answers : list diskAnswer;
}.

Definition answer (d : Disk) : diskAnswer := default DiskWorks (head (dk_answers d)).
Definition nextDisk (d : Disk) (files : gmap string (list Ascii.ascii)) : Disk := {| dk_files := files; dk_answers := tail (dk_answers d) |}.

(** [os.CreateTemp(dir, ".artifact-*")]: a number replaces the star. *)
Definition temporaryPath (path : string) (random : Z) : string := Join [Dir path; ".artifact-" +:+ Itoa random].

Section FileStore.
Context {SH : SHA256} (root : string).

Definition filesystemStore_Put (d : Disk) (key contentType : string) (contents : list Ascii.ascii) : Disk * option ArtifactObject :=
  match filesystemPath root key with
  | Err _ => (d, None)
  | Ok path =>
      match answer d with
      | DiskWorks => (nextDisk d (<[path := contents]> (dk_files d)), Some (artifactObject key contentType contents))
      | DiskFails (Some (random, part)) => (nextDisk d (<[temporaryPath path random := part]> (dk_files d)), None)
      | _ => (nextDisk d (dk_files d), None)
      end
  end.

Definition filesystemStore_Head (d : Disk) (key : string) : Disk * option ArtifactObject :=
  match filesystemPath root key with
  | Err _ => (d, None)
  | Ok path =>
      match answer d, dk_files d !! path with
      | DiskWorks, Some contents => (nextDisk d (dk_files d), Some (artifactObject key EmptyString contents))
      | _, _ => (nextDisk d (dk_files d), None)
      end
  end.

Definition filesystemStore_Reference (key : string) : string :=
  match filesystemPath root key with Err _ => EmptyString | Ok path => "file://" +:+ path end.

Definition diskPause (d : Disk) : Disk * option ContextError :=
  (nextDisk d (dk_files d), match answer d with DiskCancelled e => Some e | _ => None end).

Definition diskStored (d : Disk) (key : string) : option (list Ascii.ascii) :=
  match filesystemPath root key with Err _ => None | Ok path => dk_files d !! path end.
End FileStore.

(** *** Keys and paths *)

Lemma filesystemPath_plain root key : IsAbs root = true -> plainKey key -> filesystemPath root key = Ok (Join [root; key]).
Proof.
  intros Hr [Hk _]. unfold filesystemPath. rewrite bind_failIf.
  assert (E : (key == EmptyString) || IsAbs key = false).
  { apply orb_false_iff. split.
    - apply bool_decide_eq_false_2. intros ->. simpl in Hk. apply Forall_inv in Hk. by destruct Hk as [? _].
    - unfold IsAbs. destruct (bytes key) as [|c l]; [done|]. apply not_true_iff_false. intros Hc. cbn [splitOn] in Hk.
      assert (c = slashByte) as -> by (unfold slash, byte_is in Hc; apply N.eqb_eq in Hc; by apply N_of_ascii_inj; rewrite Hc).
      rewrite Ascii.eqb_refl in Hk. apply Forall_inv in Hk. by destruct Hk as [? _]. }
  rewrite E. destruct (Rel_confined root (Join [root; key]) Hr (Join_rooted _ _ Hr)) as (relative & -> & Hc & _).
  rewrite (proj2 Hc); [done|]. rewrite Join_key by done. by apply prefix_app_r.
Qed.

Lemma plain_Join_inj root key key' : IsAbs root = true -> plainKey key -> plainKey key' -> Join [root; key] = Join [root; key'] -> key = key'.
Proof. intros Hr [Hk _] [Hk' _]. by apply Join_key_inj. Qed.

Lemma temporary_name random : properName (bytes (".artifact-" +:+ Itoa random)).
Proof.
  rewrite bytes_app. split_and!; [done..|]. rewrite elem_of_app. intros [H|H]; [|by apply Itoa_slash in H].
  assert (Hf : forallb (fun c => negb (slash c)) (bytes ".artifact-") = true) by done. by apply (forallb_not_elem _ _ _ Hf) in H.
Qed.

Lemma temporaryPath_other root key random other :
  IsAbs root = true -> Forall properName (splitOn slashByte (bytes key)) -> plainKey other ->
  temporaryPath (Join [root; key]) random <> Join [root; other].
Proof.
  intros Hr Hk [Ho Hlast] E%(f_equal parsePath). unfold temporaryPath in E. rewrite (Join_key root other) in E by done.
  set (dir := Dir (Join [root; key])) in *.
  assert (Hd : IsAbs dir = true).
  { unfold dir. rewrite Join_clean by done. rewrite Join_key by done.
    pose proof (Dir_parts (pt_parts (parsePath root) ++ splitOn slashByte (bytes key))) as H.
    assert (Hp : Forall properName (pt_parts (parsePath root) ++ splitOn slashByte (bytes key))) by (apply Forall_app; split; [by apply rooted_proper|done]).
    by apply H, (f_equal pt_rooted) in Hp. }
  apply (f_equal pt_parts) in E. rewrite Join_proper in E; [|done|apply Forall_cons_2; [apply temporary_name|apply Forall_nil_2]]. cbn [pt_parts fmap list_fmap] in E.
  apply (f_equal last) in E. rewrite last_snoc, last_app in E. destruct (last (splitOn slashByte (bytes other))) as [name|]; [|done]. injection E as <-.
  rewrite bytes_app in Hlast. by rewrite (proj2 (hasPrefixBytes_spec _ _)) in Hlast by (by eexists).
Qed.

Section DiskStore.
Context {SH : SHA256} (root : string) (Hroot : IsAbs root = true).

#[refine] Instance diskStore : ArtifactStore Disk := {|
  store_Put := filesystemStore_Put root; store_Head := filesystemStore_Head root; store_Reference := filesystemStore_Reference root;
  store_Pause := diskPause; stored := diskStored root |}.
Proof.
  - intros d key contentType contents d' object. unfold filesystemStore_Put. destruct (filesystemPath root key); [|done].
    destruct (answer d) as [|[[]|]|]; try done. by intros [= _ <-].
  - intros d key contentType contents other Hk Ho Hne. unfold filesystemStore_Put, diskStored. rewrite !filesystemPath_plain by done.
    destruct (answer d) as [|[[random part]|]|]; cbn [fst nextDisk dk_files]; [| |done|done].
    + apply lookup_insert_ne. intros E. by apply plain_Join_inj in E.
    + apply lookup_insert_ne. apply temporaryPath_other; [done|apply Hk|done].
  - intros d key other. unfold filesystemStore_Head, diskStored. destruct (filesystemPath root key) as [path|]; [|done]. by destruct (answer d), (dk_files d !! path).
  - intros d key d' object. unfold filesystemStore_Head, diskStored. destruct (filesystemPath root key) as [path|]; [|done].
    destruct (answer d); [|done|done]. destruct (dk_files d !! path) as [contents|]; [|done]. intros [= _ <-]. by exists contents.
  - intros d other. unfold diskPause, diskStored. by destruct (filesystemPath root other).
Defined.
End DiskStore.

(** ** The S3 store *)

(** What [StatObject] reports. *)
Record ObjectInfo := {
  oi_ChecksumSHA256 : string;
  oi_ContentType : string;
  oi_Size : Z;
}.

Definition hexEncode (l : list Ascii.ascii) : string := text (concat (hexByte <$> l)).

(** The client, with the behaviour it documents: an upload touches its own key only,
    and what is reported of an object is the size and the base64 SHA-256 checksum of
    the bytes stored under the key. *)
Class ObjectClient {SH : SHA256} (C : Type) := {
  putObject : C -> string -> string -> string -> list Ascii.ascii -> C * bool;
  statObject : C -> string -> string -> C * option ObjectInfo;
  waitClient : C -> C * option ContextError;
  objectAt : C -> string -> string -> option (list Ascii.ascii);
  putObject_frame c bucket key contentType contents bucket' key' :
    (bucket', key') <> (bucket, key) -> objectAt (putObject c bucket key contentType contents).1 bucket' key' = objectAt c bucket' key';
  statObject_frame c bucket key bucket' key' : objectAt (statObject c bucket key).1 bucket' key' = objectAt c bucket' key';
  statObject_truth c bucket key c' info digest :
    statObject c bucket key = (c', Some info) -> decodeBase64 (bytes (oi_ChecksumSHA256 info)) = Some digest -> length digest = 32%nat ->
    exists contents, objectAt c bucket key = Some contents /\ hexEncode digest = sha256Hex (text contents) /\ oi_Size info = Z.of_nat (length contents);
  waitClient_frame c bucket key : objectAt (waitClient c).1 bucket key = objectAt c bucket key;
}.

Section S3Store.
Context {SH : SHA256} {C : Type} {OC : ObjectClient C} (bucket prefix : string).

Definition fullKey (key : string) : string := if prefix == EmptyString then key else prefix +:+ "/" +:+ key.

Definition s3Store_Put (c : C) (key contentType : string) (contents : list Ascii.ascii) : C * option ArtifactObject :=
  match putObject c bucket (fullKey key) contentType contents with
  | (c, true) => (c, Some (artifactObject key contentType contents))
  | (c, false) => (c, None)
  end.

Definition s3Store_Head (c : C) (key : string) : C * option ArtifactObject :=
  match statObject c bucket (fullKey key) with
  | (c, None) => (c, None)
  | (c, Some info) =>
      (c, match decodeBase64 (bytes (oi_ChecksumSHA256 info)) with
          | Some digest =>
              if (length digest =? 32)%nat then
                Some {| ao_Key := key; ao_ContentType := oi_ContentType info; ao_SHA256 := hexEncode digest; ao_Size := oi_Size info |}
              else None
          | None => None
          end)
  end.

Definition s3Store_Reference (key : string) : string := "s3://" +:+ bucket +:+ "/" +:+ fullKey key.

Lemma fullKey_inj key key' : fullKey key = fullKey key' -> key = key'.
Proof.
  unfold fullKey. case_bool_decide; [done|]. intros E%(f_equal bytes). rewrite !bytes_app in E. apply (inj (app _)) in E. apply (inj (app _)) in E. by apply bytes_inj.
Qed.

#[refine] Instance s3ArtifactStore : ArtifactStore C := {|
  store_Put := s3Store_Put; store_Head := s3Store_Head; store_Reference := s3Store_Reference; store_Pause := waitClient;
  stored := fun c key => objectAt c bucket (fullKey key) |}.
Proof.
  - intros c key contentType contents c' object. unfold s3Store_Put. destruct (putObject _ _ _ _ _) as [c1 []]; [|done]. by intros [= _ <-].
  - intros c key contentType contents other _ _ Hne. unfold s3Store_Put.
    pose proof (putObject_frame c bucket (fullKey key) contentType contents bucket (fullKey other)) as H.
    destruct (putObject _ _ _ _ _) as [c1 []]; apply H; intros [= E%fullKey_inj]; done.
  - intros c key other. unfold s3Store_Head. pose proof (statObject_frame c bucket (fullKey key) bucket (fullKey other)) as H. by destruct (statObject _ _ _) as [c1 []].
  - intros c key c' object. unfold s3Store_Head. destruct (statObject _ _ _) as [c1 [info|]] eqn:Hs; [|done].
    destruct (decodeBase64 _) as [digest|] eqn:Hd; [|done]. destruct (length digest =? 32)%nat eqn:Hl; [|done]. intros [= _ <-]. cbn [ao_SHA256 ao_Size].
    apply Nat.eqb_eq in Hl. by eapply statObject_truth.
  - intros c other. apply waitClient_frame.
Defined.
End S3Store.

(** ** The keys of an attempt *)

Definition prefixParts (config : RuntimeConfig) : list (list Ascii.ascii) :=
  bytes <$> ["tenants"; rc_TenantID config; "projects"; rc_ProjectID config; "runs"; rc_RunID config; "attempts"; Itoa (rc_Attempt config)].

Definition objectNames : list string :=
  ["/source.tar.gz"; "/test-report.json"; "/trajectory/000001.jsonl"; "/logs/stdout.txt"; "/logs/stderr.txt"; "/result-manifest.json"].

(** Every key the attempt writes, the manifest's last. *)
Definition keysOf (config : RuntimeConfig) : list string := (fun name => keyPrefix config +:+ name) <$> objectNames.

Lemma validated_names config : validateRuntimeConfig config = Ok tt -> Forall properName (prefixParts config).
Proof.
  unfold validateRuntimeConfig. intros H. apply bind_ok in H as ([] & _ & H). apply bind_ok in H as ([] & Hc%checkAll_ok & _).
  assert (Hn : forall s, failIf (negb (plainReference s)) (ErrPlain "runtime config contains an invalid identity") = Ok tt -> properName (bytes s)).
  { intros s Hs%failIf_ok%negb_false_iff. unfold plainReference in Hs. apply andb_prop in Hs as [Hs _]. by apply referenceName_proper. }
  rewrite !Forall_cons in Hc. destruct Hc as (H1%Hn & H2%Hn & H3%Hn & _).
  assert (Hclosed : forall s, bool_decide (bytes s <> [] /\ bytes s <> [dotByte] /\ bytes s <> dotdot /\ slashByte ∉ bytes s) = true -> properName (bytes s)) by (by intros s ?%bool_decide_eq_true).
  unfold prefixParts. cbn [fmap list_fmap]. repeat (apply Forall_cons_2; [first [done|apply Itoa_proper|apply Hclosed; vm_compute; reflexivity]|]). apply Forall_nil_2.
Qed.

Lemma split_key config name :
  Forall properName (prefixParts config) -> splitOn slashByte (bytes (keyPrefix config +:+ "/" +:+ name)) = prefixParts config ++ splitOn slashByte (bytes name).
Proof.
  intros Hp. rewrite !bytes_app. change (bytes "/") with [slashByte]. cbn [app]. rewrite splitOn_app_sep. f_equal. unfold keyPrefix, text. rewrite bytes_of_list.
  fold (prefixParts config). by apply splitOn_join, Forall_proper_slash.
Qed.

Lemma objectNames_split name :
  name ∈ objectNames -> exists rest, name = ("/" +:+ rest)%string /\ Forall properName (splitOn slashByte (bytes rest)) /\
    match last (splitOn slashByte (bytes rest)) with Some l => hasPrefixBytes temporaryMark l = false | None => False end.
Proof.
  assert (Hclosed : forall l, forallb (fun part => bool_decide (part <> [] /\ part <> [dotByte] /\ part <> dotdot /\ slashByte ∉ part)) l = true -> Forall properName l).
  { intros l Hl. apply Forall_forall. intros part Hin%list_elem_of_In. rewrite forallb_forall in Hl. by apply Hl, bool_decide_eq_true in Hin. }
  unfold objectNames. rewrite !elem_of_cons. intros [->|[->|[->|[->|[->|[->|H]]]]]]; [..|by apply not_elem_of_nil in H];
    match goal with |- exists rest, ?n = _ /\ _ => exists (text (drop 1 (bytes n))) end;
    (split; [reflexivity|split; [apply Hclosed; vm_compute; reflexivity|vm_compute; reflexivity]]).
Qed.

Lemma keysOf_plain config key : Forall properName (prefixParts config) -> key ∈ keysOf config -> plainKey key.
Proof.
  intros Hp (name & -> & Hn)%list_elem_of_fmap. destruct (objectNames_split name Hn) as (rest & -> & Hr & Hl). unfold plainKey. rewrite split_key by done. split.
  - by apply Forall_app.
  - rewrite last_app. by destruct (last _).
Qed.

Lemma keysOf_nodup config : NoDup (keysOf config).
Proof.
  apply NoDup_fmap_2; [|apply (bool_decide_unpack _); vm_compute; reflexivity].
  intros a b E%(f_equal bytes). rewrite !bytes_app in E. apply (inj (app _)) in E. by apply bytes_inj.
Qed.

(** Attempts never share an artifact. Two accepted configurations that have one
    artifact key in common are for the same tenant, project, run and attempt: a retry
    or another tenant's run cannot overwrite the evidence of an attempt. *)
Theorem artifact_keys_scoped config config' key :
  validateRuntimeConfig config = Ok tt -> validateRuntimeConfig config' = Ok tt -> key ∈ keysOf config -> key ∈ keysOf config' ->
  rc_TenantID config = rc_TenantID config' /\ rc_ProjectID config = rc_ProjectID config' /\ rc_RunID config = rc_RunID config' /\
  rc_Attempt config = rc_Attempt config'.
Proof.
  intros Hp%validated_names Hp'%validated_names (name & -> & Hn)%list_elem_of_fmap (name' & E & Hn')%list_elem_of_fmap.
  destruct (objectNames_split name Hn) as (rest & -> & _). destruct (objectNames_split name' Hn') as (rest' & -> & _).
  apply (f_equal (fun key => splitOn slashByte (bytes key))) in E. rewrite !split_key in E by done. apply app_inj_1 in E as [E _]; [|done].
  unfold prefixParts in E. cbn [fmap list_fmap] in E. injection E as E1 E2 E3 E4. apply bytes_inj in E1, E2, E3, E4. split_and!; [done..|]. by apply (inj pretty) in E4.
Qed.

(** ** The publication protocol *)

Section Protocol.
Context {SH : SHA256} {S : Type} {AS : ArtifactStore S}.

(** The store holds, under the object's key, bytes with the object's digest and size. *)
Definition durable (s : S) (object : ArtifactObject) : Prop :=
  exists contents, stored s (ao_Key object) = Some contents /\ ao_SHA256 object = sha256Hex (text contents) /\ ao_Size object = Z.of_nat (length contents).

Lemma putAttempts_spec attempts s key contentType contents s' r :
  plainKey key -> putAttempts attempts s key contentType contents = (s', r) ->
  (forall other, plainKey other -> other <> key -> stored s' other = stored s other) /\
  (forall object, r = inl object -> object = artifactObject key contentType contents /\ durable s' object).
Proof.
  intros Hk. revert s. induction attempts as [|attempts IH]; intros s; cbn [putAttempts]; [by intros [= <- <-]|].
  pose proof (Put_frame s key contentType contents) as Hpf. destruct (store_Put s key contentType contents) as [s1 result] eqn:Hput. cbn [fst] in Hpf.
  assert (Hagain : forall s2, (forall other, plainKey other -> other <> key -> stored s2 other = stored s other) ->
    match store_Pause s2 with (s3, Some e) => (s3, inr (ErrContext e)) | (s3, None) => putAttempts attempts s3 key contentType contents end = (s', r) ->
    (forall other, plainKey other -> other <> key -> stored s' other = stored s other) /\
    (forall object, r = inl object -> object = artifactObject key contentType contents /\ durable s' object)).
  { intros s2 Hf. pose proof (Pause_frame s2) as Hpause. destruct (store_Pause s2) as [s3 [e|]]; cbn [fst] in Hpause.
    - intros [= <- <-]. split; [|done]. intros other Ho Hne. by rewrite Hpause, Hf.
    - intros [H1 H2]%IH. split; [|done]. intros other Ho Hne. by rewrite H1, Hpause, Hf. }
  destruct result as [object|]; [|by apply Hagain; intros; apply Hpf].
  pose proof (Head_frame s1 key) as Hhf. destruct (store_Head s1 key) as [s2 head] eqn:Hhead. cbn [fst] in Hhf.
  assert (Hf : forall other, plainKey other -> other <> key -> stored s2 other = stored s other) by (intros other Ho Hne; by rewrite Hhf, Hpf).
  destruct head as [head|]; [|by apply Hagain]. destruct (_ && _) eqn:Hv; [|by apply Hagain]. intros [= <- <-]. split; [done|]. intros object' [= <-].
  pose proof (Put_result _ _ _ _ _ _ Hput) as Ho. split; [done|]. apply andb_prop in Hv as [Hsize%Z.eqb_eq Hsha%bool_decide_eq_true].
  destruct (Head_truth _ _ _ _ Hhead) as (c & Hc & H1 & H2). exists c. rewrite Hhf. rewrite Ho at 1. cbn [artifactObject ao_Key]. split_and!; congruence.
Qed.

Definition publishedAs (object : string * string * list Ascii.ascii) : ArtifactObject :=
  let '(key, contentType, contents) := object in artifactObject key contentType contents.

Definition keyOf (object : string * string * list Ascii.ascii) : string := object.1.1.

Lemma publishedAs_key object : ao_Key (publishedAs object) = keyOf object.
Proof. by destruct object as [[key contentType] contents]. Qed.

Lemma publishObjects_spec objects s s' r :
  Forall plainKey (keyOf <$> objects) -> NoDup (keyOf <$> objects) -> publishObjects s objects = (s', r) ->
  (forall other, plainKey other -> other ∉ keyOf <$> objects -> stored s' other = stored s other) /\
  (forall published, r = inl published -> published = publishedAs <$> objects /\ Forall (durable s') published).
Proof.
  revert s s' r. induction objects as [|[[key contentType] contents] objects IH]; intros s s' r Hp Hd; cbn [publishObjects].
  { intros [= <- <-]. split; [done|]. intros published [= <-]. by split; [|constructor]. }
  rewrite fmap_cons in Hp, Hd. cbn [keyOf fst] in Hp, Hd. apply Forall_cons in Hp as [Hk Hp]. apply NoDup_cons in Hd as [Hn Hd]. rewrite fmap_cons. cbn [keyOf fst].
  destruct (putVerified s key contentType contents) as [s1 r1] eqn:Hput. apply putAttempts_spec in Hput as [Hf Hr]; [|done].
  destruct r1 as [object|e]; [|intros [= <- <-]; split; [intros other Ho Hne; apply Hf; set_solver|done]].
  destruct (publishObjects s1 objects) as [s2 r2] eqn:Hrest. destruct (IH _ _ _ Hp Hd Hrest) as [Hf2 Hr2]. destruct (Hr object eq_refl) as [Ho Hdur].
  assert (Hframe : forall other, plainKey other -> other ∉ key :: (keyOf <$> objects) -> stored s2 other = stored s other).
  { intros other Hpo Hno. rewrite Hf2, Hf by set_solver. done. }
  destruct r2 as [published|e]; intros [= <- <-]; (split; [exact Hframe|]); [|done]. intros published' [= <-].
  destruct (Hr2 published eq_refl) as [-> Hdp]. split; [by rewrite fmap_cons, Ho|]. constructor; [|done].
  destruct Hdur as (c & Hc & H1 & H2). exists c. rewrite Hf2; [done|rewrite Ho; done|]. rewrite Ho. done.
Qed.

Lemma keyOf_objectsOf config snapshot trajectory results :
  keyOf <$> objectsOf config snapshot trajectory results = take 5 (keysOf config).
Proof. done. Qed.

(** What publication writes: the manifest's key only after every other object is
    durable; on success the manifest is durable too. *)
Lemma publishArtifacts_spec s config snapshot trajectory results s' r :
  validateRuntimeConfig config = Ok tt -> publishArtifacts s config snapshot trajectory results = (s', r) ->
  let published source := publishedAs <$> objectsOf config source trajectory results in
  (stored s' (manifestKey config) = stored s (manifestKey config) /\ (forall reference, r <> inl reference)) \/
  (exists source, snapshot = Some source /\ Forall (durable s') (published source) /\
    forall reference, r = inl reference -> reference = store_Reference (manifestKey config) /\
      durable s' (artifactObject (manifestKey config) "application/json" (print (manifestJSON (manifestOf config (published source) trajectory))))).
Proof.
  intros Hv%validated_names. unfold publishArtifacts. destruct snapshot as [source|]; [|intros [= <- <-]; by left].
  pose proof (keysOf_nodup config) as Hd. assert (Hplain : Forall plainKey (keysOf config)) by (apply Forall_forall; intros key; by apply keysOf_plain).
  change (keysOf config) with (take 5 (keysOf config) ++ [manifestKey config]) in Hd, Hplain. apply NoDup_app in Hd as (Hd & Hdis & _).
  apply Forall_app in Hplain as [Hplain Hm]. apply Forall_inv in Hm.
  assert (Hfresh : manifestKey config ∉ take 5 (keysOf config)) by (intros Hin; by apply Hdis in Hin; set_solver).
  destruct (publishObjects s _) as [s1 r1] eqn:Hobjects. apply publishObjects_spec in Hobjects as [Hf Hr]; [|by rewrite keyOf_objectsOf..].
  rewrite keyOf_objectsOf in Hf. destruct r1 as [published|e]; [|intros [= <- <-]; left; split; [by apply Hf|done]].
  destruct (Hr published eq_refl) as [-> Hdur]. destruct (putVerified s1 (manifestKey config) _ _) as [s2 r2] eqn:Hput. apply putAttempts_spec in Hput as [Hf2 Hr2]; [|done].
  assert (Hdur2 : Forall (durable s2) (publishedAs <$> objectsOf config source trajectory results)).
  { rewrite Forall_forall in *. intros object Hin. destruct (Hdur object Hin) as (c & Hc & H1 & H2). exists c. split_and!; [|done..]. rewrite <-Hc.
    assert (Hk : ao_Key object ∈ take 5 (keysOf config)).
    { apply list_elem_of_fmap in Hin as (o & -> & Ho). rewrite publishedAs_key, <-(keyOf_objectsOf config source trajectory results). by apply list_elem_of_fmap_2. }
    apply Hf2; [by eapply Forall_forall in Hplain|]. intros E. by rewrite E in Hk. }
  destruct r2 as [object|e]; intros [= <- <-]; cbv zeta; right; exists source; (split_and!; [done..|]); [|done].
  intros reference [= <-]. by destruct (Hr2 object eq_refl) as [-> Hdm].
Qed.

(** C28: The manifest is the commit point of an attempt. Whatever the store and the
    context do, the manifest's key is written only after every object it lists is
    stored with the digest and size the manifest states; and publication succeeds
    only if that holds for the manifest too, and then returns its reference. *)
Theorem manifest_commits_last s config snapshot trajectory results s' r :
  validateRuntimeConfig config = Ok tt -> stored s (manifestKey config) = None ->
  publishArtifacts s config snapshot trajectory results = (s', r) ->
  let published source := publishedAs <$> objectsOf config source trajectory results in
  (stored s' (manifestKey config) <> None -> exists source, snapshot = Some source /\ Forall (durable s') (published source)) /\
  (forall reference, r = inl reference -> exists source, snapshot = Some source /\ reference = store_Reference (manifestKey config) /\
    Forall (durable s') (published source) /\
    durable s' (artifactObject (manifestKey config) "application/json" (print (manifestJSON (manifestOf config (published source) trajectory))))).
Proof.
  intros Hv Hnone Hp. cbv zeta. destruct (publishArtifacts_spec _ _ _ _ _ _ _ Hv Hp) as [[Hs Hr]|(source & Hsrc & Hd & Hr)].
  - split; [by rewrite Hs|]. intros reference E. by apply Hr in E.
  - split; [by exists source|]. intros reference [-> Hm]%Hr. by exists source.
Qed.
End Protocol.

(** ** The snapshot *)

Lemma node_induction (P : node -> Prop) :
  (forall contents, P (FileNode contents)) -> P LinkNode -> P BadNode ->
  (forall entries, Forall (fun entry => P entry.2) entries -> P (DirNode entries)) -> forall n, P n.
Proof.
  intros Hf Hl Hb Hd. fix IH 1. intros [contents| | |entries]; [apply Hf|apply Hl|apply Hb|apply Hd].
  induction entries as [|[name n] entries IHe]; constructor; [apply IH|exact IHe].
Qed.

(** The files and links of a tree, each with the names that lead to it. *)
Fixpoint leaves (names : list (list Ascii.ascii)) (n : node) : list (list (list Ascii.ascii) * option (list Ascii.ascii)) :=
  match n with
  | FileNode contents => [(names, Some contents)]
  | LinkNode => [(names, None)]
  | BadNode => []
  | DirNode entries => concat (map (fun '(name, n) => leaves (names ++ [bytes name]) n) entries)
  end.

(** A tree the system can read, with proper names. *)
Fixpoint readable (n : node) : Prop :=
  match n with
  | BadNode => False
  | DirNode entries => foldr (fun '(name, n) P => (properName (bytes name) /\ readable n) /\ P) True entries
  | _ => True
  end.

Lemma mapM_append {A B} (f : A -> option B) l k :
  mapM f (l ++ k) = match mapM f l, mapM f k with Some x, Some y => Some (x ++ y) | _, _ => None end.
Proof.
  induction l as [|a l IH]; cbn [app mapM]; [by destruct (mapM f k)|]. destruct (f a) as [b|]; [|done]. simpl. rewrite IH.
  destruct (mapM f l); [|done]. simpl. by destruct (mapM f k).
Qed.

Section SnapshotSpec.
Context (workspace artifactRoot : string) (Hw : IsAbs workspace = true) (Ha : artifactRoot = EmptyString \/ IsAbs artifactRoot = true).

(** Outside the artifact store, when that is inside the workspace. *)
Definition shown (names : list (list Ascii.ascii)) : bool :=
  (artifactRoot == EmptyString) || bool_decide (~ pt_parts (parsePath artifactRoot) `prefix_of` pt_parts (parsePath workspace) ++ names).

Definition named (leaf : list (list Ascii.ascii) * option (list Ascii.ascii)) : option (string * list Ascii.ascii) :=
  (fun contents => (text (joinWith [slashByte] leaf.1), contents)) <$> leaf.2.

(** What the snapshot should hold: every file outside the artifact store; a link
    there makes it fail. *)
Definition snapshotSpec (names : list (list Ascii.ascii)) (n : node) : option (list (string * list Ascii.ascii)) :=
  mapM named (filter (fun leaf => shown leaf.1) (leaves names n)).

Lemma insideArtifacts_shown path names :
  IsAbs path = true -> pt_parts (parsePath path) = pt_parts (parsePath workspace) ++ names -> insideArtifacts artifactRoot path = negb (shown names).
Proof.
  intros Hp E. unfold insideArtifacts, shown. destruct Ha as [->|Hr]; [done|]. rewrite (bool_decide_eq_false_2 (artifactRoot = EmptyString)) by (by intros ->).
  destruct (Rel_confined artifactRoot path Hr Hp) as (relative & -> & Hc & _). cbn [negb andb orb]. rewrite <-E.
  assert (Hd : (relative == ".") || negb (escapes relative) = negb (escapes relative)) by (case_bool_decide; [by subst|done]). rewrite Hd.
  destruct (escapes relative); symmetry; simpl.
  - apply negb_false_iff, bool_decide_eq_true_2. intros Hx. by apply Hc in Hx.
  - apply negb_true_iff, bool_decide_eq_false_2. intros Hx. by apply Hx, Hc.
Qed.

Lemma hidden_below names more : shown names = false -> shown (names ++ more) = false.
Proof.
  unfold shown. case_bool_decide as He; [done|]. cbn [orb]. intros H%bool_decide_eq_false. apply dec_stable in H. apply bool_decide_eq_false_2. intros Hn. apply Hn.
  rewrite app_assoc. by apply prefix_app_r.
Qed.

Lemma hidden_leaves n names : shown names = false -> filter (fun leaf => shown leaf.1) (leaves names n) = [].
Proof.
  revert names. induction n as [contents| | |entries IH] using node_induction; intros names Hh; cbn [leaves].
  - rewrite filter_cons_False; [done|]. cbn [fst]. rewrite Hh. by intros [].
  - rewrite filter_cons_False; [done|]. cbn [fst]. rewrite Hh. by intros [].
  - done.
  - induction IH as [|[name n] entries Hn _ IHe]; [done|]. cbn [map concat]. rewrite filter_app, IHe. cbn [snd] in Hn. rewrite Hn; [done|]. by apply hidden_below.
Qed.

Lemma walk_spec n path names :
  readable n -> IsAbs path = true -> pt_parts (parsePath path) = pt_parts (parsePath workspace) ++ names ->
  names <> [] \/ (exists entries, n = DirNode entries) -> walk workspace artifactRoot path n = snapshotSpec names n.
Proof.
  revert path names. induction n as [contents| | |entries IH] using node_induction; intros path names Hr Hp E Hn; unfold snapshotSpec; cbn [walk leaves].
  - rewrite (insideArtifacts_shown path names Hp E). destruct (shown names) eqn:Hs; cbn [negb].
    + rewrite filter_cons_True by (cbn [fst]; by rewrite Hs). destruct Hn as [Hn|[? ?]]; [|done]. by rewrite (Rel_below _ _ names Hw Hp E Hn).
    + rewrite filter_cons_False by (cbn [fst]; rewrite Hs; by intros []). done.
  - rewrite (insideArtifacts_shown path names Hp E). destruct (shown names) eqn:Hs; cbn [negb].
    + by rewrite filter_cons_True by (cbn [fst]; by rewrite Hs).
    + by rewrite filter_cons_False by (cbn [fst]; rewrite Hs; by intros []).
  - done.
  - rewrite (insideArtifacts_shown path names Hp E). destruct (shown names) eqn:Hs; cbn [negb].
    2:{ change (concat _) with (leaves names (DirNode entries)). by rewrite hidden_leaves. }
    clear Hn Hs. induction IH as [|[name n] entries IHn _ IHe]; [done|]. cbn [foldr map concat snd] in *. destruct Hr as [[Hname Hrn] Hr].
    assert (Hparts : pt_parts (parsePath (Join [path; name])) = pt_parts (parsePath workspace) ++ names ++ [bytes name]).
    { rewrite Join_proper; [|done|apply Forall_cons_2; [done|apply Forall_nil_2]]. by rewrite E, <-app_assoc. }
    rewrite (IHn (Join [path; name]) (names ++ [bytes name])); [|done|by apply Join_rooted|done|left; by intros [_ ?]%app_nil].
    rewrite (IHe Hr), filter_app, mapM_append. done.
Qed.
End SnapshotSpec.

(** The source snapshot is exact. Walking a readable workspace gives every regular
    file outside the artifact store, named relative to the workspace, in the order of
    the walk, and nothing else; it fails exactly when a symbolic link lies outside
    the artifact store. *)
Theorem snapshot_exact archive workspace artifactRoot entries :
  IsAbs workspace = true -> artifactRoot = EmptyString \/ IsAbs artifactRoot = true -> readable (DirNode entries) ->
  sourceSnapshot archive workspace artifactRoot (DirNode entries) = archive <$> snapshotSpec workspace artifactRoot [] (DirNode entries).
Proof.
  intros Hw Ha Hr. unfold sourceSnapshot. rewrite (walk_spec workspace artifactRoot Hw Ha _ workspace []); [done|done|done| |by right; eexists].
  by rewrite app_nil_r.
Qed.
