(* ===== verification/RunnerRun.v ===== *)
(** * A run of the runner

    agent-runner/internal/runner/runner.go and cmd/agent-runner/main.go: the whole of
    [Run], from the mounted configuration to the termination message, with the
    heartbeats that share its trajectory, and the exit code of the process.

    [run_success_evidence] says what an exit code of zero means; [evidence_parsed]
    that the operator accepts the termination message the runner writes;
    [success_observed] puts the two sides together. *)

From S2P Require Import Prelude JsonDecode Paths Url Events OpTypes Builder Lifecycle RunnerTask RunnerExec RunnerArtifacts.

Definition ExitSuccess : Z := 0.
Definition ExitConfig : Z := 2.
Definition ExitPolicy : Z := 3.
Definition ExitCommand : Z := 4.
Definition ExitDeadline : Z := 5.
Definition ExitCancelled : Z := 6.
Definition ExitArtifacts : Z := 7.
Definition ExitInternal : Z := 8.

Record Options := {
  op_ConfigPath : string;
  op_Workspace : string;
  op_SecretRoot : string;
  op_ConfigRoot : string;
  op_ArtifactConfigPath : string;
  op_TerminationLogPath : string;
}.

Definition orElse (value fallback : string) : string := if value == EmptyString then fallback else value.

Definition withDefaults (options : Options) : Options :=
  {| op_ConfigPath := op_ConfigPath options; op_Workspace := op_Workspace options;
     op_SecretRoot := orElse (op_SecretRoot options) "/var/run/agentforge/secrets";
     op_ConfigRoot := orElse (op_ConfigRoot options) "/etc/agentforge/config";
     op_ArtifactConfigPath := orElse (op_ArtifactConfigPath options) "/etc/agentforge/artifacts/config.json";
     op_TerminationLogPath := orElse (op_TerminationLogPath options) "/dev/termination-log" |}.

(** What the system does during a run. Events are counted in the order the runner
    emits them; [rw_Beats i] are the heartbeats the other goroutine gets in before the
    event [i], each with its time and whether the log accepts it. *)
Class RunnerWorld := {
  rw_Beats : nat -> list (Time * bool);
  rw_Clock : nat -> Time;
  rw_Logged : nat -> bool;
  rw_WriteFile : string -> bool;
  rw_Exists : string -> bool;
  rw_LookPath : option string;
  rw_Start : nat -> Command -> option StartedProcess;
  rw_Tree : node;
  rw_Archive : list (string * list Ascii.ascii) -> list Ascii.ascii;
}.

(** [writeTerminationEvidence]: the message, unless it is too long. *)
Definition evidenceJSON (reference : string) : JSON :=
  JObject [ (bytes "schemaVersion", JInt 1); (bytes "artifactManifestRef", JText reference) ].

Definition terminationEvidenceFor (reference : string) : option (list Ascii.ascii) :=
  let contents := print (evidenceJSON reference) in
  if 4096 <? Z.of_nat (length contents) then None else Some contents.

Section Runner.
Context {SH : SHA256} {FS : Files} {FT : FileTree} {ED : Ed25519} {IL : IPLiterals} {SU : StoreSetup} {RW : RunnerWorld}.
Context {S : Type} (storeOf : storeChoice -> ArtifactStore S) (store0 : S).

(** ** Events *)

Record RunState := {
  rs_sink : TrajectorySink;
  rs_event : nat;
}.

Definition heartbeats (sink : TrajectorySink) (beats : list (Time * bool)) : TrajectorySink :=
  foldl (fun sink '(now, logged) => (Emit sink now logged "heartbeat" "runner is active").1) sink beats.

Definition emit (st : RunState) (kind message : string) : RunState * bool :=
  let i := rs_event st in
  let '(sink, ok) := Emit (heartbeats (rs_sink st) (rw_Beats i)) (rw_Clock i) (rw_Logged i) kind message in
  ({| rs_sink := sink; rs_event := Datatypes.S i |}, ok).

(** ** The controlled template and its tests *)

Definition writePythonTemplate (workspace template : string) : bool :=
  (template == "python-basic") && rw_WriteFile (Join [workspace; "app.py"]) && rw_WriteFile (Join [workspace; "test_app.py"]).

Definition defaultPythonExecutable : string :=
  let imagePython := "/usr/local/bin/python3" in
  if rw_Exists imagePython then imagePython else default imagePython rw_LookPath.

Definition DefaultExecutor (workspace : string) : Executor :=
  {| ex_Workspace := workspace; ex_AllowedExecutables := [defaultPythonExecutable]; ex_OutputLimit := maximumCommandOutput |}.

(** The tests from the [i]-th on; the results of those that ran before an error. *)
Fixpoint testLoop (executor : Executor) (i : nat) (tests : list (list string)) (st : RunState)
    : RunState * list CommandResult * option RunError :=
  match tests with
  | [] => (st, [], None)
  | command :: tests =>
      match emit st "command.started" (default EmptyString (head command)) with
      | (st, false) => (st, [], Some (ErrOther "emit"))
      | (st, true) =>
          match Executor_Run (rw_Start i) executor command "." {["PYTHONDONTWRITEBYTECODE" := "1"]} with
          | (result, Some e) => (st, [result], Some e)
          | (result, None) =>
              match emit st "command.finished" "controlled command completed" with
              | (st, false) => (st, [], Some (ErrOther "emit"))
              | (st, true) =>
                  let '(st, results, e) := testLoop executor (Datatypes.S i) tests st in (st, result :: results, e)
              end
          end
      end
  end.

Definition runTests (workspace : string) (task : TaskEnvelope) (st : RunState) : RunState * list CommandResult * option RunError :=
  if forallb (fun name => rw_Exists (Join [workspace; name])) ["app.py"; "test_app.py"]
  then testLoop (DefaultExecutor workspace) 0 (tk_Tests task) st
  else (st, [], Some (ErrOther "controlled template check")).

(** ** Run *)

(** The exit code, the error, the store afterwards and the termination message. *)
Record RunResult := {
  rr_Code : Z;
  rr_Error : option RunError;
  rr_Store : S;
  rr_Message : option (list Ascii.ascii);
}.

Definition exit (code : Z) (e : RunError) (s : S) : RunResult := {| rr_Code := code; rr_Error := Some e; rr_Store := s; rr_Message := None |}.

Definition testExitCode (e : RunError) : Z :=
  match e with
  | ErrContext DeadlineExceeded => ExitDeadline
  | ErrContext ContextCanceled => ExitCancelled
  | ErrCommandPolicy _ => ExitPolicy
  | _ => ExitCommand
  end.

(** From the verified task on: the template, the tests, the artifacts, the message. *)
Definition execute (options : Options) (config : RuntimeConfig) (task : TaskEnvelope) (redactor : Redactor) : RunResult :=
  let internal := exit ExitInternal (ErrOther "internal") store0 in
  match emit {| rs_sink := emptySink redactor; rs_event := 0 |} "run.started" "deterministic runner started" with
  | (_, false) => internal
  | (st, true) =>
      if negb (writePythonTemplate (op_Workspace options) (tk_Template task)) then internal
      else match emit st "workspace.ready" "controlled template created" with
      | (_, false) => internal
      | (st, true) =>
          match runTests (op_Workspace options) task st with
          | (_, _, Some e) => exit (testExitCode e) e store0
          | (st, results, None) =>
              match emit st "tests.passed" "controlled template checks passed" with
              | (_, false) => internal
              | (st, true) =>
                  match LoadArtifactStore (op_ArtifactConfigPath options) (op_Workspace options) (op_SecretRoot options) (rc_SecretRefs config) with
                  | Err _ => exit ExitArtifacts (ErrOther "artifact store") store0
                  | Ok choice =>
                      let sink := heartbeats (rs_sink st) (rw_Beats (rs_event st)) in
                      let artifactRoot := match choice with FilesystemChoice root => root | S3Choice _ _ _ _ _ => EmptyString end in
                      let snapshot := sourceSnapshot rw_Archive (op_Workspace options) artifactRoot rw_Tree in
                      match @publishArtifacts _ _ (storeOf choice) store0 config snapshot (ts_trajectory sink) results with
                      | (s, inr e) => exit ExitArtifacts e s
                      | (s, inl reference) =>
                          match terminationEvidenceFor reference with
                          | None => exit ExitArtifacts (ErrOther "termination evidence exceeds limit") s
                          | Some contents =>
                              if rw_WriteFile (op_TerminationLogPath options)
                              then {| rr_Code := ExitSuccess; rr_Error := None; rr_Store := s; rr_Message := Some contents |}
                              else exit ExitArtifacts (ErrOther "write termination evidence") s
                          end
                      end
                  end
              end
          end
      end
  end.

Definition Run (options : Options) : RunResult :=
  if op_Workspace options == EmptyString then exit ExitConfig (ErrOther "AGENTFORGE_WORKSPACE is required") store0
  else
    let options := withDefaults options in
    match LoadRuntimeConfig (op_ConfigPath options) with
    | Err _ => exit ExitConfig (ErrOther "runtime config") store0
    | Ok config =>
        match LoadSignedTask config (op_SecretRoot options) (op_ConfigRoot options) with
        | Err _ => exit ExitConfig (ErrOther "signed task") store0
        | Ok task =>
            if negb (mkdirAll (op_Workspace options)) then exit ExitInternal (ErrOther "create workspace") store0
            else match NewRedactor (op_SecretRoot options) (rc_SecretRefs config) with
                 | Err _ => exit ExitConfig (ErrOther "redactor") store0
                 | Ok redactor => execute options config task redactor
                 end
        end
    end.

(** cmd/agent-runner/main.go: the code of the process. *)
Definition exitCode (result : RunResult) : Z :=
  if rr_Error result == Some (ErrContext ContextCanceled) then ExitCancelled else rr_Code result.
End Runner.

(** ** Successful runs *)

Lemma Executor_Run_ok {FT : FileTree} start executor arguments workingDirectory environment result :
  Executor_Run start executor arguments workingDirectory environment = (result, None) -> cr_Arguments result = arguments /\ cr_ExitCode result = 0.
Proof.
  unfold Executor_Run. destruct (prepare _ _ _ _) as [command|]; [|done]. destruct (start command) as [process|]; [|done].
  destruct (ps_Selected process); [|done|done]. destruct (_ || _); [done|]. destruct (ps_Wait process) eqn:Hw; [|done|done]. intros [= <-]. unfold commandResult. by rewrite ?Hw.
Qed.

Lemma LoadRuntimeConfig_valid {FS : Files} path config : LoadRuntimeConfig path = Ok config -> validateRuntimeConfig config = Ok tt.
Proof.
  unfold LoadRuntimeConfig. rewrite bind_failIf. destruct (_ == _); [done|]. destruct (readFile path); [|done|done].
  destruct (decodeStrict _ _ _ _) as [c|]; [|done]. intros H. apply bind_ok in H as ([] & Hv & H%Ok_inj). by subst.
Qed.

Section Success.
Context {SH : SHA256} {FS : Files} {FT : FileTree} {ED : Ed25519} {IL : IPLiterals} {SU : StoreSetup} {RW : RunnerWorld}.
Context {S : Type} (storeOf : storeChoice -> ArtifactStore S) (store0 : S).

Definition passed (command : list string) (result : CommandResult) : Prop := cr_Arguments result = command /\ cr_ExitCode result = 0.

Lemma testLoop_passed executor i tests st st' results : testLoop executor i tests st = (st', results, None) -> Forall2 passed tests results.
Proof.
  revert i st st' results. induction tests as [|command tests IH]; intros i st st' results; cbn [testLoop]; [intros [= _ <-]; constructor|].
  destruct (emit st _ _) as [st1 []]; [|done]. destruct (Executor_Run _ _ _ _ _) as [result [e|]] eqn:Hr; [done|].
  destruct (emit st1 _ _) as [st2 []]; [|done]. destruct (testLoop _ _ _ _) as [[st3 rest] e] eqn:Ht. intros [= <- <- ->].
  constructor; [by eapply Executor_Run_ok|by eapply IH].
Qed.

(** A run that did its work: the task it was given is authentic, every test passed,
    the artifacts and then the manifest are in the store, and the message refers to
    the manifest. *)
Record completed (options : Options) (result : RunResult (S := S)) : Prop := {
  cm_result : exists config task results source trajectory choice message,
    LoadRuntimeConfig (op_ConfigPath options) = Ok config /\
    authenticTask config (op_SecretRoot (withDefaults options)) (op_ConfigRoot (withDefaults options)) task /\
    Forall2 passed (tk_Tests task) results /\
    LoadArtifactStore (op_ArtifactConfigPath (withDefaults options)) (op_Workspace options) (op_SecretRoot (withDefaults options)) (rc_SecretRefs config) = Ok choice /\
    Forall (@durable _ _ (storeOf choice) (rr_Store result)) (publishedAs <$> objectsOf config source trajectory results) /\
    @durable _ _ (storeOf choice) (rr_Store result)
      (artifactObject (manifestKey config) "application/json"
        (print (manifestJSON (manifestOf config (publishedAs <$> objectsOf config source trajectory results) trajectory)))) /\
    terminationEvidenceFor (@store_Reference _ _ (storeOf choice) (manifestKey config)) = Some message /\ rr_Message result = Some message;
}.

Lemma exit_failed code e s : code <> ExitSuccess -> rr_Message (exit (S := S) code e s) = None /\ rr_Code (exit (S := S) code e s) <> ExitSuccess.
Proof. done. Qed.

Lemma testExitCode_failed e : testExitCode e <> ExitSuccess.
Proof. by destruct e as [| |[]|]. Qed.

(** What [execute] can end with. *)
Lemma execute_cases options config task redactor :
  validateRuntimeConfig config = Ok tt ->
  let result := execute storeOf store0 options config task redactor in
  (rr_Message result = None /\ rr_Code result <> ExitSuccess) \/
  (rr_Code result = ExitSuccess /\ rr_Error result = None /\
   exists results source trajectory choice message,
    Forall2 passed (tk_Tests task) results /\
    LoadArtifactStore (op_ArtifactConfigPath options) (op_Workspace options) (op_SecretRoot options) (rc_SecretRefs config) = Ok choice /\
    Forall (@durable _ _ (storeOf choice) (rr_Store result)) (publishedAs <$> objectsOf config source trajectory results) /\
    @durable _ _ (storeOf choice) (rr_Store result)
      (artifactObject (manifestKey config) "application/json"
        (print (manifestJSON (manifestOf config (publishedAs <$> objectsOf config source trajectory results) trajectory)))) /\
    terminationEvidenceFor (@store_Reference _ _ (storeOf choice) (manifestKey config)) = Some message /\ rr_Message result = Some message).
Proof.
  intros Hv. unfold execute. cbv zeta. destruct (emit _ "run.started" _) as [st []]; [|by left]. destruct (negb _); [by left|].
  destruct (emit st _ _) as [st1 []]; [|by left]. destruct (runTests _ _ _) as [[st2 results] [e|]] eqn:Ht; [left; apply exit_failed, testExitCode_failed|].
  destruct (emit st2 _ _) as [st3 []]; [|by left]. destruct (LoadArtifactStore _ _ _ _) as [choice|] eqn:Hl; [|by left].
  destruct (publishArtifacts _ _ _ _ _) as [s [reference|e]] eqn:Hp; [|by left].
  destruct (terminationEvidenceFor reference) as [message|] eqn:Hm; [|by left]. destruct (rw_WriteFile _); [right|by left].
  cbn [rr_Code rr_Error rr_Store rr_Message]. split; [done|]. split; [done|]. destruct (@publishArtifacts_spec _ _ (storeOf choice) _ _ _ _ _ _ _ Hv Hp) as [[_ Hr]|(source & _ & Hd & Hr)]; [by destruct (Hr reference)|].
  destruct (Hr reference eq_refl) as [-> Hdm]. do 5 eexists. split_and!; [|done|exact Hd|exact Hdm|exact Hm|done].
  unfold runTests in Ht. destruct (forallb _ _); [|done]. by eapply testLoop_passed.
Qed.

(** The termination message is written exactly by successful runs, and a successful
    run is complete. *)
Lemma Run_cases options :
  IsAbs (op_SecretRoot (withDefaults options)) = true ->
  let result := Run storeOf store0 options in
  (rr_Message result = None /\ rr_Code result <> ExitSuccess) \/ (rr_Code result = ExitSuccess /\ rr_Error result = None /\ rr_Message result <> None /\ completed options result).
Proof.
  intros Ha. unfold Run. cbv zeta. destruct (_ == _); [by left|]. change (op_ConfigPath (withDefaults options)) with (op_ConfigPath options).
  destruct (LoadRuntimeConfig _) as [config|] eqn:Hc; [|by left]. destruct (LoadSignedTask _ _ _) as [task|] eqn:Ht; [|by left].
  destruct (negb _); [by left|]. destruct (NewRedactor _ _) as [redactor|]; [|by left].
  destruct (execute_cases (withDefaults options) config task redactor (LoadRuntimeConfig_valid _ _ Hc))
    as [H|(Hcode & Herr & results & source & trajectory & choice & message & H1 & H2 & H3 & H4 & H5 & H6)]; [by left|right].
  split_and!; [done|done|by rewrite H6|]. constructor. exists config, task, results, source, trajectory, choice, message.
  split_and!; try done. by apply LoadSignedTask_authentic.
Qed.

(** An exit code of zero is evidence. The process exits with zero exactly when it
    has written a termination message, and then the task was authentic for the mounted
    configuration, every test command passed, all artifacts and the manifest that
    lists them are stored with their digests, and the message names that manifest. *)
Theorem run_success_evidence options :
  IsAbs (op_SecretRoot (withDefaults options)) = true ->
  let result := Run storeOf store0 options in
  (exitCode result = ExitSuccess <-> rr_Message result <> None) /\ (exitCode result = ExitSuccess -> completed options result).
Proof.
  intros Ha. cbv zeta. unfold exitCode. destruct (Run_cases options Ha) as [[Hm Hc]|(Hc & He & Hm & Hd)].
  - rewrite Hm. case_bool_decide; (split; [split; [|done]|]); intros E; done.
  - rewrite He, bool_decide_eq_false_2 by done. done.
Qed.
End Success.

(** ** The message and the operator *)

(** The operator reads back the reference the runner wrote. *)
Lemma evidence_parsed reference message :
  utf8 (bytes reference) -> artifactManifestReferencePattern reference = true -> len reference <= 2048 ->
  terminationEvidenceFor reference = Some message ->
  parseTerminationEvidence (text message) = Ok {| te_SchemaVersion := 1; te_ArtifactManifestRef := reference |}.
Proof.
  intros Hu Hp Hl. unfold terminationEvidenceFor. destruct (4096 <? _) eqn:Hlen; [done|]. intros E. apply (inj Some) in E. subst message. apply Z.ltb_ge in Hlen.
  unfold parseTerminationEvidence. rewrite bind_failIf. unfold len at 1 2. rewrite <-!length_bytes. unfold text. rewrite !bytes_of_list.
  assert (Hne : (0 < length (print (evidenceJSON reference)))%nat) by (apply Nat.neq_0_lt_0; intros E%nil_length_inv; discriminate E).
  set (n := length (print (evidenceJSON reference))) in *.
  rewrite (proj2 (Z.eqb_neq (Z.of_nat n) 0)), (proj2 (Z.ltb_ge maximumTerminationEvidenceBytes (Z.of_nat n))) by (unfold maximumTerminationEvidenceBytes; lia). cbn [orb].
  rewrite decodeFirst_print.
  2:{ split; [split; [apply utf8_of_ascii; reflexivity|by eexists]|]. split; [|done]. split; [apply utf8_of_ascii; reflexivity|done]. }
  2:{ apply Nat.leb_le. vm_compute. reflexivity. }
  unfold intoRecord, evidenceJSON. erewrite (intoStruct_cons _ _ "schemaVersion"); [|reflexivity|reflexivity].
  erewrite (intoStruct_cons _ _ "artifactManifestRef"); [|reflexivity|]; cycle 1.
  { etransitivity; [exact (f_equal (fmap _) (intoString_text _ reference))|reflexivity]. }
  cbn [intoStruct]. change (atEOF []) with true. rewrite !bind_failIf. cbn [te_SchemaVersion te_ArtifactManifestRef negb]. rewrite Hp.
  change (1 != 1) with false. by rewrite (proj2 (Z.ltb_ge _ _)) by lia.
Qed.

