(* ===== verification/RunnerExamples.v ===== *)
(** * A concrete run of the runner

    The parameters of the runner model instantiated: a mounted configuration as the
    operator writes it, a signed task, a file store inside the workspace that fails
    once, a Python test that passes. The run is evaluated to its exit code, and the
    theorems of the runner's files are applied to it. *)

From S2P Require Import Prelude Json JsonDecode Paths Url Events OpTypes Builder Lifecycle Operator OperatorExamples RunnerTask RunnerExec RunnerArtifacts RunnerRun.

(** ** The resource and the files *)

Definition runnerSpec : AgentRunSpec :=
  {| sp_TenantID := sp_TenantID exampleSpec; sp_ProjectID := sp_ProjectID exampleSpec; sp_RunID := sp_RunID exampleSpec;
     sp_AttemptID := sp_AttemptID exampleSpec; sp_Attempt := 1; sp_RunnerImage := sp_RunnerImage exampleSpec; sp_Runtime := sp_Runtime exampleSpec;
     sp_ExecutionProfile := sp_ExecutionProfile exampleSpec; sp_TaskRef := "secret://task/envelope"; sp_TimeoutSeconds := 600;
     sp_RetryPolicy := sp_RetryPolicy exampleSpec; sp_Resources := sp_Resources exampleSpec; sp_Workspace := sp_Workspace exampleSpec;
     sp_Network := sp_Network exampleSpec; sp_ArtifactDestinationRef := "artifacts"; sp_ConfigurationRefs := ["trust"; "settings"];
     sp_SecretRefs := ["task"]; sp_DeployOnSuccess := false; sp_DesiredState := DesiredStateRunning |}.

Definition runnerResource (attempt : Z) : AgentRunResource :=
  {| kr_Name := "run"; kr_Namespace := "tenant"; kr_UID := "uid"; kr_Generation := 1; kr_DeletionTimestamp := None; kr_Finalizers := [];
     kr_Spec := runnerSpec; kr_Status := exampleStatus <| ss_Attempt := attempt |> |}.

Definition runnerContext : buildContext :=
  match @resolve exampleValidation exampleBuilder (runnerResource 1) with
  | Ok context => context
  | Err _ => {| bc_run := runnerResource 1; bc_names := exampleNames; bc_profile := StandardProfile; bc_egress := None |}
  end.

Definition configText : string := text (print (runtimeConfig (runnerResource 1))).

Definition python : string := "/usr/local/bin/python3".

Definition taskJSON : JSON :=
  JObject
    [ (bytes "schemaVersion", JInt 1); (bytes "keyId", JText "k1"); (bytes "tenantId", JText (sp_TenantID runnerSpec));
      (bytes "projectId", JText (sp_ProjectID runnerSpec)); (bytes "runId", JText (sp_RunID runnerSpec));
      (bytes "attemptId", JText (sp_AttemptID runnerSpec)); (bytes "attempt", JInt 1); (bytes "template", JText "python-basic");
      (bytes "tests", JArray [JArray (JText <$> [python; "-m"; "unittest"])]) ].

Definition trustJSON : JSON := JObject [ (bytes "keys", JObject [(bytes "k1", JText "AAAAAAAAAAAAAAAAAAAAAAAAAAAAAAAAAAAAAAAAAAA=")]) ].

Definition storeJSON : JSON :=
  JObject [ (bytes "schemaVersion", JInt 1); (bytes "backend", JText "filesystem"); (bytes "root", JText "/workspace/artifacts") ].

Definition mounted : gmap string (list Ascii.ascii) :=
  list_to_map
    [ ("/etc/agentforge/runtime/config.json", bytes configText);
      ("/var/run/agentforge/secrets/task/envelope", print taskJSON);
      ("/var/run/agentforge/secrets/task/envelope.sig", bytes "c2lnbmF0dXJl");
      ("/etc/agentforge/config/trust/task-trust.json", print trustJSON);
      ("/etc/agentforge/artifacts/config.json", print storeJSON) ].

Definition exampleFiles : Files :=
  {| readFile := fun path => match mounted !! path with Some contents => FileContents contents | None => FileNotExist end |}.

(** Signatures are accepted when they are the word "signature". *)
Definition exampleEd25519 : Ed25519 := {| ed25519Verify := fun _ _ signature => signature == bytes "signature" |}.

Definition exampleLiterals : IPLiterals := {| ipLiteral := fun _ => None |}.

Definition exampleTree : FileTree :=
  {| evalSymlinks := fun path => Some (Clean path);
     readDir := fun path => if path == "/var/run/agentforge/secrets/task" then
                              Some [ {| de_Name := "envelope"; de_IsDir := false; de_IsSymlink := false |} ] else Some [];
     statIsDir := fun _ => Some false; lstat := fun _ => Some (true, false); getwd := Some "/workspace" |}.

Definition exampleSetup : StoreSetup := {| mkdirAll := fun _ => true; minioNew := fun _ => true |}.

(** ** The world of the run *)

Definition exampleProcess : StartedProcess :=
  {| ps_Stdout := []; ps_Stderr := [bytes "Ran 1 test"; bytes " OK"]; ps_Selected := SelectedWait; ps_Wait := WaitOk |}.

Definition workspaceTree : node :=
  DirNode [ ("app.py", FileNode (bytes "def add")); ("artifacts", DirNode []); ("test_app.py", FileNode (bytes "import unittest")) ].

Definition exampleRunnerWorld : RunnerWorld :=
  {| rw_Beats := fun i => if (i =? 3)%nat then [(7 * Second, true)] else []; rw_Clock := fun i => Z.of_nat i * Second; rw_Logged := fun _ => true;
     rw_WriteFile := fun _ => true; rw_Exists := fun _ => true; rw_LookPath := None; rw_Start := fun _ _ => Some exampleProcess;
     rw_Tree := workspaceTree; rw_Archive := fun files => concat ((fun file => bytes file.1 ++ file.2) <$> files) |}.

#[local] Existing Instances exampleValidation exampleSHA256 exampleFiles exampleEd25519 exampleLiterals exampleTree exampleSetup exampleRunnerWorld.

Definition storeRoot : string := "/workspace/artifacts".

Definition exampleStore : ArtifactStore Disk := diskStore storeRoot eq_refl.

(** The first upload fails and leaves a temporary file. *)
Definition exampleDisk : Disk := {| dk_files := ∅; dk_answers := [DiskFails (Some (17, bytes "par"))] |}.

Definition runnerOptions : Options :=
  {| op_ConfigPath := "/etc/agentforge/runtime/config.json"; op_Workspace := "/workspace"; op_SecretRoot := EmptyString;
     op_ConfigRoot := EmptyString; op_ArtifactConfigPath := EmptyString; op_TerminationLogPath := EmptyString |}.

Definition runnerResult : RunResult (S := Disk) := Run (fun _ => exampleStore) exampleDisk runnerOptions.

Lemma runnerResult_success : exitCode runnerResult = ExitSuccess.
Proof. vm_compute. reflexivity. Qed.

Definition runnerMessage : list Ascii.ascii := default [] (rr_Message runnerResult).

Lemma runnerResult_message : rr_Message runnerResult = Some runnerMessage.
Proof. vm_compute. reflexivity. Qed.

(** ** The theorems at work *)

Lemma runnerIdentity : schemaIdentity (runnerResource 1).
Proof.
  constructor.
  - repeat (apply Forall_cons_2; [vm_compute; reflexivity|]). apply Forall_nil_2.
  - apply (bool_decide_unpack _). vm_compute. exact I.
  - apply (bool_decide_unpack _). vm_compute. exact I.
  - apply utf8_of_ascii. vm_compute. reflexivity.
Qed.

Lemma operator_config_accepted_witness :
  LoadRuntimeConfig "/etc/agentforge/runtime/config.json" = Ok (configOf (runnerResource 1)).
Proof.
  apply (operator_config_accepted exampleBuilder (runnerResource 1) runnerContext "/etc/agentforge/runtime/config.json" configText).
  - vm_compute. reflexivity.
  - exact runnerIdentity.
  - vm_compute. reflexivity.
  - discriminate.
  - vm_compute. reflexivity.
Defined.

Definition runnerTask : TaskEnvelope :=
  match LoadSignedTask (configOf (runnerResource 1)) "/var/run/agentforge/secrets" "/etc/agentforge/config" with Ok task => task | Err _ => noTask end.

Lemma runnerTask_loads : LoadSignedTask (configOf (runnerResource 1)) "/var/run/agentforge/secrets" "/etc/agentforge/config" = Ok runnerTask.
Proof. vm_compute. reflexivity. Qed.

Lemma signed_task_authentic_witness :
  authenticTask (configOf (runnerResource 1)) "/var/run/agentforge/secrets" "/etc/agentforge/config" runnerTask /\ tk_KeyID runnerTask = "k1".
Proof.
  split; [|vm_compute; reflexivity]. apply (signed_task_authentic (configOf (runnerResource 1))).
  - reflexivity.
  - exact runnerTask_loads.
Defined.

Lemma retry_rejected_by_runner_witness :
  LoadSignedTask (configOf (runnerResource 2)) "/var/run/agentforge/secrets" "/etc/agentforge/config" =
  Err (ErrPlain "task envelope identity does not match runtime config").
Proof.
  apply (retry_rejected_by_runner (runnerResource 1) (runnerResource 2) "/var/run/agentforge/secrets" "/etc/agentforge/config" runnerTask).
  - reflexivity.
  - vm_compute. discriminate.
  - exact runnerTask_loads.
Defined.

Definition exampleExecutor : Executor := DefaultExecutor "/workspace".


Lemma command_output_bounded_witness :
  cr_Stderr (Executor_Run (fun _ => Some exampleProcess) {| ex_Workspace := "/workspace"; ex_AllowedExecutables := [python]; ex_OutputLimit := 4 |}
    [python] "." ∅).1 = bytes "Ran " /\
  (Executor_Run (fun _ => Some exampleProcess) {| ex_Workspace := "/workspace"; ex_AllowedExecutables := [python]; ex_OutputLimit := 4 |}
    [python] "." ∅).2 <> None.
Proof.
  set (executor := {| ex_Workspace := "/workspace"; ex_AllowedExecutables := [python]; ex_OutputLimit := 4 |}).
  destruct (prepare executor [python] "." ∅) as [command|] eqn:Hp; [|discriminate Hp].
  destruct (Executor_Run (fun _ => Some exampleProcess) executor [python] "." ∅) as [result error] eqn:Hr.
  destruct (command_output_bounded (fun _ => Some exampleProcess) executor [python] "." ∅ command exampleProcess result error) as (_ & He & Hn).
  - discriminate.
  - exact Hp.
  - reflexivity.
  - exact Hr.
  - cbn [fst snd]. split; [rewrite He; vm_compute; reflexivity|]. intros (_ & _ & _ & H)%Hn. vm_compute in H. by apply H.
Defined.

Lemma redaction_hides_secrets_witness :
  containsBytes (Redact {| rd_values := [bytes "hunter22"; bytes "hunter2"] |} (bytes "token hunter22 and hunter2")) (bytes "hunter2") = false.
Proof.
  apply (redaction_hides_secrets {| rd_values := [bytes "hunter22"; bytes "hunter2"] |}).
  - repeat (apply Forall_cons_2; [split; [discriminate|split; vm_compute; reflexivity]|]). apply Forall_nil_2.
  - right. left.
Defined.

Lemma trajectory_numbered_witness :
  trajectorySequence (ts_trajectory (emitAll (emptySink {| rd_values := [] |}) [(0, "run.started", "started"); (Second, "heartbeat", "active")])) = 2.
Proof.
  apply (trajectory_numbered {| rd_values := [] |} [(0, "run.started", "started"); (Second, "heartbeat", "active")]).
  - vm_compute. reflexivity.
  - repeat (apply Forall_cons_2; [split; apply utf8_of_ascii; vm_compute; reflexivity|]). apply Forall_nil_2.
Defined.

Definition shorterConfig : RuntimeConfig := (configOf (runnerResource 1)) <| rc_TimeoutSeconds := 5 |>.

Lemma artifact_keys_scoped_witness :
  manifestKey (configOf (runnerResource 1)) ∈ keysOf shorterConfig /\ rc_Attempt (configOf (runnerResource 1)) = rc_Attempt shorterConfig.
Proof.
  assert (Hk : manifestKey (configOf (runnerResource 1)) ∈ keysOf (configOf (runnerResource 1))) by (do 5 right; left).
  assert (Hk' : manifestKey (configOf (runnerResource 1)) ∈ keysOf shorterConfig) by (do 5 right; left).
  assert (Hv : validateRuntimeConfig (configOf (runnerResource 1)) = Ok tt) by (vm_compute; reflexivity).
  assert (Hv' : validateRuntimeConfig shorterConfig = Ok tt) by (vm_compute; reflexivity).
  split; [exact Hk'|]. apply (artifact_keys_scoped (configOf (runnerResource 1)) shorterConfig _ Hv Hv' Hk Hk').
Defined.

Lemma manifest_commits_last_witness :
  exists s' reference,
    @publishArtifacts _ _ exampleStore exampleDisk (configOf (runnerResource 1)) (Some (bytes "source")) (bytes "{}") [] = (s', inl reference) /\
    @durable _ _ exampleStore s' (artifactObject (keyPrefix (configOf (runnerResource 1)) +:+ "/source.tar.gz") "application/gzip" (bytes "source")).
Proof.
  destruct (@publishArtifacts _ _ exampleStore exampleDisk (configOf (runnerResource 1)) (Some (bytes "source")) (bytes "{}") []) as [s' [reference|e]] eqn:Hp.
  2:{ exfalso. apply (f_equal snd) in Hp. vm_compute in Hp. discriminate Hp. }
  exists s', reference. split; [reflexivity|].
  destruct (@manifest_commits_last _ _ exampleStore exampleDisk (configOf (runnerResource 1)) (Some (bytes "source")) (bytes "{}") [] s' (inl reference)) as [_ H].
  - vm_compute. reflexivity.
  - vm_compute. reflexivity.
  - exact Hp.
  - destruct (H reference eq_refl) as (source & E & _ & Hd & _). apply (inj Some) in E. subst source. by apply Forall_inv in Hd.
Defined.

Lemma snapshot_exact_witness :
  sourceSnapshot (fun files => concat ((fun file => bytes file.1) <$> files)) "/workspace" storeRoot workspaceTree = Some (bytes "app.pytest_app.py").
Proof.
  unfold workspaceTree. rewrite (snapshot_exact (fun files => concat ((fun file => bytes file.1) <$> files)) "/workspace" storeRoot).
  - vm_compute. reflexivity.
  - reflexivity.
  - right. reflexivity.
  - assert (Hclosed : forall s, bool_decide (bytes s <> [] /\ bytes s <> [dotByte] /\ bytes s <> dotdot /\ slashByte ∉ bytes s) = true -> properName (bytes s)) by (by intros s ?%bool_decide_eq_true).
    repeat (split; [split; [apply Hclosed; vm_compute; reflexivity|done]|]). done.
Defined.

Lemma run_success_evidence_witness : completed (fun _ => exampleStore) runnerOptions runnerResult.
Proof. apply (run_success_evidence (fun _ => exampleStore) exampleDisk runnerOptions); [reflexivity|exact runnerResult_success]. Defined.

Definition runnerTerminated : ContainerStateTerminated :=
  {| ct_ExitCode := 0; ct_Reason := "Completed"; ct_Message := text runnerMessage; ct_FinishedAt := 30 * Second |}.

Definition finishedPod : Pod :=
  {| pd_Name := "pod"; pd_CreationTimestamp := 5 * Second; pd_Controller := pd_Controller examplePod; pd_Reason := EmptyString; pd_Phase := "Succeeded";
     pd_StartTime := Some (5 * Second);
     pd_ContainerStatuses := [ {| cs_Name := "runner"; cs_Waiting := None; cs_Running := None; cs_Terminated := Some runnerTerminated |} ]; pd_Conditions := [] |}.

