(* ===== verification/Artifacts.v ===== *)
(** * Artifact metadata and payloads (internal/domain/artifact.go, internal/ports/artifacts.go,
      internal/adapters/postgres/artifacts.go, internal/application/artifacts/service.go)

    The immutable metadata of an artifact, its canonical object key, the repository
    of metadata and deletion tombstones, and the service that authorizes reads,
    downloads and deletions. The payload store is an interface with its laws
    ([PayloadStore]); the adapters provide it in [ArtifactStores].

    The theorems show that accepted metadata always names exactly one object inside
    its owner's scope, and that in every history, with failures of the database and
    of the store at any point, a tombstone is evidence that the payload is gone,
    while archived payloads are never touched. *)

From S2P Require Import Prelude Json AgentRun Policy Cluster Events Intent Store Reservations Queue SchedulingIntent.
From S2P Require Import RunRepo RunService Paths.

(** ** ports/artifacts.go *)

Definition MaxArtifactPresignLifetime : Duration := 15 * Minute.

Record ArtifactKey := {
  ak_TenantID : UUID;
  ak_ProjectID : UUID;
  ak_RunID : UUID;
  ak_Attempt : Z;
  ak_Name : string;
}.

Record ArtifactUpload := {
  up_Contents : option (list Ascii.ascii);
  up_ContentType : string;
  up_Size : Z;
  up_SHA256 : string;
}.

Record ArtifactObject := {
  ob_Key : ArtifactKey;
  ob_Size : Z;
  ob_SHA256 : string;
}.

(** [URL] is the text of the URL, [None] for a nil pointer. *)
Record PresignedDownload := {
  pd_URL : option string;
  pd_ExpiresAt : Time;
}.

Definition backslash (c : Ascii.ascii) : bool := byte_is 92 c.

(** The loop over [strings.Split(name, "/")]: some component is empty, [.] or [..]. *)
Definition hasUnsafeObjectKeySegment (key : string) : bool :=
  existsb (fun segment => bool_decide (segment = []) || bool_decide (segment = [dotByte]) || bool_decide (segment = dotdot))
    (splitOn slashByte (bytes key)).

(** The text of the uuid package: 36 lower-case hexadecimal digits and hyphens. *)
Class UUIDForm `{UUIDs} := {
  uuidString_form : forall u, forallb (fun c => lowerHex c || hyphen c) (bytes (uuidString u)) = true;
  uuidString_nonempty : forall u, uuidString u <> EmptyString;
}.

Section Keys.
Context `{UUIDs}.

(** [tenants/%s/projects/%s/runs/%s/attempts/%d/] *)
Definition scopePrefix (tenantID projectID runID : UUID) (attempt : Z) : string :=
  "tenants/" +:+ uuidString tenantID +:+ "/projects/" +:+ uuidString projectID +:+ "/runs/" +:+ uuidString runID
    +:+ "/attempts/" +:+ Itoa attempt +:+ "/".

Definition ObjectName (key : ArtifactKey) : res string :=
  _ ← failIf ((ak_TenantID key == uuidNil) || (ak_ProjectID key == uuidNil) || (ak_RunID key == uuidNil)
        || (ak_Attempt key <? 1)) (ErrPlain "artifact scope is invalid");
  _ ← failIf ((ak_Name key == EmptyString) || existsb backslash (bytes (ak_Name key)) || IsAbs (ak_Name key)
        || (Clean (ak_Name key) != ak_Name key)) (ErrPlain "artifact name is invalid");
  _ ← failIf (hasUnsafeObjectKeySegment (ak_Name key)) (ErrPlain "artifact name is invalid");
  Ok (scopePrefix (ak_TenantID key) (ak_ProjectID key) (ak_RunID key) (ak_Attempt key) +:+ ak_Name key).
End Keys.

(** ** domain/artifact.go *)

Definition ArtifactRetentionHot : string := "HOT".
Definition ArtifactRetentionArchive : string := "ARCHIVE".

(** [^[0-9a-f]{64}$] *)
Definition artifactSHA256Pattern (s : string) : bool := (len s =? 64) && forallb lowerHex (bytes s).

Record Artifact := {
  art_ID : UUID;
  art_TenantID : UUID;
  art_ProjectID : UUID;
  art_RunID : UUID;
  art_AttemptID : UUID;
  art_AttemptNumber : Z;
  art_ObjectKey : string;
  art_ContentType : string;
  art_SizeBytes : Z;
  art_SHA256 : string;
  art_RetentionClass : string;
  art_CreatedBy : string;
  art_CreatedAt : Time;
}.

#[export] Instance Artifact_settable : Settable Artifact := fun a =>
  Build_Artifact (art_ID a) (art_TenantID a) (art_ProjectID a) (art_RunID a) (art_AttemptID a) (art_AttemptNumber a)
    (art_ObjectKey a) (art_ContentType a) (art_SizeBytes a) (art_SHA256 a) (art_RetentionClass a) (art_CreatedBy a)
    (art_CreatedAt a).

#[export] Instance Artifact_eq_dec : EqDecision Artifact.
Proof. solve_decision. Defined.

Record NewArtifactInput := {
  ia_TenantID : UUID;
  ia_ProjectID : UUID;
  ia_RunID : UUID;
  ia_AttemptID : UUID;
  ia_AttemptNumber : Z;
  ia_ObjectKey : string;
  ia_ContentType : string;
  ia_SizeBytes : Z;
  ia_SHA256 : string;
  ia_RetentionClass : string;
  ia_CreatedBy : string;
}.

Record ArtifactDeletion := {
  dl_ArtifactID : UUID;
  dl_TenantID : UUID;
  dl_DeletedBy : string;
  dl_DeletionReason : string;
  dl_DeletedAt : Time;
}.

(** [strings.ToUpper] as far as a comparison with ASCII text can see it: the
    dotless i and the long s are the only other characters whose upper case is an
    ASCII letter. *)
Fixpoint upperBytes (l : list Ascii.ascii) : list Ascii.ascii :=
  match l with
  | [] => []
  | c :: rest =>
      if byte_in 97 122 c then Ascii.ascii_of_N (Ascii.N_of_ascii c - 32) :: upperBytes rest
      else match rest with
           | d :: rest' =>
               if byte_is 196 c && byte_is 177 d then Ascii.ascii_of_nat 73 :: upperBytes rest'
               else if byte_is 197 c && byte_is 191 d then Ascii.ascii_of_nat 83 :: upperBytes rest'
               else c :: upperBytes rest
           | [] => c :: upperBytes rest
           end
  end.

Definition ToUpper (s : string) : string := String.string_of_list_ascii (upperBytes (bytes s)).

Section Domain.
Context `{UUIDs}.

Definition NewArtifact (newID : res UUID) (input : NewArtifactInput) (now : Time) : res Artifact :=
  let objectKey := TrimSpace (ia_ObjectKey input) in
  let contentType := TrimSpace (ia_ContentType input) in
  let sha256 := TrimSpace (ia_SHA256 input) in
  let retention := ToUpper (TrimSpace (ia_RetentionClass input)) in
  let createdBy := TrimSpace (ia_CreatedBy input) in
  _ ← failIf ((ia_TenantID input == uuidNil) || (ia_ProjectID input == uuidNil) || (ia_RunID input == uuidNil)
        || (ia_AttemptID input == uuidNil) || (ia_AttemptNumber input <? 1) || (10 <? ia_AttemptNumber input)) ErrValidation;
  let prefix := scopePrefix (ia_TenantID input) (ia_ProjectID input) (ia_RunID input) (ia_AttemptNumber input) in
  _ ← failIf ((len objectKey <=? len prefix) || (2048 <? len objectKey) || negb (HasPrefix objectKey prefix)
        || existsb backslash (bytes objectKey) || hasUnsafeObjectKeySegment objectKey) ErrValidation;
  _ ← failIf ((contentType == EmptyString) || (255 <? len contentType) || (ia_SizeBytes input <? 0)
        || negb (artifactSHA256Pattern sha256)) ErrValidation;
  _ ← failIf ((retention != ArtifactRetentionHot) && (retention != ArtifactRetentionArchive)) ErrValidation;
  _ ← failIf ((createdBy == EmptyString) || (255 <? len createdBy)) ErrValidation;
  id ← newID;
  Ok {| art_ID := id; art_TenantID := ia_TenantID input; art_ProjectID := ia_ProjectID input; art_RunID := ia_RunID input;
        art_AttemptID := ia_AttemptID input; art_AttemptNumber := ia_AttemptNumber input; art_ObjectKey := objectKey;
        art_ContentType := contentType; art_SizeBytes := ia_SizeBytes input; art_SHA256 := sha256;
        art_RetentionClass := retention; art_CreatedBy := createdBy; art_CreatedAt := UTC now |}.
End Domain.

Definition NewArtifactDeletion (artifactID tenantID : UUID) (deletedBy reason : string) (now : Time) : res ArtifactDeletion :=
  let deletedBy := TrimSpace deletedBy in
  let reason := TrimSpace reason in
  _ ← failIf ((artifactID == uuidNil) || (tenantID == uuidNil) || (deletedBy == EmptyString) || (255 <? len deletedBy)
        || (reason == EmptyString) || (500 <? len reason)) ErrValidation;
  Ok {| dl_ArtifactID := artifactID; dl_TenantID := tenantID; dl_DeletedBy := deletedBy; dl_DeletionReason := reason;
        dl_DeletedAt := UTC now |}.

(** ** adapters/postgres/artifacts.go *)

(** The tables [artifacts] and [artifact_deletions]. *)
Record ArtifactTables := {
  at_artifacts : gmap UUID Artifact;
  at_deletions : gmap UUID ArtifactDeletion;
}.

Section Repository.
Context `{UUIDs}.

(** The checks that relate columns to ranges (the text lengths repeat the domain
    validation), then the unique constraints, then the foreign keys. *)
Definition createArtifact (artifact : Artifact) (db : DB) (t : ArtifactTables) : res ArtifactTables :=
  _ ← failIf (negb (uuidVersion (art_ID artifact) =? 7) || (art_SizeBytes artifact <? 0)
        || negb (artifactSHA256Pattern (art_SHA256 artifact))
        || ((art_RetentionClass artifact != ArtifactRetentionHot) && (art_RetentionClass artifact != ArtifactRetentionArchive)))
      (ErrPlain "check constraint violated");
  _ ← failIf (bool_decide (is_Some (at_artifacts t !! art_ID artifact))) ErrConflict;
  _ ← failIf (bool_decide (map_Exists (fun _ a => art_ObjectKey a = art_ObjectKey artifact) (at_artifacts t))) ErrConflict;
  _ ← failIf (bool_decide (db_tenants db !! art_TenantID artifact = None)) ErrNotFound;
  _ ← failIf (match db_runs db !! art_RunID artifact with
              | Some row => (run_ProjectID (rr_Run row) != art_ProjectID artifact) || (run_TenantID (rr_Run row) != art_TenantID artifact)
              | None => true
              end) ErrNotFound;
  _ ← failIf (match db_attempts db !! art_AttemptID artifact with
              | Some a => (att_RunID a != art_RunID artifact) || (att_TenantID a != art_TenantID artifact)
                          || negb (att_AttemptNumber a =? art_AttemptNumber artifact)
              | None => true
              end) ErrNotFound;
  Ok {| at_artifacts := <[art_ID artifact := artifact <| art_CreatedAt := pgTime (art_CreatedAt artifact) |>]> (at_artifacts t);
        at_deletions := at_deletions t |}.

(** [Create] *)
Definition Artifact_Create (artifact : Artifact) (db : DB) (t : ArtifactTables) : res unit * ArtifactTables :=
  match createArtifact artifact db t with Ok t' => (Ok tt, t') | Err e => (Err e, t) end.
End Repository.

(** [not exists (select 1 from artifact_deletions where artifact_id = artifacts.id)] *)
Definition live (t : ArtifactTables) (a : Artifact) : bool := bool_decide (at_deletions t !! art_ID a = None).

(** [Get] *)
Definition Artifact_Get (tenantID artifactID : UUID) (t : ArtifactTables) : res Artifact :=
  match at_artifacts t !! artifactID with
  | Some a => if (art_TenantID a =? tenantID) && live t a then Ok a else Err ErrNotFound
  | None => Err ErrNotFound
  end.

(** [order by created_at asc, id asc] *)
Definition oldest_first (a b : Artifact) : Prop :=
  art_CreatedAt a < art_CreatedAt b \/ (art_CreatedAt a = art_CreatedAt b /\ art_ID a <= art_ID b).

#[export] Instance oldest_first_dec : RelDecision oldest_first.
Proof. intros a b. unfold oldest_first. apply _. Defined.

Definition ListByRun (tenantID runID : UUID) (t : ArtifactTables) : list Artifact :=
  merge_sort oldest_first
    (filter (fun a => art_TenantID a = tenantID /\ art_RunID a = runID /\ live t a = true) (map_to_list (at_artifacts t)).*2).

Definition RecordDeletion (deletion : ArtifactDeletion) (t : ArtifactTables) : res unit * ArtifactTables :=
  if bool_decide (is_Some (at_deletions t !! dl_ArtifactID deletion)) then (Err ErrConflict, t) else
  if bool_decide (art_TenantID <$> at_artifacts t !! dl_ArtifactID deletion <> Some (dl_TenantID deletion)) then (Err ErrNotFound, t) else
  (Ok tt, {| at_artifacts := at_artifacts t;
             at_deletions := <[dl_ArtifactID deletion :=
               {| dl_ArtifactID := dl_ArtifactID deletion; dl_TenantID := dl_TenantID deletion; dl_DeletedBy := dl_DeletedBy deletion;
                  dl_DeletionReason := dl_DeletionReason deletion; dl_DeletedAt := pgTime (dl_DeletedAt deletion) |}]> (at_deletions t) |}).

(** ** The payload store

    [S] is the store with everything the environment answers; [payload] is what a
    reader of an object name gets. A failed operation may have taken effect, and an
    interrupted upload may leave its scratch file under a name of its own
    ([ps_scratch]) that was free before. *)

Section Interface.
Context `{UUIDs} {SH : SHA256}.

(** Names the canonical encoding produces. *)
Definition canonical (name : string) : Prop := exists key, ObjectName key = Ok name.

Definition describes (object : ArtifactObject) (contents : list Ascii.ascii) : Prop :=
  ob_Size object = Z.of_nat (length contents) /\ ob_SHA256 object = sha256Hex (String.string_of_list_ascii contents).

Class PayloadStore (S : Type) := {
  ps_Put : S -> ArtifactKey -> ArtifactUpload -> S * res ArtifactObject;
  ps_Head : S -> ArtifactKey -> S * res ArtifactObject;
  ps_Get : S -> ArtifactKey -> S * res (ArtifactObject * list Ascii.ascii);
  ps_Delete : S -> ArtifactKey -> S * res unit;
  ps_PresignDownload : S -> ArtifactKey -> Duration -> S * res PresignedDownload;
  payload : S -> string -> option (list Ascii.ascii);
  ps_scratch : string -> bool;
  ps_Put_stores s key upload s' object name :
    ps_Put s key upload = (s', Ok object) -> ObjectName key = Ok name -> ps_scratch name = false ->
    ob_Key object = key /\ ob_Size object = up_Size upload /\ ob_SHA256 object = up_SHA256 upload /\
    exists contents, payload s' name = Some contents /\ describes object contents;
  ps_Put_frame s key upload name other :
    ObjectName key = Ok name -> canonical other -> other <> name ->
    payload (ps_Put s key upload).1 other = payload s other \/ (ps_scratch other = true /\ payload s other = None);
  ps_Head_truth s key s' object name :
    ps_Head s key = (s', Ok object) -> ObjectName key = Ok name ->
    ob_Key object = key /\ exists contents, payload s name = Some contents /\ describes object contents;
  ps_Head_frame s key other : payload (ps_Head s key).1 other = payload s other;
  ps_Get_truth s key s' object contents name :
    ps_Get s key = (s', Ok (object, contents)) -> ObjectName key = Ok name ->
    payload s name = Some contents /\ ob_Key object = key /\ describes object contents;
  ps_Get_frame s key other : payload (ps_Get s key).1 other = payload s other;
  ps_Delete_absent s key s' r name :
    ps_Delete s key = (s', r) -> ObjectName key = Ok name -> r = Ok tt \/ r = Err ErrArtifactNotFound ->
    payload s' name = None;
  ps_Delete_effect s key name :
    ObjectName key = Ok name ->
    payload (ps_Delete s key).1 name = payload s name \/ payload (ps_Delete s key).1 name = None;
  ps_Delete_frame s key name other :
    ObjectName key = Ok name -> canonical other -> other <> name ->
    payload (ps_Delete s key).1 other = payload s other;
  ps_Presign_frame s key lifetime other : payload (ps_PresignDownload s key lifetime).1 other = payload s other;
}.
End Interface.

(** ** application/artifacts/service.go *)

(** What the database does with the calls of one request: a read fails with a
    message, or the insertion of the tombstone does, stored nevertheless or not. *)
Record Faults := {
  fl_Run : option string;
  fl_Artifact : option string;
  fl_Record : option (string * bool);
}.

Definition noFaults : Faults := {| fl_Run := None; fl_Artifact := None; fl_Record := None |}.

Definition answered {A} (fault : option string) (r : res A) : res A :=
  match fault with Some msg => Err (ErrPlain msg) | None => r end.

Section Service.
Context `{UUIDs} {SH : SHA256} {S : Type} {PS : PayloadStore S}.

Definition artifactForRun (faults : Faults) (tenantID runID artifactID : UUID) (db : DB) (t : ArtifactTables) : res Artifact :=
  _ ← answered (fl_Run faults) (Get tenantID runID db);
  artifact ← answered (fl_Artifact faults) (Artifact_Get tenantID artifactID t);
  _ ← failIf (art_RunID artifact != runID) ErrNotFound;
  Ok artifact.

Definition keyForArtifact (artifact : Artifact) : res ArtifactKey :=
  let prefix := scopePrefix (art_TenantID artifact) (art_ProjectID artifact) (art_RunID artifact) (art_AttemptNumber artifact) in
  _ ← failIf (negb (HasPrefix (art_ObjectKey artifact) prefix)) (ErrPlain "artifact metadata object key is invalid");
  let name := String.string_of_list_ascii (drop (String.length prefix) (bytes (art_ObjectKey artifact))) in
  let key := {| ak_TenantID := art_TenantID artifact; ak_ProjectID := art_ProjectID artifact; ak_RunID := art_RunID artifact;
                ak_Attempt := art_AttemptNumber artifact; ak_Name := name |} in
  _ ← failIf (match ObjectName key with Ok canonicalName => canonicalName != art_ObjectKey artifact | Err _ => true end)
      (ErrPlain "artifact metadata object key is invalid");
  Ok key.

Definition Service_List (faults : Faults) (caller : Identity) (runID : UUID) (db : DB) (t : ArtifactTables) : res (list Artifact) :=
  _ ← failIf (negb (CanManageRuns caller)) ErrUnauthorized;
  _ ← answered (fl_Run faults) (Get (id_TenantID caller) runID db);
  answered (fl_Artifact faults) (Ok (ListByRun (id_TenantID caller) runID t)).

Definition Service_Get (faults : Faults) (caller : Identity) (runID artifactID : UUID) (db : DB) (t : ArtifactTables) : res Artifact :=
  _ ← failIf (negb (CanManageRuns caller)) ErrUnauthorized;
  artifactForRun faults (id_TenantID caller) runID artifactID db t.

(** The checks before the store is asked. *)
Definition authorizeDownload (faults : Faults) (configured : bool) (caller : Identity) (runID artifactID : UUID)
    (lifetime : Duration) (db : DB) (t : ArtifactTables) : res ArtifactKey :=
  _ ← failIf (negb (CanManageRuns caller)) ErrUnauthorized;
  _ ← failIf ((lifetime <=? 0) || (MaxArtifactPresignLifetime <? lifetime)) ErrValidation;
  artifact ← artifactForRun faults (id_TenantID caller) runID artifactID db t;
  _ ← failIf (negb configured) ErrDownloadUnavailable;
  keyForArtifact artifact.

Definition Service_Download (faults : Faults) (configured : bool) (caller : Identity) (runID artifactID : UUID)
    (lifetime : Duration) (db : DB) (t : ArtifactTables) (s : S) : res PresignedDownload * S :=
  match authorizeDownload faults configured caller runID artifactID lifetime db t with
  | Err e => (Err e, s)
  | Ok key =>
      match ps_PresignDownload s key lifetime with
      | (s', Err ErrArtifactNotFound) => (Err ErrNotFound, s')
      | (s', Err ErrPresigningUnsupported) => (Err ErrDownloadUnavailable, s')
      | (s', Err e) => (Err e, s')
      | (s', Ok download) =>
          if bool_decide (pd_URL download = None) || IsZero (pd_ExpiresAt download)
          then (Err (ErrPlain "artifact store returned an invalid download capability"), s')
          else (Ok download, s')
      end
  end.

(** The checks before the payload is deleted. *)
Definition authorizeDelete (faults : Faults) (configured : bool) (now : Time) (caller : Identity) (runID artifactID : UUID)
    (reason : string) (db : DB) (t : ArtifactTables) : res (ArtifactDeletion * ArtifactKey) :=
  _ ← failIf (negb (CanManageArtifacts caller)) ErrUnauthorized;
  artifact ← artifactForRun faults (id_TenantID caller) runID artifactID db t;
  _ ← failIf (art_RetentionClass artifact != ArtifactRetentionHot) ErrForbidden;
  deletion ← NewArtifactDeletion (art_ID artifact) (id_TenantID caller) (id_Subject caller) reason now;
  _ ← failIf (negb configured) ErrDeletionUnavailable;
  key ← keyForArtifact artifact;
  Ok (deletion, key).

(** [RecordDeletion] over a connection that may fail. *)
Definition recordDeletion (faults : Faults) (deletion : ArtifactDeletion) (t : ArtifactTables) : res unit * ArtifactTables :=
  match fl_Record faults with
  | None => RecordDeletion deletion t
  | Some (msg, reached) => (Err (ErrPlain msg), if reached then (RecordDeletion deletion t).2 else t)
  end.

Definition Service_Delete (faults : Faults) (configured : bool) (now : Time) (caller : Identity) (runID artifactID : UUID)
    (reason : string) (db : DB) (t : ArtifactTables) (s : S) : res unit * ArtifactTables * S :=
  match authorizeDelete faults configured now caller runID artifactID reason db t with
  | Err e => (Err e, t, s)
  | Ok (deletion, key) =>
      match ps_Delete s key with
      | (s', (Ok _ | Err ErrArtifactNotFound)) =>
          match recordDeletion faults deletion t with
          | (Ok _, t') | (Err ErrConflict, t') => (Ok tt, t', s')
          | (Err e, t') => (Err e, t', s')
          end
      | (s', Err e) => (Err e, t, s')
      end
  end.
End Service.

(** ** Keys *)

Section KeyLemmas.
Context `{UUIDs} `{!UUIDForm}.

Lemma uuid_slash u : slashByte ∉ bytes (uuidString u).
Proof. by apply (forallb_not_elem _ _ _ (uuidString_form u)). Qed.

Definition scopeParts (tenantID projectID runID : UUID) (attempt : Z) : list (list Ascii.ascii) :=
  [bytes "tenants"; bytes (uuidString tenantID); bytes "projects"; bytes (uuidString projectID); bytes "runs";
   bytes (uuidString runID); bytes "attempts"; bytes (Itoa attempt)].

Lemma split_scope tenantID projectID runID attempt name :
  splitOn slashByte (bytes (scopePrefix tenantID projectID runID attempt +:+ name))
  = scopeParts tenantID projectID runID attempt ++ splitOn slashByte (bytes name).
Proof.
  unfold scopePrefix, scopeParts. rewrite !bytes_app. rewrite <-!app_assoc.
  change (bytes "tenants/") with (bytes "tenants" ++ [slashByte]).
  change (bytes "/projects/") with (slashByte :: bytes "projects" ++ [slashByte]).
  change (bytes "/runs/") with (slashByte :: bytes "runs" ++ [slashByte]).
  change (bytes "/attempts/") with (slashByte :: bytes "attempts" ++ [slashByte]).
  change (bytes "/") with [slashByte]. cbn [app]. rewrite <-!app_assoc. cbn [app].
  assert (Hlit : forall l, forallb lowerAlpha l = true -> slashByte ∉ l) by (intros l Hl; by eapply forallb_not_elem).
  do 8 (rewrite splitOn_app; [|first [by apply Hlit|apply uuid_slash|apply Itoa_slash]]). done.
Qed.

Lemma unsafe_proper key : hasUnsafeObjectKeySegment key = false <-> Forall properName (splitOn slashByte (bytes key)).
Proof.
  unfold hasUnsafeObjectKeySegment. pose proof (splitOn_parts slashByte (bytes key)) as Hp.
  induction Hp as [|part parts Hpart _ IH]; [split; [constructor|done]|]. cbn [existsb]. rewrite orb_false_iff, IH, Forall_cons.
  rewrite !orb_false_iff, !bool_decide_eq_false. unfold properName. tauto.
Qed.

(** The name of a key, taken apart. *)
Lemma ObjectName_ok key name :
  ObjectName key = Ok name <->
  ak_TenantID key <> uuidNil /\ ak_ProjectID key <> uuidNil /\ ak_RunID key <> uuidNil /\ 1 <= ak_Attempt key /\
  existsb backslash (bytes (ak_Name key)) = false /\ Forall properName (splitOn slashByte (bytes (ak_Name key))) /\
  name = scopePrefix (ak_TenantID key) (ak_ProjectID key) (ak_RunID key) (ak_Attempt key) +:+ ak_Name key.
Proof.
  unfold ObjectName. split.
  - intros ([] & E1%failIf_ok & ([] & E2%failIf_ok & ([] & E3%failIf_ok & <-%Ok_inj)%bind_ok)%bind_ok)%bind_ok.
    apply unsafe_proper in E3. reflect_bools. split_and!; try done; lia.
  - intros (Ht & Hp & Hr & Ha & Hb & Hn & ->). destruct (Clean_names _ Hn) as [Habs Hc].
    assert (Hne : ak_Name key <> EmptyString).
    { intros E. rewrite E in Hn. apply Forall_inv in Hn. by destruct Hn. }
    rewrite !bind_failIf, (proj2 (unsafe_proper _) Hn), Hb, Habs, Hc.
    rewrite (bool_decide_eq_false_2 (ak_Name key = EmptyString)), (bool_decide_eq_true_2 (ak_Name key = ak_Name key)) by done.
    rewrite (bool_decide_eq_false_2 (ak_TenantID key = uuidNil)), (bool_decide_eq_false_2 (ak_ProjectID key = uuidNil)),
      (bool_decide_eq_false_2 (ak_RunID key = uuidNil)), (proj2 (Z.ltb_ge _ _)) by done.
    done.
Qed.

Lemma uuid_plain u : properName (bytes (uuidString u)).
Proof.
  assert (Hd : dotByte ∉ bytes (uuidString u)) by (by apply (forallb_not_elem _ _ _ (uuidString_form u))).
  split_and!; [|intros E; rewrite E in Hd; apply Hd; by left..|apply uuid_slash].
  intros E. apply (uuidString_nonempty u). by apply bytes_inj.
Qed.

(** Every part of a canonical name is proper. *)
Lemma canonical_proper name : canonical name -> Forall properName (splitOn slashByte (bytes name)).
Proof.
  intros [key (_ & _ & _ & _ & _ & Hp & ->)%ObjectName_ok]. rewrite split_scope. apply Forall_app. split; [|done].
  unfold scopeParts. repeat constructor; first [apply uuid_plain|apply Itoa_proper|idtac].
  all: try discriminate; by apply (forallb_not_elem lowerAlpha).
Qed.

Lemma split_object key name :
  ObjectName key = Ok name ->
  splitOn slashByte (bytes name)
  = scopeParts (ak_TenantID key) (ak_ProjectID key) (ak_RunID key) (ak_Attempt key) ++ splitOn slashByte (bytes (ak_Name key)).
Proof. intros (_ & _ & _ & _ & _ & _ & ->)%ObjectName_ok. apply split_scope. Qed.
End KeyLemmas.

Section Addressing.
Context `{UUIDs} `{!UUIDForm}.

Lemma existsb_app_false {A} (f : A -> bool) l k : existsb f (l ++ k) = false -> existsb f k = false.
Proof. by rewrite existsb_app, orb_false_iff; intros [_ ?]. Qed.

Lemma keyForArtifact_ok a key :
  keyForArtifact a = Ok key ->
  ObjectName key = Ok (art_ObjectKey a) /\ ak_TenantID key = art_TenantID a /\ ak_ProjectID key = art_ProjectID a /\
  ak_RunID key = art_RunID a /\ ak_Attempt key = art_AttemptNumber a.
Proof.
  unfold keyForArtifact. intros ([] & _ & ([] & Hn%failIf_ok & <-%Ok_inj)%bind_ok)%bind_ok.
  destruct (ObjectName _) as [name|e] eqn:E; [|done]. apply negb_false_iff, bool_decide_eq_true in Hn. by subst name.
Qed.

(** Metadata whose key lies in its own scope, with safe segments. *)
Lemma keyForArtifact_scoped a :
  art_TenantID a <> uuidNil -> art_ProjectID a <> uuidNil -> art_RunID a <> uuidNil -> 1 <= art_AttemptNumber a ->
  HasPrefix (art_ObjectKey a) (scopePrefix (art_TenantID a) (art_ProjectID a) (art_RunID a) (art_AttemptNumber a)) = true ->
  existsb backslash (bytes (art_ObjectKey a)) = false -> hasUnsafeObjectKeySegment (art_ObjectKey a) = false ->
  exists key, keyForArtifact a = Ok key.
Proof.
  intros Ht Hp Hr Ha Hpre Hb Hu. unfold keyForArtifact. rewrite !bind_failIf, Hpre. cbn [negb].
  set (prefix := scopePrefix _ _ _ _) in *.
  apply hasPrefixBytes_spec in Hpre as [rest Hrest].
  assert (Hd : drop (String.length prefix) (bytes (art_ObjectKey a)) = rest) by (rewrite Hrest, <-length_bytes; apply drop_app_length).
  assert (Hkey : art_ObjectKey a = prefix +:+ String.string_of_list_ascii rest).
  { apply bytes_inj. by rewrite bytes_app, bytes_of_list. }
  rewrite Hd. apply unsafe_proper in Hu. rewrite Hkey in Hu. unfold prefix in Hu. rewrite split_scope in Hu.
  apply Forall_app in Hu as [_ Hu]. rewrite Hrest in Hb. apply existsb_app_false in Hb.
  set (key := {| ak_TenantID := _ |}).
  assert (HO : ObjectName key = Ok (prefix +:+ String.string_of_list_ascii rest)).
  { apply ObjectName_ok. unfold key; cbn. rewrite bytes_of_list in *. by split_and!. }
  rewrite HO, Hkey, bool_decide_eq_true_2 by done. by exists key.
Qed.

Lemma NewArtifact_key newID input now a :
  NewArtifact newID input now = Ok a ->
  (exists key, keyForArtifact a = Ok key) /\ newID = Ok (art_ID a) /\
  (art_RetentionClass a = ArtifactRetentionHot \/ art_RetentionClass a = ArtifactRetentionArchive).
Proof.
  unfold NewArtifact.
  intros ([] & E1%failIf_ok & ([] & E2%failIf_ok & ([] & _ & ([] & E4%failIf_ok & ([] & _ & (id & -> & <-%Ok_inj)%bind_ok)
    %bind_ok)%bind_ok)%bind_ok)%bind_ok)%bind_ok.
  reflect_bools. split; [|split; [done|]].
  - apply keyForArtifact_scoped; cbn; first [done|lia].
  - exact E4.
Qed.

Lemma ObjectName_inj key key' name :
  isUUID (ak_TenantID key) -> isUUID (ak_ProjectID key) -> isUUID (ak_RunID key) ->
  isUUID (ak_TenantID key') -> isUUID (ak_ProjectID key') -> isUUID (ak_RunID key') ->
  ObjectName key = Ok name -> ObjectName key' = Ok name -> key = key'.
Proof.
  intros T1 P1 R1 T2 P2 R2 E1%split_object E2%split_object. rewrite E1 in E2. unfold scopeParts in E2. cbn [app] in E2.
  injection E2 as ET EP ER EA EN. destruct key as [t p r a n], key' as [t' p' r' a' n']; cbn in *. f_equal.
  - by apply uuidString_inj, bytes_inj.
  - by apply uuidString_inj, bytes_inj.
  - by apply uuidString_inj, bytes_inj.
  - apply bytes_inj in EA. by apply (inj pretty) in EA.
  - by apply bytes_inj, (splitOn_inj slashByte).
Qed.
End Addressing.

(** ** Histories *)

(** A request to delete reads what it may delete, removes the payload and then
    records the tombstone, and other requests run in between: [as_granted] are the
    requests that passed their checks, [as_pending] the tombstones still to be recorded. *)
Record ArtifactState (S : Type) := {
  as_db : DB;
  as_tables : ArtifactTables;
  as_store : S;
  as_granted : list (ArtifactDeletion * ArtifactKey);
  as_pending : list ArtifactDeletion;
}.
Arguments as_db {S}.
Arguments as_tables {S}.
Arguments as_store {S}.
Arguments as_granted {S}.
Arguments as_pending {S}.
Arguments Build_ArtifactState {S}.

Section Histories.
Context `{UUIDs} `{!UUIDForm} {SH : SHA256} {S : Type} {PS : PayloadStore S}.

Definition absent (r : res unit) : bool := match r with Ok _ | Err ErrArtifactNotFound => true | Err _ => false end.

(** One step of some request or of the surroundings: producers upload payloads
    under names that no metadata owns yet, and the other tables change freely. *)
Inductive artifact_step (x : ArtifactState S) : ArtifactState S -> Prop :=
| hs_create newID input now a r t' :
    NewArtifact newID input now = Ok a -> Artifact_Create a (as_db x) (as_tables x) = (r, t') ->
    artifact_step x (Build_ArtifactState (as_db x) t' (as_store x) (as_granted x) (as_pending x))
| hs_authorize faults configured now caller runID artifactID reason granted :
    authorizeDelete faults configured now caller runID artifactID reason (as_db x) (as_tables x) = Ok granted ->
    artifact_step x (Build_ArtifactState (as_db x) (as_tables x) (as_store x) (granted :: as_granted x) (as_pending x))
| hs_delete_payload deletion key s' r :
    (deletion, key) ∈ as_granted x -> ps_Delete (as_store x) key = (s', r) ->
    artifact_step x (Build_ArtifactState (as_db x) (as_tables x) s' (as_granted x)
      (if absent r then deletion :: as_pending x else as_pending x))
| hs_record faults deletion r t' :
    deletion ∈ as_pending x -> recordDeletion faults deletion (as_tables x) = (r, t') ->
    artifact_step x (Build_ArtifactState (as_db x) t' (as_store x) (as_granted x) (as_pending x))
| hs_download faults configured caller runID artifactID lifetime r s' :
    Service_Download faults configured caller runID artifactID lifetime (as_db x) (as_tables x) (as_store x) = (r, s') ->
    artifact_step x (Build_ArtifactState (as_db x) (as_tables x) s' (as_granted x) (as_pending x))
| hs_upload key upload name s' r :
    ObjectName key = Ok name -> (forall id a, at_artifacts (as_tables x) !! id = Some a -> art_ObjectKey a <> name) ->
    ps_Put (as_store x) key upload = (s', r) ->
    artifact_step x (Build_ArtifactState (as_db x) (as_tables x) s' (as_granted x) (as_pending x))
| hs_other db' : artifact_step x (Build_ArtifactState db' (as_tables x) (as_store x) (as_granted x) (as_pending x)).

(** [Service.Delete] is these steps, one after the other. *)
Lemma Service_Delete_steps faults configured now caller runID artifactID reason x r t' s' :
  Service_Delete faults configured now caller runID artifactID reason (as_db x) (as_tables x) (as_store x) = (r, t', s') ->
  exists granted pending, rtc artifact_step x (Build_ArtifactState (as_db x) t' s' granted pending).
Proof.
  unfold Service_Delete. destruct (authorizeDelete _ _ _ _ _ _ _ _ _) as [[deletion key]|e] eqn:Ha; cycle 1.
  { intros [= _ <- <-]. exists (as_granted x), (as_pending x). by destruct x. }
  destruct (ps_Delete _ key) as [s1 rd] eqn:Hd. pose proof (hs_authorize x _ _ _ _ _ _ _ _ Ha) as Hstep0.
  set (x0 := Build_ArtifactState _ _ _ ((deletion, key) :: as_granted x) _) in Hstep0.
  pose proof (hs_delete_payload x0 deletion key s1 rd ltac:(by left) Hd) as Hstep1.
  assert (Hrec : absent rd = true -> forall r2 t2, recordDeletion faults deletion (as_tables x) = (r2, t2) ->
    exists granted pending, rtc artifact_step x (Build_ArtifactState (as_db x) t2 s1 granted pending)).
  { intros Habs r2 t2 Hr2. rewrite Habs in Hstep1. do 2 eexists. eapply rtc_l; [exact Hstep0|]. eapply rtc_l; [exact Hstep1|].
    eapply rtc_once.
    refine (hs_record (Build_ArtifactState _ _ s1 _ (deletion :: _)) faults deletion r2 t2 _ Hr2). by left. }
  destruct (recordDeletion faults deletion _) as [r2 t2] eqn:Hr2.
  destruct (absent rd) eqn:Habs.
  - specialize (Hrec eq_refl _ _ eq_refl).
    destruct rd as [[]|[]]; try discriminate Habs; destruct r2 as [[]|[]]; intros [= _ <- <-]; exact Hrec.
  - destruct rd as [[]|[]]; try discriminate Habs; intros [= _ <- <-]; do 2 eexists; (eapply rtc_l; [exact Hstep0|]; by apply rtc_once).
Qed.

(** Nothing of an owner's is stored under the name. *)
Definition removed (s : S) (name : string) : Prop := payload s name = None \/ ps_scratch name = true.

(** A tombstone, recorded or about to be, and the artifact it is about. *)
Definition evidences (x : ArtifactState S) (d : ArtifactDeletion) : Prop :=
  exists a, at_artifacts (as_tables x) !! dl_ArtifactID d = Some a /\ art_TenantID a = dl_TenantID d /\
    art_RetentionClass a = ArtifactRetentionHot /\ removed (as_store x) (art_ObjectKey a).

(** A request that may delete a payload, and the artifact it is about. *)
Definition grants (x : ArtifactState S) (g : ArtifactDeletion * ArtifactKey) : Prop :=
  exists a, at_artifacts (as_tables x) !! dl_ArtifactID g.1 = Some a /\ art_TenantID a = dl_TenantID g.1 /\
    art_RetentionClass a = ArtifactRetentionHot /\ keyForArtifact a = Ok g.2.

Record artifact_inv (x : ArtifactState S) : Prop := {
  iv_keyed : forall id a, at_artifacts (as_tables x) !! id = Some a -> art_ID a = id /\ exists key, keyForArtifact a = Ok key;
  iv_unique : forall id a id' a', at_artifacts (as_tables x) !! id = Some a -> at_artifacts (as_tables x) !! id' = Some a' ->
    art_ObjectKey a = art_ObjectKey a' -> id = id';
  iv_tombstones : forall id d, at_deletions (as_tables x) !! id = Some d -> dl_ArtifactID d = id /\ evidences x d;
  iv_granted : forall g, g ∈ as_granted x -> grants x g;
  iv_pending : forall d, d ∈ as_pending x -> evidences x d;
}.

(** What a step may do to the stored artifacts and their payloads. *)
Record artifact_kept (x y : ArtifactState S) : Prop := {
  kp_rows : forall id a, at_artifacts (as_tables x) !! id = Some a -> at_artifacts (as_tables y) !! id = Some a;
  kp_payload : forall id a, at_artifacts (as_tables x) !! id = Some a ->
    payload (as_store y) (art_ObjectKey a) = payload (as_store x) (art_ObjectKey a) \/
    (art_RetentionClass a = ArtifactRetentionHot /\ removed (as_store y) (art_ObjectKey a)) \/
    (ps_scratch (art_ObjectKey a) = true /\ payload (as_store x) (art_ObjectKey a) = None);
}.

Lemma evidences_kept x y d : artifact_kept x y -> evidences x d -> evidences y d.
Proof.
  intros [Hr Hp] (a & Ha & Ht & Hh & Hn). exists a. split_and!; auto. unfold removed in *.
  destruct Hn as [Hn|Hn]; [|by right]. destruct (Hp _ _ Ha) as [->|[[_ ?]|[? _]]]; auto.
Qed.

Lemma grants_kept x y g : artifact_kept x y -> grants x g -> grants y g.
Proof. intros [Hr _] (a & Ha & Hg). exists a. auto. Qed.

Lemma authorizeDelete_ok faults configured now caller runID artifactID reason db t deletion key :
  authorizeDelete faults configured now caller runID artifactID reason db t = Ok (deletion, key) ->
  exists a, at_artifacts t !! artifactID = Some a /\ art_TenantID a = id_TenantID caller /\ art_RunID a = runID /\
    live t a = true /\ art_RetentionClass a = ArtifactRetentionHot /\ keyForArtifact a = Ok key /\
    dl_ArtifactID deletion = art_ID a /\ dl_TenantID deletion = art_TenantID a /\ CanManageArtifacts caller = true.
Proof.
  unfold authorizeDelete, artifactForRun.
  intros ([] & Hc%failIf_ok & (a & Ha & ([] & Hh%failIf_ok & (d & Hd & ([] & _ & (k & Hk & [= <- <-]%Ok_inj)%bind_ok)%bind_ok)
    %bind_ok)%bind_ok)%bind_ok)%bind_ok.
  apply bind_ok in Ha as (run & _ & Ha). apply bind_ok in Ha as (a' & Ha' & Ha).
  apply bind_ok in Ha as ([] & Hr%failIf_ok & <-%Ok_inj). unfold answered in Ha'. destruct (fl_Artifact faults); [done|].
  unfold Artifact_Get in Ha'. destruct (at_artifacts t !! artifactID) as [stored|] eqn:Hst; [|done].
  destruct (_ && _) eqn:Hg; [|done]. apply Ok_inj in Ha' as ->. apply andb_true_iff in Hg as [Ht%Z.eqb_eq Hl].
  unfold NewArtifactDeletion in Hd. apply bind_ok in Hd as ([] & _ & <-%Ok_inj). reflect_bools.
  exists a'. split_and!; try done.
Qed.

Lemma createArtifact_ok a db t t' :
  createArtifact a db t = Ok t' ->
  at_artifacts t !! art_ID a = None /\ (forall id b, at_artifacts t !! id = Some b -> art_ObjectKey b <> art_ObjectKey a) /\
  t' = {| at_artifacts := <[art_ID a := a <| art_CreatedAt := pgTime (art_CreatedAt a) |>]> (at_artifacts t);
          at_deletions := at_deletions t |}.
Proof.
  unfold createArtifact.
  intros ([] & _ & ([] & Hn%failIf_ok & ([] & Hu%failIf_ok & ([] & _ & ([] & _ & ([] & _ & <-%Ok_inj)%bind_ok)%bind_ok)
    %bind_ok)%bind_ok)%bind_ok)%bind_ok.
  apply bool_decide_eq_false in Hn. rewrite <-eq_None_not_Some in Hn. split_and!; try done.
  intros id b Hb Heq. apply bool_decide_eq_false in Hu. apply Hu. exists id, b. done.
Qed.

Lemma recordDeletion_ok faults deletion t r t' :
  recordDeletion faults deletion t = (r, t') ->
  at_artifacts t' = at_artifacts t /\
  (at_deletions t' = at_deletions t \/
   at_deletions t !! dl_ArtifactID deletion = None /\ exists d, at_deletions t' = <[dl_ArtifactID deletion := d]> (at_deletions t) /\
     dl_ArtifactID d = dl_ArtifactID deletion /\ dl_TenantID d = dl_TenantID deletion).
Proof.
  assert (HR : forall r t', RecordDeletion deletion t = (r, t') -> at_artifacts t' = at_artifacts t /\
    (at_deletions t' = at_deletions t \/
     at_deletions t !! dl_ArtifactID deletion = None /\ exists d, at_deletions t' = <[dl_ArtifactID deletion := d]> (at_deletions t) /\
       dl_ArtifactID d = dl_ArtifactID deletion /\ dl_TenantID d = dl_TenantID deletion)).
  { intros r0 t0. unfold RecordDeletion. case_bool_decide as Hn; [intros [= _ <-]; auto|].
    case_bool_decide; intros [= _ <-]; [auto|]. rewrite <-eq_None_not_Some in Hn. split; [done|]. right. split; [done|]. by eexists. }
  unfold recordDeletion. destruct (fl_Record faults) as [[msg []]|].
  - intros [= _ <-]. apply (HR (RecordDeletion deletion t).1), surjective_pairing.
  - intros [= _ <-]. auto.
  - apply HR.
Qed.

Lemma owned_canonical x id a : artifact_inv x -> at_artifacts (as_tables x) !! id = Some a -> canonical (art_ObjectKey a).
Proof. intros Hinv Ha. destruct (iv_keyed _ Hinv _ _ Ha) as [_ [key Hk]]. exists key. by apply keyForArtifact_ok. Qed.

(** What a step has to show: the rows that are new, and the tombstones, grants
    and pending tombstones that are new. *)
Lemma inv_extend x y :
  artifact_inv x -> artifact_kept x y ->
  (forall id a, at_artifacts (as_tables y) !! id = Some a -> at_artifacts (as_tables x) !! id = Some a \/
     art_ID a = id /\ (exists key, keyForArtifact a = Ok key) /\
     forall id' b, at_artifacts (as_tables y) !! id' = Some b -> art_ObjectKey b = art_ObjectKey a -> id' = id) ->
  (forall id d, at_deletions (as_tables y) !! id = Some d ->
     at_deletions (as_tables x) !! id = Some d \/ dl_ArtifactID d = id /\ evidences y d) ->
  (forall g, g ∈ as_granted y -> g ∈ as_granted x \/ grants y g) ->
  (forall d, d ∈ as_pending y -> d ∈ as_pending x \/ evidences y d) ->
  artifact_inv y.
Proof.
  intros Hinv Hk Hrows Htomb Hgrant Hpend. split.
  - intros id a [Ha|(? & ? & _)]%Hrows; [by apply (iv_keyed _ Hinv)|done].
  - intros id a id' b Ha Hb He. destruct (Hrows _ _ Ha) as [Ha'|(_ & _ & Hu)]; [|symmetry; by apply (Hu id' b)].
    destruct (Hrows _ _ Hb) as [Hb'|(_ & _ & Hu)]; [by apply (iv_unique _ Hinv _ _ _ _ Ha' Hb')|by apply (Hu id a)].
  - intros id d [Hd|?]%Htomb; [|done]. destruct (iv_tombstones _ Hinv _ _ Hd) as [? ?]. split; [done|]. by eapply evidences_kept.
  - intros g [Hg|?]%Hgrant; [|done]. eapply grants_kept; [done|]. by apply (iv_granted _ Hinv).
  - intros d [Hd|?]%Hpend; [|done]. eapply evidences_kept; [done|]. by apply (iv_pending _ Hinv).
Qed.

Lemma step_create x newID input now a r t' :
  artifact_inv x -> NewArtifact newID input now = Ok a -> Artifact_Create a (as_db x) (as_tables x) = (r, t') ->
  let y := Build_ArtifactState (as_db x) t' (as_store x) (as_granted x) (as_pending x) in artifact_inv y /\ artifact_kept x y.
Proof.
  intros Hinv [Hkey _]%NewArtifact_key Hc y. unfold Artifact_Create in Hc. destruct (createArtifact a _ _) as [t1|e] eqn:Hca; cycle 1.
  { injection Hc as <- <-. split; [by destruct Hinv; split|by split; auto]. }
  injection Hc as <- <-. apply createArtifact_ok in Hca as (Hfresh & Huniq & ->). set (stored := a <| art_CreatedAt := _ |>) in y.
  assert (Hk : artifact_kept x y).
  { split; cbn; [|by auto]. intros id b Hb. rewrite lookup_insert_ne; [done|]. by intros <-; rewrite Hfresh in Hb. }
  split; [|done]. eapply inv_extend; [done|done| |by left|by left|by left]. cbn.
  intros id b [[<- <-]|[_ Hb]]%lookup_insert_Some; [right|by left]. split_and!; [done|done|].
  intros id' b [[<- _]|[_ Hb]]%lookup_insert_Some He; [done|]. by destruct (Huniq _ _ Hb).
Qed.

Lemma step_delete x deletion key s' r :
  artifact_inv x -> (deletion, key) ∈ as_granted x -> ps_Delete (as_store x) key = (s', r) ->
  let y := Build_ArtifactState (as_db x) (as_tables x) s' (as_granted x) (if absent r then deletion :: as_pending x else as_pending x) in
  artifact_inv y /\ artifact_kept x y.
Proof.
  intros Hinv (a & Ha & Ht & Hh & Hkey)%(iv_granted _ Hinv) Hd y. cbn in *.
  destruct (keyForArtifact_ok _ _ Hkey) as (Hname & _). assert (Hs : s' = (ps_Delete (as_store x) key).1) by (by rewrite Hd).
  assert (Hk : artifact_kept x y).
  { split; cbn; [done|]. intros id b Hb. destruct (decide (art_ObjectKey b = art_ObjectKey a)) as [He|Hne].
    - pose proof (iv_unique _ Hinv _ _ _ _ Hb Ha He) as ->. rewrite Ha in Hb. injection Hb as <-. rewrite Hs.
      unfold removed. destruct (ps_Delete_effect (as_store x) key _ Hname) as [->| ->]; auto.
    - left. rewrite Hs. eapply ps_Delete_frame; [done| |done]. by eapply owned_canonical. }
  split; [|done]. eapply inv_extend; [done|done|by left|by left|by left|]. cbn. intros d Hin. destruct (absent r) eqn:Habs; [|by left].
  apply elem_of_cons in Hin as [->|Hin]; [right|by left]. exists a. cbn. split_and!; try done.
  left. eapply ps_Delete_absent; [done|done|]. destruct r as [[]|[]]; try discriminate Habs; auto.
Qed.

Lemma step_record x faults deletion r t' :
  artifact_inv x -> deletion ∈ as_pending x -> recordDeletion faults deletion (as_tables x) = (r, t') ->
  let y := Build_ArtifactState (as_db x) t' (as_store x) (as_granted x) (as_pending x) in artifact_inv y /\ artifact_kept x y.
Proof.
  intros Hinv Hin [Hrows Hdel]%recordDeletion_ok y.
  assert (Hk : artifact_kept x y) by (split; cbn; rewrite ?Hrows; auto).
  split; [|done]. eapply inv_extend; [done|done|cbn; rewrite Hrows; by left| |by left|by left]. cbn.
  destruct Hdel as [->|(_ & d0 & -> & Hd0 & Ht0)]; [by left|].
  intros id d [[<- <-]|[_ Hd]]%lookup_insert_Some; [right|by left]. split; [done|].
  destruct (iv_pending _ Hinv _ Hin) as (a & Ha & Ht & Hh & Hp). exists a. cbn. by rewrite Hrows, Hd0, Ht0.
Qed.

Lemma Service_Download_store faults configured caller runID artifactID lifetime db t s r s' name :
  Service_Download faults configured caller runID artifactID lifetime db t s = (r, s') -> payload s' name = payload s name.
Proof.
  unfold Service_Download. destruct (authorizeDownload _ _ _ _ _ _ _ _) as [key|e]; [|by intros [= _ <-]].
  pose proof (ps_Presign_frame s key lifetime name) as Hf. destruct (ps_PresignDownload _ _ _) as [s1 [download|[]]]; cbn in Hf;
    try (by intros [= _ <-]). by destruct (_ || _); intros [= _ <-].
Qed.

Lemma artifact_step_kept x y : artifact_inv x -> artifact_step x y -> artifact_inv y /\ artifact_kept x y.
Proof.
  intros Hinv Hstep.
  destruct Hstep as [newID input now a r t' Hn Hc|faults configured now caller runID artifactID reason [deletion key] Ha
    |deletion key s' r Hin Hd|faults deletion r t' Hin Hr|faults configured caller runID artifactID lifetime r s' Hd
    |key upload name s' r Hn Hfree Hput|db'].
  - by eapply step_create.
  - set (y := Build_ArtifactState _ _ _ _ _). assert (Hk : artifact_kept x y) by (split; auto). split; [|done].
    eapply inv_extend; [done|done|by left|by left| |by left]. cbn. intros g [->|?]%elem_of_cons; [right|by left].
    apply authorizeDelete_ok in Ha as (a & Ha & Ht & _ & _ & Hh & Hkey & Hid & Hdt & _). exists a. cbn.
    rewrite Hid. by destruct (iv_keyed _ Hinv _ _ Ha) as [-> _].
  - by eapply step_delete.
  - by eapply step_record.
  - set (y := Build_ArtifactState _ _ _ _ _). assert (Hk : artifact_kept x y).
    { split; cbn; [done|]. intros. left. by eapply Service_Download_store. }
    split; [|done]. eapply inv_extend; try done; by left.
  - set (y := Build_ArtifactState _ _ _ _ _). assert (Hk : artifact_kept x y).
    { split; cbn; [done|]. intros id b Hb. replace s' with (ps_Put (as_store x) key upload).1 by (by rewrite Hput).
      destruct (ps_Put_frame (as_store x) key upload name (art_ObjectKey b) Hn (owned_canonical _ _ _ Hinv Hb)) as [?|?];
        [by eapply Hfree|by left|by right; right]. }
    split; [|done]. eapply inv_extend; try done; by left.
  - split; [by destruct Hinv; split|]. split; auto.
Qed.

Lemma artifact_kept_trans x y z : artifact_kept x y -> artifact_kept y z -> artifact_kept x z.
Proof.
  intros [R1 P1] [R2 P2]. split; [auto|]. intros id a Ha. unfold removed in *.
  destruct (P2 _ _ (R1 _ _ Ha)) as [He|[?|[? He]]]; rewrite ?He; [|by right; left|];
    destruct (P1 _ _ Ha) as [Hx|[[? ?]|?]]; rewrite ?Hx in *; auto 6.
Qed.

Lemma artifact_steps_kept x y : rtc artifact_step x y -> artifact_inv x -> artifact_inv y /\ artifact_kept x y.
Proof.
  induction 1 as [x|x y z Hs _ IH]; intros Hinv; [split; [done|split; auto]|].
  destruct (artifact_step_kept _ _ Hinv Hs) as [Hy Hk]. destruct (IH Hy) as [Hz Hk']. split; [done|]. by eapply artifact_kept_trans.
Qed.

(** Before any artifact was recorded; the payload store may hold anything. *)
Definition artifactsStarted (x : ArtifactState S) : Prop :=
  at_artifacts (as_tables x) = ∅ /\ at_deletions (as_tables x) = ∅ /\ as_granted x = [] /\ as_pending x = [].

Lemma artifactsStarted_inv x : artifactsStarted x -> artifact_inv x.
Proof.
  intros (Ha & Hd & Hg & Hp). split; rewrite ?Ha, ?Hd, ?Hg, ?Hp.
  - by intros ? ? ?%lookup_empty_Some.
  - by intros ? ? ? ? ?%lookup_empty_Some.
  - by intros ? ? ?%lookup_empty_Some.
  - by intros ? ?%not_elem_of_nil.
  - by intros ? ?%not_elem_of_nil.
Qed.


Lemma authorizeDelete_live faults configured now caller runID id reason db t granted :
  authorizeDelete faults configured now caller runID id reason db t = Ok granted ->
  exists a, at_artifacts t !! id = Some a /\ live t a = true.
Proof. destruct granted as [deletion key]. intros (a & ? & _ & _ & ? & _)%authorizeDelete_ok. by exists a. Qed.

(** A deletion can always be finished. From every reachable state, in
    particular one where an earlier request removed the payload and died before
    its tombstone, a manager of the artifact's tenant who asks with an acceptable
    reason, while the database answers and the store reports the payload deleted
    or already absent, gets success: the tombstone is recorded and the payload is
    gone. Any later request for the same artifact is refused and changes nothing. *)
Theorem deletion_completes (x y : ArtifactState S) (id : UUID) (a : Artifact) (run : AgentRun) (d : ArtifactDeletion)
    (key : ArtifactKey) (now : Time) (caller : Identity) (reason : string)
    (Hstart : artifactsStarted x) (Hxy : rtc artifact_step x y)
    (Ha : at_artifacts (as_tables y) !! id = Some a) (Hhot : art_RetentionClass a = ArtifactRetentionHot)
    (Hfresh : at_deletions (as_tables y) !! id = None)
    (Hrole : CanManageArtifacts caller = true) (Htenant : id_TenantID caller = art_TenantID a)
    (Hrun : Get (art_TenantID a) (art_RunID a) (as_db y) = Ok run)
    (Hd : NewArtifactDeletion id (art_TenantID a) (id_Subject caller) reason now = Ok d)
    (Hkey : keyForArtifact a = Ok key)
    (Hstore : (ps_Delete (as_store y) key).2 = Ok tt \/ (ps_Delete (as_store y) key).2 = Err ErrArtifactNotFound) :
  exists t' s',
    Service_Delete noFaults true now caller (art_RunID a) id reason (as_db y) (as_tables y) (as_store y) = (Ok tt, t', s') /\
    is_Some (at_deletions t' !! id) /\ payload s' (art_ObjectKey a) = None /\
    forall faults configured now' caller' runID reason' db', exists e,
      Service_Delete faults configured now' caller' runID id reason' db' t' s' = (Err e, t', s').
Proof.
  destruct (artifact_steps_kept _ _ Hxy (artifactsStarted_inv _ Hstart)) as [Hy _].
  destruct (iv_keyed _ Hy _ _ Ha) as [Hid _]. destruct (keyForArtifact_ok _ _ Hkey) as (Hname & _).
  assert (Hauth : authorizeDelete noFaults true now caller (art_RunID a) id reason (as_db y) (as_tables y) = Ok (d, key)).
  { unfold authorizeDelete, artifactForRun, answered, Artifact_Get, live. cbn [noFaults fl_Run fl_Artifact].
    rewrite bind_failIf, Hrole, Htenant, Hrun, Ha, Z.eqb_refl, Hid, Hfresh, bool_decide_eq_true_2 by done. cbn [negb andb].
    change (Ok run ≫= ?f) with (f run). cbv beta. change (Ok a ≫= ?f) with (f a). cbv beta.
    rewrite bind_failIf, (bool_decide_eq_true_2 (art_RunID a = art_RunID a)) by done. cbn [negb].
    change (Ok a ≫= ?f) with (f a). cbv beta. rewrite bind_failIf, Hhot, Hid, Hd, bool_decide_eq_true_2 by done. cbn [negb].
    change (Ok d ≫= ?f) with (f d). cbv beta. by rewrite bind_failIf, Hkey. }
  assert (Hdid : dl_ArtifactID d = id /\ dl_TenantID d = art_TenantID a).
  { unfold NewArtifactDeletion in Hd. apply bind_ok in Hd as ([] & _ & <-%Ok_inj). done. }
  destruct Hdid as [Hdid Hdt].
  assert (Hrec : exists t', RecordDeletion d (as_tables y) = (Ok tt, t') /\ at_artifacts t' = at_artifacts (as_tables y) /\
    is_Some (at_deletions t' !! id)).
  { unfold RecordDeletion. rewrite Hdid, Hfresh, Ha, Hdt. rewrite bool_decide_eq_false_2 by (by intros []).
    rewrite bool_decide_eq_false_2 by auto. eexists. split_and!; [done|done|]. cbn. rewrite lookup_insert_eq. by eexists. }
  destruct Hrec as (t' & Hrec & Hrows & Htomb). destruct (ps_Delete (as_store y) key) as [s' r] eqn:Hps. cbn in Hstore.
  exists t', s'. split_and!; [| done| |].
  - unfold Service_Delete. rewrite Hauth, Hps. unfold recordDeletion. cbn [noFaults fl_Record]. rewrite Hrec. by destruct Hstore as [->| ->].
  - by eapply ps_Delete_absent.
  - intros. unfold Service_Delete. destruct (authorizeDelete _ _ _ _ _ _ _ _ t') as [g|e] eqn:Hg; [|by exists e].
    apply authorizeDelete_live in Hg as (b & Hb & Hl). rewrite Hrows, Ha in Hb. injection Hb as <-.
    unfold live in Hl. apply bool_decide_eq_true in Hl. rewrite Hid in Hl. rewrite Hl in Htomb. by destruct Htomb.
Qed.
End Histories.

(** ** Addresses *)

Section Addresses.
Context `{UUIDs} `{!UUIDForm}.

(** Metadata that [domain.NewArtifact] accepts is always addressable: the
    service derives from it one key, whose canonical name is exactly the stored
    object key and whose scope is the owner's tenant, project, run and attempt.
    Artifacts of different owners never share an object key, so no owner can
    reach the payload of another one through the payload store. *)
Theorem artifact_addressable (newID newID' : res UUID) (input input' : NewArtifactInput) (now now' : Time) (a b : Artifact)
    (Ha : NewArtifact newID input now = Ok a) (Hb : NewArtifact newID' input' now' = Ok b)
    (Hids : Forall isUUID [art_TenantID a; art_ProjectID a; art_RunID a; art_TenantID b; art_ProjectID b; art_RunID b]) :
  (exists key, keyForArtifact a = Ok key /\ ObjectName key = Ok (art_ObjectKey a) /\
     ak_TenantID key = art_TenantID a /\ ak_ProjectID key = art_ProjectID a /\ ak_RunID key = art_RunID a /\
     ak_Attempt key = art_AttemptNumber a) /\
  (art_ObjectKey a = art_ObjectKey b ->
     art_TenantID a = art_TenantID b /\ art_ProjectID a = art_ProjectID b /\ art_RunID a = art_RunID b /\
     art_AttemptNumber a = art_AttemptNumber b).
Proof.
  apply NewArtifact_key in Ha as [[ka Ha] _]. apply NewArtifact_key in Hb as [[kb Hb] _].
  destruct (keyForArtifact_ok _ _ Ha) as (Na & Ta & Pa & Ra & Aa). destruct (keyForArtifact_ok _ _ Hb) as (Nb & Tb & Pb & Rb & Ab).
  split; [by exists ka|]. intros He. rewrite He in Na.
  repeat (apply Forall_cons in Hids as [? Hids]).
  assert (ka = kb) as <- by (apply (ObjectName_inj ka kb (art_ObjectKey b)); congruence).
  split_and!; congruence.
Qed.
End Addresses.
