(* ===== verification/ArtifactStores.v ===== *)
(** * The payload stores of the platform (internal/adapters/artifactstore)

    The file store (filesystem.go), system call by system call over a disk whose
    calls may fail, and the S3 store (s3.go) over a client with its documented
    behaviour. Both implement the [PayloadStore] interface of [Artifacts], so the
    theorems about artifacts hold with either of them.

    The theorems show what an upload leaves behind: the file store replaces an
    object as a whole or not at all, while the S3 store checks the declared digest
    only after the object was replaced. *)

From S2P Require Import Prelude Json AgentRun Policy Cluster Events Intent Store Reservations Queue SchedulingIntent.
From S2P Require Import RunRepo RunService HttpApi Paths Builder RunnerTask RunnerArtifacts Artifacts.

(** ** Uploads *)

(** [validateUpload]: the contents of an upload that may be stored. *)
Definition validateUpload (upload : ArtifactUpload) : res (list Ascii.ascii) :=
  match up_Contents upload with
  | None => Err (ErrPlain "artifact upload metadata is invalid")
  | Some contents =>
      _ ← failIf ((up_Size upload <? 0) || (up_ContentType upload == EmptyString) || negb (len (up_SHA256 upload) =? 64))
          (ErrPlain "artifact upload metadata is invalid");
      _ ← failIf (negb (hexDecodes (bytes (up_SHA256 upload))) || (lowerBytes (bytes (up_SHA256 upload)) != bytes (up_SHA256 upload)))
          (ErrPlain "artifact upload checksum is invalid");
      Ok contents
  end.

Definition validatePresignLifetime (lifetime : Duration) : res unit :=
  failIf ((lifetime <=? 0) || (MaxArtifactPresignLifetime <? lifetime)) (ErrPlain "artifact presign lifetime is outside the approved range").

(** ** The disk *)

(** How a call is answered: it works; it finds a directory where there is no file; or
    it fails, a copy after some of its bytes. For [ctx.Err], a failure is the
    context's error. *)
Inductive callAnswer := CallWorks | CallDirectory | CallFails (part : nat).

(** The files under their paths, the answers to come, and for each call of
    [os.CreateTemp] the random numbers it tries. *)
Record FileDisk := {
  fd_files : gmap string (list Ascii.ascii);
  fd_answers : list callAnswer;
  fd_tries : list (list Z);
}.

#[export] Instance FileDisk_settable : Settable FileDisk := fun d =>
  Build_FileDisk (fd_files d) (fd_answers d) (fd_tries d).

(** Code over the disk that returns a value or an error. *)
Definition FS (A : Type) : Type := FileDisk -> FileDisk * res A.

Definition fs_ret {A} (a : A) : FS A := fun d => (d, Ok a).
Definition fs_fail {A} (e : error) : FS A := fun d => (d, Err e).
Definition fs_lift {A} (r : res A) : FS A := fun d => (d, r).
Definition fs_bind {A B} (m : FS A) (f : A -> FS B) : FS B := fun d =>
  match m d with (d', Ok a) => f a d' | (d', Err e) => (d', Err e) end.
Notation "x <~ m ; k" := (fs_bind m (fun x => k)) (at level 100, m at level 99, k at level 200, right associativity).

(** [defer cleanup()] *)
Definition deferred {A B} (cleanup : FS B) (body : FS A) : FS A := fun d => let (d', r) := body d in ((cleanup d').1, r).

Definition nextAnswer (d : FileDisk) : callAnswer := default CallWorks (head (fd_answers d)).
Definition withFiles (d : FileDisk) (files : gmap string (list Ascii.ascii)) : FileDisk :=
  {| fd_files := files; fd_answers := tail (fd_answers d); fd_tries := fd_tries d |}.

(** A call that changes no file. *)
Definition call (e : error) : FS unit := fun d =>
  (withFiles d (fd_files d), match nextAnswer d with CallFails _ => Err e | _ => Ok tt end).

(** [os.CreateTemp(dir, ".artifact-*")]: the first number whose name is free. *)
Definition createTemp (path : string) (e : error) : FS string := fun d =>
  let tries := default [] (head (fd_tries d)) in
  let rest files := {| fd_files := files; fd_answers := tail (fd_answers d); fd_tries := tail (fd_tries d) |} in
  match nextAnswer d, filter (fun random => fd_files d !! temporaryPath path random = None) tries with
  | CallWorks, random :: _ => (rest (<[temporaryPath path random := []]> (fd_files d)), Ok (temporaryPath path random))
  | _, _ => (rest (fd_files d), Err e)
  end.

(** [os.Remove], of a file or of an empty directory. *)
Definition remove (path : string) (missing e : error) : FS unit := fun d =>
  match nextAnswer d, fd_files d !! path with
  | CallFails _, _ => (withFiles d (fd_files d), Err e)
  | _, Some _ => (withFiles d (delete path (fd_files d)), Ok tt)
  | CallDirectory, None => (withFiles d (fd_files d), Ok tt)
  | CallWorks, None => (withFiles d (fd_files d), Err missing)
  end.

(** [os.Rename] of a file; a directory in the way is an error. *)
Definition rename (from to : string) (e : error) : FS unit := fun d =>
  match nextAnswer d, fd_files d !! from with
  | CallWorks, Some contents => (withFiles d (<[to := contents]> (delete from (fd_files d))), Ok tt)
  | _, _ => (withFiles d (fd_files d), Err e)
  end.

(** What [os.Open] opened. *)
Inductive opened := OpenFile (contents : list Ascii.ascii) | OpenDirectory.

Definition open (path : string) (missing e : error) : FS opened := fun d =>
  (withFiles d (fd_files d),
   match nextAnswer d, fd_files d !! path with
   | CallFails _, _ => Err e
   | _, Some contents => Ok (OpenFile contents)
   | CallDirectory, None => Ok OpenDirectory
   | CallWorks, None => Err missing
   end).

(** [NewFilesystemStore], with how [os.MkdirAll] and [filepath.EvalSymlinks] answer:
    the root of the store. *)
Definition NewFilesystemStore (root : string) (made : bool) (resolved : option string) : res string :=
  _ ← failIf (negb (IsAbs root)) (ErrPlain "artifact filesystem root must be absolute");
  _ ← failIf (negb made) (ErrPlain "create artifact filesystem root");
  match resolved with Some canonicalRoot => Ok canonicalRoot | None => Err (ErrPlain "resolve artifact filesystem root") end.

Section FilesystemStore.
Context `{UUIDs} {SH : SHA256}.

(** [copyWithDigest] into a file, or to [io.Discard]. *)
Definition copyWithDigest (destination : option string) (source : opened) : FS (Z * string) := fun d =>
  let write contents := match destination with Some path => <[path := contents]> (fd_files d) | None => fd_files d end in
  match nextAnswer d, source with
  | CallFails part, OpenFile contents => (withFiles d (write (take part contents)), Err (ErrPlain "copy artifact"))
  | _, OpenFile contents =>
      (withFiles d (write contents), Ok (Z.of_nat (length contents), sha256Hex (String.string_of_list_ascii contents)))
  | _, OpenDirectory => (withFiles d (fd_files d), Err (ErrPlain "copy artifact"))
  end.

Context (root : string).

(** [FilesystemStore.path] *)
Definition storePath (key : ArtifactKey) : res string :=
  name ← ObjectName key;
  let path := Join [root; name] in
  match Rel root path with
  | None => Err (ErrPlain "artifact path escapes filesystem root")
  | Some relative => _ ← failIf (escapes relative) (ErrPlain "artifact path escapes filesystem root"); Ok path
  end.

Definition Filesystem_Put (key : ArtifactKey) (upload : ArtifactUpload) : FS ArtifactObject :=
  path <~ fs_lift (storePath key);
  contents <~ fs_lift (validateUpload upload);
  _ <~ call (ErrPlain "create artifact directory");
  temporaryName <~ createTemp path (ErrPlain "create temporary artifact");
  deferred (remove temporaryName (ErrPlain "ignored") (ErrPlain "ignored")) (
    copied <~ copyWithDigest (Some temporaryName) (OpenFile contents);
    _ <~ fs_lift (failIf ((copied.1 != up_Size upload) || (copied.2 != up_SHA256 upload))
           (ErrPlain "artifact content does not match declared metadata"));
    _ <~ call (ErrPlain "set artifact permissions");
    _ <~ call (ErrPlain "close temporary artifact");
    _ <~ rename temporaryName path (ErrPlain "commit artifact");
    fs_ret {| ob_Key := key; ob_Size := copied.1; ob_SHA256 := copied.2 |}).

Definition Filesystem_Head (key : ArtifactKey) : FS ArtifactObject :=
  _ <~ call (ErrPlain "context done");
  path <~ fs_lift (storePath key);
  contents <~ open path ErrArtifactNotFound (ErrPlain "open artifact");
  copied <~ copyWithDigest None contents;
  fs_ret {| ob_Key := key; ob_Size := copied.1; ob_SHA256 := copied.2 |}.

Definition Filesystem_Get (key : ArtifactKey) : FS (ArtifactObject * opened) :=
  _ <~ call (ErrPlain "context done");
  object <~ Filesystem_Head key;
  path <~ fs_lift (storePath key);
  contents <~ open path ErrArtifactNotFound (ErrPlain "open artifact");
  fs_ret (object, contents).

Definition Filesystem_Delete (key : ArtifactKey) : FS unit :=
  _ <~ call (ErrPlain "context done");
  path <~ fs_lift (storePath key);
  remove path ErrArtifactNotFound (ErrPlain "delete artifact").

Definition Filesystem_PresignDownload (key : ArtifactKey) (lifetime : Duration) : FS PresignedDownload :=
  _ <~ fs_lift (validatePresignLifetime lifetime);
  fs_fail ErrPresigningUnsupported.
End FilesystemStore.

(** *** Reasoning about disk code *)

(** [m], run where the files satisfy [I], leaves files in [Q] with its value, or in
    [E] with an error. *)
Definition hoare {A} (I : gmap string (list Ascii.ascii) -> Prop) (m : FS A) (Q : A -> gmap string (list Ascii.ascii) -> Prop)
    (E : gmap string (list Ascii.ascii) -> Prop) : Prop :=
  forall d, I (fd_files d) -> match m d with (d', Ok a) => Q a (fd_files d') | (d', Err _) => E (fd_files d') end.

Lemma hoare_bind {A B} I (m : FS A) (f : A -> FS B) R Q E :
  hoare I m R E -> (forall a, hoare (R a) (f a) Q E) -> hoare I (fs_bind m f) Q E.
Proof. intros Hm Hf d Hd. unfold fs_bind. specialize (Hm d Hd). destruct (m d) as [d1 [a|e]]; [by apply Hf|done]. Qed.

Lemma hoare_lift {A} I (r : res A) (Q : A -> _) E :
  (forall f, I f -> match r with Ok a => Q a f | Err _ => E f end) -> hoare I (fs_lift r) Q E.
Proof. intros Hr d Hd. unfold fs_lift. specialize (Hr _ Hd). by destruct r. Qed.

Lemma hoare_ret {A} (I : _ -> Prop) (a : A) (Q : A -> _) E : (forall f, I f -> Q a f) -> hoare I (fs_ret a) Q E.
Proof. intros Hq d Hd. by apply Hq. Qed.

Lemma hoare_call (I : _ -> Prop) e (E : _ -> Prop) : (forall f, I f -> E f) -> hoare I (call e) (fun _ => I) E.
Proof. intros HE d Hd. unfold call. destruct (nextAnswer d); cbn; auto. Qed.

Lemma hoare_open (I : _ -> Prop) path missing e (E : _ -> Prop) :
  (forall f, I f -> E f) ->
  hoare I (open path missing e)
    (fun o f => I f /\ match o with OpenFile contents => f !! path = Some contents | OpenDirectory => f !! path = None end) E.
Proof. intros HE d Hd. unfold open. destruct (nextAnswer d), (fd_files d !! path) eqn:Hp; cbn; auto. Qed.

Lemma hoare_createTemp (I : _ -> Prop) path e (Q : string -> _) (E : _ -> Prop) :
  (forall f, I f -> E f) ->
  (forall f random, I f -> f !! temporaryPath path random = None -> Q (temporaryPath path random) (<[temporaryPath path random := []]> f)) ->
  hoare I (createTemp path e) Q E.
Proof.
  intros HE HQ d Hd. unfold createTemp. destruct (nextAnswer d); [|by apply HE..].
  destruct (filter _ _) as [|random rest] eqn:Hf; [by apply HE|]. cbn. apply HQ; [done|].
  assert (Hin : random ∈ random :: rest) by (by left). rewrite <-Hf in Hin. by apply list_elem_of_filter in Hin as [? _].
Qed.

Lemma hoare_remove (I : _ -> Prop) path missing e (Q E : _ -> Prop) :
  (forall f, I f -> E f) -> (forall f, I f -> Q (delete path f)) -> hoare I (remove path missing e) (fun _ => Q) E.
Proof.
  intros HE HQ d Hd. unfold remove. specialize (HQ _ Hd). destruct (nextAnswer d), (fd_files d !! path) eqn:Hp; cbn; auto.
  by rewrite delete_id in HQ.
Qed.

Lemma hoare_rename (I : _ -> Prop) from to e (Q E : _ -> Prop) :
  (forall f, I f -> E f) -> (forall f contents, I f -> f !! from = Some contents -> Q (<[to := contents]> (delete from f))) ->
  hoare I (rename from to e) (fun _ => Q) E.
Proof. intros HE HQ d Hd. unfold rename. destruct (nextAnswer d), (fd_files d !! from) eqn:Hp; cbn; auto. Qed.

Lemma hoare_deferred {A B} I (cleanup : FS B) (body : FS A) Q E Q' E' :
  hoare I body Q E -> (forall a, hoare (Q a) cleanup (fun _ => Q' a) (Q' a)) -> hoare E cleanup (fun _ => E') E' ->
  hoare I (deferred cleanup body) Q' E'.
Proof.
  intros Hb HQ HE d Hd. unfold deferred. specialize (Hb d Hd). destruct (body d) as [d1 [a|e]].
  - specialize (HQ a d1 Hb). by destruct (cleanup d1) as [d2 []].
  - specialize (HE d1 Hb). by destruct (cleanup d1) as [d2 []].
Qed.

Section Copies.
Context `{UUIDs} {SH : SHA256}.

Definition measured (contents : list Ascii.ascii) : Z * string :=
  (Z.of_nat (length contents), sha256Hex (String.string_of_list_ascii contents)).

Lemma hoare_copy_file (I : _ -> Prop) path contents (Q : _ -> _ -> Prop) (E : _ -> Prop) :
  (forall f, I f -> Q (measured contents) (<[path := contents]> f)) -> (forall f part, I f -> E (<[path := part]> f)) ->
  hoare I (copyWithDigest (Some path) (OpenFile contents)) Q E.
Proof. intros HQ HE d Hd. unfold copyWithDigest. destruct (nextAnswer d); cbn; auto. Qed.

Lemma hoare_copy_discard (I : _ -> Prop) source (E : _ -> Prop) :
  (forall f, I f -> E f) ->
  hoare I (copyWithDigest None source) (fun copied f => I f /\ exists contents, source = OpenFile contents /\ copied = measured contents) E.
Proof.
  intros HE d Hd. unfold copyWithDigest. destruct (nextAnswer d), source; cbn; auto; split; [done|by eexists|done|by eexists].
Qed.
End Copies.

(** *** The file store implements the interface *)

Section FilesystemLaws.
Context `{UUIDs} `{!UUIDForm} {SH : SHA256} (root : string) (Hroot : IsAbs root = true).

(** Names whose last part looks like a temporary file's. *)
Definition temporaryName (name : string) : bool :=
  match last (splitOn slashByte (bytes name)) with Some part => hasPrefixBytes temporaryMark part | None => false end.

Lemma storePath_ok key name : ObjectName key = Ok name -> storePath root key = Ok (Join [root; name]).
Proof.
  intros Hn. unfold storePath. rewrite Hn. cbn [mbind res_bind].
  destruct (Rel_confined root (Join [root; name]) Hroot (Join_rooted _ _ Hroot)) as (relative & -> & Hc & _).
  rewrite (proj2 Hc); [done|]. rewrite Join_key by (try done; apply canonical_proper; by exists key). by apply prefix_app_r.
Qed.

Lemma canonical_plain name : canonical name -> temporaryName name = false -> plainKey name.
Proof.
  intros Hc Ht. split; [by apply canonical_proper|]. unfold temporaryName in Ht.
  destruct (last _) as [part|] eqn:Hl; [done|]. apply last_None in Hl. by destruct (bytes name); simpl in Hl; repeat case_match.
Qed.

Lemma temporary_not_plain name other random :
  canonical name -> canonical other -> temporaryName other = false -> temporaryPath (Join [root; name]) random <> Join [root; other].
Proof. intros Hn Ho Ht. apply temporaryPath_other; [done|by apply canonical_proper|by apply canonical_plain]. Qed.

(** From the temporary file to the committed one. *)
Lemma Filesystem_Put_body key upload path path0 temp contents f0 :
  hoare (fun f => path0 = path /\ up_Contents upload = Some contents /\
      exists random, temp = temporaryPath path random /\ f0 !! temp = None /\ f = <[temp := []]> f0)
    (copied <~ copyWithDigest (Some temp) (OpenFile contents);
     _ <~ fs_lift (failIf ((copied.1 != up_Size upload) || (copied.2 != up_SHA256 upload))
            (ErrPlain "artifact content does not match declared metadata"));
     _ <~ call (ErrPlain "set artifact permissions");
     _ <~ call (ErrPlain "close temporary artifact");
     _ <~ rename temp path0 (ErrPlain "commit artifact");
     fs_ret {| ob_Key := key; ob_Size := copied.1; ob_SHA256 := copied.2 |})
    (fun object f => object = {| ob_Key := key; ob_Size := up_Size upload; ob_SHA256 := up_SHA256 upload |} /\
      (up_Size upload, up_SHA256 upload) = measured contents /\ up_Contents upload = Some contents /\
      (exists random, temp = temporaryPath path random) /\ f0 !! temp = None /\ f = <[path := contents]> f0)
    (fun f => (exists random, temp = temporaryPath path random) /\ f0 !! temp = None /\ exists part, f = <[temp := part]> f0).
Proof.
  set (known := path0 = path /\ up_Contents upload = Some contents /\ (exists random, temp = temporaryPath path random) /\ f0 !! temp = None).
  eapply (hoare_bind _ _ _ (fun copied f => known /\ copied = measured contents /\ f = <[temp := contents]> f0)).
  { apply hoare_copy_file; intros f.
    - intros (-> & Hc & random & -> & Hfree & ->). rewrite insert_insert_eq. unfold known. eauto 10.
    - intros part (-> & Hc & random & -> & Hfree & ->). rewrite insert_insert_eq. eauto 6. }
  intros copied. assert (Hfail : forall f, known /\ f = <[temp := contents]> f0 ->
    (exists random, temp = temporaryPath path random) /\ f0 !! temp = None /\ exists part, f = <[temp := part]> f0).
  { intros f [(_ & _ & Hr & Hfree) ->]. eauto. }
  eapply (hoare_bind _ _ _ (fun _ f => (copied = (up_Size upload, up_SHA256 upload) /\ copied = measured contents) /\
    known /\ f = <[temp := contents]> f0)).
  { apply hoare_lift. intros f (Hk & Hc & ->). destruct (failIf _ _) as [[]|] eqn:Hf; [|by apply Hfail].
    apply failIf_ok, orb_false_iff in Hf as [H1 H2]. apply negb_false_iff, bool_decide_eq_true in H1, H2.
    split; [|done]. split; [|done]. destruct copied; cbn in *. by subst. }
  intros []. eapply hoare_bind; [apply hoare_call; intros f [_ Hk]; by apply Hfail|]. intros [].
  eapply hoare_bind; [apply hoare_call; intros f [_ Hk]; by apply Hfail|]. intros [].
  eapply hoare_bind.
  - apply (hoare_rename _ _ _ _ (fun f => (copied = (up_Size upload, up_SHA256 upload) /\ copied = measured contents) /\ known /\
      f = <[path := contents]> f0)).
    + intros f [_ Hk]. by apply Hfail.
    + intros f c (Hc & Hk & ->). rewrite lookup_insert_eq. intros [= <-]. split; [done|]. split; [done|].
      destruct Hk as (-> & _ & _ & Hfree). by rewrite delete_insert_id.
  - intros []. apply hoare_ret. intros f ([-> Hm] & (_ & Hc & Hr & Hfree) & ->). done.
Qed.

(** What an upload does to the files. *)
Lemma Filesystem_Put_files key upload path f0 :
  storePath root key = Ok path ->
  hoare (eq f0) (Filesystem_Put root key upload)
    (fun object f => exists contents, up_Contents upload = Some contents /\
       object = {| ob_Key := key; ob_Size := up_Size upload; ob_SHA256 := up_SHA256 upload |} /\
       (up_Size upload, up_SHA256 upload) = measured contents /\
       (f = <[path := contents]> f0 \/ (exists random, temporaryPath path random = path) /\ f = f0))
    (fun f => f = f0 \/ exists random part, f0 !! temporaryPath path random = None /\ f = <[temporaryPath path random := part]> f0).
Proof.
  intros Hp. unfold Filesystem_Put. rewrite Hp.
  apply (hoare_bind _ _ _ (fun path0 f => path0 = path /\ f = f0)); [by apply hoare_lift|]. intros path0.
  eapply (hoare_bind _ _ _ (fun contents f => path0 = path /\ f = f0 /\ up_Contents upload = Some contents)).
  { apply hoare_lift. intros f [-> ->]. unfold validateUpload. destruct (up_Contents upload) as [contents|]; [|by left].
    rewrite bind_failIf. destruct (_ || _ || _); [by left|]. rewrite bind_failIf. by destruct (_ || _); [left|]. }
  intros contents. eapply hoare_bind; [apply hoare_call; intros f (_ & -> & _); by left|]. intros [].
  eapply (hoare_bind _ _ _ (fun temp f => path0 = path /\ up_Contents upload = Some contents /\
    exists random, temp = temporaryPath path random /\ f0 !! temp = None /\ f = <[temp := []]> f0)).
  { apply hoare_createTemp; [intros f (_ & -> & _); by left|]. intros f random (-> & -> & Hc) Hfree. eauto 8. }
  intros temp.
  eapply (hoare_deferred _ _ _ (fun object f => object = {| ob_Key := key; ob_Size := up_Size upload; ob_SHA256 := up_SHA256 upload |} /\
      (up_Size upload, up_SHA256 upload) = measured contents /\ up_Contents upload = Some contents /\
      (exists random, temp = temporaryPath path random) /\ f0 !! temp = None /\ f = <[path := contents]> f0)
    (fun f => (exists random, temp = temporaryPath path random) /\ f0 !! temp = None /\ exists part, f = <[temp := part]> f0)).
  - apply Filesystem_Put_body.
  - intros object. apply hoare_remove.
    + intros f (-> & Hm & Hc & _ & _ & ->). eauto 8.
    + intros f (-> & Hm & Hc & [random ->] & Hfree & ->). exists contents. split_and!; try done.
      destruct (decide (temporaryPath path random = path)) as [E|Hne]; [right|left].
      { split; [by exists random|]. rewrite E in *. by rewrite delete_insert_id. }
      by rewrite delete_insert_ne, delete_id.
  - apply hoare_remove.
    + intros f ([random ->] & Hfree & part & ->). eauto 6.
    + intros f ([random ->] & Hfree & part & ->). left. by rewrite delete_insert_id.
Qed.

Definition diskPayload (d : FileDisk) (name : string) : option (list Ascii.ascii) := fd_files d !! Join [root; name].

Lemma path_inj name other : canonical name -> canonical other -> other <> name -> Join [root; name] <> Join [root; other].
Proof. intros Hn Ho Hne E. apply Hne. symmetry. eapply Join_key_inj; [done|by apply canonical_proper..|done]. Qed.

Lemma Filesystem_Head_files key f0 :
  hoare (eq f0) (Filesystem_Head root key)
    (fun object f => f = f0 /\ ob_Key object = key /\ forall path, storePath root key = Ok path ->
       exists contents, f0 !! path = Some contents /\ (ob_Size object, ob_SHA256 object) = measured contents)
    (fun f => f = f0).
Proof.
  unfold Filesystem_Head. eapply hoare_bind; [by apply hoare_call|]. intros []. destruct (storePath root key) as [path|e] eqn:Hp; cycle 1.
  { eapply (hoare_bind _ _ _ (fun _ _ => False)); [by apply hoare_lift|]. by intros a d []. }
  apply (hoare_bind _ _ _ (fun path0 f => path0 = path /\ f = f0)); [by apply hoare_lift|]. intros path0.
  eapply hoare_bind; [apply hoare_open; by intros f [_ ->]|]. intros source.
  eapply hoare_bind; [apply hoare_copy_discard; by intros f ([_ ->] & _)|]. intros copied.
  apply hoare_ret. intros f (([-> ->] & Hs) & contents & -> & ->). split_and!; [done..|]. intros p [= <-]. by exists contents.
Qed.

Lemma Filesystem_Get_files key f0 :
  hoare (eq f0) (Filesystem_Get root key)
    (fun result f => f = f0 /\ ob_Key result.1 = key /\ forall path, storePath root key = Ok path ->
       exists contents, f0 !! path = Some contents /\ result.2 = OpenFile contents /\
         (ob_Size result.1, ob_SHA256 result.1) = measured contents)
    (fun f => f = f0).
Proof.
  unfold Filesystem_Get. eapply hoare_bind; [by apply hoare_call|]. intros [].
  eapply hoare_bind; [apply Filesystem_Head_files|]. intros object. destruct (storePath root key) as [path|e] eqn:Hp; cycle 1.
  { eapply (hoare_bind _ _ _ (fun _ _ => False)); [apply hoare_lift; by intros f [-> _]|]. by intros a d []. }
  apply (hoare_bind _ _ _ (fun path0 f => path0 = path /\ f = f0 /\ ob_Key object = key /\
    exists contents, f0 !! path = Some contents /\ (ob_Size object, ob_SHA256 object) = measured contents)).
  { apply hoare_lift. intros f (-> & Hk & Hc). split_and!; auto. }
  intros path0. eapply hoare_bind; [apply hoare_open; by intros f (_ & -> & _)|]. intros source.
  apply hoare_ret. intros f ((-> & -> & Hk & contents & Hc & Hm) & Hs). split_and!; [done..|]. intros p [= <-].
  exists contents. rewrite Hc in Hs. destruct source; [by injection Hs as ->|done].
Qed.

Definition Filesystem_read (d : FileDisk) (key : ArtifactKey) : FileDisk * res (ArtifactObject * list Ascii.ascii) :=
  match Filesystem_Get root key d with
  | (d', Ok (object, OpenFile contents)) => (d', Ok (object, contents))
  | (d', Ok (object, OpenDirectory)) => (d', Err (ErrPlain "read artifact"))
  | (d', Err e) => (d', Err e)
  end.

Lemma Filesystem_Delete_files key name f0 :
  ObjectName key = Ok name ->
  hoare (eq f0) (Filesystem_Delete root key) (fun _ f => f = delete (Join [root; name]) f0)  (fun f => f = f0).
Proof.
  intros Hn. unfold Filesystem_Delete. rewrite (storePath_ok _ _ Hn). eapply hoare_bind; [by apply hoare_call|]. intros [].
  apply (hoare_bind _ _ _ (fun path f => path = Join [root; name] /\ f = f0)); [by apply hoare_lift|]. intros path.
  apply hoare_remove; [by intros f [_ ->]|by intros f [-> ->]].
Qed.

Lemma Filesystem_Delete_missing key name d d' :
  ObjectName key = Ok name -> Filesystem_Delete root key d = (d', Err ErrArtifactNotFound) -> diskPayload d' name = None.
Proof.
  intros Hn. unfold Filesystem_Delete, fs_bind, fs_lift. rewrite (storePath_ok _ _ Hn). intros Hd.
  unfold call in Hd at 1. destruct (nextAnswer d); [| |discriminate Hd]; unfold remove in Hd;
    destruct (nextAnswer _); try (destruct (fd_files _ !! _) eqn:Hp in Hd); try discriminate Hd; by injection Hd as <-.
Qed.

#[refine] Instance filesystemStore : PayloadStore FileDisk := {|
  ps_Put := fun d key upload => Filesystem_Put root key upload d; ps_Head := fun d key => Filesystem_Head root key d;
  ps_Get := Filesystem_read; ps_Delete := fun d key => Filesystem_Delete root key d;
  ps_PresignDownload := fun d key lifetime => Filesystem_PresignDownload key lifetime d;
  payload := diskPayload; ps_scratch := temporaryName |}.
Proof.
  - intros d key upload d' object name Hput Hn Ht.
    pose proof (Filesystem_Put_files key upload _ (fd_files d) (storePath_ok _ _ Hn) d eq_refl) as Hf. rewrite Hput in Hf.
    destruct Hf as (contents & _ & -> & Hm & Hfiles). split_and!; [done..|]. exists contents. unfold diskPayload, describes.
    injection Hm as -> ->. split; [|done]. destruct Hfiles as [->|[[random E] _]]; [apply lookup_insert_eq|].
    exfalso. by apply (temporary_not_plain name name random); [exists key..| |].
  - intros d key upload name other Hn Ho Hne.
    pose proof (Filesystem_Put_files key upload _ (fd_files d) (storePath_ok _ _ Hn) d eq_refl) as Hf. unfold diskPayload.
    assert (Hc : canonical name) by (by exists key). destruct (Filesystem_Put root key upload d) as [d' [object|e]]; cbn [fst].
    + destruct Hf as (contents & _ & _ & _ & [->|[_ ->]]); left; [|done]. apply lookup_insert_ne. by apply path_inj.
    + destruct Hf as [->|(random & part & Hfree & ->)]; [by left|].
      destruct (decide (temporaryPath (Join [root; name]) random = Join [root; other])) as [E|]; [|left; by apply lookup_insert_ne].
      right. split; [|by rewrite <-E]. destruct (temporaryName other) eqn:Ht; [done|]. by apply temporary_not_plain in E.
  - intros d key d' object name Hh Hn. pose proof (Filesystem_Head_files key (fd_files d) d eq_refl) as Hf. rewrite Hh in Hf.
    destruct Hf as (_ & Hk & Hc). split; [done|]. destruct (Hc _ (storePath_ok _ _ Hn)) as (contents & Hp & [= Hs Hd]). by exists contents.
  - intros d key other. pose proof (Filesystem_Head_files key (fd_files d) d eq_refl) as Hf. unfold diskPayload.
    destruct (Filesystem_Head root key d) as [d' [object|e]]; cbn [fst]; [by destruct Hf as [-> _]|by rewrite Hf].
  - intros d key d' object contents name Hg Hn. pose proof (Filesystem_Get_files key (fd_files d) d eq_refl) as Hf.
    unfold Filesystem_read in Hg. destruct (Filesystem_Get root key d) as [d1 [[o []]|e]]; try done. injection Hg as <- <- <-.
    destruct Hf as (_ & Hk & Hc). destruct (Hc _ (storePath_ok _ _ Hn)) as (c & Hp & [= <-] & [= Hs Hd]). done.
  - intros d key other. pose proof (Filesystem_Get_files key (fd_files d) d eq_refl) as Hf. unfold diskPayload, Filesystem_read.
    destruct (Filesystem_Get root key d) as [d' [[o []]|e]]; cbn [fst]; by destruct Hf as [-> _] || rewrite Hf.
  - intros d key d' r name Hd Hn [->| ->]; [|by eapply Filesystem_Delete_missing].
    pose proof (Filesystem_Delete_files key name (fd_files d) Hn d eq_refl) as Hf. rewrite Hd in Hf. unfold diskPayload. rewrite Hf.
    apply lookup_delete_eq.
  - intros d key name Hn. pose proof (Filesystem_Delete_files key name (fd_files d) Hn d eq_refl) as Hf. unfold diskPayload.
    destruct (Filesystem_Delete root key d) as [d' [[]|e]]; cbn [fst]; rewrite Hf; [right; apply lookup_delete_eq|by left].
  - intros d key name other Hn Ho Hne. pose proof (Filesystem_Delete_files key name (fd_files d) Hn d eq_refl) as Hf. unfold diskPayload.
    assert (Hc : canonical name) by (by exists key).
    destruct (Filesystem_Delete root key d) as [d' [[]|e]]; cbn [fst]; rewrite Hf; [|done]. apply lookup_delete_ne. by apply path_inj.
  - intros d key lifetime other. unfold Filesystem_PresignDownload, fs_bind, fs_lift, fs_fail.
    by destruct (validatePresignLifetime lifetime) as [[]|].
Defined.

Lemma Filesystem_Put_works key upload name contents d random rest :
  ObjectName key = Ok name -> validateUpload upload = Ok contents -> measured contents = (up_Size upload, up_SHA256 upload) ->
  fd_answers d = [] -> fd_tries d = [random :: rest] -> fd_files d !! temporaryPath (Join [root; name]) random = None ->
  is_ok (Filesystem_Put root key upload d).2 = true.
Proof.
  intros Hn Hv Hm Ha Ht Hfree. unfold Filesystem_Put, fs_bind, fs_lift, call, createTemp. rewrite (storePath_ok _ _ Hn), Hv.
  unfold nextAnswer. rewrite Ha. cbn [head default withFiles fd_answers fd_tries fd_files tail]. rewrite Ha, Ht.
  cbn [head default tail fd_answers withFiles id from_option]. rewrite filter_cons_True by done. unfold deferred, copyWithDigest, rename.
  cbn [fd_files fd_answers fd_tries nextAnswer head default withFiles tail from_option id]. unfold nextAnswer.
  cbn [fd_files fd_answers fd_tries nextAnswer head default withFiles tail from_option id fst snd].
  injection Hm as -> ->. rewrite !bool_decide_eq_true_2 by done. cbn [negb orb failIf fst snd fd_files withFiles].
  rewrite lookup_insert_eq. done.
Qed.

(** C32: An upload to the file store is atomic. Whatever calls fail on the way, an
    error leaves the object as it was, and success means the object now is exactly
    the uploaded bytes, of the declared size and SHA-256; no other object changes
    either way. When the disk works, a valid upload whose bytes match succeeds.
    (Names that look like the store's temporary files are excluded.) *)
Theorem upload_atomic (key : ArtifactKey) (upload : ArtifactUpload) (name : string) (d : FileDisk)
    (Hn : ObjectName key = Ok name) (Ht : temporaryName name = false) :
  let '(d', r) := Filesystem_Put root key upload d in
  match r with
  | Ok object => exists contents, up_Contents upload = Some contents /\ diskPayload d' name = Some contents /\ describes object contents /\
      object = {| ob_Key := key; ob_Size := up_Size upload; ob_SHA256 := up_SHA256 upload |}
  | Err _ => diskPayload d' name = diskPayload d name
  end /\
  (forall other, canonical other -> other <> name -> temporaryName other = false -> diskPayload d' other = diskPayload d other) /\
  (forall contents random rest, validateUpload upload = Ok contents -> measured contents = (up_Size upload, up_SHA256 upload) ->
     fd_answers d = [] -> fd_tries d = [random :: rest] -> fd_files d !! temporaryPath (Join [root; name]) random = None -> is_ok r = true).
Proof.
  assert (Hc : canonical name) by (by exists key).
  pose proof (Filesystem_Put_files key upload _ (fd_files d) (storePath_ok _ _ Hn) d eq_refl) as Hf.
  pose proof (fun c r l => Filesystem_Put_works key upload name c d r l Hn) as Hw.
  destruct (Filesystem_Put root key upload d) as [d' r]. cbn [snd] in Hw. split_and!; [| |exact Hw].
  - unfold diskPayload. destruct r as [object|e].
    + destruct Hf as (contents & Hup & -> & Hm & Hfiles). exists contents. injection Hm as Hs Hd. split_and!; try done.
      destruct Hfiles as [->|[[random E] _]]; [apply lookup_insert_eq|]. by apply temporary_not_plain in E.
    + destruct Hf as [->|(random & part & _ & ->)]; [done|]. apply lookup_insert_ne. by apply temporary_not_plain.
  - intros other Ho Hne Hto. unfold diskPayload. destruct r as [object|e].
    + destruct Hf as (contents & _ & _ & _ & [->|[_ ->]]); [|done]. apply lookup_insert_ne. by apply path_inj.
    + destruct Hf as [->|(random & part & _ & ->)]; [done|]. apply lookup_insert_ne. by apply temporary_not_plain.
Qed.
End FilesystemLaws.

(** ** The S3 store *)

(** What [minio.ToErrorResponse] and [errors.Is] show of an error. *)
Record S3Error := {
  s3_Code : string;
  s3_contextDone : bool;
  s3_text : string;
}.

Definition missingCode (code : string) : bool := (code == "NoSuchKey") || (code == "NoSuchObject") || (code == "NoSuchBucket").

Definition translateS3Error (err : S3Error) : error :=
  if missingCode (s3_Code err) then ErrArtifactNotFound
  else if s3_contextDone err then ErrPlain (s3_text err)
  else ErrPlain ("S3 artifact operation failed: " +:+ s3_text err).

(** The client, with the behaviour it documents: a call touches its own key only; an
    upload that succeeds stored the bytes; what is reported of an object is the size
    and the base64 SHA-256 checksum of what is stored; a removal that succeeds, or
    that finds no key, object or bucket, leaves nothing under the key. *)
Class S3Client {SH : SHA256} (C : Type) := {
  s3_putObject : C -> string -> string -> list Ascii.ascii -> Z -> string -> C * option S3Error;
  s3_statObject : C -> string -> string -> C * (S3Error + ObjectInfo);
  s3_getObject : C -> string -> string -> C * (S3Error + list Ascii.ascii);
  s3_removeObject : C -> string -> string -> C * option S3Error;
  s3_presignedGetObject : C -> string -> string -> Duration -> C * (S3Error + string);
  s3_now : C -> Time;
  s3_objectAt : C -> string -> string -> option (list Ascii.ascii);
  s3_putObject_stores c bucket key contents contentType c' :
    s3_putObject c bucket key contents (Z.of_nat (length contents)) contentType = (c', None) -> s3_objectAt c' bucket key = Some contents;
  s3_putObject_frame c bucket key contents size contentType other :
    other <> key -> s3_objectAt (s3_putObject c bucket key contents size contentType).1 bucket other = s3_objectAt c bucket other;
  s3_statObject_truth c bucket key c' info digest :
    s3_statObject c bucket key = (c', inr info) -> decodeBase64 (bytes (oi_ChecksumSHA256 info)) = Some digest -> length digest = 32%nat ->
    exists contents, s3_objectAt c bucket key = Some contents /\
      hexEncode digest = sha256Hex (String.string_of_list_ascii contents) /\ oi_Size info = Z.of_nat (length contents);
  s3_statObject_frame c bucket key other : s3_objectAt (s3_statObject c bucket key).1 bucket other = s3_objectAt c bucket other;
  s3_getObject_truth c bucket key c' contents :
    s3_getObject c bucket key = (c', inr contents) -> s3_objectAt c bucket key = Some contents;
  s3_getObject_frame c bucket key other : s3_objectAt (s3_getObject c bucket key).1 bucket other = s3_objectAt c bucket other;
  s3_removeObject_removes c bucket key c' : s3_removeObject c bucket key = (c', None) -> s3_objectAt c' bucket key = None;
  s3_removeObject_missing c bucket key c' err :
    s3_removeObject c bucket key = (c', Some err) -> missingCode (s3_Code err) = true -> s3_objectAt c' bucket key = None;
  s3_removeObject_effect c bucket key :
    s3_objectAt (s3_removeObject c bucket key).1 bucket key = s3_objectAt c bucket key \/
    s3_objectAt (s3_removeObject c bucket key).1 bucket key = None;
  s3_removeObject_frame c bucket key other :
    other <> key -> s3_objectAt (s3_removeObject c bucket key).1 bucket other = s3_objectAt c bucket other;
  s3_presigned_frame c bucket key lifetime other :
    s3_objectAt (s3_presignedGetObject c bucket key lifetime).1 bucket other = s3_objectAt c bucket other;
}.

Definition normalizePrefix (prefix : string) : res string :=
  let prefix := trimSlashes prefix in
  if prefix == EmptyString then Ok EmptyString else
  _ ← failIf (existsb backslash (bytes prefix) || (Clean prefix != prefix)) (ErrPlain "S3 artifact prefix is invalid");
  _ ← failIf (hasUnsafeObjectKeySegment prefix) (ErrPlain "S3 artifact prefix is invalid");
  Ok prefix.

(** [NewS3Store]: the bucket and the normalized prefix. *)
Definition NewS3Store (clientGiven : bool) (bucket prefix : string) : res (string * string) :=
  _ ← failIf (negb clientGiven || (bucket == EmptyString)) (ErrPlain "S3 artifact store configuration is invalid");
  normalizedPrefix ← normalizePrefix prefix;
  Ok (bucket, normalizedPrefix).

Section PlatformS3.
Context `{UUIDs} `{!UUIDForm} {SH : SHA256} {C : Type} {SC : S3Client C} (bucket prefix : string).

(** [S3Store.name] *)
Definition S3_name (key : ArtifactKey) : res string :=
  objectName ← ObjectName key;
  if prefix == EmptyString then Ok objectName else Ok (prefix +:+ "/" +:+ objectName).

Definition S3_Head (c : C) (key : ArtifactKey) : C * res ArtifactObject :=
  match S3_name key with
  | Err e => (c, Err e)
  | Ok name =>
      match s3_statObject c bucket name with
      | (c, inl err) => (c, Err (translateS3Error err))
      | (c, inr info) =>
          (c, match decodeBase64 (bytes (oi_ChecksumSHA256 info)) with
              | Some digest =>
                  if (length digest =? 32)%nat then Ok {| ob_Key := key; ob_Size := oi_Size info; ob_SHA256 := hexEncode digest |}
                  else Err (ErrPlain "S3 artifact checksum is invalid")
              | None => Err (ErrPlain "S3 artifact checksum is invalid")
              end)
      end
  end.

Definition S3_Put (c : C) (key : ArtifactKey) (upload : ArtifactUpload) : C * res ArtifactObject :=
  match validateUpload upload, S3_name key with
  | Err e, _ => (c, Err e)
  | _, Err e => (c, Err e)
  | Ok contents, Ok name =>
      match s3_putObject c bucket name contents (up_Size upload) (up_ContentType upload) with
      | (c, Some err) => (c, Err (translateS3Error err))
      | (c, None) =>
          match S3_Head c key with
          | (c, Err e) => (c, Err e)
          | (c, Ok object) =>
              if (ob_Size object != up_Size upload) || (ob_SHA256 object != up_SHA256 upload)
              then (c, Err (ErrPlain "S3 artifact does not match declared metadata"))
              else (c, Ok object)
          end
      end
  end.

Definition S3_Get (c : C) (key : ArtifactKey) : C * res (ArtifactObject * list Ascii.ascii) :=
  match S3_Head c key with
  | (c, Err e) => (c, Err e)
  | (c, Ok object) =>
      match S3_name key with
      | Err e => (c, Err e)
      | Ok name =>
          match s3_getObject c bucket name with
          | (c, inl err) => (c, Err (translateS3Error err))
          | (c, inr contents) => (c, Ok (object, contents))
          end
      end
  end.

Definition S3_Delete (c : C) (key : ArtifactKey) : C * res unit :=
  match S3_name key with
  | Err e => (c, Err e)
  | Ok name =>
      match s3_removeObject c bucket name with
      | (c, Some err) => (c, Err (translateS3Error err))
      | (c, None) => (c, Ok tt)
      end
  end.

Definition S3_PresignDownload (c : C) (key : ArtifactKey) (lifetime : Duration) : C * res PresignedDownload :=
  match validatePresignLifetime lifetime, S3_name key with
  | Err e, _ => (c, Err e)
  | _, Err e => (c, Err e)
  | Ok _, Ok name =>
      match s3_presignedGetObject c bucket name lifetime with
      | (c, inl err) => (c, Err (translateS3Error err))
      | (c, inr url) => (c, Ok {| pd_URL := Some url; pd_ExpiresAt := UTC (s3_now c) + lifetime |})
      end
  end.

(** *** The S3 store implements the interface *)

Definition s3Payload (c : C) (name : string) : option (list Ascii.ascii) := s3_objectAt c bucket (fullKey prefix name).

Lemma S3_name_ok key name : ObjectName key = Ok name -> S3_name key = Ok (fullKey prefix name).
Proof. intros Hn. unfold S3_name, fullKey. rewrite Hn. cbn [mbind res_bind]. by case_bool_decide. Qed.

Lemma S3_Head_truth c key c' object name :
  S3_Head c key = (c', Ok object) -> ObjectName key = Ok name ->
  ob_Key object = key /\ exists contents, s3Payload c name = Some contents /\ describes object contents.
Proof.
  unfold S3_Head. intros Hh Hn. rewrite (S3_name_ok _ _ Hn) in Hh. destruct (s3_statObject _ _ _) as [c1 [err|info]] eqn:Hs; [done|].
  destruct (decodeBase64 _) as [digest|] eqn:Hd; [|done]. destruct (length digest =? 32)%nat eqn:Hl; [|done]. apply Nat.eqb_eq in Hl.
  injection Hh as _ <-. split; [done|]. destruct (s3_statObject_truth _ _ _ _ _ _ Hs Hd Hl) as (contents & Hc & Hx & Hz). by exists contents.
Qed.

Lemma S3_Head_frame c key other : s3Payload (S3_Head c key).1 other = s3Payload c other.
Proof.
  unfold S3_Head, s3Payload. destruct (S3_name key) as [name|]; [|done].
  pose proof (s3_statObject_frame c bucket name (fullKey prefix other)) as Hf. by destruct (s3_statObject _ _ _) as [c1 [err|info]].
Qed.

Lemma translateS3Error_missing err : translateS3Error err = ErrArtifactNotFound -> missingCode (s3_Code err) = true.
Proof. unfold translateS3Error. destruct (missingCode _); [done|]. by destruct (s3_contextDone _). Qed.

Lemma fullKey_ne name other : other <> name -> fullKey prefix other <> fullKey prefix name.
Proof. intros Hne E. by apply fullKey_inj in E. Qed.

Lemma S3_Put_frame c key upload name other :
  ObjectName key = Ok name -> other <> name -> s3Payload (S3_Put c key upload).1 other = s3Payload c other.
Proof.
  intros Hn Hne%fullKey_ne. unfold S3_Put. destruct (validateUpload upload) as [contents|]; [|done]. rewrite (S3_name_ok _ _ Hn).
  pose proof (s3_putObject_frame c bucket _ contents (up_Size upload) (up_ContentType upload) _ Hne) as Hf.
  destruct (s3_putObject _ _ _ _ _ _) as [c1 [err|]]; [done|]. cbn [fst] in Hf. pose proof (S3_Head_frame c1 key other) as Hh.
  unfold s3Payload in *. destruct (S3_Head c1 key) as [c2 [object|e]]; [|by etrans]. by destruct (_ || _); etrans.
Qed.

#[refine] Instance s3Store : PayloadStore C := {|
  ps_Put := S3_Put; ps_Head := S3_Head; ps_Get := S3_Get; ps_Delete := S3_Delete; ps_PresignDownload := S3_PresignDownload;
  payload := s3Payload; ps_scratch := fun _ => false |}.
Proof.
  - intros c key upload c' object name Hput Hn _. unfold S3_Put in Hput. destruct (validateUpload upload) as [contents|]; [|done].
    rewrite (S3_name_ok _ _ Hn) in Hput. destruct (s3_putObject _ _ _ _ _ _) as [c1 [err|]]; [done|].
    pose proof (S3_Head_frame c1 key name) as Hf. destruct (S3_Head c1 key) as [c2 [o|e]] eqn:Hh; [|done].
    destruct (_ || _) eqn:Hne; [done|]. injection Hput as <- <-. apply orb_false_iff in Hne as [H1 H2].
    apply negb_false_iff, bool_decide_eq_true in H1, H2. destruct (S3_Head_truth _ _ _ _ _ Hh Hn) as [Hk (stored & Hp & Hd)].
    split_and!; [done..|]. exists stored. split; [|done]. by rewrite <-Hp.
  - intros c key upload name other Hn _ Hne. left. by eapply S3_Put_frame.
  - intros c key c' object name. apply S3_Head_truth.
  - intros c key other. apply S3_Head_frame.
  - intros c key c' object contents name Hg Hn. unfold S3_Get in Hg. pose proof (S3_Head_frame c key name) as Hf.
    destruct (S3_Head c key) as [c1 [o|e]] eqn:Hh; [|done]. rewrite (S3_name_ok _ _ Hn) in Hg.
    destruct (s3_getObject _ _ _) as [c2 [err|read]] eqn:Hr; [done|]. injection Hg as _ <- <-. apply s3_getObject_truth in Hr.
    destruct (S3_Head_truth _ _ _ _ _ Hh Hn) as [Hk (stored & Hp & Hd)]. cbn [fst] in Hf. unfold s3Payload in *.
    rewrite Hf, Hp in Hr. by injection Hr as <-.
  - intros c key other. unfold S3_Get. pose proof (S3_Head_frame c key other) as Hf. destruct (S3_Head c key) as [c1 [o|e]]; [|done].
    destruct (S3_name key) as [name|]; [|done]. pose proof (s3_getObject_frame c1 bucket name (fullKey prefix other)) as Hg.
    unfold s3Payload in *. by destruct (s3_getObject _ _ _) as [c2 [err|read]]; etrans.
  - intros c key c' r name Hd Hn Hr. unfold S3_Delete in Hd. rewrite (S3_name_ok _ _ Hn) in Hd. unfold s3Payload.
    destruct (s3_removeObject _ _ _) as [c1 [err|]] eqn:Hrem; injection Hd as <- <-; [|by eapply s3_removeObject_removes].
    destruct Hr as [Hr|Hr]; [done|]. injection Hr as Hr%translateS3Error_missing. by eapply s3_removeObject_missing.
  - intros c key name Hn. unfold S3_Delete, s3Payload. rewrite (S3_name_ok _ _ Hn).
    pose proof (s3_removeObject_effect c bucket (fullKey prefix name)) as Hf. by destruct (s3_removeObject _ _ _) as [c1 [err|]].
  - intros c key name other Hn _ Hne%fullKey_ne. unfold S3_Delete, s3Payload. rewrite (S3_name_ok _ _ Hn).
    pose proof (s3_removeObject_frame c bucket _ _ Hne) as Hf. by destruct (s3_removeObject _ _ _) as [c1 [err|]].
  - intros c key lifetime other. unfold S3_PresignDownload. destruct (validatePresignLifetime lifetime); [|done].
    destruct (S3_name key) as [name|]; [|done]. pose proof (s3_presigned_frame c bucket name lifetime (fullKey prefix other)) as Hf.
    unfold s3Payload in *. by destruct (s3_presignedGetObject _ _ _ _) as [c1 [err|url]].
Defined.

(** The S3 store checks the digest too late. An upload whose bytes do not have the
    declared SHA-256 is reported as an error, but once the client accepted it the
    object under the key is the mismatching upload, whatever was stored there before. *)
Theorem s3_mismatch_persists (c c1 : C) (key : ArtifactKey) (upload : ArtifactUpload) (name : string) (contents : list Ascii.ascii)
    (Hn : ObjectName key = Ok name) (Hv : validateUpload upload = Ok contents) (Hsize : up_Size upload = Z.of_nat (length contents))
    (Hput : s3_putObject c bucket (fullKey prefix name) contents (up_Size upload) (up_ContentType upload) = (c1, None))
    (Hdigest : up_SHA256 upload <> sha256Hex (String.string_of_list_ascii contents)) :
  is_ok (S3_Put c key upload).2 = false /\ s3Payload (S3_Put c key upload).1 name = Some contents.
Proof.
  unfold S3_Put. rewrite Hv, (S3_name_ok _ _ Hn), Hput. rewrite Hsize in Hput. apply s3_putObject_stores in Hput.
  pose proof (S3_Head_frame c1 key name) as Hf. destruct (S3_Head c1 key) as [c2 [object|e]] eqn:Hh; cbn [fst] in Hf.
  - destruct (S3_Head_truth _ _ _ _ _ Hh Hn) as [_ (stored & Hp & _ & Hd)]. unfold s3Payload in *. rewrite Hput in Hp. injection Hp as <-.
    rewrite (bool_decide_eq_false_2 (ob_SHA256 object = up_SHA256 upload)) by (rewrite Hd; auto). rewrite orb_true_r. cbn [fst snd is_ok].
    by rewrite Hf.
  - split; [done|]. cbn [fst]. unfold s3Payload in *. by rewrite Hf.
Qed.
End PlatformS3.

(** ** What a runner publishes *)

Section RunnerObjects.
Context `{UUIDs} `{!UUIDForm}.

Lemma keyPrefix_scope config t p r :
  rc_TenantID config = uuidString t -> rc_ProjectID config = uuidString p -> rc_RunID config = uuidString r ->
  (keyPrefix config +:+ "/")%string = scopePrefix t p r (rc_Attempt config).
Proof.
  intros Ht Hp Hr. apply bytes_inj. unfold keyPrefix, text, scopePrefix. rewrite !bytes_app, bytes_of_list, Ht, Hp, Hr.
  cbn [fmap list_fmap joinWith]. change (bytes "tenants/") with (bytes "tenants" ++ [slashByte]).
  change (bytes "/projects/") with (slashByte :: bytes "projects" ++ [slashByte]).
  change (bytes "/runs/") with (slashByte :: bytes "runs" ++ [slashByte]).
  change (bytes "/attempts/") with (slashByte :: bytes "attempts" ++ [slashByte]).
  change (bytes "/") with [slashByte]. rewrite <-!app_assoc. cbn [app]. rewrite <-?app_assoc. cbn [app]. done.
Qed.

Lemma objectNames_backslash rest : ("/" +:+ rest)%string ∈ objectNames -> existsb backslash (bytes rest) = false.
Proof.
  assert (Hall : forallb (fun name => negb (existsb backslash (bytes name))) objectNames = true) by (vm_compute; reflexivity).
  rewrite forallb_forall in Hall. intros Hin%list_elem_of_In%Hall%negb_true_iff. rewrite bytes_app in Hin. by apply existsb_app_false in Hin.
Qed.

(** The platform finds what a runner published. For a runner whose configuration
    carries the identifiers of a tenant, project and run, every object key the runner
    writes is the canonical name of one artifact key of that very scope. With the same
    root or prefix, the platform's file store opens the path the runner's file store
    wrote, the platform's S3 store asks for the object the runner's S3 store put, and
    metadata that records the object key is resolved to that artifact key. *)
Theorem runner_keys_addressable (root prefix : string) (config : RuntimeConfig) (t p r : UUID) (objectKey : string)
    (Hroot : IsAbs root = true) (Hvalid : validateRuntimeConfig config = Ok tt)
    (Hids : t <> uuidNil /\ p <> uuidNil /\ r <> uuidNil)
    (Ht : rc_TenantID config = uuidString t) (Hp : rc_ProjectID config = uuidString p) (Hr : rc_RunID config = uuidString r)
    (Hin : objectKey ∈ keysOf config) :
  exists key, ObjectName key = Ok objectKey /\
    (ak_TenantID key, ak_ProjectID key, ak_RunID key, ak_Attempt key) = (t, p, r, rc_Attempt config) /\
    storePath root key = filesystemPath root objectKey /\ S3_name prefix key = Ok (fullKey prefix objectKey) /\
    (forall a, (art_TenantID a, art_ProjectID a, art_RunID a, art_AttemptNumber a, art_ObjectKey a) = (t, p, r, rc_Attempt config, objectKey) ->
       keyForArtifact a = Ok key).
Proof.
  pose proof (keysOf_plain _ _ (validated_names _ Hvalid) Hin) as Hplain. pose proof (keyPrefix_scope _ _ _ _ Ht Hp Hr) as Hscope.
  assert (Ha : 1 <= rc_Attempt config).
  { unfold validateRuntimeConfig in Hvalid. apply bind_ok in Hvalid as ([] & Hb%failIf_ok & _). reflect_bools. lia. }
  apply list_elem_of_fmap in Hin as (name & Hkey & Hname). destruct (objectNames_split _ Hname) as (rest & -> & Hrest & _).
  assert (Hk : objectKey = scopePrefix t p r (rc_Attempt config) +:+ rest).
  { rewrite Hkey, <-Hscope. apply bytes_inj. by rewrite !bytes_app, <-!app_assoc. }
  set (key := {| ak_TenantID := t; ak_ProjectID := p; ak_RunID := r; ak_Attempt := rc_Attempt config; ak_Name := rest |}).
  assert (HO : ObjectName key = Ok objectKey).
  { apply ObjectName_ok. destruct Hids as (? & ? & ?). split_and!; try done. by apply objectNames_backslash. }
  exists key. split_and!; [done|done| | |].
  - by rewrite (storePath_ok root Hroot key _ HO), filesystemPath_plain.
  - by apply S3_name_ok.
  - intros a [= E1 E2 E3 E4 E5]. unfold keyForArtifact. rewrite E1, E2, E3, E4, E5, Hk.
    unfold HasPrefix. rewrite bind_failIf, (proj2 (hasPrefixBytes_spec _ _)) by (rewrite bytes_app; by eexists). cbn [negb].
    rewrite bytes_app, <-length_bytes, drop_app_length, of_list_bytes. fold key.
    rewrite <-Hk, HO, bind_failIf, bool_decide_eq_true_2 by done. done.
Qed.
End RunnerObjects.
