(* ===== verification/ArtifactApi.v ===== *)
(** * The artifact routes of the HTTP API (internal/httpapi/artifacts.go)

    The four handlers over the artifact service: listing, reading, issuing a
    short-lived download, and deleting. The payload store is any [PayloadStore].

    The theorems show that tenants are isolated on these routes, what a download
    capability is issued for, and which lifetimes the query parameter gives. *)

From S2P Require Import Prelude Json AgentRun Policy Cluster Events Intent Store Reservations Queue SchedulingIntent.
From S2P Require Import RunRepo RunService HttpApi Paths Artifacts.

Definition defaultArtifactDownloadLifetime : Duration := 5 * Minute.

(** What the handlers read of a request; the body of a deletion is its reason. *)
Record ArtifactRequest := {
  ar_Authorization : string;
  ar_RunID : string;
  ar_ArtifactID : string;
  ar_ExpiresInSeconds : string;
  ar_Body : Decoded string;
}.

Record artifactResponse := {
  av_ID : string;
  av_AttemptNumber : Z;
  av_ContentType : string;
  av_SizeBytes : Z;
  av_SHA256 : string;
  av_RetentionClass : string;
  av_CreatedAt : Time;
}.

Inductive ArtifactReply :=
| ErrorReply (response : Response)
| ArtifactsReply (artifacts : list artifactResponse)
| ArtifactBody (artifact : artifactResponse)
| DownloadBody (url : string) (expiresAt : Time)
| NoContent.

Definition internalError : Response := writeError 500 "INTERNAL" "An internal error occurred." false.

Definition writeArtifactError (err : error) : Response :=
  match err with
  | ErrNotFound => writeError 404 "NOT_FOUND" "The requested resource was not found." false
  | ErrUnauthorized | ErrForbidden => writeError 403 "AUTHORIZATION" "The caller is not authorized for this resource." false
  | ErrValidation => writeError 422 "VALIDATION" "Request fields are invalid." false
  | ErrDownloadUnavailable | ErrDeletionUnavailable =>
      writeError 503 "DEPENDENCY_UNAVAILABLE" "Artifact storage is not currently available." true
  | _ => internalError
  end.

(** [time.Duration(seconds) * time.Second] wraps around at 64 bits. *)
Definition parseArtifactDownloadLifetime (value : string) : res Duration :=
  seconds ← (if value == EmptyString then Ok (defaultArtifactDownloadLifetime ÷ Second) else Atoi value);
  let lifetime := mul64 seconds Second in
  _ ← failIf ((lifetime <=? 0) || (MaxArtifactPresignLifetime <? lifetime))
      (ErrPlain "artifact download lifetime is outside the approved range");
  Ok lifetime.

Section ArtifactHandlers.
Context `{UUIDs} `{!UUIDText} {SH : SHA256} {S : Type} {PS : PayloadStore S}.
Context (resolver : option (string -> res Identity)) (faults : Faults) (configured : bool).

Definition responseForArtifact (artifact : Artifact) : artifactResponse :=
  {| av_ID := uuidString (art_ID artifact); av_AttemptNumber := art_AttemptNumber artifact; av_ContentType := art_ContentType artifact;
     av_SizeBytes := art_SizeBytes artifact; av_SHA256 := art_SHA256 artifact; av_RetentionClass := art_RetentionClass artifact;
     av_CreatedAt := UTC (art_CreatedAt artifact) |}.

Definition listArtifacts (request : ArtifactRequest) (db : DB) (t : ArtifactTables) : ArtifactReply :=
  match authenticate resolver (ar_Authorization request) with
  | Err _ => ErrorReply authenticationRequired
  | Ok caller =>
      match pathUUID (ar_RunID request) with
      | None => ErrorReply pathInvalid
      | Some runID =>
          match Service_List faults caller runID db t with
          | Err e => ErrorReply (writeArtifactError e)
          | Ok artifacts => ArtifactsReply (responseForArtifact <$> artifacts)
          end
      end
  end.

(** The caller and the two identifiers of the path, or the refusal. *)
Definition artifactPath (request : ArtifactRequest) : Response + Identity * UUID * UUID :=
  match authenticate resolver (ar_Authorization request) with
  | Err _ => inl authenticationRequired
  | Ok caller =>
      match pathUUID (ar_RunID request) with
      | None => inl pathInvalid
      | Some runID =>
          match pathUUID (ar_ArtifactID request) with
          | None => inl pathInvalid
          | Some artifactID => inr (caller, runID, artifactID)
          end
      end
  end.

Definition getArtifact (request : ArtifactRequest) (db : DB) (t : ArtifactTables) : ArtifactReply :=
  match artifactPath request with
  | inl response => ErrorReply response
  | inr (caller, runID, artifactID) =>
      match Service_Get faults caller runID artifactID db t with
      | Err e => ErrorReply (writeArtifactError e)
      | Ok artifact => ArtifactBody (responseForArtifact artifact)
      end
  end.

Definition downloadArtifact (request : ArtifactRequest) (db : DB) (t : ArtifactTables) (s : S) : ArtifactReply * S :=
  match artifactPath request with
  | inl response => (ErrorReply response, s)
  | inr (caller, runID, artifactID) =>
      match parseArtifactDownloadLifetime (ar_ExpiresInSeconds request) with
      | Err _ => (ErrorReply (writeError 422 "VALIDATION" "Download lifetime is invalid." false), s)
      | Ok lifetime =>
          match Service_Download faults configured caller runID artifactID lifetime db t s with
          | (Err e, s') => (ErrorReply (writeArtifactError e), s')
          | (Ok download, s') =>
              match pd_URL download with
              | None => (ErrorReply internalError, s')
              | Some url =>
                  if IsZero (pd_ExpiresAt download) then (ErrorReply internalError, s')
                  else (DownloadBody url (UTC (pd_ExpiresAt download)), s')
              end
          end
      end
  end.

Definition deleteArtifact (now : Time) (request : ArtifactRequest) (db : DB) (t : ArtifactTables) (s : S)
    : ArtifactReply * ArtifactTables * S :=
  match artifactPath request with
  | inl response => (ErrorReply response, t, s)
  | inr (caller, runID, artifactID) =>
      match ar_Body request with
      | DecodedBody reason =>
          match Service_Delete faults configured now caller runID artifactID reason db t s with
          | (Err e, t', s') => (ErrorReply (writeArtifactError e), t', s')
          | (Ok _, t', s') => (NoContent, t', s')
          end
      | decoded => (ErrorReply (writeRequestDecodeError decoded), t, s)
      end
  end.
End ArtifactHandlers.

(** ** Tenants *)

Section ArtifactIsolation.
Context `{UUIDs} `{!UUIDForm} `{!UUIDText} {SH : SHA256} {S : Type} {PS : PayloadStore S}.

(** An artifact the caller may see: stored, not deleted, of the caller's tenant and of
    the run the path names. *)
Definition visible (caller : Identity) (request : ArtifactRequest) (t : ArtifactTables) (a : Artifact) : Prop :=
  CanManageRuns caller = true /\ (exists id, at_artifacts t !! id = Some a) /\ live t a = true /\
  art_TenantID a = id_TenantID caller /\ pathUUID (ar_RunID request) = Some (art_RunID a).

(** Rows, tombstones and payloads of other tenants are as they were. *)
Definition others_kept (caller : Identity) (t t' : ArtifactTables) (s s' : S) : Prop :=
  forall id a, at_artifacts t !! id = Some a -> art_TenantID a <> id_TenantID caller ->
    at_artifacts t' !! id = Some a /\ at_deletions t' !! id = at_deletions t !! id /\
    payload s' (art_ObjectKey a) = payload s (art_ObjectKey a).

Lemma artifactForRun_ok faults tenantID runID artifactID db t a :
  artifactForRun faults tenantID runID artifactID db t = Ok a ->
  at_artifacts t !! artifactID = Some a /\ live t a = true /\ art_TenantID a = tenantID /\ art_RunID a = runID.
Proof.
  unfold artifactForRun. intros Ha. apply bind_ok in Ha as (run & _ & Ha). apply bind_ok in Ha as (b & Hb & Ha).
  apply bind_ok in Ha as ([] & Hr%failIf_ok & <-%Ok_inj). unfold answered in Hb. destruct (fl_Artifact faults); [done|].
  unfold Artifact_Get in Hb. destruct (at_artifacts t !! artifactID) as [stored|]; [|done].
  destruct (_ && _) eqn:Hl; [|done]. apply Ok_inj in Hb as ->. apply andb_prop in Hl as [Ht%Z.eqb_eq Hl]. reflect_bools. done.
Qed.

Lemma artifactPath_ok resolver request caller runID artifactID :
  artifactPath resolver request = inr (caller, runID, artifactID) ->
  authenticate resolver (ar_Authorization request) = Ok caller /\ pathUUID (ar_RunID request) = Some runID.
Proof.
  unfold artifactPath. destruct (authenticate _ _) as [c|]; [|done]. destruct (pathUUID (ar_RunID request)) as [r|]; [|done].
  destruct (pathUUID (ar_ArtifactID request)); [|done]. by intros [= -> -> ->].
Qed.

Lemma listArtifacts_visible resolver faults request caller db t views view :
  authenticate resolver (ar_Authorization request) = Ok caller ->
  listArtifacts resolver faults request db t = ArtifactsReply views -> view ∈ views ->
  exists a, visible caller request t a /\ view = responseForArtifact a.
Proof.
  intros Ha. unfold listArtifacts, Service_List. rewrite Ha. destruct (pathUUID _) as [runID|] eqn:Hp; [|done].
  rewrite bind_failIf. destruct (CanManageRuns caller) eqn:Hc; [cbn [negb]|done].
  destruct (answered _ (Get _ _ _)) as [run|]; [|done]. cbn [mbind res_bind]. unfold answered. destruct (fl_Artifact faults); [done|].
  intros [= <-] (a & -> & Hin)%list_elem_of_fmap. exists a. split; [|done]. unfold ListByRun in Hin.
  rewrite merge_sort_Permutation, list_elem_of_filter in Hin. destruct Hin as [(Ht & Hr & Hl) Hin].
  apply list_elem_of_fmap in Hin as ([id b] & -> & Hin%elem_of_map_to_list). cbn in *. unfold visible. rewrite Hp, Hr. split_and!; eauto.
Qed.

Lemma getArtifact_visible resolver faults request caller db t view :
  authenticate resolver (ar_Authorization request) = Ok caller ->
  getArtifact resolver faults request db t = ArtifactBody view -> exists a, visible caller request t a /\ view = responseForArtifact a.
Proof.
  intros Ha. unfold getArtifact. destruct (artifactPath resolver request) as [|[[c runID] artifactID]] eqn:Hp; [done|].
  apply artifactPath_ok in Hp as [Hauth Hp]. rewrite Ha in Hauth. injection Hauth as <-. unfold Service_Get. rewrite bind_failIf.
  destruct (CanManageRuns caller) eqn:Hc; [cbn [negb]|done]. destruct (artifactForRun _ _ _ _ _ _) as [a|] eqn:Hr; [|done].
  intros [= <-]. apply artifactForRun_ok in Hr as (? & ? & ? & ?). exists a. unfold visible. subst runID. split_and!; eauto.
Qed.

(** What a download was issued for. *)
Lemma downloadArtifact_issued resolver faults configured request caller db t s url expiresAt s' :
  authenticate resolver (ar_Authorization request) = Ok caller ->
  downloadArtifact resolver faults configured request db t s = (DownloadBody url expiresAt, s') ->
  exists a key lifetime download, visible caller request t a /\ keyForArtifact a = Ok key /\
    0 < lifetime <= MaxArtifactPresignLifetime /\ parseArtifactDownloadLifetime (ar_ExpiresInSeconds request) = Ok lifetime /\
    ps_PresignDownload s key lifetime = (s', Ok download) /\ pd_URL download = Some url /\ expiresAt = UTC (pd_ExpiresAt download).
Proof.
  intros Ha. unfold downloadArtifact. destruct (artifactPath resolver request) as [|[[c runID] artifactID]] eqn:Hp; [done|].
  apply artifactPath_ok in Hp as [Hauth Hp]. rewrite Ha in Hauth. injection Hauth as <-.
  destruct (parseArtifactDownloadLifetime _) as [lifetime|]; [|done].
  unfold Service_Download. destruct (authorizeDownload _ _ _ _ _ _ _ _) as [key|e] eqn:Hauth; [|done].
  unfold authorizeDownload in Hauth. apply bind_ok in Hauth as ([] & Hc%failIf_ok & Hauth).
  apply bind_ok in Hauth as ([] & Hl%failIf_ok & Hauth). apply bind_ok in Hauth as (a & Hr & Hauth).
  apply bind_ok in Hauth as ([] & _ & Hkey). apply artifactForRun_ok in Hr as (? & ? & ? & ?). reflect_bools.
  destruct (ps_PresignDownload s key lifetime) as [s1 [download|[]]] eqn:Hps; try done.
  destruct (_ || _); [done|]. destruct (pd_URL download) as [u|] eqn:Hu; [|done]. destruct (IsZero _); [done|].
  intros [= -> <- ->]. exists a, key, lifetime, download. unfold visible. subst runID. split_and!; eauto; lia.
Qed.

Lemma Service_Delete_others faults configured now caller runID artifactID reason x r t' s' :
  artifact_inv x -> Service_Delete faults configured now caller runID artifactID reason (as_db x) (as_tables x) (as_store x) = (r, t', s') ->
  others_kept caller (as_tables x) t' (as_store x) s'.
Proof.
  intros Hinv. unfold Service_Delete. destruct (authorizeDelete _ _ _ _ _ _ _ _ _) as [[deletion key]|e] eqn:Ha; [|by intros [= _ <- <-]].
  apply authorizeDelete_ok in Ha as (a & Ha & Ht & _ & _ & _ & Hk & Hid & _). destruct (iv_keyed _ Hinv _ _ Ha) as [Hai _].
  destruct (keyForArtifact_ok _ _ Hk) as (Hname & _).
  assert (Hpay : forall id b, at_artifacts (as_tables x) !! id = Some b -> art_TenantID b <> id_TenantID caller ->
    id <> artifactID /\ payload (ps_Delete (as_store x) key).1 (art_ObjectKey b) = payload (as_store x) (art_ObjectKey b)).
  { intros id b Hb Htb. assert (Hne : id <> artifactID) by (intros ->; rewrite Ha in Hb; injection Hb as <-; done). split; [done|].
    eapply ps_Delete_frame; [done|by eapply owned_canonical|]. intros E. apply Hne. by apply (iv_unique _ Hinv _ _ _ _ Hb Ha). }
  assert (Hrec : forall r2 t2, recordDeletion faults deletion (as_tables x) = (r2, t2) ->
    others_kept caller (as_tables x) t2 (as_store x) (ps_Delete (as_store x) key).1).
  { intros r2 t2 [Hrows Hdel]%recordDeletion_ok id b Hb Htb. destruct (Hpay _ _ Hb Htb) as [Hne Hp]. rewrite Hrows. split_and!; [done| |done].
    destruct Hdel as [->|(_ & d & -> & _)]; [done|]. rewrite lookup_insert_ne; [done|]. rewrite Hid, Hai. auto. }
  assert (Hkeep : others_kept caller (as_tables x) (as_tables x) (as_store x) (ps_Delete (as_store x) key).1).
  { intros id b Hb Htb. destruct (Hpay _ _ Hb Htb) as [_ Hp]. done. }
  destruct (ps_Delete (as_store x) key) as [s1 rd]. cbn [fst] in *. destruct (recordDeletion faults deletion (as_tables x)) as [r2 t2] eqn:Hr2.
  specialize (Hrec _ _ eq_refl).
  destruct rd as [[]|[]]; try (by intros [= _ <- <-]); destruct r2 as [[]|[]]; by intros [= _ <- <-].
Qed.

(** C31: Tenants are isolated on the artifact routes. Without valid credentials every
    route answers 401 and changes nothing. With them, what a listing or a read shows
    are stored, undeleted artifacts of the caller's tenant and of the run in the path;
    a download is issued by the store for exactly the key of such an artifact, for at
    most fifteen minutes; and a deletion leaves the rows, tombstones and payloads of
    every other tenant as they were. *)
Theorem artifact_api_isolation (resolver : option (string -> res Identity)) (faults : Faults) (configured : bool) (now : Time)
    (request : ArtifactRequest) (x0 x : ArtifactState S) (Hstart : artifactsStarted x0) (Hreach : rtc artifact_step x0 x) :
  let listed := listArtifacts resolver faults request (as_db x) (as_tables x) in
  let read := getArtifact resolver faults request (as_db x) (as_tables x) in
  let downloaded := downloadArtifact resolver faults configured request (as_db x) (as_tables x) (as_store x) in
  let deleted := deleteArtifact resolver faults configured now request (as_db x) (as_tables x) (as_store x) in
  match authenticate resolver (ar_Authorization request) with
  | Err _ =>
      listed = ErrorReply authenticationRequired /\ read = ErrorReply authenticationRequired /\
      downloaded = (ErrorReply authenticationRequired, as_store x) /\
      deleted = (ErrorReply authenticationRequired, as_tables x, as_store x)
  | Ok caller =>
      (forall views view, listed = ArtifactsReply views -> view ∈ views ->
         exists a, visible caller request (as_tables x) a /\ view = responseForArtifact a) /\
      (forall view, read = ArtifactBody view -> exists a, visible caller request (as_tables x) a /\ view = responseForArtifact a) /\
      (forall url expiresAt s', downloaded = (DownloadBody url expiresAt, s') ->
         exists a key lifetime download, visible caller request (as_tables x) a /\ keyForArtifact a = Ok key /\
           0 < lifetime <= MaxArtifactPresignLifetime /\ parseArtifactDownloadLifetime (ar_ExpiresInSeconds request) = Ok lifetime /\
           ps_PresignDownload (as_store x) key lifetime = (s', Ok download) /\ pd_URL download = Some url /\
           expiresAt = UTC (pd_ExpiresAt download)) /\
      (forall reply t' s', deleted = (reply, t', s') -> others_kept caller (as_tables x) t' (as_store x) s')
  end.
Proof.
  destruct (artifact_steps_kept _ _ Hreach (artifactsStarted_inv _ Hstart)) as [Hinv _]. cbv zeta.
  destruct (authenticate resolver (ar_Authorization request)) as [caller|e] eqn:Ha.
  - split_and!; [by intros; eapply listArtifacts_visible|by intros; eapply getArtifact_visible|by intros; eapply downloadArtifact_issued|].
    intros reply t' s'. unfold deleteArtifact. destruct (artifactPath resolver request) as [|[[c runID] artifactID]] eqn:Hp; [by intros [= _ <- <-]|].
    apply artifactPath_ok in Hp as [Hauth _]. rewrite Ha in Hauth. injection Hauth as <-.
    destruct (ar_Body request) as [reason| |]; [|by intros [= _ <- <-]..].
    destruct (Service_Delete _ _ _ _ _ _ _ _ _ _) as [[r t1] s1] eqn:Hd. apply Service_Delete_others in Hd; [|done].
    destruct r; by intros [= _ <- <-].
  - unfold listArtifacts, getArtifact, downloadArtifact, deleteArtifact, artifactPath. by rewrite Ha.
Qed.
End ArtifactIsolation.

(** ** Lifetimes *)

(** C33: The lifetime of a download. Without the parameter it is five minutes. Every
    accepted lifetime is positive and at most fifteen minutes, and as long as the
    requested seconds do not overflow a duration they are accepted exactly from 1 to
    900, for that time. Beyond, the product wraps around: 18446744074 seconds, more
    than 584 years, are accepted as 290448384 nanoseconds. *)
Theorem download_lifetime :
  parseArtifactDownloadLifetime EmptyString = Ok (5 * Minute) /\
  (forall value lifetime, parseArtifactDownloadLifetime value = Ok lifetime -> 0 < lifetime <= 15 * Minute) /\
  (forall value seconds, value <> EmptyString -> Atoi value = Ok seconds -> in_int64 (seconds * Second) ->
     (is_ok (parseArtifactDownloadLifetime value) = true <-> 1 <= seconds <= 900) /\
     (forall lifetime, parseArtifactDownloadLifetime value = Ok lifetime -> lifetime = seconds * Second)) /\
  parseArtifactDownloadLifetime "18446744074" = Ok 290448384.
Proof.
  split_and!; [by vm_compute| | |by vm_compute].
  - intros value lifetime Hl. apply bind_ok in Hl as (seconds & _ & ([] & Hb%failIf_ok & <-%Ok_inj)%bind_ok).
    reflect_bools. unfold MaxArtifactPresignLifetime in *. lia.
  - intros value seconds Hv Hs Hr. unfold parseArtifactDownloadLifetime. rewrite bool_decide_eq_false_2, Hs by done. cbn [mbind res_bind].
    unfold mul64. rewrite wrap64_small by done. unfold failIf, MaxArtifactPresignLifetime, Minute, Second in *.
    destruct (_ || _) eqn:Hb; cbn; reflect_bools; (split; [split; [|try done]; try done; lia|]); [done|by intros ? [= <-]].
Qed.
