(* ===== verification/ArtifactExamples.v ===== *)
(** * Example histories of artifacts

    Concrete identifiers, a concrete disk and a concrete S3 client, and runs of the
    artifact code on them, where the theorems of [Artifacts], [ArtifactStores] and
    [ArtifactApi] apply. *)

From S2P Require Import Prelude Json AgentRun Policy Cluster Events Intent Store Reservations Queue SchedulingIntent.
From S2P Require Import RunRepo RunService HttpApi Paths OpTypes Builder RunnerTask RunnerArtifacts RunnerExamples.
From S2P Require Import Artifacts ArtifactStores ArtifactApi.

(** ** Identifiers and stores *)

Lemma hexDigit_form n : 0 <= n < 16 -> lowerHex (hexDigit n) || hyphen (hexDigit n) = true.
Proof.
  intros Hn. assert (Hin : n ∈ seqZ 0 16) by (apply elem_of_seqZ; lia).
  assert (Hall : forallb (fun n => lowerHex (hexDigit n) || hyphen (hexDigit n)) (seqZ 0 16) = true) by (vm_compute; reflexivity).
  rewrite forallb_forall in Hall. by apply Hall, list_elem_of_In.
Qed.

Lemma hexUUID_form u : forallb (fun c => lowerHex c || hyphen c) (bytes (hexUUID u)) = true.
Proof.
  unfold hexUUID. rewrite bytes_of_list.
  assert (Hh : Forall (fun c => lowerHex c || hyphen c = true) (hexDigit <$> nibbles 32 u)).
  { apply Forall_fmap. eapply Forall_impl; [apply nibbles_range|]. intros n Hn. by apply hexDigit_form. }
  apply forallb_forall. intros c Hin. apply list_elem_of_In in Hin. revert c Hin. apply Forall_forall.
  repeat (apply Forall_app; split); auto using Forall_take, Forall_drop; by constructor.
Qed.

Lemma hexUUID_nonempty u : hexUUID u <> EmptyString.
Proof. intros E. pose proof (hexUUID_length u) as Hl. by rewrite E in Hl. Qed.

Definition rfcUUIDForm : @UUIDForm rfcUUIDs := {| uuidString_form := hexUUID_form : forall u, forallb _ (bytes (@uuidString rfcUUIDs u)) = true;
  uuidString_nonempty := hexUUID_nonempty |}.

#[local] Existing Instance rfcUUIDs.
#[local] Existing Instance rfcUUIDForm.
#[local] Existing Instance rfcUUIDText.
#[local] Existing Instance exampleSHA256.

Definition artifactRoot : string := "/srv/artifacts".

#[local] Instance exampleFiles : PayloadStore FileDisk := filesystemStore artifactRoot eq_refl.

(** ** A history *)

Definition exampleKey : ArtifactKey :=
  {| ak_TenantID := exampleTenant; ak_ProjectID := exampleV7 8; ak_RunID := exampleV7 11; ak_Attempt := 1; ak_Name := "logs/stdout.txt" |}.

Definition exampleName : string := match ObjectName exampleKey with Ok name => name | Err _ => EmptyString end.

Lemma exampleName_ok : ObjectName exampleKey = Ok exampleName /\ temporaryName exampleName = false.
Proof. split; vm_compute; reflexivity. Qed.

Definition exampleUpload : ArtifactUpload :=
  {| up_Contents := Some (bytes "done"); up_ContentType := "text/plain"; up_Size := 4; up_SHA256 := sha256Hex EmptyString |}.

Definition exampleInput (retention : string) : NewArtifactInput :=
  {| ia_TenantID := exampleTenant; ia_ProjectID := exampleV7 8; ia_RunID := exampleV7 11; ia_AttemptID := exampleV7 21;
     ia_AttemptNumber := 1; ia_ObjectKey := exampleName; ia_ContentType := "text/plain"; ia_SizeBytes := 4;
     ia_SHA256 := sha256Hex EmptyString; ia_RetentionClass := retention; ia_CreatedBy := "runner" |}.

Definition exampleArtifact (retention : string) : Artifact :=
  {| art_ID := exampleV7 31; art_TenantID := exampleTenant; art_ProjectID := exampleV7 8; art_RunID := exampleV7 11;
     art_AttemptID := exampleV7 21; art_AttemptNumber := 1; art_ObjectKey := exampleName; art_ContentType := "text/plain";
     art_SizeBytes := 4; art_SHA256 := sha256Hex EmptyString; art_RetentionClass := retention; art_CreatedBy := "runner";
     art_CreatedAt := exampleNow |}.

Lemma exampleArtifact_new : NewArtifact (Ok (exampleV7 31)) (exampleInput " hot ") exampleNow = Ok (exampleArtifact "HOT").
Proof. vm_compute. reflexivity. Qed.

Definition noArtifacts : ArtifactTables := {| at_artifacts := ∅; at_deletions := ∅ |}.
Definition exampleTables : ArtifactTables := {| at_artifacts := {[exampleV7 31 := exampleArtifact "HOT"]}; at_deletions := ∅ |}.

Definition exampleFileDisk : FileDisk :=
  {| fd_files := {[Join [artifactRoot; exampleName] := bytes "done"]}; fd_answers := []; fd_tries := [] |}.

Definition exampleAdministrator : Identity :=
  {| id_TenantID := exampleTenant; id_Subject := "admin"; id_Role := RoleProjectAdministrator |}.

Definition historyStart (disk : FileDisk) : ArtifactState FileDisk := Build_ArtifactState example_db noArtifacts disk [] [].
Definition historyRegistered (disk : FileDisk) : ArtifactState FileDisk := Build_ArtifactState example_db exampleTables disk [] [].

Lemma registered disk : artifactsStarted (historyStart disk) /\ rtc artifact_step (historyStart disk) (historyRegistered disk).
Proof.
  split; [done|]. apply rtc_once.
  refine (hs_create (historyStart disk) (Ok (exampleV7 31)) (exampleInput " hot ") exampleNow (exampleArtifact "HOT") (Ok tt) exampleTables
    exampleArtifact_new _).
  vm_compute. reflexivity.
Qed.

Definition exampleDelete (disk : FileDisk) : res unit * ArtifactTables * FileDisk :=
  Service_Delete noFaults true exampleNow exampleAdministrator (exampleV7 11) (exampleV7 31) "cleanup" example_db exampleTables disk.


(** The payload was already gone. *)
Lemma deletion_completes_witness :
  exists t' s',
    Service_Delete noFaults true exampleNow exampleAdministrator (exampleV7 11) (exampleV7 31) "cleanup" example_db exampleTables
      (exampleFileDisk <| fd_files := ∅ |>) = (Ok tt, t', s') /\ is_Some (at_deletions t' !! exampleV7 31).
Proof.
  destruct (registered (exampleFileDisk <| fd_files := ∅ |>)) as [Hs Hr].
  assert (Hd : exists d, NewArtifactDeletion (exampleV7 31) exampleTenant "admin" "cleanup" exampleNow = Ok d) by (eexists; vm_compute; reflexivity).
  destruct Hd as [d Hd].
  destruct (deletion_completes _ (historyRegistered (exampleFileDisk <| fd_files := ∅ |>)) (exampleV7 31) (exampleArtifact "HOT") (rr_Run example_run_row) d exampleKey exampleNow
    exampleAdministrator "cleanup" Hs Hr) as (t' & s' & Hdel & Htomb & _).
  - reflexivity.
  - reflexivity.
  - reflexivity.
  - reflexivity.
  - reflexivity.
  - vm_compute. reflexivity.
  - exact Hd.
  - vm_compute. reflexivity.
  - right. vm_compute. reflexivity.
  - exists t', s'. exact (conj Hdel Htomb).
Defined.

Lemma artifact_addressable_witness :
  exists key, keyForArtifact (exampleArtifact "HOT") = Ok key /\ ObjectName key = Ok exampleName.
Proof.
  destruct (artifact_addressable (Ok (exampleV7 31)) (Ok (exampleV7 31)) (exampleInput " hot ") (exampleInput " hot ") exampleNow exampleNow
    _ _ exampleArtifact_new exampleArtifact_new) as [(key & Hk & Hn & _) _].
  - repeat constructor; vm_compute; congruence.
  - exists key. exact (conj Hk Hn).
Defined.

Lemma upload_atomic_witness :
  let d := exampleFileDisk <| fd_tries := [[5]] |> in
  diskPayload artifactRoot (Filesystem_Put artifactRoot exampleKey exampleUpload d).1 exampleName = Some (bytes "done").
Proof.
  intros d. pose proof (upload_atomic artifactRoot eq_refl exampleKey exampleUpload exampleName d (proj1 exampleName_ok) (proj2 exampleName_ok)) as W.
  assert (Hok : is_ok (Filesystem_Put artifactRoot exampleKey exampleUpload d).2 = true) by (vm_compute; reflexivity).
  destruct (Filesystem_Put artifactRoot exampleKey exampleUpload d) as [d' [object|e]]; [|discriminate Hok].
  destruct W as [(contents & Hup & Hp & _) _]. injection Hup as <-. exact Hp.
Defined.

(** ** The S3 client *)

Definition zeroChecksum : string := "AAAAAAAAAAAAAAAAAAAAAAAAAAAAAAAAAAAAAAAAAAA=".

Definition bucketPut (c : gmap (string * string) (list Ascii.ascii)) (bucket key : string) (contents : list Ascii.ascii) (size : Z) (contentType : string)
    : gmap (string * string) (list Ascii.ascii) * option S3Error :=
  if size =? Z.of_nat (length contents) then (<[(bucket, key) := contents]> c, None)
  else (c, Some {| s3_Code := "IncompleteBody"; s3_contextDone := false; s3_text := "incomplete body" |}).

Definition noSuchKey : S3Error := {| s3_Code := "NoSuchKey"; s3_contextDone := false; s3_text := "no such key" |}.

#[refine, local] Instance exampleS3 : S3Client (gmap (string * string) (list Ascii.ascii)) := {|
  s3_putObject := bucketPut;
  s3_statObject := fun c bucket key =>
    (c, match c !! (bucket, key) with
        | Some contents => inr {| oi_ChecksumSHA256 := zeroChecksum; oi_ContentType := "text/plain"; oi_Size := Z.of_nat (length contents) |}
        | None => inl noSuchKey
        end);
  s3_getObject := fun c bucket key => (c, match c !! (bucket, key) with Some contents => inr contents | None => inl noSuchKey end);
  s3_removeObject := fun c bucket key => (delete (bucket, key) c, None);
  s3_presignedGetObject := fun c bucket key _ => (c, inr ("https://s3.example/" +:+ bucket +:+ "/" +:+ key));
  s3_now := fun _ => exampleNow;
  s3_objectAt := fun c bucket key => c !! (bucket, key) |}.
Proof.
  - intros c bucket key contents contentType c'. unfold bucketPut. rewrite Z.eqb_refl. intros [= <-]. apply lookup_insert_eq.
  - intros c bucket key contents size contentType other Hne. unfold bucketPut. destruct (_ =? _); cbn; [|done]. apply lookup_insert_ne. congruence.
  - intros c bucket key c' info digest Hs Hd _. destruct (c !! (bucket, key)) as [contents|]; [|done]. injection Hs as _ <-. exists contents.
    split; [done|]. split; [|done]. cbn [oi_ChecksumSHA256] in Hd.
    assert (E : decodeBase64 (bytes zeroChecksum) = Some (replicate 32 Ascii.zero)) by (vm_compute; reflexivity).
    rewrite E in Hd. injection Hd as <-. vm_compute. reflexivity.
  - done.
  - intros c bucket key c' contents Hg. destruct (c !! (bucket, key)); [|done]. by injection Hg as _ <-.
  - done.
  - intros c bucket key c' [= <-]. apply lookup_delete_eq.
  - done.
  - intros c bucket key. right. apply lookup_delete_eq.
  - intros c bucket key other Hne. apply lookup_delete_ne. congruence.
  - done.
Defined.

(** The stored object is replaced by bytes of another digest than the declared one. *)
Definition mismatchedUpload : ArtifactUpload :=
  {| up_Contents := Some (bytes "evil"); up_ContentType := "text/plain"; up_Size := 4;
     up_SHA256 := "1111111111111111111111111111111111111111111111111111111111111111" |}.

Lemma s3_mismatch_persists_witness :
  let c : gmap (string * string) (list Ascii.ascii) := {[("artifacts", exampleName) := bytes "done"]} in
  s3Payload "artifacts" EmptyString c exampleName = Some (bytes "done") /\
  s3Payload "artifacts" EmptyString (S3_Put "artifacts" EmptyString c exampleKey mismatchedUpload).1 exampleName = Some (bytes "evil").
Proof.
  intros c. split; [vm_compute; reflexivity|].
  refine (proj2 (s3_mismatch_persists "artifacts" EmptyString c (<[("artifacts", exampleName) := bytes "evil"]> c) exampleKey mismatchedUpload exampleName
    (bytes "evil") (proj1 exampleName_ok) _ _ _ _)).
  - vm_compute. reflexivity.
  - reflexivity.
  - change (fullKey EmptyString exampleName) with exampleName. cbn [s3_putObject exampleS3]. unfold bucketPut.
    rewrite (proj2 (Z.eqb_eq _ _)) by reflexivity. reflexivity.
  - vm_compute. congruence.
Defined.

(** ** The runner's keys and the routes *)

Definition publishingConfig : RuntimeConfig :=
  (configOf (runnerResource 1)) <| rc_TenantID := hexUUID exampleTenant |> <| rc_ProjectID := hexUUID (exampleV7 8) |>
    <| rc_RunID := hexUUID (exampleV7 11) |>.

Lemma runner_keys_addressable_witness :
  exists key, ObjectName key = Ok (manifestKey publishingConfig) /\ ak_TenantID key = exampleTenant.
Proof.
  destruct (runner_keys_addressable artifactRoot "team" publishingConfig exampleTenant (exampleV7 8) (exampleV7 11) (manifestKey publishingConfig)
    eq_refl) as (key & Hn & Hscope & _).
  - vm_compute. reflexivity.
  - split; [|split]; vm_compute; congruence.
  - reflexivity.
  - reflexivity.
  - reflexivity.
  - do 5 right. left.
  - exists key. split; [exact Hn|]. by injection Hscope.
Defined.

Definition listRequest : ArtifactRequest :=
  {| ar_Authorization := "Bearer secret"; ar_RunID := hexUUID (exampleV7 11); ar_ArtifactID := hexUUID (exampleV7 31);
     ar_ExpiresInSeconds := EmptyString; ar_Body := DecodedBody "cleanup" |}.

Lemma artifact_api_isolation_witness :
  exists view, listArtifacts example_resolver noFaults listRequest example_db exampleTables = ArtifactsReply [view] /\
    exists a, visible example_caller listRequest exampleTables a /\ view = responseForArtifact a.
Proof.
  destruct (registered exampleFileDisk) as [Hs Hr].
  pose proof (artifact_api_isolation example_resolver noFaults true exampleNow listRequest _ _ Hs Hr) as W. cbv zeta in W.
  assert (Hl : listArtifacts example_resolver noFaults listRequest example_db exampleTables
    = ArtifactsReply [responseForArtifact (exampleArtifact "HOT")]) by (vm_compute; reflexivity).
  exists (responseForArtifact (exampleArtifact "HOT")). split; [exact Hl|].
  change (authenticate example_resolver (ar_Authorization listRequest)) with (Ok example_caller : res Identity) in W.
  destruct W as [W _]. apply (W _ _ Hl). left.
Defined.
