(* ===== verification/GoText.v ===== *)
(** * Reading configuration text

    What the configuration loaders use of the Go standard library:
    [time.ParseDuration], [strconv.ParseInt] and [strconv.ParseBool],
    [net.SplitHostPort], and [json.Unmarshal] into a map of strings.

    Fractions of a duration are computed in 64-bit floating point, as the library
    does; [parseTerms_fuel] says that the loop over the terms of a duration ends. *)

From Stdlib Require Import SpecFloat.
From S2P Require Import Prelude JsonDecode Url.

(** ** time.ParseDuration *)

(** [leadingInt]: the value of the leading digits and the rest, or an overflow. *)
Definition leadingInt (l : list Ascii.ascii) : option (Z * list Ascii.ascii) :=
  let '(ds, rest) := digitRun l in
  if digitsValue ds <=? 2 ^ 63 then Some (digitsValue ds, rest) else None.

(** Binary floating point of 64 bits. *)
Definition float64 (z : Z) : spec_float := binary_normalize 53 1024 z 0 false.
Definition mulFloat : spec_float -> spec_float -> spec_float := SFmul 53 1024.
Definition divFloat : spec_float -> spec_float -> spec_float := SFdiv 53 1024.

(** [uint64(x)] of a finite number that is not negative. *)
Definition truncFloat (x : spec_float) : Z :=
  match x with
  | S754_finite _ m e => if 0 <=? e then Z.pos m * 2 ^ e else Z.pos m / 2 ^ (- e)
  | _ => 0
  end.

(** [leadingFraction]: the digits up to an overflow, and the power of ten they are
    divided by. *)
Fixpoint fractionOf (ds : list Ascii.ascii) (x : Z) (scale : spec_float) (overflow : bool) : Z * spec_float :=
  match ds with
  | [] => (x, scale)
  | c :: ds =>
      if overflow || (Z.quot (2 ^ 63 - 1) 10 <? x) then fractionOf ds x scale true
      else let y := x * 10 + digitValue c in
           if 2 ^ 63 <? y then fractionOf ds x scale true
           else fractionOf ds y (mulFloat scale (float64 10)) false
  end.

Definition leadingFraction (l : list Ascii.ascii) : Z * spec_float * list Ascii.ascii :=
  let '(ds, rest) := digitRun l in (fractionOf ds 0 (float64 1) false, rest).

(** The micro sign and the Greek letter mu, in UTF-8. *)
Definition microText (a b : N) : list Ascii.ascii := [Ascii.ascii_of_N a; Ascii.ascii_of_N b; Ascii.ascii_of_nat 115].

Definition unitMap (u : list Ascii.ascii) : option Z :=
  if u == bytes "ns" then Some 1
  else if (u == bytes "us") || (u == microText 194 181) || (u == microText 206 188) then Some 1000
  else if u == bytes "ms" then Some 1000000
  else if u == bytes "s" then Some Second
  else if u == bytes "m" then Some Minute
  else if u == bytes "h" then Some Hour
  else None.

(** The unit: everything up to the next digit or dot. *)
Fixpoint unitRun (l : list Ascii.ascii) : list Ascii.ascii * list Ascii.ascii :=
  match l with
  | [] => ([], [])
  | c :: rest => if dot c || digit c then ([], l) else let '(u, after) := unitRun rest in (c :: u, after)
  end.

(** One term, in nanoseconds: digits, perhaps with a fraction, and a unit. *)
Definition parseTerm (l : list Ascii.ascii) : option (Z * list Ascii.ascii) :=
  match l with
  | [] => None
  | c :: _ =>
      if negb (dot c || digit c) then None else
      match leadingInt l with
      | None => None
      | Some (v, rest) =>
          let pre := negb (length rest =? length l)%nat in
          let '(f, scale, after, post) :=
            match rest with
            | c' :: fraction =>
                if dot c' then let '(f, scale, after) := leadingFraction fraction in
                               (f, scale, after, negb (length after =? length fraction)%nat)
                else (0, float64 1, rest, false)
            | [] => (0, float64 1, rest, false)
            end in
          if negb pre && negb post then None else
          match unitRun after with
          | ([], _) => None
          | (u, after) =>
              match unitMap u with
              | None => None
              | Some unit =>
                  if Z.quot (2 ^ 63) unit <? v then None else
                  let v := v * unit in
                  let v := if 0 <? f then v + truncFloat (mulFloat (float64 f) (divFloat (float64 unit) scale)) else v in
                  if 2 ^ 63 <? v then None else Some (v, after)
              end
          end
      end
  end.

Fixpoint parseTerms (fuel : nat) (l : list Ascii.ascii) (d : Z) : option Z :=
  match l with
  | [] => Some d
  | _ =>
      match fuel with
      | O => None
      | S fuel =>
          match parseTerm l with
          | None => None
          | Some (v, after) =>
              let d := (d + v) mod 2 ^ 64 in
              if 2 ^ 63 <? d then None else parseTerms fuel after d
          end
      end
  end.

Definition ParseDuration (s : string) : option Duration :=
  let '(neg, l) :=
    match bytes s with
    | c :: rest => if hyphen c then (true, rest) else if byte_is 43 c then (false, rest) else (false, bytes s)
    | [] => (false, [])
    end in
  if l == bytes "0" then Some 0
  else if l == [] then None
  else match parseTerms (length l) l 0 with
       | None => None
       | Some d =>
           if neg : bool then Some (wrap64 (- d))
           else if 2 ^ 63 - 1 <? d then None else Some d
       end.

(** ** strconv *)

(** [strconv.ParseInt(s, 10, bits)] *)
Definition ParseInt (s : string) (bits : Z) : option Z :=
  match Atoi s with
  | Ok v => if (- 2 ^ (bits - 1) <=? v) && (v <? 2 ^ (bits - 1)) then Some v else None
  | Err _ => None
  end.

Definition ParseBool (s : string) : option bool :=
  if bool_decide (s ∈ ["1"; "t"; "T"; "TRUE"; "true"; "True"]) then Some true
  else if bool_decide (s ∈ ["0"; "f"; "F"; "FALSE"; "false"; "False"]) then Some false
  else None.

(** ** net.SplitHostPort *)

Definition openBracket (c : Ascii.ascii) : bool := byte_is 91 c.
Definition closeBracket (c : Ascii.ascii) : bool := byte_is 93 c.

Definition SplitHostPort (hostport : string) : option (string * string) :=
  let text := String.string_of_list_ascii in
  match cutLast colon (bytes hostport) with
  | None => None
  | Some (before, port) =>
      match before with
      | c :: inside =>
          if openBracket c then
            match cutByte closeBracket inside with
            | (host, Some []) =>
                if existsb openBracket host || existsb openBracket port || existsb closeBracket port then None
                else Some (text host, text port)
            | _ => None
            end
          else if existsb colon before || existsb openBracket (bytes hostport) || existsb closeBracket (bytes hostport) then None
          else Some (text before, text port)
      | [] => if existsb openBracket port || existsb closeBracket port then None else Some (EmptyString, text port)
      end
  end.

(** ** json.Unmarshal into a [map[string]string] *)

Fixpoint intoStrings (members : list (list Ascii.ascii * JSON)) (m : gmap string string) : option (gmap string string) :=
  match members with
  | [] => Some m
  | (key, v) :: rest =>
      match intoString EmptyString v with
      | Some value => intoStrings rest (<[String.string_of_list_ascii key := value]> m)
      | None => None
      end
  end.

Definition unmarshalStrings (value : string) : option (gmap string string) :=
  match decodeFirst (bytes value) with
  | Some (v, rest) =>
      if atEOF rest then
        match v with
        | JNull => Some ∅
        | JObject members => intoStrings members ∅
        | _ => None
        end
      else None
  | None => None
  end.

(** ** Durations end *)

Lemma unitRun_length l u after : unitRun l = (u, after) -> length l = (length u + length after)%nat.
Proof.
  revert u after. induction l as [|c l IH]; cbn [unitRun]; intros u after; [by intros [= <- <-]|].
  destruct (_ || _); [by intros [= <- <-]|]. destruct (unitRun l) as [u' after']. intros [= <- <-]. cbn. by rewrite (IH u' after').
Qed.

(** A term takes at least the first byte. *)
Lemma parseTerm_shorter l v after : parseTerm l = Some (v, after) -> (length after < length l)%nat.
Proof.
  unfold parseTerm. destruct l as [|c l]; [done|]. destruct (negb _); [done|]. unfold leadingInt.
  destruct (digitRun (c :: l)) as [ds rest] eqn:Hd. apply digitRun_length in Hd. destruct (_ <=? _); [|done].
  destruct (match rest with [] => _ | _ => _ end) as [[[f scale] mid] post] eqn:Hm.
  assert (Hmid : (length mid <= length rest)%nat).
  { destruct rest as [|c' fraction]; [by injection Hm as <- <- <- <-|]. destruct (dot c'); [|by injection Hm as <- <- <- <-].
    unfold leadingFraction in Hm. destruct (digitRun fraction) as [fs tail] eqn:Hf. apply digitRun_length in Hf.
    destruct (fractionOf fs 0 (float64 1) false). injection Hm as <- <- <- <-. cbn. lia. }
  destruct (_ && _); [done|]. destruct (unitRun mid) as [[|u us] tail] eqn:Hu; [done|]. apply unitRun_length in Hu.
  destruct (unitMap _); [|done]. destruct (_ <? _); [done|]. destruct (2 ^ 63 <? _); [done|]. intros [= _ <-]. cbn in *. lia.
Qed.

(** One unit of fuel per byte is enough. *)
Lemma parseTerms_fuel n m l d : (length l <= n)%nat -> (length l <= m)%nat -> parseTerms n l d = parseTerms m l d.
Proof.
  revert m l d. induction n as [|n IH]; intros m l d Hn Hm; [by destruct l, m; cbn in *; try lia|].
  destruct l as [|c l]; [by destruct m|]. destruct m as [|m]; [cbn in Hm; lia|]. cbn [parseTerms].
  destruct (parseTerm (c :: l)) as [[v after]|] eqn:Ht; [|done].
  apply parseTerm_shorter in Ht. cbn in *. destruct (_ <? _); [done|]. apply IH; lia.
Qed.

(** *** Durations fit 64 bits *)

Lemma parseTerms_range n l d v : 0 <= d <= 2 ^ 63 -> parseTerms n l d = Some v -> 0 <= v <= 2 ^ 63.
Proof.
  revert l d. induction n as [|n IH]; intros l d Hd; destruct l as [|c l]; cbn [parseTerms]; [by intros [= <-]|done|by intros [= <-]|].
  destruct (parseTerm _) as [[w after]|]; [|done]. destruct (2 ^ 63 <? _) eqn:Hb; [done|]. apply IH.
  pose proof (Z.mod_pos_bound (d + w) (2 ^ 64)). lia.
Qed.

Lemma ParseDuration_range s v : ParseDuration s = Some v -> in_int64 v.
Proof.
  unfold ParseDuration. destruct (match bytes s with [] => _ | _ => _ end) as [neg l].
  case_bool_decide; [by intros [= <-]|]. case_bool_decide; [done|]. destruct (parseTerms _ _ _) as [d|] eqn:Hd; [|done].
  apply parseTerms_range in Hd; [|lia]. destruct neg; [intros [= <-]; apply wrap64_range|].
  destruct (_ <? _) eqn:Hb; [done|]. intros [= <-]. unfold in_int64. lia.
Qed.
