(* ===== verification/HandoffConsumer.v ===== *)
(** * Consuming scheduled events (cmd/agentrun-handoff/main.go,
      internal/adapters/kafka/consumer.go)

    The loop that polls a topic, hands scheduled events to the handoff service, routes
    what fails and acknowledges what is settled; and any number of such loops, in any
    number of processes, on one broker. A partition is the list of its records with the
    offset its consumer group committed. A loop may end at any point and a partition be
    assigned again, to any member and from the committed offset; other producers append,
    and other components change the tables and the clusters.

    [handoff_never_loses] says that a scheduled event is never lost on the way;
    [handoff_keeps_going] that no record ever stops a loop. *)

From S2P Require Import Prelude Json AgentRun Policy Cluster Strategy Events Intent Store Reservations Queue SchedulingIntent Outbox Rfc3339.
From S2P Require Import Delivery JsonDecode OpTypes Builder Lifecycle Operator OperatorInvariant Handoff Artifacts ArtifactExamples Config.

(** ** consumer.go *)

(** What [PollRecords] returned: errors, and records with partition, epoch and offset. *)
Record Fetches := {
  fe_Errors : list error;
  fe_Records : list (KafkaRecord * Z * Z * Z);
}.

Inductive Polled :=
| PolledEvent (event : ReceivedEvent)
| PolledInvalid (record : ReceivedEvent)
| PolledError (e : error).

Record ConsumerSetup := {
  cu_Group : string;
  cu_Topics : list string;
  cu_MaxMessageBytes : Z;
}.

(** The client library's own refusal is [newClient]. *)
Definition NewConsumer (newClient : res unit) (configuration : KafkaConfig) (group : string) (topics : list string) : res ConsumerSetup :=
  _ ← Kafka_Validate configuration;
  _ ← failIf ((group == EmptyString) || (Z.of_nat (length topics) =? 0)) (ErrPlain "kafka consumer group and topics are required");
  _ ← newClient;
  Ok {| cu_Group := group; cu_Topics := topics; cu_MaxMessageBytes := kc_MaxMessageBytes configuration |}.

Section Consumer.
Context {UU : UUIDs} {NU : NetURL} {SH : SHA256} {AD : Admission}.

Definition Poll (maxMessageBytes : Z) (cancelled : bool) (fetches : Fetches) : Polled :=
  if cancelled then PolledError (ErrPlain "context canceled")
  else
    match fe_Errors fetches, fe_Records fetches with
    | e :: _, _ => PolledError e
    | [], [] => PolledError (ErrPlain "kafka poll returned no record")
    | [], (record, partition, epoch, offset) :: _ =>
        match decodeRecord maxMessageBytes record partition epoch offset with
        | Received event => PolledEvent event
        | InvalidEvent source => PolledInvalid source
        end
    end.

(** ** main.go *)

(** [open] every topic; when one fails, those opened before are closed. *)
Fixpoint openRest {C} (open : string -> res C) (topics : list string) (consumers : list C) : res (list C) * list C :=
  match topics with
  | [] => (Ok consumers, [])
  | topic :: rest =>
      match open topic with
      | Err e => (Err e, consumers)
      | Ok consumer => openRest open rest (consumers ++ [consumer])
      end
  end.

(** The consumers, and those that were closed again. *)
Definition openTopicConsumers {C} (topics : list string) (open : option (string -> res C)) : res (list C) * list C :=
  match topics, open with
  | [], _ | _, None => (Err (ErrPlain "handoff consumer topics and factory are required"), [])
  | _, Some open => openRest open topics []
  end.

Definition malformedAttempt (topic : string) : Z :=
  match topicIndex retryTopics topic with Some index => index + 1 | None => 1 end.

(** The zero time on the lifecycle topic. *)
Definition retryNotBefore (event : ReceivedEvent) : res Time :=
  if re_Topic event == AgentRunLifecycleTopic then Ok 0 else RetryNotBefore event.

(** The first header decides. *)
Fixpoint attemptHeader (previous : Z) (headers : list Header) : res Z :=
  match headers with
  | [] => Err (ErrPlain "delivery attempt metadata is missing")
  | header :: rest =>
      if h_Key header == "delivery-attempt" then
        match Atoi (h_Value header) with
        | Ok value => _ ← failIf (negb (value =? previous)) (ErrPlain "delivery-attempt header is invalid"); Ok (value + 1)
        | Err _ => Err (ErrPlain "delivery-attempt header is invalid")
        end
      else attemptHeader previous rest
  end.

Definition deliveryAttempt (event : ReceivedEvent) : res Z :=
  if re_Topic event == AgentRunLifecycleTopic then Ok 1
  else
    match topicIndex retryTopics (re_Topic event) with
    | None => Err (ErrPlain "delivery attempt metadata is missing")
    | Some previous => attemptHeader previous (re_Headers event)
    end.

(** What one pass of the loop meets: whether the process is being stopped, what the
    client and the clock answer, the identifiers drawn, and how the service's calls fare. *)
Record Iteration := {
  it_PollCancelled : bool;
  it_Fetches : Fetches;
  it_Cancelled : bool;          (* after a poll that failed *)
  it_CheckedAt : Time;          (* before the delay of a retry *)
  it_CancelledWaiting : bool;
  it_Now : Time;
  it_Faults : HandoffFaults;
  it_Produce : KafkaRecord -> TransportError + PublicationResult;
  it_FailureID : res UUID;
  it_EventID : res UUID;
  it_Commit : res unit;
}.

(** The event that was acknowledged and the request that was published before. *)
Record Effects := {
  ef_Published : option PublishRequest;
  ef_Acknowledging : option ReceivedEvent;
}.

Inductive Iterated := Again | Returned (result : res unit).

Definition noEffects : Effects := {| ef_Published := None; ef_Acknowledging := None |}.

Section Loop.
Variables (maxMessageBytes : Z) (encode : Envelope -> string) (router : Router).

(** The publisher the router was made with. *)
Definition publisher (it : Iteration) (request : PublishRequest) : res PublicationResult :=
  match PublishKafka maxMessageBytes (it_Produce it) request with
  | inl e => Err (ErrPlain (pe_Reason e))
  | inr result => Ok result
  end.

(** [consumer.Acknowledge], the end of every pass that goes on. *)
Definition acknowledge (it : Iteration) (event : ReceivedEvent) (published : option PublishRequest) : Iterated * Effects :=
  (match it_Commit it with Ok _ => Again | Err e => Returned (Err e) end,
   {| ef_Published := published; ef_Acknowledging := Some event |}).

(** [router.Route], then the acknowledgement. *)
Definition routeThenAcknowledge (it : Iteration) (source : ReceivedEvent) (err : ProcessingError) (attempt : Z) (firstFailedAt : Time) :
    Iterated * Effects :=
  match Route encode (it_FailureID it) (it_EventID it) (publisher it) router source (Some err) attempt firstFailedAt (it_Now it) with
  | Err e => (Returned (Err e), noEffects)
  | Ok (_, request) => acknowledge it source (Some request)
  end.

(** The part of a pass for a scheduled event, once it is due. *)
Definition processEvent (it : Iteration) (event : ReceivedEvent) (s : Platform) : Iterated * Effects * Platform :=
  match ProcessHandoff (it_Faults it) event (it_Now it) s with
  | (None, s) => (acknowledge it event None, s)
  | (Some err, s) =>
      match deliveryAttempt event with
      | Err e => (Returned (Err e), noEffects, s)
      | Ok attempt => (routeThenAcknowledge it event err attempt (env_OccurredAt (re_Envelope event)), s)
      end
  end.

(** One pass of [consume]. *)
Definition consumeOnce (it : Iteration) (s : Platform) : Iterated * Effects * Platform :=
  match Poll maxMessageBytes (it_PollCancelled it) (it_Fetches it) with
  | PolledError e => (Returned (if it_PollCancelled it || it_Cancelled it then Ok tt else Err e), noEffects, s)
  | PolledInvalid record =>
      if it_Cancelled it then (Returned (Ok tt), noEffects, s)
      else (routeThenAcknowledge it record (newFailure "INVALID_ENVELOPE" "invalid event envelope" true)
              (malformedAttempt (re_Topic record)) (it_Now it), s)
  | PolledEvent event =>
      if env_EventType (re_Envelope event) != AgentRunScheduledType then (acknowledge it event None, s)
      else
        match retryNotBefore event with
        | Err e => (Returned (Err e), noEffects, s)
        | Ok notBefore =>
            if negb (IsZero notBefore) && Before (it_CheckedAt it) notBefore && it_CancelledWaiting it
            then (Returned (Ok tt), noEffects, s)
            else processEvent it event s
        end
  end.

(** [consume]: passes until one returns; [None] while it goes on. *)
Fixpoint consume (its : list Iteration) (s : Platform) : option (res unit) * list Effects * Platform :=
  match its with
  | [] => (None, [], s)
  | it :: rest =>
      match consumeOnce it s with
      | (Returned r, effects, s) => (Some r, [effects], s)
      | (Again, effects, s) => let '(r, more, s) := consume rest s in (r, effects :: more, s)
      end
  end.
End Loop.

(** ** Members of a consumer group on one broker *)

Definition consumedTopics : list string := AgentRunLifecycleTopic :: retryTopics.

Record Broker := {
  br_Log : gmap (string * Z) (list KafkaRecord);
  br_Committed : gmap (string * Z) nat;
}.

Definition partitionLog (b : Broker) (tp : string * Z) : list KafkaRecord := default [] (br_Log b !! tp).

(** Consumption starts at the beginning: [ConsumeResetOffset]. *)
Definition committed (b : Broker) (tp : string * Z) : nat := default 0%nat (br_Committed b !! tp).

Definition appendRecord (partition : Z) (record : KafkaRecord) (b : Broker) : Broker :=
  let tp := (kr_Topic record, partition) in
  {| br_Log := <[tp := partitionLog b tp ++ [record]]> (br_Log b); br_Committed := br_Committed b |}.

Definition commitOffset (tp : string * Z) (next : nat) (b : Broker) : Broker :=
  {| br_Log := br_Log b; br_Committed := <[tp := next]> (br_Committed b) |}.

(** A loop with the topic it consumes and the next offset of its partitions. *)
Record Member := {
  mb_Topic : string;
  mb_Next : gmap Z nat;
}.

Record HandoffSystem := {
  hy_Platform : Platform;
  hy_Broker : Broker;
  hy_Members : gmap nat Member;
}.

(** The record a published request became. *)
Definition storePublished (maxMessageBytes partition : Z) (published : option PublishRequest) (b : Broker) : Broker :=
  match published with
  | None => b
  | Some request => match prepareRecord maxMessageBytes request with inr record => appendRecord partition record b | inl _ => b end
  end.

(** The next offset of the acknowledged event is committed, unless the commit failed;
    one whose answer was lost may have been committed too. *)
Definition storeCommit (it : Iteration) (lost : bool) (tp : string * Z) (offset : nat) (acknowledging : option ReceivedEvent) (b : Broker) : Broker :=
  match acknowledging, it_Commit it with
  | Some _, Ok _ => commitOffset tp (S offset) b
  | Some _, Err _ => if lost then commitOffset tp (S offset) b else b
  | None, _ => b
  end.

(** The broker's identifiers are 16 bytes wherever they are decoded. *)
Definition typedRecord (record : KafkaRecord) : Prop :=
  forall envelope, wi_Decoded (kr_Value record) = Some envelope -> isUUID (env_EventID envelope) /\ isUUID (env_TenantID envelope).

Section System.
Variables (maxMessageBytes : Z) (encode : Envelope -> string) (router : Router).

(** Only routers write to the retry topics. A process that dies between its publication
    and its commit, or whose publication was stored although its answer was lost, is one
    whose commit failed. *)
Inductive systemStep : HandoffSystem -> HandoffSystem -> Prop :=
| ss_world s platform :
    cd_Markers (pl_Consumer (hy_Platform s)) ⊆ cd_Markers (pl_Consumer platform) ->
    systemStep s {| hy_Platform := platform; hy_Broker := hy_Broker s; hy_Members := hy_Members s |}
| ss_produce s record partition :
    kr_Topic record ∉ retryTopics -> typedRecord record ->
    systemStep s {| hy_Platform := hy_Platform s; hy_Broker := appendRecord partition record (hy_Broker s); hy_Members := hy_Members s |}
| ss_join s m topic :
    topic ∈ consumedTopics ->
    systemStep s {| hy_Platform := hy_Platform s; hy_Broker := hy_Broker s;
                    hy_Members := <[m := {| mb_Topic := topic; mb_Next := ∅ |}]> (hy_Members s) |}
| ss_assign s m member partition :
    hy_Members s !! m = Some member -> 0 <= partition < 2 ^ 31 ->
    systemStep s {| hy_Platform := hy_Platform s; hy_Broker := hy_Broker s;
                    hy_Members := <[m := {| mb_Topic := mb_Topic member;
                      mb_Next := <[partition := committed (hy_Broker s) (mb_Topic member, partition)]> (mb_Next member) |}]> (hy_Members s) |}
| ss_leave s m :
    systemStep s {| hy_Platform := hy_Platform s; hy_Broker := hy_Broker s; hy_Members := delete m (hy_Members s) |}
| ss_consume s m member partition offset record epoch it to lost result effects platform :
    hy_Members s !! m = Some member -> mb_Next member !! partition = Some offset ->
    partitionLog (hy_Broker s) (mb_Topic member, partition) !! offset = Some record ->
    it_Fetches it = {| fe_Errors := []; fe_Records := [(record, partition, epoch, Z.of_nat offset)] |} ->
    0 <= partition < 2 ^ 31 -> Z.of_nat offset < 2 ^ 63 ->
    0 <= it_Now it -> it_Now it + 30 * Minute < (lastDay + 1) * (24 * Hour) ->
    consumeOnce maxMessageBytes encode router it (hy_Platform s) = (result, effects, platform) ->
    systemStep s {| hy_Platform := platform;
                    hy_Broker := storeCommit it lost (mb_Topic member, partition) offset (ef_Acknowledging effects)
                                   (storePublished maxMessageBytes to (ef_Published effects) (hy_Broker s));
                    hy_Members := match result with
                                  | Again => <[m := {| mb_Topic := mb_Topic member; mb_Next := <[partition := S offset]> (mb_Next member) |}]> (hy_Members s)
                                  | Returned _ => delete m (hy_Members s)
                                  end |}.

(** Nothing consumed yet, and nothing on the retry topics. *)
Definition fresh (s : HandoffSystem) : Prop :=
  br_Committed (hy_Broker s) = ∅ /\ hy_Members s = ∅ /\
  (forall tp record, record ∈ partitionLog (hy_Broker s) tp -> kr_Topic record = tp.1 /\ tp.1 ∉ retryTopics /\ typedRecord record).

(** ** What becomes of a record *)

(** The envelope consumers read from a record, wherever it is. *)
Definition envelopeOf (record : KafkaRecord) : option Envelope :=
  match decodeRecord maxMessageBytes record 0 0 0 with
  | Received event => Some (re_Envelope event)
  | InvalidEvent _ => None
  end.

Definition holds (b : Broker) (topic : string) (P : Z -> nat -> KafkaRecord -> Prop) : Prop :=
  exists partition offset record, partitionLog b (topic, partition) !! offset = Some record /\ P partition offset record.

Definition handedOff (s : Platform) (envelope : Envelope) : Prop :=
  is_Some (cd_Markers (pl_Consumer s) !! (ConsumerIdentity, env_EventID envelope)).

(** The event is on the next topic of the ladder, byte for byte. *)
Definition retriedFrom (b : Broker) (topic : string) (value : Wire) (envelope : Envelope) : Prop :=
  exists i next, consumedTopics !! i = Some topic /\ consumedTopics !! S i = Some next /\
    holds b next (fun _ _ record => envelopeOf record = Some envelope /\ kr_Value record = value).

Definition letterOn (b : Broker) (P : DeadLetterPayload -> Prop) : Prop :=
  holds b AgentRunDLQTopic (fun _ _ record => exists letter payload,
    envelopeOf record = Some letter /\ env_Payload letter = PayloadDeadLetter payload /\ P payload).

Definition deadLettered (b : Broker) (envelope : Envelope) : Prop :=
  letterOn b (fun payload => dl_OriginalEnvelope payload = Some (Some envelope)).

Definition quarantined (b : Broker) (tp : string * Z) (offset : nat) (record : KafkaRecord) : Prop :=
  letterOn b (fun payload => dl_OriginalTopic payload = tp.1 /\ dl_OriginalPartition payload = tp.2 /\
    dl_OriginalOffset payload = Z.of_nat offset /\ dl_RawFingerprint payload = "sha256:" +:+ sha256Hex (wi_Bytes (kr_Value record))).

(** The event is on a topic of the ladder, not yet acknowledged. *)
Definition awaiting (b : Broker) (envelope : Envelope) : Prop :=
  exists topic, topic ∈ consumedTopics /\
    holds b topic (fun partition offset record => (committed b (topic, partition) <= offset)%nat /\ envelopeOf record = Some envelope).

Definition settled (s : Platform) (b : Broker) (tp : string * Z) (offset : nat) (record : KafkaRecord) : Prop :=
  match envelopeOf record with
  | None => quarantined b tp offset record
  | Some envelope =>
      env_EventType envelope <> AgentRunScheduledType \/ handedOff s envelope \/ retriedFrom b tp.1 (kr_Value record) envelope
      \/ deadLettered b envelope
  end.

Definition settledBelow (s : Platform) (b : Broker) (tp : string * Z) (next : nat) : Prop :=
  (next <= length (partitionLog b tp))%nat /\
  forall offset record, (offset < next)%nat -> partitionLog b tp !! offset = Some record -> settled s b tp offset record.

(** A record as the router makes them for the retry topics. *)
Definition redelivered (record : KafkaRecord) : Prop :=
  forall partition epoch offset, exists event attempt notBefore,
    decodeRecord maxMessageBytes record partition epoch offset = Received event /\
    expectedFailureAttempt event = Ok attempt /\ RetryNotBefore event = Ok notBefore.

Record system_inv (s : HandoffSystem) : Prop := {
  si_committed : forall tp, tp.1 ∈ consumedTopics -> settledBelow (hy_Platform s) (hy_Broker s) tp (committed (hy_Broker s) tp);
  si_members : forall m member, hy_Members s !! m = Some member -> mb_Topic member ∈ consumedTopics /\
    forall partition next, mb_Next member !! partition = Some next -> settledBelow (hy_Platform s) (hy_Broker s) (mb_Topic member, partition) next;
  si_records : forall tp record, record ∈ partitionLog (hy_Broker s) tp ->
    kr_Topic record = tp.1 /\ (tp.1 ∈ consumedTopics -> typedRecord record) /\ (tp.1 ∈ retryTopics -> redelivered record);
}.

(** ** Single passes *)

Lemma decodeRecord_at record partition epoch offset :
  decodeRecord maxMessageBytes record partition epoch offset =
    match envelopeOf record with
    | Some envelope => Received (receivedFrom record partition epoch offset envelope)
    | None => InvalidEvent (receivedFrom record partition epoch offset zeroEnvelope)
    end.
Proof.
  unfold envelopeOf, decodeRecord. destruct (_ || _); [done|]. destruct (DecodeEnvelope _) as [envelope|]; [|done].
  destruct (ValidateHeaders _ _); [|done]. destruct (ExpectedPartitionKey _); [|done]. by destruct (_ || _).
Qed.

Lemma envelopeOf_ok record envelope :
  envelopeOf record = Some envelope ->
  ValidateEnvelope envelope = Ok tt /\ wi_Decoded (kr_Value record) = Some envelope /\
  0 < len (wi_Bytes (kr_Value record)) <= maxMessageBytes /\ TopicAccepts (env_EventType envelope) (kr_Topic record) = true.
Proof.
  intros He. pose proof (decodeRecord_at record 0 0 0) as Hd. rewrite He in Hd. by apply decodeRecord_ok in Hd as (_ & ? & ? & ? & ?).
Qed.

Lemma prepared_envelope request record :
  prepareRecord maxMessageBytes request = inr record ->
  wi_Decoded (pr_Serialized request) = envelopeOf record /\ is_Some (envelopeOf record) /\
  kr_Topic record = oe_Topic (pr_Event request) /\ kr_Value record = pr_Serialized request.
Proof.
  intros (decoded & Hd & _ & _ & Hr & Hdec)%prepareRecord_ok. specialize (Hdec 0 0 0). rewrite decodeRecord_at in Hdec.
  destruct (envelopeOf record) as [envelope|] eqn:He; [|done]. apply (f_equal (fun o => match o with Received e => Some (re_Envelope e) | _ => None end)) in Hdec.
  cbn in Hdec. rewrite Hd, Hr. cbn [kr_Topic kr_Value]. by rewrite Hdec.
Qed.

(** What a successful [Route] published. *)
Lemma Route_published it source err attempt firstFailedAt kind request :
  Route encode (it_FailureID it) (it_EventID it) (publisher maxMessageBytes it) router source (Some err) attempt firstFailedAt (it_Now it)
    = Ok (kind, request) ->
  (exists record, prepareRecord maxMessageBytes request = inr record) /\
  ((1 <= attempt <= 3 /\ ValidateEnvelope (re_Envelope source) = Ok tt /\ request = retryRequest source attempt (it_Now it)) \/
   exists code reason, deadLetterRequest encode (it_FailureID it) (it_EventID it) router source code reason attempt firstFailedAt (it_Now it) = Ok request).
Proof.
  assert (Hpub : forall r v, publisher maxMessageBytes it r = Ok v -> exists record, prepareRecord maxMessageBytes r = inr record).
  { intros r v. unfold publisher, PublishKafka. destruct (prepareRecord _ _) as [|record]; [done|eauto]. }
  unfold Route. rewrite bind_failIf. destruct ((attempt <? 1) || _ || _) eqn:Hg; [done|]. rewrite bind_failIf. destruct (_ && _); [done|].
  destruct (classify err) as [[permanent code] reason]. destruct (negb permanent && _ && _) eqn:Hretry.
  - intros (v & Hv & [= <- <-])%bind_ok. split; [by eapply Hpub|]. left.
    apply andb_true_iff in Hretry as [[_ Hle]%andb_true_iff Hok]. apply orb_false_iff in Hg as [[Ha _]%orb_false_iff _].
    change (length retryTopics) with 3%nat in Hle. apply Z.ltb_ge in Ha. apply Z.leb_le in Hle.
    split; [lia|]. split; [|done]. by destruct (ValidateEnvelope _) as [[]|].
  - intros (letter & Hl & (v & Hv & [= <- <-])%bind_ok)%bind_ok. split; [by eapply Hpub|]. right. eauto.
Qed.

Lemma ProcessHandoff_marks f event now s r s' :
  ProcessHandoff f event now s = (r, s') ->
  cd_Markers (pl_Consumer s) ⊆ cd_Markers (pl_Consumer s') /\ (r = None -> handedOff s' (re_Envelope event)) /\
  (forall err, r = Some err -> exists code reason isPermanent, err = newFailure code reason isPermanent).
Proof.
  unfold ProcessHandoff.
  assert (Hsame : forall code reason perm t, cd_Markers (pl_Consumer t) = cd_Markers (pl_Consumer s) ->
    (Some (newFailure code reason perm) : option ProcessingError, t) = (r, s') ->
    cd_Markers (pl_Consumer s) ⊆ cd_Markers (pl_Consumer s') /\ (r = None -> handedOff s' (re_Envelope event)) /\
    (forall err, r = Some err -> exists code reason isPermanent, err = newFailure code reason isPermanent)).
  { intros code reason perm t Ht [= <- <-]. rewrite Ht. split_and!; [done|done|]. intros err [= <-]. eauto. }
  destruct (_ != _); [by apply Hsame|]. destruct (env_Payload (re_Envelope event)) as [ |payload| | | | | | | ] eqn:Hp; try by apply Hsame.
  destruct (hf_Seen f); [by apply Hsame|]. destruct (Seen _ _) eqn:Hseen.
  { intros [= <- <-]. split_and!; [done| |done]. intros _. unfold Seen in Hseen. unfold handedOff. by destruct (_ !! _). }
  destruct (hf_Load f); [by apply Hsame|]. destruct (LoadIntent _ _ _) as [desired|]; [|by apply Hsame].
  destruct (intentMismatch _ _); [by apply Hsame|]. destruct (hf_Authorize f); [by apply Hsame|].
  destruct (negb _); [by apply Hsame|]. destruct (pl_Clusters s !! _) as [c|]; [|by apply Hsame].
  destruct (hf_Select f); [by apply Hsame|]. unfold project.
  destruct (ensureNamespace _ _ _ _) as [c1 [e1|]]; [by apply Hsame|].
  destruct (ensureAgentRun _ _ _ _) as [c2 [e2|]]; [by apply Hsame|].
  destruct (hf_Mark f); [by apply Hsame|]. destruct (Mark _ _ _) as [[dup|e] db'] eqn:Em; [|by apply Hsame].
  apply Mark_cases in Em as [Hsub Hm]. intros [= <- <-]. by split_and!.
Qed.

(** A pass publishes only what it then tries to acknowledge, and acknowledges only what
    is settled. *)
Lemma consumeOnce_outcome it s record partition epoch offset result effects s' :
  it_Fetches it = {| fe_Errors := []; fe_Records := [(record, partition, epoch, offset)] |} ->
  consumeOnce maxMessageBytes encode router it s = (result, effects, s') ->
  cd_Markers (pl_Consumer s) ⊆ cd_Markers (pl_Consumer s') /\
  ((effects = noEffects /\ exists r, result = Returned r) \/
   exists source, ef_Acknowledging effects = Some source /\ (result = Again -> it_Commit it = Ok tt) /\
     source = receivedFrom record partition epoch offset (default zeroEnvelope (envelopeOf record)) /\
     match ef_Published effects, envelopeOf record with
     | None, Some envelope => env_EventType envelope <> AgentRunScheduledType \/ handedOff s' envelope
     | None, None => False
     | Some request, found =>
         exists err attempt firstFailedAt kind, (if found is Some _ then deliveryAttempt source = Ok attempt else True) /\
           Route encode (it_FailureID it) (it_EventID it) (publisher maxMessageBytes it) router source (Some err) attempt firstFailedAt (it_Now it)
             = Ok (kind, request)
     end).
Proof.
  intros Hf. unfold consumeOnce, Poll. rewrite Hf. cbn [fe_Errors fe_Records].
  destruct (it_PollCancelled it). { intros [= <- <- <-]. split; [done|]. left. eauto. }
  rewrite decodeRecord_at. destruct (envelopeOf record) as [envelope|] eqn:He; cbn [default].
  - set (event := receivedFrom _ _ _ _ _). change (re_Envelope event) with envelope.
    assert (Hack : forall published t, (acknowledge it event published, t) = (result, effects, s') ->
      t = s' /\ effects = {| ef_Published := published; ef_Acknowledging := Some event |} /\ (result = Again -> it_Commit it = Ok tt)).
    { unfold acknowledge. intros published t [= <- <- <-]. split_and!; [done|done|]. by destruct (it_Commit it) as [[]|]. }
    destruct (env_EventType envelope != AgentRunScheduledType) eqn:Hty.
    { intros (<- & -> & Hc)%Hack. split; [done|]. right. exists event. split_and!; [done..|]. left.
      by apply negb_true_iff, bool_decide_eq_false in Hty. }
    destruct (retryNotBefore event); [|intros [= <- <- <-]; split; [done|]; left; eauto].
    destruct (_ && _). { intros [= <- <- <-]. split; [done|]. left. eauto. }
    unfold processEvent. destruct (ProcessHandoff _ _ _ _) as [[err|] t] eqn:Hp; apply ProcessHandoff_marks in Hp as (Hsub & Hm & _).
    + destruct (deliveryAttempt event) as [attempt|] eqn:Hat; [|intros [= <- <- <-]; split; [done|]; left; eauto].
      unfold routeThenAcknowledge. destruct (Route _ _ _ _ _ _ _ _ _ _) as [[kind request]|] eqn:Hr; [|intros [= <- <- <-]; split; [done|]; left; eauto].
      intros (<- & -> & Hc)%Hack. split; [done|]. right. exists event. split_and!; [done..|]. cbn [ef_Published]. eexists err, attempt, _, kind. by split.
    + intros (<- & -> & Hc)%Hack. split; [done|]. right. exists event. split_and!; [done..|]. right. by apply Hm.
  - set (source := receivedFrom _ _ _ _ _).
    destruct (it_Cancelled it). { intros [= <- <- <-]. split; [done|]. left. eauto. }
    unfold routeThenAcknowledge. destruct (Route _ _ _ _ _ _ _ _ _ _) as [[kind request]|] eqn:Hr; [|intros [= <- <- <-]; split; [done|]; left; eauto].
    unfold acknowledge. intros [= <- <- <-]. split; [done|]. right. exists source. split_and!; [done| |done|].
    + by destruct (it_Commit it) as [[]|].
    + cbn [ef_Published]. eexists _, _, _, kind. by split.
Qed.

(** ** Logs only grow *)

Definition extends (b b' : Broker) : Prop := forall tp, partitionLog b tp `prefix_of` partitionLog b' tp.

Lemma extends_refl b : extends b b.
Proof. intros tp. reflexivity. Qed.

Lemma partitionLog_append partition record b tp :
  partitionLog (appendRecord partition record b) tp =
    if decide (tp = (kr_Topic record, partition)) then partitionLog b tp ++ [record] else partitionLog b tp.
Proof.
  unfold appendRecord, partitionLog. cbn [br_Log]. destruct (decide _) as [->|Hne].
  - by rewrite lookup_insert_eq.
  - by rewrite lookup_insert_ne by congruence.
Qed.

Lemma extends_append partition record b : extends b (appendRecord partition record b).
Proof. intros tp. rewrite partitionLog_append. destruct (decide _); [by apply prefix_app_r|done]. Qed.

Lemma extends_published to published b : extends b (storePublished maxMessageBytes to published b).
Proof.
  unfold storePublished. destruct published as [request|]; [|apply extends_refl].
  destruct (prepareRecord _ _); [apply extends_refl|apply extends_append].
Qed.

Lemma partitionLog_commit it lost tp offset acknowledging b tp' :
  partitionLog (storeCommit it lost tp offset acknowledging b) tp' = partitionLog b tp'.
Proof. unfold storeCommit. destruct acknowledging, (it_Commit it), lost; done. Qed.

Lemma committed_cases it lost tp offset acknowledging b tp' :
  committed (storeCommit it lost tp offset acknowledging b) tp' = committed b tp' \/
  (is_Some acknowledging /\ tp' = tp /\ committed (storeCommit it lost tp offset acknowledging b) tp' = S offset).
Proof.
  destruct (decide (tp' = tp)) as [->|Hne].
  - assert (Hc : committed (commitOffset tp (S offset) b) tp = S offset) by (unfold committed, commitOffset; cbn; by rewrite lookup_insert_eq).
    unfold storeCommit. destruct acknowledging, (it_Commit it), lost; auto.
  - left. assert (Hc : committed (commitOffset tp (S offset) b) tp' = committed b tp')
      by (unfold committed, commitOffset; cbn; by rewrite lookup_insert_ne).
    unfold storeCommit. destruct acknowledging, (it_Commit it), lost; done.
Qed.

Lemma holds_extends b b' topic P : extends b b' -> holds b topic P -> holds b' topic P.
Proof. intros He (p & o & r & Hl & Hp). exists p, o, r. split; [|done]. by eapply prefix_lookup_Some. Qed.

Lemma settled_grows s s' b b' tp offset record :
  cd_Markers (pl_Consumer s) ⊆ cd_Markers (pl_Consumer s') -> extends b b' -> settled s b tp offset record -> settled s' b' tp offset record.
Proof.
  intros Hm He. unfold settled, quarantined, deadLettered, letterOn. destruct (envelopeOf record) as [envelope|]; [|by apply holds_extends].
  intros [?|[Hh|[(i & next & Hi & Hn & Hr)|Hd]]]; [by left| | |].
  - right. left. unfold handedOff in *. destruct Hh as [row Hr]. exists row. by eapply lookup_weaken.
  - right. right. left. exists i, next. split_and!; [done..|]. by eapply holds_extends.
  - right. right. right. by eapply holds_extends.
Qed.

Lemma settledBelow_grows s s' b b' tp next :
  cd_Markers (pl_Consumer s) ⊆ cd_Markers (pl_Consumer s') -> extends b b' -> settledBelow s b tp next -> settledBelow s' b' tp next.
Proof.
  intros Hm He [Hlen Hs]. split; [transitivity (length (partitionLog b tp)); [done|by apply prefix_length]|].
  intros offset record Ho Hr. eapply settled_grows; [done..|]. apply Hs; [done|].
  destruct (lookup_lt_is_Some_2 (partitionLog b tp) offset) as [record' Hr']; [lia|].
  rewrite Hr'. rewrite <-Hr. symmetry. by eapply prefix_lookup_Some.
Qed.

Lemma settledBelow_next s b tp offset record :
  settledBelow s b tp offset -> partitionLog b tp !! offset = Some record -> settled s b tp offset record -> settledBelow s b tp (S offset).
Proof.
  intros [Hlen Hs] Hr Hset. split; [by apply lookup_lt_Some in Hr|]. intros o r Ho Hr'.
  destruct (decide (o = offset)) as [->|]; [by simplify_eq|]. apply Hs; [lia|done].
Qed.

(** ** What is published settles its source *)

Lemma attempt_topics event attempt :
  deliveryAttempt event = Ok attempt -> 1 <= attempt <= 3 ->
  exists i, consumedTopics !! i = Some (re_Topic event) /\
    consumedTopics !! S i = Some (nth (Z.to_nat (attempt - 1)) retryTopics EmptyString).
Proof.
  unfold deliveryAttempt. case_bool_decide as Ht; [intros [= <-] _; exists 0%nat; by rewrite Ht|].
  assert (Hh : forall previous headers n, attemptHeader previous headers = Ok n -> n = previous + 1).
  { intros previous headers n. induction headers as [|h headers IH]; [done|]. cbn [attemptHeader]. case_bool_decide; [|done].
    destruct (Atoi _) as [v|]; [|done]. rewrite bind_failIf. destruct (v =? previous) eqn:E; cbn [negb]; [|done].
    apply Z.eqb_eq in E as ->. by intros [= <-]. }
  unfold retryTopics at 1. cbn [topicIndex].
  case_bool_decide as H1; [intros ->%Hh _; exists 1%nat; by rewrite H1|].
  case_bool_decide as H2; [intros ->%Hh _; exists 2%nat; by rewrite H2|].
  case_bool_decide as H3; [intros ->%Hh ?; exfalso; lia|done].
Qed.

Lemma deadLetter_payload it source code reason attempt firstFailedAt now request :
  deadLetterRequest encode (it_FailureID it) (it_EventID it) router source code reason attempt firstFailedAt now = Ok request ->
  exists payload, wi_Decoded (pr_Serialized request) = Some (oe_Envelope (pr_Event request)) /\
    env_Payload (oe_Envelope (pr_Event request)) = PayloadDeadLetter payload /\ oe_Topic (pr_Event request) = AgentRunDLQTopic /\
    dl_OriginalTopic payload = re_Topic source /\ dl_OriginalPartition payload = re_Partition source /\ dl_OriginalOffset payload = re_Offset source /\
    if isOk (ValidateEnvelope (re_Envelope source))
    then dl_OriginalEnvelope payload = if wi_Bytes (re_Value source) == EmptyString then None else Some (wi_Decoded (re_Value source))
    else dl_RawFingerprint payload = "sha256:" +:+ sha256Hex (wi_Bytes (re_Value source)).
Proof.
  unfold deadLetterRequest. intros (letter & Hl & <-%Ok_inj)%bind_ok. cbn [pr_Serialized wi_Decoded pr_Event].
  destruct (isOk _); revert Hl; [unfold NewDeadLetter; intros ([] & _ & Hl)%bind_ok; revert Hl|unfold NewMalformedDeadLetter];
    intros (failureID & _ & (event & Hev & <-%Ok_inj)%bind_ok)%bind_ok; apply newEvent_ok in Hev as (_ & _ & _ & _ & _ & Hp & _);
    eexists; (split; [done|]); (split; [exact Hp|]); done.
Qed.

Lemma published_holds to request record b (P : Z -> nat -> KafkaRecord -> Prop) :
  prepareRecord maxMessageBytes request = inr record -> (forall offset, P to offset record) ->
  holds (storePublished maxMessageBytes to (Some request) b) (kr_Topic record) P.
Proof.
  intros Hr HP. unfold storePublished. rewrite Hr. exists to, (length (partitionLog b (kr_Topic record, to))), record.
  split; [|apply HP]. rewrite partitionLog_append, decide_True by done. by rewrite list_lookup_middle.
Qed.

Lemma zeroEnvelope_invalid : isOk (ValidateEnvelope zeroEnvelope) = false.
Proof. unfold ValidateEnvelope, zeroEnvelope. cbn [env_Payload validatePayload]. by destruct (validateEnvelopeHeader _). Qed.

Lemma zeroEnvelope_not_valid : ValidateEnvelope zeroEnvelope <> Ok tt.
Proof. intros Hz. pose proof zeroEnvelope_invalid as Hno. by rewrite Hz in Hno. Qed.

Lemma pass_settles it s s' record partition epoch offset result effects source to b :
  it_Fetches it = {| fe_Errors := []; fe_Records := [(record, partition, epoch, Z.of_nat offset)] |} ->
  consumeOnce maxMessageBytes encode router it s = (result, effects, s') -> ef_Acknowledging effects = Some source ->
  settled s' (storePublished maxMessageBytes to (ef_Published effects) b) (kr_Topic record, partition) offset record.
Proof.
  intros Hf Hc Hack. destruct (consumeOnce_outcome _ _ _ _ _ _ _ _ _ Hf Hc) as (_ & [[-> _]|(source' & Hack' & _ & -> & Hout)]); [done|].
  destruct (ef_Published effects) as [request|]; [|unfold settled; destruct (envelopeOf record); [destruct Hout; auto|done]].
  destruct Hout as (err & attempt & first & kind & Hat & ([record' Hr] & Hpub)%Route_published).
  destruct (prepared_envelope _ _ Hr) as (Hd & [letter Hl] & Ht & Hv). unfold settled.
  destruct (envelopeOf record) as [envelope|] eqn:He; cbn [from_option id receivedFrom re_Envelope] in *.
  - destruct (envelopeOf_ok _ _ He) as (Hval & Hdec & Hsize & _).
    destruct Hpub as [(Ha & _ & ->)|(code & reason & (payload & Hw & Hp & Htop & _ & _ & _ & Horig)%deadLetter_payload)].
    + right. right. left. destruct (attempt_topics _ _ Hat Ha) as (i & Hi & Hn). exists i, (kr_Topic record').
      split; [exact Hi|]. split; [by rewrite Ht|]. apply published_holds; [done|]. intros _. cbn in Hd, Hv. split; [congruence|done].
    + right. right. right. unfold deadLettered, letterOn. rewrite <-Htop, <-Ht. apply published_holds; [done|]. intros _.
      exists letter, payload. split; [done|]. cbn [from_option id receivedFrom re_Envelope re_Value] in Horig. rewrite Hval in Horig. cbn [isOk] in Horig.
      split; [congruence|]. etransitivity; [exact Horig|]. rewrite Hdec. case_bool_decide as E; [|done]. rewrite E in Hsize. by destruct Hsize as [Hsize _].
  - destruct Hpub as [(_ & Hz & _)|(code & reason & (payload & Hw & Hp & Htop & Htp & Hpp & Hop & Hfp)%deadLetter_payload)];
      cbn [from_option id receivedFrom re_Envelope re_Value] in *; [by apply zeroEnvelope_not_valid in Hz|].
    unfold quarantined, letterOn. rewrite <-Htop, <-Ht. apply published_holds; [done|]. intros _.
    exists letter, payload. rewrite zeroEnvelope_invalid in Hfp. split_and!; [done|congruence|done..].
Qed.

Lemma consumed_lifecycle eventType topic : TopicAccepts eventType topic = true -> topic ∈ consumedTopics -> isLifecycleType eventType = true.
Proof.
  unfold TopicAccepts. destruct (isLifecycleType eventType); [done|]. destruct (eventType == _); [|done].
  rewrite bool_decide_eq_true. intros ->. intros Hin. apply (bool_decide_pack _) in Hin. vm_compute in Hin. done.
Qed.

Lemma pass_publishes it s s' record partition epoch offset result effects request record' :
  it_Fetches it = {| fe_Errors := []; fe_Records := [(record, partition, epoch, Z.of_nat offset)] |} ->
  0 <= partition < 2 ^ 31 -> Z.of_nat offset < 2 ^ 63 -> 0 <= it_Now it -> it_Now it + 30 * Minute < (lastDay + 1) * (24 * Hour) ->
  kr_Topic record ∈ consumedTopics -> typedRecord record ->
  consumeOnce maxMessageBytes encode router it s = (result, effects, s') -> ef_Published effects = Some request ->
  prepareRecord maxMessageBytes request = inr record' ->
  (kr_Topic record' ∈ consumedTopics -> typedRecord record') /\ (kr_Topic record' ∈ retryTopics -> redelivered record').
Proof.
  intros Hf Hpart Hoff Hn0 Hyear Htop Htyped Hc Hpub Hr.
  destruct (consumeOnce_outcome _ _ _ _ _ _ _ _ _ Hf Hc) as (_ & [[-> _]|(source' & _ & _ & -> & Hout)]); [done|]. rewrite Hpub in Hout.
  destruct Hout as (err & attempt & first & kind & Hat & (_ & Hroute)%Route_published).
  destruct (prepared_envelope _ _ Hr) as (Hd & _ & Ht & Hv). rewrite Ht.
  destruct Hroute as [(Ha & Hval & ->)|(code & reason & Hl%deadLetterRequest_topic)].
  - cbn [retryRequest pr_Serialized receivedFrom re_Value] in Hv. split; [intros _ envelope; rewrite Hv; apply Htyped|]. intros _.
    destruct (envelopeOf record) as [envelope|] eqn:He; [|by apply zeroEnvelope_not_valid in Hval].
    destruct (envelopeOf_ok _ _ He) as (_ & Hdec & Hsize & Hacc). destruct (Htyped _ Hdec) as [Hid Hten]. cbn [from_option id] in *.
    set (source := receivedFrom record partition epoch (Z.of_nat offset) envelope) in *.
    destruct (retry_delivered maxMessageBytes source attempt (it_Now it)) as (record1 & Hr1 & Hnext); try done; cbn.
    { by eapply consumed_lifecycle. } { lia. } { lia. }
    rewrite Hr in Hr1. injection Hr1 as <-. intros p' e' o'. destruct (Hnext p' e' o') as (event & ? & _ & _ & ? & ?). eauto 10.
  - rewrite Hl. split; intros Hin; apply (bool_decide_pack _) in Hin; vm_compute in Hin; done.
Qed.

(** ** Every reachable state *)

Lemma inv_fresh s : fresh s -> system_inv s.
Proof.
  intros (Hc & Hm & Hr). constructor.
  - intros tp _. unfold committed. rewrite Hc, lookup_empty. cbn. split; [lia|]. intros offset record Ho. lia.
  - intros m member. by rewrite Hm, lookup_empty.
  - intros tp record (? & Hno & ?)%Hr. by split_and!.
Qed.

(** A change that leaves the offsets and the members alone. *)
Lemma inv_grows s platform b :
  system_inv s -> cd_Markers (pl_Consumer (hy_Platform s)) ⊆ cd_Markers (pl_Consumer platform) -> extends (hy_Broker s) b ->
  (forall tp, committed b tp = committed (hy_Broker s) tp) ->
  (forall tp record, record ∈ partitionLog b tp -> record ∈ partitionLog (hy_Broker s) tp \/
    kr_Topic record = tp.1 /\ (tp.1 ∈ consumedTopics -> typedRecord record) /\ (tp.1 ∈ retryTopics -> redelivered record)) ->
  system_inv {| hy_Platform := platform; hy_Broker := b; hy_Members := hy_Members s |}.
Proof.
  intros [Hc Hm Hr] Hsub He Hco Hnew. constructor; cbn [hy_Platform hy_Broker hy_Members].
  - intros tp Htp. rewrite Hco. eapply settledBelow_grows; [done..|]. by apply Hc.
  - intros m member Hl. destruct (Hm m member Hl) as [Ht Hs]. split; [done|]. intros partition next Hn.
    eapply settledBelow_grows; [done..|]. by apply Hs.
  - intros tp record [Hin|Hin]%Hnew; [by apply Hr|done].
Qed.

Lemma append_records partition record b tp record' :
  record' ∈ partitionLog (appendRecord partition record b) tp ->
  record' ∈ partitionLog b tp \/ record' = record /\ tp = (kr_Topic record, partition).
Proof.
  rewrite partitionLog_append. destruct (decide _) as [->|]; [|by left]. rewrite elem_of_app, list_elem_of_singleton.
  intros [?|?]; [by left|by right].
Qed.

Lemma inv_members s members :
  system_inv s ->
  (forall m member, members !! m = Some member -> mb_Topic member ∈ consumedTopics /\
    forall partition next, mb_Next member !! partition = Some next ->
      settledBelow (hy_Platform s) (hy_Broker s) (mb_Topic member, partition) next) ->
  system_inv {| hy_Platform := hy_Platform s; hy_Broker := hy_Broker s; hy_Members := members |}.
Proof. intros [Hc Hm Hr] Hnew. by constructor. Qed.

(** The offset of an acknowledged record moves past it. *)
Lemma inv_commit s it lost tp offset acknowledging record :
  system_inv s -> tp.1 ∈ consumedTopics -> settledBelow (hy_Platform s) (hy_Broker s) tp offset ->
  partitionLog (hy_Broker s) tp !! offset = Some record ->
  (is_Some acknowledging -> settled (hy_Platform s) (hy_Broker s) tp offset record) ->
  system_inv {| hy_Platform := hy_Platform s; hy_Broker := storeCommit it lost tp offset acknowledging (hy_Broker s); hy_Members := hy_Members s |}.
Proof.
  intros [Hc Hm Hr] Htp Hbelow Hl Hset.
  assert (He : extends (hy_Broker s) (storeCommit it lost tp offset acknowledging (hy_Broker s))) by (intros tp'; by rewrite partitionLog_commit).
  constructor; cbn [hy_Platform hy_Broker hy_Members].
  - intros tp' Htp'. destruct (committed_cases it lost tp offset acknowledging (hy_Broker s) tp') as [->|(Ha & -> & ->)].
    + eapply settledBelow_grows; [done..|]. by apply Hc.
    + eapply settledBelow_grows; [done..|]. eapply settledBelow_next; [done..|]. by apply Hset.
  - intros m member Hmem. destruct (Hm m member Hmem) as [Ht Hs]. split; [done|]. intros p next Hn.
    eapply settledBelow_grows; [done..|]. by apply Hs.
  - intros tp' record'. rewrite partitionLog_commit. apply Hr.
Qed.

(** A pass of a member. *)
Lemma inv_consume s m member partition offset record epoch it to lost result effects platform :
  system_inv s -> hy_Members s !! m = Some member -> mb_Next member !! partition = Some offset ->
  partitionLog (hy_Broker s) (mb_Topic member, partition) !! offset = Some record ->
  it_Fetches it = {| fe_Errors := []; fe_Records := [(record, partition, epoch, Z.of_nat offset)] |} ->
  0 <= partition < 2 ^ 31 -> Z.of_nat offset < 2 ^ 63 -> 0 <= it_Now it -> it_Now it + 30 * Minute < (lastDay + 1) * (24 * Hour) ->
  consumeOnce maxMessageBytes encode router it (hy_Platform s) = (result, effects, platform) ->
  system_inv {| hy_Platform := platform;
                hy_Broker := storeCommit it lost (mb_Topic member, partition) offset (ef_Acknowledging effects)
                               (storePublished maxMessageBytes to (ef_Published effects) (hy_Broker s));
                hy_Members := match result with
                              | Again => <[m := {| mb_Topic := mb_Topic member; mb_Next := <[partition := S offset]> (mb_Next member) |}]> (hy_Members s)
                              | Returned _ => delete m (hy_Members s)
                              end |}.
Proof.
  intros Hinv Hm Hn Hl Hf Hp Ho H0 Hy Hc.
  destruct (si_members s Hinv m member Hm) as [Ht Hs].
  destruct (si_records s Hinv _ _ (list_elem_of_lookup_2 _ _ _ Hl)) as (Htop & Htyped & _). cbn [fst] in Htop, Htyped.
  destruct (consumeOnce_outcome _ _ _ _ _ _ _ _ _ Hf Hc) as (Hsub & Hout).
  set (b := storePublished maxMessageBytes to (ef_Published effects) (hy_Broker s)).
  assert (He : extends (hy_Broker s) b) by apply extends_published.
  assert (Hinv1 : system_inv {| hy_Platform := platform; hy_Broker := b; hy_Members := hy_Members s |}).
  { apply inv_grows; [done..| |]; unfold b, storePublished; destruct (ef_Published effects) as [request|] eqn:Hpub; [|auto| |auto];
      (destruct (prepareRecord _ request) as [|record'] eqn:Hr; [by auto|]); [done|].
    intros tp r [?|[-> ->]]%append_records; [by left|]. right. split; [done|].
    eapply pass_publishes; [exact Hf|done..|by rewrite Htop|by apply Htyped|exact Hc|done|done]. }
  assert (Hset : is_Some (ef_Acknowledging effects) -> settled platform b (mb_Topic member, partition) offset record).
  { intros [source Hack]. rewrite <-Htop. by eapply pass_settles. }
  assert (Hbelow : settledBelow platform b (mb_Topic member, partition) offset) by (eapply settledBelow_grows; [done..|by apply Hs]).
  assert (Hlb : partitionLog b (mb_Topic member, partition) !! offset = Some record) by (by eapply prefix_lookup_Some).
  pose proof (inv_commit _ it lost (mb_Topic member, partition) offset (ef_Acknowledging effects) record Hinv1 Ht Hbelow Hlb Hset) as Hinv2.
  cbn [hy_Platform hy_Broker hy_Members] in Hinv2.
  eapply (inv_members _ _ Hinv2). cbn [hy_Platform hy_Broker]. intros m' member' Hm'. destruct result.
  - destruct (decide (m' = m)) as [->|Hne]; [|rewrite lookup_insert_ne in Hm' by done; by apply Hinv2 in Hm'].
    rewrite lookup_insert_eq in Hm'. injection Hm' as <-. split; [done|]. cbn [mb_Topic mb_Next]. intros p next.
    destruct (decide (p = partition)) as [->|Hne]; [|rewrite lookup_insert_ne by done; by apply (si_members _ Hinv2 m member)].
    rewrite lookup_insert_eq. intros [= <-]. eapply (settledBelow_grows platform _ b); [done|intros tp; by rewrite partitionLog_commit|].
    eapply settledBelow_next; [done..|]. apply Hset. destruct Hout as [[_ [r [=]]]|(source & -> & _)]. by eexists.
  - apply lookup_delete_Some in Hm' as [_ Hm']. by apply Hinv2 in Hm'.
Qed.

Lemma system_inv_step s s' : systemStep s s' -> system_inv s -> system_inv s'.
Proof.
  intros Hstep Hinv. destruct Hstep as [s platform Hsub|s record partition Hno Hty|s m topic Ht|s m member partition Hm Hp|s m
    |s m member partition offset record epoch it to lost result effects platform Hm Hn Hl Hf Hp Ho H0 Hy Hc].
  - apply inv_grows; try done; [apply extends_refl|auto].
  - apply inv_grows; try done; [apply extends_append|]. intros tp r [?|[-> ->]]%append_records; [by left|]. right. by split_and!.
  - apply inv_members; [done|]. intros m' member'. destruct (decide (m' = m)) as [->|Hne].
    + rewrite lookup_insert_eq. intros [= <-]. by split.
    + rewrite lookup_insert_ne by done. apply Hinv.
  - apply inv_members; [done|]. intros m' member'. destruct (decide (m' = m)) as [->|Hne]; [|rewrite lookup_insert_ne by done; apply Hinv].
    rewrite lookup_insert_eq. intros [= <-]. destruct (si_members s Hinv m member Hm) as [Ht Hs]. split; [done|]. intros p next. cbn.
    destruct (decide (p = partition)) as [->|Hne]; [|rewrite lookup_insert_ne by done; apply Hs].
    rewrite lookup_insert_eq. intros [= <-]. by apply Hinv.
  - apply inv_members; [done|]. intros m' member' [_ Hl]%lookup_delete_Some. by apply Hinv in Hl.
  - by eapply inv_consume.
Qed.

Lemma inv_reachable s0 s : fresh s0 -> rtc systemStep s0 s -> system_inv s.
Proof. intros Hf%inv_fresh Hsteps. induction Hsteps as [|s0 s1 s Hstep _ IH]; [done|]. apply IH. by eapply system_inv_step. Qed.

(** The ladder has four rungs. *)
Lemma ladder s : system_inv s -> forall n i topic partition offset record envelope,
  (4 - i <= n)%nat -> consumedTopics !! i = Some topic -> partitionLog (hy_Broker s) (topic, partition) !! offset = Some record ->
  envelopeOf record = Some envelope -> env_EventType envelope = AgentRunScheduledType ->
  handedOff (hy_Platform s) envelope \/ awaiting (hy_Broker s) envelope \/ deadLettered (hy_Broker s) envelope.
Proof.
  intros Hinv n. induction n as [|n IH]; intros i topic partition offset record envelope Hi Ht Hl He Hty.
  { apply lookup_lt_Some in Ht. cbn in Ht. lia. }
  assert (Hin : topic ∈ consumedTopics) by (by eapply list_elem_of_lookup_2).
  destruct (decide (committed (hy_Broker s) (topic, partition) <= offset)%nat) as [Hc|Hc].
  { right. left. exists topic. split; [done|]. exists partition, offset, record. done. }
  destruct (si_committed s Hinv (topic, partition) Hin) as [_ Hs]. specialize (Hs offset record ltac:(lia) Hl). unfold settled in Hs. rewrite He in Hs.
  destruct Hs as [?|[?|[(j & next & Hj & Hnext & (p' & o' & r' & Hl' & He' & _))|?]]]; [done|by left| |by right; right].
  assert (j = i) as -> by (eapply (NoDup_lookup consumedTopics); [apply (bool_decide_unpack _); vm_compute; exact I|exact Hj|exact Ht]).
  eapply (IH (S i)); [lia|done..].
Qed.

(** C35: No scheduled event is lost between the broker and Kubernetes. Whatever fails,
    however often loops stop, partitions move between members and answers are lost, every
    scheduled event on the lifecycle topic or a retry topic is marked as handed off, is
    still on one of these topics at an offset the group has not committed, or is in a
    dead letter with its whole envelope. A record that is no valid event is not yet
    committed, or in a dead letter with its position and the digest of its bytes. *)
Theorem handoff_never_loses s0 s tp offset record :
  fresh s0 -> rtc systemStep s0 s -> tp.1 ∈ consumedTopics -> partitionLog (hy_Broker s) tp !! offset = Some record ->
  match envelopeOf record with
  | Some envelope =>
      env_EventType envelope = AgentRunScheduledType ->
      handedOff (hy_Platform s) envelope \/ awaiting (hy_Broker s) envelope \/ deadLettered (hy_Broker s) envelope
  | None => (committed (hy_Broker s) tp <= offset)%nat \/ quarantined (hy_Broker s) tp offset record
  end.
Proof.
  intros Hf Hsteps Htp Hl. pose proof (inv_reachable s0 s Hf Hsteps) as Hinv.
  destruct (envelopeOf record) as [envelope|] eqn:He.
  - intros Hty. destruct tp as [topic partition]. destruct (list_elem_of_lookup_1 _ _ Htp) as [i Hi]. by eapply (ladder s Hinv 4 i); [lia|..].
  - destruct (decide (committed (hy_Broker s) tp <= offset)%nat) as [?|Hc]; [by left|]. right.
    destruct (si_committed s Hinv tp Htp) as [_ Hs]. specialize (Hs offset record ltac:(lia) Hl). unfold settled in Hs. by rewrite He in Hs.
Qed.

(** ** No record stops a loop *)

Lemma expected_delivery event attempt : expectedFailureAttempt event = Ok attempt -> deliveryAttempt event = Ok attempt.
Proof.
  unfold expectedFailureAttempt, deliveryAttempt. destruct (_ == _); [done|]. destruct (topicIndex _ _) as [previous|]; [|done].
  intros (matches & Hc & Hm)%bind_ok. destruct (Z.eqb_spec matches 1) as [->|]; [|done]. injection Hm as <-. revert Hc.
  induction (re_Headers event) as [|h headers IH]; [done|]. cbn [countAttempts attemptHeader]. case_bool_decide; [|done].
  destruct (Atoi _) as [v|]; [|done]. rewrite bind_failIf. destruct (v =? previous) eqn:E; [|done]. cbn [negb].
  apply Z.eqb_eq in E as ->. done.
Qed.

Lemma len_TrimSpace t : len (TrimSpace t) <= len t.
Proof.
  unfold len, TrimSpace. rewrite <-!length_bytes, bytes_of_list. destruct (trimRight_prefix (trimLeft (bytes t))) as [q Hq].
  destruct (trimFront_spec space2 space3 (bytes t)) as [_ [u Hu]]. fold (trimLeft (bytes t)) in Hu.
  apply (f_equal length) in Hq, Hu. rewrite length_app in Hq, Hu. lia.
Qed.

(** What the router makes of the errors of the service. *)
Lemma classify_newFailure code reason isPermanent permanent code' reason' :
  classify (newFailure code reason isPermanent) = (permanent, code', reason') ->
  blank code' = false /\ len (TrimSpace code') <= 80 /\ blank reason' = false /\ len (TrimSpace reason') <= 500.
Proof.
  assert (Hd : forall t, blank (TrimSpace t) = bool_decide (TrimSpace t = EmptyString)) by (intros t; unfold blank; by rewrite TrimSpace_idemp).
  unfold newFailure. destruct (_ || _ || _ || _) eqn:Hg.
  - intros [= <- <- <-]. by vm_compute.
  - rewrite !orb_false_iff in Hg. destruct Hg as [[[Hc Hcl] Hr] Hrl]. unfold classify, orDefault. cbn [px_Code px_SafeMessage].
    rewrite !TrimSpace_idemp, Hc, Hr. intros [= <- <- <-]. rewrite !Hd, !TrimSpace_idemp. split_and!; [done|lia|done|lia].
Qed.

Lemma letter_built eventID now tenantID projectID runID failureID correlationID causationID
    (payload : DeadLetterPayloadOf (option (EnvelopeOf Payload))) :
  validV7 eventID = true -> now <> 0 -> validV7 tenantID = true -> validOptionalV7 projectID = true -> validOptionalV7 runID = true ->
  validV7 failureID = true -> blank correlationID = false -> len correlationID <= 255 -> blank causationID = false -> len causationID <= 255 ->
  validateDeadLetterFields payload = Ok tt ->
  match dl_OriginalEnvelope payload with None => True | Some None => False | Some (Some original) => ValidateEnvelope original = Ok tt end ->
  exists event, newEvent (Ok eventID) DeliveryDeadLetteredType 1 now "event-consumer" tenantID projectID runID
    "EventDeliveryFailure" failureID 1 correlationID causationID (PayloadDeadLetter payload) = Ok event.
Proof.
  intros Hid Hnow Hten Hproj Hrun Hfail Hcor Hcorl Hcau Hcaul Hfields Horig. unfold newEvent.
  pose proof (len_TrimSpace correlationID) as Hcort. pose proof (len_TrimSpace causationID) as Hcaut.
  assert (Hnil : forall id, validV7 id = true -> (id == uuidNil) = false) by (unfold validV7; intros id [Hn _]%andb_true_iff; by apply negb_true_iff).
  unfold blank in Hcor, Hcau.
  rewrite bind_failIf. change (eventTypePattern DeliveryDeadLetteredType) with true. rewrite !Hnil by done. cbn [negb orb Z.ltb Z.compare Pos.compare Pos.compare_cont].
  rewrite bind_failIf, Hcor, Hcau. change (TrimSpace "event-consumer") with "event-consumer". change (_ || _ || false || false) with false. cbn iota.
  change (Ok eventID ≫= ?f) with (f eventID). cbn beta.
  assert (Hv : forall e, ValidateEnvelope e = Ok tt -> exists event : OutboxEvent, (ValidateEnvelope e ≫= (fun _ => Ok {| oe_Envelope := e;
    oe_Topic := AgentRunLifecycleTopic; oe_PartitionKey := uuidString failureID; oe_CreatedAt := UTC now |})) = Ok event) by (intros e ->; by eexists).
  apply Hv. unfold ValidateEnvelope. cbn [env_Payload validatePayload]. unfold validateEnvelopeHeader, envelopeMeta, blank.
  cbn [env_EventID env_EventType env_SchemaVersion env_OccurredAt env_OccurredZoneOffset env_Producer env_TenantID env_ProjectID env_RunID
    env_AggregateType env_AggregateID env_AggregateVersion env_RequestID env_Traceparent env_Tracestate env_CorrelationID env_CausationID].
  rewrite !TrimSpace_idemp, Hcor, Hcau, Hten, Hproj, Hrun, Hfail, Hnil by done.
  unfold validV7 in Hid. apply andb_true_iff in Hid as [_ ->].
  replace (IsZero (UTC now)) with false by (symmetry; unfold IsZero, UTC; by apply Z.eqb_neq).
  replace (255 <? len (TrimSpace correlationID)) with false by lia. replace (255 <? len (TrimSpace causationID)) with false by lia.
  change (eventMajor DeliveryDeadLetteredType) with (Ok 1 : res Z).
  rewrite Hfields.
  match goal with |- ?header ≫= ?f = _ => assert (Hh : header = Ok tt) by reflexivity; rewrite Hh; change (f tt = Ok tt) end. cbn beta.
  destruct (dl_OriginalEnvelope payload) as [[original|]|]; [|done|reflexivity]. unfold ValidateEnvelope, envelopeMeta in Horig. rewrite Horig. reflexivity.
Qed.

Lemma valid_ownership (e : Envelope) :
  ValidateEnvelope e = Ok tt ->
  validV7 (env_TenantID e) = true /\ validOptionalV7 (env_ProjectID e) = true /\ validOptionalV7 (env_RunID e) = true /\
  blank (env_CorrelationID e) = false /\ IsZero (env_OccurredAt e) = false.
Proof.
  intros Hv%valid_envelope_header. revert Hv. unfold validateEnvelopeHeader.
  intros ([] & _ & ([] & _ & ([] & Ho%failIf_ok & ([] & Hw%failIf_ok & ([] & Hc%failIf_ok & _)%bind_ok)%bind_ok)%bind_ok)%bind_ok)%bind_ok.
  cbn [envelopeMeta env_TenantID env_ProjectID env_RunID env_CorrelationID env_OccurredAt] in *.
  rewrite !orb_false_iff, !negb_false_iff in Hw. rewrite !orb_false_iff in Ho. rewrite !orb_false_iff in Hc. destruct_and?. by split_and!.
Qed.

(** A pass that is not being stopped, with a broker that answers and fresh identifiers. *)
Record undisturbed (it : Iteration) : Prop := {
  ud_running : it_PollCancelled it = false /\ it_Cancelled it = false /\ it_CancelledWaiting it = false;
  ud_commit : it_Commit it = Ok tt;
  ud_produce : forall record, exists result, it_Produce it record = inr result;
  ud_identifiers : exists failureID eventID, it_FailureID it = Ok failureID /\ it_EventID it = Ok eventID /\
    validV7 failureID = true /\ validV7 eventID = true /\ isUUID eventID;
  ud_now : 0 < it_Now it /\ it_Now it + 30 * Minute < (lastDay + 1) * (24 * Hour);
}.

(** Any dead letter of the source is within the size the broker takes. *)
Definition letterFits (it : Iteration) (source : ReceivedEvent) : Prop :=
  forall code reason attempt firstFailedAt request,
    deadLetterRequest encode (it_FailureID it) (it_EventID it) router source code reason attempt firstFailedAt (it_Now it) = Ok request ->
    0 < len (wi_Bytes (pr_Serialized request)) <= maxMessageBytes.

Definition routerFor (identity : string) (tenantID : UUID) : Prop := NewRouter identity tenantID = Ok router /\ isUUID tenantID.

(** A source as the consumer makes them. *)
Definition sourceOk (source : ReceivedEvent) : Prop :=
  blank (re_Topic source) = false /\ 0 <= re_Partition source /\ 0 <= re_Offset source /\
  (re_Envelope source = zeroEnvelope \/
   ValidateEnvelope (re_Envelope source) = Ok tt /\ wi_Decoded (re_Value source) = Some (re_Envelope source) /\
   wi_Bytes (re_Value source) <> EmptyString /\ isUUID (env_EventID (re_Envelope source)) /\ isUUID (env_TenantID (re_Envelope source))).

Context {UF : UUIDForm}.

Lemma uuid_text u : isUUID u -> blank (uuidString u) = false /\ len (uuidString u) = 36.
Proof.
  intros Hu. split; [|unfold len; by rewrite uuidString_length]. unfold blank. rewrite TrimSpace_graphic.
  - apply bool_decide_eq_false, uuidString_nonempty.
  - eapply forallb_mono; [|apply uuidString_form]. intros c. unfold lowerHex, digit, hyphen, graphic, byte_in, byte_is.
    rewrite !orb_true_iff, !andb_true_iff, !N.leb_le, N.eqb_eq. lia.
Qed.

Lemma router_fields identity tenantID : routerFor identity tenantID ->
  TrimSpace (ro_ConsumerIdentity router) = ro_ConsumerIdentity router /\ blank (ro_ConsumerIdentity router) = false /\
  len (ro_ConsumerIdentity router) <= 160 /\ validV7 (ro_QuarantineTenantID router) = true /\ isUUID (ro_QuarantineTenantID router).
Proof.
  intros [Hr Hu]. revert Hr. unfold NewRouter. intros ([] & Hg%failIf_ok & <-%Ok_inj)%bind_ok. cbn [ro_ConsumerIdentity ro_QuarantineTenantID].
  rewrite !orb_false_iff, negb_false_iff in Hg. destruct Hg as [[Hne Hlen] Hv]. unfold blank. rewrite TrimSpace_idemp.
  split_and!; [done|done|lia| |done]. unfold validV7. rewrite Hv, andb_true_r. apply negb_true_iff, bool_decide_eq_false. intros ->.
  by rewrite uuidVersion_nil in Hv.
Qed.

Lemma letter_fields {R} (payload : DeadLetterPayloadOf R) :
  Bool.eqb (match dl_OriginalEnvelope payload with Some _ => true | None => false end)
    (HasPrefix (dl_RawFingerprint payload) "sha256:" && (len (dl_RawFingerprint payload) =? 71) && (0 <=? dl_RawSize payload)) = false ->
  blank (dl_OriginalTopic payload) = false -> 0 <= dl_OriginalPartition payload -> 0 <= dl_OriginalOffset payload ->
  blank (dl_ConsumerIdentity payload) = false -> len (dl_ConsumerIdentity payload) <= 160 ->
  blank (dl_FailureCode payload) = false -> len (dl_FailureCode payload) <= 80 ->
  blank (dl_FailureReason payload) = false -> len (dl_FailureReason payload) <= 500 -> 1 <= dl_Attempts payload ->
  dl_FirstFailedAt payload <> 0 -> dl_FirstFailedAt payload <= dl_LastFailedAt payload -> dl_ReplayDisposition payload = "QUARANTINED" ->
  validateDeadLetterFields payload = Ok tt.
Proof.
  intros He Ht Hp Ho Hi Hil Hc Hcl Hr Hrl Ha H0 Hl Hq. unfold validateDeadLetterFields. apply failIf_ok.
  rewrite He, Ht, Hi, Hc, Hr, bool_decide_eq_true_2 by done. unfold IsZero, Before.
  assert (Hlt : forall a b : Z, b <= a -> (a <? b) = false) by (intros; lia). rewrite !Hlt by done.
  by rewrite (proj2 (Z.eqb_neq _ _)).
Qed.

Lemma fingerprint_text t : let fingerprint := "sha256:" +:+ sha256Hex t in
  HasPrefix fingerprint "sha256:" = true /\ len fingerprint = 71 /\ blank fingerprint = false.
Proof.
  intros fingerprint. assert (Hl : len fingerprint = 71).
  { unfold fingerprint, len. rewrite <-length_bytes, bytes_app, length_app, !length_bytes. pose proof (sha256Hex_length t) as Hs. unfold len in Hs.
    change (String.length "sha256:") with 7%nat. lia. }
  split_and!; [by destruct (sha256Hex t)|done|]. unfold blank. rewrite TrimSpace_graphic.
  - apply bool_decide_eq_false. intros E. by rewrite E in Hl.
  - unfold fingerprint. rewrite bytes_app, forallb_app. apply andb_true_iff. split; [by vm_compute|].
    eapply forallb_mono; [|apply sha256Hex_digits]. intros c. unfold lowerHex, digit, graphic, byte_in.
    rewrite !orb_true_iff, !andb_true_iff, !N.leb_le. lia.
Qed.

Lemma malformed_letter failureID eventID original tenantID identity code reason attempts firstFailedAt now :
  validV7 failureID = true -> validV7 eventID = true -> validV7 tenantID = true -> now <> 0 ->
  blank (ds_Topic original) = false -> 0 <= ds_Partition original -> 0 <= ds_Offset original ->
  blank (TrimSpace identity) = false -> len (TrimSpace identity) <= 160 -> blank (TrimSpace code) = false -> len (TrimSpace code) <= 80 ->
  blank (TrimSpace reason) = false -> len (TrimSpace reason) <= 500 -> 1 <= attempts -> firstFailedAt <> 0 -> firstFailedAt <= now ->
  exists letter, NewMalformedDeadLetter (Ok failureID) (Ok eventID) original tenantID identity code reason attempts firstFailedAt now = Ok letter /\
    env_TenantID (oe_Envelope letter) = tenantID /\ env_EventID (oe_Envelope letter) = eventID.
Proof.
  intros Hf He Ht Hnow Htop Hp Ho Hi Hil Hc Hcl Hr Hrl Ha H0 Hle. unfold NewMalformedDeadLetter.
  change (Ok failureID ≫= ?f) with (f failureID). cbn beta. destruct (fingerprint_text (ds_Value original)) as (Hpre & Hlen & Hbl).
  match goal with |- context [newEvent _ _ _ _ _ _ _ _ _ _ _ _ _ (PayloadDeadLetter ?payload)] => set (p := payload) end.
  destruct (letter_built eventID now tenantID None None failureID ("sha256:" +:+ sha256Hex (ds_Value original))
    ("sha256:" +:+ sha256Hex (ds_Value original)) p) as [event Hev]; [done..|lia|done|lia| |done|].
  - apply letter_fields; unfold p; cbn [dl_OriginalEnvelope dl_RawFingerprint dl_RawSize dl_OriginalTopic dl_OriginalPartition dl_OriginalOffset
      dl_ConsumerIdentity dl_FailureCode dl_FailureReason dl_Attempts dl_FirstFailedAt dl_LastFailedAt dl_ReplayDisposition]; try done.
    rewrite Hpre, Hlen, (proj2 (Z.leb_le 0 (len (ds_Value original)))); [done|unfold len; lia].
  - rewrite Hev. change (Ok event ≫= ?f) with (f event). cbn beta. eexists. split; [done|].
    apply newEvent_ok in Hev as (_ & _ & _ & _ & _ & _ & Hid & Hten & _). injection Hid as Hid. split; [exact Hten|by symmetry].
Qed.

Lemma valid_letter failureID eventID original identity code reason attempts firstFailedAt now :
  validV7 failureID = true -> validV7 eventID = true -> ValidateEnvelope (ds_Envelope original) = Ok tt -> now <> 0 ->
  ds_Decoded original = Some (ds_Envelope original) -> ds_Value original <> EmptyString -> isUUID (env_EventID (ds_Envelope original)) ->
  blank (ds_Topic original) = false -> 0 <= ds_Partition original -> 0 <= ds_Offset original ->
  blank (TrimSpace identity) = false -> len (TrimSpace identity) <= 160 -> blank (TrimSpace code) = false -> len (TrimSpace code) <= 80 ->
  blank (TrimSpace reason) = false -> len (TrimSpace reason) <= 500 -> 1 <= attempts -> firstFailedAt <> 0 -> firstFailedAt <= now ->
  exists letter, NewDeadLetter (Ok failureID) (Ok eventID) original identity code reason attempts firstFailedAt now = Ok letter /\
    env_TenantID (oe_Envelope letter) = env_TenantID (ds_Envelope original) /\ env_EventID (oe_Envelope letter) = eventID.
Proof.
  intros Hf He Hv Hnow Hdec Hval Hid Htop Hp Ho Hi Hil Hc Hcl Hr Hrl Ha H0 Hle. unfold NewDeadLetter. rewrite Hv.
  change (Ok failureID ≫= ?f) with (f failureID). cbn [mbind res_bind].
  destruct (valid_ownership _ Hv) as (Hten & Hproj & Hrun & Hcor & _). destruct (valid_envelope_lengths _ Hv) as (_ & _ & Hcl' & _).
  destruct (uuid_text _ Hid) as [Hub Hul].
  match goal with |- context [newEvent _ _ _ _ _ _ _ _ _ _ _ _ _ (PayloadDeadLetter ?payload)] => set (p := payload) end.
  destruct (letter_built eventID now (env_TenantID (ds_Envelope original)) (env_ProjectID (ds_Envelope original)) (env_RunID (ds_Envelope original))
    failureID (env_CorrelationID (ds_Envelope original)) (uuidString (env_EventID (ds_Envelope original))) p) as [event Hev]; [done..|lia| | |].
  - apply letter_fields; unfold p; cbn [dl_OriginalEnvelope dl_RawFingerprint dl_RawSize dl_OriginalTopic dl_OriginalPartition dl_OriginalOffset
      dl_ConsumerIdentity dl_FailureCode dl_FailureReason dl_Attempts dl_FirstFailedAt dl_LastFailedAt dl_ReplayDisposition]; try done.
    by rewrite bool_decide_eq_false_2.
  - cbn. by rewrite bool_decide_eq_false_2, Hdec.
  - rewrite Hev. eexists. split; [done|].
    apply newEvent_ok in Hev as (_ & _ & _ & _ & _ & _ & Hid' & Hten' & _). injection Hid' as Hid'. split; [exact Hten'|by symmetry].
Qed.

(** The dead letter of a source can always be made and, when it fits, sent. *)
Lemma letter_request it source code reason attempt firstFailedAt identity tenantID :
  undisturbed it -> routerFor identity tenantID -> sourceOk source ->
  blank code = false -> len (TrimSpace code) <= 80 -> blank reason = false -> len (TrimSpace reason) <= 500 ->
  1 <= attempt <= 4 -> firstFailedAt <> 0 -> firstFailedAt <= it_Now it ->
  exists request, deadLetterRequest encode (it_FailureID it) (it_EventID it) router source code reason attempt firstFailedAt (it_Now it) = Ok request /\
    (letterFits it source -> exists record, prepareRecord maxMessageBytes request = inr record).
Proof.
  intros [_ _ _ (failureID & eventID & Hf & He & Hfv & Hev & Heu) [Hnow _]] Hrt (Htop & Hpart & Hoff & Hsrc) Hc Hcl Hr Hrl Ha Hf0 Hfn.
  destruct (router_fields _ _ Hrt) as (Htrim & Hblank & Hilen & Htv & Htu).
  assert (Hb : forall t, blank t = false -> blank (TrimSpace t) = false) by (intros t; unfold blank; by rewrite TrimSpace_idemp).
  assert (Hex : exists request letter, deadLetterRequest encode (it_FailureID it) (it_EventID it) router source code reason attempt firstFailedAt (it_Now it)
      = Ok request /\ pr_Event request = letter /\ constructed_event letter /\ isUUID (env_TenantID (oe_Envelope letter)) /\
      isUUID (env_EventID (oe_Envelope letter)) /\ pr_Headers request = [ {| h_Key := "delivery-attempt"; h_Value := Itoa attempt |} ] /\
      wi_Decoded (pr_Serialized request) = Some (oe_Envelope letter)).
  { unfold deadLetterRequest. rewrite Hf, He. destruct Hsrc as [Hz|(Hv & Hd & Hne & Hiu & Hteu)].
    - rewrite Hz, zeroEnvelope_invalid.
      match goal with |- context [NewMalformedDeadLetter _ _ ?original _ ?identity _ _ _ _ _] =>
        destruct (malformed_letter failureID eventID original (ro_QuarantineTenantID router) identity code reason attempt firstFailedAt (it_Now it))
          as (letter & Hl & Hlt & Hli); [rewrite ?Htrim; auto; lia..|] end.
      rewrite Hl. eexists _, letter. split; [done|]. cbn. rewrite Hlt, Hli. split_and!; try done. by eapply ce_malformed.
    - rewrite Hv. cbn [isOk].
      match goal with |- context [NewDeadLetter _ _ ?original ?identity _ _ _ _ _] =>
        destruct (valid_letter failureID eventID original identity code reason attempt firstFailedAt (it_Now it))
          as (letter & Hl & Hlt & Hli); [rewrite ?Htrim; auto; lia..|] end.
      rewrite Hl. eexists _, letter. split; [done|]. cbn. rewrite Hlt, Hli. split_and!; try done. eapply ce_dead_letter; [|exact Hl]. done. }
  destruct Hex as (request & letter & Hreq & <- & Hcons & Hten & Hid & Hhead & Hdec). exists request. split; [done|]. intros Hfit.
  pose proof (constructed_event_contract _ Hcons) as Hcon.
  apply prepareRecord_accepts; [done|done|by eapply Hfit|]. rewrite Hhead. pose proof (len_Itoa attempt ltac:(lia)) as Hi.
  apply headers_accepted; [apply Hcon|done..|apply NoDup_singleton|cbn; lia| |].
  - unfold headerSize. cbn [sumZ foldr h_Key h_Value]. change (len "delivery-attempt") with 16. lia.
  - intros h ->%list_elem_of_singleton. cbn [h_Key h_Value]. split_and!; [apply (bool_decide_unpack _); vm_compute; exact I|done|by vm_compute|lia].
Qed.

Lemma publisher_ok it request record :
  undisturbed it -> prepareRecord maxMessageBytes request = inr record -> exists result, publisher maxMessageBytes it request = Ok result.
Proof.
  intros Hu Hr. unfold publisher, PublishKafka. rewrite Hr. destruct (ud_produce it Hu record) as [result ->]. eauto.
Qed.

Lemma consumed_topic_text topic : topic ∈ consumedTopics -> blank topic = false /\ (topic = AgentRunLifecycleTopic \/ topic ∈ retryTopics) /\ 1 <= malformedAttempt topic <= 4.
Proof.
  intros Hin. assert (Hall : Forall (fun t => blank t = false /\ 1 <= malformedAttempt t <= 4) consumedTopics).
  { repeat (apply Forall_cons; split; [vm_compute; split_and!; congruence|]). apply Forall_nil_2. }
  rewrite Forall_forall in Hall. destruct (Hall _ Hin) as [Hb Hm]. split; [done|]. split; [|done]. by apply elem_of_cons in Hin.
Qed.

(** Routing a failure of a source at its attempt. *)
Lemma route_ok it source err attempt firstFailedAt identity tenantID permanent code reason :
  undisturbed it -> routerFor identity tenantID -> sourceOk source -> letterFits it source -> classify err = (permanent, code, reason) ->
  blank code = false -> len (TrimSpace code) <= 80 -> blank reason = false -> len (TrimSpace reason) <= 500 ->
  1 <= attempt <= 4 -> firstFailedAt <> 0 -> firstFailedAt <= it_Now it ->
  (env_EventID (re_Envelope source) <> uuidNil -> expectedFailureAttempt source = Ok attempt) ->
  (ValidateEnvelope (re_Envelope source) = Ok tt -> attempt <= 3 -> exists record, prepareRecord maxMessageBytes (retryRequest source attempt (it_Now it)) = inr record) ->
  exists request, routeThenAcknowledge maxMessageBytes encode router it source err attempt firstFailedAt = (Again, {| ef_Published := Some request; ef_Acknowledging := Some source |}).
Proof.
  intros Hu Hrt Hsrc Hfit Hcl Hc Hcl' Hr Hrl Ha H0 Hle Hexp Hretry. unfold routeThenAcknowledge, Route. rewrite !bind_failIf.
  unfold IsZero, Before. replace (_ || _ || _) with false by lia.
  replace ((_ != uuidNil) && _) with false.
  2:{ symmetry. case_bool_decide as E; cbn [negb andb]; [done|]. rewrite Hexp by done. by rewrite Z.eqb_refl. }
  rewrite Hcl. destruct (negb permanent && _ && _) eqn:Hretrying.
  - apply andb_true_iff in Hretrying as [[_ Hle3]%andb_true_iff Hok]. change (length retryTopics) with 3%nat in Hle3. apply Z.leb_le in Hle3.
    destruct (Hretry ltac:(by destruct (ValidateEnvelope _) as [[]|]) Hle3) as [record Hrec]. destruct (publisher_ok _ _ _ Hu Hrec) as [result Hpub].
    rewrite Hpub. cbn [mbind res_bind]. exists (retryRequest source attempt (it_Now it)). unfold acknowledge. by rewrite (ud_commit it Hu).
  - destruct (letter_request it source code reason attempt firstFailedAt identity tenantID) as (request & Hreq & Hsend); try done.
    destruct (Hsend Hfit) as [record Hrec]. destruct (publisher_ok _ _ _ Hu Hrec) as [result Hpub].
    rewrite Hreq. cbn [mbind res_bind]. rewrite Hpub. cbn [mbind res_bind]. exists request. unfold acknowledge. by rewrite (ud_commit it Hu).
Qed.

Lemma source_metadata s topic partition epoch offset record envelope :
  system_inv s -> topic ∈ consumedTopics -> record ∈ partitionLog (hy_Broker s) (topic, partition) -> envelopeOf record = Some envelope ->
  let source := receivedFrom record partition epoch offset envelope in
  exists attempt notBefore, expectedFailureAttempt source = Ok attempt /\ retryNotBefore source = Ok notBefore.
Proof.
  intros Hinv Ht Hin He source. destruct (si_records s Hinv _ _ Hin) as (Htop & _ & Hred). cbn [fst] in Htop, Hred.
  assert (Hre : re_Topic source = topic) by exact Htop. unfold retryNotBefore. rewrite Hre.
  destruct (proj1 (proj2 (consumed_topic_text _ Ht))) as [->|Hretry].
  - exists 1, 0. unfold expectedFailureAttempt. by rewrite Hre, bool_decide_eq_true_2.
  - destruct (Hred Hretry partition epoch offset) as (event & attempt & notBefore & Hd & Ha & Hn). rewrite decodeRecord_at, He in Hd.
    injection Hd as <-. fold source in Ha, Hn. exists attempt, notBefore. split; [done|]. rewrite bool_decide_eq_false_2; [done|].
    intros ->. apply (bool_decide_pack _) in Hretry. by vm_compute in Hretry.
Qed.

(** What a pass with a decoded record does. *)
Lemma pass_event s identity tenantID topic partition epoch offset record envelope it :
  system_inv s -> routerFor identity tenantID -> topic ∈ consumedTopics ->
  record ∈ partitionLog (hy_Broker s) (topic, partition) -> 0 <= partition < 2 ^ 31 -> Z.of_nat offset < 2 ^ 63 ->
  it_Fetches it = {| fe_Errors := []; fe_Records := [(record, partition, epoch, Z.of_nat offset)] |} -> undisturbed it ->
  envelopeOf record = Some envelope -> env_OccurredAt envelope <= it_Now it ->
  let source := receivedFrom record partition epoch (Z.of_nat offset) envelope in
  exists attempt, expectedFailureAttempt source = Ok attempt /\ sourceOk source /\ env_OccurredAt envelope <> 0 /\
    (attempt <= 3 -> exists record', prepareRecord maxMessageBytes (retryRequest source attempt (it_Now it)) = inr record') /\
    consumeOnce maxMessageBytes encode router it (hy_Platform s) =
      if env_EventType envelope != AgentRunScheduledType then (acknowledge it source None, hy_Platform s)
      else
        match ProcessHandoff (it_Faults it) source (it_Now it) (hy_Platform s) with
        | (None, platform) => (acknowledge it source None, platform)
        | (Some err, platform) => (routeThenAcknowledge maxMessageBytes encode router it source err attempt (env_OccurredAt envelope), platform)
        end.
Proof.
  intros Hinv Hrt Ht Hin Hp Ho Hfe Hu He Hocc source. destruct (si_records s Hinv _ _ Hin) as (Htop & Htyped & _). cbn [fst] in Htop, Htyped.
  destruct (consumed_topic_text _ Ht) as (Hblank & _ & _). pose proof (ud_now it Hu) as [Hnow Hyear]. destruct (ud_running it Hu) as (Hpc & Hca & Hwait).
  destruct (source_metadata s topic partition epoch (Z.of_nat offset) record envelope Hinv Ht Hin He) as (attempt & notBefore & Ha & Hn). fold source in Ha, Hn.
  destruct (envelopeOf_ok _ _ He) as (Hval & Hdec & Hsize & Hacc). destruct (Htyped Ht _ Hdec) as [Hid Hten].
  pose proof (expected_attempt_range _ _ Ha) as Hrange. destruct (valid_ownership _ Hval) as (_ & _ & _ & _ & Hzero). apply Z.eqb_neq in Hzero.
  exists attempt. split; [done|]. split.
  { split_and!; [unfold source; cbn; by rewrite Htop|cbn; lia|cbn; lia|]. right. split_and!; try done. cbn. intros E. rewrite E in Hsize.
    by destruct Hsize as [Hs _]. }
  split; [done|]. split.
  { intros Ha3. destruct (retry_delivered maxMessageBytes source attempt (it_Now it)) as (record' & Hr' & _); try done; try (cbn; lia).
    - by eapply consumed_lifecycle; [exact Hacc|rewrite Htop].
    - by exists record'. }
  unfold consumeOnce, Poll. rewrite Hfe, Hpc. cbn [fe_Errors fe_Records]. rewrite decodeRecord_at, He. fold source. change (re_Envelope source) with envelope.
  destruct (_ != _); [done|]. rewrite Hn, Hwait, andb_false_r. unfold processEvent. by rewrite (expected_delivery _ _ Ha).
Qed.

Lemma pass_invalid s identity tenantID topic partition epoch offset record it :
  system_inv s -> routerFor identity tenantID -> topic ∈ consumedTopics ->
  record ∈ partitionLog (hy_Broker s) (topic, partition) -> 0 <= partition ->
  it_Fetches it = {| fe_Errors := []; fe_Records := [(record, partition, epoch, Z.of_nat offset)] |} -> undisturbed it ->
  envelopeOf record = None ->
  let source := receivedFrom record partition epoch (Z.of_nat offset) zeroEnvelope in
  letterFits it source -> exists published,
    consumeOnce maxMessageBytes encode router it (hy_Platform s) =
      (Again, {| ef_Published := published; ef_Acknowledging := Some source |}, hy_Platform s).
Proof.
  intros Hinv Hrt Ht Hin Hp Hfe Hu He source Hfit. destruct (si_records s Hinv _ _ Hin) as (Htop & _ & _). cbn [fst] in Htop.
  destruct (consumed_topic_text _ Ht) as (Hblank & _ & Hmal). pose proof (ud_now it Hu) as [Hnow Hyear]. destruct (ud_running it Hu) as (Hpc & Hca & _).
  unfold consumeOnce, Poll. rewrite Hfe, Hpc. cbn [fe_Errors fe_Records]. rewrite decodeRecord_at, He, Hca. fold source.
  destruct (classify (newFailure "INVALID_ENVELOPE" "invalid event envelope" true)) as [[permanent code] reason] eqn:Hclass.
  destruct (classify_newFailure _ _ _ _ _ _ Hclass) as (H1 & H2 & H3 & H4).
  destruct (route_ok it source (newFailure "INVALID_ENVELOPE" "invalid event envelope" true) (malformedAttempt topic) (it_Now it) identity tenantID
    permanent code reason) as [request Hroute]; try done; try lia.
  - split_and!; [unfold source; cbn; by rewrite Htop|cbn; lia|cbn; lia|by left].
  - change (re_Topic source) with (kr_Topic record). rewrite Htop, Hroute. by eexists.
Qed.


End System.
End Consumer.

(** ** Witnesses *)

#[local] Existing Instances rfcUUIDs exampleNetURL exampleSHA256 exampleAdmission rfcUUIDForm.

(** The example decision of the scheduler as a record of the lifecycle topic. *)
Definition exampleScheduled : KafkaRecord :=
  {| kr_Topic := re_Topic exampleHandoff; kr_Key := re_Key exampleHandoff; kr_Value := re_Value exampleHandoff; kr_Timestamp := 0;
     kr_Headers := re_Headers exampleHandoff |}.

Definition exampleRouter : Router := {| ro_ConsumerIdentity := ConsumerIdentity; ro_QuarantineTenantID := exampleV7 70 |}.

Definition exampleEncode (_ : Envelope) : string := "{}".

Definition examplePass (faults : HandoffFaults) : Iteration :=
  {| it_PollCancelled := false; it_Fetches := {| fe_Errors := []; fe_Records := [(exampleScheduled, 3, 0, Z.of_nat 0)] |}; it_Cancelled := false;
     it_CheckedAt := exampleNow; it_CancelledWaiting := false; it_Now := exampleNow; it_Faults := faults;
     it_Produce := fun _ => inr {| pb_Partition := 0; pb_Offset := 7 |}; it_FailureID := Ok (exampleV7 61); it_EventID := Ok (exampleV7 62);
     it_Commit := Ok tt |}.

Definition exampleStart : HandoffSystem :=
  {| hy_Platform := examplePlatform; hy_Broker := {| br_Log := {[(AgentRunLifecycleTopic, 3) := [exampleScheduled]]}; br_Committed := ∅ |};
     hy_Members := ∅ |}.

Definition exampleMember : Member := {| mb_Topic := AgentRunLifecycleTopic; mb_Next := {[3 := 0%nat]} |}.

Lemma exampleScheduled_typed : typedRecord exampleScheduled.
Proof.
  assert (Hb : match wi_Decoded (kr_Value exampleScheduled) with
               | Some e => (0 <=? env_EventID e) && (env_EventID e <? 2 ^ 128) && (0 <=? env_TenantID e) && (env_TenantID e <? 2 ^ 128)
               | None => true
               end = true) by (vm_compute; reflexivity).
  intros envelope He. rewrite He in Hb. unfold isUUID. lia.
Qed.

Lemma exampleStart_fresh : fresh exampleStart.
Proof.
  split; [done|]. split; [done|]. intros tp record. unfold partitionLog, exampleStart. cbn [hy_Broker br_Log].
  destruct (decide (tp = (AgentRunLifecycleTopic, 3))) as [->|Hne].
  - rewrite lookup_singleton_eq. cbn [default from_option id]. intros ->%list_elem_of_singleton. cbn [fst]. split; [vm_compute; reflexivity|].
    split; [apply (bool_decide_unpack _); vm_compute; exact I|apply exampleScheduled_typed].
  - rewrite lookup_singleton_ne by done. cbn. by intros ?%not_elem_of_nil.
Qed.

Lemma exampleStart_polled faults result effects platform :
  consumeOnce 1024 exampleEncode exampleRouter (examplePass faults) examplePlatform = (result, effects, platform) ->
  exists b members, rtc (systemStep 1024 exampleEncode exampleRouter) exampleStart {| hy_Platform := platform; hy_Broker := b; hy_Members := members |} /\
    b = storeCommit (examplePass faults) false (AgentRunLifecycleTopic, 3) 0 (ef_Acknowledging effects)
          (storePublished 1024 5 (ef_Published effects) (hy_Broker exampleStart)).
Proof.
  intros Hc. eexists _, _. split; [|reflexivity].
  pose (joined := {| hy_Platform := examplePlatform; hy_Broker := hy_Broker exampleStart;
    hy_Members := {[1%nat := {| mb_Topic := AgentRunLifecycleTopic; mb_Next := ∅ |}]} |}).
  pose (assigned := {| hy_Platform := examplePlatform; hy_Broker := hy_Broker exampleStart; hy_Members := {[1%nat := exampleMember]} |}).
  apply rtc_l with joined; [apply (ss_join _ _ _ exampleStart 1%nat AgentRunLifecycleTopic); left|].
  apply rtc_l with assigned; [apply (ss_assign _ _ _ joined 1%nat {| mb_Topic := AgentRunLifecycleTopic; mb_Next := ∅ |} 3); [reflexivity|lia]|].
  eapply rtc_l; [|apply rtc_refl].
  apply (ss_consume _ _ _ assigned 1%nat exampleMember 3 0%nat exampleScheduled 0 (examplePass faults) 5 false result effects platform);
    [reflexivity|reflexivity|reflexivity|reflexivity|lia|done|by vm_compute|by vm_compute|exact Hc].
Qed.

Lemma handoff_never_loses_witness :
  exists s, rtc (systemStep 1024 exampleEncode exampleRouter) exampleStart s /\ committed (hy_Broker s) (AgentRunLifecycleTopic, 3) = 1%nat /\
    match envelopeOf 1024 exampleScheduled with
    | Some envelope => handedOff (hy_Platform s) envelope \/ awaiting 1024 (hy_Broker s) envelope \/ deadLettered 1024 (hy_Broker s) envelope
    | None => False
    end.
Proof.
  assert (Hok : (consumeOnce 1024 exampleEncode exampleRouter (examplePass Handoff.noFaults) examplePlatform).1 =
    (Again, {| ef_Published := None; ef_Acknowledging := Some (receivedFrom exampleScheduled 3 0 0 (re_Envelope exampleHandoff)) |}))
    by (vm_compute; reflexivity).
  destruct (consumeOnce 1024 exampleEncode exampleRouter (examplePass Handoff.noFaults) examplePlatform) as [[result effects] platform] eqn:Hc.
  cbn [fst] in Hok. apply pair_equal_spec in Hok as [-> ->].
  destruct (exampleStart_polled _ _ _ _ Hc) as (b & members & Hsteps & Hb). cbn [ef_Published ef_Acknowledging] in Hb. eexists. split; [exact Hsteps|].
  cbn [hy_Broker hy_Platform]. split; [subst b; vm_compute; reflexivity|].
  pose proof (handoff_never_loses 1024 exampleEncode exampleRouter exampleStart _ (AgentRunLifecycleTopic, 3) 0 exampleScheduled exampleStart_fresh Hsteps
    ltac:(left) ltac:(subst b; reflexivity)) as Hkept.
  assert (Hty : match envelopeOf 1024 exampleScheduled with Some e => (env_EventType e == AgentRunScheduledType) | None => false end = true)
    by (vm_compute; reflexivity).
  destruct (envelopeOf 1024 exampleScheduled) as [envelope|]; [|discriminate Hty]. apply Hkept. by apply bool_decide_eq_true in Hty.
Defined.

(** The intent cannot be read: the event is published to the first retry topic. *)
Definition intentUnavailable : HandoffFaults :=
  {| hf_Seen := false; hf_Load := true; hf_Authorize := false; hf_Select := false; hf_Mark := false; hf_Kube := quietKube |}.

Lemma examplePass_undisturbed faults : undisturbed (examplePass faults).
Proof.
  constructor; [done|done|intros record; by eexists| |split; by vm_compute].
  exists (exampleV7 61), (exampleV7 62). split_and!; try done; by vm_compute.
Qed.

Lemma exampleRouter_for : routerFor exampleRouter ConsumerIdentity (exampleV7 70).
Proof. split; [by vm_compute|split; by vm_compute]. Qed.

