(* ===== verification/Database.v ===== *)
(** * Connections and tenant transactions (internal/database/database.go)

    The bounded pool and the transactions that carry a tenant. A connection has the
    value of the setting [app.tenant_id] of its current transaction, which row level
    security compares with the owner of a row; PostgreSQL forgets the value when the
    transaction ends. Requests of one process interleave their calls in any order, every
    call may fail, and a transaction is usually rolled back once more after its commit.

    [tenant_context_confined] says that a statement of a tenant's transaction always runs
    for that tenant, and that connections are never shared, leaked or exceeded. *)

From S2P Require Import Prelude.

(** A connection of the pool: in a transaction or not, and the local setting. *)
Record Connection := {
  cx_InTransaction : bool;
  cx_TenantID : option string;
}.

(** [TenantTx], with the tenant it was begun for. *)
Record TenantTx := {
  tt_Tenant : UUID;
  tt_Conn : nat;
  tt_Done : bool;       (* sql.Tx: committed or rolled back *)
  tt_Released : bool;   (* once *)
}.

(** [Pool]: its open connections, those that are idle, and the transactions begun. *)
Record PoolState := {
  po_Open : gmap nat Connection;
  po_Idle : gset nat;
  po_Txs : gmap nat TenantTx;
}.

Definition emptyPool : PoolState := {| po_Open := ∅; po_Idle := ∅; po_Txs := ∅ |}.

Definition idleConnection : Connection := {| cx_InTransaction := false; cx_TenantID := None |}.

(** [Ping] of the driver's answer, and [Open]: a pool only when the database answers. *)
Definition Ping (answer : option error) : res unit :=
  match answer with Some _ => Err (ErrPlain "PostgreSQL unavailable") | None => Ok tt end.

Definition Open (driver answer : option error) : res PoolState :=
  match driver with
  | Some _ => Err (ErrPlain "open PostgreSQL driver")
  | None => _ ← Ping answer; Ok emptyPool
  end.

Section Database.
Context {UU : UUIDs}.
Variable (maxConns : nat).

Definition setConnection (c : nat) (v : Connection) (s : PoolState) : PoolState :=
  {| po_Open := <[c := v]> (po_Open s); po_Idle := po_Idle s; po_Txs := po_Txs s |}.
Definition setTx (t : nat) (v : TenantTx) (s : PoolState) : PoolState :=
  {| po_Open := po_Open s; po_Idle := po_Idle s; po_Txs := <[t := v]> (po_Txs s) |}.

(** [sql.DB.Conn]: an idle connection, or a new one below the bound; [None]: the wait for
    one ran out. [choice] is the connection it takes or opens. *)
Definition acquire (choice : nat) (s : PoolState) : option PoolState :=
  if bool_decide (choice ∈ po_Idle s) then
    Some {| po_Open := po_Open s; po_Idle := po_Idle s ∖ {[choice]}; po_Txs := po_Txs s |}
  else if bool_decide (po_Open s !! choice = None) && (size (po_Open s) <? maxConns)%nat && bool_decide (po_Idle s = ∅) then
    Some {| po_Open := <[choice := idleConnection]> (po_Open s); po_Idle := po_Idle s; po_Txs := po_Txs s |}
  else None.

(** [sql.Conn.Close]: back to the pool, or closed when the driver gave it up. *)
Definition closeConnection (broken : bool) (c : nat) (s : PoolState) : PoolState :=
  if broken then {| po_Open := delete c (po_Open s); po_Idle := po_Idle s ∖ {[c]}; po_Txs := po_Txs s |}
  else {| po_Open := <[c := idleConnection]> (po_Open s); po_Idle := po_Idle s ∪ {[c]}; po_Txs := po_Txs s |}.

(** [release]: exactly once. *)
Definition release (broken : bool) (t : nat) (s : PoolState) : PoolState :=
  match po_Txs s !! t with
  | Some tx =>
      if tt_Released tx then s
      else closeConnection broken (tt_Conn tx)
             (setTx t {| tt_Tenant := tt_Tenant tx; tt_Conn := tt_Conn tx; tt_Done := tt_Done tx; tt_Released := true |} s)
  | None => s
  end.

(** The end of [sql.Tx]: the transaction-local setting is gone whatever the outcome. *)
Definition endTx (t : nat) (s : PoolState) : option error * PoolState :=
  match po_Txs s !! t with
  | None => (Some (ErrPlain "sql: no transaction"), s)
  | Some tx =>
      if tt_Done tx then (Some (ErrPlain "sql: transaction has already been committed or rolled back"), s)
      else (None, setConnection (tt_Conn tx) idleConnection
                    (setTx t {| tt_Tenant := tt_Tenant tx; tt_Conn := tt_Conn tx; tt_Done := true; tt_Released := tt_Released tx |} s))
  end.

(** [fault]: what the server answered to the commit. *)
Definition Commit (fault : option error) (broken : bool) (t : nat) (s : PoolState) : option error * PoolState :=
  let '(err, s) := endTx t s in
  (match err with Some e => Some e | None => fault end, release broken t s).

Definition Rollback (fault : option error) (broken : bool) (t : nat) (s : PoolState) : option error * PoolState :=
  let '(err, s) := endTx t s in
  (match err with Some e => Some e | None => fault end, release broken t s).

(** What a statement of the transaction runs with: the setting row level security reads. *)
Definition ExecContext (t : nat) (s : PoolState) : res (option string) :=
  match po_Txs s !! t with
  | None => Err (ErrPlain "sql: no transaction")
  | Some tx =>
      _ ← failIf (tt_Done tx) (ErrPlain "sql: transaction has already been committed or rolled back");
      match po_Open s !! tt_Conn tx with
      | Some c => Ok (cx_TenantID c)
      | None => Err (ErrPlain "driver: bad connection")
      end
  end.

Record BeginFaults := {
  bf_BeginTx : option error;
  bf_BrokenBegin : bool;
  bf_SetConfig : option error;
  bf_BrokenSet : bool;
}.

(** [BeginTenant]; [t] is the new transaction. *)
Definition BeginTenant (f : BeginFaults) (choice t : nat) (tenantID : UUID) (s : PoolState) : res nat * PoolState :=
  match acquire choice s with
  | None => (Err (ErrPlain "acquire tenant connection"), s)
  | Some s =>
      match bf_BeginTx f with
      | Some _ => (Err (ErrPlain "begin tenant transaction"), closeConnection (bf_BrokenBegin f) choice s)
      | None =>
          let s := setConnection choice {| cx_InTransaction := true; cx_TenantID := None |}
                     (setTx t {| tt_Tenant := tenantID; tt_Conn := choice; tt_Done := false; tt_Released := false |} s) in
          match bf_SetConfig f with
          | Some _ => (Err (ErrPlain "set tenant context"), (Rollback None (bf_BrokenSet f) t s).2)
          | None => (Ok t, setConnection choice {| cx_InTransaction := true; cx_TenantID := Some (uuidString tenantID) |} s)
          end
      end
  end.

(** [Raw]: a statement outside any tenant transaction, on a connection of its own. *)
Definition RawExec (choice : nat) (s : PoolState) : option (option string) :=
  s ← acquire choice s; c ← po_Open s !! choice; Some (cx_TenantID c).

(** [Stats] *)
Record PoolStats := {
  st_OpenConns : nat;
  st_InUse : nat;
  st_Idle : nat;
}.

Definition Stats (s : PoolState) : PoolStats :=
  {| st_OpenConns := size (po_Open s); st_InUse := size (po_Open s) - size (po_Idle s); st_Idle := size (po_Idle s) |}.

(** ** Requests *)

Inductive poolStep : PoolState -> PoolState -> Prop :=
| ps_begin s f choice t tenantID : po_Txs s !! t = None -> poolStep s (BeginTenant f choice t tenantID s).2
| ps_commit s fault broken t : poolStep s (Commit fault broken t s).2
| ps_rollback s fault broken t : poolStep s (Rollback fault broken t s).2
| ps_close s c : c ∈ po_Idle s -> poolStep s (closeConnection true c s).   (* idle limits and lifetimes *)

(** The transaction holds its connection. *)
Definition holding (s : PoolState) (t : nat) (tx : TenantTx) : Prop := po_Txs s !! t = Some tx /\ tt_Released tx = false.

(** [busy]: connections a request is just taking or giving back. *)
Record pool_inv (busy : gset nat) (s : PoolState) : Prop := {
  pi_bound : (size (po_Open s) <= maxConns)%nat;
  pi_idle : forall c, c ∈ po_Idle s -> po_Open s !! c = Some idleConnection /\ c ∉ busy;
  pi_busy : forall c, c ∈ busy -> is_Some (po_Open s !! c);
  pi_held : forall t tx, holding s t tx -> tt_Conn tx ∉ po_Idle s /\ tt_Conn tx ∉ busy /\ tt_Done tx = false /\
    po_Open s !! tt_Conn tx = Some {| cx_InTransaction := true; cx_TenantID := Some (uuidString (tt_Tenant tx)) |};
  pi_exclusive : forall t1 t2 tx1 tx2, holding s t1 tx1 -> holding s t2 tx2 -> tt_Conn tx1 = tt_Conn tx2 -> t1 = t2;
  pi_done : forall t tx, po_Txs s !! t = Some tx -> tt_Released tx = true -> tt_Done tx = true;
  pi_owned : forall c, is_Some (po_Open s !! c) -> c ∈ po_Idle s \/ c ∈ busy \/ exists t tx, holding s t tx /\ tt_Conn tx = c;
}.

Lemma inv_acquire choice s s' : pool_inv ∅ s -> acquire choice s = Some s' -> pool_inv {[choice]} s' /\ po_Txs s' = po_Txs s.
Proof.
  intros [Hb Hi _ Hh Hx Hd Ho]. unfold acquire. case_bool_decide as Hin.
  - intros [= <-]. split; [|done]. constructor; cbn; try done.
    + intros c [Hc Hne]%elem_of_difference. split; [by apply Hi|done].
    + intros c ->%elem_of_singleton. rewrite (proj1 (Hi _ Hin)). by eexists.
    + intros t tx Ht. destruct (Hh t tx Ht) as (Hn & _ & ? & ?). set_solver.
    + intros c Hc. destruct (decide (c = choice)) as [->|]; [set_solver|]. destruct (Ho c Hc) as [?|[[]%elem_of_empty|?]]; [left|right; by right]; set_solver.
  - destruct (_ && _ && _) eqn:E; [|done]. rewrite !andb_true_iff, !bool_decide_eq_true in E. destruct E as [[Hnone Hlt%Nat.ltb_lt] Hempty].
    intros [= <-]. split; [|done]. assert (Hother : forall t tx, holding s t tx -> tt_Conn tx <> choice).
    { intros t tx Ht E. destruct (Hh t tx Ht) as (_ & _ & _ & Hl). congruence. }
    constructor; cbn; try done.
    + rewrite map_size_insert_None by done. lia.
    + rewrite Hempty. set_solver.
    + intros c ->%elem_of_singleton. rewrite lookup_insert_eq. by eexists.
    + intros t tx Ht. destruct (Hh t tx Ht) as (? & _ & ? & ?). pose proof (Hother t tx Ht). rewrite lookup_insert_ne by done. set_solver.
    + intros c Hc. destruct (decide (c = choice)) as [->|]; [set_solver|]. rewrite lookup_insert_ne in Hc by done. destruct (Ho c Hc) as [?|[[]%elem_of_empty|?]]; [left|right; by right]; set_solver.
Qed.

Lemma inv_close broken c s : pool_inv {[c]} s -> pool_inv ∅ (closeConnection broken c s).
Proof.
  intros [Hb Hi Hbu Hh Hx Hd Ho]. unfold closeConnection.
  assert (Hc : is_Some (po_Open s !! c)) by (apply Hbu; set_solver).
  destruct broken; constructor; cbn; try done.
  - etransitivity; [|exact Hb]. rewrite map_size_delete. destruct (po_Open s !! c); [apply Nat.le_pred_l|done].
  - intros d [Hd' Hne]%elem_of_difference. rewrite lookup_delete_ne by set_solver. split; [by apply Hi|set_solver].
  - intros t tx Ht. destruct (Hh t tx Ht) as (? & ? & ? & ?). rewrite lookup_delete_ne by set_solver. set_solver.
  - intros d [v [Hne Hv]%lookup_delete_Some]. destruct (Ho d ltac:(by eexists)) as [?|[->%elem_of_singleton|?]]; [left; set_solver|done|right; by right].
  - rewrite map_size_insert. destruct (po_Open s !! c); [done|]. by destruct Hc.
  - intros d. rewrite elem_of_union, elem_of_singleton. destruct (decide (d = c)) as [->|Hne]; [rewrite lookup_insert_eq; set_solver|].
    intros [Hin|?]; [|done]. rewrite lookup_insert_ne by done. split; [by apply Hi|set_solver].
  - intros t tx Ht. destruct (Hh t tx Ht) as (? & ? & ? & ?). rewrite lookup_insert_ne by set_solver. set_solver.
  - intros d Hd'. destruct (decide (d = c)) as [->|Hne]; [set_solver|]. rewrite lookup_insert_ne in Hd' by done. destruct (Ho d Hd') as [?|[->%elem_of_singleton|?]]; [left; set_solver|done|right; by right].
Qed.

Definition liveTx (tenantID : UUID) (c : nat) : TenantTx := {| tt_Tenant := tenantID; tt_Conn := c; tt_Done := false; tt_Released := false |}.
Definition endedTx (tenantID : UUID) (c : nat) : TenantTx := {| tt_Tenant := tenantID; tt_Conn := c; tt_Done := true; tt_Released := true |}.

Lemma holding_insert s t v t' tx : holding (setTx t v s) t' tx <-> (t' = t /\ tx = v /\ tt_Released v = false) \/ (t' <> t /\ holding s t' tx).
Proof.
  unfold holding. cbn. destruct (decide (t' = t)) as [->|Hne].
  - rewrite lookup_insert_eq. split; [intros [[= ->] ?]; by left|intros [(_ & -> & ?)|[? _]]; by split].
  - rewrite lookup_insert_ne by done. split; [by right|by intros [(? & _)|[_ ?]]].
Qed.

(** A new transaction takes over the connection of its request. *)
Lemma inv_begun s c t tenantID : pool_inv {[c]} s -> po_Txs s !! t = None ->
  pool_inv ∅ (setConnection c {| cx_InTransaction := true; cx_TenantID := Some (uuidString tenantID) |} (setTx t (liveTx tenantID c) s)).
Proof.
  intros [Hb Hi Hbu Hh Hx Hd Ho] Hnew. destruct (Hbu c ltac:(set_solver)) as [v Hv].
  assert (Hnot : forall t' tx, holding s t' tx -> tt_Conn tx <> c) by (intros t' tx (_ & ? & _)%Hh; set_solver).
  constructor; cbn.
  - rewrite map_size_insert, Hv. done.
  - intros d Hd'. destruct (Hi d Hd') as [Hid Hn]. rewrite lookup_insert_ne by set_solver. split; [done|set_solver].
  - intros d []%elem_of_empty.
  - intros t' tx [(-> & -> & _)|[_ Ht]]%holding_insert; cbn.
    + rewrite lookup_insert_eq. split_and!; [intros [_ ?]%Hi; set_solver|set_solver|done|done].
    + destruct (Hh t' tx Ht) as (? & _ & ? & ?). rewrite lookup_insert_ne by (by apply not_eq_sym, (Hnot t')). split_and!; [done|set_solver|done|done].
  - intros t1 t2 tx1 tx2 [(-> & -> & _)|[_ H1]]%holding_insert [(-> & -> & _)|[_ H2]]%holding_insert; cbn; [done|..].
    + intros E. by destruct (Hnot t2 tx2 H2).
    + intros E. by destruct (Hnot t1 tx1 H1).
    + by apply (Hx t1 t2).
  - intros t' tx. destruct (decide (t' = t)) as [->|Hne]; [rewrite lookup_insert_eq; by intros [= <-]|rewrite lookup_insert_ne by done; apply Hd].
  - intros d Hd'. destruct (decide (d = c)) as [->|Hne].
    + right. right. exists t, (liveTx tenantID c). split; [|done]. apply holding_insert. by left.
    + rewrite lookup_insert_ne in Hd' by done. destruct (Ho d Hd') as [?|[?%elem_of_singleton|(t' & tx & Ht & E)]]; [by left|done|].
      right. right. exists t', tx. split; [|done]. apply holding_insert. right. split; [|done]. intros ->. destruct Ht as [Ht _]. congruence.
Qed.

(** A transaction that ended gives its connection back to the request. *)
Lemma inv_ended busy s t v : pool_inv busy s -> (forall tx, po_Txs s !! t = Some tx -> tt_Released tx = true) -> tt_Done v = true -> tt_Released v = true ->
  pool_inv busy (setTx t v s).
Proof.
  intros [Hb Hi Hbu Hh Hx Hd Ho] Hrel Hdv Hrv. assert (Hsame : forall t' tx, holding (setTx t v s) t' tx <-> holding s t' tx).
  { intros t' tx. rewrite holding_insert. split; [intros [(_ & _ & ?)|[_ ?]]; [congruence|done]|]. intros Ht. right. split; [|done].
    intros ->. destruct Ht as [Hl Hr]. rewrite (Hrel _ Hl) in Hr. done. }
  constructor; try done.
  - intros t' tx Ht%Hsame. by apply (Hh t').
  - intros t1 t2 tx1 tx2 H1%Hsame H2%Hsame. by apply (Hx t1 t2).
  - intros t' tx. cbn. destruct (decide (t' = t)) as [->|Hne]; [rewrite lookup_insert_eq; by intros [= <-]|rewrite lookup_insert_ne by done; apply Hd].
  - intros c Hc. destruct (Ho c Hc) as [?|[?|(t' & tx & Ht & E)]]; [by left|right; by left|]. right. right. exists t', tx. by rewrite Hsame.
Qed.

Lemma inv_unheld s t tx c : pool_inv ∅ s -> holding s t tx -> c = tt_Conn tx ->
  pool_inv {[c]} (setConnection c idleConnection (setTx t (endedTx (tt_Tenant tx) c) s)).
Proof.
  intros [Hb Hi Hbu Hh Hx Hd Ho] Ht ->. destruct (Hh t tx Ht) as (Hn & _ & Hdone & Hopen).
  assert (Hother : forall t' tx', t' <> t -> holding s t' tx' -> tt_Conn tx' <> tt_Conn tx) by (intros t' tx' Hne Ht' E; by destruct Hne; eapply Hx).
  constructor; cbn.
  - rewrite map_size_insert, Hopen. done.
  - intros d Hd'. destruct (Hi d Hd') as [Hid _]. rewrite lookup_insert_ne by set_solver. split; [done|set_solver].
  - intros d ->%elem_of_singleton. rewrite lookup_insert_eq. by eexists.
  - intros t' tx' [(_ & -> & [=])|[Hne Ht']]%holding_insert. destruct (Hh t' tx' Ht') as (? & _ & ? & ?). pose proof (Hother t' tx' Hne Ht').
    rewrite lookup_insert_ne by done. split_and!; [done|set_solver|done|done].
  - intros t1 t2 tx1 tx2 [(_ & -> & [=])|[_ H1]]%holding_insert [(_ & -> & [=])|[_ H2]]%holding_insert. by apply (Hx t1 t2).
  - intros t' tx'. destruct (decide (t' = t)) as [->|Hne]; [rewrite lookup_insert_eq; by intros [= <-]|rewrite lookup_insert_ne by done; apply Hd].
  - intros d Hd'. destruct (decide (d = tt_Conn tx)) as [->|Hne]; [right; left; set_solver|]. rewrite lookup_insert_ne in Hd' by done.
    destruct (Ho d Hd') as [?|[[]%elem_of_empty|(t' & tx' & Ht' & E)]]; [by left|]. right. right. exists t', tx'. split; [|done].
    apply holding_insert. right. split; [|done]. intros ->. destruct Ht as [Ht _], Ht' as [Ht' _]. congruence.
Qed.

(** What both ends of a transaction do. *)
Definition finish (broken : bool) (t : nat) (s : PoolState) : PoolState := release broken t (endTx t s).2.

Lemma Commit_finish fault broken t s : (Commit fault broken t s).2 = finish broken t s.
Proof. unfold Commit, finish. by destruct (endTx t s). Qed.
Lemma Rollback_finish fault broken t s : (Rollback fault broken t s).2 = finish broken t s.
Proof. unfold Rollback, finish. by destruct (endTx t s). Qed.

Lemma finish_live broken t tx s : po_Txs s !! t = Some tx -> tt_Done tx = false -> tt_Released tx = false ->
  finish broken t s = closeConnection broken (tt_Conn tx) (setConnection (tt_Conn tx) idleConnection (setTx t (endedTx (tt_Tenant tx) (tt_Conn tx)) s)).
Proof.
  intros Ht Hd Hr. unfold finish, endTx. rewrite Ht, Hd. unfold release. cbn [snd setConnection setTx po_Txs]. rewrite lookup_insert_eq. cbn [tt_Released].
  rewrite Hr. cbn [tt_Conn tt_Tenant tt_Done]. unfold setConnection, setTx. cbn. by rewrite insert_insert_eq.
Qed.

Lemma finish_ended broken t s : (forall tx, po_Txs s !! t = Some tx -> tt_Done tx = true /\ tt_Released tx = true) -> finish broken t s = s.
Proof.
  intros Hend. unfold finish, endTx. destruct (po_Txs s !! t) as [tx|] eqn:Ht.
  - destruct (Hend tx eq_refl) as [-> Hr]. unfold release. cbn. by rewrite Ht, Hr.
  - unfold release. cbn. by rewrite Ht.
Qed.

(** A transaction is live or ended. *)
Lemma inv_phase busy s t tx : pool_inv busy s -> po_Txs s !! t = Some tx -> (tt_Done tx = false /\ holding s t tx) \/ (tt_Done tx = true /\ tt_Released tx = true).
Proof.
  intros Hinv Ht. destruct (tt_Released tx) eqn:Hr; [right; split; [by eapply pi_done|done]|left]. assert (Hh : holding s t tx) by done.
  split; [|done]. by destruct (pi_held busy s Hinv t tx Hh) as (_ & _ & ? & _).
Qed.

Lemma inv_finish broken t s : pool_inv ∅ s -> pool_inv ∅ (finish broken t s).
Proof.
  intros Hinv. destruct (po_Txs s !! t) as [tx|] eqn:Ht.
  - destruct (inv_phase _ _ _ _ Hinv Ht) as [[Hd Hh]|[Hd Hr]].
    + rewrite (finish_live broken t tx) by (done || apply Hh). by apply inv_close, inv_unheld.
    + rewrite finish_ended; [done|]. intros tx'. rewrite Ht. by intros [= <-].
  - rewrite finish_ended; [done|]. intros tx'. by rewrite Ht.
Qed.

Lemma inv_begin f choice t tenantID s : pool_inv ∅ s -> po_Txs s !! t = None -> pool_inv ∅ (BeginTenant f choice t tenantID s).2.
Proof.
  intros Hinv Hnew. unfold BeginTenant. destruct (acquire choice s) as [s1|] eqn:Ha; [|done].
  destruct (inv_acquire _ _ _ Hinv Ha) as [Hinv1 Htxs]. destruct (bf_BeginTx f); [by apply inv_close|].
  assert (Hnew1 : po_Txs s1 !! t = None) by (by rewrite Htxs). destruct (bf_SetConfig f).
  - cbn [snd]. rewrite Rollback_finish, (finish_live _ t (liveTx tenantID choice)) by (done || apply lookup_insert_eq).
    apply inv_close. unfold setConnection, setTx, liveTx, endedTx. cbn. rewrite !insert_insert_eq.
    destruct (pi_busy _ _ Hinv1 choice ltac:(set_solver)) as [v Hv].
    assert (Hreset : pool_inv {[choice]} (setConnection choice idleConnection s1)).
    { destruct Hinv1 as [Hb Hi Hbu Hh Hx Hd Ho]. constructor; cbn; try done.
      - by rewrite map_size_insert, Hv.
      - intros c Hc. destruct (Hi c Hc) as [? ?]. rewrite lookup_insert_ne by set_solver. done.
      - intros c ->%elem_of_singleton. rewrite lookup_insert_eq. by eexists.
      - intros t' tx Ht'. destruct (Hh t' tx Ht') as (? & ? & ? & ?). rewrite lookup_insert_ne by set_solver. done.
      - intros c Hc. destruct (decide (c = choice)) as [->|]; [right; left; set_solver|]. rewrite lookup_insert_ne in Hc by done. by apply Ho. }
    apply (inv_ended _ _ t (endedTx tenantID choice)) in Hreset; [exact Hreset| |done|done]. intros tx. cbn. by rewrite Hnew1.
  - cbn [snd]. unfold setConnection at 2. cbn. pose proof (inv_begun s1 choice t tenantID Hinv1 Hnew1) as Hb.
    unfold setConnection, setTx, liveTx in *. cbn in *. by rewrite insert_insert_eq.
Qed.

Lemma inv_poolStep s s' : poolStep s s' -> pool_inv ∅ s -> pool_inv ∅ s'.
Proof.
  intros Hstep Hinv. destruct Hstep as [s f choice t tenantID Hnew|s fault broken t|s fault broken t|s c Hc].
  - by apply inv_begin.
  - rewrite Commit_finish. by apply inv_finish.
  - rewrite Rollback_finish. by apply inv_finish.
  - destruct (inv_acquire c s {| po_Open := po_Open s; po_Idle := po_Idle s ∖ {[c]}; po_Txs := po_Txs s |}) as [Hinv1 _]; [done| |].
    { unfold acquire. by rewrite bool_decide_eq_true_2. }
    apply (inv_close true) in Hinv1. unfold closeConnection in *. cbn in *. by rewrite difference_difference_l_L, (union_idemp_L {[c]}) in Hinv1.
Qed.

Lemma inv_empty : pool_inv ∅ emptyPool.
Proof.
  constructor; unfold emptyPool, holding; cbn.
  - rewrite map_size_empty. lia.
  - intros c []%elem_of_empty.
  - intros c []%elem_of_empty.
  - intros t tx [Ht _]. by rewrite lookup_empty in Ht.
  - intros t1 t2 tx1 tx2 [Ht _]. by rewrite lookup_empty in Ht.
  - intros t tx Ht. by rewrite lookup_empty in Ht.
  - intros c [v Hv]. by rewrite lookup_empty in Hv.
Qed.

Lemma inv_exec s t tx : pool_inv ∅ s -> po_Txs s !! t = Some tx ->
  (tt_Released tx = false /\ ExecContext t s = Ok (Some (uuidString (tt_Tenant tx)))) \/ (tt_Released tx = true /\ exists e, ExecContext t s = Err e).
Proof.
  intros Hinv Ht. unfold ExecContext. rewrite Ht, bind_failIf. destruct (inv_phase _ _ _ _ Hinv Ht) as [[-> Hh]|[-> Hr]]; [left|right; eauto].
  destruct (pi_held _ _ Hinv t tx Hh) as (_ & _ & _ & ->). split; [apply Hh|done].
Qed.

End Database.

(** ** Witness *)

#[local] Existing Instance rfcUUIDs.

Definition noBeginFaults : BeginFaults := {| bf_BeginTx := None; bf_BrokenBegin := false; bf_SetConfig := None; bf_BrokenSet := false |}.

(** One connection serves two tenants in turn, and the first transaction is rolled back
    again while the second one is running. *)
Definition examplePool : PoolState :=
  (Rollback None false 1 (BeginTenant 1 noBeginFaults 7 2 (exampleV7 2)
    (Commit None false 1 (BeginTenant 1 noBeginFaults 7 1 (exampleV7 1) emptyPool).2).2).2).2.

