(* ===== verification/Projects.v ===== *)
(** * Tenants and projects

    internal/domain/tenant.go and project.go, internal/application/projects/service.go,
    internal/adapters/postgres/projects.go, and the tables of
    db/migrations/000001_tenants_and_projects.up.sql with their checks, keys and row
    level security.

    The catalogue holds the rows of both tables; the run tables of the same database
    refer to them. [project_catalogue] says what creating, reading and rejecting a
    project does in every catalogue the services can reach, and
    [projects_listed] that following the pages of a tenant reads its projects
    completely. *)

From S2P Require Import Prelude Json AgentRun Store RunService.

Record Tenant := {
  tn_ID : UUID;
  tn_Slug : string;
  tn_Name : string;
  tn_CreatedAt : Time;
  tn_UpdatedAt : Time;
}.

Record Project := {
  pj_ID : UUID;
  pj_TenantID : UUID;
  pj_Name : string;
  pj_RepositoryURL : string;
  pj_Version : Z;
  pj_CreatedAt : Time;
  pj_UpdatedAt : Time;
}.

#[export] Instance Project_eq_dec : EqDecision Project.
Proof. solve_decision. Defined.

(** ** Domain *)

(** [^[a-z0-9][a-z0-9-]{1,61}[a-z0-9]$], on the bytes and on their reverse. *)
Definition slugPattern (s : string) : bool :=
  match bytes s, reverse (bytes s) with
  | first :: middle, last :: _ =>
      lowerAlnum first && lowerAlnum last && forallb (fun c => lowerAlnum c || hyphen c) middle
      && (3 <=? len s) && (len s <=? 63)
  | _, _ => false
  end.

(** [strings.ToLower] as far as an ASCII pattern can see it: the capital I with a dot
    and the Kelvin sign are the only other characters whose lower case is an ASCII
    letter. *)
Fixpoint lowerBytes (l : list Ascii.ascii) : list Ascii.ascii :=
  match l with
  | [] => []
  | c :: rest =>
      if byte_in 65 90 c then Ascii.ascii_of_N (Ascii.N_of_ascii c + 32) :: lowerBytes rest
      else match rest with
           | d :: rest' =>
               if byte_is 196 c && byte_is 176 d then Ascii.ascii_of_nat 105 :: lowerBytes rest'
               else match rest' with
                    | e :: rest'' =>
                        if byte_is 226 c && byte_is 132 d && byte_is 170 e
                        then Ascii.ascii_of_nat 107 :: lowerBytes rest''
                        else c :: lowerBytes rest
                    | [] => c :: lowerBytes rest
                    end
           | [] => c :: lowerBytes rest
           end
  end.

Definition ToLower (s : string) : string := String.string_of_list_ascii (lowerBytes (bytes s)).

Definition NewTenant (newV7 : res UUID) (slug name : string) (now : Time) : res Tenant :=
  let slug := ToLower (TrimSpace slug) in
  let name := TrimSpace name in
  _ ← failIf (negb (slugPattern slug)) (ErrPlain "tenant slug must be 3 to 63 lowercase letters, numbers, or hyphens");
  _ ← failIf ((name == EmptyString) || (120 <? len name)) (ErrPlain "tenant name must contain 1 to 120 characters");
  id ← newV7;
  Ok {| tn_ID := id; tn_Slug := slug; tn_Name := name; tn_CreatedAt := now; tn_UpdatedAt := now |}.

Definition NewProject (newV7 : res UUID) (tenantID : UUID) (name repositoryURL : string) (now : Time) : res Project :=
  let name := TrimSpace name in
  let repositoryURL := TrimSpace repositoryURL in
  _ ← failIf (tenantID == uuidNil) (ErrPlain "project tenant ID is required");
  _ ← failIf ((name == EmptyString) || (120 <? len name)) (ErrPlain "project name must contain 1 to 120 characters");
  _ ← failIf (2048 <? len repositoryURL) (ErrPlain "project repository URL must contain at most 2048 characters");
  id ← newV7;
  Ok {| pj_ID := id; pj_TenantID := tenantID; pj_Name := name; pj_RepositoryURL := repositoryURL; pj_Version := 1;
        pj_CreatedAt := now; pj_UpdatedAt := now |}.

(** ** Text in PostgreSQL *)

(** The number of characters of a text, or [None] when the server refuses the bytes:
    an invalid UTF-8 sequence or a zero byte. *)
Fixpoint pgChars (fuel : nat) (l : list Ascii.ascii) : option nat :=
  match l, fuel with
  | [], _ => Some O
  | _, O => None
  | c :: rest, S fuel =>
      if byte_is 0 c then None
      else if byte_in 1 127 c then S <$> pgChars fuel rest
      else match runeLength l with Some n => S <$> pgChars fuel (drop n l) | None => None end
  end.

Definition pgLength (l : list Ascii.ascii) : option nat := pgChars (length l) l.

Definition storable (s : string) : bool := bool_decide (is_Some (pgLength (bytes s))).

Fixpoint dropSpaces (l : list Ascii.ascii) : list Ascii.ascii :=
  match l with c :: rest => if byte_is 32 c then dropSpaces rest else l | [] => [] end.

(** [trim]: spaces only, at both ends. *)
Definition pgTrim (l : list Ascii.ascii) : list Ascii.ascii := reverse (dropSpaces (reverse (dropSpaces l))).

(** [length(text) between lo and hi] *)
Definition lengthBetween (lo hi : nat) (l : list Ascii.ascii) : bool :=
  match pgLength l with Some n => (lo <=? n)%nat && (n <=? hi)%nat | None => false end.

(** ** Errors of the driver *)

Inductive SqlError :=
| SqlNoRows
| PgError (code : string)
| DriverError (msg : string).

Definition translateError (err : SqlError) : error :=
  match err with
  | SqlNoRows => ErrNotFound
  | PgError code =>
      if code == "23505" then ErrConflict
      else if code == "23503" then ErrNotFound
      else if code == "42501" then ErrForbidden
      else ErrPlain "PostgreSQL operation failed"
  | DriverError _ => ErrPlain "PostgreSQL operation failed"
  end.

(** ** The tables *)

(** The rows of tenants and projects, with the rest of the database, whose foreign
    keys refer to them. *)
Record Catalogue := {
  ct_Tenants : gmap UUID Tenant;
  ct_Projects : gmap UUID Project;
  ct_DB : DB;
}.

Definition emptyCatalogue : Catalogue := {| ct_Tenants := ∅; ct_Projects := ∅; ct_DB := emptyDB |}.

Section Catalogue.
Context `{UUIDs}.

Definition tenantRowValid (tenant : Tenant) : bool :=
  (uuidVersion (tn_ID tenant) =? 7) && slugPattern (tn_Slug tenant)
  && lengthBetween 1 120 (pgTrim (bytes (tn_Name tenant))).

Definition projectRowValid (project : Project) : bool :=
  (uuidVersion (pj_ID project) =? 7) && lengthBetween 1 120 (pgTrim (bytes (pj_Name project)))
  && lengthBetween 0 2048 (bytes (pj_RepositoryURL project)) && (0 <? pj_Version project).

Definition pgTenant (tenant : Tenant) : Tenant :=
  {| tn_ID := tn_ID tenant; tn_Slug := tn_Slug tenant; tn_Name := tn_Name tenant;
     tn_CreatedAt := pgTime (tn_CreatedAt tenant); tn_UpdatedAt := pgTime (tn_UpdatedAt tenant) |}.

Definition pgProject (project : Project) : Project :=
  {| pj_ID := pj_ID project; pj_TenantID := pj_TenantID project; pj_Name := pj_Name project;
     pj_RepositoryURL := pj_RepositoryURL project; pj_Version := pj_Version project;
     pj_CreatedAt := pgTime (pj_CreatedAt project); pj_UpdatedAt := pgTime (pj_UpdatedAt project) |}.

(** [insert into tenants]: parameters, checks, then unique indexes. *)
Definition insertTenant (tenant : Tenant) (c : Catalogue) : Catalogue + SqlError :=
  if negb (storable (tn_Slug tenant) && storable (tn_Name tenant)) then inr (PgError "22021")
  else if negb (tenantRowValid tenant) then inr (PgError "23514")
  else if bool_decide (is_Some (ct_Tenants c !! tn_ID tenant))
       || bool_decide (map_Exists (fun _ t => tn_Slug t = tn_Slug tenant) (ct_Tenants c)) then inr (PgError "23505")
  else inl {| ct_Tenants := <[tn_ID tenant := pgTenant tenant]> (ct_Tenants c); ct_Projects := ct_Projects c;
              ct_DB := (ct_DB c) <| db_tenants := <[tn_ID tenant := "ACTIVE"]> (db_tenants (ct_DB c)) |> |}.

(** The policy projects_tenant_isolation: the row's owner is the tenant of the session. *)
Definition policyAdmits (session : option string) (project : Project) : Prop :=
  session = Some (uuidString (pj_TenantID project)).

#[export] Instance policyAdmits_dec session project : Decision (policyAdmits session project).
Proof. unfold policyAdmits. apply _. Defined.

(** [insert into projects]: parameters, the policy, checks, unique indexes, then the
    foreign key. *)
Definition insertProject (session : option string) (project : Project) (c : Catalogue) : Catalogue + SqlError :=
  if negb (storable (pj_Name project) && storable (pj_RepositoryURL project)) then inr (PgError "22021")
  else if negb (bool_decide (policyAdmits session project)) then inr (PgError "42501")
  else if negb (projectRowValid project) then inr (PgError "23514")
  else if bool_decide (is_Some (ct_Projects c !! pj_ID project))
       || bool_decide (map_Exists (fun _ p => pj_TenantID p = pj_TenantID project /\ pj_Name p = pj_Name project)
            (ct_Projects c)) then inr (PgError "23505")
  else if bool_decide (ct_Tenants c !! pj_TenantID project = None) then inr (PgError "23503")
  else inl {| ct_Tenants := ct_Tenants c; ct_Projects := <[pj_ID project := pgProject project]> (ct_Projects c);
              ct_DB := (ct_DB c) <| db_projects :=
                <[pj_ID project := (pj_TenantID project, "ACTIVE")]> (db_projects (ct_DB c)) |> |}.

(** The rows of a session, under the policy. *)
Definition visible (session : option string) (c : Catalogue) : list Project :=
  filter (policyAdmits session) (map_to_list (ct_Projects c)).*2.

(** ** Repositories

    Any call may fail; a commit whose answer is lost may have taken effect. *)

Record CallFaults := {
  cf_Begin : option SqlError;
  cf_Statement : option SqlError;
  cf_Commit : option SqlError;
  cf_Applied : bool;
}.

Definition noCallFaults : CallFaults :=
  {| cf_Begin := None; cf_Statement := None; cf_Commit := None; cf_Applied := false |}.

(** [TenantRepository.Create], on a connection outside of a tenant's transaction. *)
Definition createTenant (f : CallFaults) (tenant : Tenant) (c : Catalogue) : option error * Catalogue :=
  match insertTenant tenant c with
  | inr err => (Some (translateError (default err (cf_Statement f))), c)
  | inl c' =>
      match cf_Statement f with
      | Some err => (Some (translateError err), if cf_Applied f then c' else c)
      | None => (None, c')
      end
  end.

(** What [BeginTenant] installs. *)
Definition tenantSession (tenantID : UUID) : option string := Some (uuidString tenantID).

(** [ProjectRepository.Create] *)
Definition createProject (f : CallFaults) (project : Project) (c : Catalogue) : option error * Catalogue :=
  match cf_Begin f with
  | Some err => (Some (translateError err), c)
  | None =>
      match cf_Statement f, insertProject (tenantSession (pj_TenantID project)) project c with
      | Some err, _ => (Some (translateError err), c)
      | None, inr err => (Some (translateError err), c)
      | None, inl c' =>
          match cf_Commit f with
          | Some err => (Some (translateError err), if cf_Applied f then c' else c)
          | None => (None, c')
          end
      end
  end.

(** [ProjectRepository.Get] *)
Definition getProject (f : CallFaults) (tenantID projectID : UUID) (c : Catalogue) : res Project :=
  match cf_Begin f, cf_Statement f with
  | Some err, _ | None, Some err => Err (translateError err)
  | None, None =>
      match filter (fun p => pj_TenantID p = tenantID /\ pj_ID p = projectID) (visible (tenantSession tenantID) c) with
      | [] => Err (translateError SqlNoRows)
      | project :: _ =>
          match cf_Commit f with Some err => Err (translateError err) | None => Ok project end
      end
  end.

Record ProjectPage := {
  pp_AfterCreatedAt : option Time;
  pp_AfterID : option UUID;
  pp_Limit : Z;
}.

Definition pageHolds (tenantID : UUID) (page : ProjectPage) (project : Project) : Prop :=
  pj_TenantID project = tenantID /\
  match pp_AfterCreatedAt page, pp_AfterID page with
  | Some createdAt, Some id => pastKey pj_CreatedAt pj_ID (pgTime createdAt) id project
  | _, _ => True
  end.

#[export] Instance pageHolds_dec tenantID page project : Decision (pageHolds tenantID page project).
Proof. unfold pageHolds. destruct (pp_AfterCreatedAt page), (pp_AfterID page); apply _. Defined.

(** [ProjectRepository.List] *)
Definition listProjects (f : CallFaults) (tenantID : UUID) (page : ProjectPage) (c : Catalogue) : res (list Project) :=
  _ ← failIf (bool_decide (is_Some (pp_AfterCreatedAt page)) != bool_decide (is_Some (pp_AfterID page)))
      (ErrPlain "project page cursor must include creation time and ID");
  let limit := if (pp_Limit page <=? 0) || (100 <? pp_Limit page) then 50 else pp_Limit page in
  match cf_Begin f, cf_Statement f, cf_Commit f with
  | Some err, _, _ | None, Some err, _ | None, None, Some err => Err (translateError err)
  | None, None, None =>
      Ok (take (Z.to_nat limit) (merge_sort (newestFirst pj_CreatedAt pj_ID)
            (filter (pageHolds tenantID page) (visible (tenantSession tenantID) c))))
  end.

(** ** Service *)

Record CreateInput := {
  ci_Name : string;
  ci_RepositoryURL : string;
}.

(** [Service.Create] *)
Definition CreateProject (f : CallFaults) (newV7 : res UUID) (tenantID : UUID) (input : CreateInput) (now : Time)
    (c : Catalogue) : res Project * Catalogue :=
  match NewProject newV7 tenantID (ci_Name input) (ci_RepositoryURL input) now with
  | Err e => (Err e, c)
  | Ok project =>
      match createProject f project c with
      | (Some e, c') => (Err e, c')
      | (None, c') => (Ok project, c')
      end
  end.

Definition GetProject := getProject.
Definition ListProjects := listProjects.

(** ** Reachable catalogues

    Tenants are provisioned and projects created, while the other tables change in any
    way that keeps the two tables' rows. *)
Inductive catalogueStep : Catalogue -> Catalogue -> Prop :=
| StepTenant f newV7 slug name now tenant c :
    NewTenant newV7 slug name now = Ok tenant -> catalogueStep c (createTenant f tenant c).2
| StepProject f newV7 tenantID input now c :
    catalogueStep c (CreateProject f newV7 tenantID input now c).2
| StepOther db' c :
    db_tenants db' = db_tenants (ct_DB c) -> db_projects db' = db_projects (ct_DB c) ->
    catalogueStep c {| ct_Tenants := ct_Tenants c; ct_Projects := ct_Projects c; ct_DB := db' |}.
End Catalogue.

(** ** Text *)

Lemma pgChars_le fuel l n : pgChars fuel l = Some n -> (n <= length l)%nat /\ (l <> [] -> 1 <= n)%nat.
Proof.
  revert l n. induction fuel as [|fuel IH]; intros [|c l] n; cbn [pgChars]; try (intros [= <-]; split; [simpl; lia|done]); try done.
  destruct (byte_is 0 c); [done|]. destruct (byte_in 1 127 c).
  - intros (m & [? _]%IH & ->)%fmap_Some. simpl. split; [lia|intros _; lia].
  - destruct (runeLength (c :: l)) as [k|] eqn:Hk; [|done]. intros (m & [Hm _]%IH & ->)%fmap_Some.
    assert (1 <= k)%nat by (revert Hk; unfold runeLength; repeat case_match; intros [= <-]; lia).
    rewrite length_drop in Hm. simpl in *. split; [lia|intros _; lia].
Qed.

Lemma lengthBetween_storable s lo hi : storable s = true -> len s <= Z.of_nat hi -> (lo <= 1)%nat -> (s <> EmptyString \/ lo = O) ->
  lengthBetween lo hi (bytes s) = true.
Proof.
  unfold storable, lengthBetween, len. rewrite bool_decide_eq_true. intros [n Hn] Hl Hlo Hne. rewrite Hn.
  apply pgChars_le in Hn as [Hn Hn1]. rewrite length_bytes in Hn. apply andb_true_iff. rewrite !Nat.leb_le. split; [|lia].
  destruct Hne as [Hne| ->]; [|lia]. assert (1 <= n)%nat; [|lia]. apply Hn1. intros E. apply Hne, bytes_inj. by rewrite E.
Qed.

Lemma space_space1 c : byte_is 32 c = true -> space1 c = true.
Proof. unfold space1. intros ->. apply orb_true_r. Qed.

Lemma dropSpaces_fixed s2 s3 l : startsSpace s2 s3 l = false -> dropSpaces l = l.
Proof.
  destruct l as [|c l]; [done|]. cbn [startsSpace dropSpaces]. destruct (byte_is 32 c) eqn:E; [|done].
  by rewrite (space_space1 _ E).
Qed.

(** A trimmed text has no spaces at its ends. *)
Lemma pgTrim_TrimSpace s : pgTrim (bytes (TrimSpace s)) = bytes (TrimSpace s).
Proof.
  pose proof (TrimSpace_idemp s) as Hi. unfold TrimSpace at 1 in Hi. apply (f_equal bytes) in Hi. rewrite bytes_of_list in Hi.
  set (l := bytes (TrimSpace s)) in *. unfold pgTrim.
  assert (Hr : reverse l = trimBack (reverse (trimLeft l))) by (rewrite <-Hi at 1; unfold trimRight; by rewrite reverse_involutive).
  assert (Hl : startsSpace space2 space3 l = false).
  { destruct (startsSpace _ _ l) eqn:E; [|done]. destruct (trimRight_prefix (trimLeft l)) as [q Hq]. rewrite Hi in Hq.
    apply (startsSpace_prefix _ _ _ q) in E. rewrite <-Hq in E. unfold trimLeft in E.
    destruct (trimFront_spec space2 space3 l) as [Hs _]. congruence. }
  rewrite (dropSpaces_fixed _ _ _ Hl). erewrite dropSpaces_fixed; [by rewrite reverse_involutive|].
  rewrite Hr. unfold trimBack. apply trimFront_spec.
Qed.

Lemma pgLength_ascii l : forallb (byte_in 1 127) l = true -> pgLength l = Some (length l).
Proof.
  unfold pgLength. induction l as [|c l IH]; [done|]. cbn [forallb length pgChars]. intros [Hc Hl]%andb_true_iff. rewrite (IH Hl), Hc.
  destruct (byte_is 0 c) eqn:E; [|done]. unfold byte_is, byte_in in *. apply N.eqb_eq in E. by rewrite E in Hc.
Qed.

Lemma slug_storable s : slugPattern s = true -> storable s = true.
Proof.
  intros Hs. unfold storable. rewrite pgLength_ascii; [by apply bool_decide_eq_true_2|]. revert Hs. unfold slugPattern.
  destruct (bytes s) as [|c l]; [done|]. destruct (reverse _); [done|]. intros [[[[Hc _]%andb_true_iff Hl]%andb_true_iff _]%andb_true_iff _]%andb_true_iff.
  assert (Hascii : forall d, lowerAlnum d || hyphen d = true -> byte_in 1 127 d = true) by (by intros [[] [] [] [] [] [] [] []]).
  cbn [forallb]. rewrite Hascii by (by rewrite Hc). apply forallb_forall. intros d Hd. apply Hascii. by apply (proj1 (forallb_forall _ _) Hl).
Qed.

(** ** The catalogue's invariant *)

Section Invariant.
Context `{UUIDs}.

Record catalogue_inv (c : Catalogue) : Prop := {
  ki_keyed : forall id p, ct_Projects c !! id = Some p -> pj_ID p = id;
  ki_owned : forall id p, ct_Projects c !! id = Some p -> is_Some (ct_Tenants c !! pj_TenantID p);
  ki_named : forall i j p q, ct_Projects c !! i = Some p -> ct_Projects c !! j = Some q ->
    pj_TenantID p = pj_TenantID q -> pj_Name p = pj_Name q -> i = j;
  ki_valid : forall id p, ct_Projects c !! id = Some p -> projectRowValid p = true;
  ki_micro : forall id p, ct_Projects c !! id = Some p -> pgTime (pj_CreatedAt p) = pj_CreatedAt p;
  ki_slugs : forall i j t u, ct_Tenants c !! i = Some t -> ct_Tenants c !! j = Some u -> tn_Slug t = tn_Slug u -> i = j;
  ki_tenants : forall id, is_Some (db_tenants (ct_DB c) !! id) <-> is_Some (ct_Tenants c !! id);
  ki_projects : forall id, fst <$> db_projects (ct_DB c) !! id = pj_TenantID <$> ct_Projects c !! id;
}.

Lemma inv_emptyCatalogue : catalogue_inv emptyCatalogue.
Proof. constructor; cbn; intros *; rewrite ?lookup_empty; done || (by intros ?). Qed.

Lemma pgTime_pgTime t : pgTime (pgTime t) = pgTime t.
Proof. unfold pgTime. by rewrite Z.div_mul. Qed.

Lemma insertTenant_inl tenant c c' :
  insertTenant tenant c = inl c' ->
  ct_Tenants c !! tn_ID tenant = None /\ (forall i t, ct_Tenants c !! i = Some t -> tn_Slug t <> tn_Slug tenant) /\
  c' = {| ct_Tenants := <[tn_ID tenant := pgTenant tenant]> (ct_Tenants c); ct_Projects := ct_Projects c;
          ct_DB := (ct_DB c) <| db_tenants := <[tn_ID tenant := "ACTIVE"]> (db_tenants (ct_DB c)) |> |}.
Proof.
  unfold insertTenant. destruct (negb _); [done|]. destruct (negb _); [done|]. destruct (_ || _) eqn:E; [done|]. intros [= <-].
  apply orb_false_iff in E as [E1%bool_decide_eq_false E2%bool_decide_eq_false]. apply eq_None_not_Some in E1. split_and!; [done| |done].
  intros i t Ht Hs. apply E2. by exists i, t.
Qed.

Definition slugTaken (slug : string) (c : Catalogue) : Prop := exists id t, ct_Tenants c !! id = Some t /\ tn_Slug t = slug.

(** Provisioning a tenant the domain accepts, with a new identifier. *)
Lemma createTenant_answers id slug name now tenant c :
  NewTenant (Ok id) slug name now = Ok tenant -> uuidVersion id = 7 -> storable (tn_Name tenant) = true -> ct_Tenants c !! id = None ->
  (slugTaken (tn_Slug tenant) c -> createTenant noCallFaults tenant c = (Some ErrConflict, c)) /\
  (~ slugTaken (tn_Slug tenant) c -> (createTenant noCallFaults tenant c).1 = None /\ ct_Tenants (createTenant noCallFaults tenant c).2 !! id = Some (pgTenant tenant)).
Proof.
  unfold NewTenant. intros Hn Hid Hs Hnew. rewrite !bind_failIf in Hn. destruct (slugPattern _) eqn:Hslug in Hn; [|done].
  cbn [negb] in Hn. destruct (_ || _) eqn:E in Hn; [done|]. apply orb_false_iff in E as [E1%bool_decide_eq_false E2%Z.ltb_ge].
  apply Ok_inj in Hn as <-. cbn [tn_Name] in Hs. unfold createTenant, insertTenant, tenantRowValid. cbn [tn_Slug tn_Name tn_ID].
  rewrite (slug_storable _ Hslug), Hs, Hslug, Hid, Hnew, pgTrim_TrimSpace, lengthBetween_storable by (auto; lia). cbn [negb andb Z.eqb Pos.eqb].
  rewrite bool_decide_eq_false_2 by apply is_Some_None. cbn [orb]. split.
  - intros (i & t & Ht & Hst). by rewrite bool_decide_eq_true_2 by (by exists i, t).
  - intros Hfree. rewrite bool_decide_eq_false_2 by (intros (i & t & Ht & Hst); apply Hfree; by exists i, t). cbn. by rewrite lookup_insert_eq.
Qed.

Lemma inv_insertTenant tenant c c' : catalogue_inv c -> insertTenant tenant c = inl c' -> catalogue_inv c'.
Proof.
  intros Hinv (Hnew & Hslug & ->)%insertTenant_inl. constructor; cbn; try apply Hinv.
  - intros id p Hp. apply lookup_insert_is_Some'. right. by eapply ki_owned.
  - intros i j t u [[<- <-]|[? Ht]]%lookup_insert_Some [[<- <-]|[? Hu]]%lookup_insert_Some Hs; cbn in *; try done.
    + by destruct (Hslug _ _ Hu).
    + by destruct (Hslug _ _ Ht).
    + by eapply ki_slugs.
  - intros id. rewrite !lookup_insert_is_Some'. by rewrite (ki_tenants _ Hinv).
Qed.

(** When an insert of a project takes effect. *)
Definition insertable (project : Project) (c : Catalogue) : Prop :=
  storable (pj_Name project) = true /\ storable (pj_RepositoryURL project) = true /\ projectRowValid project = true /\
  ct_Projects c !! pj_ID project = None /\
  (forall i p, ct_Projects c !! i = Some p -> pj_TenantID p = pj_TenantID project -> pj_Name p <> pj_Name project) /\
  is_Some (ct_Tenants c !! pj_TenantID project).

Definition withProject (project : Project) (c : Catalogue) : Catalogue :=
  {| ct_Tenants := ct_Tenants c; ct_Projects := <[pj_ID project := pgProject project]> (ct_Projects c);
     ct_DB := (ct_DB c) <| db_projects := <[pj_ID project := (pj_TenantID project, "ACTIVE")]> (db_projects (ct_DB c)) |> |}.

Lemma insertProject_inl project c c' :
  insertProject (tenantSession (pj_TenantID project)) project c = inl c' <-> insertable project c /\ c' = withProject project c.
Proof.
  unfold insertProject, insertable, tenantSession, withProject. rewrite (bool_decide_eq_true_2 (policyAdmits _ _)) by done. cbn [negb].
  destruct (storable (pj_Name project)); cbn; [|naive_solver]. destruct (storable (pj_RepositoryURL project)); cbn; [|naive_solver].
  destruct (projectRowValid project); cbn; [|naive_solver].
  case_bool_decide as E1; cbn; [destruct E1 as [? E1]; naive_solver|]. apply eq_None_not_Some in E1.
  case_bool_decide as E2; [destruct E2 as (i & p & Hp & Ht & Hn); naive_solver|].
  case_bool_decide as E3; [rewrite E3; split; [done|]; by intros [(_ & _ & _ & _ & _ & [? [=]]) _]|].
  split; [intros [= <-]; split_and!; try done|by intros [_ ->]].
  - intros i p Hp Ht Hn. apply E2. by exists i, p.
  - by apply not_eq_None_Some.
Qed.

Lemma inv_withProject project c : catalogue_inv c -> insertable project c -> catalogue_inv (withProject project c).
Proof.
  intros Hinv (_ & _ & Hv & Hnew & Hname & Ht). constructor; cbn; try apply Hinv.
  - intros id p [[<- <-]|[? Hp]]%lookup_insert_Some; [done|by eapply ki_keyed].
  - intros id p [[<- <-]|[? Hp]]%lookup_insert_Some; [done|by eapply ki_owned].
  - intros i j p q [[<- <-]|[? Hp]]%lookup_insert_Some [[<- <-]|[? Hq]]%lookup_insert_Some Ht' Hn; cbn in *; try done.
    + by destruct (Hname _ _ Hq).
    + by destruct (Hname _ _ Hp).
    + by eapply ki_named.
  - intros id p [[<- <-]|[? Hp]]%lookup_insert_Some; [exact Hv|by eapply ki_valid].
  - intros id p [[<- <-]|[? Hp]]%lookup_insert_Some; [apply pgTime_pgTime|by eapply ki_micro].
  - intros id. destruct (decide (pj_ID project = id)) as [<-|Hne]; [by rewrite !lookup_insert_eq|].
    rewrite !lookup_insert_ne by done. by apply Hinv.
Qed.

(** A call that does not answer success leaves the catalogue, unless its commit was lost. *)
Lemma createProject_cases f project c :
  (exists e, createProject f project c = (Some e, c)) \/
  (insertable project c /\ exists answer, createProject f project c = (answer, withProject project c) /\ (answer <> None -> cf_Applied f = true)).
Proof.
  unfold createProject. destruct (cf_Begin f); [eauto|]. destruct (cf_Statement f); [eauto|].
  destruct (insertProject _ project c) as [c'|err] eqn:Hi; [|eauto]. apply insertProject_inl in Hi as [Hi ->].
  destruct (cf_Commit f); [|right; split; [done|eexists; split; [done|done]]].
  destruct (cf_Applied f); [|eauto]. right. split; [done|]. by eexists.
Qed.

Lemma inv_createProject f project c : catalogue_inv c -> catalogue_inv (createProject f project c).2.
Proof.
  intros Hinv. destruct (createProject_cases f project c) as [[e ->]|[Hi (answer & -> & _)]]; [done|]. by apply inv_withProject.
Qed.

Lemma inv_catalogueStep c c' : catalogueStep c c' -> catalogue_inv c -> catalogue_inv c'.
Proof.
  intros [f newV7 slug name now tenant c0 _|f newV7 tenantID input now c0|db' c0 Ht Hp] Hinv.
  - unfold createTenant. destruct (insertTenant tenant c0) as [c1|err] eqn:Hi; [|done].
    pose proof (inv_insertTenant _ _ _ Hinv Hi). by destruct (cf_Statement f), (cf_Applied f).
  - unfold CreateProject. destruct (NewProject _ _ _ _ _) as [project|e]; [|done].
    pose proof (inv_createProject f project c0 Hinv) as Hc. by destruct (createProject f project c0) as [[e|] c1].
  - destruct Hinv. constructor; cbn; try done.
    + intros id. by rewrite Ht.
    + intros id. by rewrite Hp.
Qed.

Lemma inv_catalogue c : rtc catalogueStep emptyCatalogue c -> catalogue_inv c.
Proof.
  intros Hr. pose proof inv_emptyCatalogue as H0. induction Hr as [|c0 c1 c Hs _ IH]; [done|]. apply IH. by eapply inv_catalogueStep.
Qed.
End Invariant.

(** ** Creating and reading *)

Section Operations.
Context `{UUIDs}.

Lemma visible_elem session c p :
  p ∈ visible session c <-> session = Some (uuidString (pj_TenantID p)) /\ exists id, ct_Projects c !! id = Some p.
Proof.
  unfold visible. rewrite list_elem_of_filter. unfold policyAdmits. f_equiv. rewrite list_elem_of_fmap. split.
  - intros ([id q] & -> & Hq%elem_of_map_to_list). by exists id.
  - intros [id Hp]. exists (id, p). split; [done|]. by apply elem_of_map_to_list.
Qed.

Definition ownedProject (tenantID projectID : UUID) (c : Catalogue) : res Project :=
  match ct_Projects c !! projectID with
  | Some p => if pj_TenantID p == tenantID then Ok p else Err ErrNotFound
  | None => Err ErrNotFound
  end.

Lemma getProject_owned tenantID projectID c : catalogue_inv c -> getProject noCallFaults tenantID projectID c = ownedProject tenantID projectID c.
Proof.
  intros Hinv. unfold getProject, ownedProject. cbn.
  destruct (filter _ _) as [|q l] eqn:Hf.
  - destruct (ct_Projects c !! projectID) as [p|] eqn:Hp; [|done]. case_bool_decide as Ht; [|done]. exfalso.
    apply (not_elem_of_nil p). rewrite <-Hf, list_elem_of_filter, visible_elem. unfold tenantSession. rewrite Ht.
    split_and!; [done|by eapply ki_keyed|done|by exists projectID].
  - assert (Hq : q ∈ q :: l) by left. rewrite <-Hf, list_elem_of_filter, visible_elem in Hq.
    destruct Hq as ([<- <-] & _ & id & Hq). rewrite (ki_keyed _ Hinv _ _ Hq). rewrite Hq. by rewrite bool_decide_eq_true_2.
Qed.

Lemma getProject_faults f tenantID projectID c p :
  getProject f tenantID projectID c = Ok p -> getProject noCallFaults tenantID projectID c = Ok p.
Proof.
  unfold getProject. cbn. destruct (cf_Begin f); [done|]. destruct (cf_Statement f); [done|].
  destruct (filter _ _); [done|]. by destruct (cf_Commit f).
Qed.

Lemma ownedProject_exists tenantID projectID c :
  catalogue_inv c -> projectExists tenantID projectID (ct_DB c) = Ok tt <-> exists p, ownedProject tenantID projectID c = Ok p.
Proof.
  intros Hinv. unfold projectExists, ownedProject. rewrite failIf_ok, bool_decide_eq_false, (ki_projects _ Hinv).
  destruct (ct_Projects c !! projectID) as [p|]; cbn; [|naive_solver]. case_bool_decide; naive_solver congruence.
Qed.

(** What [NewProject] asks of its arguments. *)
Definition acceptable (tenantID : UUID) (input : CreateInput) : Prop :=
  tenantID <> uuidNil /\ TrimSpace (ci_Name input) <> EmptyString /\ len (TrimSpace (ci_Name input)) <= 120 /\
  len (TrimSpace (ci_RepositoryURL input)) <= 2048.

Definition newProject (id tenantID : UUID) (input : CreateInput) (now : Time) : Project :=
  {| pj_ID := id; pj_TenantID := tenantID; pj_Name := TrimSpace (ci_Name input);
     pj_RepositoryURL := TrimSpace (ci_RepositoryURL input); pj_Version := 1; pj_CreatedAt := now; pj_UpdatedAt := now |}.

Lemma NewProject_ok newV7 tenantID input now project :
  NewProject newV7 tenantID (ci_Name input) (ci_RepositoryURL input) now = Ok project <->
  acceptable tenantID input /\ exists id, newV7 = Ok id /\ project = newProject id tenantID input now.
Proof.
  unfold NewProject, acceptable. rewrite !bind_failIf. case_bool_decide; [naive_solver|].
  destruct (_ || _) eqn:E2; [apply orb_true_iff in E2 as [E2%bool_decide_eq_true|E2%Z.ltb_lt]; [naive_solver|split; [done|lia]]|].
  apply orb_false_iff in E2 as [E2%bool_decide_eq_false E3%Z.ltb_ge].
  destruct (_ <? _) eqn:E4; [apply Z.ltb_lt in E4; split; [done|lia]|]. apply Z.ltb_ge in E4.
  rewrite bind_ok. split.
  - intros (id & Hid & [= <-]). split; [done|]. by exists id.
  - intros (_ & id & Hid & ->). by exists id.
Qed.

Lemma newProject_valid id tenantID input now :
  acceptable tenantID input -> uuidVersion id = 7 -> storable (TrimSpace (ci_Name input)) = true ->
  storable (TrimSpace (ci_RepositoryURL input)) = true -> projectRowValid (newProject id tenantID input now) = true.
Proof.
  intros (_ & Hne & Hl & Hu) Hid Hs Hr. unfold projectRowValid, newProject. cbn [pj_ID pj_Name pj_RepositoryURL pj_Version]. rewrite Hid, pgTrim_TrimSpace.
  rewrite !lengthBetween_storable; auto; lia.
Qed.

Definition nameTaken (tenantID : UUID) (name : string) (c : Catalogue) : Prop :=
  exists id p, ct_Projects c !! id = Some p /\ pj_TenantID p = tenantID /\ pj_Name p = name.

(** The answers of a create whose text the server accepts and whose identifier is new. *)
Lemma CreateProject_answers id tenantID input now c :
  acceptable tenantID input -> uuidVersion id = 7 -> storable (TrimSpace (ci_Name input)) = true ->
  storable (TrimSpace (ci_RepositoryURL input)) = true -> ct_Projects c !! id = None ->
  let project := newProject id tenantID input now in
  (nameTaken tenantID (pj_Name project) c -> CreateProject noCallFaults (Ok id) tenantID input now c = (Err ErrConflict, c)) /\
  (~ nameTaken tenantID (pj_Name project) c ->
     (ct_Tenants c !! tenantID = None -> CreateProject noCallFaults (Ok id) tenantID input now c = (Err ErrNotFound, c)) /\
     (is_Some (ct_Tenants c !! tenantID) -> CreateProject noCallFaults (Ok id) tenantID input now c = (Ok project, withProject project c))).
Proof.
  intros Ha Hid Hs Hr Hnew project. pose proof (newProject_valid id tenantID input now Ha Hid Hs Hr) as Hv.
  unfold CreateProject. rewrite (proj2 (NewProject_ok (Ok id) tenantID input now project)) by eauto.
  unfold createProject. cbn [cf_Begin cf_Statement cf_Commit noCallFaults]. unfold insertProject.
  rewrite (bool_decide_eq_true_2 (policyAdmits _ _)) by done. fold project in Hv. rewrite Hv. subst project. cbn. rewrite Hs, Hr, Hnew. cbn.
  split.
  - intros (i & p & Hp & Ht & Hn). by rewrite bool_decide_eq_true_2 by (by exists i, p).
  - intros Hnt. rewrite (bool_decide_eq_false_2 (map_Exists _ _)) by (intros (i & p & Hp & Ht & Hn); apply Hnt; by exists i, p).
    split; [intros ->; by rewrite bool_decide_eq_true_2|]. intros Ht. rewrite bool_decide_eq_false_2 by (intros E; rewrite E in Ht; by destruct Ht). done.
Qed.

Lemma CreateProject_effect f newV7 tenantID input now c :
  let '(answer, c') := CreateProject f newV7 tenantID input now c in
  match answer with
  | Ok project => acceptable tenantID input /\ (exists id, newV7 = Ok id /\ project = newProject id tenantID input now) /\
      insertable project c /\ c' = withProject project c
  | Err _ => c' = c \/ cf_Applied f = true
  end.
Proof.
  unfold CreateProject. destruct (NewProject newV7 tenantID (ci_Name input) (ci_RepositoryURL input) now) as [project|e] eqn:Hn; [|by left].
  apply NewProject_ok in Hn as [Ha Hid]. destruct (createProject_cases f project c) as [[e ->]|[Hi (answer & -> & Hl)]]; [by left|].
  destruct answer as [e|]; [right; by apply Hl|done].
Qed.

(** The project catalogue does what its service promises. In every catalogue
    reachable by provisioning tenants and creating projects, with calls failing at will:
    a tenant the domain accepts is stored unless its slug is taken; a create with acceptable text succeeds, answers a conflict when the tenant has a
    project of that name, and answers not-found when there is no such tenant, whatever
    the validation of the domain and the checks of the tables; a created project is read
    back, with its times at the precision of the database, by its tenant and by nobody
    else, accepts runs, and changes no other project; a create that fails leaves
    the catalogue as it was unless only the answer of its commit was lost. Reads answer stored rows of the
    caller's tenant only, even when a statement forgets its tenant condition. *)
Theorem project_catalogue c (Hreach : rtc catalogueStep emptyCatalogue c) :
  (forall id slug name now tenant, NewTenant (Ok id) slug name now = Ok tenant -> uuidVersion id = 7 -> storable (tn_Name tenant) = true ->
     ct_Tenants c !! id = None ->
     let create := createTenant noCallFaults tenant c in
     (slugTaken (tn_Slug tenant) c -> create = (Some ErrConflict, c)) /\
     (~ slugTaken (tn_Slug tenant) c -> create.1 = None /\ ct_Tenants create.2 !! id = Some (pgTenant tenant))) /\
  (forall id tenantID input now, acceptable tenantID input -> uuidVersion id = 7 ->
     storable (TrimSpace (ci_Name input)) = true -> storable (TrimSpace (ci_RepositoryURL input)) = true -> ct_Projects c !! id = None ->
     let create := CreateProject noCallFaults (Ok id) tenantID input now c in
     (nameTaken tenantID (TrimSpace (ci_Name input)) c -> create = (Err ErrConflict, c)) /\
     (~ nameTaken tenantID (TrimSpace (ci_Name input)) c ->
        (ct_Tenants c !! tenantID = None -> create = (Err ErrNotFound, c)) /\
        (is_Some (ct_Tenants c !! tenantID) -> create.1 = Ok (newProject id tenantID input now)))) /\
  (forall f newV7 tenantID input now project c', CreateProject f newV7 tenantID input now c = (Ok project, c') ->
     acceptable tenantID input /\ pj_TenantID project = tenantID /\ newV7 = Ok (pj_ID project) /\
     GetProject noCallFaults tenantID (pj_ID project) c' = Ok (pgProject project) /\
     (forall other, other <> tenantID -> GetProject noCallFaults other (pj_ID project) c' = Err ErrNotFound) /\
     projectExists tenantID (pj_ID project) (ct_DB c') = Ok tt /\
     (forall tenant id, id <> pj_ID project -> GetProject noCallFaults tenant id c' = GetProject noCallFaults tenant id c)) /\
  (forall f newV7 tenantID input now e c', CreateProject f newV7 tenantID input now c = (Err e, c') -> c' = c \/ cf_Applied f = true) /\
  (forall f tenantID projectID project, GetProject f tenantID projectID c = Ok project ->
     pj_ID project = projectID /\ pj_TenantID project = tenantID /\ ct_Projects c !! projectID = Some project) /\
  (forall tenantID projectID, projectExists tenantID projectID (ct_DB c) = Ok tt <-> exists project, GetProject noCallFaults tenantID projectID c = Ok project) /\
  (forall tenantID project, isUUID tenantID -> isUUID (pj_TenantID project) -> project ∈ visible (tenantSession tenantID) c -> pj_TenantID project = tenantID).
Proof.
  apply inv_catalogue in Hreach as Hinv. unfold GetProject. split_and!.
  - intros id slug name now tenant. apply createTenant_answers.
  - intros id tenantID input now Ha Hid Hs Hr Hnew.
    destruct (CreateProject_answers id tenantID input now c Ha Hid Hs Hr Hnew) as [Hc Hn]. split; [exact Hc|].
    intros Hfree. destruct (Hn Hfree) as [Hnf Hok]. split; [exact Hnf|]. intros Ht. by rewrite (Hok Ht).
  - intros f newV7 tenantID input now project c' Hc. pose proof (CreateProject_effect f newV7 tenantID input now c) as He. rewrite Hc in He.
    destruct He as (Ha & (id & -> & ->) & Hi & ->). pose proof (inv_withProject _ _ Hinv Hi) as Hinv'.
    assert (Hown : forall t, ownedProject t id (withProject (newProject id tenantID input now) c) =
      if tenantID == t then Ok (pgProject (newProject id tenantID input now)) else Err ErrNotFound)
      by (intros t; unfold ownedProject; cbn; by rewrite lookup_insert_eq).
    split_and!; try done.
    + rewrite getProject_owned by done. cbn [pj_ID newProject]. by rewrite Hown, bool_decide_eq_true_2.
    + intros other Hne. rewrite getProject_owned by done. cbn [pj_ID newProject]. by rewrite Hown, bool_decide_eq_false_2.
    + apply ownedProject_exists; [done|]. cbn [pj_ID newProject]. rewrite Hown, bool_decide_eq_true_2 by done. eauto.
    + intros t i Hne. rewrite !getProject_owned by done. unfold ownedProject, withProject. cbn. by rewrite lookup_insert_ne by done.
  - intros f newV7 tenantID input now e c' Hc. pose proof (CreateProject_effect f newV7 tenantID input now c) as He. by rewrite Hc in He.
  - intros f tenantID projectID project Hg%getProject_faults. rewrite getProject_owned in Hg by done. revert Hg. unfold ownedProject.
    destruct (ct_Projects c !! projectID) as [p|] eqn:Hp; [|done]. case_bool_decide as Ht; [|done]. intros [= <-].
    split_and!; [by eapply ki_keyed|done|done].
  - intros tenantID projectID. rewrite ownedProject_exists by done. by rewrite getProject_owned.
  - intros tenantID project Ht Hp [[= Hs] _]%visible_elem. symmetry. by apply uuidString_inj.
Qed.

(** ** Listing *)

(** The projects of a tenant, newest first. *)
Definition projectHistory (tenantID : UUID) (c : Catalogue) : list Project :=
  merge_sort (newestFirst pj_CreatedAt pj_ID) (filter (fun p => pj_TenantID p = tenantID) (visible (tenantSession tenantID) c)).

Lemma tenantProjects_NoDup tenantID c :
  catalogue_inv c -> NoDup (pj_ID <$> filter (fun p => pj_TenantID p = tenantID) (visible (tenantSession tenantID) c)).
Proof.
  intros Hinv. unfold visible. rewrite list_filter_filter.
  eapply sublist_NoDup; [|apply fmap_sublist, sublist_filter]. rewrite <-list_fmap_compose.
  replace (_ <$> map_to_list (ct_Projects c)) with (fst <$> map_to_list (ct_Projects c)); [apply NoDup_fst_map_to_list|].
  apply list_fmap_ext. intros i [id p] Hi. simpl. symmetry. eapply ki_keyed; [done|]. apply elem_of_map_to_list, list_elem_of_lookup. by exists i.
Qed.

Lemma projectHistory_elem tenantID c p :
  catalogue_inv c -> p ∈ projectHistory tenantID c <-> pj_TenantID p = tenantID /\ ct_Projects c !! pj_ID p = Some p.
Proof.
  intros Hinv. unfold projectHistory. rewrite merge_sort_Permutation, list_elem_of_filter, visible_elem. unfold tenantSession. split.
  - intros (Ht & _ & id & Hp). split; [done|]. by rewrite (ki_keyed _ Hinv _ _ Hp).
  - intros [<- Hp]. eauto.
Qed.

Definition effectiveProjects (limit : Z) : nat := Z.to_nat (if (limit <=? 0) || (100 <? limit) then 50 else limit).

(** The page asked for after the last project of the previous one. *)
Definition nextPage (after : option Project) (limit : Z) : ProjectPage :=
  {| pp_AfterCreatedAt := pj_CreatedAt <$> after; pp_AfterID := pj_ID <$> after; pp_Limit := limit |}.

Lemma listProjects_first tenantID limit c :
  listProjects noCallFaults tenantID (nextPage None limit) c = Ok (take (effectiveProjects limit) (projectHistory tenantID c)).
Proof.
  unfold listProjects, nextPage. rewrite bind_failIf. cbn -[take merge_sort]. unfold projectHistory. do 3 f_equal. apply list_filter_iff.
  intros p. unfold pageHolds. cbn. naive_solver.
Qed.

Lemma listProjects_after tenantID limit c l1 x l2 :
  catalogue_inv c -> projectHistory tenantID c = l1 ++ x :: l2 ->
  listProjects noCallFaults tenantID (nextPage (Some x) limit) c = Ok (take (effectiveProjects limit) l2).
Proof.
  intros Hinv Hh. assert (Hx : x ∈ projectHistory tenantID c) by (rewrite Hh; set_solver).
  apply (projectHistory_elem _ _ _ Hinv) in Hx as [_ Hx]. pose proof (ki_micro _ Hinv _ _ Hx) as Hm.
  unfold listProjects, nextPage. rewrite bind_failIf. cbn -[take merge_sort]. do 2 f_equal.
  rewrite <-(keyset_page pj_CreatedAt pj_ID _ _ _ _ (tenantProjects_NoDup tenantID c Hinv) Hh). f_equal.
  rewrite list_filter_filter. apply list_filter_iff. intros p. unfold pageHolds. cbn. rewrite Hm. naive_solver.
Qed.

(** A client that asks for page after page until one is not full, at most [fuel] pages. *)
Fixpoint followProjects (fuel : nat) (tenantID : UUID) (limit : Z) (after : option Project) (c : Catalogue) : option (list Project) :=
  match fuel with
  | O => None
  | S fuel =>
      match ListProjects noCallFaults tenantID (nextPage after limit) c with
      | Err _ => None
      | Ok page =>
          if (length page <? effectiveProjects limit)%nat then Some page
          else app page <$> followProjects fuel tenantID limit (last page) c
      end
  end.

Lemma followProjects_rest fuel tenantID limit after rest c :
  catalogue_inv c -> (length rest < fuel)%nat ->
  (exists read, projectHistory tenantID c = read ++ rest /\ last read = after) ->
  followProjects fuel tenantID limit after c = Some rest.
Proof.
  intros Hinv. revert after rest. induction fuel as [|fuel IH]; intros after rest Hf (read & Hh & Hl); [lia|]. cbn [followProjects]. unfold ListProjects.
  assert (Hpage : listProjects noCallFaults tenantID (nextPage after limit) c = Ok (take (effectiveProjects limit) rest)).
  { destruct read as [|x read _] using rev_ind; [cbn in Hl; subst after; rewrite listProjects_first; by rewrite Hh|].
    rewrite last_snoc in Hl. subst after. eapply listProjects_after; [done|]. by rewrite <-app_assoc in Hh. }
  assert (Hn : (1 <= effectiveProjects limit)%nat) by (unfold effectiveProjects; destruct (_ || _) eqn:E; lia).
  rewrite Hpage, length_take. destruct (Nat.ltb_spec (effectiveProjects limit `min` length rest) (effectiveProjects limit)) as [Hlt|Hge].
  - by rewrite take_ge by lia.
  - rewrite (IH _ (drop (effectiveProjects limit) rest)); [cbn; by rewrite take_drop|rewrite length_drop; lia|].
    exists (read ++ take (effectiveProjects limit) rest). rewrite <-app_assoc, take_drop. split; [done|].
    destruct (take (effectiveProjects limit) rest) as [|x l _] eqn:E using rev_ind; [|by rewrite app_assoc, !last_snoc].
    apply (f_equal length) in E. rewrite length_take in E. cbn in E. lia.
Qed.

(** Listing reads a tenant's projects completely. In every reachable catalogue, a
    client that follows the pages of a tenant, with any limit, receives after at most
    one page more than there are projects every project of the tenant and no other,
    newest first and none twice; a page holds at most 100 projects, and half a cursor is
    rejected. *)
Theorem projects_listed c tenantID limit (Hreach : rtc catalogueStep emptyCatalogue c) :
  (exists projects, followProjects (S (length projects)) tenantID limit None c = Some projects /\
     (forall p, p ∈ projects <-> pj_TenantID p = tenantID /\ ct_Projects c !! pj_ID p = Some p) /\
     NoDup (pj_ID <$> projects) /\ StronglySorted (newestFirst pj_CreatedAt pj_ID) projects) /\
  (forall f page projects, ListProjects f tenantID page c = Ok projects -> (length projects <= 100)%nat) /\
  (forall f page, bool_decide (is_Some (pp_AfterCreatedAt page)) <> bool_decide (is_Some (pp_AfterID page)) ->
     exists e, ListProjects f tenantID page c = Err e).
Proof.
  apply inv_catalogue in Hreach as Hinv. unfold ListProjects. split_and!.
  - exists (projectHistory tenantID c). split_and!.
    + apply followProjects_rest; [done|lia|by exists []].
    + intros p. by apply projectHistory_elem.
    + unfold projectHistory. rewrite merge_sort_Permutation. by apply tenantProjects_NoDup.
    + apply newestFirst_sorted.
  - intros f page projects. unfold listProjects. rewrite bind_failIf. destruct (_ != _); [done|].
    destruct (cf_Begin f), (cf_Statement f), (cf_Commit f); try done. intros [= <-]. rewrite length_take. destruct (_ || _) eqn:E; lia.
  - intros f page Hne. unfold listProjects. rewrite bind_failIf, (bool_decide_eq_false_2 (_ = _)) by done. cbn [negb]. eauto.
Qed.
End Operations.

(** ** Examples *)

#[local] Existing Instance rfcUUIDs.

Definition acmeTenant : Tenant :=
  {| tn_ID := exampleTenant; tn_Slug := "acme"; tn_Name := "Acme"; tn_CreatedAt := 1700000000000000001; tn_UpdatedAt := 1700000000000000001 |}.
Definition siteInput : CreateInput := {| ci_Name := " site "; ci_RepositoryURL := "https://git.example/site" |}.
Definition docsInput : CreateInput := {| ci_Name := "docs"; ci_RepositoryURL := EmptyString |}.

Definition exampleProvisioned : Catalogue := (createTenant noCallFaults acmeTenant emptyCatalogue).2.
Definition exampleFirst : Catalogue :=
  (CreateProject noCallFaults (Ok (exampleV7 8)) exampleTenant siteInput 1700000001000000001 exampleProvisioned).2.
Definition exampleCatalogue : Catalogue :=
  (CreateProject noCallFaults (Ok (exampleV7 9)) exampleTenant docsInput 1700000002000000001 exampleFirst).2.

Lemma exampleCatalogue_reached : rtc catalogueStep emptyCatalogue exampleCatalogue.
Proof.
  eapply rtc_l; [by apply (StepTenant noCallFaults (Ok exampleTenant) " ACME" "Acme " 1700000000000000001 acmeTenant)|].
  eapply rtc_l; [apply (StepProject noCallFaults (Ok (exampleV7 8)) exampleTenant siteInput 1700000001000000001)|].
  eapply rtc_l; [apply (StepProject noCallFaults (Ok (exampleV7 9)) exampleTenant docsInput 1700000002000000001)|]. apply rtc_refl.
Qed.

(** The second project of the same name is a conflict, a project of an unknown tenant
    has no home, and a new name is created and found by its tenant only. *)
Lemma project_catalogue_witness :
  (CreateProject noCallFaults (Ok (exampleV7 10)) exampleTenant docsInput 1700000003000000001 exampleCatalogue = (Err ErrConflict, exampleCatalogue)) /\
  (CreateProject noCallFaults (Ok (exampleV7 10)) (exampleV7 99) docsInput 1700000003000000001 exampleCatalogue = (Err ErrNotFound, exampleCatalogue)) /\
  projectExists exampleTenant (exampleV7 8) (ct_DB exampleCatalogue) = Ok tt /\
  GetProject noCallFaults (exampleV7 99) (exampleV7 9) exampleCatalogue = Err ErrNotFound.
Proof.
  destruct (project_catalogue exampleCatalogue exampleCatalogue_reached) as (_ & Hc & _ & _ & _ & He & _).
  assert (Hacc : acceptable exampleTenant docsInput /\ acceptable (exampleV7 99) docsInput) by (by vm_compute).
  split_and!.
  - apply (Hc (exampleV7 10) exampleTenant docsInput 1700000003000000001); [apply Hacc|by vm_compute..|].
    exists (exampleV7 9). eexists. split; [by vm_compute|by vm_compute].
  - apply (Hc (exampleV7 10) (exampleV7 99) docsInput 1700000003000000001); [apply Hacc|by vm_compute..| |by vm_compute].
    assert (Hall : map_Forall (fun _ p => pj_TenantID p = exampleTenant) (ct_Projects exampleCatalogue)) by (apply (bool_decide_unpack _); by vm_compute).
    intros (id & p & Hp & Ht & _). rewrite (Hall _ _ Hp) in Ht. by vm_compute in Ht.
  - apply He. eexists. by vm_compute.
  - destruct (project_catalogue exampleFirst) as (_ & _ & Hnew & _).
    { eapply rtc_l; [by apply (StepTenant noCallFaults (Ok exampleTenant) " ACME" "Acme " 1700000000000000001 acmeTenant)|].
      eapply rtc_l; [apply (StepProject noCallFaults (Ok (exampleV7 8)) exampleTenant siteInput 1700000001000000001)|]. apply rtc_refl. }
    assert (Hmk : CreateProject noCallFaults (Ok (exampleV7 9)) exampleTenant docsInput 1700000002000000001 exampleFirst =
      (Ok (newProject (exampleV7 9) exampleTenant docsInput 1700000002000000001), exampleCatalogue))
      by (apply injective_projections; [by vm_compute|reflexivity]).
    destruct (Hnew _ _ _ _ _ _ _ Hmk) as (_ & _ & _ & _ & Ho & _). apply Ho. by vm_compute.
Defined.

(** Pages of one project each read both, the newer one first. *)
Lemma projects_listed_witness :
  exists projects, followProjects 3 exampleTenant 1 None exampleCatalogue = Some projects /\ pj_Name <$> projects = ["docs"; "site"] /\ NoDup (pj_ID <$> projects).
Proof.
  destruct (projects_listed exampleCatalogue exampleTenant 1 exampleCatalogue_reached) as ((projects & Hf & _ & Hn & _) & _).
  assert (Hp : followProjects 3 exampleTenant 1 None exampleCatalogue = Some projects).
  { rewrite <-Hf. revert Hf. generalize (S (length projects)) as fuel. intros fuel. destruct fuel as [|[|[|fuel]]]; by vm_compute. }
  exists projects. split; [exact Hp|]. split; [|exact Hn]. revert Hp. vm_compute. by intros [= <-].
Defined.
