(* ===== verification/DeepCopy.v ===== *)
(** * Deep copies of AgentRun objects (operator/api/v1alpha1/zz_generated.deepcopy.go)

    The controller takes a copy of an object before it changes the object in place, and
    compares and patches against the copy. That works only when the two share nothing.
    Here objects live in a heap: pointers are locations, and a slice is a window of an
    array in the heap. [DeepCopies] states what a type's DeepCopyInto promises: the copy
    has the value of the original, nil pointers and slices included, and reaches only
    locations that did not exist before. The functions of the generated file are
    translated field by field and shown to keep the promise; those of
    k8s.io/apimachinery (ObjectMeta, ListMeta) are assumed to.

    [deep_copy_independent] draws the conclusion for whole objects and lists. *)

From S2P Require Import Prelude AgentRun OpTypes.

(** ** The types, over the representation of pointers [P] and slices [S] *)

Record RetryPolicyOf (S : Type -> Type) := {
  yr_MaxAttempts : Z;
  yr_InitialBackoffSeconds : Z;
  yr_MaxBackoffSeconds : Z;
  yr_RetryableFailureCategories : S FailureCategory;
}.

Record NetworkSpecOf (P : Type -> Type) := {
  yn_Profile : NetworkProfile;
  yn_AllowedDestinationsRef : P string;
}.

Record AgentRunSpecOf (P S : Type -> Type) := {
  yp_TenantID : string;
  yp_ProjectID : string;
  yp_RunID : string;
  yp_AttemptID : string;
  yp_Attempt : Z;
  yp_RunnerImage : string;
  yp_Runtime : string;
  yp_ExecutionProfile : string;
  yp_TaskRef : string;
  yp_TimeoutSeconds : Z;
  yp_RetryPolicy : RetryPolicyOf S;
  yp_Resources : ResourceRequirements;
  yp_Workspace : WorkspaceSpec;
  yp_Network : NetworkSpecOf P;
  yp_ArtifactDestinationRef : string;
  yp_ConfigurationRefs : S string;
  yp_SecretRefs : S string;
  yp_DeployOnSuccess : bool;
  yp_DesiredState : DesiredState;
}.

Record AttemptStatusOf (P : Type -> Type) := {
  ya_Attempt : Z;
  ya_JobName : string;
  ya_PodName : string;
  ya_Phase : AgentRunPhase;
  ya_StartTime : P Time;
  ya_CompletionTime : P Time;
  ya_FailureCategory : FailureCategory;
  ya_FailureReason : string;
  ya_ArtifactManifestRef : string;
}.

Record AgentRunStatusOf (P S : Type -> Type) := {
  ys_Phase : AgentRunPhase;
  ys_ObservedGeneration : Z;
  ys_Attempt : Z;
  ys_Namespace : string;
  ys_JobName : string;
  ys_PodName : string;
  ys_StartTime : P Time;
  ys_CompletionTime : P Time;
  ys_HeartbeatTime : P Time;
  ys_FailureCategory : FailureCategory;
  ys_FailureReason : string;
  ys_ArtifactManifestRef : string;
  ys_Attempts : S (AttemptStatusOf P);
  ys_Conditions : S Condition;
}.

(** [Meta] is metav1.ObjectMeta; TypeMeta is the pair of its strings. *)
Record AgentRunOf (P S : Type -> Type) (Meta : Type) := {
  yo_TypeMeta : string * string;
  yo_ObjectMeta : Meta;
  yo_Spec : AgentRunSpecOf P S;
  yo_Status : AgentRunStatusOf P S;
}.

Record AgentRunListOf (P S : Type -> Type) (Meta List : Type) := {
  yl_TypeMeta : string * string;
  yl_ListMeta : List;
  yl_Items : S (AgentRunOf P S Meta);
}.

Arguments yr_MaxAttempts {S}. Arguments yr_InitialBackoffSeconds {S}. Arguments yr_MaxBackoffSeconds {S}.
Arguments yr_RetryableFailureCategories {S}. Arguments Build_RetryPolicyOf {S}.
Arguments yn_Profile {P}. Arguments yn_AllowedDestinationsRef {P}. Arguments Build_NetworkSpecOf {P}.
Arguments yp_TenantID {P S}. Arguments yp_ProjectID {P S}. Arguments yp_RunID {P S}. Arguments yp_AttemptID {P S}.
Arguments yp_Attempt {P S}. Arguments yp_RunnerImage {P S}. Arguments yp_Runtime {P S}. Arguments yp_ExecutionProfile {P S}.
Arguments yp_TaskRef {P S}. Arguments yp_TimeoutSeconds {P S}. Arguments yp_RetryPolicy {P S}. Arguments yp_Resources {P S}.
Arguments yp_Workspace {P S}. Arguments yp_Network {P S}. Arguments yp_ArtifactDestinationRef {P S}.
Arguments yp_ConfigurationRefs {P S}. Arguments yp_SecretRefs {P S}. Arguments yp_DeployOnSuccess {P S}.
Arguments yp_DesiredState {P S}. Arguments Build_AgentRunSpecOf {P S}.
Arguments ya_Attempt {P}. Arguments ya_JobName {P}. Arguments ya_PodName {P}. Arguments ya_Phase {P}. Arguments ya_StartTime {P}.
Arguments ya_CompletionTime {P}. Arguments ya_FailureCategory {P}. Arguments ya_FailureReason {P}.
Arguments ya_ArtifactManifestRef {P}. Arguments Build_AttemptStatusOf {P}.
Arguments ys_Phase {P S}. Arguments ys_ObservedGeneration {P S}. Arguments ys_Attempt {P S}. Arguments ys_Namespace {P S}.
Arguments ys_JobName {P S}. Arguments ys_PodName {P S}. Arguments ys_StartTime {P S}. Arguments ys_CompletionTime {P S}.
Arguments ys_HeartbeatTime {P S}. Arguments ys_FailureCategory {P S}. Arguments ys_FailureReason {P S}.
Arguments ys_ArtifactManifestRef {P S}. Arguments ys_Attempts {P S}. Arguments ys_Conditions {P S}.
Arguments Build_AgentRunStatusOf {P S}.
Arguments yo_TypeMeta {P S Meta}. Arguments yo_ObjectMeta {P S Meta}. Arguments yo_Spec {P S Meta}. Arguments yo_Status {P S Meta}.
Arguments Build_AgentRunOf {P S Meta}.
Arguments yl_TypeMeta {P S Meta List}. Arguments yl_ListMeta {P S Meta List}. Arguments yl_Items {P S Meta List}.
Arguments Build_AgentRunListOf {P S Meta List}.

#[export] Instance RetryPolicyOf_settable S : Settable (RetryPolicyOf S) := fun s =>
  Build_RetryPolicyOf (yr_MaxAttempts s) (yr_InitialBackoffSeconds s) (yr_MaxBackoffSeconds s) (yr_RetryableFailureCategories s).
#[export] Instance NetworkSpecOf_settable P : Settable (NetworkSpecOf P) := fun s =>
  Build_NetworkSpecOf (yn_Profile s) (yn_AllowedDestinationsRef s).
#[export] Instance AgentRunSpecOf_settable P S : Settable (AgentRunSpecOf P S) := fun s =>
  Build_AgentRunSpecOf (yp_TenantID s) (yp_ProjectID s) (yp_RunID s) (yp_AttemptID s) (yp_Attempt s) (yp_RunnerImage s)
    (yp_Runtime s) (yp_ExecutionProfile s) (yp_TaskRef s) (yp_TimeoutSeconds s) (yp_RetryPolicy s) (yp_Resources s)
    (yp_Workspace s) (yp_Network s) (yp_ArtifactDestinationRef s) (yp_ConfigurationRefs s) (yp_SecretRefs s)
    (yp_DeployOnSuccess s) (yp_DesiredState s).
#[export] Instance AttemptStatusOf_settable P : Settable (AttemptStatusOf P) := fun s =>
  Build_AttemptStatusOf (ya_Attempt s) (ya_JobName s) (ya_PodName s) (ya_Phase s) (ya_StartTime s) (ya_CompletionTime s)
    (ya_FailureCategory s) (ya_FailureReason s) (ya_ArtifactManifestRef s).
#[export] Instance AgentRunStatusOf_settable P S : Settable (AgentRunStatusOf P S) := fun s =>
  Build_AgentRunStatusOf (ys_Phase s) (ys_ObservedGeneration s) (ys_Attempt s) (ys_Namespace s) (ys_JobName s) (ys_PodName s)
    (ys_StartTime s) (ys_CompletionTime s) (ys_HeartbeatTime s) (ys_FailureCategory s) (ys_FailureReason s)
    (ys_ArtifactManifestRef s) (ys_Attempts s) (ys_Conditions s).
#[export] Instance AgentRunOf_settable P S Meta : Settable (AgentRunOf P S Meta) := fun s =>
  Build_AgentRunOf (yo_TypeMeta s) (yo_ObjectMeta s) (yo_Spec s) (yo_Status s).
#[export] Instance AgentRunListOf_settable P S Meta List : Settable (AgentRunListOf P S Meta List) := fun s =>
  Build_AgentRunListOf (yl_TypeMeta s) (yl_ListMeta s) (yl_Items s).

(** ** Memory *)

Notation Loc := nat (only parsing).

(** A slice: its array, where it starts, and its length. *)
Record Slice := {
  sl_Loc : Loc;
  sl_Off : nat;
  sl_Len : nat;
}.

(** In memory a pointer is nil or a location; by value it is nil or what it points to. *)
Definition memPtr (T : Type) : Type := option Loc.
Definition memSlice (T : Type) : Type := option Slice.
Definition valPtr (T : Type) : Type := option T.
Definition valSlice (T : Type) : Type := option (list T).

Notation MemAttempt := (AttemptStatusOf memPtr).
Notation MemRun Meta := (AgentRunOf memPtr memSlice Meta).

(** What a location holds: a struct or a time a pointer refers to, an array of a slice,
    or something of the metadata, whose representation [Foreign] is not known. *)
Inductive Cell (Meta ListMeta Foreign : Type) :=
| TimeCell (t : Time)
| ReferenceCell (r : string)
| ReferencesCell (l : list string)
| CategoriesCell (l : list FailureCategory)
| ConditionsCell (l : list Condition)
| AttemptsCell (l : list MemAttempt)
| RunsCell (l : list (MemRun Meta))
| RetryPolicyCell (r : RetryPolicyOf memSlice)
| ValuesCell (r : ResourceValues)
| RequirementsCell (r : ResourceRequirements)
| WorkspaceCell (w : WorkspaceSpec)
| NetworkCell (n : NetworkSpecOf memPtr)
| SpecCell (s : AgentRunSpecOf memPtr memSlice)
| AttemptCell (a : MemAttempt)
| StatusCell (s : AgentRunStatusOf memPtr memSlice)
| RunCell (r : MemRun Meta)
| RunListCell (l : AgentRunListOf memPtr memSlice Meta ListMeta)
| ForeignCell (f : Foreign).
Arguments TimeCell {_ _ _}. Arguments ReferenceCell {_ _ _}. Arguments ReferencesCell {_ _ _}.
Arguments CategoriesCell {_ _ _}. Arguments ConditionsCell {_ _ _}. Arguments AttemptsCell {_ _ _}.
Arguments RunsCell {_ _ _}. Arguments RetryPolicyCell {_ _ _}. Arguments ValuesCell {_ _ _}.
Arguments RequirementsCell {_ _ _}. Arguments WorkspaceCell {_ _ _}. Arguments NetworkCell {_ _ _}.
Arguments SpecCell {_ _ _}. Arguments AttemptCell {_ _ _}. Arguments StatusCell {_ _ _}. Arguments RunCell {_ _ _}.
Arguments RunListCell {_ _ _}. Arguments ForeignCell {_ _ _}.

Section Memory.
Context {Meta ListMeta Foreign : Type}.
Notation Heap := (gmap Loc (Cell Meta ListMeta Foreign)).

(** Computations on the heap; [None] is a read of a location that holds nothing, or
    something else. *)
Definition Mem (A : Type) : Type := Heap -> option (A * Heap).
#[local] Instance Mem_ret : MRet Mem := fun A a h => Some (a, h).
#[local] Instance Mem_bind : MBind Mem := fun A B f m h => '(a, h') ← m h; f a h'.

(** The cells of one type. *)
Class CellOf (A : Type) := {
  inject : A -> Cell Meta ListMeta Foreign;
  project : Cell Meta ListMeta Foreign -> option A;
  project_inject : forall a, project (inject a) = Some a;
}.

Definition readAt {A} `{CellOf A} (h : Heap) (l : Loc) : option A := h !! l ≫= project.
Definition read {A} `{CellOf A} (l : Loc) : Mem A := fun h => a ← readAt h l; Some (a, h).
Definition write {A} `{CellOf A} (l : Loc) (a : A) : Mem unit := fun h => Some (tt, <[l := inject a]> h).
Definition alloc {A} `{CellOf A} (a : A) : Mem Loc := fun h => Some (fresh (dom h), <[fresh (dom h) := inject a]> h).

(** What DeepCopyInto of a type promises. [load] is the value of an object in a heap,
    [refs] the locations it reaches. *)
Class DeepCopies (A V : Type) := {
  load : Heap -> A -> option V;
  refs : Heap -> A -> gset Loc;
  DeepCopyInto : A -> Mem A;
  load_local : forall h h' a, (forall l, l ∈ refs h a -> h' !! l = h !! l) -> load h' a = load h a /\ refs h' a = refs h a;
  load_defined : forall h a v, load h a = Some v -> refs h a ⊆ dom h;
  copy_fresh : forall h a v, load h a = Some v ->
    exists a' h', DeepCopyInto a h = Some (a', h') /\ h ⊆ h' /\ load h' a' = Some v /\ refs h' a' ## dom h;
}.

(** ** Pointers and slices *)

(** The zero value [make] fills an array with. *)
Class Zero (A : Type) := zero : A.

Definition ptrLoad {A} `{CellOf A} (h : Heap) (p : memPtr A) : option (valPtr A) :=
  match p with None => Some None | Some l => Some <$> readAt h l end.

Definition ptrRefs {A} (h : Heap) (p : memPtr A) : gset Loc := match p with None => ∅ | Some l => {[l]} end.

(** [*out = new(T); **out = **in], which is also what metav1.Time.DeepCopy does. *)
Definition ptrCopy {A} `{CellOf A} (p : memPtr A) : Mem (memPtr A) :=
  match p with
  | None => mret None
  | Some l => a ← read l; l' ← alloc a; mret (Some l')
  end.

Definition window {A} (s : Slice) (array : list A) : list A := take (sl_Len s) (drop (sl_Off s) array).
Definition inBounds {A} (s : Slice) (array : list A) : bool := (sl_Off s + sl_Len s <=? length array)%nat.

Definition arrayOf {A} `{CellOf (list A)} (h : Heap) (s : Slice) : option (list A) :=
  array ← readAt h (sl_Loc s); if inBounds s array then Some (window s array) else None.

Definition sliceLoad {A} `{CellOf (list A)} (h : Heap) (p : memSlice A) : option (valSlice A) :=
  match p with None => Some None | Some s => Some <$> arrayOf h s end.

Definition sliceRefs {A} (h : Heap) (p : memSlice A) : gset Loc := match p with None => ∅ | Some s => {[sl_Loc s]} end.

Definition whole (l : Loc) (n : nat) : Slice := {| sl_Loc := l; sl_Off := 0; sl_Len := n |}.

(** [*out = make([]T, len(in)); copy(out, in)] *)
Definition sliceCopy {A} `{CellOf (list A)} `{Zero A} (p : memSlice A) : Mem (memSlice A) :=
  match p with
  | None => mret None
  | Some s =>
      l' ← alloc (replicate (sl_Len s) zero);
      array ← read (sl_Loc s);
      _ ← write l' (window s array);
      mret (Some (whole l' (sl_Len s)))
  end.

(** [array[k]] *)
Definition element {A} (array : list A) (k : nat) : Mem A := fun h => a ← array !! k; Some (a, h).

(** [for i := range in { in[i].DeepCopyInto(&out[i]) }], from [i] on. *)
Fixpoint copyLoop {A V} `{DeepCopies A V} `{CellOf (list A)} (s : Slice) (out : Loc) (i n : nat) : Mem unit :=
  match n with
  | O => mret tt
  | S n =>
      source ← read (sl_Loc s);
      x ← element source (sl_Off s + i);
      x' ← DeepCopyInto x;
      target ← read out;
      _ ← write out (<[i := x']> target);
      copyLoop s out (S i) n
  end.

Definition sliceDeepLoad {A V} `{DeepCopies A V} `{CellOf (list A)} (h : Heap) (p : memSlice A) : option (valSlice V) :=
  match p with None => Some None | Some s => l ← arrayOf h s; Some <$> mapM (load h) l end.

Definition sliceDeepRefs {A V} `{DeepCopies A V} `{CellOf (list A)} (h : Heap) (p : memSlice A) : gset Loc :=
  match p with None => ∅ | Some s => {[sl_Loc s]} ∪ ⋃ (refs h <$> default [] (arrayOf h s)) end.

Definition sliceDeepCopy {A V} `{DeepCopies A V} `{CellOf (list A)} `{Zero A} (p : memSlice A) : Mem (memSlice A) :=
  match p with
  | None => mret None
  | Some s =>
      l' ← alloc (replicate (sl_Len s) zero);
      _ ← copyLoop s l' 0 (sl_Len s);
      mret (Some (whole l' (sl_Len s)))
  end.

(** ** Laws *)

Lemma subseteq_lookup (h h' : Heap) l c : h ⊆ h' -> h !! l = Some c -> h' !! l = Some c.
Proof. intros Hs Hl. by eapply lookup_weaken. Qed.

Lemma agree_on_dom (h h' : Heap) (X : gset Loc) : h ⊆ h' -> X ⊆ dom h -> forall l, l ∈ X -> h' !! l = h !! l.
Proof. intros Hs Hx l Hl. apply Hx, elem_of_dom in Hl as [c Hc]. rewrite Hc. by eapply subseteq_lookup. Qed.

Lemma load_mono {A V} `{DeepCopies A V} h h' a v :
  load h a = Some v -> h ⊆ h' -> load h' a = Some v /\ refs h' a = refs h a.
Proof.
  intros Hl Hs. destruct (load_local h h' a) as [-> ->]; [|done]. apply agree_on_dom; [done|by eapply load_defined].
Qed.

Lemma readAt_mono {A} `{CellOf A} (h h' : Heap) l (a : A) : readAt h l = Some a -> h ⊆ h' -> readAt h' l = Some a.
Proof. unfold readAt. intros (c & Hc & Hp)%bind_Some Hs. by rewrite (subseteq_lookup _ _ _ _ Hs Hc). Qed.

Lemma readAt_insert {A} `{CellOf A} (h : Heap) l (a : A) : readAt (<[l := inject a]> h) l = Some a.
Proof. unfold readAt. rewrite lookup_insert_eq. apply project_inject. Qed.

Lemma readAt_dom {A} `{CellOf A} (h : Heap) l (a : A) : readAt h l = Some a -> l ∈ dom h.
Proof. unfold readAt. intros (c & Hc & _)%bind_Some. by eapply elem_of_dom_2. Qed.

Lemma fresh_not_dom (h : Heap) : fresh (dom h) ∉ dom h.
Proof. apply is_fresh. Qed.

Lemma alloc_extends (h : Heap) c : h ⊆ <[fresh (dom h) := c]> h.
Proof. apply insert_subseteq, not_elem_of_dom, fresh_not_dom. Qed.

Lemma window_whole {A} l (array : list A) : window (whole l (length array)) array = array.
Proof. unfold window. simpl. by rewrite drop_0, firstn_all. Qed.

Lemma arrayOf_whole {A} `{CellOf (list A)} h l (array : list A) :
  readAt h l = Some array -> arrayOf h (whole l (length array)) = Some array.
Proof.
  unfold arrayOf. cbn [sl_Loc whole]. intros ->. cbn [mbind option_bind]. unfold inBounds. cbn [sl_Off sl_Len whole].
  by rewrite Nat.add_0_l, Nat.leb_refl, window_whole.
Qed.

Lemma length_window {A} s (array : list A) : inBounds s array = true -> length (window s array) = sl_Len s.
Proof. unfold inBounds, window. rewrite Nat.leb_le, length_take, length_drop. lia. Qed.

#[local] Obligation Tactic := idtac.

Program Definition ptrCopies {A} `{CellOf A} : DeepCopies (memPtr A) (valPtr A) :=
  {| load := ptrLoad; refs := ptrRefs; DeepCopyInto := ptrCopy |}.
Next Obligation.
  intros A ? h h' [l|] Hl; [|done]. split; [|done]. cbn. unfold readAt. by rewrite Hl by (cbn; set_solver).
Qed.
Next Obligation.
  intros A ? h [l|] v; cbn; [|set_solver]. intros (a & Ha%readAt_dom & _)%fmap_Some. set_solver.
Qed.
Next Obligation.
  intros A ? h [l|] v; cbn; [|intros [= <-]; exists None, h; split_and!; [done..|set_solver]].
  intros (a & Ha & ->)%fmap_Some. unfold ptrCopy, mbind, Mem_bind, read. cbn. rewrite Ha. cbn.
  do 2 eexists. split; [reflexivity|]. split; [apply alloc_extends|]. cbn. rewrite readAt_insert. split; [done|].
  pose proof (fresh_not_dom h). set_solver.
Qed.

Program Definition sliceCopies {A} `{CellOf (list A)} `{Zero A} : DeepCopies (memSlice A) (valSlice A) :=
  {| load := sliceLoad; refs := sliceRefs; DeepCopyInto := sliceCopy |}.
Next Obligation.
  intros A ? ? h h' [s|] Hl; [|done]. split; [|done]. cbn. unfold arrayOf, readAt. by rewrite Hl by (cbn; set_solver).
Qed.
Next Obligation.
  intros A ? ? h [s|] v; cbn; [|set_solver]. intros (l & (array & Ha%readAt_dom & _)%bind_Some & _)%fmap_Some. set_solver.
Qed.
Next Obligation.
  intros A ? ? h [s|] v; cbn; [|intros [= <-]; exists None, h; split_and!; [done..|set_solver]].
  intros (l & (array & Ha & Hb)%bind_Some & ->)%fmap_Some. destruct (inBounds s array) eqn:Hin; [|done]. injection Hb as <-.
  unfold sliceCopy, mbind, Mem_bind, read, alloc, write. cbn.
  rewrite (readAt_mono _ _ _ _ Ha (alloc_extends h _)). cbn. do 2 eexists. split; [reflexivity|].
  rewrite insert_insert_eq. split; [apply alloc_extends|]. pose proof (fresh_not_dom h). split; [|cbn; set_solver].
  cbn. rewrite <-(length_window s array Hin). by rewrite arrayOf_whole by apply readAt_insert.
Qed.

(** ** Slices of structs *)

Section DeepSlice.
Context {A V : Type} `{HA : DeepCopies A V} `{CA : CellOf (list A)} `{ZA : Zero A}.

(** The elements of [out] before [i] are copies, apart from [h0] and from [out] itself. *)
Definition copied (h0 h : Heap) (out : Loc) (vs : list V) (i : nat) (target : list A) : Prop :=
  forall j x, (j < i)%nat -> target !! j = Some x ->
    (exists v, vs !! j = Some v /\ load h x = Some v) /\ refs h x ## {[out]} ∪ dom h0.

Lemma copied_step h0 h h1 out vs i target x' v :
  h0 ⊆ h -> h ⊆ h1 -> out ∈ dom h -> copied h0 h out vs i target -> vs !! i = Some v ->
  load h1 x' = Some v -> refs h1 x' ## dom h ->
  copied h0 (<[out := inject (<[i := x']> target)]> h1) out vs (S i) (<[i := x']> target).
Proof.
  intros Hh Hs Hout Hc Hv Hx Hf j x Hj Hlook.
  assert (Hd0 : dom h0 ⊆ dom h) by (by apply subseteq_dom).
  apply list_lookup_insert_Some in Hlook as [(<- & <- & _)|[Hne Hlook]].
  - destruct (load_local h1 (<[out := inject (<[i := x']> target)]> h1) x') as [Hl Hr].
    { intros l Hl. apply lookup_insert_ne. set_solver. }
    rewrite Hl, Hr. split; [eauto|set_solver].
  - destruct (Hc j x) as [(w & Hw & Hlx) Hdis]; [lia|done|].
    destruct (load_local h (<[out := inject (<[i := x']> target)]> h1) x) as [Hl Hr].
    { intros l Hl. rewrite lookup_insert_ne by set_solver. eapply agree_on_dom; [done|by eapply load_defined|done]. }
    rewrite Hl, Hr. eauto.
Qed.

Lemma copyLoop_ok h0 s out array vs :
  readAt h0 (sl_Loc s) = Some array -> inBounds s array = true -> mapM (load h0) (window s array) = Some vs -> out ∉ dom h0 ->
  forall n i h target, (i + n = sl_Len s)%nat -> h0 ⊆ h -> readAt h out = Some target -> length target = sl_Len s ->
  copied h0 h out vs i target ->
  exists h' target', copyLoop s out i n h = Some (tt, h') /\ h0 ⊆ h' /\ readAt h' out = Some target' /\
    length target' = sl_Len s /\ copied h0 h' out vs (sl_Len s) target'.
Proof.
  intros Ha Hin Hvs Hout. induction n as [|n IH]; intros i h target Hn Hh Ht Hlen Hc.
  - exists h, target. replace (sl_Len s) with i by lia. split_and!; try done. lia.
  - assert (exists x v, array !! (sl_Off s + i)%nat = Some x /\ vs !! i = Some v /\ load h0 x = Some v) as (x & v & Hx & Hv & Hlx).
    { apply mapM_Some in Hvs. destruct (lookup_lt_is_Some_2 (window s array) i) as [x Hx]; [rewrite length_window by done; lia|].
      destruct (Forall2_lookup_l _ _ _ _ _ Hvs Hx) as (v & Hv & Hlx). exists x, v. split_and!; try done.
      unfold window in Hx. apply lookup_take_Some in Hx as [Hx _]. by rewrite lookup_drop in Hx. }
    destruct (load_mono h0 h x v Hlx Hh) as [Hlx' _]. destruct (copy_fresh h x v Hlx') as (x' & h1 & Hcp & Hs & Hl' & Hf).
    cbn [copyLoop]. unfold mbind, Mem_bind, read, element, write. cbn.
    rewrite (readAt_mono _ _ _ _ Ha Hh). cbn. rewrite Hx. cbn. rewrite Hcp. cbn. rewrite (readAt_mono _ _ _ _ Ht Hs). cbn.
    eapply (IH (S i) _ (<[i := x']> target)); [lia| |apply readAt_insert|by rewrite length_insert|].
    + apply insert_subseteq_r; [by apply not_elem_of_dom|by transitivity h].
    + eapply copied_step; eauto. by eapply readAt_dom.
Qed.

Lemma copied_loads h0 h out vs target :
  length target = length vs -> copied h0 h out vs (length target) target -> mapM (load h) target = Some vs /\ ⋃ (refs h <$> target) ## dom h0.
Proof.
  intros Hlen Hc. split.
  - apply mapM_Some, Forall2_same_length_lookup. split; [done|]. intros j x v Hx Hv.
    destruct (Hc j x) as [(w & Hw & Hl) _]; [by eapply lookup_lt_Some|done|]. congruence.
  - apply elem_of_disjoint. intros l (X & HX & Hl)%elem_of_union_list Hd0. apply list_elem_of_fmap in HX as (x & -> & [j Hj]%list_elem_of_lookup).
    destruct (Hc j x) as [_ Hd]; [by eapply lookup_lt_Some|done|]. set_solver.
Qed.

Lemma refs_in_slice h s l x : arrayOf h s = Some l -> x ∈ l -> refs h x ⊆ sliceDeepRefs h (Some s).
Proof.
  intros Ha Hx. unfold sliceDeepRefs. rewrite Ha. cbn [default from_option]. apply union_subseteq_r'.
  intros k Hk. apply elem_of_union_list. exists (refs h x). split; [by apply list_elem_of_fmap_2|done].
Qed.

Lemma sliceDeep_local h h' (p : memSlice A) : (forall l, l ∈ sliceDeepRefs h p -> h' !! l = h !! l) ->
  sliceDeepLoad h' p = sliceDeepLoad h p /\ sliceDeepRefs h' p = sliceDeepRefs h p.
Proof.
  destruct p as [s|]; [|done]. intros Hag.
  assert (Ha : arrayOf h' s = arrayOf h s) by (unfold arrayOf, readAt; by rewrite Hag by (cbn; set_solver)).
  cbn. rewrite Ha. destruct (arrayOf h s) as [l|] eqn:Hl; [|done]. cbn.
  assert (Hall : Forall (fun x => load h' x = load h x /\ refs h' x = refs h x) l).
  { apply Forall_forall. intros x Hx. apply load_local. intros k Hk. apply Hag. by eapply refs_in_slice. }
  assert (mapM (load h') l = mapM (load h) l /\ refs h' <$> l = refs h <$> l) as [-> ->]; [|done].
  clear -Hall. induction Hall as [|x l [Hx Hr] _ [IH1 IH2]]; [done|]. cbn. by rewrite Hx, Hr, IH1, IH2.
Qed.

Lemma sliceDeep_defined h (p : memSlice A) v : sliceDeepLoad h p = Some v -> sliceDeepRefs h p ⊆ dom h.
Proof.
  destruct p as [s|]; cbn; [|set_solver]. destruct (arrayOf h s) as [l|] eqn:Ha; [|done]. cbn. intros (vs & Hvs & _)%fmap_Some.
  apply mapM_Some in Hvs. apply union_subseteq. split.
  - unfold arrayOf in Ha. apply bind_Some in Ha as (array & Hr%readAt_dom & _). set_solver.
  - intros k (X & HX & Hk)%elem_of_union_list. apply list_elem_of_fmap in HX as (x & -> & [j Hj]%list_elem_of_lookup).
    destruct (Forall2_lookup_l _ _ _ _ _ Hvs Hj) as (w & _ & Hw). by eapply load_defined.
Qed.

Lemma sliceDeep_fresh h (p : memSlice A) v : sliceDeepLoad h p = Some v ->
  exists p' h', sliceDeepCopy p h = Some (p', h') /\ h ⊆ h' /\ sliceDeepLoad h' p' = Some v /\ sliceDeepRefs h' p' ## dom h.
Proof.
  destruct p as [s|]; cbn [sliceDeepLoad]; [|intros [= <-]; exists None, h; split_and!; [done..|set_solver]].
  intros (l & (array & Ha & Hb)%bind_Some & (vs & Hvs & ->)%fmap_Some)%bind_Some. destruct (inBounds s array) eqn:Hin; [|done]. injection Hb as <-.
  destruct (copyLoop_ok h s (fresh (dom h)) array vs Ha Hin Hvs (fresh_not_dom h) (sl_Len s) 0 (<[fresh (dom h) := inject (replicate (sl_Len s) zero)]> h)
    (replicate (sl_Len s) zero)) as (h' & target & Hloop & Hs & Ht & Hlen & Hc);
    [lia|apply alloc_extends|apply readAt_insert|by rewrite length_replicate|intros j x Hj; lia|].
  assert (Hv : length target = length vs) by (rewrite Hlen, <-(length_window s array Hin); by eapply Forall2_length, mapM_Some_1).
  rewrite <-Hlen in Hc. destruct (copied_loads _ _ _ _ _ Hv Hc) as [Hload Hdis].
  exists (Some (whole (fresh (dom h)) (sl_Len s))), h'. unfold sliceDeepCopy, mbind, Mem_bind, alloc. cbn. rewrite Hloop. cbn.
  split_and!; [done|done| |].
  - rewrite <-Hlen, (arrayOf_whole _ _ _ Ht). cbn. by rewrite Hload.
  - rewrite <-Hlen, (arrayOf_whole _ _ _ Ht). cbn. pose proof (fresh_not_dom h). set_solver.
Qed.

Definition sliceDeepCopies : DeepCopies (memSlice A) (valSlice V) :=
  {| load := sliceDeepLoad; refs := sliceDeepRefs; DeepCopyInto := sliceDeepCopy;
     load_local := sliceDeep_local; load_defined := sliceDeep_defined; copy_fresh := sliceDeep_fresh |}.
End DeepSlice.

(** ** Pointers to structs *)

Section DeepPointer.
Context {A V : Type} `{HA : DeepCopies A V} `{CA : CellOf A} `{ZA : Zero A}.

Definition deepLoad (h : Heap) (p : memPtr A) : option (valPtr V) :=
  match p with None => Some None | Some l => a ← readAt h l; Some <$> load h a end.

Definition deepRefs (h : Heap) (p : memPtr A) : gset Loc :=
  match p with None => ∅ | Some l => {[l]} ∪ default ∅ (refs h <$> readAt h l) end.

(** [DeepCopy]: nil, or a new struct that DeepCopyInto fills. *)
Definition DeepCopy (p : memPtr A) : Mem (memPtr A) :=
  match p with
  | None => mret None
  | Some l =>
      out ← alloc zero;
      a ← read l;
      a' ← DeepCopyInto a;
      _ ← write out a';
      mret (Some out)
  end.

Lemma deep_fresh h l v : deepLoad h (Some l) = Some v ->
  exists l' h', DeepCopy (Some l) h = Some (Some l', h') /\ h ⊆ h' /\ deepLoad h' (Some l') = Some v /\ deepRefs h' (Some l') ## dom h.
Proof.
  cbn [deepLoad]. intros (a & Ha & (w & Hw & ->)%fmap_Some)%bind_Some. set (out := fresh (dom h)). set (h1 := <[out := inject zero]> h).
  pose proof (fresh_not_dom h) as Hnew. fold out in Hnew. assert (Hs1 : h ⊆ h1) by apply alloc_extends.
  destruct (load_mono h h1 a w Hw Hs1) as [Hw1 _]. destruct (copy_fresh h1 a w Hw1) as (a' & h2 & Hc & Hs2 & Hw2 & Hd).
  exists out, (<[out := inject a']> h2). unfold DeepCopy, mbind, Mem_bind, alloc, read, write. fold out. cbn. fold h1.
  rewrite (readAt_mono _ _ _ _ Ha Hs1). cbn. rewrite Hc. cbn.
  assert (Hdom : {[out]} ∪ dom h ⊆ dom h1) by (unfold h1; rewrite dom_insert; done).
  destruct (load_local h2 (<[out := inject a']> h2) a') as [Hl Hr].
  { intros k Hk. apply lookup_insert_ne. set_solver. }
  split_and!; [done| | |].
  - apply insert_subseteq_r; [by apply not_elem_of_dom|by transitivity h1].
  - rewrite readAt_insert. cbn. by rewrite Hl, Hw2.
  - rewrite readAt_insert. cbn. rewrite Hr. set_solver.
Qed.

Lemma deep_local h h' l v : deepLoad h (Some l) = Some v -> (forall k, k ∈ deepRefs h (Some l) -> h' !! k = h !! k) ->
  deepLoad h' (Some l) = Some v.
Proof.
  cbn [deepLoad deepRefs]. intros (a & Ha & (w & Hw & ->)%fmap_Some)%bind_Some Hag. rewrite Ha in Hag. cbn in Hag.
  assert (Hr : readAt h' l = Some a) by (unfold readAt; by rewrite Hag by set_solver). rewrite Hr. cbn.
  destruct (load_local h h' a) as [-> _]; [|by rewrite Hw]. intros k Hk. apply Hag. set_solver.
Qed.

Lemma deep_defined h l v : deepLoad h (Some l) = Some v -> deepRefs h (Some l) ⊆ dom h.
Proof.
  cbn [deepLoad deepRefs]. intros (a & Ha & (w & Hw & _)%fmap_Some)%bind_Some. rewrite Ha. cbn.
  apply union_subseteq. split; [apply readAt_dom in Ha; set_solver|by eapply load_defined].
Qed.
End DeepPointer.

(** ** The generated functions *)

#[export] Instance TimeCell_of : CellOf Time :=
  {| inject := TimeCell; project := fun c => match c with TimeCell x => Some x | _ => None end; project_inject := fun _ => eq_refl |}.
#[export] Instance ReferenceCell_of : CellOf string :=
  {| inject := ReferenceCell; project := fun c => match c with ReferenceCell x => Some x | _ => None end; project_inject := fun _ => eq_refl |}.
#[export] Instance ReferencesCell_of : CellOf (list string) :=
  {| inject := ReferencesCell; project := fun c => match c with ReferencesCell x => Some x | _ => None end; project_inject := fun _ => eq_refl |}.
#[export] Instance CategoriesCell_of : CellOf (list FailureCategory) :=
  {| inject := CategoriesCell; project := fun c => match c with CategoriesCell x => Some x | _ => None end; project_inject := fun _ => eq_refl |}.
#[export] Instance ConditionsCell_of : CellOf (list Condition) :=
  {| inject := ConditionsCell; project := fun c => match c with ConditionsCell x => Some x | _ => None end; project_inject := fun _ => eq_refl |}.
#[export] Instance AttemptsCell_of : CellOf (list MemAttempt) :=
  {| inject := AttemptsCell; project := fun c => match c with AttemptsCell x => Some x | _ => None end; project_inject := fun _ => eq_refl |}.
#[export] Instance RunsCell_of : CellOf (list (MemRun Meta)) :=
  {| inject := RunsCell; project := fun c => match c with RunsCell x => Some x | _ => None end; project_inject := fun _ => eq_refl |}.
#[export] Instance RetryPolicyCell_of : CellOf (RetryPolicyOf memSlice) :=
  {| inject := RetryPolicyCell; project := fun c => match c with RetryPolicyCell x => Some x | _ => None end; project_inject := fun _ => eq_refl |}.
#[export] Instance ValuesCell_of : CellOf ResourceValues :=
  {| inject := ValuesCell; project := fun c => match c with ValuesCell x => Some x | _ => None end; project_inject := fun _ => eq_refl |}.
#[export] Instance RequirementsCell_of : CellOf ResourceRequirements :=
  {| inject := RequirementsCell; project := fun c => match c with RequirementsCell x => Some x | _ => None end; project_inject := fun _ => eq_refl |}.
#[export] Instance WorkspaceCell_of : CellOf WorkspaceSpec :=
  {| inject := WorkspaceCell; project := fun c => match c with WorkspaceCell x => Some x | _ => None end; project_inject := fun _ => eq_refl |}.
#[export] Instance NetworkCell_of : CellOf (NetworkSpecOf memPtr) :=
  {| inject := NetworkCell; project := fun c => match c with NetworkCell x => Some x | _ => None end; project_inject := fun _ => eq_refl |}.
#[export] Instance SpecCell_of : CellOf (AgentRunSpecOf memPtr memSlice) :=
  {| inject := SpecCell; project := fun c => match c with SpecCell x => Some x | _ => None end; project_inject := fun _ => eq_refl |}.
#[export] Instance AttemptCell_of : CellOf MemAttempt :=
  {| inject := AttemptCell; project := fun c => match c with AttemptCell x => Some x | _ => None end; project_inject := fun _ => eq_refl |}.
#[export] Instance StatusCell_of : CellOf (AgentRunStatusOf memPtr memSlice) :=
  {| inject := StatusCell; project := fun c => match c with StatusCell x => Some x | _ => None end; project_inject := fun _ => eq_refl |}.
#[export] Instance RunCell_of : CellOf (MemRun Meta) :=
  {| inject := RunCell; project := fun c => match c with RunCell x => Some x | _ => None end; project_inject := fun _ => eq_refl |}.
#[export] Instance RunListCell_of : CellOf (AgentRunListOf memPtr memSlice Meta ListMeta) :=
  {| inject := RunListCell; project := fun c => match c with RunListCell x => Some x | _ => None end; project_inject := fun _ => eq_refl |}.

(** A type without references: [*out = *in]. *)
Definition plainCopies (A : Type) : DeepCopies A A.
Proof.
  refine {| load := fun _ a => Some a; refs := fun _ _ => ∅; DeepCopyInto := fun a => mret a |}; [done|set_solver|].
  intros h a v [= <-]. exists a, h. split_and!; [done..|set_solver].
Defined.

(** [LocalObjectReference], its name; [metav1.Condition] holds no references either. *)
#[export] Instance LocalObjectReference_copies : DeepCopies string string := plainCopies string.
#[export] Instance ResourceValues_copies : DeepCopies ResourceValues ResourceValues := plainCopies ResourceValues.
#[export] Instance ResourceRequirements_copies : DeepCopies ResourceRequirements ResourceRequirements :=
  plainCopies ResourceRequirements.
#[export] Instance WorkspaceSpec_copies : DeepCopies WorkspaceSpec WorkspaceSpec := plainCopies WorkspaceSpec.
#[export] Instance Condition_copies : DeepCopies Condition Condition := plainCopies Condition.

#[export] Instance string_zero : Zero string := EmptyString.
#[export] Instance FailureCategory_zero : Zero FailureCategory := FailureUnset.
#[export] Instance ResourceValues_zero : Zero ResourceValues := {| rv_CPUMillis := 0; rv_MemoryMiB := 0 |}.
#[export] Instance ResourceRequirements_zero : Zero ResourceRequirements := {| rq_Requests := zero; rq_Limits := zero |}.
#[export] Instance WorkspaceSpec_zero : Zero WorkspaceSpec :=
  {| wk_SizeGiB := 0; wk_StorageClassName := EmptyString; wk_RetentionPolicy := WorkspaceRetentionOther EmptyString |}.
#[export] Instance Condition_zero : Zero Condition :=
  {| cn_Type := EmptyString; cn_Status := ConditionUnknown; cn_ObservedGeneration := 0; cn_LastTransitionTime := 0;
     cn_Reason := EmptyString; cn_Message := EmptyString |}.
#[export] Instance RetryPolicy_zero : Zero (RetryPolicyOf memSlice) :=
  {| yr_MaxAttempts := 0; yr_InitialBackoffSeconds := 0; yr_MaxBackoffSeconds := 0; yr_RetryableFailureCategories := None |}.
#[export] Instance NetworkSpec_zero : Zero (NetworkSpecOf memPtr) :=
  {| yn_Profile := NetworkProfileOther EmptyString; yn_AllowedDestinationsRef := None |}.
#[export] Instance AgentRunSpec_zero : Zero (AgentRunSpecOf memPtr memSlice) :=
  {| yp_TenantID := zero; yp_ProjectID := zero; yp_RunID := zero; yp_AttemptID := zero; yp_Attempt := 0; yp_RunnerImage := zero;
     yp_Runtime := zero; yp_ExecutionProfile := zero; yp_TaskRef := zero; yp_TimeoutSeconds := 0; yp_RetryPolicy := zero;
     yp_Resources := zero; yp_Workspace := zero; yp_Network := zero; yp_ArtifactDestinationRef := zero;
     yp_ConfigurationRefs := None; yp_SecretRefs := None; yp_DeployOnSuccess := false;
     yp_DesiredState := DesiredStateOther EmptyString |}.
#[export] Instance AttemptStatus_zero : Zero MemAttempt :=
  {| ya_Attempt := 0; ya_JobName := zero; ya_PodName := zero; ya_Phase := PhaseUnset; ya_StartTime := None;
     ya_CompletionTime := None; ya_FailureCategory := zero; ya_FailureReason := zero; ya_ArtifactManifestRef := zero |}.
#[export] Instance AgentRunStatus_zero : Zero (AgentRunStatusOf memPtr memSlice) :=
  {| ys_Phase := PhaseUnset; ys_ObservedGeneration := 0; ys_Attempt := 0; ys_Namespace := zero; ys_JobName := zero;
     ys_PodName := zero; ys_StartTime := None; ys_CompletionTime := None; ys_HeartbeatTime := None;
     ys_FailureCategory := zero; ys_FailureReason := zero; ys_ArtifactManifestRef := zero; ys_Attempts := None;
     ys_Conditions := None |}.

(** [RetryPolicy] *)

Definition RetryPolicy_load (h : Heap) (r : RetryPolicyOf memSlice) : option (RetryPolicyOf valSlice) :=
  categories ← sliceLoad h (yr_RetryableFailureCategories r);
  Some {| yr_MaxAttempts := yr_MaxAttempts r; yr_InitialBackoffSeconds := yr_InitialBackoffSeconds r;
          yr_MaxBackoffSeconds := yr_MaxBackoffSeconds r; yr_RetryableFailureCategories := categories |}.

Definition RetryPolicy_DeepCopyInto (r : RetryPolicyOf memSlice) : Mem (RetryPolicyOf memSlice) :=
  categories ← sliceCopy (yr_RetryableFailureCategories r);
  mret (r <| yr_RetryableFailureCategories := categories |>).

(** [NetworkSpec] *)

Definition NetworkSpec_load (h : Heap) (n : NetworkSpecOf memPtr) : option (NetworkSpecOf valPtr) :=
  reference ← ptrLoad h (yn_AllowedDestinationsRef n);
  Some {| yn_Profile := yn_Profile n; yn_AllowedDestinationsRef := reference |}.

Definition NetworkSpec_DeepCopyInto (n : NetworkSpecOf memPtr) : Mem (NetworkSpecOf memPtr) :=
  reference ← ptrCopy (yn_AllowedDestinationsRef n);
  mret (n <| yn_AllowedDestinationsRef := reference |>).

(** [AttemptStatus] *)

Definition AttemptStatus_load (h : Heap) (a : MemAttempt) : option (AttemptStatusOf valPtr) :=
  start ← ptrLoad h (ya_StartTime a);
  completion ← ptrLoad h (ya_CompletionTime a);
  Some {| ya_Attempt := ya_Attempt a; ya_JobName := ya_JobName a; ya_PodName := ya_PodName a; ya_Phase := ya_Phase a;
          ya_StartTime := start; ya_CompletionTime := completion; ya_FailureCategory := ya_FailureCategory a;
          ya_FailureReason := ya_FailureReason a; ya_ArtifactManifestRef := ya_ArtifactManifestRef a |}.

Definition AttemptStatus_DeepCopyInto (a : MemAttempt) : Mem MemAttempt :=
  start ← ptrCopy (ya_StartTime a);
  let out := a <| ya_StartTime := start |> in
  completion ← ptrCopy (ya_CompletionTime a);
  mret (out <| ya_CompletionTime := completion |>).

(** [AgentRunSpec] *)

Definition AgentRunSpec_load (h : Heap) (s : AgentRunSpecOf memPtr memSlice) : option (AgentRunSpecOf valPtr valSlice) :=
  retry ← RetryPolicy_load h (yp_RetryPolicy s);
  network ← NetworkSpec_load h (yp_Network s);
  configurations ← sliceLoad h (yp_ConfigurationRefs s);
  secrets ← sliceLoad h (yp_SecretRefs s);
  Some {| yp_TenantID := yp_TenantID s; yp_ProjectID := yp_ProjectID s; yp_RunID := yp_RunID s;
          yp_AttemptID := yp_AttemptID s; yp_Attempt := yp_Attempt s; yp_RunnerImage := yp_RunnerImage s;
          yp_Runtime := yp_Runtime s; yp_ExecutionProfile := yp_ExecutionProfile s; yp_TaskRef := yp_TaskRef s;
          yp_TimeoutSeconds := yp_TimeoutSeconds s; yp_RetryPolicy := retry; yp_Resources := yp_Resources s;
          yp_Workspace := yp_Workspace s; yp_Network := network; yp_ArtifactDestinationRef := yp_ArtifactDestinationRef s;
          yp_ConfigurationRefs := configurations; yp_SecretRefs := secrets; yp_DeployOnSuccess := yp_DeployOnSuccess s;
          yp_DesiredState := yp_DesiredState s |}.

Definition AgentRunSpec_DeepCopyInto (s : AgentRunSpecOf memPtr memSlice) : Mem (AgentRunSpecOf memPtr memSlice) :=
  retry ← RetryPolicy_DeepCopyInto (yp_RetryPolicy s);
  let out := s <| yp_RetryPolicy := retry |> <| yp_Resources := yp_Resources s |> <| yp_Workspace := yp_Workspace s |> in
  network ← NetworkSpec_DeepCopyInto (yp_Network s);
  let out := out <| yp_Network := network |> <| yp_ArtifactDestinationRef := yp_ArtifactDestinationRef s |> in
  configurations ← sliceCopy (yp_ConfigurationRefs s);
  let out := out <| yp_ConfigurationRefs := configurations |> in
  secrets ← sliceCopy (yp_SecretRefs s);
  mret (out <| yp_SecretRefs := secrets |>).

(** ** The functions keep the promise *)

Section Pair.
Context {A V B W : Type} (CA : DeepCopies A V) (CB : DeepCopies B W).

Definition pairLoad (h : Heap) (p : A * B) : option (V * W) := v ← load h p.1; w ← load h p.2; Some (v, w).
Definition pairRefs (h : Heap) (p : A * B) : gset Loc := refs h p.1 ∪ refs h p.2.
Definition pairCopy (p : A * B) : Mem (A * B) := a ← DeepCopyInto p.1; b ← DeepCopyInto p.2; mret (a, b).

Lemma pair_local h h' p : (forall l, l ∈ pairRefs h p -> h' !! l = h !! l) -> pairLoad h' p = pairLoad h p /\ pairRefs h' p = pairRefs h p.
Proof.
  intros Hag. unfold pairRefs in Hag. destruct (load_local h h' p.1) as [L1 R1]; [intros; apply Hag; set_solver|].
  destruct (load_local h h' p.2) as [L2 R2]; [intros; apply Hag; set_solver|].
  unfold pairLoad, pairRefs. by rewrite L1, L2, R1, R2.
Qed.

Lemma pair_defined h p v : pairLoad h p = Some v -> pairRefs h p ⊆ dom h.
Proof.
  intros (a & Ha & (b & Hb & _)%bind_Some)%bind_Some. unfold pairRefs. apply union_subseteq. split; by eapply load_defined.
Qed.

Lemma pair_fresh h p v : pairLoad h p = Some v ->
  exists p' h', pairCopy p h = Some (p', h') /\ h ⊆ h' /\ pairLoad h' p' = Some v /\ pairRefs h' p' ## dom h.
Proof.
  destruct p as [a b]. intros (x & Ha & (y & Hb & [= <-])%bind_Some)%bind_Some. cbn in Ha, Hb.
  destruct (copy_fresh h a x Ha) as (a' & h1 & E1 & S1 & L1 & D1).
  destruct (copy_fresh h1 b y (proj1 (load_mono h h1 b y Hb S1))) as (b' & h2 & E2 & S2 & L2 & D2).
  destruct (load_mono h1 h2 a' x L1 S2) as [L1' R1]. exists (a', b'), h2. unfold pairCopy, mbind, Mem_bind, pairLoad, pairRefs. cbn.
  rewrite E1. cbn. rewrite E2. cbn. rewrite L1', R1. cbn. rewrite L2. split_and!; [done|by transitivity h1|done|].
  apply subseteq_dom in S1. set_solver.
Qed.

Definition pairCopies : DeepCopies (A * B) (V * W) :=
  {| load := pairLoad; refs := pairRefs; DeepCopyInto := pairCopy;
     load_local := pair_local; load_defined := pair_defined; copy_fresh := pair_fresh |}.
End Pair.

(** A struct whose references are the fields [fields]: copying assigns them. *)
Section Struct.
Context {A B V W : Type} (CB : DeepCopies B W) (fields : A -> B) (assign : A -> B -> A) (value : A -> W -> V).
Context (structLoad : Heap -> A -> option V) (structCopy : A -> Mem A).
Hypothesis Hfields : forall a b, fields (assign a b) = b.
Hypothesis Hvalue : forall a b w, value (assign a b) w = value a w.
Hypothesis Hload : forall h a, structLoad h a = value a <$> load h (fields a).
Hypothesis Hcopy : forall h a, structCopy a h = '(b, h') ← DeepCopyInto (fields a) h; Some (assign a b, h').

Definition structCopies : DeepCopies A V.
Proof using Hfields Hvalue Hload Hcopy.
  refine {| load := structLoad; refs := fun h a => refs h (fields a); DeepCopyInto := structCopy |}.
  - intros h h' a Hag. destruct (load_local h h' (fields a) Hag) as [L R]. by rewrite !Hload, L, R.
  - intros h a v. rewrite Hload. intros (w & Hw & _)%fmap_Some. by eapply load_defined.
  - intros h a v. rewrite Hload. intros (w & Hw & ->)%fmap_Some. destruct (copy_fresh h (fields a) w Hw) as (b & h' & E & S & L & D).
    exists (assign a b), h'. rewrite Hcopy, E, Hload, Hfields, L. cbn. by rewrite Hvalue.
Defined.
End Struct.

#[export] Instance RetryPolicy_copies : DeepCopies (RetryPolicyOf memSlice) (RetryPolicyOf valSlice).
Proof.
  refine (structCopies sliceCopies yr_RetryableFailureCategories (fun r b => r <| yr_RetryableFailureCategories := b |>)
    (fun r w => Build_RetryPolicyOf (yr_MaxAttempts r) (yr_InitialBackoffSeconds r) (yr_MaxBackoffSeconds r) w)
    RetryPolicy_load RetryPolicy_DeepCopyInto _ _ _ _); done.
Defined.

#[export] Instance NetworkSpec_copies : DeepCopies (NetworkSpecOf memPtr) (NetworkSpecOf valPtr).
Proof.
  refine (structCopies ptrCopies yn_AllowedDestinationsRef (fun n b => n <| yn_AllowedDestinationsRef := b |>)
    (fun n w => Build_NetworkSpecOf (yn_Profile n) w) NetworkSpec_load NetworkSpec_DeepCopyInto _ _ _ _); done.
Defined.

(** Equations between a chain of calls and the same calls on tuples. *)
Ltac by_calls :=
  do 5 (cbn [load DeepCopyInto pairCopies structCopies ptrCopies sliceCopies sliceDeepCopies RetryPolicy_copies
          NetworkSpec_copies fst snd];
        unfold pairLoad, pairCopy, mbind, mret, Mem_bind, Mem_ret, option_bind, fmap, option_fmap, option_map);
  repeat first [reflexivity | case_match; simplify_eq; cbn [fst snd]].

#[export] Instance AttemptStatus_copies : DeepCopies MemAttempt (AttemptStatusOf valPtr).
Proof.
  refine (structCopies (pairCopies ptrCopies ptrCopies) (fun a => (ya_StartTime a, ya_CompletionTime a))
    (fun a b => a <| ya_StartTime := b.1 |> <| ya_CompletionTime := b.2 |>)
    (fun a w => Build_AttemptStatusOf (ya_Attempt a) (ya_JobName a) (ya_PodName a) (ya_Phase a) w.1 w.2 (ya_FailureCategory a)
       (ya_FailureReason a) (ya_ArtifactManifestRef a)) AttemptStatus_load AttemptStatus_DeepCopyInto _ _ _ _);
    [by intros a []|done|intros h a; unfold AttemptStatus_load; by_calls|intros h a; unfold AttemptStatus_DeepCopyInto; by_calls].
Defined.

#[export] Instance AgentRunSpec_copies : DeepCopies (AgentRunSpecOf memPtr memSlice) (AgentRunSpecOf valPtr valSlice).
Proof.
  refine (structCopies (pairCopies RetryPolicy_copies (pairCopies NetworkSpec_copies (pairCopies sliceCopies sliceCopies)))
    (fun s => (yp_RetryPolicy s, (yp_Network s, (yp_ConfigurationRefs s, yp_SecretRefs s))))
    (fun s b => s <| yp_RetryPolicy := b.1 |> <| yp_Network := b.2.1 |> <| yp_ConfigurationRefs := b.2.2.1 |> <| yp_SecretRefs := b.2.2.2 |>)
    (fun s w => Build_AgentRunSpecOf (yp_TenantID s) (yp_ProjectID s) (yp_RunID s) (yp_AttemptID s) (yp_Attempt s) (yp_RunnerImage s)
       (yp_Runtime s) (yp_ExecutionProfile s) (yp_TaskRef s) (yp_TimeoutSeconds s) w.1 (yp_Resources s) (yp_Workspace s) w.2.1
       (yp_ArtifactDestinationRef s) w.2.2.1 w.2.2.2 (yp_DeployOnSuccess s) (yp_DesiredState s))
    AgentRunSpec_load AgentRunSpec_DeepCopyInto _ _ _ _);
    [by intros s (? & ? & ? & ?)|done|intros h s; unfold AgentRunSpec_load; by_calls|intros h s; unfold AgentRunSpec_DeepCopyInto; by_calls].
Defined.

(** [AgentRunStatus] *)

Definition AgentRunStatus_load (h : Heap) (s : AgentRunStatusOf memPtr memSlice) : option (AgentRunStatusOf valPtr valSlice) :=
  start ← ptrLoad h (ys_StartTime s);
  completion ← ptrLoad h (ys_CompletionTime s);
  heartbeat ← ptrLoad h (ys_HeartbeatTime s);
  attempts ← sliceDeepLoad h (ys_Attempts s);
  conditions ← sliceDeepLoad h (ys_Conditions s);
  Some {| ys_Phase := ys_Phase s; ys_ObservedGeneration := ys_ObservedGeneration s; ys_Attempt := ys_Attempt s;
          ys_Namespace := ys_Namespace s; ys_JobName := ys_JobName s; ys_PodName := ys_PodName s; ys_StartTime := start;
          ys_CompletionTime := completion; ys_HeartbeatTime := heartbeat; ys_FailureCategory := ys_FailureCategory s;
          ys_FailureReason := ys_FailureReason s; ys_ArtifactManifestRef := ys_ArtifactManifestRef s;
          ys_Attempts := attempts; ys_Conditions := conditions |}.

Definition AgentRunStatus_DeepCopyInto (s : AgentRunStatusOf memPtr memSlice) : Mem (AgentRunStatusOf memPtr memSlice) :=
  start ← ptrCopy (ys_StartTime s);
  let out := s <| ys_StartTime := start |> in
  completion ← ptrCopy (ys_CompletionTime s);
  let out := out <| ys_CompletionTime := completion |> in
  heartbeat ← ptrCopy (ys_HeartbeatTime s);
  let out := out <| ys_HeartbeatTime := heartbeat |> in
  attempts ← sliceDeepCopy (ys_Attempts s);
  let out := out <| ys_Attempts := attempts |> in
  conditions ← sliceDeepCopy (ys_Conditions s);
  mret (out <| ys_Conditions := conditions |>).

#[export] Instance AgentRunStatus_copies : DeepCopies (AgentRunStatusOf memPtr memSlice) (AgentRunStatusOf valPtr valSlice).
Proof.
  refine (structCopies (pairCopies ptrCopies (pairCopies ptrCopies (pairCopies ptrCopies
      (pairCopies (sliceDeepCopies (A := MemAttempt)) (sliceDeepCopies (A := Condition))))))
    (fun s => (ys_StartTime s, (ys_CompletionTime s, (ys_HeartbeatTime s, (ys_Attempts s, ys_Conditions s)))))
    (fun s b => s <| ys_StartTime := b.1 |> <| ys_CompletionTime := b.2.1 |> <| ys_HeartbeatTime := b.2.2.1 |>
       <| ys_Attempts := b.2.2.2.1 |> <| ys_Conditions := b.2.2.2.2 |>)
    (fun s w => Build_AgentRunStatusOf (ys_Phase s) (ys_ObservedGeneration s) (ys_Attempt s) (ys_Namespace s) (ys_JobName s)
       (ys_PodName s) w.1 w.2.1 w.2.2.1 (ys_FailureCategory s) (ys_FailureReason s) (ys_ArtifactManifestRef s) w.2.2.2.1 w.2.2.2.2)
    AgentRunStatus_load AgentRunStatus_DeepCopyInto _ _ _ _);
    [by intros s (? & ? & ? & ? & ?)|done|intros h s; unfold AgentRunStatus_load; by_calls|intros h s; unfold AgentRunStatus_DeepCopyInto; by_calls].
Defined.

(** ** Objects and lists *)

Section Objects.
Context {MetaV ListMetaV : Type} `{CM : DeepCopies Meta MetaV} `{CL : DeepCopies ListMeta ListMetaV}.
Context `{ZM : Zero Meta} `{ZL : Zero ListMeta}.

#[export] Instance AgentRun_zero : Zero (MemRun Meta) :=
  {| yo_TypeMeta := (EmptyString, EmptyString); yo_ObjectMeta := zero; yo_Spec := zero; yo_Status := zero |}.
#[export] Instance AgentRunList_zero : Zero (AgentRunListOf memPtr memSlice Meta ListMeta) :=
  {| yl_TypeMeta := (EmptyString, EmptyString); yl_ListMeta := zero; yl_Items := None |}.

Definition AgentRun_load (h : Heap) (r : MemRun Meta) : option (AgentRunOf valPtr valSlice MetaV) :=
  meta ← load h (yo_ObjectMeta r);
  spec ← AgentRunSpec_load h (yo_Spec r);
  status ← AgentRunStatus_load h (yo_Status r);
  Some {| yo_TypeMeta := yo_TypeMeta r; yo_ObjectMeta := meta; yo_Spec := spec; yo_Status := status |}.

Definition AgentRun_DeepCopyInto (r : MemRun Meta) : Mem (MemRun Meta) :=
  let out := r <| yo_TypeMeta := yo_TypeMeta r |> in
  meta ← DeepCopyInto (yo_ObjectMeta r);
  let out := out <| yo_ObjectMeta := meta |> in
  spec ← AgentRunSpec_DeepCopyInto (yo_Spec r);
  let out := out <| yo_Spec := spec |> in
  status ← AgentRunStatus_DeepCopyInto (yo_Status r);
  mret (out <| yo_Status := status |>).

#[export] Instance AgentRun_copies : DeepCopies (MemRun Meta) (AgentRunOf valPtr valSlice MetaV).
Proof.
  refine (structCopies (pairCopies CM (pairCopies AgentRunSpec_copies AgentRunStatus_copies))
    (fun r => (yo_ObjectMeta r, (yo_Spec r, yo_Status r)))
    (fun r b => r <| yo_ObjectMeta := b.1 |> <| yo_Spec := b.2.1 |> <| yo_Status := b.2.2 |>)
    (fun r w => Build_AgentRunOf (yo_TypeMeta r) w.1 w.2.1 w.2.2) AgentRun_load AgentRun_DeepCopyInto _ _ _ _);
    [by intros r (? & ? & ?)|done|intros h r; unfold AgentRun_load|intros h r; unfold AgentRun_DeepCopyInto].
  - cbn [load pairCopies]. unfold pairLoad. cbn [fst snd load pairCopies]. unfold pairLoad. cbn [fst snd].
    change (load h (yo_Spec r)) with (AgentRunSpec_load h (yo_Spec r)). change (load h (yo_Status r)) with (AgentRunStatus_load h (yo_Status r)).
    destruct (load h (yo_ObjectMeta r)); [|done]. cbn. destruct (AgentRunSpec_load h _); [|done]. cbn. by destruct (AgentRunStatus_load h _).
  - unfold mbind, Mem_bind. cbn [DeepCopyInto pairCopies]. unfold pairCopy. cbn [fst snd DeepCopyInto pairCopies]. unfold pairCopy, mbind, Mem_bind. cbn [fst snd].
    change (DeepCopyInto (yo_Spec r)) with (AgentRunSpec_DeepCopyInto (yo_Spec r)). change (DeepCopyInto (yo_Status r)) with (AgentRunStatus_DeepCopyInto (yo_Status r)).
    destruct (DeepCopyInto (yo_ObjectMeta r) h) as [[m h1]|]; [|done]. cbn. destruct (AgentRunSpec_DeepCopyInto _ h1) as [[sp h2]|]; [|done]. cbn.
    by destruct (AgentRunStatus_DeepCopyInto _ h2) as [[st h3]|].
Defined.

Definition AgentRunList_load (h : Heap) (l : AgentRunListOf memPtr memSlice Meta ListMeta) :
    option (AgentRunListOf valPtr valSlice MetaV ListMetaV) :=
  meta ← load h (yl_ListMeta l);
  items ← sliceDeepLoad h (yl_Items l);
  Some {| yl_TypeMeta := yl_TypeMeta l; yl_ListMeta := meta; yl_Items := items |}.

Definition AgentRunList_DeepCopyInto (l : AgentRunListOf memPtr memSlice Meta ListMeta) :
    Mem (AgentRunListOf memPtr memSlice Meta ListMeta) :=
  let out := l <| yl_TypeMeta := yl_TypeMeta l |> in
  meta ← DeepCopyInto (yl_ListMeta l);
  let out := out <| yl_ListMeta := meta |> in
  items ← sliceDeepCopy (yl_Items l);
  mret (out <| yl_Items := items |>).

#[export] Instance AgentRunList_copies :
  DeepCopies (AgentRunListOf memPtr memSlice Meta ListMeta) (AgentRunListOf valPtr valSlice MetaV ListMetaV).
Proof.
  refine (structCopies (pairCopies CL (sliceDeepCopies (A := MemRun Meta))) (fun l => (yl_ListMeta l, yl_Items l))
    (fun l b => l <| yl_ListMeta := b.1 |> <| yl_Items := b.2 |>)
    (fun l w => Build_AgentRunListOf (yl_TypeMeta l) w.1 w.2) AgentRunList_load AgentRunList_DeepCopyInto _ _ _ _);
    [by intros l []|done|intros h l; unfold AgentRunList_load; by_calls|intros h l; unfold AgentRunList_DeepCopyInto; by_calls].
Defined.

(** The DeepCopy methods. *)
Definition AgentRun_DeepCopy : memPtr (MemRun Meta) -> Mem (memPtr (MemRun Meta)) := DeepCopy.
Definition AgentRunList_DeepCopy (p : memPtr (AgentRunListOf memPtr memSlice Meta ListMeta)) :
  Mem (memPtr (AgentRunListOf memPtr memSlice Meta ListMeta)) := DeepCopy p.
Definition AgentRunSpec_DeepCopy (p : memPtr (AgentRunSpecOf memPtr memSlice)) : Mem (memPtr (AgentRunSpecOf memPtr memSlice)) := DeepCopy p.
Definition AgentRunStatus_DeepCopy (p : memPtr (AgentRunStatusOf memPtr memSlice)) : Mem (memPtr (AgentRunStatusOf memPtr memSlice)) := DeepCopy p.
Definition AttemptStatus_DeepCopy (p : memPtr MemAttempt) : Mem (memPtr MemAttempt) := DeepCopy p.
Definition LocalObjectReference_DeepCopy (p : memPtr string) : Mem (memPtr string) := DeepCopy p.
Definition NetworkSpec_DeepCopy (p : memPtr (NetworkSpecOf memPtr)) : Mem (memPtr (NetworkSpecOf memPtr)) := DeepCopy p.
Definition ResourceRequirements_DeepCopy (p : memPtr ResourceRequirements) : Mem (memPtr ResourceRequirements) := DeepCopy p.
Definition ResourceValues_DeepCopy (p : memPtr ResourceValues) : Mem (memPtr ResourceValues) := DeepCopy p.
Definition RetryPolicy_DeepCopy (p : memPtr (RetryPolicyOf memSlice)) : Mem (memPtr (RetryPolicyOf memSlice)) := DeepCopy p.
Definition WorkspaceSpec_DeepCopy (p : memPtr WorkspaceSpec) : Mem (memPtr WorkspaceSpec) := DeepCopy p.

(** A runtime.Object: nil, or a pointer of one of the two types, itself possibly nil. *)
Inductive Object :=
| RunObject (p : memPtr (MemRun Meta))
| RunListObject (p : memPtr (AgentRunListOf memPtr memSlice Meta ListMeta)).

Definition AgentRun_DeepCopyObject (p : memPtr (MemRun Meta)) : Mem (option Object) :=
  c ← AgentRun_DeepCopy p;
  match c with Some l => mret (Some (RunObject (Some l))) | None => mret None end.

Definition AgentRunList_DeepCopyObject (p : memPtr (AgentRunListOf memPtr memSlice Meta ListMeta)) : Mem (option Object) :=
  c ← AgentRunList_DeepCopy p;
  match c with Some l => mret (Some (RunListObject (Some l))) | None => mret None end.

(** [l'] in [h'] is a copy of [l] in [h] that shares nothing with it: it survives every
    change to what existed before, and the original survives every change to what did not. *)
Definition independent {A V} `{DeepCopies A V} `{CellOf A} (h h' : Heap) (l l' : Loc) (v : V) : Prop :=
  h ⊆ h' /\ l' ∉ dom h /\ deepLoad h' (Some l') = Some (Some v) /\
  (forall h2, (forall k, k ∉ dom h -> h2 !! k = h' !! k) -> deepLoad h2 (Some l') = Some (Some v)) /\
  (forall h2, (forall k, k ∈ dom h -> h2 !! k = h' !! k) -> deepLoad h2 (Some l) = Some (Some v)).

Lemma DeepCopy_independent {A V} `{DeepCopies A V} `{CellOf A} `{Zero A} h l v :
  deepLoad h (Some l) = Some (Some v) -> exists l' h', DeepCopy (Some l) h = Some (Some l', h') /\ independent h h' l l' v.
Proof.
  intros Hl. destruct (deep_fresh h l (Some v) Hl) as (l' & h' & Hc & Hs & Hv & Hd). exists l', h'. split; [done|].
  assert (Hl' : l' ∈ deepRefs h' (Some l')) by (cbn; set_solver). split_and!; [done|set_solver|done| |].
  - intros h2 Hag. eapply deep_local; [exact Hv|]. intros k Hk. apply Hag. set_solver.
  - intros h2 Hag. eapply deep_local; [exact Hl|]. intros k Hk. apply (deep_defined _ _ _ Hl) in Hk as Hin.
    rewrite (Hag k Hin). apply elem_of_dom in Hin as [c Hin]. rewrite Hin. by eapply subseteq_lookup.
Qed.

(** C39: A deep copy of an object or of a list shares nothing with the original. Given
    metadata that copies as documented: copying a nil pointer gives a nil object, not an
    object that holds a nil pointer; copying an object that is whole in memory always
    succeeds, leaves the original alone, and gives a new object with the same value, nil
    and empty slices told apart, whatever pointers and arrays the original shares
    internally. Every later change to memory that existed before the copy, so every
    change the controller makes through the original, leaves the copy's value; every
    change to memory that is new leaves the original's. *)
Theorem deep_copy_independent (h : Heap) :
  AgentRun_DeepCopyObject None h = Some (None, h) /\
  AgentRunList_DeepCopyObject None h = Some (None, h) /\
  (forall l (run : AgentRunOf valPtr valSlice MetaV), deepLoad h (Some l : memPtr (MemRun Meta)) = Some (Some run) ->
     exists l' h', AgentRun_DeepCopyObject (Some l) h = Some (Some (RunObject (Some l')), h') /\
       independent (A := MemRun Meta) h h' l l' run) /\
  (forall l (runs : AgentRunListOf valPtr valSlice MetaV ListMetaV),
     deepLoad h (Some l : memPtr (AgentRunListOf memPtr memSlice Meta ListMeta)) = Some (Some runs) ->
     exists l' h', AgentRunList_DeepCopyObject (Some l) h = Some (Some (RunListObject (Some l')), h') /\
       independent (A := AgentRunListOf memPtr memSlice Meta ListMeta) h h' l l' runs).
Proof.
  split_and!; [done|done| |]; intros l v Hl; destruct (DeepCopy_independent h l v Hl) as (l' & h' & Hc & Hi); exists l', h'; (split; [|done]).
  - unfold AgentRun_DeepCopyObject, AgentRun_DeepCopy, mbind, Mem_bind. by rewrite Hc.
  - unfold AgentRunList_DeepCopyObject, AgentRunList_DeepCopy, mbind, Mem_bind. by rewrite Hc.
Qed.
End Objects.
End Memory.

(** ** An object in memory

    Metadata with one slice of finalizers; a status with a start time, one attempt that
    shares the pointer to it, and an empty slice of conditions. *)

Section Example.
Notation Cells := (Cell (memSlice string) unit (list string)).

#[local] Instance finalizersCell : CellOf (Meta := memSlice string) (ListMeta := unit) (Foreign := list string) (list string) | 0 :=
  {| inject := ForeignCell : _ -> Cells; project := fun c => match c with ForeignCell f => Some f | _ => None end;
     project_inject := fun _ => eq_refl |}.

Definition finalizersCopies : DeepCopies (Meta := memSlice string) (ListMeta := unit) (Foreign := list string)
  (memSlice string) (valSlice string) := sliceCopies (H := finalizersCell).

Definition exampleAttempt : MemAttempt := zero <| ya_Attempt := 1 |> <| ya_StartTime := Some 2%nat |>.
Definition exampleRun : MemRun (memSlice string) :=
  {| yo_TypeMeta := ("AgentRun", "v1alpha1"); yo_ObjectMeta := Some (whole 1 1); yo_Spec := zero;
     yo_Status := zero <| ys_StartTime := Some 2%nat |> <| ys_Attempts := Some (whole 3 1) |> <| ys_Conditions := Some (whole 4 0) |> |}.
Definition exampleHeap : gmap Loc Cells :=
  <[0%nat := RunCell exampleRun]> (<[1%nat := ForeignCell ["agentforge.dev/cleanup"]]> (<[2%nat := TimeCell 1700000000000000000]>
    (<[3%nat := AttemptsCell [exampleAttempt]]> {[4%nat := ConditionsCell []]}))).

(** The controller copies the object and then empties the array of attempts and moves the
    shared start time of the original: the copy still has the value of before. *)
Lemma deep_copy_independent_witness :
  exists run l' h',
    @deepLoad _ _ _ _ _ (AgentRun_copies (CM := finalizersCopies)) _ exampleHeap (Some 0%nat) = Some (Some run) /\
    length <$> ys_Attempts (yo_Status run) = Some 1%nat /\ ys_Conditions (yo_Status run) = Some [] /\
    AgentRun_DeepCopyObject (CM := finalizersCopies) (ZM := None) (Some 0%nat) exampleHeap = Some (Some (RunObject (Some l')), h') /\
    @deepLoad _ _ _ _ _ (AgentRun_copies (CM := finalizersCopies)) _
      (<[3%nat := AttemptsCell []]> (<[2%nat := TimeCell 0]> h')) (Some l') = Some (Some run).
Proof.
  destruct (@deepLoad _ _ _ _ _ (AgentRun_copies (CM := finalizersCopies)) _ exampleHeap (Some 0%nat)) as [[run|]|] eqn:Hrun;
    [|by vm_compute in Hrun|by vm_compute in Hrun].
  destruct (deep_copy_independent (CM := finalizersCopies) (CL := plainCopies unit) (ZM := None) (ZL := tt) exampleHeap) as (_ & _ & Hcopy & _).
  destruct (Hcopy 0%nat run Hrun) as (l' & h' & Hc & _ & _ & _ & Hi & _). exists run, l', h'. split; [done|].
  assert (Hv : length <$> ys_Attempts (yo_Status run) = Some 1%nat /\ ys_Conditions (yo_Status run) = Some []).
  { vm_compute in Hrun. injection Hrun as <-. by split. }
  split; [apply Hv|]. split; [apply Hv|]. split; [exact Hc|]. apply Hi. intros k Hk.
  rewrite !lookup_insert_ne; [done|intros <-; apply Hk; by vm_compute|intros <-; apply Hk; by vm_compute].
Defined.
End Example.
