(* ===== verification/SchedulerMetrics.v ===== *)
(** * What the scheduler reports (internal/application/scheduler: claimer.go,
      eligibility.go, metrics.go)

    The counters of the scheduler and the wrappers that feed them around the calls of
    the queue and of the eligibility repository. Counters are uint64 and wrap around; the
    text of the metrics endpoint is not modelled.

    [claims_reported] says that the wrappers answer what the repositories answer, and
    that the counters of the claims add up. *)

From S2P Require Import Prelude AgentRun Policy Cluster Strategy Events Store Reservations Queue SchedulingIntent.

Definition wrapU64 (z : Z) : Z := z mod 2 ^ 64.

(** The mutex makes every method one step. *)
Record Metrics := {
  mt_Counters : gmap string Z;
  mt_QueueAgeMilliseconds : Z;
  mt_InFlight : Z;
}.

Definition NewMetrics : Metrics := {| mt_Counters := ∅; mt_QueueAgeMilliseconds := 0; mt_InFlight := 0 |}.

Definition counter (name : string) (metrics : Metrics) : Z := default 0 (mt_Counters metrics !! name).

(** [metrics.counters[name] += n] *)
Definition addCounter (name : string) (n : Z) (metrics : Metrics) : Metrics :=
  {| mt_Counters := <[name := wrapU64 (counter name metrics + n)]> (mt_Counters metrics);
     mt_QueueAgeMilliseconds := mt_QueueAgeMilliseconds metrics; mt_InFlight := mt_InFlight metrics |}.

Definition increment (name : string) (metrics : Metrics) : Metrics := addCounter name 1 metrics.

Definition Claimed (result : string) (count : Z) (metrics : Metrics) : Metrics :=
  addCounter "runs_claimed" (Z.max count 0) (increment ("claims_" +:+ result) metrics).

(** [Duration.Milliseconds] truncates. *)
Definition Milliseconds (d : Duration) : Z := Z.quot d 1000000.

Definition QueueAge (age : Duration) (metrics : Metrics) : Metrics :=
  {| mt_Counters := mt_Counters metrics; mt_QueueAgeMilliseconds := Milliseconds age; mt_InFlight := mt_InFlight metrics |}.

Definition LeaseRenewed (result : string) : Metrics -> Metrics := increment ("lease_" +:+ result).
Definition Decided (outcome code : string) : Metrics -> Metrics := increment ("eligibility_" +:+ outcome +:+ "_" +:+ code).
Definition ObserveSelection (strategy result : string) : Metrics -> Metrics := increment ("selection_" +:+ strategy +:+ "_" +:+ result).
Definition Processed (result : string) : Metrics -> Metrics := increment ("processed_" +:+ result).
Definition Backpressure : Metrics -> Metrics := increment "backpressure".
Definition InFlight (delta : Z) (metrics : Metrics) : Metrics :=
  {| mt_Counters := mt_Counters metrics; mt_QueueAgeMilliseconds := mt_QueueAgeMilliseconds metrics;
     mt_InFlight := add64 (mt_InFlight metrics) delta |}.

(** ** claimer.go *)

(** The loop over the claimed runs. *)
Definition oldestAge (now : Time) (claimed : list ClaimedRun) : Duration :=
  fold_left (fun oldest run => let age := TimeSub now (cl_CreatedAt run) in if oldest <? age then age else oldest) claimed 0.

Definition Claimer_Claim (heldElsewhere : UUID -> bool) (request : SchedulerClaimRequest) (db : DB) (metrics : Metrics) :
    res (list ClaimedRun) * DB * Metrics :=
  match Claim heldElsewhere request db with
  | (Err e, db') => (Err e, db', Claimed "error" 0 metrics)
  | (Ok claimed, db') =>
      let oldest := oldestAge (scr_Now request) claimed in
      if 0 <? Z.of_nat (length claimed)
      then (Ok claimed, db', Claimed "claimed" (Z.of_nat (length claimed)) (QueueAge oldest metrics))
      else (Ok claimed, db', Claimed "empty" (Z.of_nat (length claimed)) metrics)
  end.

Section Wrappers.
Context `{UUIDs}.

Definition Claimer_Renew (tenantID runID : UUID) (owner : string) (expectedVersion : Z) (now : Time) (lease : Duration) (db : DB)
    (metrics : Metrics) : res Z * DB * Metrics :=
  match Renew tenantID runID owner expectedVersion now lease db with
  | (Err e, db') => (Err e, db', LeaseRenewed (if e == ErrVersionConflict then "conflict" else "error") metrics)
  | (Ok version, db') => (Ok version, db', LeaseRenewed "renewed" metrics)
  end.

(** ** eligibility.go *)

Definition outcomeText (outcome : EligibilityOutcome) : string :=
  match outcome with EligibilityEligible => "ELIGIBLE" | EligibilityDefer => "DEFER" | EligibilityReject => "REJECT" end.

Definition Service_Evaluate (newDecisionID : res UUID) (run : ClaimedRun) (now : Time) (db : DB) (metrics : Metrics) :
    res EligibilityDecision * DB * Metrics :=
  match Evaluate newDecisionID run now db with
  | (Err e, db') => (Err e, db', Decided "ERROR" "DATABASE" metrics)
  | (Ok decision, db') =>
      (Ok decision, db', Decided (outcomeText (ed_Outcome decision)) (EligibilityCode_string (ed_Code decision)) metrics)
  end.
End Wrappers.

(** ** Claims add up *)

Lemma oldestAge_from now claimed oldest :
  let result := fold_left (fun oldest run => let age := TimeSub now (cl_CreatedAt run) in if oldest <? age then age else oldest) claimed oldest in
  oldest <= result /\ (forall run, run ∈ claimed -> TimeSub now (cl_CreatedAt run) <= result) /\
  (result = oldest \/ exists run, run ∈ claimed /\ result = TimeSub now (cl_CreatedAt run)).
Proof.
  revert oldest. induction claimed as [|run claimed IH]; intros oldest; cbn [fold_left]; [split_and!; [lia|by intros ? ?%elem_of_nil|by left]|].
  cbv zeta. destruct (IH (if oldest <? TimeSub now (cl_CreatedAt run) then TimeSub now (cl_CreatedAt run) else oldest)) as (H1 & H2 & H3).
  cbv zeta in H1, H2, H3. destruct (Z.ltb_spec oldest (TimeSub now (cl_CreatedAt run))).
  - split_and!; [lia|intros r [->|Hr]%elem_of_cons; [lia|auto]|]. right. destruct H3 as [->|(r & Hr & ->)]; [exists run|exists r]; split; set_solver.
  - split_and!; [lia|intros r [->|Hr]%elem_of_cons; [lia|auto]|]. destruct H3 as [->|(r & Hr & ->)]; [by left|right; exists r]. set_solver.
Qed.

(** A sequence of claims, each on the store it finds. *)
Fixpoint claims (calls : list ((UUID -> bool) * SchedulerClaimRequest * DB)) (metrics : Metrics) : Metrics :=
  match calls with
  | [] => metrics
  | (held, request, db) :: rest => claims rest (Claimer_Claim held request db metrics).2
  end.

Definition claimCount (call : (UUID -> bool) * SchedulerClaimRequest * DB) : Z :=
  let '(held, request, db) := call in match (Claim held request db).1 with Ok claimed => Z.of_nat (length claimed) | Err _ => 0 end.

Lemma counter_addCounter name other n metrics :
  counter name (addCounter other n metrics) = if decide (name = other) then wrapU64 (counter name metrics + n) else counter name metrics.
Proof.
  unfold counter, addCounter. cbn [mt_Counters]. destruct (decide (name = other)) as [->|Hne].
  - by rewrite lookup_insert_eq.
  - by rewrite lookup_insert_ne.
Qed.

Lemma counter_QueueAge name age metrics : counter name (QueueAge age metrics) = counter name metrics.
Proof. done. Qed.

(** The counters agree with the totals modulo 2^64. *)
Lemma wrapU64_add_l a b : wrapU64 (wrapU64 a + b) = wrapU64 (a + b).
Proof. unfold wrapU64. apply Z.add_mod_idemp_l. lia. Qed.

Lemma wrapU64_wrap a : wrapU64 (wrapU64 a) = wrapU64 a.
Proof. unfold wrapU64. apply Z.mod_mod. lia. Qed.

Lemma counter_Claimed name result count metrics :
  result ∈ ["claimed"; "empty"; "error"] ->
  counter name (Claimed result count metrics) =
    if decide (name = "runs_claimed") then wrapU64 (counter name metrics + Z.max count 0)
    else if decide (name = "claims_" +:+ result) then wrapU64 (counter name metrics + 1) else counter name metrics.
Proof.
  intros Hin. unfold Claimed, increment. rewrite !counter_addCounter.
  destruct (decide (name = "runs_claimed")) as [->|]; [|done].
  rewrite decide_False; [done|]. rewrite !elem_of_cons, elem_of_nil in Hin. by destruct Hin as [->|[->|[->|[]]]].
Qed.

Definition attempts (metrics : Metrics) : Z :=
  counter "claims_claimed" metrics + counter "claims_empty" metrics + counter "claims_error" metrics.

Lemma Claimer_Claim_counts held request db metrics :
  let metrics' := (Claimer_Claim held request db metrics).2 in
  wrapU64 (counter "runs_claimed" metrics') = wrapU64 (counter "runs_claimed" metrics + claimCount (held, request, db)) /\
  wrapU64 (attempts metrics') = wrapU64 (attempts metrics + 1).
Proof.
  cbv zeta. unfold Claimer_Claim, claimCount, attempts.
  destruct (Claim held request db) as [[claimed|e] db']; [destruct (Z.ltb_spec 0 (Z.of_nat (length claimed)))|]; cbn [fst snd];
    rewrite !counter_Claimed by set_solver; rewrite ?counter_QueueAge; simpl; rewrite ?wrapU64_wrap;
    (split; [f_equal; lia|]); [|rewrite (Z.add_comm (counter "claims_claimed" metrics))|rewrite Z.add_comm];
    rewrite <- ?Z.add_assoc, wrapU64_add_l; f_equal; lia.
Qed.

Lemma claims_count calls metrics :
  wrapU64 (counter "runs_claimed" (claims calls metrics)) = wrapU64 (counter "runs_claimed" metrics + foldr Z.add 0 (map claimCount calls)) /\
  wrapU64 (attempts (claims calls metrics)) = wrapU64 (attempts metrics + Z.of_nat (length calls)).
Proof.
  revert metrics. induction calls as [|[[held request] db] calls IH]; intros metrics; cbn [claims map foldr length].
  { rewrite !Z.add_0_r. done. }
  destruct (IH (Claimer_Claim held request db metrics).2) as [-> ->].
  destruct (Claimer_Claim_counts held request db metrics) as [H1 H2]. cbv zeta in H1, H2. split.
  - rewrite <- wrapU64_add_l, H1, wrapU64_add_l. f_equal. lia.
  - rewrite <- wrapU64_add_l, H2, wrapU64_add_l. f_equal. lia.
Qed.

(** The scheduler's wrappers answer exactly what the queue and the eligibility
    repository answer, on every branch; over any sequence of claims from a fresh process the
    counter of claimed runs is, modulo 2^64, the number of runs claimed, and the three claim
    results together count the calls; a claim that finds runs reports the age in milliseconds
    of the longest-waiting run it claimed, when that run has waited at all, and one that finds
    none or fails leaves the gauge alone. *)
Theorem claims_reported `{UUIDs} calls held request db metrics newDecisionID run now tenantID runID owner version lease :
  (Claimer_Claim held request db metrics).1 = Claim held request db /\
  (Claimer_Renew tenantID runID owner version now lease db metrics).1 = Renew tenantID runID owner version now lease db /\
  (Service_Evaluate newDecisionID run now db metrics).1 = Evaluate newDecisionID run now db /\
  wrapU64 (counter "runs_claimed" (claims calls NewMetrics)) = wrapU64 (foldr Z.add 0 (map claimCount calls)) /\
  wrapU64 (attempts (claims calls NewMetrics)) = wrapU64 (Z.of_nat (length calls)) /\
  match (Claim held request db).1 with
  | Ok (first :: rest) =>
      exists age, mt_QueueAgeMilliseconds (Claimer_Claim held request db metrics).2 = Milliseconds age /\ 0 <= age /\
        (forall claimed, claimed ∈ first :: rest -> TimeSub (scr_Now request) (cl_CreatedAt claimed) <= age) /\
        (age = 0 \/ exists claimed, claimed ∈ first :: rest /\ age = TimeSub (scr_Now request) (cl_CreatedAt claimed))
  | _ => mt_QueueAgeMilliseconds (Claimer_Claim held request db metrics).2 = mt_QueueAgeMilliseconds metrics
  end.
Proof.
  destruct (claims_count calls NewMetrics) as [H1 H2]. split_and!; [| | |exact H1|exact H2|].
  - unfold Claimer_Claim. destruct (Claim held request db) as [[[|]|] ?]; done.
  - unfold Claimer_Renew. destruct (Renew _ _ _ _ _ _ _) as [[|] ?]; done.
  - unfold Service_Evaluate. destruct (Evaluate _ _ _ _) as [[|] ?]; done.
  - unfold Claimer_Claim. destruct (Claim held request db) as [[[|first rest]|] ?]; try done.
    exists (oldestAge (scr_Now request) (first :: rest)). split; [done|]. exact (oldestAge_from _ _ 0).
Qed.
