(* ===== verification/Flags.v ===== *)
(** * Command-line flags (the flag package of Go's standard library)

    What the commands use of package flag: string, boolean and integer flags, the forms
    -name, -name=value and -name value, one or two hyphens, the end of the flags, and
    strconv.ParseInt with base 0, which reads the prefixes of Go's integer literals.
    [parse_assignment] is the reading of one -name=value. *)

From S2P Require Import Prelude GoText.

(** ** strconv.ParseInt(s, 0, 64) *)

(** The value of a digit of any base up to 16, or [None] for another byte. *)
Definition digitOf (c : Ascii.ascii) : option Z :=
  if digit c then Some (digitValue c)
  else if byte_in 97 102 c then Some (Z.of_N (Ascii.N_of_ascii c) - 87)
  else if byte_in 65 70 c then Some (Z.of_N (Ascii.N_of_ascii c) - 55)
  else None.

(** The loop of [ParseUint]: underscores are skipped here and checked afterwards. *)
Fixpoint parseDigits (base : Z) (l : list Ascii.ascii) (acc : Z) : option Z :=
  match l with
  | [] => Some acc
  | c :: rest =>
      if underscore c then parseDigits base rest acc
      else match digitOf c with
           | Some d => if d <? base then parseDigits base rest (acc * base + d) else None
           | None => None
           end
  end.

(** The base of a literal and the digits after its prefix. *)
Definition basePrefix (l : list Ascii.ascii) : Z * list Ascii.ascii :=
  match l with
  | z :: x :: d :: rest =>
      if negb (byte_is 48 z) then (10, l)
      else if byte_is 98 x || byte_is 66 x then (2, d :: rest)
      else if byte_is 111 x || byte_is 79 x then (8, d :: rest)
      else if byte_is 120 x || byte_is 88 x then (16, d :: rest)
      else (8, x :: d :: rest)
  | z :: rest => if byte_is 48 z then (8, rest) else (10, l)
  | [] => (10, l)
  end.

(** What [underscoreOK] has seen last: the beginning, a digit, an underscore, or else. *)
Inductive UnderscoreState := SeenStart | SeenDigit | SeenUnderscore | SeenOther.

Fixpoint underscoreLoop (hex : bool) (seen : UnderscoreState) (l : list Ascii.ascii) : bool :=
  match l with
  | [] => match seen with SeenUnderscore => false | _ => true end
  | c :: rest =>
      if digit c || (hex && (byte_in 97 102 c || byte_in 65 70 c)) then underscoreLoop hex SeenDigit rest
      else if underscore c then match seen with SeenDigit => underscoreLoop hex SeenUnderscore rest | _ => false end
      else match seen with SeenUnderscore => false | _ => underscoreLoop hex SeenOther rest end
  end.

Definition underscoreOK (l : list Ascii.ascii) : bool :=
  match l with
  | z :: x :: rest =>
      let hex := byte_is 120 x || byte_is 88 x in
      if byte_is 48 z && (byte_is 98 x || byte_is 66 x || byte_is 111 x || byte_is 79 x || hex)
      then underscoreLoop hex SeenDigit rest
      else underscoreLoop false SeenStart l
  | _ => underscoreLoop false SeenStart l
  end.

Definition ParseUint0 (l : list Ascii.ascii) : option Z :=
  match l with
  | [] => None
  | _ =>
      let '(base, ds) := basePrefix l in
      match parseDigits base ds 0 with
      | Some v => if existsb underscore ds && negb (underscoreOK l) then None else Some v
      | None => None
      end
  end.

Definition ParseInt0 (s : string) : option Z :=
  let signed (neg : bool) (l : list Ascii.ascii) :=
    match ParseUint0 l with
    | None => None
    | Some v =>
        if neg : bool then if 2 ^ 63 <? v then None else Some (- v)
        else if 2 ^ 63 <=? v then None else Some v
    end in
  match bytes s with
  | [] => None
  | c :: rest =>
      if byte_is 43 c then signed false rest else if byte_is 45 c then signed true rest else signed false (c :: rest)
  end.

(** ** Flag sets *)

Inductive FlagValue :=
| StringFlag (s : string)
| BoolFlag (b : bool)
| IntFlag (z : Z).

(** The defined flags with their values. *)
Notation FlagSet := (gmap string FlagValue).

(** [Value.Set] *)
Definition setFlag (current : FlagValue) (text : string) : option FlagValue :=
  match current with
  | StringFlag _ => Some (StringFlag text)
  | BoolFlag _ => BoolFlag <$> ParseBool text
  | IntFlag _ => IntFlag <$> ParseInt0 text
  end.

Definition equalsByte : Ascii.ascii := Ascii.ascii_of_nat 61.

(** The name before the first equals sign that is not its first byte, and the value after it. *)
Fixpoint splitEquals (first : bool) (l : list Ascii.ascii) : list Ascii.ascii * option (list Ascii.ascii) :=
  match l with
  | [] => ([], None)
  | c :: rest =>
      if negb first && Ascii.eqb c equalsByte then ([], Some rest)
      else let '(name, value) := splitEquals false rest in (c :: name, value)
  end.

Inductive Argument :=
| NotFlag
| Terminator
| BadFlag
| NamedFlag (name : string) (value : option string).

Definition ofBytes (l : list Ascii.ascii) : string := String.string_of_list_ascii l.

Definition namedFlag (l : list Ascii.ascii) : Argument :=
  match l with
  | [] => BadFlag
  | c :: _ =>
      if hyphen c || Ascii.eqb c equalsByte then BadFlag
      else let '(name, value) := splitEquals true l in NamedFlag (ofBytes name) (ofBytes <$> value)
  end.

(** The beginning of [parseOne]. *)
Definition classifyArgument (argument : string) : Argument :=
  match bytes argument with
  | a :: b :: rest =>
      if negb (hyphen a) then NotFlag
      else if hyphen b then match rest with [] => Terminator | _ => namedFlag rest end
      else namedFlag (b :: rest)
  | _ => NotFlag
  end.

Definition ErrHelp : error := ErrPlain "flag: help requested".

(** [FlagSet.Parse]: the flags with their values, and the arguments that are left. *)
Fixpoint parseFlags (formal : FlagSet) (arguments : list string) : res (FlagSet * list string) :=
  match arguments with
  | [] => Ok (formal, [])
  | argument :: rest =>
      match classifyArgument argument with
      | NotFlag => Ok (formal, arguments)
      | Terminator => Ok (formal, rest)
      | BadFlag => Err (ErrPlain "bad flag syntax")
      | NamedFlag name value =>
          match formal !! name with
          | None => if (name == "help") || (name == "h") then Err ErrHelp else Err (ErrPlain "flag provided but not defined")
          | Some (BoolFlag b) =>
              match setFlag (BoolFlag b) (default "true" value) with
              | Some v => parseFlags (<[name := v]> formal) rest
              | None => Err (ErrPlain "invalid boolean value")
              end
          | Some current =>
              match value with
              | Some text =>
                  match setFlag current text with
                  | Some v => parseFlags (<[name := v]> formal) rest
                  | None => Err (ErrPlain "invalid value")
                  end
              | None =>
                  match rest with
                  | [] => Err (ErrPlain "flag needs an argument")
                  | text :: rest' =>
                      match setFlag current text with
                      | Some v => parseFlags (<[name := v]> formal) rest'
                      | None => Err (ErrPlain "invalid value")
                      end
                  end
              end
          end
      end
  end.

(** The value of a flag after parsing. *)
Definition stringFlag (name : string) (formal : FlagSet) : string :=
  match formal !! name with Some (StringFlag s) => s | _ => EmptyString end.
Definition boolFlag (name : string) (formal : FlagSet) : bool := match formal !! name with Some (BoolFlag b) => b | _ => false end.
Definition intFlag (name : string) (formal : FlagSet) : Z := match formal !! name with Some (IntFlag z) => z | _ => 0 end.

(** ** Reading what was written *)

Lemma parseDigits_decimal l acc : forallb digit l = true -> parseDigits 10 l acc = Some (fold_left (fun acc c => acc * 10 + digitValue c) l acc).
Proof.
  revert acc. induction l as [|c l IH]; intros acc; [done|]. cbn [forallb parseDigits fold_left]. intros [Hc Hl]%andb_true_iff.
  assert (underscore c = false /\ digitOf c = Some (digitValue c) /\ (digitValue c <? 10) = true) as (-> & -> & ->); [|by apply IH].
  unfold digitOf. rewrite Hc. by revert Hc; destruct c as [[] [] [] [] [] [] [] []].
Qed.

Lemma digits_no_underscore l : forallb digit l = true -> existsb underscore l = false.
Proof.
  induction l as [|c l IH]; [done|]. cbn [forallb existsb]. intros [Hc Hl]%andb_true_iff. rewrite IH by done.
  by revert Hc; destruct c as [[] [] [] [] [] [] [] []].
Qed.

Lemma basePrefix_decimal d ds : byte_is 48 d = false -> basePrefix (d :: ds) = (10, d :: ds).
Proof. intros Hd. by destruct ds as [|x [|y ds]]; cbn [basePrefix]; rewrite Hd. Qed.

(** Decimal text of an int64 is read as the number. *)
Lemma ParseInt0_Itoa z : in_int64 z -> ParseInt0 (Itoa z) = Some z.
Proof.
  unfold in_int64. intros Hz. destruct (Itoa_digits z) as [[-> ->]|(sign & d & ds & Hb & Hs & Hd & Hd0 & Hds & Hv)]; [reflexivity|].
  assert (Hu : ParseUint0 (d :: ds) = Some (Z.abs z)).
  { unfold ParseUint0. rewrite basePrefix_decimal, parseDigits_decimal by (cbn [forallb]; by rewrite ?Hd).
    fold (digitsValue (d :: ds)). by rewrite Hv, digits_no_underscore by (cbn [forallb]; by rewrite Hd). }
  unfold ParseInt0. rewrite Hb. destruct Hs as [[-> Hpos]|[-> Hneg]]; cbn [app].
  - assert (byte_is 43 d = false /\ byte_is 45 d = false) as [-> ->] by (by revert Hd; destruct d as [[] [] [] [] [] [] [] []]).
    rewrite Hu. replace (2 ^ 63 <=? Z.abs z) with false by lia. f_equal. lia.
  - change (byte_is 43 hyphenByte) with false. change (byte_is 45 hyphenByte) with true. rewrite Hu. replace (2 ^ 63 <? Z.abs z) with false by lia. f_equal. lia.
Qed.

(** Names a flag can be given by. *)
Definition flagName (name : string) : bool :=
  match bytes name with
  | [] => false
  | c :: rest => negb (hyphen c) && forallb (fun c => negb (Ascii.eqb c equalsByte)) (c :: rest)
  end.

Definition assignment (name value : string) : string := "-" +:+ name +:+ "=" +:+ value.

Lemma splitEquals_name first l v : forallb (fun c => negb (Ascii.eqb c equalsByte)) l = true -> (first = false \/ l <> []) ->
  splitEquals first (l ++ equalsByte :: v) = (l, Some v).
Proof.
  revert first. induction l as [|c l IH]; intros first Hl Hf; [by destruct Hf as [->|]|]. cbn [forallb app splitEquals] in *.
  apply andb_true_iff in Hl as [Hc%negb_true_iff Hl]. rewrite Hc, andb_false_r. by rewrite IH by auto.
Qed.

Lemma classify_assignment name value : flagName name = true -> classifyArgument (assignment name value) = NamedFlag name (Some value).
Proof.
  unfold flagName, classifyArgument, assignment. intros Hn. rewrite !bytes_app. destruct (bytes name) as [|c rest] eqn:Hb; [done|].
  apply andb_true_iff in Hn as [Hc%negb_true_iff Hn]. change (bytes "-") with [hyphenByte]. change (bytes "=") with [equalsByte]. cbn [app].
  change (hyphen hyphenByte) with true. cbn [negb]. rewrite Hc. unfold namedFlag. rewrite Hc.
  pose proof Hn as [Hc'%negb_true_iff _]%andb_true_iff. rewrite Hc'. cbn [orb].
  change (c :: rest ++ equalsByte :: bytes value) with ((c :: rest) ++ equalsByte :: bytes value). rewrite splitEquals_name by (auto; by right). cbn [fmap option_fmap option_map]. unfold ofBytes. by rewrite <-Hb, !of_list_bytes.
Qed.

(** An argument -name=value assigns the value to the flag, whatever its kind. *)
Lemma parse_assignment formal name value current v rest :
  flagName name = true -> formal !! name = Some current -> setFlag current value = Some v ->
  parseFlags formal (assignment name value :: rest) = parseFlags (<[name := v]> formal) rest.
Proof.
  intros Hn Hf Hs. cbn [parseFlags]. rewrite classify_assignment, Hf by done. cbn [default from_option id]. destruct current; by rewrite Hs.
Qed.
