(* ===== verification/ClusterCtl.v ===== *)
(** * The cluster registry command (cmd/clusterctl/main.go)

    The command that registers and updates execution clusters: its flags, the cluster and
    capacity they describe, and the call of the registry. [clusterctl_manages] says that
    the command line of a cluster registers or updates exactly that cluster, and that a
    command that fails changes nothing. *)

From S2P Require Import Prelude AgentRun Policy Cluster Strategy Events Store Reservations Registry HttpApi Artifacts ArtifactExamples Paths Url GoText Config Database Flags.

(** The values of the flags, in the order they are defined. *)
Record CtlFlags := {
  fl_ID : string;
  fl_Region : string;
  fl_Status : string;
  fl_Runtimes : string;
  fl_Profiles : string;
  fl_Maintenance : bool;
  fl_TenantRestricted : bool;
  fl_AllowedTenants : string;
  fl_Weight : Z;
  fl_CPUCost : Z;
  fl_MemoryCost : Z;
  fl_CPUMillis : Z;
  fl_MemoryMiB : Z;
  fl_QueuedWorkloads : Z;
  fl_ExpectedVersion : Z;
}.

Definition defaultFlags : FlagSet := list_to_map
  [("id", StringFlag EmptyString); ("region", StringFlag EmptyString); ("status", StringFlag "ACTIVE");
   ("runtimes", StringFlag EmptyString); ("profiles", StringFlag EmptyString); ("maintenance", BoolFlag false);
   ("tenant-restricted", BoolFlag false); ("allowed-tenants", StringFlag EmptyString); ("weight", IntFlag 100);
   ("cpu-cost", IntFlag 0); ("memory-cost", IntFlag 0); ("cpu-millis", IntFlag 0); ("memory-mib", IntFlag 0);
   ("queued-workloads", IntFlag 0); ("expected-version", IntFlag 0)].

Definition readFlags (formal : FlagSet) : CtlFlags :=
  {| fl_ID := stringFlag "id" formal; fl_Region := stringFlag "region" formal; fl_Status := stringFlag "status" formal;
     fl_Runtimes := stringFlag "runtimes" formal; fl_Profiles := stringFlag "profiles" formal;
     fl_Maintenance := boolFlag "maintenance" formal; fl_TenantRestricted := boolFlag "tenant-restricted" formal;
     fl_AllowedTenants := stringFlag "allowed-tenants" formal; fl_Weight := intFlag "weight" formal;
     fl_CPUCost := intFlag "cpu-cost" formal; fl_MemoryCost := intFlag "memory-cost" formal;
     fl_CPUMillis := intFlag "cpu-millis" formal; fl_MemoryMiB := intFlag "memory-mib" formal;
     fl_QueuedWorkloads := intFlag "queued-workloads" formal; fl_ExpectedVersion := intFlag "expected-version" formal |}.

Definition splitValues (value : string) : list string :=
  if TrimSpace value == EmptyString then []
  else (fun part => TrimSpace (ofBytes part)) <$> splitOn commaByte (bytes value).

(** [domain.ClusterStatus(s)] *)
Definition clusterStatusOf (s : string) : ClusterStatus :=
  if s == "ACTIVE" then ClusterActive else if s == "UNAVAILABLE" then ClusterUnavailable else ClusterStatusOther s.

(** The cluster literal; its version and the times of its row are still zero. *)
Definition describedCluster (flags : CtlFlags) (now : Time) : ExecutionCluster :=
  {| ec_ID := fl_ID flags; ec_Region := fl_Region flags; ec_Status := clusterStatusOf (fl_Status flags);
     ec_SupportedRuntimes := splitValues (fl_Runtimes flags);
     ec_SupportedExecutionProfiles := splitValues (fl_Profiles flags); ec_Maintenance := fl_Maintenance flags;
     ec_TenantRestricted := fl_TenantRestricted flags; ec_SchedulingWeight := fl_Weight flags;
     ec_CPUCostMinorUnits := fl_CPUCost flags; ec_MemoryGiBCostMinorUnits := fl_MemoryCost flags;
     ec_LastHeartbeatAt := now; ec_Version := 0; ec_CreatedAt := 0; ec_UpdatedAt := 0 |}.

Definition describedCapacity (flags : CtlFlags) (now : Time) : ClusterCapacity :=
  {| cc_ClusterID := fl_ID flags; cc_ObservedAt := now; cc_AllocatableCPUMillis := fl_CPUMillis flags;
     cc_AllocatableMemoryMiB := fl_MemoryMiB flags; cc_QueuedWorkloads := fl_QueuedWorkloads flags |}.

(** What the surroundings answer: the database driver, its ping, and standard output. *)
Record CtlAnswers := {
  ka_Driver : option error;
  ka_Ping : option error;
  ka_Print : option error;
}.

Section Command.
Context `{UUIDs} `{!UUIDText} {IL : IPLiterals} (lookup : string -> option string).

Fixpoint parseAll (values : list string) : res (list UUID) :=
  match values with
  | [] => Ok []
  | value :: rest =>
      match uuidParse value with
      | None => Err (ErrPlain "invalid tenant UUID")
      | Some identifier => identifiers ← parseAll rest; Ok (identifier :: identifiers)
      end
  end.

Definition parseTenantIDs (value : string) : res (list UUID) := parseAll (splitValues value).

Definition registerCluster (flags : CtlFlags) (tenantIDs : list UUID) (now : Time) (db : DB) : res ExecutionCluster * DB :=
  match NewExecutionCluster (describedCluster flags now) now with
  | Err e => (Err e, db)
  | Ok cluster =>
      match Register cluster (describedCapacity flags now) tenantIDs db with
      | (Err e, db') => (Err e, db')
      | (Ok _, db') => (Ok cluster, db')
      end
  end.

Definition updateCluster (flags : CtlFlags) (tenantIDs : list UUID) (now : Time) (db : DB) : res ExecutionCluster * DB :=
  if fl_ExpectedVersion flags <? 1 then (Err (ErrPlain "-expected-version must be positive for update"), db)
  else
    match Get (fl_ID flags) db with
    | Err e => (Err e, db)
    | Ok (current, _) =>
        let cluster := (describedCluster flags now) <| ec_CreatedAt := ec_CreatedAt current |> <| ec_UpdatedAt := now |>
          <| ec_Version := add64 (fl_ExpectedVersion flags) 1 |> in
        match Cluster_Validate cluster now with
        | Err e => (Err e, db)
        | Ok _ =>
            match Update cluster (fl_ExpectedVersion flags) (describedCapacity flags now) tenantIDs db with
            | (Err e, db') => (Err e, db')
            | (Ok _, db') => (Ok cluster, db')
            end
        end
    end.

(** [run] before the registry is touched. *)
Definition ctlFlags (answers : CtlAnswers) (arguments : list string) : res CtlFlags :=
  '(formal, _) ← parseFlags defaultFlags arguments;
  _ ← LoadPlatform lookup;
  _ ← Open (ka_Driver answers) (ka_Ping answers);
  Ok (readFlags formal).

Definition clusterLine (cluster : ExecutionCluster) : string := ec_ID cluster +:+ " version=" +:+ Itoa (ec_Version cluster).

(** [run]: the line printed, or the error. *)
Definition clusterctl (answers : CtlAnswers) (now : Time) (arguments : list string) (db : DB) : res string * DB :=
  match arguments with
  | [] => (Err (ErrPlain "usage: clusterctl <register|update> [flags]"), db)
  | command :: rest =>
      if (command != "register") && (command != "update") then (Err (ErrPlain "usage: clusterctl <register|update> [flags]"), db)
      else
        match
          flags ← ctlFlags answers rest;
          tenantIDs ← parseTenantIDs (fl_AllowedTenants flags);
          Ok (flags, tenantIDs)
        with
        | Err e => (Err e, db)
        | Ok (flags, tenantIDs) =>
            let '(result, db') :=
              if command == "register" then registerCluster flags tenantIDs now db else updateCluster flags tenantIDs now db in
            match result, ka_Print answers with
            | Err e, _ => (Err e, db')
            | Ok _, Some _ => (Err (ErrPlain "write result"), db')
            | Ok cluster, None => (Ok (clusterLine cluster), db')
            end
        end
  end.
End Command.

(** ** The command line of a cluster *)

Definition statusText (status : ClusterStatus) : string :=
  match status with ClusterActive => "ACTIVE" | ClusterUnavailable => "UNAVAILABLE" | ClusterStatusOther s => s end.
Definition boolText (b : bool) : string := if b then "true" else "false".
Definition joinValues (values : list string) : string := ofBytes (joinWith [commaByte] (bytes <$> values)).

Definition renderFlags (flags : CtlFlags) : list string :=
  [assignment "id" (fl_ID flags); assignment "region" (fl_Region flags); assignment "status" (fl_Status flags);
   assignment "runtimes" (fl_Runtimes flags); assignment "profiles" (fl_Profiles flags);
   assignment "maintenance" (boolText (fl_Maintenance flags));
   assignment "tenant-restricted" (boolText (fl_TenantRestricted flags));
   assignment "allowed-tenants" (fl_AllowedTenants flags); assignment "weight" (Itoa (fl_Weight flags));
   assignment "cpu-cost" (Itoa (fl_CPUCost flags)); assignment "memory-cost" (Itoa (fl_MemoryCost flags));
   assignment "cpu-millis" (Itoa (fl_CPUMillis flags)); assignment "memory-mib" (Itoa (fl_MemoryMiB flags));
   assignment "queued-workloads" (Itoa (fl_QueuedWorkloads flags));
   assignment "expected-version" (Itoa (fl_ExpectedVersion flags))].

Record flags_typed (flags : CtlFlags) : Prop := {
  ft_Weight : in_int64 (fl_Weight flags);
  ft_CPUCost : in_int64 (fl_CPUCost flags);
  ft_MemoryCost : in_int64 (fl_MemoryCost flags);
  ft_CPUMillis : in_int64 (fl_CPUMillis flags);
  ft_MemoryMiB : in_int64 (fl_MemoryMiB flags);
  ft_Queued : in_int64 (fl_QueuedWorkloads flags);
  ft_Expected : in_int64 (fl_ExpectedVersion flags);
}.

Lemma ParseBool_text b : ParseBool (boolText b) = Some b.
Proof. by destruct b. Qed.

(** One -name=value of a concrete flag. *)
Ltac assign_flag :=
  erewrite parse_assignment;
  [|reflexivity|vm_compute; reflexivity
   |cbn [setFlag]; first [reflexivity | rewrite ParseBool_text; reflexivity | rewrite ParseInt0_Itoa by assumption; reflexivity]].

Lemma parse_renderFlags flags : flags_typed flags ->
  exists formal, parseFlags defaultFlags (renderFlags flags) = Ok (formal, []) /\ readFlags formal = flags.
Proof.
  intros []. destruct flags. unfold renderFlags. cbn [fl_ID fl_Region fl_Status fl_Runtimes fl_Profiles fl_Maintenance
    fl_TenantRestricted fl_AllowedTenants fl_Weight fl_CPUCost fl_MemoryCost fl_CPUMillis fl_MemoryMiB fl_QueuedWorkloads fl_ExpectedVersion] in *.
  do 15 assign_flag. cbn [parseFlags]. eexists. split; reflexivity.
Qed.

(** Values a comma-separated list can carry. *)
Definition listable (value : string) : Prop :=
  value <> EmptyString /\ forallb graphic (bytes value) = true /\ commaByte ∉ bytes value.

Lemma joined_graphic parts : Forall (fun part => forallb graphic part = true) parts -> forallb graphic (joinWith [commaByte] parts) = true.
Proof.
  induction 1 as [|part parts Hp Hps IH]; [done|]. destruct parts as [|next parts]; [done|]. cbn [joinWith].
  rewrite !forallb_app, Hp. cbn [forallb andb]. exact IH.
Qed.

Lemma splitValues_join values : Forall listable values -> splitValues (joinValues values) = values.
Proof.
  intros Hv. unfold splitValues, joinValues. destruct values as [|first rest]; [done|].
  assert (Hg : Forall (fun part => forallb graphic part = true) (bytes <$> first :: rest)).
  { apply Forall_fmap. eapply Forall_impl; [exact Hv|]. by intros v (_ & Hg & _). }
  assert (Ht : TrimSpace (ofBytes (joinWith [commaByte] (bytes <$> first :: rest))) = ofBytes (joinWith [commaByte] (bytes <$> first :: rest))).
  { apply TrimSpace_graphic. unfold ofBytes. rewrite bytes_of_list. by apply joined_graphic. }
  rewrite Ht, bool_decide_eq_false_2.
  - unfold ofBytes at 2. rewrite bytes_of_list, splitOn_join; [|done|].
    + rewrite <-list_fmap_compose. transitivity (id <$> first :: rest); [|apply list_fmap_id].
      apply list_fmap_ext. intros i v Hi. cbn. unfold ofBytes. rewrite of_list_bytes. apply TrimSpace_graphic.
      by apply (Forall_lookup_1 _ _ _ _ Hv Hi).
    + apply Forall_fmap. eapply Forall_impl; [exact Hv|]. by intros v (_ & _ & Hc).
  - intros E. apply (f_equal bytes) in E. unfold ofBytes in E. rewrite bytes_of_list in E. apply Forall_cons in Hv as [(Hne & _) _].
    apply Hne, bytes_inj. destruct rest; cbn in E; [done|]. by apply app_nil in E as [-> _].
Qed.

Lemma policyValue_listable v : schedulerPolicyValuePattern v = true -> listable v.
Proof.
  unfold schedulerPolicyValuePattern, matchClass, listable. destruct (bytes v) as [|c l] eqn:Hb; [done|].
  intros [[[Hc Hl]%andb_true_iff _]%andb_true_iff _]%andb_true_iff.
  assert (Hall : forall d, lowerAlnum d || dot d || underscore d || hyphen d = true -> graphic d = true /\ d <> commaByte)
    by (by intros [[] [] [] [] [] [] [] []]).
  assert (Hcl : forall d, d ∈ c :: l -> graphic d = true /\ d <> commaByte).
  { intros d [->|Hd]%elem_of_cons; apply Hall; [by rewrite Hc|]. by apply (proj1 (forallb_forall _ _) Hl), list_elem_of_In. }
  split_and!.
  - intros ->. done.
  - apply forallb_forall. intros d Hd%list_elem_of_In. by apply Hcl.
  - intros Hd. by destruct (Hcl _ Hd).
Qed.

#[local] Arguments splitValues : simpl never.
#[local] Arguments joinValues : simpl never.
#[local] Arguments clusterStatusOf : simpl never.
#[local] Arguments statusText : simpl never.
#[local] Arguments LoadPlatform : simpl never.

(** The flags that describe a cluster. *)
Definition flagsOf `{UUIDs} (cluster : ExecutionCluster) (capacity : ClusterCapacity) (tenantIDs : list UUID) (expectedVersion : Z) : CtlFlags :=
  {| fl_ID := ec_ID cluster; fl_Region := ec_Region cluster; fl_Status := statusText (ec_Status cluster);
     fl_Runtimes := joinValues (ec_SupportedRuntimes cluster); fl_Profiles := joinValues (ec_SupportedExecutionProfiles cluster);
     fl_Maintenance := ec_Maintenance cluster; fl_TenantRestricted := ec_TenantRestricted cluster;
     fl_AllowedTenants := joinValues (uuidString <$> tenantIDs); fl_Weight := ec_SchedulingWeight cluster;
     fl_CPUCost := ec_CPUCostMinorUnits cluster; fl_MemoryCost := ec_MemoryGiBCostMinorUnits cluster;
     fl_CPUMillis := cc_AllocatableCPUMillis capacity; fl_MemoryMiB := cc_AllocatableMemoryMiB capacity;
     fl_QueuedWorkloads := cc_QueuedWorkloads capacity; fl_ExpectedVersion := expectedVersion |}.

(** A valid cluster as an operator of the platform would describe it at [now]. *)
Record describable (cluster : ExecutionCluster) (capacity : ClusterCapacity) (tenantIDs : list UUID) (now : Time) : Prop := {
  ds_valid : Cluster_Validate cluster now = Ok tt;
  ds_heartbeat : ec_LastHeartbeatAt cluster = now;
  ds_updated : ec_UpdatedAt cluster = now;
  ds_cpuCost : in_int64 (ec_CPUCostMinorUnits cluster);
  ds_memoryCost : in_int64 (ec_MemoryGiBCostMinorUnits cluster);
  ds_capacity : cc_ClusterID capacity = ec_ID cluster /\ cc_ObservedAt capacity = now;
  ds_typed : in_int64 (cc_AllocatableCPUMillis capacity) /\ in_int64 (cc_AllocatableMemoryMiB capacity) /\ in_int64 (cc_QueuedWorkloads capacity);
  ds_tenants : Forall isUUID tenantIDs;
}.

Section Manages.
Context `{UUIDs} `{!UUIDText} `{!UUIDForm} {IL : IPLiterals} (lookup : string -> option string).

Lemma uuid_listable u : listable (uuidString u).
Proof.
  pose proof (uuidString_form u) as Hf. split_and!; [apply uuidString_nonempty| |].
  - apply forallb_forall. intros c Hc. apply (proj1 (forallb_forall _ _) Hf) in Hc. by revert Hc; destruct c as [[] [] [] [] [] [] [] []].
  - intros Hc%list_elem_of_In. by apply (proj1 (forallb_forall _ _) Hf) in Hc.
Qed.

Lemma parseTenantIDs_join tenantIDs : Forall isUUID tenantIDs -> parseTenantIDs (joinValues (uuidString <$> tenantIDs)) = Ok tenantIDs.
Proof.
  intros Ht. unfold parseTenantIDs. rewrite splitValues_join.
  - induction Ht as [|u l Hu _ IH]; [done|]. cbn [fmap list_fmap parseAll]. rewrite uuidParse_string by done.
    change (list_fmap UUID string uuidString l) with (uuidString <$> l). by rewrite IH.
  - apply Forall_fmap, Forall_forall. intros u _. apply uuid_listable.
Qed.

Lemma clusterStatusOf_text status : status = ClusterActive \/ status = ClusterUnavailable -> clusterStatusOf (statusText status) = status.
Proof. by intros [->| ->]. Qed.

Lemma values_listable values n : validClusterValues values n = true -> Forall listable values.
Proof.
  unfold validClusterValues. destruct (_ || _); [done|]. intros (Hp & _)%uniqueLoop_spec.
  eapply Forall_impl; [exact Hp|]. apply policyValue_listable.
Qed.

(** The cluster literal of the flags is the cluster, up to its version and row times. *)
Lemma described_flagsOf cluster capacity tenantIDs expected now :
  describable cluster capacity tenantIDs now ->
  (describedCluster (flagsOf cluster capacity tenantIDs expected) now) <| ec_CreatedAt := ec_CreatedAt cluster |> <| ec_UpdatedAt := now |>
    <| ec_Version := ec_Version cluster |> = cluster /\
  describedCapacity (flagsOf cluster capacity tenantIDs expected) now = capacity.
Proof.
  intros []. apply Cluster_Validate_iff in ds_valid0 as (_ & _ & Hst & _ & _ & _ & _ & _ & _ & Hr%values_listable & Hp%values_listable).
  destruct ds_capacity0 as [Hid Hobs]. destruct cluster, capacity. cbn in *. subst. unfold describedCluster, describedCapacity, flagsOf. cbn.
  by rewrite clusterStatusOf_text, !splitValues_join by done.
Qed.

Lemma flagsOf_typed cluster capacity tenantIDs expected now :
  describable cluster capacity tenantIDs now -> in_int64 expected -> flags_typed (flagsOf cluster capacity tenantIDs expected).
Proof.
  intros [Hv _ _ Hc Hm _ (Hb1 & Hb2 & Hb3) _] He. apply Cluster_Validate_iff in Hv as (_ & _ & _ & Hw & _).
  split; cbn [fl_Weight fl_CPUCost fl_MemoryCost fl_CPUMillis fl_MemoryMiB fl_QueuedWorkloads fl_ExpectedVersion flagsOf]; try done.
  unfold in_int64. lia.
Qed.

Definition noAnswers : CtlAnswers := {| ka_Driver := None; ka_Ping := None; ka_Print := None |}.

(** A command line written for a cluster is read as its flags. *)
Lemma ctlFlags_render configuration cluster capacity tenantIDs expected now :
  LoadPlatform lookup = Ok configuration -> describable cluster capacity tenantIDs now -> in_int64 expected ->
  ctlFlags lookup noAnswers (renderFlags (flagsOf cluster capacity tenantIDs expected)) = Ok (flagsOf cluster capacity tenantIDs expected).
Proof.
  intros Hl Hd He. destruct (parse_renderFlags _ (flagsOf_typed _ _ _ _ _ Hd He)) as (formal & Hp & Hr).
  unfold ctlFlags. rewrite Hp. cbn [mbind res_bind]. rewrite Hl. cbn. by rewrite Hr.
Qed.

Lemma registerCluster_flagsOf cluster capacity tenantIDs now db :
  describable cluster capacity tenantIDs now -> ec_Version cluster = 1 -> ec_CreatedAt cluster = now ->
  registerCluster (flagsOf cluster capacity tenantIDs 0) tenantIDs now db =
    match Register cluster capacity tenantIDs db with (Ok _, db') => (Ok cluster, db') | (Err e, db') => (Err e, db') end.
Proof.
  intros Hd Hver Hcr. destruct (described_flagsOf _ _ _ 0 _ Hd) as [Hcl Hcap]. unfold registerCluster, NewExecutionCluster, UTC.
  assert (E : (describedCluster (flagsOf cluster capacity tenantIDs 0) now) <| ec_Version := 1 |> <| ec_CreatedAt := now |> <| ec_UpdatedAt := now |> = cluster)
    by (rewrite <-Hcl at 2; by rewrite Hver, Hcr).
  rewrite E, Hcap, (ds_valid _ _ _ _ Hd). cbn. by destruct (Register _ _ _ _) as [[]].
Qed.

Lemma updateCluster_flagsOf cluster capacity tenantIDs expected now db current snapshot :
  describable cluster capacity tenantIDs now -> 1 <= expected -> ec_Version cluster = add64 expected 1 ->
  Get (ec_ID cluster) db = Ok (current, snapshot) -> ec_CreatedAt cluster = ec_CreatedAt current ->
  updateCluster (flagsOf cluster capacity tenantIDs expected) tenantIDs now db =
    match Update cluster expected capacity tenantIDs db with (Ok _, db') => (Ok cluster, db') | (Err e, db') => (Err e, db') end.
Proof.
  intros Hd Hexp Hver Hget Hcr. destruct (described_flagsOf _ _ _ expected _ Hd) as [Hcl Hcap]. unfold updateCluster.
  cbn [fl_ExpectedVersion fl_ID flagsOf]. replace (expected <? 1) with false by lia. rewrite Hget, Hcap.
  fold (flagsOf cluster capacity tenantIDs expected).
  assert (E : (describedCluster (flagsOf cluster capacity tenantIDs expected) now) <| ec_CreatedAt := ec_CreatedAt current |> <| ec_UpdatedAt := now |>
    <| ec_Version := add64 expected 1 |> = cluster) by (rewrite <-Hcl at 2; by rewrite Hver, Hcr).
  rewrite E, (ds_valid _ _ _ _ Hd). by destruct (Update _ _ _ _ _) as [[]].
Qed.

(** Both writes leave the registry alone when they fail. *)
Lemma registerCluster_err flags tenantIDs now db e db' : registerCluster flags tenantIDs now db = (Err e, db') -> db' = db.
Proof.
  unfold registerCluster. destruct (NewExecutionCluster _ _); [|naive_solver].
  unfold Register. destruct (validateClusterWrite _ _ _ _); [|naive_solver].
  destruct (transact _ _) as [[u|err] db1] eqn:Ht; [done|]. intros [= _ <-]. by apply transact_err in Ht as ->.
Qed.

Lemma updateCluster_err flags tenantIDs now db e db' : updateCluster flags tenantIDs now db = (Err e, db') -> db' = db.
Proof.
  unfold updateCluster. destruct (_ <? _); [naive_solver|]. destruct (Get _ _) as [[current snapshot]|]; [|naive_solver].
  destruct (Cluster_Validate _ _); [|naive_solver]. unfold Update. destruct (_ || _); [naive_solver|].
  destruct (validateClusterWrite _ _ _ _); [|naive_solver].
  destruct (transact _ _) as [[u|err] db1] eqn:Ht; [done|]. intros [= _ <-]. by apply transact_err in Ht as ->.
Qed.

(** What a success has written. *)
Definition wrote (cluster : ExecutionCluster) (db db' : DB) : Prop :=
  exists row capacity tenantIDs, clusterLine row = clusterLine cluster /\ cluster_ok row /\ writes row capacity tenantIDs db db'.

Lemma registerCluster_wrote flags tenantIDs now db cluster db' :
  registerCluster flags tenantIDs now db = (Ok cluster, db') -> wrote cluster db db'.
Proof.
  unfold registerCluster. destruct (NewExecutionCluster _ _) as [c|]; [|done].
  destruct (Register _ _ _ _) as [[u|err] db1] eqn:Hr; [|done]. intros [= <- <-]. apply Register_spec in Hr as (_ & _ & Hok & _ & Hw).
  exists (pgCluster c). eauto.
Qed.

Lemma updateCluster_wrote flags tenantIDs now db cluster db' :
  updateCluster flags tenantIDs now db = (Ok cluster, db') -> wrote cluster db db'.
Proof.
  unfold updateCluster. destruct (_ <? _); [done|]. destruct (Get _ _) as [[current snapshot]|]; [|done].
  destruct (Cluster_Validate _ _); [|done]. destruct (Update _ _ _ _ _) as [[u|err] db1] eqn:Hr; [|done]. intros [= <- <-].
  apply Update_spec in Hr as (_ & _ & Hok & _ & _ & stored & _ & _ & Hw). refine (ex_intro _ _ (ex_intro _ _ (ex_intro _ _ (conj _ (conj _ Hw))))); [done|by destruct Hok].
Qed.

(** The command's answer from the result of its write. *)
Lemma clusterctl_cases answers now arguments db :
  (exists e, clusterctl lookup answers now arguments db = (Err e, db)) \/
  exists flags tenantIDs result db', clusterctl lookup answers now arguments db =
      (match result, ka_Print answers with
       | Err e, _ => Err e | Ok _, Some _ => Err (ErrPlain "write result") | Ok cluster, None => Ok (clusterLine cluster) end, db') /\
    (registerCluster flags tenantIDs now db = (result, db') \/ updateCluster flags tenantIDs now db = (result, db')).
Proof.
  unfold clusterctl. destruct arguments as [|command rest]; [by left; eexists|]. destruct (_ && _); [by left; eexists|].
  destruct (_ ≫= _) as [[flags tenantIDs]|e]; [|by left; eexists]. right. exists flags, tenantIDs.
  destruct (command == "register").
  - destruct (registerCluster flags tenantIDs now db) as [result db'] eqn:Hr. exists result, db'. split; [by destruct result, (ka_Print answers)|by left].
  - destruct (updateCluster flags tenantIDs now db) as [result db'] eqn:Hr. exists result, db'. split; [by destruct result, (ka_Print answers)|by right].
Qed.

(** The registry command does what its command line says. A command that fails has
    changed nothing, unless only printing its result failed; a command that succeeds has
    written one valid cluster with its capacity and allow list, and prints its identity
    and version. The command line of a valid cluster registers exactly that cluster,
    answering what the registry answers, and with an expected version it updates exactly
    that cluster, keeping the time it was created: no value is lost between the flags, the
    comma-separated lists and the row. *)
Theorem clusterctl_manages now db :
  (forall answers arguments e db', clusterctl lookup answers now arguments db = (Err e, db') -> db' = db \/ is_Some (ka_Print answers)) /\
  (forall answers arguments line db', clusterctl lookup answers now arguments db = (Ok line, db') ->
     exists cluster, line = clusterLine cluster /\ wrote cluster db db') /\
  (forall configuration cluster capacity tenantIDs, LoadPlatform lookup = Ok configuration ->
     describable cluster capacity tenantIDs now -> ec_Version cluster = 1 -> ec_CreatedAt cluster = now ->
     clusterctl lookup noAnswers now ("register" :: renderFlags (flagsOf cluster capacity tenantIDs 0)) db =
       match Register cluster capacity tenantIDs db with (Ok _, db') => (Ok (clusterLine cluster), db') | (Err e, db') => (Err e, db') end) /\
  (forall configuration cluster capacity tenantIDs expected current snapshot, LoadPlatform lookup = Ok configuration ->
     describable cluster capacity tenantIDs now -> 1 <= expected -> in_int64 expected -> ec_Version cluster = add64 expected 1 ->
     Get (ec_ID cluster) db = Ok (current, snapshot) -> ec_CreatedAt cluster = ec_CreatedAt current ->
     clusterctl lookup noAnswers now ("update" :: renderFlags (flagsOf cluster capacity tenantIDs expected)) db =
       match Update cluster expected capacity tenantIDs db with (Ok _, db') => (Ok (clusterLine cluster), db') | (Err e, db') => (Err e, db') end).
Proof.
  split_and!.
  - intros answers arguments e db' Hc. destruct (clusterctl_cases answers now arguments db) as [[e' He]|(flags & tenantIDs & result & db1 & He & Hw)];
      rewrite He in Hc; [left; congruence|]. injection Hc as Hres <-. destruct result as [c|e'].
    + destruct (ka_Print answers); [by right|done].
    + left. destruct Hw as [Hw|Hw]; [by eapply registerCluster_err|by eapply updateCluster_err].
  - intros answers arguments line db' Hc. destruct (clusterctl_cases answers now arguments db) as [[e' He]|(flags & tenantIDs & result & db1 & He & Hw)];
      rewrite He in Hc; [done|]. injection Hc as Hres <-. destruct result as [c|e']; [|done]. destruct (ka_Print answers); [done|].
    injection Hres as <-. exists c. split; [done|]. destruct Hw as [Hw|Hw]; [by eapply registerCluster_wrote|by eapply updateCluster_wrote].
  - intros configuration cluster capacity tenantIDs Hl Hd Hver Hcr. unfold clusterctl.
    rewrite (ctlFlags_render _ _ _ _ 0 _ Hl Hd) by (unfold in_int64; lia). cbn [mbind res_bind andb negb].
    change (fl_AllowedTenants (flagsOf cluster capacity tenantIDs 0)) with (joinValues (uuidString <$> tenantIDs)).
    rewrite (parseTenantIDs_join _ (ds_tenants _ _ _ _ Hd)). cbn [mbind res_bind].
    change ("register" == "register") with true. change ("register" != "register") with false. cbn [andb].
    rewrite (registerCluster_flagsOf _ _ _ _ _ Hd Hver Hcr). by destruct (Register _ _ _ _) as [[]].
  - intros configuration cluster capacity tenantIDs expected current snapshot Hl Hd Hexp Hty Hver Hget Hcr. unfold clusterctl.
    rewrite (ctlFlags_render _ _ _ _ expected _ Hl Hd Hty). cbn [mbind res_bind].
    change (fl_AllowedTenants (flagsOf cluster capacity tenantIDs expected)) with (joinValues (uuidString <$> tenantIDs)).
    rewrite (parseTenantIDs_join _ (ds_tenants _ _ _ _ Hd)). cbn [mbind res_bind].
    change ("update" == "register") with false. change ("update" != "update") with false. rewrite andb_false_r.
    rewrite (updateCluster_flagsOf _ _ _ _ _ _ _ _ Hd Hexp Hver Hget Hcr). by destruct (Update _ _ _ _ _) as [[]].
Qed.
End Manages.

(** ** Examples *)

Definition exampleClusterNow : Time := 1700000000000000000.
Definition exampleManaged : ExecutionCluster :=
  {| ec_ID := "cluster-a"; ec_Region := "eu-west-1"; ec_Status := ClusterActive; ec_SupportedRuntimes := ["codex"; "python3.12"];
     ec_SupportedExecutionProfiles := ["standard"]; ec_Maintenance := false; ec_TenantRestricted := true; ec_SchedulingWeight := 250;
     ec_CPUCostMinorUnits := 12; ec_MemoryGiBCostMinorUnits := 3; ec_LastHeartbeatAt := exampleClusterNow; ec_Version := 1;
     ec_CreatedAt := exampleClusterNow; ec_UpdatedAt := exampleClusterNow |}.
Definition exampleManagedCapacity : ClusterCapacity :=
  {| cc_ClusterID := "cluster-a"; cc_ObservedAt := exampleClusterNow; cc_AllocatableCPUMillis := 64000; cc_AllocatableMemoryMiB := 262144;
     cc_QueuedWorkloads := 2 |}.

#[local] Existing Instance rfcUUIDs.
#[local] Existing Instance rfcUUIDForm.
#[local] Existing Instance rfcUUIDText.
#[local] Existing Instance noIPLiterals.

(** Registering a restricted cluster for one tenant through its command line. *)
Lemma clusterctl_manages_witness :
  exists db', clusterctl exampleEnvironment noAnswers exampleClusterNow
      ("register" :: renderFlags (flagsOf exampleManaged exampleManagedCapacity [exampleTenant] 0)) example_unregistered =
      (Ok "cluster-a version=1", db') /\ wrote exampleManaged example_unregistered db'.
Proof.
  destruct (clusterctl_manages exampleEnvironment exampleClusterNow example_unregistered) as (_ & Hok & Hreg & _).
  destruct (LoadPlatform exampleEnvironment) as [configuration|e] eqn:Hl; [|vm_compute in Hl; discriminate Hl].
  assert (Hd : describable exampleManaged exampleManagedCapacity [exampleTenant] exampleClusterNow).
  { split; [vm_compute; reflexivity|reflexivity|reflexivity|unfold in_int64; cbn [ec_CPUCostMinorUnits exampleManaged]; lia
      |unfold in_int64; cbn [ec_MemoryGiBCostMinorUnits exampleManaged]; lia|split; reflexivity| |].
    - unfold in_int64. cbn [cc_AllocatableCPUMillis cc_AllocatableMemoryMiB cc_QueuedWorkloads exampleManagedCapacity]. lia.
    - constructor; [|constructor]. unfold isUUID, exampleTenant, exampleV7. lia. }
  specialize (Hreg configuration exampleManaged exampleManagedCapacity [exampleTenant] eq_refl Hd eq_refl eq_refl).
  destruct (Register exampleManaged exampleManagedCapacity [exampleTenant] example_unregistered) as [[u|e] db'] eqn:Hr.
  - exists db'. split; [rewrite Hreg; reflexivity|]. destruct (Hok _ _ _ _ Hreg) as (cluster & Hline & Hw).
    destruct Hw as (row & capacity & tenantIDs & Hrow & Hrest). exists row, capacity, tenantIDs.
    split; [transitivity (clusterLine cluster); [exact Hrow|symmetry; exact Hline]|exact Hrest].
  - exfalso. assert (Hg : match Register exampleManaged exampleManagedCapacity [exampleTenant] example_unregistered with (Ok _, _) => true | _ => false end = true)
      by (vm_compute; reflexivity). by rewrite Hr in Hg.
Defined.
