(* ===== verification/Process.v ===== *)
(** * The processes of the control plane (cmd/platform-api, cmd/scheduler,
      cmd/agentrun-handoff)

    What [run] of each main program does from its configuration to its exit, as the
    sequence of its effects: what it acquires and, through defer, releases, the
    goroutines it launches, when it reports readiness, and how it stops. Everything the
    surroundings answer is a parameter: the database, the network, the Kafka client, the
    kubeconfig, what ends the service first, and what stops in time.

    [monitor] is the contract of such a sequence, an automaton that knows nothing of the
    programs. [processes_orderly] says that every run of every program is accepted by it,
    and when the programs exit without an error. *)

From S2P Require Import Prelude AgentRun Policy Cluster Strategy Events Store Registry Engine HttpApi Delivery Paths Url ArtifactStores GoText Config Handoff HandoffConsumer Database.

(** ** Effects *)

Inductive Resource :=
| StartupTimer
| DatabasePool
| ProcessContext
| TopicConsumer (topic : string)
| EventProducer
| SignalHandler
| ShutdownTimer.

#[export] Instance Resource_eq_dec : EqDecision Resource.
Proof. solve_decision. Defined.

Inductive Task :=
| ServerTask
| EngineTask
| HintsTask
| ConsumerTask (topic : string).

#[export] Instance Task_eq_dec : EqDecision Task.
Proof. solve_decision. Defined.

Inductive Effect :=
| Acquire (r : Resource)
| Release (r : Resource)
| Listening
| Launch (t : Task)
| Finished (t : Task)
| SetReady (b : bool)
| CancelProcess
| StopServer.

#[export] Instance Effect_eq_dec : EqDecision Effect.
Proof. solve_decision. Defined.

(** ** Functions with deferred calls *)

(** What a function has done, and what it will do when it returns. *)
Record Frame := {
  fr_Trace : list Effect;
  fr_Deferred : list Effect;
}.

Inductive Outcome (A : Type) :=
| Continue (a : A)
| Return (err : option error).
Arguments Continue {A}. Arguments Return {A}.

Definition Run (A : Type) : Type := Frame -> Outcome A * Frame.
#[export] Instance Run_ret : MRet Run := fun A a f => (Continue a, f).
#[export] Instance Run_bind : MBind Run := fun A B k m f =>
  match m f with
  | (Continue a, f') => k a f'
  | (Return err, f') => (Return err, f')
  end.

Definition perform (e : Effect) : Run unit := fun f => (Continue tt, {| fr_Trace := fr_Trace f ++ [e]; fr_Deferred := fr_Deferred f |}).
Definition deferring (es : list Effect) : Run unit := fun f => (Continue tt, {| fr_Trace := fr_Trace f; fr_Deferred := es ++ fr_Deferred f |}).
Definition return_ {A} (err : option error) : Run A := fun f => (Return err, f).

(** [if err != nil { return err }] *)
Definition check {A} (r : res A) : Run A := match r with Ok a => mret a | Err e => return_ (Some e) end.

(** A resource with its deferred release. *)
Definition acquiring (r : Resource) : Run unit := _ ← perform (Acquire r); deferring [Release r].

Fixpoint performAll (es : list Effect) : Run unit := match es with [] => mret tt | e :: rest => _ ← perform e; performAll rest end.

(** The error a function returns, and all its effects. *)
Definition finish (m : Run (option error)) : option error * list Effect :=
  match m {| fr_Trace := []; fr_Deferred := [] |} with
  | (Continue err, f) | (Return err, f) => (err, fr_Trace f ++ fr_Deferred f)
  end.

(** ** Serving and stopping *)

Definition ErrServerClosed : error := ErrPlain "http: Server closed".

(** [errors.Is(err, http.ErrServerClosed)] *)
Definition serverClosed (err : option error) : bool := err == Some ErrServerClosed.

(** [errors.Join] *)
Definition joinErrors (a b : option error) : option error :=
  match a, b with
  | None, err | err, None => err
  | Some _, Some _ => Some (ErrPlain "joined errors")
  end.

(** What the surroundings answer to every program. *)
Record CommonAnswers := {
  an_Driver : option error;
  an_Ping : option error;
  an_Listen : res unit;
  an_Shutdown : option error;
  an_Served : option error;      (* of Serve, after the shutdown *)
}.

(** What ends the wait: the server, a worker, or a signal. *)
Inductive Ending :=
| ServerEnded (err : option error)
| WorkerEnded (which : nat) (err : option error)
| Signalled.

(** [net.Listen] and the server's goroutine; readiness is set in between. *)
Definition listening (answers : CommonAnswers) : Run unit :=
  _ ← check (an_Listen answers);
  _ ← perform Listening;
  _ ← perform (SetReady true);
  perform (Launch ServerTask).

(** [if err := <-serveDone; err != nil && !errors.Is(err, http.ErrServerClosed) { return err }; return nil] *)
Definition lastServed (answers : CommonAnswers) : Run (option error) :=
  _ ← perform (Finished ServerTask);
  match an_Served answers with
  | Some err => if serverClosed (Some err) then mret None else return_ (Some err)
  | None => mret None
  end.

Section Programs.
Context `{UUIDs} `{!UUIDText} {IL : IPLiterals} (lookup : string -> option string).

(** ** cmd/platform-api *)

Record PlatformAnswers := {
  ap_Common : CommonAnswers;
  ap_Storage : res unit;         (* minio.New *)
  ap_Served : option (option error);   (* Serve returned before a signal, or not *)
}.

Definition openArtifactStore (answers : PlatformAnswers) (configuration : PlatformConfig) : res (option (string * string)) :=
  match pc_ArtifactStorage configuration with
  | None => Ok None
  | Some storage =>
      _ ← match ap_Storage answers with Ok u => Ok u | Err _ => Err (ErrPlain "create artifact storage client") end;
      store ← NewS3Store true (asc_Bucket storage) (asc_Prefix storage);
      Ok (Some store)
  end.

Definition platformRun (answers : PlatformAnswers) : Run (option error) :=
  let common := ap_Common answers in
  configuration ← check (LoadPlatform lookup);
  _ ← acquiring StartupTimer;
  _ ← check (Open (an_Driver common) (an_Ping common));
  _ ← acquiring DatabasePool;
  _ ← check (configuredResolver configuration);
  _ ← check (openArtifactStore answers configuration);
  _ ← listening common;
  _ ← acquiring SignalHandler;
  match ap_Served answers with
  | Some err =>
      _ ← perform (Finished ServerTask);
      if serverClosed err then return_ None else return_ err
  | None =>
      _ ← perform (SetReady false);
      _ ← acquiring ShutdownTimer;
      _ ← perform StopServer;
      _ ← check (match an_Shutdown common with Some err => Err err | None => Ok tt end);
      lastServed common
  end.

(** ** cmd/scheduler *)

Record SchedulerAnswers := {
  ay_Common : CommonAnswers;
  ay_Hostname : string;
  ay_Pid : Z;
  ay_HintClient : res unit;
  ay_Ending : Ending;
  ay_EngineStopped : option (option error);   (* before the shutdown timer, or not *)
}.

(** The optional consumer of wake hints. *)
Definition openHints (answers : SchedulerAnswers) (configuration : SchedulerConfig) : Run unit :=
  if sc_KafkaHintsEnabled configuration then
    kafka ← check (LoadKafka lookup);
    _ ← check (NewConsumer (ay_HintClient answers) kafka (sc_KafkaGroup configuration) [AgentRunLifecycleTopic]);
    _ ← acquiring (TopicConsumer AgentRunLifecycleTopic);
    perform (Launch HintsTask)
  else mret tt.

(** The wait for the end, and the shutdown after a signal. *)
Definition schedulerWait (answers : SchedulerAnswers) : Run (option error) :=
  let common := ay_Common answers in
  match ay_Ending answers with
  | ServerEnded err =>
      _ ← perform (Finished ServerTask);
      if negb (serverClosed err) then _ ← perform CancelProcess; return_ err else return_ None
  | WorkerEnded _ err =>
      _ ← perform (Finished EngineTask);
      match err with
      | Some err => return_ (Some err)
      | None => return_ (Some (ErrPlain "scheduler engine stopped unexpectedly"))
      end
  | Signalled =>
      _ ← perform (SetReady false);
      _ ← perform CancelProcess;
      _ ← acquiring ShutdownTimer;
      _ ← perform StopServer;
      _ ← check (match an_Shutdown common with Some err => Err err | None => Ok tt end);
      match ay_EngineStopped answers with
      | None => return_ (Some (ErrPlain "scheduler shutdown timed out"))
      | Some (Some err) => _ ← perform (Finished EngineTask); return_ (Some err)
      | Some None => _ ← perform (Finished EngineTask); lastServed common
      end
  end.

Definition schedulerRun (answers : SchedulerAnswers) : Run (option error) :=
  let common := ay_Common answers in
  configuration ← check (LoadScheduler lookup);
  let owner := schedulerOwner configuration (ay_Hostname answers) (ay_Pid answers) in
  _ ← acquiring StartupTimer;
  _ ← check (Open (an_Driver common) (an_Ping common));
  _ ← acquiring DatabasePool;
  strategy ← check (NewStrategy (sc_Strategy configuration));
  _ ← check (NewEngine (engineConfig configuration owner) strategy);
  _ ← acquiring ProcessContext;
  _ ← perform (Launch EngineTask);
  _ ← openHints answers configuration;
  _ ← listening common;
  _ ← acquiring SignalHandler;
  schedulerWait answers.

(** The optional wake hints: what each round of the loop is answered. *)
Inductive HintPoll :=
| HintReceived (eventType : string)
| HintInvalid
| HintFailed.

Record HintRound := {
  hn_Poll : HintPoll;
  hn_Acknowledge : option error;
  hn_Cancelled : bool;           (* the context, after a failed poll *)
  hn_CancelledPausing : bool;    (* the context, before the pause of a second ends *)
}.

Inductive HintEffect := WakeEngine | AcknowledgeHint | PauseHints.

(** The effects of one round, and whether the loop goes on. *)
Definition hintRound (round : HintRound) : list HintEffect * bool :=
  let pause (done : list HintEffect) :=
    if hn_CancelledPausing round then (done, false) else (done ++ [PauseHints], true) in
  match hn_Poll round with
  | HintReceived eventType =>
      ((if eventType == AgentRunRequestedType then [WakeEngine] else []) ++ [AcknowledgeHint], true)
  | HintInvalid =>
      if hn_Cancelled round then ([], false)
      else match hn_Acknowledge round with None => ([AcknowledgeHint], true) | Some _ => pause [AcknowledgeHint] end
  | HintFailed => if hn_Cancelled round then ([], false) else pause []
  end.

(** [runHints] *)
Fixpoint runHints (rounds : list HintRound) : list HintEffect * bool :=
  match rounds with
  | [] => ([], true)
  | round :: rest =>
      match hintRound round with
      | (done, false) => (done, false)
      | (done, true) => let '(more, on) := runHints rest in (done ++ more, on)
      end
  end.

(** The readiness of the scheduler: the database answers and its tables exist. *)
Definition schedulerReadiness (ping query : option error) (migrated : bool) : option error :=
  match ping, query with
  | Some err, _ | None, Some err => Some err
  | None, None => if negb migrated then Some (ErrPlain "scheduler schema is unavailable") else None
  end.

(** The ready route of the scheduler and of the handoff process. *)
Definition readyStatus (ready : bool) (readiness : option error) : Z :=
  if negb ready || bool_decide (is_Some readiness) then 503 else 200.

(** ** cmd/agentrun-handoff *)

(** A kubeconfig: the cluster of each context, and the clusters that exist. *)
Record Kubeconfig := {
  kf_Contexts : gmap string string;
  kf_Clusters : gset string;
}.

Fixpoint checkContexts (raw : Kubeconfig) (contexts : list (string * string)) (seen : list string) : res unit :=
  match contexts with
  | [] => Ok tt
  | (clusterID, contextName) :: rest =>
      match kf_Contexts raw !! contextName with
      | None => Err (ErrPlain "cluster maps to an unknown kubeconfig context")
      | Some cluster =>
          if (cluster == EmptyString) || negb (bool_decide (cluster ∈ kf_Clusters raw))
          then Err (ErrPlain "cluster maps to an unknown kubeconfig context")
          else if bool_decide (contextName ∈ seen) then Err (ErrPlain "kubeconfig context is mapped to multiple clusters")
          else checkContexts raw rest (contextName :: seen)
      end
  end.

(** [NewClientSelector]; the loaded file is the answer of clientcmd. *)
Definition NewClientSelector (loaded : res Kubeconfig) (kubeconfig : string) (contexts : gmap string string) : res (gmap string string) :=
  _ ← failIf ((kubeconfig == EmptyString) || (contexts == ∅)) (ErrPlain "kubeconfig and cluster contexts are required");
  raw ← match loaded with Ok raw => Ok raw | Err _ => Err (ErrPlain "load kubeconfig") end;
  _ ← checkContexts raw (map_to_list contexts) [];
  Ok contexts.

(** [ClientSelector.Select]: the cached client, or a new one of the cluster's context;
    [build] is client-go. *)
Definition Select {Client} (build : string -> res Client) (contexts : gmap string string) (clients : gmap string Client)
    (clusterID : string) : res Client * gmap string Client :=
  match clients !! clusterID with
  | Some existing => (Ok existing, clients)
  | None =>
      match contexts !! clusterID with
      | None => (Err (ErrPlain "cluster is not authorized"), clients)
      | Some contextName =>
          match build contextName with
          | Err e => (Err e, clients)
          | Ok client => (Ok client, <[clusterID := client]> clients)
          end
      end
  end.

(** [NewProducer]; the client library's own refusal is [newClient]. *)
Definition NewProducer (newClient : res unit) (configuration : KafkaConfig) : res Z :=
  _ ← Kafka_Validate configuration;
  _ ← match newClient with Ok u => Ok u | Err _ => Err (ErrPlain "create Kafka producer") end;
  Ok (kc_MaxMessageBytes configuration).

Record HandoffAnswers := {
  ah_Common : CommonAnswers;
  ah_Kubeconfig : res Kubeconfig;
  ah_ConsumerClient : string -> res unit;
  ah_ProducerClient : res unit;
  ah_Ending : Ending;
  ah_Stopped : list (nat * option error);   (* which consumers stop before the shutdown timer *)
}.

Definition handoffTopics : list string := AgentRunLifecycleTopic :: retryTopics.

Definition quarantineTenant (configuration : HandoffConfig) : res UUID :=
  match uuidParse (hc_QuarantineTenantID configuration) with
  | Some tenantID =>
      if uuidVersion tenantID =? 7 then Ok tenantID
      else Err (ErrPlain "AGENTFORGE_HANDOFF_QUARANTINE_TENANT_ID must be a UUIDv7")
  | None => Err (ErrPlain "AGENTFORGE_HANDOFF_QUARANTINE_TENANT_ID must be a UUIDv7")
  end.

(** The consumers of all topics; when one does not open, those before it are closed at once. *)
Definition openConsumers (answers : HandoffAnswers) (kafka : KafkaConfig) (group : string) : Run (list string) :=
  match openTopicConsumers handoffTopics
    (Some (fun topic => _ ← NewConsumer (ah_ConsumerClient answers topic) kafka group [topic]; Ok topic)) with
  | (Err e, closed) =>
      _ ← performAll (Acquire ∘ TopicConsumer <$> closed);
      _ ← performAll (Release ∘ TopicConsumer <$> closed);
      return_ (Some e)
  | (Ok consumers, _) =>
      _ ← performAll (Acquire ∘ TopicConsumer <$> consumers);
      _ ← deferring (Release ∘ TopicConsumer <$> consumers);
      mret consumers
  end.

(** One of the running consumers answers; the others remain. *)
Definition consumerEnded (which : nat) (running : list string) : Run (list string) :=
  let i := (which mod length running)%nat in
  _ ← performAll (Finished ∘ ConsumerTask <$> option_list (running !! i));
  mret (delete i running).

(** [for completedConsumers < len(consumers)]: one answer after the other, or the timer. *)
Fixpoint awaitConsumers (stopped : list (nat * option error)) (running : list string) (runErr : option error) : Run (option error) :=
  match running, stopped with
  | [], _ => mret runErr
  | _, (which, err) :: stopped =>
      remaining ← consumerEnded which running;
      awaitConsumers stopped remaining (joinErrors runErr err)
  | _, [] => return_ (joinErrors runErr (Some (ErrPlain "AgentRun handoff shutdown timed out")))
  end.

(** The shutdown, whatever ended the wait. *)
Definition handoffStop (answers : HandoffAnswers) (runErr : option error) (running : list string) : Run (option error) :=
  _ ← perform (SetReady false);
  _ ← perform CancelProcess;
  _ ← acquiring ShutdownTimer;
  _ ← perform StopServer;
  let runErr := match an_Shutdown (ah_Common answers) with Some err => joinErrors runErr (Some err) | None => runErr end in
  awaitConsumers (ah_Stopped answers) running runErr.

Definition handoffRun (answers : HandoffAnswers) : Run (option error) :=
  let common := ah_Common answers in
  configuration ← check (LoadHandoff lookup);
  kafka ← check (LoadKafka lookup);
  quarantine ← check (quarantineTenant configuration);
  _ ← acquiring StartupTimer;
  _ ← check (Open (an_Driver common) (an_Ping common));
  _ ← acquiring DatabasePool;
  _ ← check (NewClientSelector (ah_Kubeconfig answers) (hc_KubeconfigPath configuration) (hc_ClusterContexts configuration));
  consumers ← openConsumers answers kafka (hc_KafkaGroup configuration);
  _ ← check (NewProducer (ah_ProducerClient answers) kafka);
  _ ← acquiring EventProducer;
  _ ← check (NewRouter ConsumerIdentity quarantine);
  _ ← acquiring ProcessContext;
  _ ← performAll (Launch ∘ ConsumerTask <$> consumers);
  _ ← listening common;
  _ ← acquiring SignalHandler;
  '(runErr, running) ←
    match ah_Ending answers with
    | WorkerEnded which err =>
        remaining ← consumerEnded which consumers;
        mret (match err with Some err => Some err | None => Some (ErrPlain "AgentRun handoff consumer stopped unexpectedly") end, remaining)
    | ServerEnded err =>
        _ ← perform (Finished ServerTask);
        mret (if serverClosed err then None else err, consumers)
    | Signalled => mret (None, consumers)
    end;
  handoffStop answers runErr running.
End Programs.

(** ** The contract *)

(** What an observer of the effects keeps. *)
Record Monitor := {
  mo_Held : list Resource;
  mo_Listening : bool;
  mo_Ready : bool;
  mo_Stopped : bool;
  mo_Launched : list Task;
  mo_Finished : list Task;
}.

#[export] Instance Monitor_settable : Settable Monitor := fun m =>
  Build_Monitor (mo_Held m) (mo_Listening m) (mo_Ready m) (mo_Stopped m) (mo_Launched m) (mo_Finished m).

Definition atStart : Monitor :=
  {| mo_Held := []; mo_Listening := false; mo_Ready := false; mo_Stopped := false; mo_Launched := []; mo_Finished := [] |}.

Definition holds (r : Resource) (m : Monitor) : bool := bool_decide (r ∈ mo_Held m).

(** What needs the database. *)
Definition needsPool (r : Resource) : bool :=
  match r with StartupTimer | DatabasePool => false | _ => true end.

(** Nothing is acquired twice or released without being held; everything but the startup
    timer lives inside the life of the database pool; goroutines start under a context
    that can stop them, the server's once there is a listener, and end at most once;
    the service is ready only after it listens, and is not ready any more when the
    server is stopped. *)
Definition monitorStep (m : Monitor) (e : Effect) : option Monitor :=
  match e with
  | Acquire r =>
      if holds r m || (needsPool r && negb (holds DatabasePool m)) then None else Some (m <| mo_Held := r :: mo_Held m |>)
  | Release r =>
      if negb (holds r m) || ((r == DatabasePool) && existsb needsPool (mo_Held m)) then None
      else Some (m <| mo_Held := filter (fun r' => r' <> r) (mo_Held m) |>)
  | Listening => if mo_Listening m || negb (holds DatabasePool m) then None else Some (m <| mo_Listening := true |>)
  | Launch t =>
      if negb (match t with ServerTask => mo_Listening m | _ => holds ProcessContext m end)
         || bool_decide (t ∈ mo_Launched m) then None
      else Some (m <| mo_Launched := t :: mo_Launched m |>)
  | Finished t =>
      if negb (bool_decide (t ∈ mo_Launched m)) || bool_decide (t ∈ mo_Finished m) then None
      else Some (m <| mo_Finished := t :: mo_Finished m |>)
  | SetReady b => if b && (negb (mo_Listening m) || mo_Stopped m) then None else Some (m <| mo_Ready := b |>)
  | CancelProcess => if holds ProcessContext m then Some m else None
  | StopServer => if mo_Ready m || negb (mo_Listening m) then None else Some (m <| mo_Stopped := true |>)
  end.

Fixpoint monitor (m : Monitor) (es : list Effect) : option Monitor :=
  match es with [] => Some m | e :: rest => match monitorStep m e with Some m' => monitor m' rest | None => None end end.

Lemma monitor_app m es es' : monitor m (es ++ es') = match monitor m es with Some m' => monitor m' es' | None => None end.
Proof. revert m. induction es as [|e es IH]; intros m; [done|]. cbn. destruct (monitorStep m e); [apply IH|done]. Qed.

(** ** Reasoning about runs *)

Section Reasoning.
(** What a program guarantees when it returns. *)
Context (P : option error -> Monitor -> Prop).

(** The trace so far leads the monitor to [m]; [d] is deferred. *)
Definition reached (m : Monitor) (d : list Effect) (f : Frame) : Prop := monitor atStart (fr_Trace f) = Some m /\ fr_Deferred f = d.

Definition returns (err : option error) (m : Monitor) (d : list Effect) : Prop :=
  match monitor m d with Some m' => mo_Held m' = [] /\ P err m' | None => False end.

Definition runs {A} (p : Run A) (m : Monitor) (d : list Effect) (Q : A -> Monitor -> list Effect -> Prop) : Prop :=
  forall f, reached m d f ->
    match p f with
    | (Continue a, f') => exists m' d', reached m' d' f' /\ Q a m' d'
    | (Return err, f') => exists m' d', reached m' d' f' /\ returns err m' d'
    end.

Lemma runs_bind {A B} (p : Run A) (k : A -> Run B) m d Q :
  runs p m d (fun a m' d' => runs (k a) m' d' Q) -> runs (p ≫= k) m d Q.
Proof.
  intros Hp f Hf. specialize (Hp f Hf). unfold mbind, Run_bind. destruct (p f) as [[a|err] f']; [|exact Hp].
  destruct Hp as (m' & d' & Hr & Hk). exact (Hk f' Hr).
Qed.

Lemma runs_ret {A} (a : A) m d (Q : A -> Monitor -> list Effect -> Prop) : Q a m d -> runs (mret a) m d Q.
Proof. intros HQ f Hf. exists m, d. by split. Qed.

Lemma runs_return {A} err m d (Q : A -> Monitor -> list Effect -> Prop) : returns err m d -> runs (return_ err) m d Q.
Proof. intros HR f Hf. exists m, d. by split. Qed.

Lemma runs_perform e m m' d (Q : unit -> Monitor -> list Effect -> Prop) : monitorStep m e = Some m' -> Q tt m' d -> runs (perform e) m d Q.
Proof.
  intros He HQ f [Hm Hd]. exists m', d. split; [|done]. split; [|done]. cbn. rewrite monitor_app, Hm. cbn. by rewrite He.
Qed.

Lemma runs_deferring es m d (Q : unit -> Monitor -> list Effect -> Prop) : Q tt m (es ++ d) -> runs (deferring es) m d Q.
Proof. intros HQ f [Hm <-]. eexists _, _. split; [|exact HQ]. by split. Qed.

Lemma runs_check {A} (r : res A) m d (Q : A -> Monitor -> list Effect -> Prop) :
  (forall e, r = Err e -> returns (Some e) m d) -> (forall a, r = Ok a -> Q a m d) -> runs (check r) m d Q.
Proof. intros He Ha. destruct r as [a|e]; [by apply runs_ret, Ha|by apply runs_return, He]. Qed.

Lemma runs_acquiring r m m' d (Q : unit -> Monitor -> list Effect -> Prop) :
  monitorStep m (Acquire r) = Some m' -> Q tt m' (Release r :: d) -> runs (acquiring r) m d Q.
Proof. intros He HQ. apply runs_bind. eapply runs_perform; [exact He|]. by apply runs_deferring. Qed.

Lemma runs_performAll es m m' d (Q : unit -> Monitor -> list Effect -> Prop) : monitor m es = Some m' -> Q tt m' d -> runs (performAll es) m d Q.
Proof.
  revert m. induction es as [|e es IH]; intros m; cbn; [intros [= ->]; apply runs_ret|].
  destruct (monitorStep m e) as [m1|] eqn:He; [|done]. intros Hm HQ. apply runs_bind. eapply runs_perform; [exact He|]. by apply IH.
Qed.

(** A whole program. *)
Lemma runs_finish (p : Run (option error)) : runs p atStart [] returns ->
  exists m, monitor atStart (finish p).2 = Some m /\ mo_Held m = [] /\ P (finish p).1 m.
Proof.
  intros Hp. unfold finish. specialize (Hp {| fr_Trace := []; fr_Deferred := [] |} ltac:(done)).
  destruct (p _) as [[err|err] f]; destruct Hp as (m & d & [Hm Hd] & Hr); cbn; rewrite monitor_app, Hm, Hd;
    unfold returns in Hr; destruct (monitor m d) as [m'|]; [|done|..|done]; by exists m'.
Qed.
End Reasoning.

(** ** The programs keep it *)

(** [P] promises something of exits without an error only. *)
Definition onSuccess (G : Monitor -> Prop) (err : option error) (m : Monitor) : Prop := err = None -> G m.

(** The deferred calls release everything. *)
Definition unwinds (m : Monitor) (d : list Effect) : bool :=
  match monitor m d with Some m' => bool_decide (mo_Held m' = []) | None => false end.

Lemma returns_failed G e m d : unwinds m d = true -> returns (onSuccess G) (Some e) m d.
Proof. unfold unwinds, returns. destruct (monitor m d); [|done]. rewrite bool_decide_eq_true. by split. Qed.

Lemma returns_success G err m d : unwinds m d = true -> (forall m', monitor m d = Some m' -> G m') -> returns (onSuccess G) err m d.
Proof. unfold unwinds, returns. destruct (monitor m d) as [m'|]; [|done]. rewrite bool_decide_eq_true. intros H HG. split; [done|]. intros _. by apply HG. Qed.

(** One call of a program. *)
Ltac call :=
  lazymatch goal with
  | |- runs _ (_ ≫= _) _ _ _ => apply runs_bind
  | |- runs _ (acquiring _) _ _ _ => eapply runs_acquiring; [vm_compute; reflexivity|]
  | |- runs _ (perform _) _ _ _ => eapply runs_perform; [vm_compute; reflexivity|]
  | |- runs _ (check _) _ _ _ => apply runs_check; [intros ? _; apply returns_failed; vm_compute; reflexivity|intros ? ?]
  | |- runs _ (mret _) _ _ _ => apply runs_ret
  | |- runs _ (return_ (Some _)) _ _ _ => apply runs_return, returns_failed; vm_compute; reflexivity
  | |- runs _ (listening _) _ _ _ => unfold listening
  end.

(** What the monitor has seen when a program returns without an error. *)
Ltac succeed := apply returns_success; [vm_compute; reflexivity|intros m' Hm; vm_compute in Hm; injection Hm as <-].

Section Orderly.
Context `{UUIDs} `{!UUIDText} {IL : IPLiterals} (lookup : string -> option string).

(** Serve ends with an error always; ErrServerClosed is the regular one. *)
Definition regularly (err : option error) : Prop := err = None \/ serverClosed err = true.

(** When each program exits without an error. *)
Definition platformEnded (answers : PlatformAnswers) (m : Monitor) : Prop :=
  mo_Listening m = true /\ ServerTask ∈ mo_Finished m /\
  match ap_Served answers with Some err => regularly err | None => mo_Ready m = false /\ mo_Stopped m = true end.

Definition schedulerEnded (answers : SchedulerAnswers) (m : Monitor) : Prop :=
  mo_Listening m = true /\ ServerTask ∈ mo_Finished m /\
  match ay_Ending answers with
  | ServerEnded err => regularly err
  | WorkerEnded _ _ => False
  | Signalled => mo_Ready m = false /\ mo_Stopped m = true /\ EngineTask ∈ mo_Finished m
  end.

Definition handoffEnded (answers : HandoffAnswers) (m : Monitor) : Prop :=
  mo_Listening m = true /\ mo_Ready m = false /\ mo_Stopped m = true /\
  (forall topic, topic ∈ handoffTopics -> ConsumerTask topic ∈ mo_Finished m) /\
  match ah_Ending answers with WorkerEnded _ _ => False | ServerEnded err => regularly err | Signalled => True end.

Lemma runs_lastServed G common m m' d :
  monitorStep m (Finished ServerTask) = Some m' -> unwinds m' d = true -> (forall m'', monitor m' d = Some m'' -> G m'') ->
  runs (onSuccess G) (lastServed common) m d (returns (onSuccess G)).
Proof.
  intros He Hu HG. unfold lastServed. apply runs_bind. eapply runs_perform; [exact He|].
  destruct (an_Served common) as [err|]; [|by apply runs_ret, returns_success].
  destruct (serverClosed (Some err)); [by apply runs_ret, returns_success|by apply runs_return, returns_failed].
Qed.

Lemma platform_orderly answers :
  runs (onSuccess (platformEnded answers)) (platformRun lookup answers) atStart [] (returns (onSuccess (platformEnded answers))).
Proof.
  unfold platformRun. repeat call. destruct (ap_Served answers) as [err|] eqn:Hs.
  - repeat call. destruct (serverClosed err) eqn:Hc; apply runs_return.
    + succeed. unfold platformEnded. rewrite Hs. split_and!; [done|by left|by right].
    + destruct err as [e|]; [apply returns_failed; vm_compute; reflexivity|]. succeed. unfold platformEnded. rewrite Hs.
      split_and!; [done|by left|by left].
  - repeat call. eapply runs_lastServed; [vm_compute; reflexivity..|]. intros m' Hm. vm_compute in Hm. injection Hm as <-.
    unfold platformEnded. rewrite Hs. split_and!; [done|by left|done..].
Qed.

Lemma scheduler_waits answers m d :
  (exists hints releases launched, m = {| mo_Held := SignalHandler :: hints ++ [ProcessContext; DatabasePool; StartupTimer]; mo_Listening := true;
       mo_Ready := true; mo_Stopped := false; mo_Launched := ServerTask :: launched ++ [EngineTask]; mo_Finished := [] |} /\
     d = Release SignalHandler :: releases ++ [Release ProcessContext; Release DatabasePool; Release StartupTimer] /\
     ((hints, releases, launched) = ([], [], []) \/
      (hints, releases, launched) = ([TopicConsumer AgentRunLifecycleTopic], [Release (TopicConsumer AgentRunLifecycleTopic)], [HintsTask]))) ->
  runs (onSuccess (schedulerEnded answers)) (schedulerWait answers) m d (returns (onSuccess (schedulerEnded answers))).
Proof.
  intros (hints & releases & launched & -> & -> & Hcases). unfold schedulerWait. destruct (ay_Ending answers) as [err|which err|] eqn:Hs.
  - destruct Hcases as [[= -> -> ->]|[= -> -> ->]]; call; call; destruct (serverClosed err) eqn:Hc; cbn [negb];
      [|call; call| |call; call]; apply runs_return; (destruct err as [e|]; [try (apply returns_failed; vm_compute; reflexivity)|]);
      succeed; unfold schedulerEnded; rewrite Hs; (split_and!; [done|by left|unfold regularly; auto]).
  - destruct Hcases as [[= -> -> ->]|[= -> -> ->]]; call; call; destruct err; call.
  - destruct Hcases as [[= -> -> ->]|[= -> -> ->]]; repeat call; destruct (ay_EngineStopped answers) as [[err|]|]; repeat call;
      (eapply runs_lastServed; [vm_compute; reflexivity..|]; intros m' Hm; vm_compute in Hm; injection Hm as <-;
       unfold schedulerEnded; rewrite Hs; split_and!; [done|by left|done|done|by right; left]).
Qed.

Lemma scheduler_orderly answers :
  runs (onSuccess (schedulerEnded answers)) (schedulerRun lookup answers) atStart [] (returns (onSuccess (schedulerEnded answers))).
Proof.
  unfold schedulerRun, openHints. repeat call. destruct (sc_KafkaHintsEnabled _); repeat call; apply scheduler_waits.
  - exists [TopicConsumer AgentRunLifecycleTopic], [Release (TopicConsumer AgentRunLifecycleTopic)], [HintsTask]. by auto.
  - exists [], [], []. by auto.
Qed.

(** *** The consumers *)

Lemma openRest_topics (open : string -> res string) topics opened :
  (forall t, open t = Ok t \/ exists e, open t = Err e) ->
  openRest open topics opened = (Ok (opened ++ topics), []) \/
  exists e k, (k < length topics)%nat /\ openRest open topics opened = (Err e, opened ++ take k topics).
Proof.
  intros Ho. revert opened. induction topics as [|t topics IH]; intros opened; cbn [openRest]; [left; by rewrite app_nil_r|].
  destruct (Ho t) as [->|[e ->]]; [|right; exists e, 0%nat; cbn; rewrite app_nil_r; split; [lia|done]].
  destruct (IH (opened ++ [t])) as [->|(e & k & Hk & ->)]; [left; by rewrite <-app_assoc|].
  right. exists e, (S k). cbn. rewrite <-app_assoc. split; [lia|done].
Qed.

(** While the handoff process shuts down: the tasks [finished] have ended. *)
Definition stopping (finished : list Task) : Monitor :=
  {| mo_Held := [ShutdownTimer; SignalHandler; ProcessContext; EventProducer] ++ (TopicConsumer <$> reverse handoffTopics) ++ [DatabasePool; StartupTimer];
     mo_Listening := true; mo_Ready := false; mo_Stopped := true; mo_Launched := ServerTask :: (ConsumerTask <$> reverse handoffTopics);
     mo_Finished := finished |}.

Definition stoppingDeferred : list Effect :=
  [Release ShutdownTimer; Release SignalHandler; Release ProcessContext; Release EventProducer] ++ (Release ∘ TopicConsumer <$> handoffTopics)
  ++ [Release DatabasePool; Release StartupTimer].

Lemma stopping_unwinds finished : monitor (stopping finished) stoppingDeferred =
  Some {| mo_Held := []; mo_Listening := true; mo_Ready := false; mo_Stopped := true; mo_Launched := mo_Launched (stopping finished); mo_Finished := finished |}.
Proof. vm_compute. reflexivity. Qed.

Lemma task_finishes t m : t ∈ mo_Launched m -> t ∉ mo_Finished m ->
  monitorStep m (Finished t) = Some (m <| mo_Finished := t :: mo_Finished m |>).
Proof. intros Hl Hf. cbn [monitorStep]. by rewrite bool_decide_eq_true_2, bool_decide_eq_false_2. Qed.

Lemma consumer_launched topic finished : topic ∈ handoffTopics -> ConsumerTask topic ∈ mo_Launched (stopping finished).
Proof. intros Ht. cbn [mo_Launched stopping]. right. apply list_elem_of_fmap_2. by apply elem_of_reverse. Qed.

Lemma joinErrors_none a b : joinErrors a b = None -> a = None /\ b = None.
Proof. by destruct a, b. Qed.

(** What is known of the consumers: those running, and those that have ended. *)
Definition accounted (running : list string) (finished : list Task) : Prop :=
  NoDup running /\ (forall t, t ∈ running -> t ∈ handoffTopics /\ ConsumerTask t ∉ finished) /\
  (forall t, t ∈ handoffTopics -> t ∈ running \/ ConsumerTask t ∈ finished).

Lemma accounted_ends which running finished : running <> [] -> accounted running finished ->
  exists t, running !! (which mod length running)%nat = Some t /\ t ∈ handoffTopics /\ ConsumerTask t ∉ finished /\
    accounted (delete (which mod length running)%nat running) (ConsumerTask t :: finished).
Proof.
  intros Hne (Hnd & Hrun & Hall). destruct (lookup_lt_is_Some_2 running (which mod length running)) as [t Ht].
  { apply Nat.mod_upper_bound. by destruct running. }
  pose proof (delete_Permutation _ _ _ Ht) as Hp. exists t. destruct (Hrun t) as [Hin Hnf]; [by eapply list_elem_of_lookup_2|].
  rewrite Hp in Hnd. apply NoDup_cons in Hnd as [Hnew Hnd]. split_and!; try done. split_and!; [done| |].
  - intros u Hu. destruct (Hrun u) as [Hu1 Hu2]; [rewrite Hp; by right|]. split; [done|].
    intros [[= ->]|Hf]%elem_of_cons; done.
  - intros u [Hu|Hu]%Hall; [|right; by right]. rewrite Hp in Hu. apply elem_of_cons in Hu as [->|Hu]; [right; by left|by left].
Qed.

Lemma runs_await answers stopped running runErr finished :
  (runErr = None -> match ah_Ending answers with WorkerEnded _ _ => False | ServerEnded err => regularly err | Signalled => True end) ->
  accounted running finished ->
  runs (onSuccess (handoffEnded answers)) (awaitConsumers stopped running runErr) (stopping finished) stoppingDeferred
    (returns (onSuccess (handoffEnded answers))).
Proof.
  revert running runErr finished. induction stopped as [|[which err] stopped IH]; intros running runErr finished Hend Hacc;
    destruct running as [|t0 running]; cbn [awaitConsumers].
  1,3: apply runs_ret; unfold returns; rewrite stopping_unwinds; (split; [done|]); intros Hn;
    (split_and!; [done..| |by apply Hend]); intros t Ht; by destruct (proj2 (proj2 Hacc) t Ht) as [[]%elem_of_nil|].
  - apply runs_return. destruct runErr as [e|]; cbn [joinErrors]; apply returns_failed; unfold unwinds; by rewrite stopping_unwinds.
  - destruct (accounted_ends which (t0 :: running) finished ltac:(done) Hacc) as (t & Hl & Hin & Hnf & Hacc').
    apply runs_bind. unfold consumerEnded. apply runs_bind. rewrite Hl.
    apply (runs_performAll _ [Finished (ConsumerTask t)] _ (stopping (ConsumerTask t :: finished))).
    + cbn [monitor]. by rewrite task_finishes by (try done; by apply consumer_launched).
    + apply runs_ret. apply IH; [|done]. intros [Hr _]%joinErrors_none. by apply Hend.
Qed.

Lemma runs_stop answers runErr running finished m d :
  m = (stopping finished) <| mo_Held := drop 1 (mo_Held (stopping finished)) |> <| mo_Ready := true |> <| mo_Stopped := false |> ->
  d = drop 1 stoppingDeferred ->
  (runErr = None -> match ah_Ending answers with WorkerEnded _ _ => False | ServerEnded err => regularly err | Signalled => True end) ->
  accounted running finished ->
  runs (onSuccess (handoffEnded answers)) (handoffStop answers runErr running) m d (returns (onSuccess (handoffEnded answers))).
Proof.
  intros -> -> Hend Hacc. unfold handoffStop. repeat call. apply runs_await; [|done].
  destruct (an_Shutdown _); [by intros [_ [=]]%joinErrors_none|done].
Qed.

Lemma accounted_start : accounted handoffTopics [].
Proof.
  split_and!; [apply (bool_decide_unpack _); vm_compute; reflexivity| |by left]. intros t Ht. split; [done|apply not_elem_of_nil].
Qed.

Definition pooled (held : list Resource) : Monitor := atStart <| mo_Held := held ++ [DatabasePool; StartupTimer] |>.

Lemma opens_some k : (k <= 4)%nat ->
  monitor (pooled []) (Acquire ∘ TopicConsumer <$> take k handoffTopics) = Some (pooled (TopicConsumer <$> reverse (take k handoffTopics))) /\
  monitor (pooled (TopicConsumer <$> reverse (take k handoffTopics))) (Release ∘ TopicConsumer <$> take k handoffTopics) = Some (pooled []).
Proof. intros Hk. do 5 (destruct k as [|k]; [by vm_compute|]). lia. Qed.

Lemma runs_openConsumers G answers kafka group (Q : list string -> Monitor -> list Effect -> Prop) :
  Q handoffTopics (pooled (TopicConsumer <$> reverse handoffTopics))
    ((Release ∘ TopicConsumer <$> handoffTopics) ++ [Release DatabasePool; Release StartupTimer]) ->
  runs (onSuccess G) (openConsumers answers kafka group) (pooled []) [Release DatabasePool; Release StartupTimer] Q.
Proof.
  intros HQ. unfold openConsumers.
  set (open := fun topic => _ ← NewConsumer (ah_ConsumerClient answers topic) kafka group [topic]; Ok topic).
  change (openTopicConsumers handoffTopics (Some open)) with (openRest open handoffTopics []).
  destruct (openRest_topics open handoffTopics []) as [->|(e & k & Hk & ->)].
  - intros t. unfold open. destruct (NewConsumer _ _ _ _); [by left|right; by eexists].
  - apply runs_bind. eapply runs_performAll; [exact (proj1 (opens_some 4 ltac:(done)))|]. apply runs_bind, runs_deferring, runs_ret. exact HQ.
  - destruct (opens_some k ltac:(cbn in Hk; lia)) as [Ha Hr]. apply runs_bind. eapply runs_performAll; [exact Ha|]. apply runs_bind.
    eapply runs_performAll; [exact Hr|]. apply runs_return, returns_failed. vm_compute. reflexivity.
Qed.

Lemma handoff_orderly answers :
  runs (onSuccess (handoffEnded answers)) (handoffRun lookup answers) atStart [] (returns (onSuccess (handoffEnded answers))).
Proof.
  unfold handoffRun. repeat call. apply runs_openConsumers. repeat call. eapply runs_performAll; [vm_compute; reflexivity|]. repeat call.
  destruct (ah_Ending answers) as [err|which err|] eqn:Hs.
  - repeat call. eapply (runs_stop _ _ _ [ServerTask]); [vm_compute; reflexivity..| |].
    + rewrite Hs. unfold regularly. destruct (serverClosed err); auto.
    + destruct accounted_start as (Hnd & Hrun & Hall). split_and!; [done| |naive_solver]. intros t Ht. split; [done|].
      intros [[=]|[]%elem_of_nil]%elem_of_cons.
  - destruct (accounted_ends which handoffTopics [] ltac:(done) accounted_start) as (t & Hl & Hin & Hnf & Hacc).
    unfold consumerEnded. rewrite Hl. do 2 apply runs_bind. apply runs_bind.
    eapply (runs_performAll _ [Finished (ConsumerTask t)]).
    + cbn [monitor]. by rewrite task_finishes by (try done; exact (consumer_launched t [] Hin)).
    + do 3 apply runs_ret. eapply (runs_stop _ _ _ [ConsumerTask t]); [vm_compute; reflexivity..|by destruct err|exact Hacc].
  - call. eapply (runs_stop _ _ _ []); [vm_compute; reflexivity..|by rewrite Hs|apply accounted_start].
Qed.

(** *** Clients *)

Lemma checkContexts_unique raw contexts seen : checkContexts raw contexts seen = Ok tt ->
  NoDup contexts.*2 /\ (forall name, name ∈ contexts.*2 -> name ∉ seen /\ is_Some (kf_Contexts raw !! name)).
Proof.
  revert seen. induction contexts as [|[id name] contexts IH]; intros seen; cbn [checkContexts]; [intros _; split; [constructor|by intros ? ?%elem_of_nil]|].
  destruct (kf_Contexts raw !! name) as [cluster|] eqn:Hn; [|done]. destruct (_ || _); [done|]. case_bool_decide as Hs; [done|].
  intros [Hnd Hall]%IH. cbn. split.
  - constructor; [|done]. intros Hin. destruct (Hall name Hin) as [Hx _]. apply Hx. by left.
  - intros other [->|Hin]%elem_of_cons; [done|]. destruct (Hall other Hin) as [Hx Hy]. split; [|done]. intros Hi. apply Hx. by right.
Qed.

(** Clusters never share a context, and a client is always one of the cluster's own. *)
Lemma clients_own_context {Client} (contextOf : Client -> string) (build : string -> res Client) loaded kubeconfig contexts selected clients clusterID client clients' :
  NewClientSelector loaded kubeconfig contexts = Ok selected -> (forall name c, build name = Ok c -> contextOf c = name) ->
  (forall id c, clients !! id = Some c -> selected !! id = Some (contextOf c)) ->
  Select build selected clients clusterID = (Ok client, clients') ->
  selected !! clusterID = Some (contextOf client) /\
  (forall id c, clients' !! id = Some c -> selected !! id = Some (contextOf c)) /\
  (forall other, selected !! other = Some (contextOf client) -> other = clusterID).
Proof.
  intros Hnew Hbuild Hcache Hsel.
  assert (Hown : selected !! clusterID = Some (contextOf client) /\ forall id c, clients' !! id = Some c -> selected !! id = Some (contextOf c)).
  { revert Hsel. unfold Select. destruct (clients !! clusterID) as [c|] eqn:Hc; [intros [= <- <-]; auto|].
    destruct (selected !! clusterID) as [name|] eqn:Hn; [|done]. destruct (build name) as [c|] eqn:Hb; [|done]. intros [= <- <-].
    rewrite (Hbuild _ _ Hb). split; [done|]. intros id c' [[<- <-]|[_ Hc']]%lookup_insert_Some; [by rewrite (Hbuild _ _ Hb)|auto]. }
  destruct Hown as [Hown Hall]. split_and!; [done..|]. intros other Hother.
  unfold NewClientSelector in Hnew. rewrite bind_failIf in Hnew. destruct (_ || _); [done|].
  apply bind_ok in Hnew as (raw & _ & Hnew). apply bind_ok in Hnew as ([] & Hck & Heq%Ok_inj). subst selected.
  destruct (checkContexts_unique _ _ _ Hck) as [Hnd _].
  apply elem_of_map_to_list, list_elem_of_lookup in Hown as [i Hi]. apply elem_of_map_to_list, list_elem_of_lookup in Hother as [j Hj].
  assert (i = j) as ->; [|congruence]. eapply (NoDup_lookup _ _ _ (contextOf client) Hnd); by rewrite list_lookup_fmap, ?Hi, ?Hj.
Qed.

(** Readiness lies between the listener and the stop of the server. *)
Lemma monitor_ready es m : monitor atStart es = Some m -> mo_Ready m = true -> mo_Listening m = true /\ mo_Stopped m = false.
Proof.
  assert (Hgen : forall m0, (mo_Ready m0 = true -> mo_Listening m0 = true /\ mo_Stopped m0 = false) ->
    monitor m0 es = Some m -> mo_Ready m = true -> mo_Listening m = true /\ mo_Stopped m = false); [|by apply Hgen].
  induction es as [|e es IH]; intros m0 Hm0; cbn [monitor]; [by intros [= <-]|].
  destruct (monitorStep m0 e) as [m1|] eqn:He; [|done]. apply IH. revert He.
  destruct e as [r|r| |t|t|b| |]; cbn [monitorStep]; repeat case_match; intros [= <-]; cbn; try done.
  - intros Hr. destruct (Hm0 Hr) as [Hl Hs]. done.
  - destruct b; [|done]. intros _. match goal with H : true && _ = false |- _ => cbn in H; apply orb_false_iff in H as [?%negb_false_iff ?] end. done.
  - match goal with H : mo_Ready m0 || _ = false |- _ => apply orb_false_iff in H as [Hr _] end. by rewrite Hr.
Qed.

(** Wake hints change nothing but the time of the next poll. *)
Lemma hints_wake rounds effects on : runHints rounds = (effects, on) ->
  (on = false -> exists round, round ∈ rounds /\ (hn_Cancelled round = true \/ hn_CancelledPausing round = true)) /\
  (WakeEngine ∈ effects -> exists round, round ∈ rounds /\ hn_Poll round = HintReceived AgentRunRequestedType).
Proof.
  revert effects on. induction rounds as [|round rounds IH]; intros effects on; cbn [runHints]; [intros [= <- <-]; split; [done|by intros ?%elem_of_nil]|].
  assert (Hone : forall d b, hintRound round = (d, b) -> (b = false -> hn_Cancelled round = true \/ hn_CancelledPausing round = true) /\
    (WakeEngine ∈ d -> hn_Poll round = HintReceived AgentRunRequestedType)).
  { intros d b. unfold hintRound. destruct (hn_Poll round) as [ty| |] eqn:Hp, (hn_Cancelled round), (hn_Acknowledge round), (hn_CancelledPausing round);
      try case_bool_decide; subst; intros [= <- <-]; (split; [by auto|set_solver]). }
  destruct (hintRound round) as [d [|]] eqn:Hr; destruct (Hone _ _ eq_refl) as [Hstop Hwake].
  - destruct (runHints rounds) as [more b] eqn:Hrest. intros [= <- <-]. destruct (IH _ _ eq_refl) as [IH1 IH2]. split.
    + intros (r & Hin & Hc)%IH1. exists r. split; [by right|done].
    + intros [Hw|Hw]%elem_of_app; [exists round; split; [by left|by apply Hwake]|]. destruct (IH2 Hw) as (r & Hin & Hc). exists r. split; [by right|done].
  - intros [= <- <-]. split; [intros _; exists round; split; [by left|by apply Hstop]|]. intros Hw. exists round. split; [by left|by apply Hwake].
Qed.

End Orderly.

(** ** Examples *)

#[local] Existing Instance rfcUUIDs.
#[local] Existing Instance rfcUUIDText.
#[local] Existing Instance noIPLiterals.

Definition quietAnswers : CommonAnswers :=
  {| an_Driver := None; an_Ping := None; an_Listen := Ok tt; an_Shutdown := None; an_Served := Some ErrServerClosed |}.
Definition platformSignalled : PlatformAnswers := {| ap_Common := quietAnswers; ap_Storage := Ok tt; ap_Served := None |}.
Definition schedulerSignalled : SchedulerAnswers :=
  {| ay_Common := quietAnswers; ay_Hostname := "worker"; ay_Pid := 7; ay_HintClient := Ok tt; ay_Ending := Signalled;
     ay_EngineStopped := Some None |}.

