(* ===== verification/OperatorMain.v ===== *)
(** * The operator's entry point (operator/cmd/main.go)

    The flags of the manager, the options of its webhook and metrics servers that follow
    from them, and the steps up to the start of the manager. The flags the zap package
    adds and every call of controller-runtime are parameters.

    [operator_main_secure] says which options the manager is given and when the process
    exits without an error. *)

From S2P Require Import Prelude GoText Flags.

(** A change a server makes to its TLS configuration, and the protocols it then offers. *)
Inductive TLSOption := DisableHTTP2.

Definition applyTLS (option : TLSOption) (nextProtos : list string) : list string := match option with DisableHTTP2 => ["http/1.1"] end.

Record WebhookOptions := {
  wo_TLSOpts : list TLSOption;
  wo_CertDir : string;
  wo_CertName : string;
  wo_KeyName : string;
}.

Record MetricsOptions := {
  mx_BindAddress : string;
  mx_SecureServing : bool;
  mx_TLSOpts : list TLSOption;
  mx_Filtered : bool;          (* filters.WithAuthenticationAndAuthorization *)
  mx_CertDir : string;
  mx_CertName : string;
  mx_KeyName : string;
}.

Record ManagerOptions := {
  mg_Metrics : MetricsOptions;
  mg_Webhook : WebhookOptions;
  mg_HealthProbeBindAddress : string;
  mg_LeaderElection : bool;
  mg_LeaderElectionID : string;
}.

Definition operatorFlags : FlagSet := list_to_map
  [("metrics-bind-address", StringFlag "0"); ("health-probe-bind-address", StringFlag ":8081"); ("leader-elect", BoolFlag false);
   ("metrics-secure", BoolFlag true); ("webhook-cert-path", StringFlag EmptyString); ("webhook-cert-name", StringFlag "tls.crt");
   ("webhook-cert-key", StringFlag "tls.key"); ("metrics-cert-path", StringFlag EmptyString); ("metrics-cert-name", StringFlag "tls.crt");
   ("metrics-cert-key", StringFlag "tls.key"); ("enable-http2", BoolFlag false)].

(** The options [main] builds from the flags. *)
Definition managerOptions (formal : FlagSet) : ManagerOptions :=
  let tlsOpts := if negb (boolFlag "enable-http2" formal) then [DisableHTTP2] else [] in
  let webhook := {| wo_TLSOpts := tlsOpts; wo_CertDir := EmptyString; wo_CertName := EmptyString; wo_KeyName := EmptyString |} in
  let webhook :=
    if 0 <? len (stringFlag "webhook-cert-path" formal)
    then {| wo_TLSOpts := wo_TLSOpts webhook; wo_CertDir := stringFlag "webhook-cert-path" formal;
            wo_CertName := stringFlag "webhook-cert-name" formal; wo_KeyName := stringFlag "webhook-cert-key" formal |}
    else webhook in
  let secure := boolFlag "metrics-secure" formal in
  let metrics := {| mx_BindAddress := stringFlag "metrics-bind-address" formal; mx_SecureServing := secure; mx_TLSOpts := tlsOpts;
                    mx_Filtered := secure; mx_CertDir := EmptyString; mx_CertName := EmptyString; mx_KeyName := EmptyString |} in
  let metrics :=
    if 0 <? len (stringFlag "metrics-cert-path" formal)
    then {| mx_BindAddress := mx_BindAddress metrics; mx_SecureServing := mx_SecureServing metrics; mx_TLSOpts := mx_TLSOpts metrics;
            mx_Filtered := mx_Filtered metrics; mx_CertDir := stringFlag "metrics-cert-path" formal;
            mx_CertName := stringFlag "metrics-cert-name" formal; mx_KeyName := stringFlag "metrics-cert-key" formal |}
    else metrics in
  {| mg_Metrics := metrics; mg_Webhook := webhook; mg_HealthProbeBindAddress := stringFlag "health-probe-bind-address" formal;
     mg_LeaderElection := boolFlag "leader-elect" formal; mg_LeaderElectionID := "e666c13d.agentforge.dev" |}.

Inductive SetupStep := ReadKubeconfig | CreateManager | SetupController | AddHealthCheck | AddReadyCheck | StartManager.

#[export] Instance SetupStep_eq_dec : EqDecision SetupStep.
Proof. solve_decision. Defined.

(** The calls in their order; the first that fails ends the process with code 1. *)
Definition setupSteps : list SetupStep := [ReadKubeconfig; CreateManager; SetupController; AddHealthCheck; AddReadyCheck; StartManager].

Fixpoint runSteps (fails : SetupStep -> bool) (steps : list SetupStep) : Z * list SetupStep :=
  match steps with
  | [] => (0, [])
  | step :: rest =>
      if fails step then (1, [step]) else let '(code, done) := runSteps fails rest in (code, step :: done)
  end.

(** [main]: the exit code, the options of the manager, and the calls made. The set
    [flag.CommandLine] exits with code 2 on an error and with code 0 when help is asked for. *)
Definition operatorMain (zapFlags : FlagSet) (fails : SetupStep -> bool) (arguments : list string) :
    Z * option ManagerOptions * list SetupStep :=
  match parseFlags (operatorFlags ∪ zapFlags) arguments with
  | Err e => (if e == ErrHelp then 0 else 2, None, [])
  | Ok (formal, _) => let '(code, steps) := runSteps fails setupSteps in (code, Some (managerOptions formal), steps)
  end.

(** The protocols a server offers by TLS when it was configured for both versions. *)
Definition offered (options : list TLSOption) : list string := foldl (fun protos option => applyTLS option protos) ["h2"; "http/1.1"] options.

Lemma runSteps_spec fails steps code called : runSteps fails steps = (code, called) ->
  called `prefix_of` steps /\ (code = 0 \/ code = 1) /\ (code = 0 <-> forall step, step ∈ steps -> fails step = false) /\
  (forall front step, called = front ++ [step] -> forall before, before ∈ front -> fails before = false).
Proof.
  revert code called. induction steps as [|s steps IH]; intros code called; cbn [runSteps].
  { intros [= <- <-]. split_and!; [by exists []|by left|split; [by intros _ ? ?%elem_of_nil|done]|]. by intros [|? ?] ? ?. }
  destruct (fails s) eqn:Hs.
  { intros [= <- <-]. split_and!; [by eexists|by right|split; [done|]|].
    - intros Hall. rewrite Hall in Hs by (by left). done.
    - intros [|f front] step Heq before Hb; [by apply elem_of_nil in Hb|]. by destruct front. }
  destruct (runSteps fails steps) as [code' called'] eqn:Hr. intros [= <- <-]. destruct (IH _ _ eq_refl) as (Hp & Hc & Hz & Hf).
  split_and!; [by apply prefix_cons|done| |].
  - rewrite Hz. split; [intros Hall step [->|Hin]%elem_of_cons; auto|]. intros Hall step Hin. apply Hall. by right.
  - intros [|f front] step Heq before Hb; [by apply elem_of_nil in Hb|]. injection Heq as <- Heq.
    apply elem_of_cons in Hb as [->|Hb]; [done|]. by eapply Hf.
Qed.

(** The operator starts its manager with the options its flags ask for. Whatever the
    arguments, the flags of zap, and the calls that fail: both servers offer HTTP/1.1 only
    unless HTTP/2 was enabled; the metrics endpoint demands authentication and
    authorization exactly when it serves securely, which is the default; certificates are
    read exactly from the paths given. The manager is started last, after every other
    call has succeeded; the process exits with code 0 only when everything succeeded or
    help was asked for. *)
Theorem operator_main_secure zapFlags fails arguments :
  let '(code, options, called) := operatorMain zapFlags fails arguments in
  match parseFlags (operatorFlags ∪ zapFlags) arguments with
  | Err e => options = None /\ called = [] /\ (code = 0 <-> e = ErrHelp)
  | Ok (formal, _) =>
      called `prefix_of` setupSteps /\ (code = 0 <-> forall step, step ∈ setupSteps -> fails step = false) /\
      (StartManager ∈ called -> forall step, step ∈ setupSteps -> step <> StartManager -> fails step = false) /\
      exists manager, options = Some manager /\
        offered (mx_TLSOpts (mg_Metrics manager)) = offered (wo_TLSOpts (mg_Webhook manager)) /\
        ("h2" ∈ offered (mx_TLSOpts (mg_Metrics manager)) <-> boolFlag "enable-http2" formal = true) /\
        mx_Filtered (mg_Metrics manager) = mx_SecureServing (mg_Metrics manager) /\
        mx_SecureServing (mg_Metrics manager) = boolFlag "metrics-secure" formal /\
        mx_CertDir (mg_Metrics manager) = stringFlag "metrics-cert-path" formal /\
        wo_CertDir (mg_Webhook manager) = stringFlag "webhook-cert-path" formal
  end.
Proof.
  unfold operatorMain. destruct (parseFlags _ _) as [[formal rest]|e].
  - destruct (runSteps fails setupSteps) as [code called] eqn:Hr. destruct (runSteps_spec _ _ _ _ Hr) as (Hp & _ & Hz & Hf).
    split_and!; [done|done| |].
    + intros Hin step Hs Hne. destruct Hp as [rest' Hp]. assert (Heq : called = setupSteps).
      { destruct rest' as [|x rest' _] using rev_ind; [by rewrite app_nil_r in Hp|]. exfalso.
        change setupSteps with ([ReadKubeconfig; CreateManager; SetupController; AddHealthCheck; AddReadyCheck] ++ [StartManager]) in Hp.
        rewrite app_assoc in Hp. apply app_inj_tail in Hp as [Hp _]. assert (Hx : StartManager ∈ called ++ rest') by set_solver.
        rewrite <-Hp in Hx. revert Hx. apply (bool_decide_unpack _). reflexivity. }
      apply (Hf [ReadKubeconfig; CreateManager; SetupController; AddHealthCheck; AddReadyCheck] StartManager Heq).
      unfold setupSteps in Hs. set_solver.
    + eexists. split; [done|]. unfold managerOptions.
      assert (Hlen : forall s, (0 <? len s) = false -> s = EmptyString) by (intros [|c s]; [done|intros Hl%Z.ltb_ge; unfold len in Hl; cbn [String.length] in Hl; lia]).
      destruct (0 <? len (stringFlag "webhook-cert-path" formal)) eqn:H1, (0 <? len (stringFlag "metrics-cert-path" formal)) eqn:H2; cbn;
        rewrite ?(Hlen _ H1), ?(Hlen _ H2); (split_and!; [done| |done..]);
        destruct (boolFlag "enable-http2" formal); cbn; (split; [try done; set_solver|try done; intros _; by left]).
  - split_and!; [done|done|]. case_bool_decide; by split.
Qed.
